(* ===== verification/_CoqProject ===== *)
-Q . S2P
Prelude.v
Utf8.v
Frame.v
FloorWire.v
FloorCore.v
FloorInv.v
FloorThm.v
FloorExec.v
FloorDc.v
Keyexpr.v
Keyspace.v
MeshWire.v
MeshSession.v
MeshIndex.v
MeshCore.v
MeshDecl.v
MeshInv.v
MeshThm.v
Rewriter.v
Rtp.v
Rtcp.v
RtcpCore.v
TwccRecv.v
Placement.v
Stun.v
Publish.v
Room.v
Tracks.v
Sim.v
SubTable.v
SubInv.v
SubSlots.v
SubAssign.v
SubThm.v
Fan.v
FanRooms.v
HubView.v
HubConn.v
HubSes.v
HubSesThm.v
HubToken.v
HubSup.v
HubSupThm.v
Media.v
MediaInv.v
MediaSee.v
MediaKeep.v
MediaThm.v
MediaErr.v
Link.v
Demux.v
DemuxThm.v
Worker.v
Config.v
Uplink.v
AutoLayer.v
Stall.v
HubHttp.v
