(* ===== verification/Prelude.v ===== *)
(** * oxlens-sfu: verification library

    A model in Rocq of the core of oxlens-sfu, a WebRTC server for conferences and push-to-talk,
    and the theorems that make its parts correct. The program is a set of Rust crates under
    src/crates: [oxsfud] forwards media, [oxhubd] is the gateway the clients connect to,
    [oxmesh] is the message bus between the nodes, [oxsig] and [common] hold what they share.

    ** How the parts work together

    A client binds a session at a hub over a websocket and joins rooms. The hub finds the node
    of a room from the presence tokens on the mesh and relays requests to its SFU. The SFU keeps
    the rooms, the published streams and, for each subscriber, the table of m-lines that says
    which stream comes where; a packet from a publisher goes to the rows of the stream, is
    rewritten for each of them and sent. In a room with push-to-talk the floor arbiter decides
    who talks, and only that user's packets reach the room's slots. Notices go back over the
    mesh to the hubs and from there to the clients.

    ** The files

    Shared: [Prelude] (machine integers, bytes, strings, lists, the notations [let?], [let!] and
    [|>], the tactic [ulia], hints), [Utf8] (what the standard library accepts as a string).

    Wire formats: [Frame] (oxsig frame.rs, dc.rs), [FloorWire] (oxsig floor.rs), [MeshWire]
    (oxmesh wire.rs), [Rtp] (oxsfud fwd/mod.rs, sub/ext.rs), [Rtcp] (oxsfud rtcp/mod.rs), [Stun]
    (oxsfud link/stun.rs). Decoders return an option or a sum with the errors of the sources;
    the theorems are round trips and, for [Frame], exactly what is accepted.

    Floor control: [FloorCore] is oxsfud flr/core.rs, handler by handler, on [Floor * Step] (the
    state, and the messages, media effects and timers a handler produces); [FloorInv] its
    invariant, [FloorThm] the theorems: one talker, truthful announcements, a floor that is
    always reclaimed. [FloorExec] is the executor of ops/floor.rs with the timers and the slots
    of flr/bind.rs: decisions are numbered under the lock and applied outside of it in any order,
    and the slots still end where the last decision wants them. [FloorDc] is the data channel.

    Mesh: [Keyexpr] and [Keyspace] (expressions and keys; two expressions are found to meet
    exactly when a key matches both), [MeshSession] (one connection: what arrives is a prefix
    of what was sent, lane by lane), [MeshIndex], [MeshCore], [MeshDecl], [MeshInv], [MeshThm]
    (a node, oxmesh core.rs: tokens are up exactly while somebody holds them, a sample reaches
    each subscriber once, queries end).

    Media: [Publish] (packet cache, retransmission in both directions; oxsfud pub/mod.rs,
    rtcp/mod.rs), [Rewriter] (fwd/core.rs), [RtcpCore] and [TwccRecv] (rtcp/core.rs), [Tracks]
    (trk/mod.rs, aff/mod.rs: codecs, key frames against the payload formats of the RFCs), [Sim]
    (sim/mod.rs: which layer of a simulcast stream is sent), [AutoLayer] (sim/core.rs and the
    rest of sim/mod.rs: the estimate of the bandwidth and the automatic limit of the layers; the
    limit does not flap, and comes back), [Uplink] (the runtime of rtcp/mod.rs: what RTCP of a
    client may reach, key frames asked for in time and not too often, complete feedback), [Stall]
    (ops/timers.rs: subscribers that get nothing are told to start over, and only they).

    Connections: [Link] (oxsfud link/: framing on TCP, credentials, the paths of a transport),
    [Demux] and [DemuxThm] (fwd/rt.rs, the receiving thread: only who knows the password of a
    transport is heard, and the credentials that were handed out lead to their transports, once
    the commands the threads still have to push are carried out),
    [Worker] (fwd/rt.rs, fwd/mod.rs: the queues of a worker stay within their limit and it does
    not sleep on packets, for any interleaving of the threads).

    Subscriptions: [SubTable] is the m-line table of oxsfud sub/mod.rs, every operation;
    [SubInv], [SubSlots], [SubAssign] its invariant and what [sync] computes; [SubThm] the
    theorems: rows are for life, nothing is sent on a row before the client confirmed what it
    carries, the rows carry the best candidates. [Fan] and [FanRooms] join the tables of all
    subscribers, the streams and the slots (ops/media.rs, fwd/mod.rs): who gets a packet.

    Rooms: [Room] (room/mod.rs: members, versions, notices; a client that follows the notices
    has the roster of the server, but for the users of whom the room does not tell the truth,
    which the theorem names).

    Publications: [Media] is what the requests PUBLISH_TRACKS, TRACK_SET and AFFILIATION, joining,
    leaving and the first packet of a layer do to the registers of the streams (ops/media.rs,
    pub/mod.rs, gc/mod.rs); [MediaInv] the invariant of the registers, [MediaSee] and
    [MediaKeep] that each operation tells the members of the rooms what it changed, [MediaThm]
    the theorems: the registers agree, and a client that follows the notices has the tracks of
    the server; [MediaErr] what a refused PUBLISH_TRACKS leaves behind.

    Hub: [Placement] (bus/placement.rs), [HubView] (bus/view.rs: the map from rooms to nodes
    follows the tokens), [HubConn] (ses/conn.rs and oxsig op.rs: the writer of a connection),
    [HubSes] and [HubSesThm] (ses/mod.rs: sessions, and the subscriptions the hub keeps for them,
    which are right under every interleaving of the requests), [HubToken]
    (ses/token.rs: a token is honoured for what it was issued for and as long as it says),
    [HubSup] and [HubSupThm] (ops/supervisor.rs: the processes the hub starts; a unit has one
    process at most, is not tried more often than its limit allows, and a request is answered
    once), [HubHttp] (ops/http.rs, ops/admin.rs, room/mod.rs: the routes and their handlers;
    nothing is handed out or done over HTTP for somebody who may not have it).

    Configuration: [Config] (common policy.rs, system.rs, args.rs: what the checks accept, and
    that no secret is logged).

    ** How the code is modelled

    A struct is a record with the fields of the source, an enum an inductive type, a method on
    [&mut self] a function that returns the new state; [HashMap] and [BTreeMap] are [gmap],
    sets [gset], a [Vec] a list. Where the order in which a map is visited shows, the model
    visits it in some order and no theorem depends on which. Unsigned integers are [Z] with the
    wrap-around ([u16], [u32]) or the saturation of the source written out; times are
    milliseconds or microseconds in [Z]. [None] stands for the error or the early return of the
    source, and for a panic where the source can panic ([h264_profile]).

    What a mutex or one task protects is one step of the model. Where the source gives the lock
    up in between, or waits for the network, the parts are steps of their own ([FloorExec],
    [Fan.sync_table] and [Fan.apply_changes], [HubSes.join_begin] and [HubSes.join_end],
    [Demux.ice_restart] and [Demux.push_next]), down to single accesses to shared memory in
    [Worker]; the theorems whose names end in [_race] show what an unlucky order does.

    Loops that are not structural take fuel, always as much as rounds are possible because
    each round consumes something that is counted: bytes or characters ([Keyexpr], [MeshWire],
    [Rtp], [Rtcp], [Stun], [Tracks]), frames or notices queued ([MeshSession.fill],
    [HubConn.drain]), numbers of the window ([TwccRecv.collect], [Uplink.drain]); so running out of fuel is not
    an outcome, and the theorems say what the loop returns.

    Random numbers are a tape ([SubTable.tape]) and a function that runs out of it returns
    [None]; [sub_assignment_exact] shows how long a tape is enough. Floating point numbers are
    computed with [SpecFloat], bit for bit; [powf] is a parameter ([AutoLayer]). HMAC-SHA1 and CRC-32
    ([Stun]) and the signing of web tokens (the class [HubToken.Jwt]) come from other crates
    and are parameters with the laws that are relied on; the answers of other nodes are
    arguments ([HubSes]).

    ** Not modelled

    Sockets, tasks, DTLS and SRTP (the rest of fwd/rt.rs, link/dtls.rs): calls of the operating
    system and of other crates. JSON bodies (oxsig msg.rs) and the request handlers that mostly
    take them apart (ops/rooms.rs, the reading endpoints of oxhubd ops/): derived encodings. Most
    counters, the reading side of a websocket, what axum takes out of an HTTP request, logs and
    the admin tool. *)

From stdpp Require Export base numbers list strings gmap sorting relations.
From Stdlib Require Export ZArith Lia.
From Stdlib Require Import Strings.Byte.
From Stdlib Require Export Init.Byte.

Declare Scope ox_scope.
Delimit Scope ox_scope with ox.
Open Scope Z_scope.
Open Scope ox_scope.

(** Early return on [None], as the [?] operator of the sources. *)
Notation "'let?' x := e 'in' k" :=
  (match e with Some x => k | None => None end)
  (at level 10, x pattern, e at level 100, k at level 200) : ox_scope.

(** Early return of another value: [let .. else] of the sources. *)
Notation "'let!' x := e 'else' d 'in' k" :=
  (match e with Some x => k | None => d end)
  (at level 10, x pattern, e at level 100, d at level 100, k at level 200) : ox_scope.

(** A chain of state changes, in the order they are made. *)
Notation "s |> f" := (f s) (at level 68, f at level 67, left associativity, only parsing) : ox_scope.

(** ** Machine integers *)

Module Int.

(** [as u8], [as u16], ...: truncation to the low bits. *)
Definition u8 (z : Z) : Z := z mod 2 ^ 8.
Definition u16 (z : Z) : Z := z mod 2 ^ 16.
Definition u32 (z : Z) : Z := z mod 2 ^ 32.
Definition u64 (z : Z) : Z := z mod 2 ^ 64.

(** Two's complement reading of a value already truncated to [w] bits. *)
Definition signed (w z : Z) : Z := if z <? 2 ^ (w - 1) then z else z - 2 ^ w.
Definition i16 (z : Z) : Z := signed 16 (u16 z).
Definition i32 (z : Z) : Z := signed 32 (u32 z).
Definition i64 (z : Z) : Z := signed 64 (u64 z).

(** [saturating_sub] on unsigned values. *)
Definition sat_sub (a b : Z) : Z := Z.max 0 (a - b).

(** Range predicates. *)
Definition is_u8 (z : Z) : Prop := 0 <= z < 2 ^ 8.
Definition is_u16 (z : Z) : Prop := 0 <= z < 2 ^ 16.
Definition is_u32 (z : Z) : Prop := 0 <= z < 2 ^ 32.
Definition is_u64 (z : Z) : Prop := 0 <= z < 2 ^ 64.

End Int.
Export Int.

(** [lia] after unfolding the widths; division and modulo by constants are
    turned into equations. *)
Ltac ulia :=
  unfold is_u8, is_u16, is_u32, is_u64, u8, u16, u32, u64, sat_sub in *;
  change (2 ^ 8) with 256 in *;
  change (2 ^ 16) with 65536 in *;
  change (2 ^ 32) with 4294967296 in *;
  change (2 ^ 64) with 18446744073709551616 in *;
  Z.to_euclidean_division_equations; lia.

Lemma u8_id z : is_u8 z -> u8 z = z.
Proof. unfold is_u8, u8. apply Z.mod_small. Qed.
Lemma u16_id z : is_u16 z -> u16 z = z.
Proof. unfold is_u16, u16. apply Z.mod_small. Qed.
Lemma u32_id z : is_u32 z -> u32 z = z.
Proof. unfold is_u32, u32. apply Z.mod_small. Qed.
Lemma u64_id z : is_u64 z -> u64 z = z.
Proof. unfold is_u64, u64. apply Z.mod_small. Qed.
Lemma u8_range z : is_u8 (u8 z).
Proof. unfold is_u8, u8. apply Z.mod_pos_bound. lia. Qed.
Lemma u16_range z : is_u16 (u16 z).
Proof. unfold is_u16, u16. apply Z.mod_pos_bound. lia. Qed.
Lemma u32_range z : is_u32 (u32 z).
Proof. unfold is_u32, u32. apply Z.mod_pos_bound. lia. Qed.
Lemma u64_range z : is_u64 (u64 z).
Proof. unfold is_u64, u64. apply Z.mod_pos_bound. lia. Qed.

Create HintDb ox discriminated.
Create Rewrite HintDb len.
Create Rewrite HintDb ox.
#[export] Hint Resolve u8_range u16_range u32_range u64_range : ox.

(** ** Bytes *)

(** A [u8] of the sources is a [byte]; [bz] reads it as an integer and [zb] is
    the truncating cast back. *)
Definition bz (b : byte) : Z := Z.of_N (Byte.to_N b).
Definition zb (z : Z) : byte :=
  match Byte.of_N (Z.to_N (u8 z)) with Some b => b | None => x00 end.

Lemma bz_range b : 0 <= bz b < 256.
Proof. unfold bz. pose proof (Byte.to_N_bounded b). lia. Qed.

Lemma bz_u8 b : is_u8 (bz b).
Proof. pose proof (bz_range b). ulia. Qed.

Lemma bz_zb z : bz (zb z) = u8 z.
Proof.
  unfold zb. pose proof (u8_range z) as Hr. unfold is_u8 in Hr.
  destruct (Byte.of_N (Z.to_N (u8 z))) as [b|] eqn:E.
  - apply Byte.to_of_N in E. unfold bz. rewrite E. lia.
  - apply Byte.of_N_None_iff in E. lia.
Qed.

Lemma bz_inj a b : bz a = bz b -> a = b.
Proof.
  unfold bz. intros H. apply N2Z.inj in H.
  pose proof (Byte.of_to_N a). pose proof (Byte.of_to_N b). congruence.
Qed.

Lemma zb_bz b : zb (bz b) = b.
Proof. apply bz_inj. rewrite bz_zb. apply u8_id, bz_u8. Qed.

Lemma bz_zb_id z : 0 <= z < 256 -> bz (zb z) = z.
Proof. intros. rewrite bz_zb. apply u8_id. ulia. Qed.

#[export] Instance byte_eq_dec : EqDecision byte := Byte.byte_eq_dec.
#[export] Hint Resolve bz_range bz_u8 : ox.

(** Length of a slice, as a [usize]. *)
Definition len {A} (l : list A) : Z := Z.of_nat (length l).

Lemma len_nil {A} : len (@nil A) = 0.
Proof. reflexivity. Qed.
Lemma len_cons {A} (x : A) l : len (x :: l) = 1 + len l.
Proof. unfold len. simpl length. lia. Qed.
Lemma len_app {A} (l k : list A) : len (l ++ k) = len l + len k.
Proof. unfold len. rewrite length_app. lia. Qed.
Lemma len_nonneg {A} (l : list A) : 0 <= len l.
Proof. unfold len. lia. Qed.
Lemma len_nat {A} (l : list A) : Z.to_nat (len l) = length l.
Proof. unfold len. lia. Qed.
#[export] Hint Rewrite @len_nil @len_cons @len_app : len.
#[export] Hint Resolve len_nonneg : ox.

(** ** Big-endian integers: [to_be_bytes] and [from_be_bytes] *)

Fixpoint be (n : nat) (z : Z) : list byte :=
  match n with
  | O => []
  | S n => be n (z / 256) ++ [zb z]
  end.

Definition from_be (l : list byte) : Z :=
  fold_left (fun acc b => acc * 256 + bz b) l 0.

Lemma from_be_snoc l b : from_be (l ++ [b]) = from_be l * 256 + bz b.
Proof. unfold from_be. by rewrite fold_left_app. Qed.

Lemma length_be n z : length (be n z) = n.
Proof.
  revert z. induction n as [|n IH]; intros z; simpl; [done|].
  rewrite length_app, IH. simpl. lia.
Qed.

Lemma from_be_be n z : from_be (be n z) = z mod 256 ^ Z.of_nat n.
Proof.
  revert z. induction n as [|n IH]; intros z.
  - simpl. rewrite Z.mod_1_r. done.
  - cbn [be]. rewrite from_be_snoc, IH, bz_zb. unfold u8.
    replace (Z.of_nat (S n)) with (1 + Z.of_nat n) by lia.
    rewrite Z.pow_add_r, Z.pow_1_r by lia. change (2 ^ 8) with 256.
    rewrite (Z.rem_mul_r z 256) by (try apply Z.pow_nonzero; lia). lia.
Qed.

Lemma from_be_range l : 0 <= from_be l < 256 ^ len l.
Proof.
  induction l as [|b l IH] using rev_ind; [done|].
  rewrite from_be_snoc, len_app, Z.pow_add_r by (auto with ox).
  change (256 ^ len [b]) with 256. pose proof (bz_range b). lia.
Qed.

Lemma be_from_be l : be (length l) (from_be l) = l.
Proof.
  induction l as [|b l IH] using rev_ind; [done|].
  rewrite length_app, Nat.add_comm, from_be_snoc. cbn [length Nat.add be].
  pose proof (bz_range b) as Hb.
  rewrite Z.div_add_l, (Z.div_small (bz b)), Z.add_0_r, IH by lia.
  f_equal. f_equal. apply bz_inj. rewrite bz_zb. unfold u8. change (2 ^ 8) with 256.
  rewrite Z.add_comm, Z_mod_plus_full. by apply Z.mod_small.
Qed.

Lemma from_be_be_u8 z : is_u8 z -> from_be (be 1 z) = z.
Proof. intros. rewrite from_be_be. by apply Z.mod_small. Qed.
Lemma from_be_be_u16 z : is_u16 z -> from_be (be 2 z) = z.
Proof. intros. rewrite from_be_be. by apply Z.mod_small. Qed.
Lemma from_be_be_u32 z : is_u32 z -> from_be (be 4 z) = z.
Proof. intros. rewrite from_be_be. by apply Z.mod_small. Qed.

Lemma from_be_inj l k : length l = length k -> from_be l = from_be k -> l = k.
Proof. intros Hl H. rewrite <- (be_from_be l), <- (be_from_be k). congruence. Qed.

(** ** Bits *)

(** Or-ing in bits above the ones there are adds them. *)
Lemma lor_shift v x s : 0 <= s -> 0 <= v < 2 ^ s -> Z.lor v (Z.shiftl x s) = v + x * 2 ^ s.
Proof.
  intros Hs Hv. assert (Z.land v (Z.shiftl x s) = 0) as H.
  { apply Z.bits_inj'. intros i Hi. rewrite Z.land_spec, Z.bits_0.
    destruct (Z.lt_ge_cases i s) as [Hlt|Hge].
    - by rewrite Z.shiftl_spec_low, andb_false_r.
    - destruct (Z.eq_dec v 0) as [->|Hv0]; [by rewrite Z.bits_0|].
      rewrite (Z.bits_above_log2 v); [done|lia|]. apply Z.log2_lt_pow2; [lia|].
      assert (2 ^ s <= 2 ^ i) by (apply Z.pow_le_mono_r; lia). lia. }
  pose proof (Z.add_lor_land v (Z.shiftl x s)) as E. rewrite H in E.
  rewrite Z.shiftl_mul_pow2 in * by done. lia.
Qed.

(** Padding to a multiple of four. *)
Definition pad (n : nat) : nat := ((4 - n mod 4) mod 4)%nat.

Lemma pad_spec n : (pad n < 4 /\ (n + pad n) mod 4 = 0)%nat.
Proof.
  unfold pad. split; [apply Nat.mod_upper_bound; lia|]. pose proof (Nat.mod_upper_bound n 4 ltac:(lia)).
  pose proof (Nat.div_mod_eq n 4) as E. set (r := (n mod 4)%nat) in *.
  assert (K : forall k, (n + k = (n / 4 + 1) * 4)%nat -> ((n + k) mod 4 = 0)%nat) by (intros k ->; apply Nat.Div0.mod_mul).
  assert (r = 0 \/ r = 1 \/ r = 2 \/ r = 3)%nat as [Hr|[Hr|[Hr|Hr]]] by lia; rewrite Hr in *; cbn [Nat.sub].
  - change (4 mod 4)%nat with 0%nat. by rewrite Nat.add_0_r.
  - change (3 mod 4)%nat with 3%nat. apply K. lia.
  - change (2 mod 4)%nat with 2%nat. apply K. lia.
  - change (1 mod 4)%nat with 1%nat. apply K. lia.
Qed.

(** ** Results *)

(** [Result<A, E>] of the sources. *)
Inductive result (A E : Type) : Type :=
| Ok (a : A)
| Err (e : E).
Arguments Ok {A E} a.
Arguments Err {A E} e.

(** ** Strings as bytes *)

(** [str::as_bytes] and its inverse: a string is its UTF-8 byte sequence. *)
Definition sb (s : string) : list byte := String.list_byte_of_string s.
Definition bs (l : list byte) : string := String.string_of_list_byte l.

Lemma bs_sb s : bs (sb s) = s.
Proof. apply String.string_of_list_byte_of_string. Qed.
Lemma sb_bs l : sb (bs l) = l.
Proof. apply String.list_byte_of_string_of_list_byte. Qed.
Lemma sb_inj s t : sb s = sb t -> s = t.
Proof. intros H. rewrite <- (bs_sb s), <- (bs_sb t). congruence. Qed.
#[export] Hint Rewrite bs_sb sb_bs : ox.

(** ** Slices *)

Lemma take_app_len {A} (l k : list A) : take (length l) (l ++ k) = l.
Proof. by rewrite take_app_length. Qed.
Lemma drop_app_len {A} (l k : list A) : drop (length l) (l ++ k) = k.
Proof. by rewrite drop_app_length. Qed.

(** [iter().position(p)] and [Vec::insert]. *)
Fixpoint position {A} (p : A -> bool) (l : list A) : option nat :=
  match l with
  | [] => None
  | x :: l => if p x then Some O else S <$> position p l
  end.
Definition insert_at {A} (i : nat) (x : A) (l : list A) : list A := take i l ++ x :: drop i l.

(** Proves a decidable statement about one byte by evaluating it on all 256. *)
Ltac each_byte b := destruct b; vm_compute; try done; try (by split).

(** Splits the [if]s and [match]es of the goal or of a hypothesis, innermost
    scrutinee first, keeping the equations. *)
Ltac split_match :=
  match goal with
  | |- context [match ?x with _ => _ end] =>
      lazymatch x with
      | context [match _ with _ => _ end] => fail
      | _ => destruct x eqn:?
      end
  end.
Ltac split_match_in H :=
  match type of H with
  | context [match ?x with _ => _ end] =>
      lazymatch x with
      | context [match _ with _ => _ end] => fail
      | _ => destruct x eqn:?
      end
  end.

(** Boolean comparisons on integers as propositions. *)
Ltac zbool :=
  repeat match goal with
  | H : (_ && _)%bool = true |- _ => apply andb_prop in H as [? ?]
  | H : (_ || _)%bool = false |- _ => apply orb_false_elim in H as [? ?]
  | H : (_ <? _) = true |- _ => apply Z.ltb_lt in H
  | H : (_ <? _) = false |- _ => apply Z.ltb_ge in H
  | H : (_ <=? _) = true |- _ => apply Z.leb_le in H
  | H : (_ <=? _) = false |- _ => apply Z.leb_gt in H
  | H : (_ >? _) = _ |- _ => rewrite Z.gtb_ltb in H
  | H : (_ >=? _) = _ |- _ => rewrite Z.geb_leb in H
  | H : (_ =? _) = true |- _ => apply Z.eqb_eq in H
  | H : (_ =? _) = false |- _ => apply Z.eqb_neq in H
  | H : bool_decide _ = true |- _ => apply bool_decide_eq_true in H
  | H : bool_decide _ = false |- _ => apply bool_decide_eq_false in H
  | H : negb _ = true |- _ => apply negb_true_iff in H
  | H : negb _ = false |- _ => apply negb_false_iff in H
  end.
