(* ===== verification/Utf8.v ===== *)
(** * UTF-8 checking of the Rust standard library

    [String::from_utf8] and [String::from_utf8_lossy], which the wire decoders
    call on bytes from the network: a byte sequence is accepted exactly when it
    is well-formed UTF-8 (no overlong form, no surrogate, at most U+10FFFF), and
    the lossy reading replaces each maximal ill-formed piece by U+FFFD. *)

From S2P Require Import Prelude.

Module Utf8.

Definition between (lo hi : Z) (b : byte) : bool := (lo <=? bz b) && (bz b <=? hi).

(** A continuation byte. *)
Definition cont (b : byte) : bool := between 0x80 0xbf b.

Definition one (b : byte) : bool := between 0x00 0x7f b.
Definition two (b c : byte) : bool := between 0xc2 0xdf b && cont c.

(** The admissible second bytes of a three- or four-byte sequence. *)
Definition three (b c : byte) : bool :=
  (between 0xe0 0xe0 b && between 0xa0 0xbf c)
  || (between 0xe1 0xec b && cont c)
  || (between 0xed 0xed b && between 0x80 0x9f c)
  || (between 0xee 0xef b && cont c).
Definition four (b c : byte) : bool :=
  (between 0xf0 0xf0 b && between 0x90 0xbf c)
  || (between 0xf1 0xf3 b && cont c)
  || (between 0xf4 0xf4 b && between 0x80 0x8f c).

Fixpoint valid (l : list byte) : bool :=
  match l with
  | [] => true
  | b0 :: r0 =>
    if one b0 then valid r0 else
    match r0 with
    | [] => false
    | b1 :: r1 =>
      if two b0 b1 then valid r1 else
      if three b0 b1 then
        match r1 with
        | [] => false
        | b2 :: r2 => if cont b2 then valid r2 else false
        end
      else if four b0 b1 then
        match r1 with
        | [] => false
        | b2 :: r2 =>
          if cont b2 then
            match r2 with
            | [] => false
            | b3 :: r3 => if cont b3 then valid r3 else false
            end
          else false
        end
      else false
    end
  end.

(** U+FFFD, the replacement character. *)
Definition fffd : list byte := [xef; xbf; xbd].

Fixpoint lossy (l : list byte) : list byte :=
  match l with
  | [] => []
  | b0 :: r0 =>
    if one b0 then b0 :: lossy r0 else
    match r0 with
    | [] => fffd
    | b1 :: r1 =>
      if two b0 b1 then b0 :: b1 :: lossy r1 else
      if three b0 b1 then
        match r1 with
        | [] => fffd
        | b2 :: r2 => if cont b2 then b0 :: b1 :: b2 :: lossy r2 else fffd ++ lossy r1
        end
      else if four b0 b1 then
        match r1 with
        | [] => fffd
        | b2 :: r2 =>
          if cont b2 then
            match r2 with
            | [] => fffd
            | b3 :: r3 =>
              if cont b3 then b0 :: b1 :: b2 :: b3 :: lossy r3 else fffd ++ lossy r2
            end
          else fffd ++ lossy r1
        end
      else fffd ++ lossy r0
    end
  end.

(** [String::from_utf8(v).ok()] *)
Definition from_utf8 (v : list byte) : option string :=
  if valid v then Some (bs v) else None.

(** [String::from_utf8_lossy(v).into_owned()] *)
Definition from_utf8_lossy (v : list byte) : string := bs (lossy v).

(** A Rust [String] is a well-formed byte sequence. *)
Definition wf (s : string) : Prop := valid (sb s) = true.

Lemma valid_fffd l : valid (fffd ++ l) = valid l.
Proof. reflexivity. Qed.

(** Induction over the pieces both functions consume: by length. *)
Lemma len_ind (P : list byte -> Prop) :
  (forall l, (forall k, (length k < length l)%nat -> P k) -> P l) -> forall l, P l.
Proof.
  intros H l. remember (length l) as n eqn:E. revert l E.
  induction n as [n IH] using lt_wf_ind. intros l ->. apply H. intros k Hk. by eapply IH.
Qed.

(** Peels the pieces of [lossy]: each test it makes is also made by [valid]. *)
Ltac peel :=
  cbn [lossy valid];
  repeat match goal with
  | |- context [if ?t then _ else _] =>
      lazymatch t with
      | context [if _ then _ else _] => fail
      | _ => let E := fresh "T" in destruct t eqn:E
      end
  | |- context [match ?r with [] => _ | _ :: _ => _ end] => is_var r; destruct r
  end; cbn [valid];
  repeat match goal with E : ?t = _ |- context [if ?t then _ else _] => rewrite E end;
  rewrite ?valid_fffd.

Lemma lossy_valid : forall l, valid l = true -> lossy l = l.
Proof.
  intros l. induction l as [l IH] using len_ind. destruct l as [|b0 r0]; [done|].
  peel; intros H; try done; rewrite IH; simpl; try done; lia.
Qed.

Lemma valid_lossy : forall l, valid (lossy l) = true.
Proof.
  intros l. induction l as [l IH] using len_ind. destruct l as [|b0 r0]; [done|].
  peel; try done; apply IH; simpl; lia.
Qed.

Lemma from_utf8_wf s : wf s -> from_utf8 (sb s) = Some s.
Proof. unfold wf, from_utf8. intros ->. by rewrite bs_sb. Qed.

Lemma from_utf8_Some v s : from_utf8 v = Some s -> wf s /\ sb s = v.
Proof.
  unfold from_utf8, wf. destruct (valid v) eqn:E; intros H; [|done].
  injection H as <-. by rewrite sb_bs.
Qed.

Lemma from_utf8_lossy_wf s : wf s -> from_utf8_lossy (sb s) = s.
Proof. unfold wf, from_utf8_lossy. intros H. by rewrite lossy_valid, bs_sb. Qed.

End Utf8.
