(* ===== verification/Frame.v ===== *)
(** * Client frames: WebSocket and DataChannel

    [Module Ws] is crates/oxsig/src/frame.rs (8-byte head, JSON body),
    [Module Dc] is crates/oxsig/src/dc.rs (4-byte head, opaque payload).
    A buffer is a [list byte]; the slices of the sources are sublists. *)

From S2P Require Import Prelude.

Module Ws.

Definition VER : Z := 1.
Definition HEADER_LEN : Z := 8.
Definition MAX_FRAME_BYTES : Z := 1048576.
Definition KIND_MASK : Z := 3.

Inductive FrameKind := Request | KOk | Fail.

#[export] Instance FrameKind_eq_dec : EqDecision FrameKind.
Proof. solve_decision. Defined.

Definition bits (k : FrameKind) : Z :=
  match k with Request => 0 | KOk => 1 | Fail => 2 end.

(** [flags] is a [u8], [op] a [u16], [pid] a [u32]. *)
Record Header := mkHeader { flags : Z; op : Z; pid : Z }.

Definition wf_header (h : Header) : Prop :=
  is_u8 (flags h) /\ is_u16 (op h) /\ is_u32 (pid h).

Definition kind (h : Header) : FrameKind :=
  match Z.land (flags h) KIND_MASK with
  | 0 => Request
  | 1 => KOk
  | _ => Fail
  end.

(** [!KIND_MASK] is the complement within a [u8]. *)
Definition reserved (h : Header) : Z := Z.land (flags h) (255 - KIND_MASK).

Record Frame := mkFrame { header : Header; body : list byte }.

Inductive FrameError := TooShort | TooLarge | BadVersion | ReservedKind.

Definition decode (buf : list byte) : result Frame FrameError :=
  if len buf >? MAX_FRAME_BYTES then Err TooLarge
  else if len buf <? HEADER_LEN then Err TooShort
  else match buf with
  | b0 :: b1 :: b2 :: b3 :: b4 :: b5 :: b6 :: b7 :: rest =>
    if negb (bz b0 =? VER) then Err BadVersion
    else if Z.land (bz b1) KIND_MASK =? KIND_MASK then Err ReservedKind
    else Ok (mkFrame (mkHeader (bz b1) (from_be [b2; b3]) (from_be [b4; b5; b6; b7])) rest)
  | _ => Err TooShort
  end.

Definition encode_flags (flags op pid : Z) (body : list byte) : list byte :=
  [zb VER] ++ [zb flags] ++ be 2 op ++ be 4 pid ++ body.

Definition encode (kind : FrameKind) (op pid : Z) (body : list byte) : list byte :=
  encode_flags (bits kind) op pid body.

Definition reply_flags (req : Header) (kind : FrameKind) : Z :=
  Z.lor (reserved req) (bits kind).

(** The parsers of a body, over serde_json's [from_slice]. *)
Section Body.
Context {T JsonError : Type} (from_slice : list byte -> result T JsonError).

Definition body_value (empty_object : T) (body : list byte) : result T JsonError :=
  match body with
  | [] => Ok empty_object
  | _ => from_slice body
  end.

Definition parse_body (body : list byte) : result T JsonError :=
  match body with
  | [] => from_slice [x7b; x7d]
  | _ => from_slice body
  end.
End Body.

(** *** Facts about flag bytes, checked on every byte *)

Lemma flags_of_byte (h : Header) :
  is_u8 (flags h) -> exists b, flags h = bz b.
Proof. intros H. exists (zb (flags h)). rewrite bz_zb. symmetry. by apply u8_id. Qed.

Lemma kind_bits_byte b k :
  let f := Z.lor (Z.land (bz b) (255 - KIND_MASK)) (bits k) in
  is_u8 f /\ Z.land f KIND_MASK = bits k /\ Z.land f (255 - KIND_MASK) = Z.land (bz b) (255 - KIND_MASK).
Proof. destruct b, k; vm_compute; repeat split; discriminate. Qed.

Lemma land_mask_cases b :
  Z.land (bz b) KIND_MASK = 0 \/ Z.land (bz b) KIND_MASK = 1
  \/ Z.land (bz b) KIND_MASK = 2 \/ Z.land (bz b) KIND_MASK = 3.
Proof. destruct b; vm_compute; tauto. Qed.

Lemma encode_flags_cons f o p bd :
  encode_flags f o p bd =
    zb VER :: zb f :: zb (o / 256) :: zb o
    :: zb (p / 256 / 256 / 256) :: zb (p / 256 / 256) :: zb (p / 256) :: zb p :: bd.
Proof. reflexivity. Qed.

Lemma len_encode_flags f o p bd : len (encode_flags f o p bd) = HEADER_LEN + len bd.
Proof. rewrite encode_flags_cons. autorewrite with len. unfold HEADER_LEN. lia. Qed.

Lemma decode_encode_flags f o p bd :
  is_u8 f -> is_u16 o -> is_u32 p ->
  HEADER_LEN + len bd <= MAX_FRAME_BYTES ->
  decode (encode_flags f o p bd) =
    if Z.land f KIND_MASK =? KIND_MASK then Err ReservedKind
    else Ok (mkFrame (mkHeader f o p) bd).
Proof.
  intros Hf Ho Hp Hl. unfold decode. rewrite len_encode_flags.
  pose proof (len_nonneg bd). unfold HEADER_LEN, MAX_FRAME_BYTES in *.
  rewrite Z.gtb_ltb. destruct (Z.ltb_spec 1048576 (8 + len bd)); [lia|].
  destruct (Z.ltb_spec (8 + len bd) 8); [lia|].
  rewrite encode_flags_cons, !bz_zb, (u8_id f) by done. simpl (negb _). cbn iota.
  change [zb (o / 256); zb o] with (be 2 o).
  change [zb (p / 256 / 256 / 256); zb (p / 256 / 256); zb (p / 256); zb p] with (be 4 p).
  by rewrite from_be_be_u16, from_be_be_u32.
Qed.

Lemma be2_from_be a b : be 2 (from_be [a; b]) = [a; b].
Proof. apply (be_from_be [a; b]). Qed.
Lemma be4_from_be a b c d : be 4 (from_be [a; b; c; d]) = [a; b; c; d].
Proof. apply (be_from_be [a; b; c; d]). Qed.

(** What a successful [decode] says of the buffer. *)
Lemma decode_Ok_inv buf f :
  decode buf = Ok f ->
  wf_header (header f) /\ Z.land (flags (header f)) KIND_MASK <> KIND_MASK /\
  buf = encode_flags (flags (header f)) (op (header f)) (pid (header f)) (body f) /\
  len buf <= MAX_FRAME_BYTES.
Proof.
  unfold decode. intros H. rewrite Z.gtb_ltb in H.
  destruct (Z.ltb_spec MAX_FRAME_BYTES (len buf)); [done|].
  destruct (Z.ltb_spec (len buf) HEADER_LEN); [done|].
  do 8 (destruct buf as [|? buf]; [done|]).
  repeat split_match_in H; simplify_eq; zbool. cbn [header body flags op pid].
  split; [|split; [done|split; [|done]]].
  - repeat split; cbn [flags op pid]; try apply bz_range; try apply from_be_range.
  - unfold encode_flags. rewrite be2_from_be, be4_from_be, zb_bz. cbn [app].
    f_equal. apply bz_inj. by rewrite bz_zb_id by (unfold VER; lia).
Qed.

(** Decoding and encoding are inverse: a buffer decodes to a frame exactly when
    it is the encoding of that frame, with fields that fit their widths, a kind
    that is not the reserved one and a size within the limit. *)
Theorem ws_decode_iff buf f :
  decode buf = Ok f <->
  wf_header (header f) /\ Z.land (flags (header f)) KIND_MASK <> KIND_MASK /\
  buf = encode_flags (flags (header f)) (op (header f)) (pid (header f)) (body f) /\
  len buf <= MAX_FRAME_BYTES.
Proof.
  split; [apply decode_Ok_inv|]. intros ((Hf & Ho & Hp) & Hk & -> & Hl).
  rewrite len_encode_flags in Hl. rewrite decode_encode_flags by done.
  apply Z.eqb_neq in Hk. rewrite Hk. by destruct f as [[] ?].
Qed.

(** The classification of every buffer: the checks in the order the code makes
    them, and nothing else is refused. *)
Theorem ws_decode_complete buf :
  match decode buf with
  | Err TooLarge => MAX_FRAME_BYTES < len buf
  | Err TooShort => len buf < HEADER_LEN
  | Err BadVersion =>
      HEADER_LEN <= len buf <= MAX_FRAME_BYTES /\ forall b, buf !! 0%nat = Some b -> bz b <> VER
  | Err ReservedKind =>
      HEADER_LEN <= len buf <= MAX_FRAME_BYTES /\ buf !! 0%nat = Some (zb VER) /\
      exists b, buf !! 1%nat = Some b /\ Z.land (bz b) KIND_MASK = KIND_MASK
  | Ok f =>
      wf_header (header f) /\
      buf = encode_flags (flags (header f)) (op (header f)) (pid (header f)) (body f)
  end.
Proof.
  destruct (decode buf) as [f|e] eqn:E.
  { apply decode_Ok_inv in E. tauto. }
  unfold decode in E. rewrite Z.gtb_ltb in E.
  destruct (Z.ltb_spec MAX_FRAME_BYTES (len buf)); [by simplify_eq|].
  destruct (Z.ltb_spec (len buf) HEADER_LEN); [by simplify_eq|].
  do 8 (destruct buf as [|? buf]; [unfold HEADER_LEN in *; autorewrite with len in *; lia|]).
  repeat split_match_in E; simplify_eq; zbool.
  - split; [lia|]. cbn. intros ? [= <-]. done.
  - split; [lia|]. cbn. split.
    + f_equal. apply bz_inj. by rewrite bz_zb_id by (unfold VER; lia).
    + eexists. done.
Qed.

(** A reply built with [reply_flags] decodes to a frame of the asked kind that
    carries the request's reserved bits unchanged. *)
Theorem ws_reply_keeps_reserved (req : Header) k o p bd :
  wf_header req -> is_u16 o -> is_u32 p ->
  HEADER_LEN + len bd <= MAX_FRAME_BYTES ->
  exists h, decode (encode_flags (reply_flags req k) o p bd) = Ok (mkFrame h bd) /\
    kind h = k /\ reserved h = reserved req /\ op h = o /\ pid h = p.
Proof.
  intros (Hf & _ & _) Ho Hp Hl. destruct (flags_of_byte req Hf) as [b Hb].
  destruct (kind_bits_byte b k) as (Hu & Hk & Hr).
  exists (mkHeader (reply_flags req k) o p).
  unfold reply_flags, reserved, kind in *. cbn [flags op pid]. rewrite Hb.
  rewrite decode_encode_flags, Hk, Hr by done. by destruct k.
Qed.

End Ws.

Module Dc.

Definition VER : Z := 1.
Definition HEADER_LEN : Z := 4.
Definition MAX_PAYLOAD : Z := 65532.
Definition SVC_FLOOR : byte := x01.
Definition SVC_VOICE_ACTIVITY : byte := x02.

Record DcFrame := mkDcFrame { svc : byte; payload : list byte }.

Definition decode (buf : list byte) : option DcFrame :=
  match buf with
  | b0 :: b1 :: b2 :: b3 :: rest =>
    if negb (bz b0 =? VER) then None
    else
      let n := from_be [b2; b3] in
      if len buf <? HEADER_LEN + n then None
      else Some (mkDcFrame b1 (take (Z.to_nat n) rest))
  | _ => None
  end.

Definition encode (svc : byte) (payload : list byte) : option (list byte) :=
  if len payload >? MAX_PAYLOAD then None
  else Some ([zb VER] ++ [svc] ++ be 2 (u16 (len payload)) ++ payload).

Lemma dc_encode_Some s p b :
  encode s p = Some b <->
  len p <= MAX_PAYLOAD /\ b = zb VER :: s :: zb (len p / 256) :: zb (len p) :: p.
Proof.
  unfold encode. rewrite Z.gtb_ltb.
  destruct (Z.ltb_spec MAX_PAYLOAD (len p)) as [H|H].
  - split; [done|]. intros [? _]. lia.
  - rewrite u16_id by (pose proof (len_nonneg p); unfold MAX_PAYLOAD in *; ulia).
    split; [by intros [= <-]|by intros [_ ->]].
Qed.

Lemma len_encode s p b : encode s p = Some b -> len b = HEADER_LEN + len p.
Proof. intros [_ ->]%dc_encode_Some. autorewrite with len. unfold HEADER_LEN. lia. Qed.

(** Bytes after the announced payload are ignored; the payload is recovered. *)
Lemma dc_decode_encode s p b tail :
  encode s p = Some b -> decode (b ++ tail) = Some (mkDcFrame s p).
Proof.
  intros [Hl ->]%dc_encode_Some. pose proof (len_nonneg p). pose proof (len_nonneg tail).
  cbn [decode app]. rewrite bz_zb_id by (unfold VER; lia). cbn [negb Z.eqb VER Pos.eqb].
  change [zb (len p / 256); zb (len p)] with (be 2 (len p)).
  unfold MAX_PAYLOAD in *. rewrite from_be_be_u16 by ulia.
  autorewrite with len. unfold HEADER_LEN.
  destruct (Z.ltb_spec (1 + (1 + (1 + (1 + (len p + len tail))))) (4 + len p)); [lia|].
  by rewrite len_nat, take_app_len.
Qed.

(** No strict prefix of an encoded frame is accepted: a cut frame is dropped. *)
Theorem dc_truncated_dropped s p b k :
  encode s p = Some b -> (k < length b)%nat -> decode (take k b) = None.
Proof.
  intros E Hk. pose proof (len_encode _ _ _ E) as Hlen.
  apply dc_encode_Some in E as [Hl ->].
  do 4 (destruct k as [|k]; [done|]). cbn [take decode].
  rewrite bz_zb_id by (unfold VER; lia). cbn [negb Z.eqb VER Pos.eqb].
  change [zb (len p / 256); zb (len p)] with (be 2 (len p)).
  pose proof (len_nonneg p). unfold MAX_PAYLOAD in *. rewrite from_be_be_u16 by ulia.
  case_match eqn:E; [done|]. zbool. autorewrite with len in E.
  unfold HEADER_LEN, len in *. rewrite length_take in E. simpl in Hk. lia.
Qed.

End Dc.
