(* ===== verification/FloorWire.v ===== *)
(** * Floor messages on the wire (MBCP)

    crates/oxsig/src/floor.rs: one head byte (version, reserved bit, ack bit,
    type), the number of fields, then the fields as id, length, value.  The
    message constructors and the accessors of the sources are here too. *)

From S2P Require Import Prelude Utf8.

Module Mbcp.

Definition REQUEST : Z := 0.
Definition GRANTED : Z := 1.
Definition TAKEN : Z := 2.
Definition DENY : Z := 3.
Definition RELEASE : Z := 4.
Definition IDLE : Z := 5.
Definition REVOKE : Z := 6.
Definition QPOS_REQ : Z := 8.
Definition QINFO : Z := 9.
Definition ACK : Z := 10.

Definition MAX_VALUE : Z := 255.

Module tlv.
Definition PRIORITY : byte := x00.
Definition DURATION : byte := x01.
Definition CAUSE : byte := x02.
Definition QINFO : byte := x03.
Definition SPEAKER : byte := x04.
Definition SEQ : byte := x08.
Definition ACKTYPE : byte := x0c.
Definition PREV : byte := x1a.
Definition REASON : byte := x1b.
Definition ROOM : byte := x1d.
End tlv.

Record Msg := mkMsg { msg_type : Z; ack : bool; tlvs : list (byte * list byte) }.

Definition adopted (t : Z) : bool :=
  existsb (Z.eqb t) [REQUEST; GRANTED; TAKEN; DENY; RELEASE; IDLE; REVOKE; QPOS_REQ; QINFO; ACK].

Definition ack_allowed (t : Z) : bool :=
  existsb (Z.eqb t) [GRANTED; TAKEN; DENY; RELEASE; IDLE; QINFO].

(** The fields, each as id, length, value. *)
Definition encode_tlv (f : byte * list byte) : list byte :=
  [fst f] ++ [zb (len (snd f))] ++ snd f.

Definition encode (m : Msg) : option (list byte) :=
  if ack m && negb (ack_allowed (msg_type m)) then None
  else if (len (tlvs m) >? 255) || existsb (fun f => len (snd f) >? MAX_VALUE) (tlvs m) then None
  else Some
    ([zb (Z.lor (Z.land (msg_type m) 0x0f) (if ack m then 0x10 else 0))]
     ++ [zb (len (tlvs m))] ++ concat (map encode_tlv (tlvs m))).

(** The field loop: at most [n] fields, stopping at the first cut one. *)
Fixpoint decode_tlvs (n : nat) (rest : list byte) : list (byte * list byte) :=
  match n with
  | O => []
  | S n =>
    match rest with
    | id :: l :: rest' =>
      if len rest <? 2 + bz l then []
      else (id, take (Z.to_nat (bz l)) rest') :: decode_tlvs n (drop (Z.to_nat (bz l)) rest')
    | _ => []
    end
  end.

Definition decode (b : list byte) : option Msg :=
  match b with
  | head :: n :: rest =>
    if negb (Z.land (bz head) 0xc0 =? 0) then None
    else
      let t := Z.land (bz head) 0x0f in
      if negb (adopted t) then None
      else Some (mkMsg t (negb (Z.land (bz head) 0x10 =? 0)) (decode_tlvs (Z.to_nat (bz n)) rest))
  | _ => None
  end.

(** *** Accessors *)

Definition get (m : Msg) (id : byte) : option (list byte) :=
  snd <$> List.find (fun f => bool_decide (fst f = id)) (tlvs m).

Definition room (m : Msg) : option string := Utf8.from_utf8_lossy <$> get m tlv.ROOM.

Definition two_byte_head (b : list byte) : option Z :=
  match b with [x; _] => Some (bz x) | _ => None end.

Definition priority (m : Msg) : option Z := b ← get m tlv.PRIORITY; two_byte_head b.

Definition seq (m : Msg) : option Z :=
  b ← get m tlv.SEQ; match b with [x; y] => Some (from_be [x; y]) | _ => None end.

Definition ack_of (m : Msg) : option Z := b ← get m tlv.ACKTYPE; two_byte_head b.

Definition cause (m : Msg) : option Z :=
  b ← get m tlv.CAUSE; match b with x :: _ => Some (bz x) | [] => None end.

Definition text (m : Msg) (id : byte) : option string := Utf8.from_utf8_lossy <$> get m id.

(** *** Constructors *)

Definition new (t : Z) (a : bool) : Msg := mkMsg t a [].
Definition push (m : Msg) (id : byte) (v : list byte) : Msg :=
  mkMsg (msg_type m) (ack m) (tlvs m ++ [(id, v)]).
Definition u8spare (v : Z) : list byte := [zb v; x00].
Definition u16be (v : Z) : list byte := be 2 v.
Definition utf8 (s : string) : list byte := sb s.

(** A field that is there only when the option is. *)
Definition push_opt (m : Msg) (id : byte) (v : option (list byte)) : Msg :=
  match v with Some v => push m id v | None => m end.

Definition request (rm : string) (p : option Z) : Msg :=
  push_opt (push (new REQUEST false) tlv.ROOM (utf8 rm)) tlv.PRIORITY (u8spare <$> p).
Definition granted (p duration_s : Z) (rm : string) : Msg :=
  push (push (push (new GRANTED true) tlv.PRIORITY (u8spare p)) tlv.DURATION (u16be duration_s))
    tlv.ROOM (utf8 rm).
Definition taken (speaker : string) (sq : Z) (rm : string) : Msg :=
  push (push (push (new TAKEN true) tlv.SPEAKER (utf8 speaker)) tlv.SEQ (u16be sq)) tlv.ROOM (utf8 rm).
Definition deny_msg (c : Z) (rm : string) (reason : option string) : Msg :=
  push_opt (push (push (new DENY true) tlv.CAUSE [zb c]) tlv.ROOM (utf8 rm)) tlv.REASON (utf8 <$> reason).
Definition release (rm : string) : Msg := push (new RELEASE false) tlv.ROOM (utf8 rm).
Definition idle (sq : Z) (rm : string) (prev : option string) : Msg :=
  push_opt (push (push (new IDLE false) tlv.SEQ (u16be sq)) tlv.ROOM (utf8 rm)) tlv.PREV (utf8 <$> prev).
Definition revoke_msg (c : Z) (rm : string) (reason : option string) : Msg :=
  push_opt (push (push (new REVOKE false) tlv.CAUSE [zb c]) tlv.ROOM (utf8 rm)) tlv.REASON (utf8 <$> reason).
Definition queue_pos_request (rm : string) : Msg := push (new QPOS_REQ false) tlv.ROOM (utf8 rm).
Definition queue_info (position p : Z) (rm : string) : Msg :=
  push (push (new QINFO false) tlv.QINFO [zb position; zb p]) tlv.ROOM (utf8 rm).
Definition ack_msg (acked : Z) (rm : string) : Msg :=
  push (push (new ACK false) tlv.ACKTYPE (u8spare acked)) tlv.ROOM (utf8 rm).

(** *** Fields *)

Definition wf_tlvs (fs : list (byte * list byte)) : Prop :=
  len fs <= 255 /\ Forall (fun f => len (snd f) <= MAX_VALUE) fs.

Lemma existsb_too_long fs :
  existsb (fun f : byte * list byte => len (snd f) >? MAX_VALUE) fs = false <->
  Forall (fun f => len (snd f) <= MAX_VALUE) fs.
Proof.
  induction fs as [|f fs IH]; simpl; [by split; constructor|].
  rewrite Forall_cons, <- IH, Z.gtb_ltb, orb_false_iff, Z.ltb_ge. tauto.
Qed.

Lemma mbcp_encode_Some m b :
  encode m = Some b <->
  (ack m = true -> ack_allowed (msg_type m) = true) /\ wf_tlvs (tlvs m) /\
  b = zb (Z.lor (Z.land (msg_type m) 0x0f) (if ack m then 0x10 else 0))
      :: zb (len (tlvs m)) :: concat (map encode_tlv (tlvs m)).
Proof.
  unfold encode, wf_tlvs. rewrite <- existsb_too_long, Z.gtb_ltb, <- Z.ltb_ge.
  destruct (ack m), (ack_allowed (msg_type m)), (255 <? len (tlvs m)),
    (existsb _ (tlvs m)); simpl; (split; [intros [=]; subst|intros (? & [? ?] & ->)]); naive_solver.
Qed.

Lemma encode_tlv_eq f : encode_tlv f = fst f :: zb (len (snd f)) :: snd f.
Proof. reflexivity. Qed.

Lemma decode_tlvs_encode fs tail :
  Forall (fun f => len (snd f) <= MAX_VALUE) fs ->
  decode_tlvs (length fs) (concat (map encode_tlv fs) ++ tail) = fs.
Proof.
  induction 1 as [|[id v] fs Hv _ IH]; [done|].
  cbn [length map concat decode_tlvs]. rewrite <- app_assoc, encode_tlv_eq. cbn [app fst snd] in *.
  pose proof (len_nonneg v). unfold MAX_VALUE in *. rewrite bz_zb_id by lia.
  autorewrite with len.
  match goal with |- context [?a <? ?b] => destruct (Z.ltb_spec a b) end.
  - pose proof (len_nonneg (concat (map encode_tlv fs))). pose proof (len_nonneg tail). lia.
  - by rewrite len_nat, take_app_len, drop_app_len, IH.
Qed.

(** Decoding yields fields whose lengths fit one byte, at most as many as asked. *)
Lemma decode_tlvs_wf n rest :
  (length (decode_tlvs n rest) <= n)%nat /\
  Forall (fun f => len (snd f) <= MAX_VALUE) (decode_tlvs n rest).
Proof.
  revert rest. induction n as [|n IH]; intros rest; [by split; constructor|].
  cbn [decode_tlvs]. destruct rest as [|id [|l rest]]; try (by split; simpl; [lia|constructor]).
  case_match; [by split; simpl; [lia|constructor]|].
  destruct (IH (drop (Z.to_nat (bz l)) rest)) as [Hl HF].
  split; [simpl; lia|]. constructor; [|done].
  simpl. unfold len, MAX_VALUE. rewrite length_take. pose proof (bz_range l). lia.
Qed.

(** Cutting the bytes only drops fields from the end. *)
Lemma decode_tlvs_prefix n k rest :
  decode_tlvs n (take k rest) `prefix_of` decode_tlvs n rest.
Proof.
  revert k rest. induction n as [|n IH]; intros k rest; [done|].
  destruct rest as [|id [|l rest]], k as [|[|k]];
    try (apply prefix_nil); try (by rewrite firstn_nil).
  cbn [take decode_tlvs]. autorewrite with len. pose proof (bz_range l) as Hr.
  destruct (Z.ltb_spec (1 + (1 + len (take k rest))) (2 + bz l)); [apply prefix_nil|].
  assert (Z.to_nat (bz l) <= k)%nat.
  { unfold len in *. rewrite length_take in *. lia. }
  destruct (Z.ltb_spec (1 + (1 + len rest)) (2 + bz l)) as [Hc|_].
  { unfold len in *. rewrite length_take in *. lia. }
  rewrite take_take, Nat.min_l by done. apply prefix_cons.
  replace (drop (Z.to_nat (bz l)) (take k rest))
    with (take (k - Z.to_nat (bz l)) (drop (Z.to_nat (bz l)) rest)); [apply IH|].
  rewrite take_drop_commute. f_equal. f_equal. lia.
Qed.

(** *** The head byte *)

Lemma adopted_bound t : adopted t = true -> 0 <= t < 16.
Proof.
  unfold adopted. intros H. apply existsb_exists in H as (x & Hx & He). apply Z.eqb_eq in He.
  subst. simpl in Hx. unfold REQUEST, GRANTED, TAKEN, DENY, RELEASE, IDLE, REVOKE, QPOS_REQ, QINFO, ACK in Hx. lia.
Qed.

Lemma head_fields t (a : bool) :
  0 <= t < 16 ->
  let h := bz (zb (Z.lor (Z.land t 0x0f) (if a then 0x10 else 0))) in
  Z.land h 0xc0 = 0 /\ Z.land h 0x0f = t /\ negb (Z.land h 0x10 =? 0) = a.
Proof.
  intros Ht. assert (Hin : In t (List.map Z.of_nat (List.seq 0 16))).
  { apply in_map_iff. exists (Z.to_nat t). split; [lia|]. apply in_seq. lia. }
  repeat (destruct Hin as [<-|Hin]; [destruct a; vm_compute; by repeat split|]). done.
Qed.

Lemma decode_head t (a : bool) n rest :
  adopted t = true ->
  decode (zb (Z.lor (Z.land t 0x0f) (if a then 0x10 else 0)) :: n :: rest) =
    Some (mkMsg t a (decode_tlvs (Z.to_nat (bz n)) rest)).
Proof.
  intros Ha. destruct (head_fields t a (adopted_bound t Ha)) as (H1 & H2 & H3).
  unfold decode. rewrite H1, H2, H3, Ha. done.
Qed.

Lemma decode_Some_type b m :
  decode b = Some m -> adopted (msg_type m) = true /\ wf_tlvs (tlvs m).
Proof.
  unfold decode. intros H. destruct b as [|h [|n rest]]; [done..|].
  repeat split_match_in H; simplify_eq. zbool. cbn [msg_type tlvs]. split; [done|].
  destruct (decode_tlvs_wf (Z.to_nat (bz n)) rest) as [Hl HF]. split; [|done].
  unfold len. pose proof (bz_range n). lia.
Qed.

(** Every message the encoder emits decodes to itself, whatever follows it. *)
Lemma mbcp_decode_encode m b tail :
  adopted (msg_type m) = true -> encode m = Some b -> decode (b ++ tail) = Some m.
Proof.
  intros Ha [_ [[Hn HF] ->]]%mbcp_encode_Some. cbn [app]. rewrite decode_head by done.
  pose proof (len_nonneg (tlvs m)).
  rewrite bz_zb_id, len_nat, decode_tlvs_encode by (done || lia). by destruct m.
Qed.

(** A message that was received can be sent again and is read the same, provided
    its ack bit is one the encoder allows; no other received message is refused. *)
Theorem mbcp_decoded_reencodes b m :
  decode b = Some m ->
  (exists b', encode m = Some b' /\ decode b' = Some m) <->
  (ack m = true -> ack_allowed (msg_type m) = true).
Proof.
  intros [Ha Hw]%decode_Some_type. split.
  - intros (b' & [H _]%mbcp_encode_Some & _). done.
  - intros Hk. eexists. split; [by apply mbcp_encode_Some|].
    rewrite <- (app_nil_r (_ :: _)), <- (app_nil_r (concat _)). cbn [app].
    rewrite decode_head by done. destruct Hw as [Hn HF]. pose proof (len_nonneg (tlvs m)).
    rewrite bz_zb_id, len_nat, app_nil_r, decode_tlvs_encode by (done || lia). by destruct m.
Qed.

(** A message cut anywhere after its two head bytes still decodes, to the same
    type and ack bit with some of the last fields missing; none is altered. *)
Theorem mbcp_truncation_drops_fields m b k :
  adopted (msg_type m) = true -> encode m = Some b -> (2 <= k)%nat ->
  exists m', decode (take k b) = Some m' /\
    msg_type m' = msg_type m /\ ack m' = ack m /\ tlvs m' `prefix_of` tlvs m.
Proof.
  intros Ha [_ [[Hn HF] ->]]%mbcp_encode_Some Hk. destruct k as [|[|k]]; [lia..|]. cbn [take].
  rewrite decode_head by done. eexists. split; [done|]. do 2 (split; [done|]).
  pose proof (len_nonneg (tlvs m)). rewrite bz_zb_id, len_nat by lia. cbn [tlvs].
  etransitivity; [apply decode_tlvs_prefix|].
  rewrite <- (app_nil_r (concat _)). by rewrite decode_tlvs_encode.
Qed.

Lemma mbcp_truncation_drops_fields_witness :
  exists b m', encode (granted 3 30 "room") = Some b /\ decode (take 10 b) = Some m' /\ tlvs m' `prefix_of` tlvs (granted 3 30 "room").
Proof.
  destruct (encode (granted 3 30 "room")) as [b|] eqn:E; [|exfalso; vm_compute in E; discriminate].
  destruct (mbcp_truncation_drops_fields (granted 3 30 "room") b 10) as (m' & H1 & _ & _ & H2);
    [reflexivity|exact E|lia|]. exists b, m'. auto.
Defined.

End Mbcp.
