(* ===== verification/FloorCore.v ===== *)
(** * Floor control: the server's state machine

    crates/oxsfud/src/flr/core.rs.  One [Floor] per room: the arbiter state [g]
    (idle, taken, being revoked), the talker, the queue, and one [Part] per user.
    Each method of the sources that takes [&mut self] and the step accumulator
    [&mut Step] is a function on [Floor * Step]; a public method starts from the
    empty step.  [BTreeSet]/[BTreeMap] are [gset]/[gmap], iterated in key order. *)

From S2P Require Import Prelude FloorWire.

Module Flr.

Definition SEQ_WRAP : Z := 65536.
Definition RELEASE_TYPE : Z := Mbcp.RELEASE.

(** Causes and limits of crates/oxsig/src/floor.rs. *)
Module deny.
Definition ONLY_ONE : Z := 3.
Definition RETRY_AFTER : Z := 4.
Definition RECV_ONLY : Z := 5.
Definition QUEUE_FULL : Z := 7.
Definition NOT_PUBROOM : Z := 101.
Definition NO_PERMISSION : Z := 102.
Definition OTHER_REASON : Z := 255.
End deny.
Module revoke.
Definition TOO_LONG : Z := 2.
Definition NO_PERMISSION : Z := 3.
Definition PREEMPTED : Z := 4.
End revoke.
Module qpos.
Definition NOT_IN_QUEUE : Z := 254.
End qpos.
Module timers.
Definition C7 : Z := 10.
Definition C8 : Z := 3.
Definition C20 : Z := 3.
Definition C21 : Z := 3.
End timers.

Inductive G := GIdle | GTaken | GPrevoke.
Inductive P := NpIdle | NpTaken | Permitted | Prevoke | NpSends | Releasing.
Inductive Mt := Request | Granted | Taken | Deny | Release | Idle | Revoke | QposReq | Qinfo | Ack | Rtp.

#[export] Instance G_eq_dec : EqDecision G. Proof. solve_decision. Defined.
#[export] Instance P_eq_dec : EqDecision P. Proof. solve_decision. Defined.
#[export] Instance Mt_eq_dec : EqDecision Mt. Proof. solve_decision. Defined.

Record Msg := mkMsg { mt : Mt; ma : option string; mn : Z; md : Z; mq : Z }.
Definition msg (t : Mt) (a : option string) (n d : Z) : Msg := mkMsg t a n d 0.

Record Out := mkOut { to : string; om : Msg }.

Inductive Fx :=
| FBind (u : string)
| FRelease (prev : option string).

Record Step := mkStep { out : list Out; labels : list string; fx : list Fx }.
Definition empty_step : Step := mkStep [] [] [].

Record Waiter := mkWaiter { wu : string; wp : Z; wpre : bool }.

Record Part := mkPart {
  part : option P; pub_room : bool; perm : bool; retry : bool; released : bool;
  g_taken : bool; c8 : Z; c21 : Z; rcause : Z }.
Definition default_part : Part := mkPart None false false false false false 0 0 0.

Record Floor := mkFloor {
  g : G; speaker : option string; sprio : Z; revoking : option string; rprio : Z;
  rcause_g : Z; queue : list Waiter; succ : bool; rtp_seen : bool; first_rtp : bool;
  c20 : Z; c7 : Z; idle_bcast : bool; prev : option string; members : gset string;
  parts : gmap string Part; seq : Z; qmax : Z; t2_secs : Z }.

(** Field assignments. *)
Definition set_part x (p : Part) : Part :=
  mkPart x (pub_room p) (perm p) (retry p) (released p) (g_taken p) (c8 p) (c21 p) (rcause p).
Definition set_pub_room x (p : Part) : Part :=
  mkPart (part p) x (perm p) (retry p) (released p) (g_taken p) (c8 p) (c21 p) (rcause p).
Definition set_perm x (p : Part) : Part :=
  mkPart (part p) (pub_room p) x (retry p) (released p) (g_taken p) (c8 p) (c21 p) (rcause p).
Definition set_retry x (p : Part) : Part :=
  mkPart (part p) (pub_room p) (perm p) x (released p) (g_taken p) (c8 p) (c21 p) (rcause p).
Definition set_released x (p : Part) : Part :=
  mkPart (part p) (pub_room p) (perm p) (retry p) x (g_taken p) (c8 p) (c21 p) (rcause p).
Definition set_g_taken x (p : Part) : Part :=
  mkPart (part p) (pub_room p) (perm p) (retry p) (released p) x (c8 p) (c21 p) (rcause p).
Definition set_c8 x (p : Part) : Part :=
  mkPart (part p) (pub_room p) (perm p) (retry p) (released p) (g_taken p) x (c21 p) (rcause p).
Definition set_c21 x (p : Part) : Part :=
  mkPart (part p) (pub_room p) (perm p) (retry p) (released p) (g_taken p) (c8 p) x (rcause p).
Definition set_rcause x (p : Part) : Part :=
  mkPart (part p) (pub_room p) (perm p) (retry p) (released p) (g_taken p) (c8 p) (c21 p) x.
Definition set_g x (f : Floor) : Floor :=
  mkFloor x (speaker f) (sprio f) (revoking f) (rprio f) (rcause_g f) (queue f) (succ f)
    (rtp_seen f) (first_rtp f) (c20 f) (c7 f) (idle_bcast f) (prev f) (members f) (parts f) (seq
    f) (qmax f) (t2_secs f).
Definition set_speaker x (f : Floor) : Floor :=
  mkFloor (g f) x (sprio f) (revoking f) (rprio f) (rcause_g f) (queue f) (succ f) (rtp_seen f)
    (first_rtp f) (c20 f) (c7 f) (idle_bcast f) (prev f) (members f) (parts f) (seq f) (qmax f)
    (t2_secs f).
Definition set_sprio x (f : Floor) : Floor :=
  mkFloor (g f) (speaker f) x (revoking f) (rprio f) (rcause_g f) (queue f) (succ f) (rtp_seen
    f) (first_rtp f) (c20 f) (c7 f) (idle_bcast f) (prev f) (members f) (parts f) (seq f) (qmax
    f) (t2_secs f).
Definition set_revoking x (f : Floor) : Floor :=
  mkFloor (g f) (speaker f) (sprio f) x (rprio f) (rcause_g f) (queue f) (succ f) (rtp_seen f)
    (first_rtp f) (c20 f) (c7 f) (idle_bcast f) (prev f) (members f) (parts f) (seq f) (qmax f)
    (t2_secs f).
Definition set_rprio x (f : Floor) : Floor :=
  mkFloor (g f) (speaker f) (sprio f) (revoking f) x (rcause_g f) (queue f) (succ f) (rtp_seen
    f) (first_rtp f) (c20 f) (c7 f) (idle_bcast f) (prev f) (members f) (parts f) (seq f) (qmax
    f) (t2_secs f).
Definition set_rcause_g x (f : Floor) : Floor :=
  mkFloor (g f) (speaker f) (sprio f) (revoking f) (rprio f) x (queue f) (succ f) (rtp_seen f)
    (first_rtp f) (c20 f) (c7 f) (idle_bcast f) (prev f) (members f) (parts f) (seq f) (qmax f)
    (t2_secs f).
Definition set_queue x (f : Floor) : Floor :=
  mkFloor (g f) (speaker f) (sprio f) (revoking f) (rprio f) (rcause_g f) x (succ f) (rtp_seen
    f) (first_rtp f) (c20 f) (c7 f) (idle_bcast f) (prev f) (members f) (parts f) (seq f) (qmax
    f) (t2_secs f).
Definition set_succ x (f : Floor) : Floor :=
  mkFloor (g f) (speaker f) (sprio f) (revoking f) (rprio f) (rcause_g f) (queue f) x (rtp_seen
    f) (first_rtp f) (c20 f) (c7 f) (idle_bcast f) (prev f) (members f) (parts f) (seq f) (qmax
    f) (t2_secs f).
Definition set_rtp_seen x (f : Floor) : Floor :=
  mkFloor (g f) (speaker f) (sprio f) (revoking f) (rprio f) (rcause_g f) (queue f) (succ f) x
    (first_rtp f) (c20 f) (c7 f) (idle_bcast f) (prev f) (members f) (parts f) (seq f) (qmax f)
    (t2_secs f).
Definition set_first_rtp x (f : Floor) : Floor :=
  mkFloor (g f) (speaker f) (sprio f) (revoking f) (rprio f) (rcause_g f) (queue f) (succ f)
    (rtp_seen f) x (c20 f) (c7 f) (idle_bcast f) (prev f) (members f) (parts f) (seq f) (qmax f)
    (t2_secs f).
Definition set_c20 x (f : Floor) : Floor :=
  mkFloor (g f) (speaker f) (sprio f) (revoking f) (rprio f) (rcause_g f) (queue f) (succ f)
    (rtp_seen f) (first_rtp f) x (c7 f) (idle_bcast f) (prev f) (members f) (parts f) (seq f)
    (qmax f) (t2_secs f).
Definition set_c7 x (f : Floor) : Floor :=
  mkFloor (g f) (speaker f) (sprio f) (revoking f) (rprio f) (rcause_g f) (queue f) (succ f)
    (rtp_seen f) (first_rtp f) (c20 f) x (idle_bcast f) (prev f) (members f) (parts f) (seq f)
    (qmax f) (t2_secs f).
Definition set_idle_bcast x (f : Floor) : Floor :=
  mkFloor (g f) (speaker f) (sprio f) (revoking f) (rprio f) (rcause_g f) (queue f) (succ f)
    (rtp_seen f) (first_rtp f) (c20 f) (c7 f) x (prev f) (members f) (parts f) (seq f) (qmax f)
    (t2_secs f).
Definition set_prev x (f : Floor) : Floor :=
  mkFloor (g f) (speaker f) (sprio f) (revoking f) (rprio f) (rcause_g f) (queue f) (succ f)
    (rtp_seen f) (first_rtp f) (c20 f) (c7 f) (idle_bcast f) x (members f) (parts f) (seq f)
    (qmax f) (t2_secs f).
Definition set_members x (f : Floor) : Floor :=
  mkFloor (g f) (speaker f) (sprio f) (revoking f) (rprio f) (rcause_g f) (queue f) (succ f)
    (rtp_seen f) (first_rtp f) (c20 f) (c7 f) (idle_bcast f) (prev f) x (parts f) (seq f) (qmax
    f) (t2_secs f).
Definition set_parts x (f : Floor) : Floor :=
  mkFloor (g f) (speaker f) (sprio f) (revoking f) (rprio f) (rcause_g f) (queue f) (succ f)
    (rtp_seen f) (first_rtp f) (c20 f) (c7 f) (idle_bcast f) (prev f) (members f) x (seq f)
    (qmax f) (t2_secs f).
Definition set_seq x (f : Floor) : Floor :=
  mkFloor (g f) (speaker f) (sprio f) (revoking f) (rprio f) (rcause_g f) (queue f) (succ f)
    (rtp_seen f) (first_rtp f) (c20 f) (c7 f) (idle_bcast f) (prev f) (members f) (parts f) x
    (qmax f) (t2_secs f).

Definition new (qmax t2_secs : Z) : Floor :=
  mkFloor GIdle None 0 None 0 0 [] false false false 0 0 false None ∅ ∅ 0 qmax t2_secs.

(** *** The accumulator *)

Abbreviation St := (Floor * Step)%type.

Definition modf (h : Floor -> Floor) (s : St) : St := (h s.1, s.2).
Definition label (l : string) (s : St) : St :=
  (s.1, mkStep (out s.2) (labels s.2 ++ [l]) (fx s.2)).
Definition emit (o : Out) (s : St) : St :=
  (s.1, mkStep (out s.2 ++ [o]) (labels s.2) (fx s.2)).
Definition effect (e : Fx) (s : St) : St :=
  (s.1, mkStep (out s.2) (labels s.2) (fx s.2 ++ [e])).

(** [self.p(u)] followed by writes: the entry is made if it is missing. *)
Definition upd (u : string) (h : Part -> Part) (f : Floor) : Floor :=
  set_parts (<[u := h (default default_part (parts f !! u))]> (parts f)) f.

Definition part_of (f : Floor) (u : string) : option P := p ← parts f !! u; part p.

(** [self.parts.get(u).map(|x| x.retry).unwrap_or(false)] and the like. *)
Definition pget (f : Floor) (u : string) : Part := default default_part (parts f !! u).

Definition holder (f : Floor) : option string :=
  match g f with GTaken => speaker f | GPrevoke => revoking f | GIdle => None end.
Definition holder_prio (f : Floor) : Z :=
  if bool_decide (g f = GTaken) then sprio f else rprio f.
Definition alone (f : Floor) : bool := bool_decide (size (members f) <= 1)%nat.

(** *** The queue *)

Definition is_user (u : string) (w : Waiter) : bool := bool_decide (wu w = u).
Definition in_q (f : Floor) (u : string) : bool := existsb (is_user u) (queue f).
Definition pos (f : Floor) (u : string) : Z :=
  match position (is_user u) (queue f) with
  | Some i => Z.of_nat i + 1
  | None => qpos.NOT_IN_QUEUE
  end.
Definition qprio (f : Floor) (u : string) : Z :=
  match List.find (is_user u) (queue f) with Some w => wp w | None => 0 end.
Definition dequeue (u : string) (f : Floor) : Floor :=
  set_queue (List.filter (fun w => negb (is_user u w)) (queue f)) f.
Definition pre_q (f : Floor) : bool := existsb wpre (queue f).

Definition before (w x : Waiter) : bool :=
  (wpre w && negb (wpre x)) || (eqb (wpre w) (wpre x) && (wp w >? wp x)).
Definition insert_q (w : Waiter) (f : Floor) : Floor :=
  match position (before w) (queue f) with
  | Some i => set_queue (insert_at i w (queue f)) f
  | None => set_queue (queue f ++ [w]) f
  end.

Definition t2_full (f : Floor) : Z := t2_secs f.

(** *** Sending *)

Definition seqd (t : Mt) : bool := match t with Taken | Idle => true | _ => false end.
Definition bump (f : Floor) : Floor := set_seq ((seq f + 1) mod SEQ_WRAP) f.

Definition send (u : string) (t : Mt) (a : option string) (n d : Z) (s : St) : St :=
  let b := seqd t && (d =? 0) in
  let s := if b then modf bump s else s in
  let q := if b then seq s.1 else if seqd t then d else 0 in
  emit (mkOut u (mkMsg t a n (if seqd t then 0 else d) q)) s.

Definition enter_r (u : string) (dst : P) (s : St) : St :=
  match dst with
  | NpIdle => s |> label "FLR.S.P.NP_IDLE.enter"
      |> modf (upd u (fun p => p |> set_g_taken false |> set_c21 0 |> set_part (Some dst)))
  | NpTaken => s |> label "FLR.S.P.NP_TAKEN.enter"
      |> modf (upd u (fun p => p |> set_g_taken true |> set_c21 1 |> set_part (Some dst)))
  | Permitted => s |> label "FLR.S.P.PERMITTED.enter"
      |> modf (upd u (fun p => p |> set_released false |> set_c21 0 |> set_part (Some dst)))
  | Prevoke => s |> label "FLR.S.P.PREVOKE.enter"
      |> modf (upd u (fun p => p |> set_c8 1 |> set_c21 0 |> set_part (Some dst)))
  | _ => s |> label "FLR.S.P.NPSENDS.enter"
      |> modf (upd u (fun p => p |> set_c8 1 |> set_c21 0 |> set_part (Some dst)))
  end.

Definition send_e (u : string) (dst : P) (m : Msg) (s : St) : St :=
  s |> enter_r u dst |> send u (mt m) (ma m) (mn m) (md m).

(** *** An arbiter event delivered to one participant *)

Definition part_a (u : string) (ev : Msg) (s : St) : St :=
  match mt ev, part_of s.1 u with
  | Qinfo, _ => s |> label "FLR.S.P.any.a_QINFO" |> send u Qinfo None (mn ev) (md ev)
  | Deny, _ => s |> label "FLR.S.P.any.a_DENY" |> send u Deny None (mn ev) 0
  | Granted, Some NpIdle =>
      s |> label "FLR.S.P.NP_IDLE.a_GRANTED" |> send_e u Permitted (msg Granted None (mn ev) (md ev))
  | Taken, Some NpIdle =>
      s |> label "FLR.S.P.NP_IDLE.a_TAKEN" |> send_e u NpTaken (msg Taken (ma ev) 0 (mq ev))
  | Idle, Some NpIdle => s |> label "FLR.S.P.NP_IDLE.a_IDLE" |> send u Idle (ma ev) 0 (mq ev)
  | _, Some NpIdle => s |> label "FLR.S.P.NP_IDLE.a_other"
  | Granted, Some NpTaken =>
      s |> label "FLR.S.P.NP_TAKEN.a_GRANTED" |> send_e u Permitted (msg Granted None (mn ev) (md ev))
  | Taken, Some NpTaken =>
      s |> label "FLR.S.P.NP_TAKEN.a_TAKEN" |> modf (upd u (set_c21 1))
        |> send u Taken (ma ev) 0 (mq ev)
  | Idle, Some NpTaken =>
      s |> label "FLR.S.P.NP_TAKEN.a_IDLE" |> send_e u NpIdle (msg Idle (ma ev) 0 (mq ev))
  | _, Some NpTaken => s |> label "FLR.S.P.NP_TAKEN.a_other"
  | Granted, Some Permitted =>
      s |> label "FLR.S.P.PERMITTED.a_GRANTED" |> send u Granted None (mn ev) (md ev)
  | Idle, Some Permitted => s |> label "FLR.S.P.PERMITTED.a_IDLE" |> enter_r u NpIdle
  | Taken, Some Permitted =>
      s |> label "FLR.S.P.PERMITTED.a_TAKEN" |> send_e u NpTaken (msg Taken (ma ev) 0 (mq ev))
  | Revoke, Some Permitted =>
      s |> label "FLR.S.P.PERMITTED.a_REVOKE" |> modf (upd u (set_rcause (mn ev)))
        |> send_e u Prevoke (msg Revoke None (mn ev) 0)
  | _, Some Permitted => s |> label "FLR.S.P.PERMITTED.a_other"
  | Idle, Some Prevoke =>
      s |> label "FLR.S.P.PREVOKE.a_IDLE" |> send_e u NpIdle (msg Idle (ma ev) 0 (mq ev))
  | Taken, Some Prevoke =>
      s |> label "FLR.S.P.PREVOKE.a_TAKEN" |> send_e u NpTaken (msg Taken (ma ev) 0 (mq ev))
  | _, Some Prevoke => s |> label "FLR.S.P.PREVOKE.a_other"
  | _, Some Releasing => s |> label "FLR.S.P.RELEASING.a_any"
  | Idle, _ => s |> label "FLR.S.P.NPSENDS.a_IDLE" |> modf (upd u (set_g_taken false))
  | Taken, _ => s |> label "FLR.S.P.NPSENDS.a_TAKEN" |> modf (upd u (set_g_taken true))
  | _, _ => s |> label "FLR.S.P.NPSENDS.a_other"
  end.

(** The members in key order. *)
Definition sorted_members (f : Floor) : list string :=
  merge_sort String.le (elements (members f)).

Definition fan (ev : Msg) (skip : option string) (s : St) : St :=
  let rest := List.filter (fun x => negb (bool_decide (Some x = skip))) (sorted_members s.1) in
  let s := if seqd (mt ev) then modf bump s else s in
  let ev := if seqd (mt ev) then mkMsg (mt ev) (ma ev) (mn ev) (md ev) (seq s.1) else ev in
  fold_left (fun s u => part_a u ev s) rest s.

(** *** The arbiter *)

Definition enter_taken (s : St) : St :=
  let s := s |> label "FLR.S.G.TAKEN.enter" |> modf (set_idle_bcast false) in
  let sp := default "" (speaker s.1) in
  let m := msg Granted None (sprio s.1) (t2_full s.1) in
  s |> part_a sp m |> fan (msg Taken (Some sp) 0 0) (Some sp) |> effect (FBind sp).

Definition idle_enter (s : St) : St :=
  match queue s.1 with
  | [] =>
    let s := s |> label "FLR.S.G.IDLE.enter_empty"
      |> modf (fun f => f |> set_g GIdle |> set_speaker None |> set_revoking None
                          |> set_first_rtp false |> set_idle_bcast true |> set_c7 1) in
    let pv := prev s.1 in
    s |> fan (msg Idle pv 0 0) None |> effect (FRelease pv)
  | w :: q =>
    s |> label "FLR.S.G.IDLE.enter_succession"
      |> modf (fun f => f |> set_queue q |> set_g GTaken |> set_speaker (Some (wu w))
                          |> set_sprio (wp w) |> set_revoking None |> set_succ true
                          |> set_rtp_seen false |> set_first_rtp false |> set_c20 1)
      |> enter_taken
  end.

Definition prevoke_enter (u : string) (cause : Z) (s : St) : St :=
  s |> label "FLR.S.G.PREVOKE.enter"
    |> modf (fun f => f |> set_g GPrevoke |> set_revoking (Some u) |> set_rprio (sprio f)
                        |> set_rcause_g cause |> set_speaker None)
    |> part_a u (msg Revoke None cause 0).

Definition arb_req_idle (u : string) (p : Z) (s : St) : St :=
  if negb (bool_decide (g s.1 = GIdle)) then s |> label "FLR.S.G.any.req_discard"
  else if alone s.1 then
    s |> label "FLR.S.G.IDLE.req_alone" |> part_a u (msg Deny None deny.ONLY_ONE 0)
  else if retry (pget s.1 u) then
    s |> label "FLR.S.G.IDLE.req_retry_after" |> part_a u (msg Deny None deny.RETRY_AFTER 0)
  else
    s |> label "FLR.S.G.IDLE.req_grant"
      |> modf (fun f => f |> set_g GTaken |> set_speaker (Some u) |> set_sprio p |> set_succ false
                          |> set_rtp_seen false |> set_first_rtp false |> set_c20 0)
      |> enter_taken.

Definition is_speaker (f : Floor) (u : string) : bool :=
  bool_decide (g f = GTaken) && bool_decide (speaker f = Some u).
Definition is_revoking (f : Floor) (u : string) : bool :=
  bool_decide (g f = GPrevoke) && bool_decide (revoking f = Some u).

Definition arb_req_permitted (u : string) (t2_left : Z) (s : St) : St :=
  if is_speaker s.1 u then
    let s := s |> label "FLR.S.G.TAKEN.req_regrant" in
    let d := if first_rtp s.1 then t2_left else t2_full s.1 in
    s |> part_a u (msg Granted None (sprio s.1) d)
  else s |> label "FLR.S.G.any.regrant_discard".

Definition arb_preempt (u : string) (p : Z) (s : St) : St :=
  if bool_decide (g s.1 = GTaken) then
    let s := s |> label "FLR.S.G.TAKEN.preempt"
               |> modf (fun f => set_queue (insert_at 0 (mkWaiter u p true) (queue f)) f) in
    let sp := default "" (speaker s.1) in
    s |> prevoke_enter sp revoke.PREEMPTED |> part_a u (msg Qinfo None 1 p)
  else s |> label "FLR.S.G.PREVOKE.preempt_discard".

Definition arb_rel (u : string) (s : St) : St :=
  if is_speaker s.1 u then
    s |> label "FLR.S.G.TAKEN.rel_speaker" |> modf (set_prev (Some u)) |> idle_enter
  else if is_revoking s.1 u then
    s |> label "FLR.S.G.PREVOKE.rel_revoked" |> modf (set_prev (Some u)) |> idle_enter
  else s |> label "FLR.S.G.any.rel_discard".

Definition arb_rtp (u : string) (s : St) : St :=
  if is_speaker s.1 u then
    s |> label "FLR.S.G.TAKEN.rtp" |> modf (fun f => f |> set_rtp_seen true |> set_first_rtp true)
  else if is_revoking s.1 u then s |> label "FLR.S.G.PREVOKE.rtp"
  else s |> label "FLR.S.G.any.rtp_discard".

(** *** A message of one participant *)

Definition revoke3 (u : string) (s : St) : St :=
  s |> modf (upd u (set_rcause revoke.NO_PERMISSION))
    |> send_e u NpSends (msg Revoke None revoke.NO_PERMISSION 0).

Definition taken_req (u : string) (p : Z) (s : St) : St :=
  if retry (pget s.1 u) then
    s |> label "FLR.S.P.NP_TAKEN.req_retry_after" |> send u Deny None deny.RETRY_AFTER 0
  else if in_q s.1 u then
    s |> label "FLR.S.P.NP_TAKEN.req_renotify" |> send u Qinfo None (pos s.1 u) (qprio s.1 u)
  else if (p >? holder_prio s.1) && negb (pre_q s.1) then
    s |> label "FLR.S.P.NP_TAKEN.req_preempt" |> arb_preempt u p
  else if p >? holder_prio s.1 then s |> label "FLR.S.P.NP_TAKEN.req_preempt_blocked"
  else if len (queue s.1) >=? qmax s.1 then
    s |> label "FLR.S.P.NP_TAKEN.req_full" |> send u Deny None deny.QUEUE_FULL 0
  else
    let s := s |> label "FLR.S.P.NP_TAKEN.req_enqueue" |> modf (insert_q (mkWaiter u p false)) in
    s |> send u Qinfo None (pos s.1 u) p.

Definition ack_release (u : string) (s : St) : St := send u Ack None RELEASE_TYPE 0 s.

Definition part_c (u : string) (ev : Msg) (t2_left : Z) (s : St) : St :=
  let pp := pget s.1 u in
  match part_of s.1 u, mt ev with
  | Some NpIdle, Request => s |> label "FLR.S.P.NP_IDLE.rx_REQUEST" |> arb_req_idle u (mn ev)
  | Some NpIdle, Release =>
      let s := s |> label "FLR.S.P.NP_IDLE.rx_RELEASE" |> ack_release u |> modf (dequeue u) in
      s |> send u Idle (prev s.1) 0 0
  | Some NpIdle, Rtp =>
      if released pp then s |> label "FLR.S.P.NP_IDLE.rx_RTP_after_release" |> revoke3 u
      else s |> label "FLR.S.P.NP_IDLE.rx_RTP_drop"
  | Some NpIdle, _ => s |> label "FLR.S.P.NP_IDLE.rx_other"
  | Some NpTaken, Request => s |> label "FLR.S.P.NP_TAKEN.rx_REQUEST" |> taken_req u (mn ev)
  | Some NpTaken, Release =>
      let s := s |> label "FLR.S.P.NP_TAKEN.rx_RELEASE" |> ack_release u
                 |> modf (upd u (set_c21 1)) |> modf (dequeue u) in
      s |> send u Taken (holder s.1) 0 0
  | Some NpTaken, Ack =>
      if mn ev =? 2 then s |> label "FLR.S.P.NP_TAKEN.rx_ACK_taken" |> modf (upd u (set_c21 0))
      else s |> label "FLR.S.P.NP_TAKEN.rx_ACK_other"
  | Some NpTaken, QposReq =>
      s |> label "FLR.S.P.NP_TAKEN.rx_QPOS_REQ" |> send u Qinfo None (pos s.1 u) (qprio s.1 u)
  | Some NpTaken, Rtp => s |> label "FLR.S.P.NP_TAKEN.rx_RTP" |> revoke3 u
  | Some NpTaken, _ => s |> label "FLR.S.P.NP_TAKEN.rx_other"
  | Some Permitted, Release =>
      s |> label "FLR.S.P.PERMITTED.rx_RELEASE" |> modf (upd u (set_released true))
        |> ack_release u |> arb_rel u
  | Some Permitted, Request => s |> label "FLR.S.P.PERMITTED.rx_REQUEST" |> arb_req_permitted u t2_left
  | Some Permitted, Rtp => s |> label "FLR.S.P.PERMITTED.rx_RTP" |> arb_rtp u
  | Some Permitted, _ => s |> label "FLR.S.P.PERMITTED.rx_other"
  | Some Prevoke, Release => s |> label "FLR.S.P.PREVOKE.rx_RELEASE" |> ack_release u |> arb_rel u
  | Some Prevoke, Rtp => s |> label "FLR.S.P.PREVOKE.rx_RTP" |> arb_rtp u
  | Some Prevoke, _ => s |> label "FLR.S.P.PREVOKE.rx_other"
  | _, Release =>
      if g_taken pp then
        let s := s |> label "FLR.S.P.NPSENDS.rx_RELEASE_taken" |> ack_release u in
        s |> send_e u NpTaken (msg Taken (holder s.1) 0 0)
      else
        let s := s |> label "FLR.S.P.NPSENDS.rx_RELEASE_idle" |> ack_release u in
        s |> send_e u NpIdle (msg Idle (prev s.1) 0 0)
  | _, Rtp => s |> label "FLR.S.P.NPSENDS.rx_RTP"
  | _, _ => s |> label "FLR.S.P.NPSENDS.rx_other"
  end.

(** *** The public operations *)

Definition start (f : Floor) : St := (f, empty_step).

Definition member (f : Floor) (u : string) : bool := bool_decide (u ∈ members f).

Definition server_rx (u : string) (m : Msg) (half : bool) (t2_left : Z) (f : Floor) : St :=
  let s := start f in
  let mt_is t := bool_decide (mt m = t) in
  if mt_is Ack && negb (bool_decide (part_of f u = Some NpTaken)) then s |> label "FLR.S.gate.ack_drop"
  else if negb (member f u) && mt_is Request then
    s |> label "FLR.S.gate.not_in_room" |> send u Deny None deny.OTHER_REASON 0
  else if negb (member f u) then s |> label "FLR.S.gate.not_in_room_drop"
  else
    let pp := pget f u in
    if mt_is Request && negb half then
      s |> label "FLR.S.gate.recv_only" |> send u Deny None deny.RECV_ONLY 0
    else if mt_is Request && negb (pub_room pp) then
      s |> label "FLR.S.gate.not_pubroom" |> send u Deny None deny.NOT_PUBROOM 0
    else if mt_is Request && negb (perm pp) then
      s |> label "FLR.S.gate.no_permission" |> send u Deny None deny.NO_PERMISSION 0
    else s |> part_c u m t2_left.

Definition ready (u : string) (f : Floor) : St :=
  let s := start f in
  let h := holder f in
  if bool_decide (h = Some u) then s |> label "FLR.S.P.join.self"
  else match h with
  | Some _ => s |> label "FLR.S.P.join.taken" |> send u Taken h 0 0
  | None => s |> label "FLR.S.P.join.idle" |> send u Idle (prev f) 0 0
  end.

Definition perm_down (u : string) (f : Floor) : St :=
  let s := start f |> modf (upd u (set_perm false)) in
  if is_speaker s.1 u then s |> label "FLR.S.perm.speaker" |> prevoke_enter u revoke.NO_PERMISSION
  else if in_q s.1 u then
    s |> label "FLR.S.perm.queued" |> modf (dequeue u)
      |> part_a u (msg Deny None deny.NO_PERMISSION 0)
  else s |> label "FLR.S.perm.other".

Definition perm_up (u : string) (f : Floor) : St :=
  start f |> label "FLR.S.perm.up" |> modf (upd u (set_perm true)).

Definition away (u : string) (s : St) : St :=
  if is_speaker s.1 u then
    s |> label "FLR.S.G.TAKEN.client_release" |> modf (set_prev (Some u)) |> idle_enter
  else if is_revoking s.1 u then s |> label "FLR.S.G.PREVOKE.client_release"
  else if in_q s.1 u then s |> label "FLR.S.away.queued" |> modf (dequeue u)
  else s |> label "FLR.S.away.other".

Definition ws_pub_select (u : string) (f : Floor) : St :=
  start f |> label "FLR.S.ws.pub_select" |> modf (upd u (set_pub_room true)).

Definition ws_pub_away (u : string) (f : Floor) : St :=
  start f |> label "FLR.S.ws.pub_away" |> modf (upd u (set_pub_room false)) |> away u.

Definition ws_leave (u : string) (f : Floor) : St :=
  start f |> label "FLR.S.ws.leave" |> modf (upd u (set_pub_room false)) |> away u
    |> modf (fun f => set_members (members f ∖ {[u]}) f)
    |> modf (upd u (fun p => p |> set_retry false |> set_part (Some Releasing))).

Definition ws_join (u : string) (pm : bool) (f : Floor) : St :=
  let s := start f in
  let s := if is_revoking f u then
      s |> label "FLR.S.ws.join_revoking" |> modf (fun f => set_prev (revoking f) f) |> idle_enter
    else s |> label "FLR.S.ws.join" in
  let s := s |> modf (fun f => set_members ({[u]} ∪ members f) f) in
  let taken := bool_decide (holder s.1 <> None) in
  s |> modf (upd u (fun p => p |> set_part (Some (if taken then NpTaken else NpIdle))
       |> set_g_taken taken |> set_pub_room false |> set_perm pm |> set_retry false
       |> set_released false |> set_rcause 0)).

Definition rtp (u : string) (f : Floor) : St :=
  if negb (member f u) then start f |> label "FLR.S.gate.not_in_room_drop"
  else start f |> part_c u (msg Rtp None 0 0) 0.

(** *** Timers *)

Definition t1 (f : Floor) : St :=
  let s := start f in
  (if bool_decide (g f = GTaken) then
     s |> label "FLR.S.G.TAKEN.T1" |> modf (fun f => set_prev (speaker f) f)
   else s |> label "FLR.S.G.PREVOKE.T1" |> modf (fun f => set_prev (revoking f) f)) |> idle_enter.

Definition t2 (f : Floor) : St :=
  let s := start f |> label "FLR.S.G.TAKEN.T2" in
  let u := default "" (speaker f) in
  s |> modf (upd u (set_retry true)) |> prevoke_enter u revoke.TOO_LONG.

Definition t3 (f : Floor) : St :=
  start f |> label "FLR.S.G.PREVOKE.T3" |> modf (fun f => set_prev (revoking f) f) |> idle_enter.

Definition t7 (f : Floor) : St :=
  let s := start f |> label "FLR.S.G.IDLE.T7" |> modf (fun f => set_c7 (u32 (c7 f + 1)) f) in
  s |> fan (msg Idle (prev s.1) 0 0) None.

Definition t20 (f : Floor) : St :=
  if c20 f <? timers.C20 then
    let s := start f |> label "FLR.S.G.TAKEN.T20" |> modf (fun f => set_c20 (u32 (c20 f + 1)) f) in
    let sp := default "" (speaker s.1) in
    s |> part_a sp (msg Granted None (sprio s.1) (t2_full s.1))
  else start f |> label "FLR.S.G.TAKEN.T20_exhaust" |> modf (fun f => set_c20 (u32 (c20 f + 1)) f).

Definition t8 (u : string) (f : Floor) : St :=
  let st := part_of f u in
  let s := start f |> modf (upd u (fun p => set_c8 (u32 (c8 p + 1)) p)) in
  let rc := rcause (pget s.1 u) in
  if bool_decide (st = Some Prevoke) then s |> label "FLR.S.P.PREVOKE.T8" |> send u Revoke None rc 0
  else s |> label "FLR.S.P.NPSENDS.T8" |> send u Revoke None revoke.NO_PERMISSION 0.

Definition t21 (u : string) (f : Floor) : St :=
  let c := c21 (pget f u) in
  let s := start f |> modf (upd u (fun p => set_c21 (u32 (c21 p + 1)) p)) in
  if c <? timers.C21 then
    s |> label "FLR.S.P.NP_TAKEN.T21" |> send u Taken (holder s.1) 0 0
  else s |> label "FLR.S.P.NP_TAKEN.T21_exhaust".

Definition t9 (u : string) (f : Floor) : St :=
  start f |> label "FLR.S.T9.expire" |> modf (upd u (set_retry false)).

Inductive Timer := T1 | T2 | T3 | T7 | T20 | T8 | T9 | T21.
#[export] Instance Timer_eq_dec : EqDecision Timer. Proof. solve_decision. Defined.

Definition armed_server (f : Floor) : list Timer :=
  (if bool_decide (g f = GTaken) || bool_decide (g f = GPrevoke) then [T1] else [])
  ++ (if bool_decide (g f = GTaken) && first_rtp f then [T2] else [])
  ++ (if bool_decide (g f = GPrevoke) then [T3] else [])
  ++ (if bool_decide (g f = GIdle) && idle_bcast f && (c7 f <? timers.C7) then [T7] else [])
  ++ (if bool_decide (g f = GTaken) && succ f && negb (rtp_seen f) && (c20 f <=? timers.C20)
      then [T20] else []).

Definition armed_participant (f : Floor) (u : string) : list Timer :=
  match parts f !! u with
  | None => []
  | Some p =>
    (if (bool_decide (part p = Some Prevoke) || bool_decide (part p = Some NpSends))
        && (c8 p <? timers.C8) then [T8] else [])
    ++ (if retry p then [T9] else [])
    ++ (if bool_decide (part p = Some NpTaken) && (1 <=? c21 p) && (c21 p <=? timers.C21)
        then [T21] else [])
  end.

(** [fire] and the armed test of crates/oxsfud/src/ops/floor.rs: a timer that is
    due acts only if the state still has it armed. *)
Definition fire (t : Timer) (u : string) (f : Floor) : St :=
  match t with
  | T1 => t1 f | T2 => t2 f | T3 => t3 f | T7 => t7 f | T20 => t20 f
  | T8 => t8 u f | T21 => t21 u f | T9 => t9 u f
  end.

Definition fire_due (t : Timer) (user : option string) (f : Floor) : option St :=
  let u := default "" user in
  let armed := match user with Some _ => armed_participant f u | None => armed_server f end in
  if bool_decide (t ∈ armed) then Some (fire t u f) else None.

(** Everything that can happen to a room's floor. *)
Inductive Event :=
| EvRx (u : string) (m : Msg) (half : bool) (t2_left : Z)
| EvRtp (u : string)
| EvReady (u : string)
| EvPermDown (u : string)
| EvPermUp (u : string)
| EvPubSelect (u : string)
| EvPubAway (u : string)
| EvLeave (u : string)
| EvJoin (u : string) (pm : bool)
| EvTimer (t : Timer) (user : option string).

Definition apply (e : Event) (f : Floor) : option St :=
  match e with
  | EvRx u m half t2_left => Some (server_rx u m half t2_left f)
  | EvRtp u => Some (rtp u f)
  | EvReady u => Some (ready u f)
  | EvPermDown u => Some (perm_down u f)
  | EvPermUp u => Some (perm_up u f)
  | EvPubSelect u => Some (ws_pub_select u f)
  | EvPubAway u => Some (ws_pub_away u f)
  | EvLeave u => Some (ws_leave u f)
  | EvJoin u pm => Some (ws_join u pm f)
  | EvTimer t user => fire_due t user f
  end.

(** One step of the machine, and the states a room can be in. *)
Inductive step : Floor -> Floor -> Prop :=
| step_event e f f' r : apply e f = Some (f', r) -> step f f'.

Definition reachable (qmax t2_secs : Z) (f : Floor) : Prop := rtc step (new qmax t2_secs) f.

(** The states after a list of events; an unarmed timer leaves it as it is. *)
Fixpoint run (es : list Event) (f : Floor) : Floor :=
  match es with
  | [] => f
  | e :: es => run es (match apply e f with Some s => s.1 | None => f end)
  end.

End Flr.
