(* ===== verification/FloorInv.v ===== *)
(** * Floor control: invariant and safety

    The invariant of crates/oxsfud/src/flr/core.rs over every sequence of events,
    and what it gives: one talker at a time, announcements that tell the truth,
    media effects that follow the talker, a bounded and ordered queue. *)

From S2P Require Import Prelude FloorWire FloorCore.
Import Flr.

(** ** The pieces an event leaves alone *)

(** Everything of a floor but the participants' records and the sequence number. *)
Definition core (f : Floor) : Floor := set_parts ∅ (set_seq 0 f).

Lemma core_eq f f' : core f = core f' ->
  g f = g f' /\ speaker f = speaker f' /\ revoking f = revoking f' /\ queue f = queue f' /\
  members f = members f' /\ c7 f = c7 f' /\ c20 f = c20 f' /\ qmax f = qmax f' /\
  prev f = prev f' /\ sprio f = sprio f' /\ t2_secs f = t2_secs f' /\ succ f = succ f' /\
  rtp_seen f = rtp_seen f' /\ first_rtp f = first_rtp f' /\ idle_bcast f = idle_bcast f'.
Proof. destruct f, f'. unfold core. simpl. intros [=]. subst. done. Qed.

Lemma core_holder f f' : core f = core f' -> holder f = holder f'.
Proof. intros H%core_eq. unfold holder. by destruct H as (-> & -> & -> & _). Qed.

(** Reading a participant after an update. *)
Lemma pget_upd u h f x :
  pget (upd u h f) x = if decide (x = u) then h (pget f u) else pget f x.
Proof.
  unfold pget, upd. cbn [parts set_parts]. case_decide as E.
  - subst. by rewrite lookup_insert_eq.
  - by rewrite lookup_insert_ne.
Qed.

Lemma part_of_pget f u : part_of f u = part (pget f u).
Proof. unfold part_of, pget. by destruct (parts f !! u). Qed.

Lemma core_upd u h f : core (upd u h f) = core f.
Proof. reflexivity. Qed.

(** ** How an arbiter event changes a participant *)

Definition pa (t : Mt) (n : Z) (p : Part) : Part :=
  match t, part p with
  | Granted, Some (NpIdle | NpTaken) => p |> set_released false |> set_c21 0 |> set_part (Some Permitted)
  | Taken, Some (NpIdle | Permitted | Prevoke) =>
      p |> set_g_taken true |> set_c21 1 |> set_part (Some NpTaken)
  | Taken, Some NpTaken => p |> set_c21 1
  | Idle, Some (NpTaken | Permitted | Prevoke) =>
      p |> set_g_taken false |> set_c21 0 |> set_part (Some NpIdle)
  | Revoke, Some Permitted =>
      p |> set_rcause n |> set_c8 1 |> set_c21 0 |> set_part (Some Prevoke)
  | Idle, (None | Some NpSends) => p |> set_g_taken false
  | Taken, (None | Some NpSends) => p |> set_g_taken true
  | _, _ => p
  end.

(** A send changes the sequence number and the messages, nothing else. *)
Lemma send_spec u t a n d s :
  core (send u t a n d s).1 = core s.1 /\
  parts (send u t a n d s).1 = parts s.1 /\
  fx (send u t a n d s).2 = fx s.2 /\
  exists q, out (send u t a n d s).2 = out s.2 ++ [mkOut u (mkMsg t a n (if seqd t then 0 else d) q)].
Proof. unfold send. destruct (seqd t && (d =? 0)); simpl; eauto 10. Qed.

Lemma seq_send u t a n d s :
  0 <= seq s.1 < SEQ_WRAP -> 0 <= seq (send u t a n d s).1 < SEQ_WRAP.
Proof.
  unfold send. destruct (seqd t && (d =? 0)); simpl; [|done].
  intros _. unfold SEQ_WRAP. apply Z.mod_pos_bound. lia.
Qed.

Lemma pget_send u t a n d s x : pget (send u t a n d s).1 x = pget s.1 x.
Proof. unfold pget. by destruct (send_spec u t a n d s) as (_ & -> & _). Qed.

(** What [part_a u ev] adds to the messages: at most one, to [u], of the same type. *)
Definition echoes (u : string) (ev : Msg) (o : Out) : Prop :=
  to o = u /\ mt (om o) = mt ev /\ (seqd (mt ev) = true -> ma (om o) = ma ev).

Record delivered (u : string) (ev : Msg) (s s' : St) : Prop := {
  dl_core : core s'.1 = core s.1;
  dl_fx : fx s'.2 = fx s.2;
  dl_seq : 0 <= seq s.1 < SEQ_WRAP -> 0 <= seq s'.1 < SEQ_WRAP;
  dl_part : forall x, pget s'.1 x = if decide (x = u) then pa (mt ev) (mn ev) (pget s.1 u) else pget s.1 x;
  dl_out : exists new, out s'.2 = out s.2 ++ new /\ Forall (echoes u ev) new }.

Ltac solve_delivered :=
  split;
  [ by repeat match goal with |- context [send ?u ?t ?a ?n ?d ?s] =>
      destruct (send_spec u t a n d s) as (-> & _ & _ & _) end
  | by repeat match goal with |- context [send ?u ?t ?a ?n ?d ?s] =>
      destruct (send_spec u t a n d s) as (_ & _ & -> & _) end
  | intros; repeat apply seq_send; done
  | intros x; rewrite ?pget_send; cbn [modf label fst]; rewrite ?pget_upd;
    case_decide; subst; unfold pa;
    repeat match goal with E : part _ = _ |- _ => rewrite E end;
    rewrite ?decide_True by done; done
  | repeat match goal with |- context [send ?u ?t ?a ?n ?d ?s] =>
      destruct (send_spec u t a n d s) as (_ & _ & _ & ? & ->) end; cbn [modf label snd out];
    first [ eexists; split; [reflexivity|]; constructor; [|constructor]; done
          | exists []; split; [by rewrite app_nil_r|constructor] ] ].

Lemma part_a_delivered u ev s : delivered u ev s (part_a u ev s).
Proof.
  unfold part_a. rewrite part_of_pget.
  destruct ev as [t a n d q]; cbn [mt ma mn md mq];
    destruct t, (part (pget s.1 u)) as [[]|] eqn:Ep; unfold send_e, enter_r; solve_delivered.
Qed.

(** ** Broadcast *)

Lemma elem_of_sorted_members f x : x ∈ sorted_members f <-> x ∈ members f.
Proof. unfold sorted_members. rewrite merge_sort_Permutation. apply elem_of_elements. Qed.

Lemma NoDup_sorted_members f : NoDup (sorted_members f).
Proof. unfold sorted_members. rewrite merge_sort_Permutation. apply NoDup_elements. Qed.

(** The users a broadcast reaches. *)
Definition reached (f : Floor) (skip : option string) (x : string) : Prop :=
  x ∈ members f /\ Some x <> skip.
#[export] Instance reached_dec f skip x : Decision (reached f skip x) := _.

Definition fan_list (f : Floor) (skip : option string) : list string :=
  List.filter (fun x => negb (bool_decide (Some x = skip))) (sorted_members f).

Lemma elem_of_fan_list f skip x : x ∈ fan_list f skip <-> reached f skip x.
Proof.
  unfold fan_list, reached. rewrite list_elem_of_In, filter_In, <- list_elem_of_In.
  rewrite elem_of_sorted_members, negb_true_iff, bool_decide_eq_false. done.
Qed.

Lemma NoDup_fan_list f skip : NoDup (fan_list f skip).
Proof. unfold fan_list. apply NoDup_ListNoDup, List.NoDup_filter, NoDup_ListNoDup, NoDup_sorted_members. Qed.

Record broadcast (ev : Msg) (P : string -> Prop) (s s' : St) : Prop := {
  bc_core : core s'.1 = core s.1;
  bc_fx : fx s'.2 = fx s.2;
  bc_seq : 0 <= seq s.1 < SEQ_WRAP -> 0 <= seq s'.1 < SEQ_WRAP;
  bc_in : forall x, P x -> pget s'.1 x = pa (mt ev) (mn ev) (pget s.1 x);
  bc_out : forall x, ~ P x -> pget s'.1 x = pget s.1 x;
  bc_msgs : exists new, out s'.2 = out s.2 ++ new /\
    Forall (fun o => P (to o) /\ mt (om o) = mt ev /\ (seqd (mt ev) = true -> ma (om o) = ma ev)) new }.

Lemma fold_part_a_broadcast ev l s :
  NoDup l -> broadcast ev (fun x => x ∈ l) s (fold_left (fun s u => part_a u ev s) l s).
Proof.
  revert s. induction l as [|u l IH]; intros s Hnd.
  { split; try done; [by intros x Hx%not_elem_of_nil|by exists []; rewrite app_nil_r]. }
  apply NoDup_cons in Hnd as [Hu Hnd]. cbn [fold_left].
  destruct (part_a_delivered u ev s) as [D1 D2 D3 D4 (n1 & D5 & D6)].
  destruct (IH (part_a u ev s) Hnd) as [B1 B2 B3 B4 B5 (n2 & B6 & B7)].
  split; try congruence; try tauto.
  - intros x [->|Hx]%elem_of_cons.
    + rewrite B5, D4, decide_True by done. done.
    + rewrite B4, D4, decide_False by (done || (intros ->; done)). done.
  - intros x [Hxu Hxl]%not_elem_of_cons. by rewrite B5, D4, decide_False.
  - exists (n1 ++ n2). rewrite B6, D5, app_assoc. split; [done|].
    apply Forall_app. split.
    + eapply Forall_impl; [exact D6|]. intros o (-> & ? & ?). split; [left|done].
    + eapply Forall_impl; [exact B7|]. intros o (? & ?). split; [by right|done].
Qed.

Lemma fan_broadcast ev skip s : broadcast ev (reached s.1 skip) s (fan ev skip s).
Proof.
  unfold fan. fold (fan_list s.1 skip).
  set (s1 := if seqd (mt ev) then modf bump s else s).
  set (ev1 := if seqd (mt ev) then _ else ev).
  assert (Hev : mt ev1 = mt ev /\ mn ev1 = mn ev /\ ma ev1 = ma ev) by (unfold ev1; by destruct (seqd _)).
  assert (Hs : core s1.1 = core s.1 /\ parts s1.1 = parts s.1 /\ s1.2 = s.2 /\
    (0 <= seq s.1 < SEQ_WRAP -> 0 <= seq s1.1 < SEQ_WRAP)).
  { unfold s1. destruct (seqd _); [|done]. do 3 (split; [done|]).
    intros _. apply Z.mod_pos_bound. done. }
  destruct Hev as (E1 & E2 & E3), Hs as (S1 & S2 & S3 & S4).
  destruct (fold_part_a_broadcast ev1 (fan_list s.1 skip) s1 (NoDup_fan_list _ _))
    as [B1 B2 B3 B4 B5 (new & B6 & B7)].
  rewrite E1, ?E2 in *. rewrite S3 in *.
  split; try congruence; try tauto.
  - intros x Hx. rewrite B4 by (by apply elem_of_fan_list). unfold pget. by rewrite S2.
  - intros x Hx. rewrite B5 by (by rewrite elem_of_fan_list). unfold pget. by rewrite S2.
  - exists new. split; [done|]. eapply Forall_impl; [exact B7|].
    intros o (H1 & H2 & H3). rewrite E3 in H3. split; [by apply elem_of_fan_list|done].
Qed.

(** ** The invariant *)

(** What a participant's record may be, given the arbiter state, the talker and
    whether the user is a member.  The retransmission counters stay small, so the
    [u32] they live in never wraps. *)
Definition user_ok (gg : G) (h : option string) (u : string) (mem : bool) (p : Part) : Prop :=
  (0 <= c8 p <= timers.C8 /\ 0 <= c21 p <= timers.C21 + 1) /\
  if mem then
    match part p with
    | Some NpIdle => gg = GIdle /\ g_taken p = false
    | Some NpTaken => gg <> GIdle /\ g_taken p = true
    | Some Permitted => gg = GTaken /\ h = Some u
    | Some Prevoke => h = Some u
    | Some NpSends => g_taken p = negb (bool_decide (gg = GIdle))
    | _ => False
    end
  else part p = None \/ part p = Some Releasing.

(** The queue: no user twice, the waiters in order, at most one preempting waiter
    and at most [qmax] of the others. *)
Record queue_ok (qm : Z) (q : list Waiter) : Prop := {
  q_nodup : NoDup (wu <$> q);
  q_sorted : StronglySorted (fun x y => before y x = false) q;
  q_pre : len (List.filter wpre q) <= 1;
  q_rest : len (List.filter (fun w => negb (wpre w)) q) <= Z.max 0 qm }.

Definition shape_ok (gg : G) (sp rv : option string) (q : list Waiter) : Prop :=
  match gg with
  | GIdle => sp = None /\ rv = None /\ q = []
  | GTaken => sp <> None /\ rv = None
  | GPrevoke => sp = None /\ rv <> None
  end.

Record Inv (f : Floor) : Prop := {
  inv_shape : shape_ok (g f) (speaker f) (revoking f) (queue f);
  inv_user : forall u, user_ok (g f) (holder f) u (member f u) (pget f u);
  inv_seq : 0 <= seq f < SEQ_WRAP;
  inv_cnt : 0 <= c7 f <= timers.C7 /\ 0 <= c20 f <= timers.C20 + 1;
  inv_queue : queue_ok (qmax f) (queue f) }.

(** *** The queue operations *)

Lemma filter_comm {A} (p q : A -> bool) l :
  List.filter p (List.filter q l) = List.filter q (List.filter p l).
Proof.
  induction l as [|x l IH]; [done|]. simpl.
  destruct (p x) eqn:?, (q x) eqn:?; simpl; rewrite ?Heqb, ?Heqb0, IH; done.
Qed.

Lemma len_filter_le {A} (p : A -> bool) l : len (List.filter p l) <= len l.
Proof. induction l as [|x l IH]; simpl; [done|]. destruct (p x); autorewrite with len; lia. Qed.

Lemma StronglySorted_filter {A} (R : A -> A -> Prop) p l :
  StronglySorted R l -> StronglySorted R (List.filter p l).
Proof.
  induction 1 as [|x l Hs IH HF]; simpl; [constructor|]. destruct (p x); [|done].
  constructor; [done|]. rewrite Forall_forall in *. intros y Hy.
  apply HF. rewrite list_elem_of_In in *. apply filter_In in Hy. tauto.
Qed.

Lemma NoDup_wu_filter p (q : list Waiter) :
  NoDup (wu <$> q) -> NoDup (wu <$> List.filter p q).
Proof.
  induction q as [|w q IH]; simpl; [done|]. intros [Hw Hn]%NoDup_cons.
  destruct (p w); [|by apply IH]. simpl. apply NoDup_cons. split; [|by apply IH].
  intros (x & Hx & Hin)%list_elem_of_fmap. apply Hw, list_elem_of_fmap. exists x.
  split; [done|]. rewrite list_elem_of_In in *. apply filter_In in Hin. tauto.
Qed.

Lemma queue_ok_filter qm p q : queue_ok qm q -> queue_ok qm (List.filter p q).
Proof.
  intros [H1 H2 H3 H4]. split.
  - by apply NoDup_wu_filter.
  - by apply StronglySorted_filter.
  - rewrite filter_comm. etransitivity; [apply len_filter_le|done].
  - rewrite filter_comm. etransitivity; [apply len_filter_le|done].
Qed.

Lemma queue_ok_tail qm w q : queue_ok qm (w :: q) -> queue_ok qm q.
Proof.
  intros [H1 H2 H3 H4]. simpl in *. apply NoDup_cons in H1 as [_ H1]. inversion H2; subst.
  split; try done; destruct (wpre w); simpl in *; autorewrite with len in *; lia.
Qed.

Definition insert_list (w : Waiter) (q : list Waiter) : list Waiter :=
  match position (before w) q with
  | Some i => insert_at i w q
  | None => q ++ [w]
  end.

Lemma queue_insert_q w f : queue (insert_q w f) = insert_list w (queue f).
Proof. unfold insert_q, insert_list. by destruct (position _ _). Qed.

Lemma insert_list_cons w x q :
  insert_list w (x :: q) = if before w x then w :: x :: q else x :: insert_list w q.
Proof. unfold insert_list, insert_at. simpl. destruct (before w x); [done|]. by destruct (position _ q). Qed.

Lemma insert_list_perm w q : insert_list w q ≡ₚ w :: q.
Proof.
  induction q as [|x q IH]; [done|]. rewrite insert_list_cons.
  destruct (before w x); [done|]. rewrite IH. apply Permutation_swap.
Qed.

Lemma before_trans a b c : before a b = true -> before b c = true -> before a c = true.
Proof.
  unfold before. destruct a as [? p []], b as [? p' []], c as [? p'' []]; simpl; intros; zbool; try done;
    rewrite ?Z.gtb_ltb in *; zbool; try (apply Z.ltb_lt); lia.
Qed.

Lemma before_asym a b : before a b = true -> before b a = false.
Proof.
  unfold before. destruct a as [? p []], b as [? p' []]; simpl; intros; zbool; try done;
    rewrite ?Z.gtb_ltb in *; zbool; apply Z.ltb_ge; lia.
Qed.

Lemma insert_list_sorted w q :
  StronglySorted (fun x y => before y x = false) q ->
  StronglySorted (fun x y => before y x = false) (insert_list w q).
Proof.
  induction 1 as [|x q Hs IH HF]; [repeat constructor|]. rewrite insert_list_cons.
  destruct (before w x) eqn:E.
  - constructor; [by constructor|]. constructor; [by apply before_asym|].
    eapply Forall_impl; [exact HF|]. intros y Hy. cbn beta in Hy. destruct (before y w) eqn:E'; [|done].
    by rewrite (before_trans _ _ _ E' E) in Hy.
  - constructor; [done|]. rewrite insert_list_perm. by constructor.
Qed.

Lemma in_q_false f u : in_q f u = false -> u ∉ wu <$> queue f.
Proof.
  unfold in_q. intros H (w & -> & Hw)%list_elem_of_fmap. apply not_true_iff_false in H. apply H.
  apply existsb_exists. exists w. rewrite <- list_elem_of_In. split; [done|].
  unfold is_user. by rewrite bool_decide_true.
Qed.

Lemma filter_perm {A} (p : A -> bool) l k : l ≡ₚ k -> List.filter p l ≡ₚ List.filter p k.
Proof.
  induction 1; simpl; try done; repeat case_match; try done.
  - by apply perm_skip.
  - apply perm_swap.
  - by etransitivity.
Qed.

Lemma len_perm {A} (l k : list A) : l ≡ₚ k -> len l = len k.
Proof. intros H. unfold len. by rewrite (Permutation_length H). Qed.

(** Enqueueing a waiter without preemption while there is room. *)
Lemma queue_ok_insert qm u p q :
  queue_ok qm q -> u ∉ wu <$> q -> len q < qm -> queue_ok qm (insert_list (mkWaiter u p false) q).
Proof.
  intros [H1 H2 H3 H4] Hu Hl. split.
  - rewrite insert_list_perm. simpl. by apply NoDup_cons.
  - by apply insert_list_sorted.
  - by rewrite (len_perm _ _ (filter_perm _ _ _ (insert_list_perm _ q))).
  - rewrite (len_perm _ _ (filter_perm _ _ _ (insert_list_perm _ q))). simpl.
    autorewrite with len. pose proof (len_filter_le (fun w => negb (wpre w)) q). lia.
Qed.

Lemma no_pre_filter q : existsb wpre q = false -> List.filter wpre q = [].
Proof. induction q as [|w q IH]; simpl; [done|]. intros [-> ?]%orb_false_elim. by apply IH. Qed.

(** Putting a preempting waiter in front while there is none. *)
Lemma queue_ok_preempt qm u p q :
  queue_ok qm q -> u ∉ wu <$> q -> existsb wpre q = false ->
  queue_ok qm (insert_at 0 (mkWaiter u p true) q).
Proof.
  intros [H1 H2 H3 H4] Hu Hp. unfold insert_at. cbn [take drop app]. split.
  - simpl. by apply NoDup_cons.
  - constructor; [done|]. rewrite Forall_forall. intros w Hw.
    assert (wpre w = false) as E.
    { destruct (wpre w) eqn:E; [|done]. apply not_true_iff_false in Hp. destruct Hp.
      apply existsb_exists. exists w. by rewrite <- list_elem_of_In. }
    unfold before. simpl. rewrite E. done.
  - simpl. by rewrite no_pre_filter.
  - done.
Qed.

Lemma queue_len_bound qm q : queue_ok qm q -> len q <= Z.max 0 qm + 1.
Proof.
  intros [_ _ H3 H4].
  assert (len q = len (List.filter wpre q) + len (List.filter (fun w => negb (wpre w)) q)).
  { clear. induction q as [|w q IH]; [done|]. simpl. destruct (wpre w); simpl; autorewrite with len; lia. }
  lia.
Qed.

(** ** What the messages and effects of a step say *)

(** A message is true of a floor: GRANTED goes to the talker, TAKEN names the
    holder, IDLE is said only when nobody holds the floor. *)
Definition truthful (f : Floor) (o : Out) : Prop :=
  match mt (om o) with
  | Granted => g f = GTaken /\ speaker f = Some (to o)
  | Taken => holder f <> None /\ ma (om o) = holder f
  | Idle => holder f = None
  | _ => True
  end.

(** Messages that say nothing about who holds the floor. *)
Definition quiet (o : Out) : Prop :=
  match mt (om o) with Granted | Taken | Idle => False | _ => True end.

(** The user the media slot is bound to after the effects, in order. *)
Definition bound_after (b : option string) (es : list Fx) : option string :=
  fold_left (fun b e => match e with FBind u => Some u | FRelease _ => None end) es b.

(** A step in progress that began with the floor held by [h0], before ([Pre]) and
    after ([Post]) it says who holds the floor now. *)
Record Post (h0 : option string) (s : St) : Prop := {
  po_inv : Inv s.1;
  po_out : Forall (truthful s.1) (out s.2);
  po_fx : bound_after h0 (fx s.2) = holder s.1 }.

Record Pre (h0 : option string) (s : St) : Prop := {
  pr_inv : Inv s.1;
  pr_out : Forall quiet (out s.2);
  pr_fx : bound_after h0 (fx s.2) = holder s.1 }.

Lemma quiet_truthful f o : quiet o -> truthful f o.
Proof. unfold quiet, truthful. by destruct (mt (om o)). Qed.

Lemma Pre_Post h0 s : Pre h0 s -> Post h0 s.
Proof. intros [H1 H2 H3]. split; try done. eapply Forall_impl; [exact H2|]. apply quiet_truthful. Qed.

Lemma bound_snoc b es e : bound_after b (es ++ [e]) = match e with FBind u => Some u | FRelease _ => None end.
Proof. unfold bound_after. by rewrite fold_left_app. Qed.

Lemma truthful_core f f' o : core f' = core f -> truthful f o -> truthful f' o.
Proof.
  intros H. unfold truthful. rewrite (core_holder _ _ H). apply core_eq in H as (-> & -> & _). done.
Qed.

(** ** Preservation *)

Lemma Inv_same f f' :
  Inv f -> core f' = core f -> 0 <= seq f' < SEQ_WRAP ->
  (forall x, user_ok (g f) (holder f) x (member f x) (pget f' x)) -> Inv f'.
Proof.
  intros [H1 H2 H3 H4 H5] Hc Hs Hu. pose proof (core_holder _ _ Hc) as Hh.
  apply core_eq in Hc as (E1 & E2 & E3 & E4 & E5 & E6 & E7 & E8 & _).
  split; rewrite ?Hh, ?E1, ?E2, ?E3, ?E4, ?E6, ?E7, ?E8; try done.
  intros u. unfold member. rewrite E5. apply Hu.
Qed.

(** Updates of a participant that the invariant does not see. *)
Definition neutral (h : Part -> Part) : Prop :=
  forall p, part (h p) = part p /\ g_taken (h p) = g_taken p /\ c8 (h p) = c8 p /\ c21 (h p) = c21 p.

Lemma user_ok_neutral h gg hh u mem p :
  neutral h -> user_ok gg hh u mem p -> user_ok gg hh u mem (h p).
Proof. intros Hn. unfold user_ok. by destruct (Hn p) as (-> & -> & -> & ->). Qed.

Lemma Inv_upd f u h :
  Inv f -> user_ok (g f) (holder f) u (member f u) (h (pget f u)) -> Inv (upd u h f).
Proof.
  intros Hi Hu. apply (Inv_same f); [done..|apply Hi|]. intros x. rewrite pget_upd.
  case_decide; [by subst|]. apply Hi.
Qed.

Lemma Inv_upd_neutral f u h : neutral h -> Inv f -> Inv (upd u h f).
Proof. intros Hn Hi. apply Inv_upd; [done|]. apply user_ok_neutral; [done|]. apply Hi. Qed.

Lemma neutral_ok :
  (forall b, neutral (set_pub_room b)) /\ (forall b, neutral (set_perm b)) /\
  (forall b, neutral (set_retry b)) /\ (forall b, neutral (set_released b)) /\
  (forall c, neutral (set_rcause c)).
Proof. by repeat split. Qed.

Lemma Inv_send f r u t a n d : Inv f -> Inv (send u t a n d (f, r)).1.
Proof.
  intros Hi. destruct (send_spec u t a n d (f, r)) as (H1 & H2 & _).
  apply (Inv_same f); [done..|apply seq_send, Hi|].
  intros x. rewrite pget_send. apply Hi.
Qed.

Lemma Pre_label h0 l s : Pre h0 s -> Pre h0 (label l s).
Proof. by intros [? ? ?]. Qed.
Lemma Post_label h0 l s : Post h0 s -> Post h0 (label l s).
Proof. by intros [? ? ?]. Qed.

Lemma Pre_start f : Inv f -> Pre (holder f) (start f).
Proof. by intros. Qed.

(** A change of state that keeps the holder keeps what was said. *)
Lemma Pre_modf h0 k s :
  Inv (k s.1) -> holder (k s.1) = holder s.1 -> Pre h0 s -> Pre h0 (modf k s).
Proof. intros Hi Hh [_ ? ?]. split; simpl; [done..|congruence]. Qed.

Lemma Post_modf h0 k s :
  Inv (k s.1) -> holder (k s.1) = holder s.1 -> g (k s.1) = g s.1 -> Post h0 s -> Post h0 (modf k s).
Proof.
  intros Hi Hh Hg [_ Ho ?]. split; simpl; [done| |congruence].
  eapply Forall_impl; [exact Ho|]. intros o. unfold truthful. rewrite Hh, Hg.
  destruct (mt (om o)); try done. intros [Hgt Hs]. split; [done|].
  unfold holder in Hh. rewrite Hg, Hgt in Hh. congruence.
Qed.

Lemma Post_send h0 u t a n d s :
  (forall q, truthful s.1 (mkOut u (mkMsg t a n (if seqd t then 0 else d) q))) ->
  Post h0 s -> Post h0 (send u t a n d s).
Proof.
  intros Ht [Hi Ho Hf]. destruct (send_spec u t a n d s) as (H1 & H2 & H3 & q & H4). split.
  - destruct s. by apply Inv_send.
  - rewrite H4. apply Forall_app. split.
    + eapply Forall_impl; [exact Ho|]. intros o. by apply truthful_core.
    + constructor; [|done]. eapply truthful_core; [exact H1|]. apply Ht.
  - by rewrite H3, (core_holder _ _ H1).
Qed.

Lemma Pre_send h0 u t a n d s :
  seqd t = false -> t <> Granted -> Pre h0 s -> Pre h0 (send u t a n d s).
Proof.
  intros Ht Hg [Hi Ho Hf]. destruct (send_spec u t a n d s) as (H1 & H2 & H3 & q & H4). split.
  - destruct s. by apply Inv_send.
  - rewrite H4. apply Forall_app. split; [done|]. constructor; [|done]. by destruct t.
  - by rewrite H3, (core_holder _ _ H1).
Qed.

(** Delivering an event whose effect on the participant is allowed. *)
Lemma Pre_part_a h0 u ev s :
  seqd (mt ev) = false -> mt ev <> Granted ->
  user_ok (g s.1) (holder s.1) u (member s.1 u) (pa (mt ev) (mn ev) (pget s.1 u)) ->
  Pre h0 s -> Pre h0 (part_a u ev s).
Proof.
  intros Ht Hg Hu [Hi Ho Hf].
  destruct (part_a_delivered u ev s) as [D1 D2 D3 D4 (new & D5 & D6)]. split.
  - apply (Inv_same s.1); [done..|apply D3, Hi|]. intros x. rewrite D4.
    case_decide; [by subst|]. apply Hi.
  - rewrite D5. apply Forall_app. split; [done|]. eapply Forall_impl; [exact D6|].
    intros o (_ & Hm & _). unfold quiet. rewrite Hm. by destruct (mt ev).
  - by rewrite D2, (core_holder _ _ D1).
Qed.

(** Granting again to the talker. *)
Lemma Post_part_a_granted h0 u n d s :
  g s.1 = GTaken -> speaker s.1 = Some u -> Post h0 s ->
  Post h0 (part_a u (msg Granted None n d) s).
Proof.
  intros Hg Hs [Hi Ho Hf]. set (ev := msg Granted None n d).
  destruct (part_a_delivered u ev s) as [D1 D2 D3 D4 (new & D5 & D6)].
  assert (Hh : holder s.1 = Some u) by (unfold holder; by rewrite Hg). split.
  - apply (Inv_same s.1); [done..|apply D3, Hi|]. intros x. rewrite D4.
    case_decide; [subst|apply Hi]. pose proof (inv_user _ Hi u) as Hu.
    unfold user_ok, pa in *. cbn [mt ev msg]. rewrite Hh, Hg in *.
    destruct (part (pget s.1 u)) as [[]|] eqn:E, (member s.1 u); cbn; rewrite ?E; naive_solver lia.
  - rewrite D5. apply Forall_app. split.
    + eapply Forall_impl; [exact Ho|]. intros o. by apply truthful_core.
    + eapply Forall_impl; [exact D6|]. intros o (Hto & Hm & _).
      eapply truthful_core; [exact D1|]. unfold truthful. rewrite Hm. cbn. by rewrite Hto.
  - by rewrite D2, (core_holder _ _ D1).
Qed.

(** *** The floor goes to [sp] *)

Record Granting (g0 : G) (h : option string) (sp : string) (s : St) : Prop := {
  gr_g : g s.1 = GTaken;
  gr_speaker : speaker s.1 = Some sp;
  gr_revoking : revoking s.1 = None;
  gr_user : forall x, user_ok g0 h x (member s.1 x) (pget s.1 x);
  gr_sends : part (pget s.1 sp) = Some NpSends -> g_taken (pget s.1 sp) = true;
  gr_seq : 0 <= seq s.1 < SEQ_WRAP;
  gr_cnt : 0 <= c7 s.1 <= timers.C7 /\ 0 <= c20 s.1 <= timers.C20 + 1;
  gr_queue : queue_ok (qmax s.1) (queue s.1);
  gr_quiet : Forall quiet (out s.2) }.

(** A participant told that somebody else talks. *)
Lemma user_ok_taken g0 h x sp mem p :
  user_ok g0 h x mem p ->
  user_ok GTaken (Some sp) x mem (if mem then pa Taken 0 p else p).
Proof.
  unfold user_ok, pa, timers.C21. intros [Hc Hp].
  destruct mem; [|done]. destruct (part p) as [[]|] eqn:E; cbn; rewrite ?E; naive_solver lia.
Qed.

(** The participant that gets the floor. *)
Lemma user_ok_granted g0 h sp mem n p :
  user_ok g0 h sp mem p -> (part p = Some NpSends -> g_taken p = true) ->
  user_ok GTaken (Some sp) sp mem (pa Granted n p).
Proof.
  unfold user_ok, pa, timers.C21. intros [Hc Hp] Hn.
  destruct mem, (part p) as [[]|] eqn:E; cbn; rewrite ?E; naive_solver lia.
Qed.

(** A participant told that nobody talks. *)
Lemma user_ok_idle g0 h x mem p :
  user_ok g0 h x mem p -> user_ok GIdle None x mem (if mem then pa Idle 0 p else p).
Proof.
  unfold user_ok, pa, timers.C21. intros [Hc Hp].
  destruct mem; [|done]. destruct (part p) as [[]|] eqn:E; cbn; rewrite ?E; naive_solver lia.
Qed.

Lemma member_core f f' x : core f = core f' -> member f x = member f' x.
Proof. intros H%core_eq. unfold member. by destruct H as (_ & _ & _ & _ & -> & _). Qed.

Lemma reached_None f x : reached f None x <-> member f x = true.
Proof. unfold reached, member. rewrite bool_decide_eq_true. naive_solver. Qed.

Lemma reached_Some f sp x : x <> sp -> reached f (Some sp) x <-> member f x = true.
Proof. unfold reached, member. rewrite bool_decide_eq_true. naive_solver. Qed.

Lemma enter_taken_post h0 g0 h sp s : Granting g0 h sp s -> Post h0 (enter_taken s).
Proof.
  intros [Gg Gs Gr Gu Gn Gq Gc Gqu Go]. unfold enter_taken.
  set (s1 := s |> label _ |> modf _). change (speaker s1.1) with (speaker s.1). rewrite Gs. change (default "" (Some sp)) with sp.
  set (m := msg Granted _ _ _). set (m2 := msg Taken _ _ _).
  destruct (part_a_delivered sp m s1) as [D1 D2 D3 D4 (n1 & D5 & D6)].
  set (s2 := part_a sp m s1) in *.
  destruct (fan_broadcast m2 (Some sp) s2) as [B1 B2 B3 B4 B5 (n2 & B6 & B7)].
  set (s3 := fan m2 (Some sp) s2) in *.
  assert (C : core s3.1 = core s1.1) by congruence.
  pose proof (core_eq _ _ C) as (E1 & E2 & E3 & E4 & E5 & E6 & E7 & E8 & _).
  assert (Hh : holder s3.1 = Some sp).
  { rewrite (core_holder _ _ C). unfold holder. cbn. by rewrite Gg, Gs. }
  assert (Hm : forall x, member s3.1 x = member s.1 x) by (intros; by rewrite (member_core _ _ x C)).
  assert (Hm2 : forall x, member s2.1 x = member s.1 x) by (intros; by rewrite (member_core _ _ x D1)).
  split; cbn [effect fst snd out fx].
  - split.
    + rewrite E1, E2, E3. cbn. rewrite Gg, Gs, Gr. done.
    + intros x. rewrite Hh, Hm, E1. change (g s1.1) with (g s.1). rewrite Gg.
      destruct (decide (x = sp)) as [->|Hx].
      * rewrite B5 by (by intros [_ ?]). rewrite D4, decide_True by done.
        eapply user_ok_granted; [exact (Gu sp)|exact Gn].
      * pose proof (user_ok_taken _ _ _ sp _ _ (Gu x)) as Ht.
        destruct (member s.1 x) eqn:Ex.
        -- rewrite B4, D4, decide_False by (try done; rewrite reached_Some by done; congruence). exact Ht.
        -- rewrite B5, D4, decide_False by (try done; rewrite reached_Some by done; congruence). exact Ht.
    + apply B3, D3, Gq.
    + rewrite E6, E7. apply Gc.
    + rewrite E4, E8. apply Gqu.
  - rewrite B6, D5, <- app_assoc. repeat (apply Forall_app; split).
    + eapply Forall_impl; [exact Go|]. apply quiet_truthful.
    + eapply Forall_impl; [exact D6|]. intros o (Hto & Ht & _). unfold truthful. rewrite Ht, Hto.
      cbn. by rewrite E1, E2.
    + eapply Forall_impl; [exact B7|]. intros o (_ & Ht & Ha). unfold truthful. rewrite Ht. cbn.
      rewrite Hh, Ha by done. done.
  - rewrite bound_snoc. by rewrite Hh.
Qed.

(** The end of a turn: the next waiter talks, or the floor is free. *)
Lemma idle_enter_post h0 s : Inv s.1 -> Forall quiet (out s.2) -> Post h0 (idle_enter s).
Proof.
  intros Hi Ho. unfold idle_enter. destruct (queue s.1) as [|w q] eqn:Eq.
  - set (s1 := s |> label _ |> modf _). set (m := msg Idle _ _ _).
    destruct (fan_broadcast m None s1) as [B1 B2 B3 B4 B5 (n & B6 & B7)].
    set (s2 := fan m None s1) in *.
    pose proof (core_eq _ _ B1) as (E1 & E2 & E3 & E4 & E5 & E6 & E7 & E8 & _).
    assert (Hh : holder s2.1 = None) by (rewrite (core_holder _ _ B1); done).
    split; cbn [effect fst snd out fx].
    + split.
      * rewrite E1, E2, E3, E4. cbn. by rewrite Eq.
      * intros x. rewrite Hh, E1, (member_core _ _ x B1).
        pose proof (user_ok_idle _ _ _ _ _ (inv_user _ Hi x)) as Hu.
        change (member s1.1 x) with (member s.1 x). change (g s1.1) with GIdle.
        destruct (member s.1 x) eqn:Ex.
        -- rewrite B4 by (by apply reached_None). exact Hu.
        -- rewrite B5 by (rewrite reached_None; change (~ member s.1 x = true); congruence). exact Hu.
      * apply B3, Hi.
      * rewrite E6, E7. cbn. unfold timers.C7. split; [lia|]. apply Hi.
      * rewrite E4, E8. apply Hi.
    + rewrite B6. apply Forall_app. split.
      * eapply Forall_impl; [exact Ho|]. apply quiet_truthful.
      * eapply Forall_impl; [exact B7|]. intros o (_ & Ht & _). unfold truthful. by rewrite Ht.
    + by rewrite bound_snoc, Hh.
  - apply (enter_taken_post h0 (g s.1) (holder s.1) (wu w)). pose proof (inv_queue _ Hi) as Hq. rewrite Eq in Hq.
    split; try done.
    + apply Hi.
    + cbn. intros Hp. pose proof (inv_user _ Hi (wu w)) as [_ Hu]. pose proof (inv_shape _ Hi) as Hs.
      change (part (pget s.1 (wu w)) = Some NpSends) in Hp.
      change (g_taken (pget s.1 (wu w)) = true). rewrite Hp in Hu.
      destruct (member s.1 (wu w)); [|naive_solver]. rewrite Hu.
      unfold shape_ok in Hs. destruct (g s.1); [|done..]. destruct Hs as (_ & _ & Hs). congruence.
    + apply Hi.
    + cbn. split; [apply Hi|]. unfold timers.C20. lia.
    + cbn. by apply queue_ok_tail in Hq.
Qed.

(** Revoking the talker. *)
Lemma prevoke_enter_pre h0 u c s :
  g s.1 = GTaken -> speaker s.1 = Some u -> Pre h0 s -> Pre h0 (prevoke_enter u c s).
Proof.
  intros Hg Hs [Hi Ho Hf]. unfold prevoke_enter.
  assert (Hh : holder s.1 = Some u) by (unfold holder; by rewrite Hg).
  set (s1 := s |> label _ |> modf _).
  assert (Hu1 : forall x, x <> u -> user_ok GPrevoke (Some u) x (member s.1 x) (pget s.1 x)).
  { intros x Hx. pose proof (inv_user _ Hi x) as Hu. unfold user_ok in *. rewrite Hh, Hg in Hu.
    destruct (member s.1 x), (part (pget s.1 x)) as [[]|]; naive_solver. }
  assert (Hu2 : user_ok GPrevoke (Some u) u (member s.1 u) (pa Revoke c (pget s.1 u))).
  { pose proof (inv_user _ Hi u) as Hu. unfold user_ok, pa, timers.C8, timers.C21 in *. rewrite Hh, Hg in Hu.
    destruct (member s.1 u), (part (pget s.1 u)) as [[]|] eqn:E; cbn; rewrite ?E; naive_solver lia. }
  destruct (part_a_delivered u (msg Revoke None c 0) s1) as [D1 D2 D3 D4 (new & D5 & D6)].
  pose proof (core_eq _ _ D1) as (E1 & E2 & E3 & E4 & E5 & E6 & E7 & E8 & _).
  pose proof (core_holder _ _ D1) as E9.
  split.
  - split.
    + rewrite E1, E2, E3. cbn. split; done.
    + intros x. rewrite E1, E9, (member_core _ _ x D1), D4. case_decide; [subst; exact Hu2|by apply Hu1].
    + apply D3, Hi.
    + rewrite E6, E7. apply Hi.
    + rewrite E4, E8. apply Hi.
  - rewrite D5. apply Forall_app. split; [done|]. eapply Forall_impl; [exact D6|].
    intros o (_ & Ht & _). unfold quiet. by rewrite Ht.
  - rewrite D2, E9. change (fx s1.2) with (fx s.2). by rewrite Hf, Hh.
Qed.

(** *** The handlers *)

Lemma Inv_set_queue f q :
  Inv f -> g f <> GIdle -> queue_ok (qmax f) q -> Inv (set_queue q f).
Proof.
  intros [H1 H2 H3 H4 H5] Hg Hq. split; try done. cbn. unfold shape_ok in *. by destruct (g f).
Qed.

Lemma Inv_dequeue f u : Inv f -> Inv (dequeue u f).
Proof.
  intros Hi. unfold dequeue. pose proof Hi as [H1 H2 H3 H4 H5].
  destruct (decide (g f = GIdle)) as [E|E].
  - assert (queue f = []) as Eq by (rewrite E in H1; apply H1). rewrite Eq. cbn [List.filter].
    destruct f. simpl in *. by subst.
  - apply Inv_set_queue; [done..|]. by apply queue_ok_filter.
Qed.

(** Changes of fields the invariant does not mention. *)
Lemma Inv_set_prev f x : Inv f -> Inv (set_prev x f).
Proof. by intros [? ? ? ? ?]. Qed.
Lemma Inv_rtp f : Inv f -> Inv (f |> set_rtp_seen true |> set_first_rtp true).
Proof. by intros [? ? ? ? ?]. Qed.

Create HintDb flr discriminated.
#[export] Hint Resolve Pre_label Post_label Pre_Post Pre_start Inv_dequeue Inv_set_prev Inv_rtp : flr.

Lemma is_speaker_true f u : is_speaker f u = true -> g f = GTaken /\ speaker f = Some u.
Proof. unfold is_speaker. rewrite andb_true_iff, !bool_decide_eq_true. done. Qed.
Lemma is_revoking_true f u : is_revoking f u = true -> g f = GPrevoke /\ revoking f = Some u.
Proof. unfold is_revoking. rewrite andb_true_iff, !bool_decide_eq_true. done. Qed.

Lemma member_ok f u : Inv f -> member f u = true ->
  match part (pget f u) with
  | Some NpIdle => g f = GIdle
  | Some NpTaken => g f <> GIdle
  | Some Permitted => g f = GTaken /\ holder f = Some u
  | Some Prevoke => holder f = Some u
  | Some NpSends => g_taken (pget f u) = negb (bool_decide (g f = GIdle))
  | _ => False
  end.
Proof.
  intros Hi Hm. destruct (inv_user _ Hi u) as [_ H]. rewrite Hm in H.
  destruct (part (pget f u)) as [[]|]; naive_solver.
Qed.

Lemma arb_req_idle_post h0 u p s :
  part (pget s.1 u) = Some NpIdle -> Pre h0 s -> Post h0 (arb_req_idle u p s).
Proof.
  intros Hp HP. unfold arb_req_idle. pose proof (pr_inv _ _ HP) as Hi.
  case_bool_decide as Hg; cbn [negb]; [|auto with flr].
  assert (Hd : forall l n, Post h0 (s |> label l |> part_a u (msg Deny None n 0))).
  { intros l n. apply Pre_Post, Pre_part_a; auto with flr. apply (inv_user _ Hi). }
  destruct (alone s.1); [apply Hd|]. destruct (retry (pget s.1 u)); [apply Hd|].
  apply (enter_taken_post h0 (g s.1) (holder s.1) u). split; try done; try apply Hi.
  - pose proof (inv_shape _ Hi) as Hs. rewrite Hg in Hs. by destruct Hs as (_ & ? & _).
  - change (part (pget s.1 u) = Some NpSends -> g_taken (pget s.1 u) = true). congruence.
  - cbn. split; [apply Hi|]. unfold timers.C20. lia.
  - apply HP.
Qed.

Lemma arb_rel_post h0 u s : Pre h0 s -> Post h0 (arb_rel u s).
Proof.
  intros HP. unfold arb_rel. destruct (is_speaker s.1 u), (is_revoking s.1 u);
    try (apply idle_enter_post; [apply Inv_set_prev, HP|apply HP]). auto with flr.
Qed.

Lemma arb_rtp_post h0 u s : Pre h0 s -> Post h0 (arb_rtp u s).
Proof.
  intros HP. unfold arb_rtp. destruct (is_speaker s.1 u), (is_revoking s.1 u); auto with flr;
    apply Pre_Post, Pre_modf; auto with flr; apply Inv_rtp, HP.
Qed.

Lemma arb_req_permitted_post h0 u t s : Pre h0 s -> Post h0 (arb_req_permitted u t s).
Proof.
  intros HP. unfold arb_req_permitted. destruct (is_speaker s.1 u) eqn:E; [|auto with flr].
  apply is_speaker_true in E as [? ?]. apply Post_part_a_granted; auto with flr.
Qed.

Lemma revoke3_post h0 u s :
  part (pget s.1 u) = Some NpIdle \/ part (pget s.1 u) = Some NpTaken ->
  Pre h0 s -> Post h0 (revoke3 u s).
Proof.
  intros Hp HP. unfold revoke3, send_e, enter_r. apply Pre_Post, Pre_send; [done..|].
  pose proof (inv_user _ (pr_inv _ _ HP) u) as Hu.
  apply Pre_modf; [|done|apply Pre_label, Pre_modf; [|done|done]].
  - cbn [label modf fst]. apply Inv_upd.
    { apply Inv_upd_neutral; [by intros ?|apply HP]. }
    rewrite pget_upd, decide_True by done. unfold user_ok, timers.C8, timers.C21 in *.
    change (member (upd u _ s.1) u) with (member s.1 u). change (holder (upd u _ s.1)) with (holder s.1).
    change (g (upd u _ s.1)) with (g s.1). cbn. destruct (member s.1 u).
    + destruct Hp as [Hp|Hp]; rewrite Hp in Hu; destruct Hu as [? [? ->]];
        (split; [lia|]); by case_bool_decide.
    + destruct Hu as [_ Hu]. destruct Hp, Hu; congruence.
  - apply Inv_upd_neutral; [by intros ?|apply HP].
Qed.

Lemma arb_preempt_post h0 u p s :
  in_q s.1 u = false -> pre_q s.1 = false -> Pre h0 s -> Post h0 (arb_preempt u p s).
Proof.
  intros Hq Hp HP. unfold arb_preempt. case_bool_decide as Hg; [|auto with flr].
  pose proof (pr_inv _ _ HP) as Hi. pose proof (inv_shape _ Hi) as Hs. rewrite Hg in Hs.
  destruct Hs as [Hs _]. destruct (speaker s.1) as [sp|] eqn:Es; [|done].
  set (s1 := s |> label _ |> modf _).
  assert (HP1 : Pre h0 s1).
  { apply Pre_modf; [|done|by apply Pre_label]. apply Inv_set_queue; [done|cbn; congruence|].
    apply queue_ok_preempt; [apply Hi|by apply in_q_false|done]. }
  change (speaker s1.1) with (speaker s.1). rewrite Es. change (default "" (Some sp)) with sp.
  apply Pre_Post, Pre_part_a; [done..| |].
  - apply (inv_user _ (pr_inv _ _ (prevoke_enter_pre h0 sp revoke.PREEMPTED s1 Hg Es HP1))).
  - by apply prevoke_enter_pre.
Qed.

Lemma taken_req_post h0 u p s :
  g s.1 <> GIdle -> Pre h0 s -> Post h0 (taken_req u p s).
Proof.
  intros Hg HP. unfold taken_req. pose proof (pr_inv _ _ HP) as Hi.
  assert (Hsend : forall l t n d, seqd t = false -> t <> Granted ->
    Post h0 (s |> label l |> send u t None n d)).
  { intros. apply Pre_Post, Pre_send; auto with flr. }
  destruct (retry _); [by apply Hsend|]. destruct (in_q s.1 u) eqn:Eq; [by apply Hsend|].
  destruct (p >? holder_prio s.1); cbn [andb].
  { destruct (pre_q s.1) eqn:Ep; cbn [negb]; [auto with flr|]. apply arb_preempt_post; auto with flr. }
  destruct (Z.geb_spec (len (queue s.1)) (qmax s.1)) as [Hl|Hl]; [by apply Hsend|].
  apply Pre_Post, Pre_send; [done..|].
  assert (Inv (insert_q (mkWaiter u p false) s.1)) as Hins.
  { assert (insert_q (mkWaiter u p false) s.1 = set_queue (insert_list (mkWaiter u p false) (queue s.1)) s.1)
      as -> by (unfold insert_q, insert_list; by destruct (position _ _)).
    apply Inv_set_queue; [done..|]. apply queue_ok_insert; [apply Hi|by apply in_q_false|lia]. }
  apply Pre_modf; [done| |auto with flr]. cbn. unfold insert_q. by destruct (position _ _).
Qed.

Lemma Inv_upd_c21 f u c : 0 <= c <= timers.C21 + 1 -> Inv f -> Inv (upd u (set_c21 c) f).
Proof.
  intros Hc Hi. apply Inv_upd; [done|]. pose proof (inv_user _ Hi u) as Hu.
  unfold user_ok in *. cbn. naive_solver.
Qed.

(** Entering a listening state that agrees with the arbiter. *)
Lemma enter_listen_post h0 u (p : P) s :
  member s.1 u = true ->
  (p = NpIdle /\ g s.1 = GIdle) \/ (p = NpTaken /\ g s.1 <> GIdle) ->
  Post h0 s -> Post h0 (enter_r u p s).
Proof.
  intros Hm Hp HP. pose proof (po_inv _ _ HP) as Hi. pose proof (inv_user _ Hi u) as Hu.
  unfold enter_r. destruct Hp as [[-> Hg]|[-> Hg]];
    (apply Post_modf; [|done..|by apply Post_label]); cbn [label fst];
    (apply Inv_upd; [done|]); unfold user_ok, timers.C21 in *; rewrite Hm in *; cbn; naive_solver lia.
Qed.

(** Saying who talks, in a state that agrees. *)
Lemma holder_taken f : Inv f -> g f <> GIdle -> holder f <> None.
Proof.
  intros Hi Hg. pose proof (inv_shape _ Hi) as Hs. unfold holder, shape_ok in *.
  destruct (g f); [done|apply Hs..].
Qed.

Lemma Post_say_taken h0 u d s :
  g s.1 <> GIdle -> Post h0 s -> Post h0 (send u Taken (holder s.1) 0 d s).
Proof.
  intros Hg HP. apply Post_send; [|done]. intros q. split; [|done].
  apply holder_taken; [apply HP|done].
Qed.

Lemma Post_say_idle h0 u a d s :
  g s.1 = GIdle -> Post h0 s -> Post h0 (send u Idle a 0 d s).
Proof.
  intros Hg HP. apply Post_send; [|done]. intros q. unfold truthful, holder. cbn. by rewrite Hg.
Qed.

(** The acknowledgement of a RELEASE. *)
Lemma ack_release_core u s : core (ack_release u s).1 = core s.1.
Proof. apply (send_spec u Ack None RELEASE_TYPE 0 s). Qed.
Lemma ack_release_g u s : g (ack_release u s).1 = g s.1.
Proof. by destruct (core_eq _ _ (ack_release_core u s)) as [-> _]. Qed.
Lemma ack_release_member u s x : member (ack_release u s).1 x = member s.1 x.
Proof. apply member_core, ack_release_core. Qed.
Lemma Pre_ack_release h0 u s : Pre h0 s -> Pre h0 (ack_release u s).
Proof. by apply Pre_send. Qed.
#[export] Hint Resolve Pre_ack_release : flr.

Lemma release_listening_post h0 u (dst : P) m s :
  member s.1 u = true -> Pre h0 s ->
  (dst = NpIdle /\ g s.1 = GIdle /\ (exists a, m = msg Idle a 0 0)) \/
  (dst = NpTaken /\ g s.1 <> GIdle /\ m = msg Taken (holder s.1) 0 0) ->
  Post h0 (send_e u dst m s).
Proof.
  intros Hm HP H. unfold send_e.
  assert (He : Post h0 (enter_r u dst s)).
  { apply enter_listen_post; [done|naive_solver|by apply Pre_Post]. }
  destruct H as [(-> & Hg & a & ->)|(-> & Hg & ->)].
  - by apply Post_say_idle.
  - by apply (Post_say_taken h0 u 0 (enter_r u NpTaken s)).
Qed.

Lemma npsends_release_post h0 u l1 l2 s :
  member s.1 u = true -> g_taken (pget s.1 u) = negb (bool_decide (g s.1 = GIdle)) -> Pre h0 s ->
  Post h0 (if g_taken (pget s.1 u) then
        let s := s |> label l1 |> ack_release u in
        s |> send_e u NpTaken (msg Taken (holder s.1) 0 0)
      else
        let s := s |> label l2 |> ack_release u in
        s |> send_e u NpIdle (msg Idle (prev s.1) 0 0)).
Proof.
  intros Hm Hg HP. rewrite Hg. case_bool_decide as E; cbn [negb];
    (apply release_listening_post; [by rewrite ack_release_member|auto with flr|]);
    rewrite ack_release_g; cbn [label fst]; eauto 10.
Qed.

Lemma part_c_post h0 u ev t s :
  member s.1 u = true -> Pre h0 s -> Post h0 (part_c u ev t s).
Proof.
  intros Hm HP. pose proof (pr_inv _ _ HP) as Hi. pose proof (member_ok _ _ Hi Hm) as Hu.
  unfold part_c. rewrite part_of_pget.
  destruct (part (pget s.1 u)) as [[]|] eqn:Ep; destruct (mt ev) eqn:Et; try contradiction;
    try (by auto with flr).
  - apply arb_req_idle_post; auto with flr.
  - apply Post_say_idle; [by change (g (ack_release u (label "FLR.S.P.NP_IDLE.rx_RELEASE" s)).1 = GIdle);
      rewrite ack_release_g|].
    apply Pre_Post, Pre_modf; [|done|auto with flr]. apply Inv_dequeue. by apply (pr_inv h0), Pre_ack_release, Pre_label.
  - destruct (released _); [|by auto with flr]. apply revoke3_post; auto with flr.
  - apply taken_req_post; auto with flr.
  - apply Post_say_taken; [by change (g (ack_release u (label "FLR.S.P.NP_TAKEN.rx_RELEASE" s)).1 <> GIdle);
      rewrite ack_release_g|].
    assert (HA : Pre h0 (s |> label "FLR.S.P.NP_TAKEN.rx_RELEASE" |> ack_release u)) by auto with flr.
    apply Pre_Post, Pre_modf; [|done|apply Pre_modf; [|done|done]]; cbn [modf fst].
    + apply Inv_dequeue, Inv_upd_c21; [done|apply HA].
    + apply Inv_upd_c21; [done|apply HA].
  - apply Pre_Post, Pre_send; auto with flr.
  - destruct (mn ev =? 2); [|by auto with flr].
    apply Pre_Post, Pre_modf; auto with flr. apply Inv_upd_c21; done.
  - apply revoke3_post; auto with flr.
  - apply arb_req_permitted_post; auto with flr.
  - apply arb_rel_post, Pre_ack_release, Pre_modf; auto with flr.
    apply Inv_upd_neutral; [by intros ?|done].
  - apply arb_rtp_post; auto with flr.
  - apply arb_rel_post; auto with flr.
  - apply arb_rtp_post; auto with flr.
  - by apply npsends_release_post.
Qed.

Lemma away_post h0 u s : Pre h0 s -> Post h0 (away u s).
Proof.
  intros HP. unfold away. destruct (is_speaker s.1 u).
  { apply idle_enter_post; [apply Inv_set_prev, HP|apply HP]. }
  destruct (is_revoking s.1 u); [by auto with flr|]. destruct (in_q s.1 u); [|by auto with flr].
  apply Pre_Post, Pre_modf; [apply Inv_dequeue, HP|done|auto with flr].
Qed.

Lemma server_rx_post u m half t f : Inv f -> Post (holder f) (server_rx u m half t f).
Proof.
  intros Hi. pose proof (Pre_start _ Hi) as HP. unfold server_rx.
  assert (Hd : forall l n, Post (holder f) (start f |> label l |> send u Deny None n 0)).
  { intros. apply Pre_Post, Pre_send; auto with flr. }
  destruct (bool_decide (mt m = Ack) && _); [by auto with flr|].
  destruct (member f u) eqn:Em; cbn [negb andb]; [|case_match; [apply Hd|by auto with flr]].
  repeat (case_match; [apply Hd|]). by apply part_c_post.
Qed.

Lemma rtp_post u f : Inv f -> Post (holder f) (rtp u f).
Proof.
  intros Hi. pose proof (Pre_start _ Hi) as HP. unfold rtp.
  destruct (member f u) eqn:Em; cbn [negb]; [by apply part_c_post|auto with flr].
Qed.

Lemma ready_post u f : Inv f -> Post (holder f) (ready u f).
Proof.
  intros Hi. pose proof (Pre_start _ Hi) as HP. unfold ready.
  case_bool_decide; [by auto with flr|]. destruct (holder f) eqn:Eh.
  - apply Post_send; [|rewrite <- Eh in *; auto with flr].
    intros q. split; cbn [start label fst]; by rewrite Eh.
  - apply Post_send; [|rewrite <- Eh in *; auto with flr]. intros q. exact Eh.
Qed.

Lemma perm_down_post u f : Inv f -> Post (holder f) (perm_down u f).
Proof.
  intros Hi. unfold perm_down. set (s := start f |> modf _).
  assert (HP : Pre (holder f) s).
  { apply Pre_modf; [apply Inv_upd_neutral; [by intros ?|done]|done|by apply Pre_start]. }
  destruct (is_speaker s.1 u) eqn:Es.
  { apply is_speaker_true in Es as [? ?]. apply Pre_Post, prevoke_enter_pre; auto with flr. }
  destruct (in_q s.1 u); [|by auto with flr].
  assert (HP2 : Pre (holder f) (s |> label "FLR.S.perm.queued" |> modf (dequeue u))).
  { apply Pre_modf; [apply Inv_dequeue, HP|done|auto with flr]. }
  apply Pre_Post, Pre_part_a; [done..| |done]. apply (inv_user _ (pr_inv _ _ HP2)).
Qed.

Lemma neutral_update_post u h l f :
  neutral h -> Inv f -> Post (holder f) (start f |> label l |> modf (upd u h)).
Proof.
  intros Hn Hi. apply Pre_Post, Pre_modf; [by apply Inv_upd_neutral|done|].
  by apply Pre_label, Pre_start.
Qed.

Lemma ws_pub_away_post u f : Inv f -> Post (holder f) (ws_pub_away u f).
Proof.
  intros Hi. apply away_post, Pre_modf; [apply Inv_upd_neutral; [by intros ?|done]|done|].
  by apply Pre_label, Pre_start.
Qed.

Lemma Inv_leave f u :
  Inv f -> Inv (upd u (fun p => p |> set_retry false |> set_part (Some Releasing))
                 (set_members (members f ∖ {[u]}) f)).
Proof.
  intros Hi. pose proof Hi as [H1 H2 H3 H4 H5]. split; try done.
  intros x. rewrite pget_upd. case_decide as E.
  - subst. pose proof (H2 u) as [Hc _]. split; [exact Hc|].
    unfold member. cbn [members upd set_parts set_members]. rewrite bool_decide_false by set_solver. by right.
  - pose proof (H2 x) as Hx. unfold member in *. cbn [members upd set_parts set_members].
    by rewrite (bool_decide_ext _ (x ∈ members f)) by set_solver.
Qed.

Lemma ws_leave_post u f : Inv f -> Post (holder f) (ws_leave u f).
Proof.
  intros Hi. unfold ws_leave. pose proof (ws_pub_away_post u f Hi) as HA.
  set (s := start f |> label _ |> modf _ |> away u).
  assert (Post (holder f) s) as HP.
  { apply away_post, Pre_modf; [apply Inv_upd_neutral; [by intros ?|done]|done|]. by apply Pre_label, Pre_start. }
  apply (Post_modf (holder f) (fun f => upd u (fun p => p |> set_retry false |> set_part (Some Releasing))
                 (set_members (members f ∖ {[u]}) f)) s); [apply Inv_leave, HP|done..].
Qed.

Definition join_update (u : string) (pm : bool) (f : Floor) : Floor :=
  let f := set_members ({[u]} ∪ members f) f in
  let taken := bool_decide (holder f <> None) in
  upd u (fun p => p |> set_part (Some (if taken then NpTaken else NpIdle))
       |> set_g_taken taken |> set_pub_room false |> set_perm pm |> set_retry false
       |> set_released false |> set_rcause 0) f.

Lemma Inv_join f u pm : Inv f -> Inv (join_update u pm f).
Proof.
  intros Hi. pose proof Hi as [H1 H2 H3 H4 H5]. split; try done.
  intros x. unfold join_update. rewrite pget_upd. case_decide as E.
  - subst. pose proof (H2 u) as [Hc _]. split; [exact Hc|].
    unfold member. cbn [members upd set_parts set_members]. rewrite bool_decide_true by set_solver.
    change (holder (set_members ?m f)) with (holder f). change (g (upd ?x ?y ?z)) with (g f).
    case_bool_decide as E; cbn.
    + split; [|done]. intros Hg. apply E. unfold holder. by rewrite Hg.
    + split; [|done]. destruct (decide (g f = GIdle)) as [|Hg]; [done|].
      by destruct (holder_taken f Hi Hg).
  - pose proof (H2 x) as Hx.
    assert (member (join_update u pm f) x = member f x) as Em.
    { apply bool_decide_ext. change (x ∈ {[u]} ∪ members f <-> x ∈ members f). set_solver. }
    unfold join_update in Em. rewrite Em. exact Hx.
Qed.

Lemma ws_join_post u pm f : Inv f -> Post (holder f) (ws_join u pm f).
Proof.
  intros Hi. unfold ws_join.
  set (s := if is_revoking f u then _ else _).
  assert (Post (holder f) s) as HP.
  { unfold s. destruct (is_revoking f u); [|by auto using Pre_start with flr].
    apply idle_enter_post; [by apply Inv_set_prev|constructor]. }
  apply (Post_modf (holder f) (join_update u pm) s); [apply Inv_join, HP|done..].
Qed.

(** *** Timers *)

Lemma fan_idle_post h0 a s :
  g s.1 = GIdle -> Pre h0 s -> Post h0 (fan (msg Idle a 0 0) None s).
Proof.
  intros Hg [Hi Ho Hf]. destruct (fan_broadcast (msg Idle a 0 0) None s) as [B1 B2 B3 B4 B5 (n & B6 & B7)].
  assert (Hh : holder s.1 = None) by (unfold holder; by rewrite Hg).
  pose proof (core_holder _ _ B1) as Hh'. split.
  - apply (Inv_same s.1); [done..|apply B3, Hi|]. intros x.
    pose proof (user_ok_idle _ _ _ _ _ (inv_user _ Hi x)) as Hu. rewrite Hg, Hh.
    destruct (member s.1 x) eqn:Ex.
    + rewrite B4 by (by apply reached_None). exact Hu.
    + rewrite B5 by (rewrite reached_None; congruence). exact Hu.
  - rewrite B6. apply Forall_app. split.
    + eapply Forall_impl; [exact Ho|]. apply quiet_truthful.
    + eapply Forall_impl; [exact B7|]. intros o (_ & Ht & _). unfold truthful. rewrite Ht. cbn. congruence.
  - by rewrite B2, Hh'.
Qed.

Lemma Inv_set_c7 f c : 0 <= c <= timers.C7 -> Inv f -> Inv (set_c7 c f).
Proof. intros Hc [H1 H2 H3 H4 H5]. split; try done. cbn. split; [done|apply H4]. Qed.
Lemma Inv_set_c20 f c : 0 <= c <= timers.C20 + 1 -> Inv f -> Inv (set_c20 c f).
Proof. intros Hc [H1 H2 H3 H4 H5]. split; try done. cbn. split; [apply H4|done]. Qed.

(** Membership in the armed lists, one test per timer. *)
Ltac armed_cases H :=
  unfold armed_server in H;
  rewrite ?elem_of_app in H;
  repeat match type of H with
  | _ \/ _ => destruct H as [H|H]
  end;
  match type of H with
  | _ ∈ (if ?b then _ else _) => destruct b eqn:?; [|by apply not_elem_of_nil in H]
  end;
  apply list_elem_of_singleton in H; try discriminate H.

Lemma armed_T2 f : T2 ∈ armed_server f -> g f = GTaken.
Proof. intros H. armed_cases H. by zbool. Qed.
Lemma armed_T7 f : T7 ∈ armed_server f -> g f = GIdle /\ c7 f < timers.C7.
Proof.
  intros H. armed_cases H. by zbool.
Qed.
Lemma armed_T20 f : T20 ∈ armed_server f -> g f = GTaken /\ c20 f <= timers.C20.
Proof. intros H. armed_cases H. by zbool. Qed.
Lemma armed_only_server f t : t ∈ armed_server f -> t = T1 \/ t = T2 \/ t = T3 \/ t = T7 \/ t = T20.
Proof. intros H. armed_cases H; subst; tauto. Qed.

Lemma armed_T8 f u : T8 ∈ armed_participant f u ->
  c8 (pget f u) < timers.C8.
Proof.
  unfold armed_participant, pget. destruct (parts f !! u); [|by intros ?%not_elem_of_nil].
  intros H. armed_cases H. zbool. done.
Qed.
Lemma armed_T21 f u : T21 ∈ armed_participant f u ->
  part (pget f u) = Some NpTaken /\ 1 <= c21 (pget f u) <= timers.C21.
Proof.
  unfold armed_participant, pget. destruct (parts f !! u); [|by intros ?%not_elem_of_nil].
  intros H. armed_cases H. zbool. cbn. split; [done|lia].
Qed.
Lemma armed_only_participant f u t : t ∈ armed_participant f u -> t = T8 \/ t = T9 \/ t = T21.
Proof.
  unfold armed_participant. destruct (parts f !! u); [|by intros ?%not_elem_of_nil].
  intros H. armed_cases H; subst; tauto.
Qed.

Lemma t2_post f : Inv f -> T2 ∈ armed_server f -> Post (holder f) (t2 f).
Proof.
  intros Hi Hg%armed_T2. unfold t2.
  pose proof (inv_shape _ Hi) as Hs. rewrite Hg in Hs. destruct Hs as [Hs _].
  destruct (speaker f) as [sp|] eqn:Es; [|done]. change (default "" (Some sp)) with sp.
  apply Pre_Post, prevoke_enter_pre; [done..|].
  apply Pre_modf; [apply Inv_upd_neutral; [by intros ?|done]|done|by apply Pre_label, Pre_start].
Qed.

Lemma t7_post f : Inv f -> T7 ∈ armed_server f -> Post (holder f) (t7 f).
Proof.
  intros Hi [Hg Hc]%armed_T7. unfold t7. apply fan_idle_post; [done|].
  apply Pre_modf; [|done|by apply Pre_label, Pre_start].
  apply Inv_set_c7; [|done]. pose proof (inv_cnt _ Hi) as [? _]. unfold timers.C7 in *.
  cbn [start label fst]. rewrite u32_id by ulia. lia.
Qed.

Lemma t20_post f : Inv f -> T20 ∈ armed_server f -> Post (holder f) (t20 f).
Proof.
  intros Hi [Hg Hc]%armed_T20. unfold t20.
  assert (HP : forall l, Pre (holder f) (start f |> label l |> modf (fun f => set_c20 (u32 (c20 f + 1)) f))).
  { intros l. apply Pre_modf; [|done|by apply Pre_label, Pre_start]. apply Inv_set_c20; [|done].
    pose proof (inv_cnt _ Hi) as [_ ?]. unfold timers.C20 in *. cbn [start label fst].
    rewrite u32_id by ulia. lia. }
  destruct (c20 f <? timers.C20); [|by apply Pre_Post].
  pose proof (inv_shape _ Hi) as Hs. rewrite Hg in Hs. destruct Hs as [Hs _].
  destruct (speaker f) as [sp|] eqn:Es; [|done]. cbn [start label modf fst set_c20 speaker]. rewrite Es.
  apply Post_part_a_granted; [done..|]. by apply Pre_Post.
Qed.

Lemma t8_post u f : Inv f -> T8 ∈ armed_participant f u -> Post (holder f) (t8 u f).
Proof.
  intros Hi Hc%armed_T8. unfold t8.
  assert (HP : Pre (holder f) (start f |> modf (upd u (fun p => set_c8 (u32 (c8 p + 1)) p)))).
  { apply Pre_modf; [|done|by apply Pre_start]. apply Inv_upd; [done|].
    pose proof (inv_user _ Hi u) as Hu. unfold user_ok, timers.C8 in *. cbn [start fst].
    cbn. rewrite u32_id by ulia. split; [lia|apply Hu]. }
  case_bool_decide; apply Pre_Post, Pre_send; auto with flr.
Qed.

Lemma t21_post u f : Inv f -> T21 ∈ armed_participant f u -> Post (holder f) (t21 u f).
Proof.
  intros Hi [Hp Hc]%armed_T21. unfold t21.
  assert (HP : Pre (holder f) (start f |> modf (upd u (fun p => set_c21 (u32 (c21 p + 1)) p)))).
  { apply Pre_modf; [|done|by apply Pre_start]. apply Inv_upd; [done|].
    pose proof (inv_user _ Hi u) as Hu. unfold user_ok, timers.C21 in *. cbn [start fst].
    cbn. rewrite u32_id by ulia. split; [lia|apply Hu]. }
  destruct (c21 (pget f u) <? timers.C21); [|by auto with flr].
  apply (Post_say_taken (holder f) u 0 (label "FLR.S.P.NP_TAKEN.T21" (modf (upd u _) (start f))));
    [|by auto with flr].
  destruct (inv_user _ Hi u) as [_ Hu]. rewrite Hp in Hu. cbn.
  destruct (member f u); naive_solver.
Qed.

Lemma fire_due_post t user f s : Inv f -> fire_due t user f = Some s -> Post (holder f) s.
Proof.
  intros Hi. unfold fire_due. case_bool_decide as Ha; [|done]. intros [= <-].
  assert (HI : forall l k, Inv (k f) -> holder (k f) = holder f -> Post (holder f) (start f |> label l |> modf k |> idle_enter)).
  { intros l k Hk Hh. apply idle_enter_post; [done|constructor]. }
  destruct user as [u|]; cbn [default].
  - pose proof (armed_only_participant _ _ _ Ha) as [->|[->| ->]]; cbn [fire].
    + by apply t8_post.
    + by apply neutral_update_post.
    + by apply t21_post.
  - pose proof (armed_only_server _ _ Ha) as [->|[->|[->|[->| ->]]]]; cbn [fire].
    + unfold t1. case_bool_decide; apply HI; try done; by apply Inv_set_prev.
    + by apply t2_post.
    + apply HI; [by apply Inv_set_prev|done].
    + by apply t7_post.
    + by apply t20_post.
Qed.

(** *** Every event *)

Lemma apply_post e f s : Inv f -> apply e f = Some s -> Post (holder f) s.
Proof.
  intros Hi. destruct e; cbn [apply]; intros H; [injection H as <-..|by eapply fire_due_post].
  - by apply server_rx_post.
  - by apply rtp_post.
  - by apply ready_post.
  - by apply perm_down_post.
  - by apply neutral_update_post.
  - by apply neutral_update_post.
  - by apply ws_pub_away_post.
  - by apply ws_leave_post.
  - by apply ws_join_post.
Qed.

Lemma Inv_new qm t2 : Inv (new qm t2).
Proof.
  split; try done.
  - intros u. split; [done|]. cbn. by left.
  - split; cbn; [constructor..| |]; autorewrite with len; lia.
Qed.

Lemma Inv_step f f' : Inv f -> step f f' -> Inv f'.
Proof. intros Hi Hs. destruct Hs as [e f f' r Ha]. apply (apply_post e f (f', r) Hi Ha). Qed.

Lemma Inv_reachable qm t2 f : reachable qm t2 f -> Inv f.
Proof.
  intros H. unfold reachable in H. remember (new qm t2) as f0 eqn:E.
  assert (Inv f0) as Hi by (subst; apply Inv_new). clear E.
  induction H; [done|]. apply IHrtc. by eapply Inv_step.
Qed.

(** ** Rooms to look at *)

Definition request_of (u : string) (p : Z) : Event := EvRx u (msg Request None p 0) true 0.
Definition release_of (u : string) : Event := EvRx u (msg Release None 0 0) true 0.

(** Three members that may all talk. *)
Definition three_joined : list Event :=
  [EvJoin "a" true; EvJoin "b" true; EvJoin "c" true;
   EvPubSelect "a"; EvPubSelect "b"; EvPubSelect "c"].

(** They have joined; [a] talks; [b] and [c] wait behind it. *)
Definition joined : Floor := run three_joined (new 10 30).
Definition a_talks : Floor := run (three_joined ++ [request_of "a" 5]) (new 10 30).
Definition two_wait : Floor := run (three_joined ++ [request_of "a" 5; request_of "b" 5; request_of "c" 5]) (new 10 30).

Lemma reachable_run qm t2 es : reachable qm t2 (run es (new qm t2)).
Proof.
  unfold reachable. generalize (new qm t2). induction es as [|e es IH]; intros f; cbn [run]; [apply rtc_refl|].
  destruct (apply e f) as [[f' r]|] eqn:E; [|apply IH]. eapply rtc_l; [by eapply step_event|]. apply IH.
Qed.
