(* ===== verification/FloorThm.v ===== *)
(** * Floor control: theorems

    What the room's floor promises, over every state that a sequence of client
    messages, media packets, membership changes and timer expiries can reach. *)

From S2P Require Import Prelude FloorWire FloorCore FloorInv.
Import Flr.

(** ** One talker *)

(** C1: At most one participant is ever permitted to talk: it is a member, the arbiter
    is in the taken state and names it as the talker. *)
Theorem floor_mutual_exclusion qm t2 f u v :
  reachable qm t2 f -> part_of f u = Some Permitted -> part_of f v = Some Permitted ->
  u = v /\ g f = GTaken /\ speaker f = Some u /\ u ∈ members f.
Proof.
  intros Hi%Inv_reachable. rewrite !part_of_pget. intros Hu Hv.
  destruct (inv_user _ Hi u) as [_ Ou], (inv_user _ Hi v) as [_ Ov]. rewrite Hu in Ou. rewrite Hv in Ov.
  destruct (member f u) eqn:Mu, (member f v); try naive_solver.
  destruct Ou as [Hg Ou], Ov as [_ Ov]. unfold member in Mu. zbool.
  assert (speaker f = Some u) by (unfold holder in Ou; by rewrite Hg in Ou). naive_solver.
Qed.

Lemma floor_mutual_exclusion_witness :
  part_of a_talks "a" = Some Permitted /\ speaker a_talks = Some "a" /\ "a" ∈ members a_talks.
Proof.
  assert (H : part_of a_talks "a" = Some Permitted) by (vm_compute; reflexivity).
  destruct (floor_mutual_exclusion 10 30 a_talks "a" "a" (reachable_run 10 30 _) H H) as (_ & _ & H1 & H2). auto.
Defined.

(** ** What is said is so *)

(** C7: Whatever happens, every message a step sends is true in the state the step ends
    in: GRANTED reaches only the talker, TAKEN carries the holder's name, IDLE is sent
    only when nobody holds the floor. *)
Theorem floor_messages_truthful qm t2 f e f' r :
  reachable qm t2 f -> apply e f = Some (f', r) -> Forall (truthful f') (out r).
Proof. intros Hi%Inv_reachable Ha. apply (po_out _ _ (apply_post e f (f', r) Hi Ha)). Qed.

Lemma floor_messages_truthful_witness :
  let s := server_rx "a" (msg Request None 5 0) true 0 joined in length (out s.2) = 3%nat /\ Forall (truthful s.1) (out s.2).
Proof.
  intros s. split; [vm_compute; reflexivity|].
  exact (floor_messages_truthful 10 30 joined (request_of "a" 5) s.1 s.2 (reachable_run 10 30 _) (f_equal Some (surjective_pairing s))).
Defined.

(** ** The queue *)

(** In every reachable state the queue holds no user twice, is ordered by preemption
    and then priority, has at most one preempting waiter and at most [qmax] others, and
    is empty whenever the floor is free. *)
Theorem floor_queue_bounded qm t2 f :
  reachable qm t2 f ->
  queue_ok (qmax f) (queue f) /\ len (queue f) <= Z.max 0 (qmax f) + 1 /\
  (g f = GIdle -> queue f = []).
Proof.
  intros Hi%Inv_reachable. pose proof (inv_queue _ Hi) as Hq. split; [done|].
  split; [by apply queue_len_bound|]. intros Hg. pose proof (inv_shape _ Hi) as Hs.
  rewrite Hg in Hs. apply Hs.
Qed.

Lemma floor_queue_bounded_witness : map wu (queue two_wait) = ["b"; "c"] /\ len (queue two_wait) <= Z.max 0 (qmax two_wait) + 1.
Proof.
  split; [vm_compute; reflexivity|]. destruct (floor_queue_bounded 10 30 two_wait (reachable_run 10 30 _)) as (_ & H & _). exact H.
Defined.

(** The insertion the code makes keeps first-come order among equals: the new waiter
    goes behind every waiter that is not strictly less urgent, in front of the rest. *)
Theorem floor_insert_stable w f q1 q2 :
  queue f = q1 ++ q2 ->
  Forall (fun x => before w x = false) q1 ->
  match q2 with [] => True | x :: _ => before w x = true end ->
  queue (insert_q w f) = q1 ++ w :: q2.
Proof.
  intros Hq H1 H2. rewrite queue_insert_q, Hq. clear Hq.
  induction H1 as [|x q1 Hx _ IH]; cbn [app].
  - destruct q2 as [|x q2]; [done|]. by rewrite insert_list_cons, H2.
  - by rewrite insert_list_cons, Hx, IH.
Qed.

Lemma floor_insert_stable_witness :
  queue (insert_q (mkWaiter "d" 5 false) two_wait) = queue two_wait ++ [mkWaiter "d" 5 false].
Proof.
  apply (floor_insert_stable (mkWaiter "d" 5 false) two_wait (queue two_wait) []); [by rewrite app_nil_r| |done].
  vm_compute. repeat constructor.
Defined.

(** ** Counters *)

(** The retransmission counters stay within their limits in every reachable state, so
    the [u32] additions of the timers never wrap. *)
Theorem floor_counters_bounded qm t2 f u :
  reachable qm t2 f ->
  0 <= c7 f <= 10 /\ 0 <= c20 f <= 4 /\ 0 <= c8 (pget f u) <= 3 /\ 0 <= c21 (pget f u) <= 4 /\
  0 <= seq f < SEQ_WRAP.
Proof.
  intros Hi%Inv_reachable. destruct (inv_cnt _ Hi) as [? ?], (inv_user _ Hi u) as [[? ?] _].
  pose proof (inv_seq _ Hi). done.
Qed.

Lemma floor_counters_bounded_witness : seq two_wait = 1 /\ 0 <= c20 two_wait <= 4.
Proof.
  split; [vm_compute; reflexivity|].
  destruct (floor_counters_bounded 10 30 two_wait "b" (reachable_run 10 30 _)) as (_ & H & _). exact H.
Defined.

(** ** Requests and releases *)

(** Handlers only add messages. *)
Definition extends (s s' : St) : Prop := out s.2 `prefix_of` out s'.2.
#[export] Instance extends_preorder : PreOrder extends.
Proof. unfold extends. split; [by intros x|]. intros x y z. by apply transitivity. Qed.

Lemma extends_modf k s : extends s (modf k s).
Proof. unfold extends. reflexivity. Qed.
Lemma extends_label l s : extends s (label l s).
Proof. unfold extends. reflexivity. Qed.
Lemma extends_effect e s : extends s (effect e s).
Proof. unfold extends. reflexivity. Qed.
Lemma extends_send u t a n d s : extends s (send u t a n d s).
Proof. destruct (send_spec u t a n d s) as (_ & _ & _ & q & H). unfold extends. rewrite H. by eexists. Qed.
Lemma extends_part_a u ev s : extends s (part_a u ev s).
Proof. destruct (part_a_delivered u ev s) as [_ _ _ _ (n & H & _)]. unfold extends. rewrite H. by eexists. Qed.
Lemma extends_fan ev k s : extends s (fan ev k s).
Proof. destruct (fan_broadcast ev k s) as [_ _ _ _ _ (n & H & _)]. unfold extends. rewrite H. by eexists. Qed.

Ltac grow1 :=
  match goal with
  | |- extends ?s ?s => reflexivity
  | |- extends _ (ack_release _ ?s) => transitivity s; [|apply extends_send]
  | |- extends _ (send _ _ _ _ _ ?s) => transitivity s; [|apply extends_send]
  | |- extends _ (part_a _ _ ?s) => transitivity s; [|apply extends_part_a]
  | |- extends _ (fan _ _ ?s) => transitivity s; [|apply extends_fan]
  | |- extends _ (effect _ ?s) => transitivity s; [|apply extends_effect]
  | |- extends _ (modf _ ?s) => transitivity s; [|apply extends_modf]
  | |- extends _ (label _ ?s) => transitivity s; [|apply extends_label]
  end.


Lemma extends_idle_enter s : extends s (idle_enter s).
Proof. unfold idle_enter, enter_taken. destruct (queue s.1); repeat grow1. Qed.
Lemma extends_arb_rel u s : extends s (arb_rel u s).
Proof.
  unfold arb_rel. repeat case_match; repeat grow1;
    (etransitivity; [|apply extends_idle_enter]); repeat grow1.
Qed.
Ltac grow :=
  repeat first
    [ grow1
    | match goal with
      | |- extends _ (idle_enter ?s) => transitivity s; [|apply extends_idle_enter]
      | |- extends _ (arb_rel _ ?s) => transitivity s; [|apply extends_arb_rel]
      end ].

Lemma head_prefix {A} (x : A) l k : head l = Some x -> l `prefix_of` k -> head k = Some x.
Proof. intros H [r ->]. by destruct l. Qed.

(** A member's RELEASE is acknowledged in every state, first of all messages. *)
Theorem floor_release_acked f u m half t2_left :
  member f u = true -> mt m = Release ->
  head (out (server_rx u m half t2_left f).2) = Some (mkOut u (mkMsg Ack None RELEASE_TYPE 0 0)).
Proof.
  intros Hm Ht. unfold server_rx. rewrite Hm, Ht. rewrite (bool_decide_false (Release = Ack)), (bool_decide_false (Release = Request)) by done. cbn [negb andb].
  assert (Hk : forall s0 s', out s0.2 = [] -> extends (ack_release u s0) s' ->
    head (out s'.2) = Some (mkOut u (mkMsg Ack None RELEASE_TYPE 0 0))).
  { intros s0 s' H0 H. eapply head_prefix; [|exact H]. unfold ack_release, send. cbn. by rewrite H0. }
  unfold part_c. rewrite Ht. destruct (part_of (start f).1 u) as [[]|];
    try (destruct (g_taken (pget (start f).1 u)); unfold send_e, enter_r);
    cbv zeta; match goal with |- context [ack_release u ?s0] => apply (Hk s0); [done|grow] end.
Qed.

Lemma floor_release_acked_witness :
  head (out (server_rx "c" (msg Release None 0 0) true 0 two_wait).2) = Some (mkOut "c" (mkMsg Ack None RELEASE_TYPE 0 0)).
Proof. apply (floor_release_acked two_wait "c" (msg Release None 0 0) true 0); vm_compute; reflexivity. Defined.

(** What a REQUEST is refused for before the state machine sees it. *)
Definition refusal (f : Floor) (u : string) (half : bool) : option Z :=
  if negb (member f u) then Some deny.OTHER_REASON
  else if negb half then Some deny.RECV_ONLY
  else if negb (pub_room (pget f u)) then Some deny.NOT_PUBROOM
  else if negb (perm (pget f u)) then Some deny.NO_PERMISSION
  else None.

Lemma request_gate f u n half t2_left :
  let m := msg Request None n 0 in
  match refusal f u half with
  | Some c => server_rx u m half t2_left f =
      (f, mkStep [mkOut u (mkMsg Deny None c 0 0)] (labels (server_rx u m half t2_left f).2) [])
  | None => server_rx u m half t2_left f = part_c u m t2_left (start f)
  end.
Proof.
  cbv zeta. unfold server_rx, refusal. cbn [mt msg].
  rewrite (bool_decide_false (Request = Ack)), (bool_decide_true (Request = Request)) by done. cbn [andb].
  by destruct (member f u), half, (pub_room (pget f u)), (perm (pget f u)).
Qed.

(** A REQUEST by someone who is not a member, listens only, has not selected this room or
    is not permitted is refused with the cause of the first of these that applies; the
    floor stays as it was, nobody else hears of it and the media slot is not touched. *)
Theorem floor_request_refused f u n half t2_left c :
  refusal f u half = Some c ->
  let s := server_rx u (msg Request None n 0) half t2_left f in
  s.1 = f /\ out s.2 = [mkOut u (mkMsg Deny None c 0 0)] /\ fx s.2 = [].
Proof. intros H. cbv zeta. pose proof (request_gate f u n half t2_left) as G. cbv zeta in G. rewrite H in G. by rewrite G. Qed.

Lemma floor_request_refused_witness :
  out (server_rx "a" (msg Request None 5 0) false 0 joined).2 = [mkOut "a" (mkMsg Deny None deny.RECV_ONLY 0 0)].
Proof. apply (floor_request_refused joined "a" 5 false 0 deny.RECV_ONLY). vm_compute. reflexivity. Defined.

(** ** Reclaiming the floor *)

(** What ending a turn does to the arbiter. *)
Lemma enter_taken_core s : core (enter_taken s).1 = core (set_idle_bcast false s.1).
Proof.
  unfold enter_taken. set (s1 := s |> label _ |> modf _). cbn [effect fst].
  match goal with |- context [fan ?m ?k ?s2] => destruct (fan_broadcast m k s2) as [B1 _ _ _ _ _] end.
  match goal with |- context [part_a ?u ?m s1] => destruct (part_a_delivered u m s1) as [D1 _ _ _ _] end.
  rewrite B1, D1. done.
Qed.

Lemma idle_enter_arbiter s :
  let f := (idle_enter s).1 in
  match queue s.1 with
  | [] => g f = GIdle /\ speaker f = None /\ queue f = []
  | w :: q => g f = GTaken /\ speaker f = Some (wu w) /\ sprio f = wp w /\ queue f = q
  end.
Proof.
  cbv zeta. unfold idle_enter. destruct (queue s.1) as [|w q] eqn:Eq.
  - set (s1 := s |> label _ |> modf _). cbn [effect fst].
    match goal with |- context [fan ?m ?k s1] => destruct (fan_broadcast m k s1) as [B1 _ _ _ _ _] end.
    apply core_eq in B1 as (-> & -> & _ & -> & _). by rewrite <- Eq.
  - match goal with |- context [enter_taken ?s1] => pose proof (core_eq _ _ (enter_taken_core s1)) as H end.
    destruct H as (-> & -> & _ & -> & _ & _ & _ & _ & _ & -> & _). done.
Qed.

Lemma T1_armed f : g f <> GIdle -> T1 ∈ armed_server f.
Proof.
  intros Hg. unfold armed_server. apply elem_of_app. left.
  destruct (g f); [done|..]; cbn; by apply list_elem_of_singleton.
Qed.

Lemma fire_t1 f : g f <> GIdle -> exists s, fire_due T1 None f = Some s /\
  match queue f with
  | [] => g s.1 = GIdle
  | w :: q => g s.1 = GTaken /\ speaker s.1 = Some (wu w) /\ queue s.1 = q
  end.
Proof.
  intros Hg. unfold fire_due. rewrite bool_decide_true by (by apply T1_armed). cbn [fire].
  eexists. split; [done|]. unfold t1.
  set (s1 := if bool_decide _ then _ else _).
  assert (queue s1.1 = queue f) as <- by (unfold s1; by case_match).
  pose proof (idle_enter_arbiter s1) as H. cbv zeta in H. destruct (queue s1.1); tauto.
Qed.

Lemma T1_armed_not_idle f : T1 ∈ armed_server f -> g f <> GIdle.
Proof. intros H. armed_cases H. zbool. by destruct (g f). Qed.

Lemma run_t1_idle f n : g f = GIdle -> run (replicate n (EvTimer T1 None)) f = f.
Proof.
  intros Hg. induction n as [|n IH]; [done|]. cbn [replicate run apply]. unfold fire_due.
  rewrite bool_decide_false by (by intros ?%T1_armed_not_idle). done.
Qed.

(** C37: A silent room always gets its floor back: from any state, expiring T1 once per
    waiter and once more leaves the floor free; no talker, not even one that has left the
    room, can hold it for ever. *)
Theorem floor_reclaimed f n :
  (length (queue f) < n)%nat ->
  g (run (replicate n (EvTimer T1 None)) f) = GIdle.
Proof.
  revert f. induction n as [|n IH]; intros f Hn; [lia|].
  destruct (decide (g f = GIdle)) as [Hg|Hg]; [by rewrite run_t1_idle|].
  cbn [replicate run apply]. destruct (fire_t1 f Hg) as (s & -> & Hs).
  destruct (queue f) as [|w q]; [by rewrite run_t1_idle|].
  apply IH. destruct Hs as (_ & _ & ->). simpl in Hn. lia.
Qed.

Lemma floor_reclaimed_witness : g two_wait = GTaken /\ g (run (replicate 3 (EvTimer T1 None)) two_wait) = GIdle.
Proof. split; [vm_compute; reflexivity|]. apply (floor_reclaimed two_wait 3). vm_compute. lia. Defined.

(** ** Sequence numbers *)

Lemma part_a_numbered u ev s :
  seqd (mt ev) = true -> mq ev <> 0 ->
  seq (part_a u ev s).1 = seq s.1 /\
  exists new, out (part_a u ev s).2 = out s.2 ++ new /\ Forall (fun o => mq (om o) = mq ev) new.
Proof.
  intros Hs Hq. apply Z.eqb_neq in Hq. unfold part_a, send_e, enter_r, send, msg.
  destruct (mt ev); try discriminate Hs; destruct (part_of s.1 u) as [[]|];
    cbn; rewrite ?Hq; cbn; (split; [done|]);
    first [ by exists []; rewrite app_nil_r | eexists; split; [done|]; by repeat constructor ].
Qed.

Lemma fold_part_a_numbered ev l s :
  seqd (mt ev) = true -> mq ev <> 0 ->
  let s' := fold_left (fun s u => part_a u ev s) l s in
  seq s'.1 = seq s.1 /\
  exists new, out s'.2 = out s.2 ++ new /\ Forall (fun o => mq (om o) = mq ev) new.
Proof.
  intros Hs Hq. cbv zeta. revert s. induction l as [|u l IH]; intros s; cbn [fold_left].
  { split; [done|]. by exists []; rewrite app_nil_r. }
  destruct (part_a_numbered u ev s Hs Hq) as (E1 & n1 & E2 & F1).
  destruct (IH (part_a u ev s)) as (E3 & n2 & E4 & F2).
  split; [congruence|]. exists (n1 ++ n2). rewrite E4, E2, app_assoc. split; [done|].
  by apply Forall_app.
Qed.

(** One broadcast, one number: as long as the counter does not wrap to zero, all the
    copies of a TAKEN or IDLE broadcast carry the same sequence number, which is one
    more than the last. *)
Theorem floor_broadcast_one_number ev skip s :
  seqd (mt ev) = true -> 0 <= seq s.1 < SEQ_WRAP - 1 ->
  seq (fan ev skip s).1 = seq s.1 + 1 /\
  exists new, out (fan ev skip s).2 = out s.2 ++ new /\
    Forall (fun o => mq (om o) = seq s.1 + 1) new.
Proof.
  intros Hs Hq. unfold fan. rewrite Hs.
  assert (E : seq (modf bump s).1 = seq s.1 + 1).
  { change (seq (modf bump s).1) with ((seq s.1 + 1) mod SEQ_WRAP). unfold SEQ_WRAP in *. rewrite Z.mod_small; lia. }
  destruct (fold_part_a_numbered (mkMsg (mt ev) (ma ev) (mn ev) (md ev) (seq (modf bump s).1))
    (fan_list s.1 skip) (modf bump s)) as (E1 & new & E2 & F); [done|cbn [mq]; rewrite E; lia|].
  cbn [mq] in F. fold (fan_list s.1 skip). split; [by rewrite E1, E|].
  exists new. split; [exact E2|]. by rewrite E in F.
Qed.

Lemma floor_broadcast_one_number_witness : seq (fan (msg Taken (Some "a") 0 0) None (start joined)).1 = seq joined + 1.
Proof. apply (floor_broadcast_one_number (msg Taken (Some "a") 0 0) None (start joined)); [reflexivity|]. vm_compute. split; [discriminate|reflexivity]. Defined.

(** 65534 numbered messages, then a turn of [a]. *)
Definition near_wrap : Floor :=
  run (three_joined ++ replicate (Z.to_nat 65534) (EvReady "a") ++ [request_of "a" 5]) (new 10 30).

(** At the wrap it is not so: when the talker [a] gives the floor back and the counter
    goes from 65535 to 0, the IDLE broadcast is numbered 1 towards [b] and 2 towards [c],
    and 0 is sent to nobody, because 0 is also how [send] is told to take a fresh number. *)
Theorem floor_broadcast_splits_at_wrap :
  seq near_wrap = 65535 /\
  map (fun o => (to o, mt (om o), mq (om o)))
    (out (server_rx "a" (msg Release None 0 0) true 0 near_wrap).2)
  = [("a", Ack, 0); ("b", Idle, 1); ("c", Idle, 2)].
Proof. vm_compute. split; reflexivity. Qed.


(** ** Granting and preempting *)

(** Who hears a TAKEN: everybody the broadcast reaches in one of these states. *)
Definition hears (p : option P) : bool :=
  match p with Some (NpIdle | NpTaken | Permitted | Prevoke) => true | _ => false end.

Definition told (t : Mt) (a : option string) (x : string) (os : list Out) : Prop :=
  exists o, o ∈ os /\ to o = x /\ mt (om o) = t /\ ma (om o) = a.

Lemma told_prefix t a x l k : told t a x l -> l `prefix_of` k -> told t a x k.
Proof. intros (o & Ho & H) [r ->]. exists o. split; [|done]. apply elem_of_app. by left. Qed.

Lemma part_a_taken_told u ev s :
  mt ev = Taken -> hears (part_of s.1 u) = true -> told Taken (ma ev) u (out (part_a u ev s).2).
Proof.
  intros Ht Hh. unfold part_a, send_e, enter_r. rewrite Ht.
  destruct (part_of s.1 u) as [[]|]; try discriminate Hh;
    match goal with |- context [send ?u ?t ?a ?n ?d ?s1] =>
      destruct (send_spec u t a n d s1) as (_ & _ & _ & q & ->) end;
    (eexists; split; [apply elem_of_app; right; by apply list_elem_of_singleton|done]).
Qed.

Lemma fold_part_a_taken_told ev l s x :
  NoDup l -> mt ev = Taken -> x ∈ l -> hears (part_of s.1 x) = true ->
  told Taken (ma ev) x (out (fold_left (fun s u => part_a u ev s) l s).2).
Proof.
  intros Hn Ht. revert s. induction Hn as [|u l Hu Hn IH]; intros s Hx Hh; [by apply not_elem_of_nil in Hx|].
  cbn [fold_left]. apply elem_of_cons in Hx as [->|Hx].
  - eapply told_prefix; [by apply part_a_taken_told|].
    destruct (fold_part_a_broadcast ev l (part_a u ev s) Hn) as [_ _ _ _ _ (n & -> & _)]. by eexists.
  - apply IH; [done|]. rewrite part_of_pget in *.
    destruct (part_a_delivered u ev s) as [_ _ _ D _]. rewrite D, decide_False; [done|]. by intros ->.
Qed.

Lemma fan_taken_told a skip s x :
  reached s.1 skip x -> hears (part_of s.1 x) = true ->
  told Taken a x (out (fan (msg Taken a 0 0) skip s).2).
Proof.
  intros Hr Hh. unfold fan. cbn [seqd mt msg]. fold (fan_list s.1 skip).
  apply (fold_part_a_taken_told (mkMsg Taken a 0 0 (seq (modf bump s).1)));
    [apply NoDup_fan_list|done|by apply elem_of_fan_list|done].
Qed.

(** What granting does, seen from outside. *)
Lemma enter_taken_told s sp x :
  speaker s.1 = Some sp -> x ∈ members s.1 -> x <> sp -> hears (part_of s.1 x) = true ->
  told Taken (Some sp) x (out (enter_taken s).2).
Proof.
  intros Hs Hx Hn Hh. unfold enter_taken. set (s1 := s |> label _ |> modf _).
  change (speaker s1.1) with (speaker s.1). rewrite Hs. change (default "" (Some sp)) with sp.
  destruct (part_a_delivered sp (msg Granted None (sprio s1.1) (t2_full s1.1)) s1) as [D1 _ _ D4 _].
  cbn [effect snd out]. apply fan_taken_told.
  - split; [|by intros [= ->]]. by destruct (core_eq _ _ D1) as (_ & _ & _ & _ & -> & _).
  - rewrite part_of_pget in *. by rewrite D4, decide_False.
Qed.

Lemma part_a_granted_said u n d s :
  part_of s.1 u = Some NpIdle ->
  mkOut u (mkMsg Granted None n d 0) ∈ out (part_a u (msg Granted None n d) s).2.
Proof.
  intros Hp. unfold part_a, send_e, enter_r, send. cbn [mt msg]. rewrite Hp. cbn.
  apply elem_of_app. right. by apply list_elem_of_singleton.
Qed.

Lemma fx_enter_taken s sp : speaker s.1 = Some sp -> fx (enter_taken s).2 = fx s.2 ++ [FBind sp].
Proof.
  intros Hs. unfold enter_taken. set (s1 := s |> label _ |> modf _).
  change (speaker s1.1) with (speaker s.1). rewrite Hs. change (default "" (Some sp)) with sp.
  match goal with |- context [fan ?m ?k ?s2] => destruct (fan_broadcast m k s2) as [_ B2 _ _ _ _] end.
  match goal with |- context [part_a ?u ?m s1] => destruct (part_a_delivered u m s1) as [_ D2 _ _ _] end.
  cbn [effect snd fx]. by rewrite B2, D2.
Qed.

(** The state in which a free floor is handed to [u]. *)
Definition granting (u : string) (p : Z) (f : Floor) : St :=
  start f |> label "FLR.S.P.NP_IDLE.rx_REQUEST" |> label "FLR.S.G.IDLE.req_grant"
    |> modf (fun f => f |> set_g GTaken |> set_speaker (Some u) |> set_sprio p |> set_succ false
                        |> set_rtp_seen false |> set_first_rtp false |> set_c20 0).

Lemma request_idle_eq f u p t2_left :
  g f = GIdle -> u ∈ members f -> part_of f u = Some NpIdle ->
  pub_room (pget f u) = true -> perm (pget f u) = true -> retry (pget f u) = false ->
  (2 <= size (members f))%nat ->
  server_rx u (msg Request None p 0) true t2_left f = enter_taken (granting u p f).
Proof.
  intros Hg Hm Hp Hpub Hperm Hret Hsz.
  pose proof (request_gate f u p true t2_left) as Hgate. cbv zeta in Hgate.
  unfold refusal, member in Hgate. rewrite bool_decide_true, Hpub, Hperm in Hgate by done. cbn [negb] in Hgate.
  rewrite Hgate. unfold part_c. cbn [mt msg mn]. change (part_of (start f).1 u) with (part_of f u).
  rewrite Hp. unfold arb_req_idle, alone. cbn [label start fst].
  rewrite Hg, bool_decide_true, Hret, bool_decide_false by (done || lia). done.
Qed.

Lemma enter_taken_granted s u p :
  speaker s.1 = Some u -> sprio s.1 = p -> part_of s.1 u = Some NpIdle ->
  part_of (enter_taken s).1 u = Some Permitted /\
  mkOut u (mkMsg Granted None p (t2_secs s.1) 0) ∈ out (enter_taken s).2.
Proof.
  intros Hs <- Hp. unfold enter_taken. set (s1 := s |> label _ |> modf _).
  change (speaker s1.1) with (speaker s.1). rewrite Hs. change (default "" (Some u)) with u.
  set (m := msg Granted _ _ _). set (s2 := part_a u m s1).
  destruct (part_a_delivered u m s1) as [D1 _ _ D4 _]. fold s2 in D1, D4. split; cbn [effect fst snd out].
  - destruct (fan_broadcast (msg Taken (Some u) 0 0) (Some u) s2) as [_ _ _ _ B5 _].
    rewrite part_of_pget in *. rewrite B5 by (by intros [_ ?]). rewrite D4, decide_True by done.
    change (pget s1.1 u) with (pget s.1 u). unfold pa. cbn [mt msg m]. by rewrite Hp.
  - destruct (fan_broadcast (msg Taken (Some u) 0 0) (Some u) s2) as [_ _ _ _ _ (n & -> & _)].
    apply elem_of_app. left. by apply part_a_granted_said.
Qed.

(** An admitted REQUEST on a free floor, from a member that is not alone and not told to
    wait, is granted at once: the requester becomes the talker with the priority it
    asked for, is sent GRANTED, every other listening member is sent TAKEN with its name,
    and the media slot is bound to it. *)
Theorem floor_request_granted f u p t2_left :
  g f = GIdle -> u ∈ members f -> part_of f u = Some NpIdle ->
  pub_room (pget f u) = true -> perm (pget f u) = true -> retry (pget f u) = false ->
  (2 <= size (members f))%nat ->
  let s := server_rx u (msg Request None p 0) true t2_left f in
  g s.1 = GTaken /\ speaker s.1 = Some u /\ sprio s.1 = p /\ part_of s.1 u = Some Permitted /\
  fx s.2 = [FBind u] /\
  mkOut u (mkMsg Granted None p (t2_secs f) 0) ∈ out s.2 /\
  (forall x, x ∈ members f -> x <> u -> hears (part_of f x) = true -> told Taken (Some u) x (out s.2)).
Proof.
  intros Hg Hm Hp Hpub Hperm Hret Hsz. cbv zeta. rewrite request_idle_eq by done.
  set (s1 := granting u p f).
  pose proof (core_eq _ _ (enter_taken_core s1)) as (E1 & E2 & _ & _ & _ & _ & _ & _ & _ & E10 & _).
  destruct (enter_taken_granted s1 u p eq_refl eq_refl Hp) as [H4 H5].
  split; [by rewrite E1|]. split; [by rewrite E2|]. split; [by rewrite E10|]. split; [done|].
  split; [by rewrite (fx_enter_taken s1 u)|]. split; [done|].
  intros x Hx Hn Hh. by apply enter_taken_told.
Qed.

Lemma floor_request_granted_witness : speaker (server_rx "b" (msg Request None 7 0) true 0 joined).1 = Some "b".
Proof.
  apply (floor_request_granted joined "b" 7 0); try (vm_compute; reflexivity). vm_compute. lia.
Defined.

(** What revoking does to the arbiter. *)
Lemma prevoke_enter_core u c s :
  core (prevoke_enter u c s).1 =
  core (s.1 |> set_g GPrevoke |> set_revoking (Some u) |> set_rprio (sprio s.1)
            |> set_rcause_g c |> set_speaker None).
Proof.
  unfold prevoke_enter. match goal with |- context [part_a ?u ?m ?s1] =>
    destruct (part_a_delivered u m s1) as [-> _ _ _ _] end. done.
Qed.

Lemma fire_t3 f : g f = GPrevoke -> exists s, fire_due T3 None f = Some s /\ s = t3 f.
Proof.
  intros Hg. unfold fire_due. rewrite bool_decide_true; [by eexists|].
  unfold armed_server. rewrite Hg. apply elem_of_app. right. apply elem_of_app. right.
  apply list_elem_of_here.
Qed.

(** A waiter in front when T3 runs out gets the floor. *)
Lemma t3_hands_over f w q : g f = GPrevoke -> queue f = w :: q ->
  exists s, fire_due T3 None f = Some s /\ g s.1 = GTaken /\ speaker s.1 = Some (wu w) /\ sprio s.1 = wp w /\ queue s.1 = q.
Proof.
  intros Hg Hq. destruct (fire_t3 f Hg) as (s & H & Hs). exists s. split; [done|]. clear H. subst s. unfold t3.
  match goal with |- context [idle_enter ?x] => pose proof (idle_enter_arbiter x) as H end.
  cbn [start label modf fst set_prev queue] in H. rewrite Hq in H. tauto.
Qed.

(** A more urgent REQUEST, as the code runs it. *)
Lemma request_preempts f u p t2_left :
  g f = GTaken -> u ∈ members f -> part_of f u = Some NpTaken ->
  pub_room (pget f u) = true -> perm (pget f u) = true -> retry (pget f u) = false ->
  in_q f u = false -> pre_q f = false -> sprio f < p ->
  server_rx u (msg Request None p 0) true t2_left f =
  arb_preempt u p (start f |> label "FLR.S.P.NP_TAKEN.rx_REQUEST" |> label "FLR.S.P.NP_TAKEN.req_preempt").
Proof.
  intros Hg Hm Hp Hpub Hperm Hret Hq Hpre Hlt.
  pose proof (request_gate f u p true t2_left) as Hgate. cbv zeta in Hgate.
  unfold refusal, member in Hgate. rewrite bool_decide_true, Hpub, Hperm in Hgate by done. cbn [negb] in Hgate.
  rewrite Hgate. unfold part_c. cbn [mt msg mn]. change (part_of (start f).1 u) with (part_of f u).
  rewrite Hp. unfold taken_req. cbn [label start fst].
  assert (holder_prio f = sprio f) as -> by (unfold holder_prio; by rewrite Hg).
  by rewrite Hret, Hq, Hpre, Z.gtb_ltb, (proj2 (Z.ltb_lt _ _) Hlt).
Qed.

Lemma arb_preempt_core u p sp s : g s.1 = GTaken -> speaker s.1 = Some sp ->
  core (arb_preempt u p s).1 = core (set_queue (mkWaiter u p true :: queue s.1) s.1
     |> set_g GPrevoke |> set_revoking (Some sp) |> set_rprio (sprio s.1)
     |> set_rcause_g revoke.PREEMPTED |> set_speaker None).
Proof.
  intros Hg Hs. unfold arb_preempt. rewrite bool_decide_true by done.
  match goal with |- context [part_a u ?m ?x] => destruct (part_a_delivered u m x) as [-> _ _ _ _] end.
  rewrite prevoke_enter_core. cbn [label modf fst set_queue speaker]. by rewrite Hs.
Qed.

(** A more urgent REQUEST while somebody talks: the talker is revoked, the requester is
    first in the queue, and when the revoked talker does not answer before T3 the
    requester talks with its priority; the waiters that were there keep their places. *)
Theorem floor_preemption f u p sp t2_left :
  g f = GTaken -> speaker f = Some sp -> u ∈ members f -> part_of f u = Some NpTaken ->
  pub_room (pget f u) = true -> perm (pget f u) = true -> retry (pget f u) = false ->
  in_q f u = false -> pre_q f = false -> sprio f < p ->
  let s := server_rx u (msg Request None p 0) true t2_left f in
  g s.1 = GPrevoke /\ revoking s.1 = Some sp /\ queue s.1 = mkWaiter u p true :: queue f /\
  exists s', fire_due T3 None s.1 = Some s' /\
    g s'.1 = GTaken /\ speaker s'.1 = Some u /\ sprio s'.1 = p /\ queue s'.1 = queue f.
Proof.
  intros Hg Hs Hm Hp Hpub Hperm Hret Hq Hpre Hlt. cbv zeta. rewrite request_preempts by done.
  set (s0 := start f |> label _ |> label _). pose proof (core_eq _ _ (arb_preempt_core u p sp s0 Hg Hs)) as (E1 & _ & E3 & E4 & _).
  set (s2 := arb_preempt u p s0) in *. clearbody s2. do 3 (split; [done|]).
  destruct (t3_hands_over s2.1 (mkWaiter u p true) (queue f) E1 E4) as (s' & H). by exists s'.
Qed.

Lemma floor_preemption_witness :
  queue (server_rx "c" (msg Request None 9 0) true 0 a_talks).1 = [mkWaiter "c" 9 true].
Proof.
  apply (floor_preemption a_talks "c" 9 "a" 0); vm_compute; reflexivity.
Defined.

(** ** A turn for someone who left *)

(** [b] waits behind [a] and sends media out of turn, is revoked, and loses its place's
    grant: when [a] releases, [b] becomes the talker while it is still answering the
    revoke, and may ask again and wait behind itself. *)
Definition queued_behind_itself : Floor :=
  run (three_joined ++ [request_of "a" 5; request_of "b" 5; EvRtp "b"; release_of "a";
                        release_of "b"; request_of "b" 5]) (new 10 30).

(** When [b] then leaves the room, the floor is handed to its own place in the queue: the
    room has a talker that is no member, until T1 reclaims the floor. *)
Theorem floor_granted_to_departed :
  speaker queued_behind_itself = Some "b" /\ in_q queued_behind_itself "b" = true /\
  let f := run [EvLeave "b"] queued_behind_itself in
  member f "b" = false /\ g f = GTaken /\ speaker f = Some "b" /\
  g (run [EvTimer T1 None] f) = GIdle.
Proof. vm_compute. done. Qed.
