(* ===== verification/FloorExec.v ===== *)
(** * Floor control: from decisions to the media slots

    crates/oxsfud/src/flr/bind.rs ([Slot], [Effect]) and the executor of
    crates/oxsfud/src/ops/floor.rs: every decision runs under the room's lock, numbers
    the media effects it wants with the grant counter and re-arms the timers; the effects
    are applied to the audio and the video slot outside the lock, so those of two
    decisions can reach a slot in either order. *)

From S2P Require Import Prelude Utf8 Frame FloorWire FloorCore FloorInv.

Module Exec.
Import Flr.

(** ** bind.rs *)

Inductive Effect :=
| Bind (user : string) (no : Z)
| Release (no : Z).

Record Slot := mkSlot { bound : option (string * Z); max_seen : option Z }.
Definition empty_slot : Slot := mkSlot None None.

Definition slot_apply (e : Effect) (s : Slot) : Slot * bool :=
  match e with
  | Bind user no =>
    if match max_seen s with Some m => no <=? m | None => false end then (s, false)
    else (mkSlot (Some (user, no)) (Some no), true)
  | Release no =>
    let seen := Some (match max_seen s with Some m => Z.max m no | None => no end) in
    match bound s with
    | Some (u, b) => if b <=? no then (mkSlot None seen, true) else (mkSlot (Some (u, b)) seen, false)
    | None => (mkSlot None seen, false)
    end
  end.

Definition slot_speaker (s : Slot) : option string := fst <$> bound s.

(** ** The room's clock *)

Definition T1_MS : Z := 4000.
Definition T3_MS : Z := 3000.
Definition T7_MS : Z := 1000.
Definition T8_MS : Z := 1000.
Definition T9_MS : Z := 3000.
Definition T20_MS : Z := 1000.
Definition T21_MS : Z := 1000.

Definition timer_no (t : Timer) : nat :=
  match t with T1 => 0 | T2 => 1 | T20 => 2 | T21 => 3 | T3 => 4 | T7 => 5 | T8 => 6 | T9 => 7 end.
Definition timer_at (n : nat) : option Timer := [T1; T2; T20; T21; T3; T7; T8; T9] !! n.
Lemma timer_at_no t : timer_at (timer_no t) = Some t.
Proof. by destruct t. Qed.
#[export] Instance Timer_countable : Countable Timer := inj_countable timer_no timer_at timer_at_no.

Abbreviation Key := (prod Timer (option string)).

Record Clock := mkClock {
  timers : gmap Key Z; grant_no : Z; granted_at : Z;
  first_rtp_at : option Z; last_rtp_at : option Z }.
Definition new_clock : Clock := mkClock ∅ 0 0 None None.

Section Executor.
(** The configured talk time, in seconds, from the policy. *)
Context (t2_stop_talking_secs : Z).

Definition t2_ms : Z := u64 (t2_stop_talking_secs * 1000).

Definition duration (t : Timer) : Z :=
  match t with
  | T1 => T1_MS | T2 => t2_ms | T3 => T3_MS | T7 => T7_MS | T8 => T8_MS | T9 => T9_MS
  | T20 => T20_MS | T21 => T21_MS
  end.

(** The keys the state wants armed: the room's, then each participant's. *)
Definition want (f : Floor) : gset Key :=
  list_to_set (map (fun t => (t, None)) (armed_server f)
    ++ flat_map (fun u => map (fun t => (t, Some u)) (armed_participant f u)) (elements (dom (parts f)))).

Definition base_of (ck : Clock) (now : Z) (t : Timer) : Z :=
  match t with
  | T1 => Z.max (default (granted_at ck) (last_rtp_at ck)) (granted_at ck)
  | T2 => default now (first_rtp_at ck)
  | _ => now
  end.

Definition rearm (f : Floor) (now : Z) (ck : Clock) : Clock :=
  let kept := filter (fun kv => kv.1 ∈ want f) (timers ck) in
  let fresh := set_to_map (fun k => (k, u64 (base_of ck now k.1 + duration k.1))) (want f) in
  mkClock (kept ∪ fresh) (grant_no ck) (granted_at ck) (first_rtp_at ck) (last_rtp_at ck).

(** Numbering the effects of one decision. *)
Fixpoint number (now : Z) (fxs : list Fx) (ck : Clock) : Clock * list Effect :=
  match fxs with
  | [] => (ck, [])
  | FBind u :: fxs =>
    let n := u64 (grant_no ck + 1) in
    let (ck', es) := number now fxs (mkClock (timers ck) n now None None) in (ck', Bind u n :: es)
  | FRelease _ :: fxs => let (ck', es) := number now fxs ck in (ck', Release (grant_no ck) :: es)
  end.

Record Plan := mkPlan { pstep : Step; effects : list Effect; from_idle : bool }.

Definition t2_left (ck : Clock) (now : Z) : Z :=
  match timers ck !! (T2, None) with
  | Some at_ => u32 (sat_sub at_ now / 1000)
  | None => u32 (t2_ms / 1000)
  end.

(** [run], up to [execute]: what happens under the two locks. *)
Definition run (now : Z) (h : Floor -> Z -> option St) (f : Floor) (ck : Clock)
    : Floor * Clock * option Plan :=
  match h f (t2_left ck now) with
  | None => (f, ck, None)
  | Some (f', st) =>
    let (ck1, es) := number now (fx st) ck in
    (f', rearm f' now ck1, Some (mkPlan st es (bool_decide (g f = GIdle))))
  end.

(** The order of [BTreeMap] keys: the timer's name, then the user. *)
Definition key_le (a b : Key) : bool :=
  if (timer_no a.1 =? timer_no b.1)%nat then
    match a.2, b.2 with
    | None, _ => true
    | Some _, None => false
    | Some u, Some v => String.leb u v
    end
  else (timer_no a.1 <? timer_no b.1)%nat.

(** [fire_due], under the clock's lock: the media's last packet moves T1, then what is
    due is taken out of the map, in key order. *)
Definition push_t1 (now : Z) (last_rtp : option Z) (ck : Clock) : Clock :=
  let lr := match last_rtp with Some t => if granted_at ck <=? t then Some t else None | None => None end in
  let ck := match lr with
    | Some _ => mkClock (timers ck) (grant_no ck) (granted_at ck) (first_rtp_at ck) lr
    | None => ck end in
  match timers ck !! (T1, None) with
  | Some at_ =>
    let d := u64 (base_of ck now T1 + T1_MS) in
    if (at_ <=? now) && (d >? now) then
      mkClock (<[(T1, None) := d]> (timers ck)) (grant_no ck) (granted_at ck) (first_rtp_at ck) (last_rtp_at ck)
    else ck
  | None => ck
  end.

Definition due (now : Z) (ck : Clock) : list Key :=
  merge_sort key_le (map fst (map_to_list (filter (fun kv => kv.2 <= now) (timers ck)))).

Definition take_due (now : Z) (last_rtp : option Z) (ck : Clock) : list Key * Clock :=
  let ck := push_t1 now last_rtp ck in
  let ks := due now ck in
  (ks, mkClock (foldr delete (timers ck) ks) (grant_no ck) (granted_at ck) (first_rtp_at ck) (last_rtp_at ck)).

(** The loop over what is due; the plans are the ones handed to [execute]. *)
Fixpoint fire_keys (now : Z) (ks : list Key) (f : Floor) (ck : Clock) : Floor * Clock * list Plan :=
  match ks with
  | [] => (f, ck, [])
  | (t, user) :: ks =>
    let '(f, ck, p) := run now (fun f _ => Flr.fire_due t user f) f ck in
    let '(f, ck, ps) := fire_keys now ks f ck in
    (f, ck, match p with Some p => p :: ps | None => ps end)
  end.

Definition fire_due (now : Z) (last_rtp : option Z) (f : Floor) (ck : Clock) : Floor * Clock * list Plan :=
  let (ks, ck) := take_due now last_rtp ck in fire_keys now ks f ck.

(** What the server calls [run] with: any event but a timer, whose T2 time left is the
    clock's, a media packet, or the timer task. *)
Inductive Call :=
| CEvent (e : Event)
| CRtp (u : string) (speaker : bool)
| CTimers (last_rtp : option Z).

Definition entry (e : Event) (f : Floor) (left : Z) : option St :=
  match e with EvRx u m half _ => Some (server_rx u m half left f) | EvTimer _ _ => None | _ => apply e f end.

(** [on_rtp]: a packet of the slot's speaker is noted in the clock first; the [first] flag of
    the sources has no effect, since the first time is only ever filled in when absent. *)
Definition note_rtp (now : Z) (speaker : bool) (ck : Clock) : Clock :=
  if speaker then
    mkClock (timers ck) (grant_no ck) (granted_at ck) (Some (default now (first_rtp_at ck))) (Some now)
  else ck.

Definition call (now : Z) (c : Call) (f : Floor) (ck : Clock) : Floor * Clock * list Plan :=
  match c with
  | CEvent e => let '(f, ck, p) := run now (entry e) f ck in (f, ck, match p with Some p => [p] | None => [] end)
  | CRtp u speaker =>
    let '(f, ck, p) := run now (entry (EvRtp u)) f (note_rtp now speaker ck) in
    (f, ck, match p with Some p => [p] | None => [] end)
  | CTimers lr => fire_due now lr f ck
  end.

Fixpoint calls (cs : list (Z * Call)) (f : Floor) (ck : Clock) : Floor * Clock * list Plan :=
  match cs with
  | [] => (f, ck, [])
  | (now, c) :: cs =>
    let '(f, ck, ps) := call now c f ck in
    let '(f, ck, qs) := calls cs f ck in (f, ck, ps ++ qs)
  end.

End Executor.

(** ** Applying effects in any order *)

Definition no (e : Effect) : Z := match e with Bind _ n | Release n => n end.
Definition bind_no (e : Effect) : option Z := match e with Bind _ n => Some n | Release _ => None end.

Definition apply_all (es : list Effect) (s : Slot) : Slot := fold_left (fun s e => (slot_apply e s).1) es s.

(** What a set of effects amounts to: the bind with the highest number, unless it was
    released. *)
Definition wins (es : list Effect) (u : string) (n : Z) : Prop :=
  Bind u n ∈ es /\ ~ (Release n ∈ es) /\ (forall e, e ∈ es -> no e <= n).

Record slot_of (es : list Effect) (s : Slot) : Prop := {
  so_seen : forall e, e ∈ es -> exists m, max_seen s = Some m /\ no e <= m;
  so_max : forall m, max_seen s = Some m -> exists e, e ∈ es /\ no e = m;
  so_bound : forall u n, bound s = Some (u, n) <-> wins es u n }.

(** No two binds have the same number. *)
Definition distinct (es : list Effect) : Prop := NoDup (omap bind_no es).

Lemma distinct_snoc es e : distinct (es ++ [e]) ->
  distinct es /\ forall u v n, e = Bind u n -> Bind v n ∉ es.
Proof.
  unfold distinct. rewrite omap_app. intros (H1 & H2 & _)%NoDup_app. split; [done|].
  intros u v n -> Hv. apply (H2 n).
  - apply list_elem_of_omap. by exists (Bind v n).
  - cbn. by apply list_elem_of_singleton.
Qed.

Lemma wins_snoc_old es e u n : Bind u n ∈ es -> wins (es ++ [e]) u n ->  wins es u n.
Proof.
  intros Hb (_ & H2 & H3). split; [done|]. split; [|intros e' ?; apply H3; apply elem_of_app; by left].
  intros ?. apply H2, elem_of_app. by left.
Qed.

Lemma wins_snoc_keep es e u n : wins es u n -> no e <= n -> e <> Release n -> wins (es ++ [e]) u n.
Proof.
  intros (H1 & H2 & H3) Hn He. unfold wins. setoid_rewrite elem_of_app. setoid_rewrite list_elem_of_singleton.
  split; [by left|]. split; [naive_solver|]. intros e' [?| ->]; [by apply H3|done].
Qed.

Lemma slot_apply_seen e s m : max_seen (slot_apply e s).1 = Some m ->
  no e <= m /\ (max_seen s = Some m \/ m = no e) /\ (forall m', max_seen s = Some m' -> m' <= m).
Proof.
  destruct e as [u n|n]; cbn.
  - destruct (max_seen s) as [m0|] eqn:E; cbn.
    + destruct (n <=? m0) eqn:Hn; cbn; zbool; [rewrite E|]; intros [= <-]; naive_solver lia.
    + intros [= <-]. naive_solver lia.
  - set (x := match max_seen s with Some m0 => Z.max m0 n | None => n end).
    assert (Some x = Some m -> n <= m /\ (max_seen s = Some m \/ m = n) /\
      (forall m', max_seen s = Some m' -> m' <= m)) as H.
    { intros [= <-]. unfold x. destruct (max_seen s) as [m0|]; [|naive_solver lia].
      split; [lia|]. split; [|intros ? [= <-]; lia].
      destruct (Z.max_spec m0 n) as [[? ->]|[? ->]]; [by right|by left]. }
    destruct (bound s) as [[u b]|]; [destruct (b <=? n)|]; exact H.
Qed.

Lemma slot_apply_some e s : exists m, max_seen (slot_apply e s).1 = Some m.
Proof. destruct e; cbn; repeat case_match; cbn; eauto; zbool; naive_solver. Qed.

Lemma slot_of_seen es e s : slot_of es s ->
  (forall e', e' ∈ es ++ [e] -> exists m, max_seen (slot_apply e s).1 = Some m /\ no e' <= m) /\
  (forall m, max_seen (slot_apply e s).1 = Some m -> exists e', e' ∈ es ++ [e] /\ no e' = m).
Proof.
  intros [H1 H2 _]. destruct (slot_apply_some e s) as [m Hm].
  destruct (slot_apply_seen e s m Hm) as (A1 & A2 & A3). rewrite Hm. split.
  - intros e' [He'|He']%elem_of_app; (exists m; split; [done|]).
    + destruct (H1 e' He') as (m' & E' & ?). specialize (A3 m' E'). lia.
    + apply list_elem_of_singleton in He' as ->. done.
  - intros m' [= <-]. destruct A2 as [A2| ->].
    + destruct (H2 m A2) as (e' & ? & ?). exists e'. split; [apply elem_of_app; by left|done].
    + exists e. split; [apply elem_of_app; right; by apply list_elem_of_singleton|done].
Qed.

Lemma slot_of_bind es s u n : distinct (es ++ [Bind u n]) -> slot_of es s ->
  forall v k, bound (slot_apply (Bind u n) s).1 = Some (v, k) <-> wins (es ++ [Bind u n]) v k.
Proof.
  intros Hd [H1 H2 H3] v k. apply distinct_snoc in Hd as [Hd Hnew]. cbn.
  destruct (max_seen s) as [m|] eqn:Em; [destruct (n <=? m) eqn:Hn; zbool|]; cbn [fst bound].
  - destruct (H2 m eq_refl) as (e0 & He0 & Hno). rewrite H3. split; intros Hw.
    + apply wins_snoc_keep; [done| |done]. destruct Hw as (_ & _ & Hw). specialize (Hw _ He0). simpl. lia.
    + destruct Hw as (Hb & Hr & Hle) eqn:E; clear E. apply elem_of_app in Hb as [Hb|Hb].
      { apply (wins_snoc_old es (Bind u n)); [done|]. split; [apply elem_of_app; by left|done]. }
      apply list_elem_of_singleton in Hb as [= -> ->]. exfalso.
      assert (no e0 <= n) as Hx by (apply Hle, elem_of_app; by left).
      assert (no e0 = n) as E0 by lia. clear Hno. destruct e0 as [w x|x]; simpl in *; subst x.
      * by apply (Hnew u w n eq_refl).
      * apply Hr, elem_of_app. by left.
  - split.
    + intros [= <- <-]. split; [apply elem_of_app; right; by apply list_elem_of_singleton|].
      split; [intros [Hr|Hr]%elem_of_app|intros e [He|He]%elem_of_app].
      * destruct (H1 _ Hr) as (? & [= <-] & ?). simpl in *. lia.
      * by apply list_elem_of_singleton in Hr.
      * destruct (H1 _ He) as (? & [= <-] & ?). lia.
      * apply list_elem_of_singleton in He as ->. done.
    + intros (Hb & _ & Hle). apply elem_of_app in Hb as [Hb|Hb]; [|by apply list_elem_of_singleton in Hb as [= -> ->]].
      destruct (H1 _ Hb) as (? & [= <-] & ?). simpl in *.
      assert (n <= k); [|lia]. apply (Hle (Bind u n)), elem_of_app. right. by apply list_elem_of_singleton.
  - assert (es = []) as -> by (destruct es as [|e ?]; [done|]; destruct (H1 e (list_elem_of_here _ _)) as (? & ? & _); done).
    cbn. unfold wins. setoid_rewrite list_elem_of_singleton. split; [intros [= <- <-]; naive_solver|].
    by intros ([= -> ->] & _).
Qed.

Lemma slot_of_release es s n : slot_of es s ->
  forall v k, bound (slot_apply (Release n) s).1 = Some (v, k) <-> wins (es ++ [Release n]) v k.
Proof.
  intros [_ _ H3] v k.
  assert (Hin : Bind v k ∈ es ++ [Release n] -> Bind v k ∈ es).
  { intros [?|H]%elem_of_app; [done|]. by apply list_elem_of_singleton in H. }
  assert (Hle : wins (es ++ [Release n]) v k -> n < k).
  { intros (_ & Hr & Hle). assert (n <= k) by (apply (Hle (Release n)), elem_of_app; right; by apply list_elem_of_singleton).
    assert (n <> k); [|lia]. intros ->. apply Hr, elem_of_app. right. by apply list_elem_of_singleton. }
  assert (Hold : wins (es ++ [Release n]) v k -> bound s = Some (v, k)).
  { intros Hw. apply H3. apply wins_snoc_old in Hw; [done|]. apply Hin, Hw. }
  cbn. destruct (bound s) as [[u b]|] eqn:Eb; [destruct (b <=? n) eqn:Hb; zbool|]; cbn [fst bound].
  - split; [done|]. intros Hw. specialize (Hle Hw). specialize (Hold Hw) as [= -> ->]. lia.
  - split; [|done]. intros [= -> ->]. apply wins_snoc_keep; [by apply H3|simpl; lia|]. intros [= ->]. lia.
  - split; [done|]. intros Hw. by specialize (Hold Hw).
Qed.

Lemma slot_of_all es : distinct es -> slot_of es (apply_all es empty_slot).
Proof.
  induction es as [|e es IH] using rev_ind; intros Hd.
  { split; cbn; [by intros e ?%not_elem_of_nil|done|]. intros u n. split; [done|].
    by intros (?%not_elem_of_nil & _). }
  unfold apply_all in *. rewrite fold_left_app. cbn [fold_left].
  specialize (IH (proj1 (distinct_snoc _ _ Hd))).
  destruct (slot_of_seen es e _ IH) as [A1 A2]. split; [exact A1|exact A2|].
  destruct e; [by apply slot_of_bind|by apply slot_of_release].
Qed.

(** Effects of the same set leave the same slot, in whatever order they arrive. *)
Lemma apply_all_bound es es' : distinct es -> es' ≡ₚ es ->
  bound (apply_all es' empty_slot) = bound (apply_all es empty_slot).
Proof.
  intros Hd Hp.
  assert (Hd' : distinct es').
  { unfold distinct in *. by rewrite Hp. }
  assert (Hw : forall u n, wins es' u n <-> wins es u n).
  { intros u n. unfold wins. by setoid_rewrite Hp. }
  apply option_eq. intros [u n]. rewrite (so_bound _ _ (slot_of_all es' Hd')), Hw.
  symmetry. apply (so_bound _ _ (slot_of_all es Hd)).
Qed.

(** *** The numbers of one room *)

Fixpoint numbers (n : Z) (fxs : list Fx) : Z * list Effect :=
  match fxs with
  | [] => (n, [])
  | FBind u :: fxs => let n := u64 (n + 1) in let (m, es) := numbers n fxs in (m, Bind u n :: es)
  | FRelease _ :: fxs => let (m, es) := numbers n fxs in (m, Release n :: es)
  end.

Lemma number_numbers now fxs ck :
  (grant_no (number now fxs ck).1, (number now fxs ck).2) = numbers (grant_no ck) fxs.
Proof.
  revert ck. induction fxs as [|[u|u] fxs IH]; intros ck; [done|..]; cbn [number numbers].
  - specialize (IH (mkClock (timers ck) (u64 (grant_no ck + 1)) now None None)). cbn [grant_no] in IH.
    rewrite <- IH. by destruct (number _ _ _).
  - rewrite <- IH. by destruct (number _ _ _).
Qed.

Lemma numbers_app n f1 f2 :
  numbers n (f1 ++ f2) =
  ((numbers (numbers n f1).1 f2).1, (numbers n f1).2 ++ (numbers (numbers n f1).1 f2).2).
Proof.
  revert n. induction f1 as [|[u|u] f1 IH]; intros n; cbn [app numbers fst snd].
  - by destruct (numbers n f2).
  - rewrite IH. by destruct (numbers (u64 (n + 1)) f1) as [m es].
  - rewrite IH. by destruct (numbers n f1) as [m es].
Qed.

(** What the numbers of a sequence of effects say: they grow, and the last effect wins. *)
Record numbered (fxs : list Fx) (m : Z) (es : list Effect) : Prop := {
  nm_le : 0 <= m <= len fxs;
  nm_no : forall e, e ∈ es -> no e <= m;
  nm_distinct : distinct es;
  nm_last : forall u n, wins es u n <-> n = m /\ bound_after None fxs = Some u }.

Lemma numbers_numbered fxs : len fxs < 2 ^ 64 -> numbered fxs (numbers 0 fxs).1 (numbers 0 fxs).2.
Proof.
  induction fxs as [|e fxs IH] using rev_ind; intros Hl.
  { split; cbn; [done|by intros e ?%not_elem_of_nil|apply NoDup_nil_2|]. intros u n. split; [|by intros [_ ?]].
    by intros (?%not_elem_of_nil & _). }
  rewrite len_app in Hl. autorewrite with len in Hl. destruct IH as [H1 H2 H3 H4]; [lia|].
  rewrite numbers_app. set (m := (numbers 0 fxs).1) in *. set (es := (numbers 0 fxs).2) in *.
  assert (Hin : forall (x y : Effect), x ∈ es ++ [y] <-> x ∈ es \/ x = y).
  { intros x y. by rewrite elem_of_app, list_elem_of_singleton. }
  destruct e as [u|u]; cbn [numbers fst snd].
  - rewrite u64_id by ulia. split.
    + rewrite len_app. autorewrite with len. lia.
    + intros e [He| ->]%Hin; [specialize (H2 e He); lia|simpl; lia].
    + unfold distinct. rewrite omap_app. cbn. apply NoDup_app. split; [done|]. split; [|apply NoDup_singleton].
      intros x (y & Hy & Ey)%list_elem_of_omap ->%list_elem_of_singleton.
      specialize (H2 y Hy). destruct y; simplify_eq/=. lia.
    + intros v k. rewrite bound_snoc. split.
      * intros ([Hb|[= -> ->]]%Hin & _ & Hle); [|done]. specialize (H2 _ Hb).
        assert (m + 1 <= k) by (apply (Hle (Bind u (m + 1))), Hin; by right). simpl in H2. lia.
      * intros [-> [= <-]]. split; [apply Hin; by right|].
        split; [|intros e [He| ->]%Hin; [specialize (H2 e He); lia|simpl; lia]].
        intros [Hr|?]%Hin; [|done]. specialize (H2 _ Hr). simpl in H2. lia.
  - split.
    + rewrite len_app. autorewrite with len. lia.
    + intros e [He| ->]%Hin; [by apply H2|simpl; lia].
    + unfold distinct. rewrite omap_app. cbn. by rewrite app_nil_r.
    + intros v k. rewrite bound_snoc. split; [|by intros [_ ?]]. intros (Hb & Hr & Hle). exfalso.
      assert (m <= k) by (apply (Hle (Release m)), Hin; by right). apply Hin in Hb as [Hb|Hb]; [|done].
      specialize (H2 _ Hb). simpl in H2. apply Hr, Hin. right. f_equal. lia.
Qed.

(** One room's effects, in whatever order they reach a slot, leave it bound to the user
    the last decision bound, or to nobody if it released. *)
Lemma slot_last_decision fxs es :
  len fxs < 2 ^ 64 -> es ≡ₚ (numbers 0 fxs).2 ->
  slot_speaker (apply_all es empty_slot) = bound_after None fxs.
Proof.
  intros Hl Hp. destruct (numbers_numbered fxs Hl) as [_ _ H3 H4].
  unfold slot_speaker. rewrite (apply_all_bound _ _ H3 Hp). apply option_eq. intros u. rewrite fmap_Some.
  split.
  - intros ([v n] & Eb & ->). apply (so_bound _ _ (slot_of_all _ H3)), H4 in Eb. apply Eb.
  - intros Hu. exists (u, (numbers 0 fxs).1). split; [|done].
    apply (so_bound _ _ (slot_of_all _ H3)), H4. done.
Qed.

(** ** The executor follows the floor *)

Section ExecutorFacts.
Context (t2s : Z).

Definition fxs_of (ps : list Plan) : list Fx := concat (map (fun p => fx (pstep p)) ps).
Definition effects_of (ps : list Plan) : list Effect := concat (map effects ps).

(** What a stretch of the executor's work does: the invariant is kept, the effects are
    numbered on from the clock's counter and end at the new holder. *)
Record follows (f : Floor) (ck : Clock) (r : Floor * Clock * list Plan) : Prop := {
  fo_inv : Inv r.1.1;
  fo_fx : bound_after (holder f) (fxs_of r.2) = holder r.1.1;
  fo_no : numbers (grant_no ck) (fxs_of r.2) = (grant_no r.1.2, effects_of r.2) }.

Lemma bound_after_app b l k : bound_after b (l ++ k) = bound_after (bound_after b l) k.
Proof. unfold bound_after. by rewrite fold_left_app. Qed.

Lemma follows_nil f ck ck' : Inv f -> grant_no ck' = grant_no ck -> follows f ck (f, ck', []).
Proof. intros Hi Hg. split; cbn; [done|done|by rewrite Hg]. Qed.

Lemma follows_app f ck f1 ck1 ps1 f2 ck2 ps2 :
  follows f ck (f1, ck1, ps1) -> follows f1 ck1 (f2, ck2, ps2) -> follows f ck (f2, ck2, ps1 ++ ps2).
Proof.
  intros [A1 A2 A3] [B1 B2 B3]. cbn [fst snd] in *.
  assert (E : fxs_of (ps1 ++ ps2) = fxs_of ps1 ++ fxs_of ps2) by (unfold fxs_of; by rewrite map_app, concat_app).
  split; cbn [fst snd]; [done|by rewrite E, bound_after_app, A2|].
  rewrite E, numbers_app, A3. cbn [fst]. rewrite B3. cbn [fst snd].
  unfold effects_of. by rewrite map_app, concat_app.
Qed.

Lemma follows_clock f ck ck' r : grant_no ck' = grant_no ck -> follows f ck r -> follows f ck' r.
Proof. intros Hg [A1 A2 A3]. split; try done. by rewrite Hg. Qed.

(** The handlers [run] is given are the machine's. *)
Definition handler (h : Floor -> Z -> option St) : Prop :=
  forall f left s, h f left = Some s -> exists e, apply e f = Some s.

Lemma run_follows now h f ck : Inv f -> handler h ->
  let '(f', ck', p) := run t2s now h f ck in
  follows f ck (f', ck', match p with Some p => [p] | None => [] end).
Proof.
  intros Hi Hh. unfold run. destruct (h f (t2_left t2s ck now)) as [[f' st]|] eqn:E; [|by apply follows_nil].
  apply Hh in E as (e & He). destruct (apply_post e f (f', st) Hi He) as [A1 _ A3].
  pose proof (number_numbers now (fx st) ck) as Hn. destruct (number now (fx st) ck) as [ck1 es]. cbn [fst snd] in *.
  split; unfold fxs_of, effects_of; cbn; rewrite ?app_nil_r; [done|done|by rewrite <- Hn].
Qed.

Lemma handler_entry e : handler (entry e).
Proof.
  intros f left s. destruct e as [u m half t2_left|u|u|u|u|u|u|u|u pm|t user] eqn:E; cbn; try done; intros H;
    lazymatch type of E with _ = EvRx _ _ _ _ => by exists (EvRx u m half left) | _ = ?e => by exists e end.
Qed.
Lemma handler_fire t user : handler (fun f _ => Flr.fire_due t user f).
Proof. intros f left s H. by exists (EvTimer t user). Qed.

Lemma fire_keys_follows now ks f ck : Inv f -> follows f ck (fire_keys t2s now ks f ck).
Proof.
  revert f ck. induction ks as [|[t user] ks IH]; intros f ck Hi; cbn [fire_keys]; [by apply follows_nil|].
  pose proof (run_follows now _ f ck Hi (handler_fire t user)) as Hr.
  destruct (run t2s now _ f ck) as [[f1 ck1] p]. specialize (IH f1 ck1 (fo_inv _ _ _ Hr)).
  destruct (fire_keys t2s now ks f1 ck1) as [[f2 ck2] ps]. pose proof (follows_app _ _ _ _ _ _ _ _ Hr IH) as H.
  by destruct p.
Qed.

Lemma push_t1_grant_no now lr ck : grant_no (push_t1 now lr ck) = grant_no ck.
Proof. unfold push_t1. repeat case_match; done. Qed.

Lemma call_follows now c f ck : Inv f -> follows f ck (call t2s now c f ck).
Proof.
  intros Hi. destruct c as [e|u sp|lr]; unfold call.
  - pose proof (run_follows now _ f ck Hi (handler_entry e)) as H. by destruct (run _ _ _ _ _) as [[f1 ck1] [p|]].
  - pose proof (run_follows now _ f (note_rtp now sp ck) Hi (handler_entry (EvRtp u))) as H.
    destruct (run _ _ _ _ _) as [[f1 ck1] p]. apply (follows_clock _ (note_rtp now sp ck)); [by destruct sp|by destruct p].
  - unfold fire_due, take_due. eapply follows_clock; [|by apply fire_keys_follows]. cbn. by rewrite push_t1_grant_no.
Qed.

Lemma calls_follows cs f ck : Inv f -> follows f ck (calls t2s cs f ck).
Proof.
  revert f ck. induction cs as [|[now c] cs IH]; intros f ck Hi; cbn [calls]; [by apply follows_nil|].
  pose proof (call_follows now c f ck Hi) as H1. destruct (call t2s now c f ck) as [[f1 ck1] ps].
  specialize (IH f1 ck1 (fo_inv _ _ _ H1)). destruct (calls t2s cs f1 ck1) as [[f2 ck2] qs].
  by apply (follows_app _ _ _ _ _ _ _ _ H1 IH).
Qed.

(** After any sequence of client messages, packets, membership changes and timer
    expiries, once the effects of all the decisions have reached a slot, in whatever
    order they did, the slot is bound to the floor's holder, and to nobody if nobody
    holds the floor. *)
Lemma slot_converges qm t2 cs es f' ck' ps :
  calls t2s cs (new qm t2) new_clock = (f', ck', ps) ->
  es ≡ₚ effects_of ps -> len es < 2 ^ 64 ->
  slot_speaker (apply_all es empty_slot) = holder f'.
Proof.
  intros E Hp Hl. pose proof (calls_follows cs (new qm t2) new_clock (Inv_new qm t2)) as H.
  rewrite E in H. destruct H as [_ H2 H3]. cbn [fst snd grant_no new_clock] in *.
  assert (Hlen : forall fxs n, len (numbers n fxs).2 = len fxs).
  { clear. induction fxs as [|[u|u] fxs IH]; intros n; cbn [numbers]; [done|..];
      [specialize (IH (u64 (n + 1))); destruct (numbers _ _)|specialize (IH n); destruct (numbers _ _)];
      cbn [snd] in *; rewrite !len_cons, IH; done. }
  rewrite <- H2. apply slot_last_decision; [|by rewrite H3].
  rewrite <- (Hlen (fxs_of ps) 0), H3. cbn [snd]. unfold len in *. by rewrite <- (Permutation_length Hp).
Qed.

End ExecutorFacts.

(** ** Timers *)

Definition armed (f : Floor) (k : Key) : list Timer :=
  match k.2 with Some u => armed_participant f u | None => armed_server f end.

Lemma elem_of_want f k : k ∈ want f <-> k.1 ∈ armed f k.
Proof.
  unfold want, armed. destruct k as [t [u|]]; cbn [fst snd];
    rewrite elem_of_list_to_set, elem_of_app, !list_elem_of_In, in_map_iff, in_flat_map; split.
  - intros [(? & ? & _)|(v & _ & (t' & [= -> ->] & Ht)%in_map_iff)]; [done|]. done.
  - intros Ht. right. exists u. split; [|by apply in_map_iff; exists t].
    apply list_elem_of_In, elem_of_elements, elem_of_dom. unfold armed_participant in Ht.
    by destruct (parts f !! u).
  - intros [(t' & [= ->] & Ht)|(v & _ & (t' & ? & _)%in_map_iff)]; done.
  - intros Ht. left. by exists t.
Qed.

Lemma rearm_lookup t2s f now ck k :
  timers (rearm t2s f now ck) !! k =
  if bool_decide (k ∈ want f) then Some (default (u64 (base_of ck now k.1 + duration t2s k.1)) (timers ck !! k))
  else None.
Proof.
  unfold rearm. cbn [timers]. rewrite lookup_union.
  assert (Hf : set_to_map (M := gmap Key Z) (fun k => (k, u64 (base_of ck now k.1 + duration t2s k.1))) (want f) !! k
    = if bool_decide (k ∈ want f) then Some (u64 (base_of ck now k.1 + duration t2s k.1)) else None).
  { case_bool_decide as Hk.
    - apply lookup_set_to_map; [by intros ? ? _ _|]. exists k. done.
    - apply eq_None_not_Some. intros [x Hx]. apply lookup_set_to_map in Hx; [|by intros ? ? _ _].
      destruct Hx as (y & Hy & Exy). injection Exy as -> _. done. }
  rewrite Hf. destruct (timers ck !! k) as [d|] eqn:E.
  - case_bool_decide as Hk.
    + rewrite (proj2 (map_lookup_filter_Some _ _ _ _)) by done. done.
    + rewrite (proj2 (map_lookup_filter_None _ _ _)); [done|]. right. intros x ? ?. done.
  - rewrite (proj2 (map_lookup_filter_None _ _ _)) by (by left). by case_bool_decide.
Qed.

Lemma number_timers now fxs ck : timers (number now fxs ck).1 = timers ck.
Proof.
  revert ck. induction fxs as [|[u|u] fxs IH]; intros ck; cbn [number]; [done|..].
  - specialize (IH (mkClock (timers ck) (u64 (grant_no ck + 1)) now None None)). by destruct (number _ _ _).
  - specialize (IH ck). by destruct (number _ _ _).
Qed.

(** After every decision the timers that run are exactly those the new state has armed;
    one that was running and is still armed keeps its deadline, the others count from
    now, from the talker's first packet (T2) or from its last one (T1). *)
Theorem floor_timers_exact t2s now h f ck f' ck' p k :
  run t2s now h f ck = (f', ck', Some p) ->
  (is_Some (timers ck' !! k) <-> k.1 ∈ armed f' k) /\
  (forall d, timers ck !! k = Some d -> k.1 ∈ armed f' k -> timers ck' !! k = Some d) /\
  (timers ck !! k = None -> k.1 ∈ armed f' k ->
   timers ck' !! k = Some (u64 (base_of ck' now k.1 + duration t2s k.1))).
Proof.
  unfold run. destruct (h f _) as [[f1 st]|]; [|done]. pose proof (number_timers now (fx st) ck) as Ht.
  destruct (number now (fx st) ck) as [ck1 es]. cbn [fst] in Ht. intros [= <- <- <-].
  setoid_rewrite rearm_lookup. setoid_rewrite <- elem_of_want. rewrite Ht. split; [|split].
  - case_bool_decide; by split.
  - intros d -> ?. by rewrite bool_decide_true.
  - intros -> ?. rewrite bool_decide_true by done. done.
Qed.

(** A grant at second 5, and what runs after it. *)
Definition a_granted : Floor * Clock * option Plan := run 30 5000 (entry (request_of "a" 5)) joined new_clock.

Lemma floor_timers_exact_witness :
  is_Some (timers a_granted.1.2 !! (T1, None)) <-> T1 ∈ armed a_granted.1.1 (T1, None).
Proof.
  refine (proj1 (floor_timers_exact 30 5000 (entry (request_of "a" 5)) joined new_clock a_granted.1.1 a_granted.1.2
    (default (mkPlan empty_step [] false) a_granted.2) (T1, None) _)).
  vm_compute. reflexivity.
Defined.

Lemma elem_of_due now ck k : k ∈ due now ck <-> exists d, timers ck !! k = Some d /\ d <= now.
Proof.
  unfold due. rewrite merge_sort_Permutation, list_elem_of_In, in_map_iff. split.
  - intros ([k' d] & <- & H). apply list_elem_of_In, elem_of_map_to_list, map_lookup_filter_Some in H. eauto.
  - intros (d & H1 & H2). exists (k, d). split; [done|].
    apply list_elem_of_In, elem_of_map_to_list, map_lookup_filter_Some. done.
Qed.

(** The talker is not cut off for silence while it is heard: T1 is due only when four
    seconds have passed since the grant and since the last packet the media plane saw. *)
Theorem floor_t1_waits_for_silence now lr ck t :
  0 <= granted_at ck <= now -> 0 <= default 0 (last_rtp_at ck) <= now -> now + T1_MS < 2 ^ 64 ->
  lr = Some t -> t <= now ->
  (T1, None) ∈ (take_due now lr ck).1 -> granted_at ck + T1_MS <= now /\ t + T1_MS <= now.
Proof.
  intros Hg Hl Hn -> Ht. unfold take_due. cbn [fst]. rewrite elem_of_due. unfold push_t1.
  set (ck1 := match _ with Some _ => _ | None => ck end).
  assert (A : granted_at ck1 = granted_at ck /\ timers ck1 = timers ck /\
    granted_at ck <= base_of ck1 now T1 <= now /\ t <= base_of ck1 now T1).
  { unfold ck1. destruct (granted_at ck <=? t) eqn:E; zbool; cbn; (split; [done|]; split; [done|]);
      destruct (last_rtp_at ck); cbn in *; lia. }
  destruct A as (A1 & A2 & A3 & A4). clearbody ck1. rewrite A2.
  destruct (timers ck !! (T1, None)) as [d|] eqn:Ed; [|intros (x & Hx & _); rewrite ?A2, ?Ed in Hx; done].
  rewrite u64_id by (unfold T1_MS in *; ulia). set (b := base_of ck1 now T1) in *. clearbody b. intros (d' & H1 & H2).
  destruct ((d <=? now) && (b + T1_MS >? now)) eqn:E.
  - cbn [timers] in H1. rewrite lookup_insert_eq in H1. injection H1 as <-. zbool. lia.
  - rewrite ?A2, ?Ed in H1. injection H1 as <-. apply andb_false_iff in E as [E|E]; zbool; lia.
Qed.

(** ** Executing outside the lock *)

(** What one thread of [execute] still has to do: each effect is applied to the audio
    slot, then to the video slot, each under its own lock, and when either took it the
    fan-out's speaker is set. *)
Inductive Act :=
| AAudio (e : Effect)
| AVideo (e : Effect) (a : bool)
| AMedia (e : Effect).

Record World := mkWorld { audio : Slot; video : Slot; fan_speaker : option string }.

Definition act (x : Act) (w : World) : World * list Act :=
  match x with
  | AAudio e => let (s, a) := slot_apply e (audio w) in (mkWorld s (video w) (fan_speaker w), [AVideo e a])
  | AVideo e a =>
    let (s, v) := slot_apply e (video w) in
    (mkWorld (audio w) s (fan_speaker w), if a || v then [AMedia e] else [])
  | AMedia e =>
    (mkWorld (audio w) (video w) (match e with Bind u _ => Some u | Release _ => None end), [])
  end.

Definition execute (es : list Effect) : list Act := map AAudio es.

(** The threads in the order the scheduler names them. *)
Fixpoint interleave (sch : list nat) (ths : list (list Act)) (w : World) : list (list Act) * World :=
  match sch with
  | [] => (ths, w)
  | i :: sch =>
    match ths !! i with
    | Some (x :: th) => let (w', more) := act x w in interleave sch (<[i := more ++ th]> ths) w'
    | _ => interleave sch ths w
    end
  end.

Definition all_done (ths : list (list Act)) : bool := forallb (fun th => (length th =? 0)%nat) ths.

(** What is still to be applied to a slot. *)
Definition left_audio (x : Act) : option Effect := match x with AAudio e => Some e | _ => None end.
Definition left_video (x : Act) : option Effect :=
  match x with AAudio e | AVideo e _ => Some e | AMedia _ => None end.

(** A slot together with the actions that still apply to it. *)
Definition tracked (slot : World -> Slot) (todo : Act -> option Effect) : Prop :=
  forall x w, exists es, slot (act x w).1 = apply_all es (slot w) /\
    es ++ omap todo (act x w).2 ≡ₚ omap todo [x].

Lemma tracked_audio : tracked audio left_audio.
Proof.
  intros [e|e a|e] w; cbn.
  - exists [e]. cbn. destruct (slot_apply e (audio w)). done.
  - exists []. destruct (slot_apply e (video w)) as [s v]. by destruct (a || v).
  - by exists [].
Qed.

Lemma tracked_video : tracked video left_video.
Proof.
  intros [e|e a|e] w; cbn.
  - exists []. cbn. destruct (slot_apply e (audio w)). done.
  - exists [e]. cbn. destruct (slot_apply e (video w)) as [s v]. by destruct (a || v).
  - by exists [].
Qed.

Lemma interleave_tracked slot todo sch ths w : tracked slot todo ->
  let (ths', w') := interleave sch ths w in
  exists es, slot w' = apply_all es (slot w) /\ es ++ omap todo (concat ths') ≡ₚ omap todo (concat ths).
Proof.
  intros Ht. revert ths w. induction sch as [|i sch IH]; intros ths w; cbn [interleave]; [by exists []|].
  destruct (ths !! i) as [[|x th]|] eqn:Ei; [apply IH| |apply IH].
  destruct (Ht x w) as (es1 & E1 & P1). destruct (act x w) as [w1 more]. cbn [fst snd] in *.
  specialize (IH (<[i:=more ++ th]> ths) w1). destruct (interleave sch _ w1) as [ths' w'].
  destruct IH as (es2 & E2 & P2). exists (es1 ++ es2). split.
  - rewrite E2, E1. unfold apply_all. by rewrite fold_left_app.
  - rewrite <- app_assoc, P2. rewrite <- (take_drop_middle ths i (x :: th) Ei) at 2.
    rewrite insert_take_drop by (by eapply lookup_lt_Some).
    rewrite !concat_app. cbn [concat]. rewrite !omap_app.
    change (omap todo (x :: th)) with (omap todo ([x] ++ th)). rewrite omap_app, <- P1. solve_Permutation.
Qed.

Lemma all_done_concat ths : all_done ths = true -> concat ths = [].
Proof.
  induction ths as [|[|x th] ths IH]; cbn; [done|done|]. intros H. discriminate H.
Qed.

Lemma pending_execute ps todo : (forall e, todo (AAudio e) = Some e) ->
  omap todo (concat (map (fun p => execute (effects p)) ps)) = effects_of ps.
Proof.
  intros Ht. unfold effects_of. induction ps as [|p ps IH]; [done|]. cbn [map concat]. rewrite omap_app, IH.
  f_equal. unfold execute. induction (effects p) as [|e es IHe]; [done|]. cbn. by rewrite Ht, IHe.
Qed.

(** C2: After any sequence of client messages, packets, membership changes and timer
    expiries, and for every schedule of the threads that execute the decisions, once they
    have all finished both slots are bound to the floor's holder, and to nobody if nobody
    holds the floor. *)
Theorem floor_slots_converge t2s qm t2 cs f' ck' ps sch ths' w :
  calls t2s cs (new qm t2) new_clock = (f', ck', ps) -> len (effects_of ps) < 2 ^ 64 ->
  interleave sch (map (fun p => execute (effects p)) ps) (mkWorld empty_slot empty_slot None) = (ths', w) ->
  all_done ths' = true ->
  slot_speaker (audio w) = holder f' /\ slot_speaker (video w) = holder f'.
Proof.
  intros Hc Hl Hi Hd%all_done_concat.
  assert (K : forall slot todo, tracked slot todo -> (forall e, todo (AAudio e) = Some e) ->
    slot (mkWorld empty_slot empty_slot None) = empty_slot -> slot_speaker (slot w) = holder f').
  { intros slot todo Ht Ha H0.
    pose proof (interleave_tracked slot todo sch (map (fun p => execute (effects p)) ps)
      (mkWorld empty_slot empty_slot None) Ht) as H. rewrite Hi in H. destruct H as (es & -> & P).
    rewrite H0. rewrite Hd, app_nil_r, (pending_execute _ _ Ha) in P.
    apply (slot_converges t2s qm t2 cs es f' ck' ps Hc P). unfold len in *. by rewrite P. }
  split; [apply (K audio left_audio)|apply (K video left_video)];
    auto using tracked_audio, tracked_video.
Qed.

(** A grant, a release and another grant, executed by three threads out of order. *)
Definition turn_calls : list (Z * Call) :=
  map (fun e => (5000, CEvent e)) (three_joined ++ [request_of "a" 5; release_of "a"; request_of "b" 5]).
Definition turns : Floor * Clock * list Plan := calls 30 turn_calls (new 10 30) new_clock.
Definition turn_order : list nat := flat_map (fun i => replicate 3 i) (rev (List.seq 0 12)).
Definition turns_done : list (list Act) * World :=
  interleave turn_order (map (fun p => execute (effects p)) turns.2) (mkWorld empty_slot empty_slot None).

Lemma floor_slots_converge_witness :
  holder turns.1.1 = Some "b" /\ slot_speaker (audio turns_done.2) = holder turns.1.1 /\
  slot_speaker (video turns_done.2) = holder turns.1.1.
Proof.
  split; [vm_compute; reflexivity|].
  assert (H1 : len (effects_of turns.2) < 2 ^ 64) by (vm_compute; reflexivity).
  assert (H2 : all_done turns_done.1 = true) by (vm_compute; reflexivity).
  revert H1 H2. unfold turns_done, turns. destruct (calls 30 turn_calls (new 10 30) new_clock) as [[f' ck'] ps] eqn:E1.
  cbn [fst snd]. destruct (interleave _ _ _) as [ths' w] eqn:E2. cbn [fst snd]. intros H1 H2.
  exact (floor_slots_converge 30 10 30 turn_calls f' ck' ps turn_order ths' w E1 H1 E2 H2).
Defined.

(** Two decisions, a grant to [a] and the release of it, whose executions overlap: both
    slots end up free, as they must, but the release's media action runs before the
    grant's, so that the fan-out keeps forwarding [a]. *)
Theorem floor_media_race :
  let ths := [execute [Bind "a" 1]; execute [Release 1]] in
  let (ths', w) := interleave [0; 0; 1; 1; 1; 0]%nat ths (mkWorld empty_slot empty_slot None) in
  all_done ths' = true /\ slot_speaker (audio w) = None /\ slot_speaker (video w) = None /\
  fan_speaker w = Some "a".
Proof. vm_compute. done. Qed.

End Exec.
