(* ===== verification/FloorDc.v ===== *)
(** * Floor control on the data channel

    crates/oxsfud/src/ops/floor.rs: [dc_in] (what the server does with a data-channel
    buffer), [from_mbcp] and [to_mbcp] (between wire messages and the machine's), and the
    bytes [send] puts on the channel. *)

From S2P Require Import Prelude Utf8 Frame FloorWire FloorCore.

Module FloorDc.
Import Flr.

Definition to_mbcp (m : Msg) (room : string) (reason : option string) : option Mbcp.Msg :=
  match mt m with
  | Granted => Some (Mbcp.granted (u8 (mn m)) (u16 (md m)) room)
  | Taken => Some (Mbcp.taken (default "" (ma m)) (u16 (mq m)) room)
  | Idle => Some (Mbcp.idle (u16 (mq m)) room (ma m))
  | Deny => Some (Mbcp.deny_msg (u8 (mn m)) room reason)
  | Revoke => Some (Mbcp.revoke_msg (u8 (mn m)) room None)
  | Qinfo => Some (Mbcp.queue_info (u8 (Z.min (mn m) 255)) (u8 (md m)) room)
  | Ack => Some (Mbcp.ack_msg (u8 (mn m)) room)
  | _ => None
  end.

Definition from_mbcp (m : Mbcp.Msg) : option Msg :=
  if Mbcp.msg_type m =? Mbcp.REQUEST then Some (msg Request None (default 0 (Mbcp.priority m)) 0)
  else if Mbcp.msg_type m =? Mbcp.RELEASE then Some (msg Release None 0 0)
  else if Mbcp.msg_type m =? Mbcp.QPOS_REQ then Some (msg QposReq None 0 0)
  else if Mbcp.msg_type m =? Mbcp.ACK then Some (msg Ack None (default 0 (Mbcp.ack_of m)) 0)
  else None.

(** The bytes [send] hands to the data channel. *)
Definition send_bytes (m : Mbcp.Msg) : option (list byte) :=
  let? b := Mbcp.encode m in Dc.encode Dc.SVC_FLOOR b.

Inductive DcIn :=
| Dropped (counter : string)
| Ignored
| Rx (room : string) (m : Msg) (half : bool).

(** The rooms of the server, the rooms the user is in, whether the user has a half-duplex
    track: what [dc_in] asks of the rest of the server. *)
Definition dc_in (rooms joined : gset string) (half : bool) (buf : list byte) : DcIn :=
  let! fr := Dc.decode buf else Dropped "dc_bad_frame" in
  if bool_decide (Dc.svc fr = Dc.SVC_FLOOR) then
    let! m := Mbcp.decode (Dc.payload fr) else Dropped "dc_bad_frame" in
    let! room := (r ← Mbcp.room m; if bool_decide (r ∈ rooms) then Some r else None)
      else Dropped "dc_no_room" in
    if negb (bool_decide (room ∈ joined)) && negb (Mbcp.msg_type m =? Mbcp.REQUEST) then Dropped "dc_no_room"
    else let! cm := from_mbcp m else Ignored in Rx room cm half
  else if bool_decide (Dc.svc fr = Dc.SVC_VOICE_ACTIVITY) then Ignored
  else Dropped "dc_unknown_svc".

(** ** What arrives *)

(** A name that fits a field. *)
Definition name (s : string) : Prop := Utf8.wf s /\ len (sb s) <= Mbcp.MAX_VALUE.

(** The messages a client has, as the wire library builds them, and the machine's. *)
Inductive client_msg (room : string) : Mbcp.Msg -> Msg -> Prop :=
| cm_request p : is_u8 p -> client_msg room (Mbcp.request room (Some p)) (msg Request None p 0)
| cm_request_default : client_msg room (Mbcp.request room None) (msg Request None 0 0)
| cm_release : client_msg room (Mbcp.release room) (msg Release None 0 0)
| cm_qpos : client_msg room (Mbcp.queue_pos_request room) (msg QposReq None 0 0)
| cm_ack t : is_u8 t -> client_msg room (Mbcp.ack_msg t room) (msg Ack None t 0).

(** A concrete list of fields, with the room's name in one of them. *)
Ltac fields :=
  split; [unfold len; cbn; lia|];
  repeat first
    [ apply Forall_nil_2
    | apply Forall_cons_2; [first [assumption | unfold len, Mbcp.MAX_VALUE; cbn; lia]|] ].

(** Reading a field that is there. *)
Lemma room_is w room : Utf8.wf room -> Mbcp.get w Mbcp.tlv.ROOM = Some (Mbcp.utf8 room) -> Mbcp.room w = Some room.
Proof. intros Hu H. unfold Mbcp.room. rewrite H. cbn. f_equal. by apply Utf8.from_utf8_lossy_wf. Qed.
Lemma text_is w id s : Utf8.wf s -> Mbcp.get w id = Some (Mbcp.utf8 s) -> Mbcp.text w id = Some s.
Proof. intros Hu H. unfold Mbcp.text. rewrite H. cbn. f_equal. by apply Utf8.from_utf8_lossy_wf. Qed.
Lemma priority_is w p : is_u8 p -> Mbcp.get w Mbcp.tlv.PRIORITY = Some (Mbcp.u8spare p) -> Mbcp.priority w = Some p.
Proof. intros Hp H. unfold Mbcp.priority. rewrite H. unfold mbind, option_bind, Mbcp.two_byte_head, Mbcp.u8spare. by rewrite bz_zb, u8_id. Qed.
Lemma ack_of_is w p : is_u8 p -> Mbcp.get w Mbcp.tlv.ACKTYPE = Some (Mbcp.u8spare p) -> Mbcp.ack_of w = Some p.
Proof. intros Hp H. unfold Mbcp.ack_of. rewrite H. unfold mbind, option_bind, Mbcp.two_byte_head, Mbcp.u8spare. by rewrite bz_zb, u8_id. Qed.
Lemma cause_is w c : is_u8 c -> Mbcp.get w Mbcp.tlv.CAUSE = Some [zb c] -> Mbcp.cause w = Some c.
Proof. intros Hp H. unfold Mbcp.cause. rewrite H. unfold mbind, option_bind. by rewrite bz_zb, u8_id. Qed.
Lemma seq_is w q : is_u16 q -> Mbcp.get w Mbcp.tlv.SEQ = Some (be 2 q) -> Mbcp.seq w = Some q.
Proof. intros Hq H. unfold Mbcp.seq. rewrite H. cbn [be app mbind option_bind]. f_equal. by apply (from_be_be_u16 q). Qed.

Lemma client_msg_wire room w m : name room -> client_msg room w m ->
  Mbcp.adopted (Mbcp.msg_type w) = true /\ Mbcp.wf_tlvs (Mbcp.tlvs w) /\ Mbcp.ack w = false /\
  Mbcp.room w = Some room /\ from_mbcp w = Some m.
Proof.
  intros [Hu Hl] Hc. assert (Hl' : len (Mbcp.utf8 room) <= Mbcp.MAX_VALUE) by exact Hl.
  destruct Hc as [p Hp| | | |t Ht]; (split; [done|]; split; [fields|]; split; [done|]; split; [by apply room_is|]);
    try reflexivity; unfold from_mbcp; cbn [Mbcp.msg_type Z.eqb].
  - by rewrite (priority_is _ p).
  - by rewrite (ack_of_is _ t).
Qed.

Lemma send_bytes_decode w b :
  Mbcp.adopted (Mbcp.msg_type w) = true -> send_bytes w = Some b ->
  exists p, Dc.decode b = Some (Dc.mkDcFrame Dc.SVC_FLOOR p) /\ Mbcp.decode p = Some w.
Proof.
  unfold send_bytes. intros Ha H. destruct (Mbcp.encode w) as [p|] eqn:E; [|done]. exists p. split.
  - rewrite <- (app_nil_r b). by apply Dc.dc_decode_encode.
  - rewrite <- (app_nil_r p). by apply Mbcp.mbcp_decode_encode.
Qed.

Lemma len_concat_fields fs :
  Forall (fun f : byte * list byte => len f.2 <= 255) fs -> len (concat (map Mbcp.encode_tlv fs)) <= 257 * len fs.
Proof.
  induction 1 as [|f fs Hf _ IH]; [done|]. cbn [map concat]. rewrite len_app, Mbcp.encode_tlv_eq.
  autorewrite with len. lia.
Qed.

(** A message of a few legal fields always fits a frame. *)
Lemma send_bytes_some w :
  (Mbcp.ack w = true -> Mbcp.ack_allowed (Mbcp.msg_type w) = true) -> Mbcp.wf_tlvs (Mbcp.tlvs w) ->
  len (Mbcp.tlvs w) <= 4 -> exists b, send_bytes w = Some b.
Proof.
  intros Ha Hw Hn. unfold send_bytes. rewrite (proj2 (Mbcp.mbcp_encode_Some w _) (conj Ha (conj Hw eq_refl))).
  eexists. apply Dc.dc_encode_Some. split; [|done]. autorewrite with len.
  pose proof (len_concat_fields _ (proj2 Hw)). unfold Dc.MAX_PAYLOAD. lia.
Qed.

(** Every message a client can build for a room, put on the data channel, reaches that
    room's floor as the message it stands for; if the client is not in the room, only its
    REQUEST does, for the floor to refuse, and the rest is dropped and counted. *)
Theorem floor_dc_delivers room w m rooms joined half :
  name room -> client_msg room w m -> room ∈ rooms ->
  exists b, send_bytes w = Some b /\
    dc_in rooms joined half b =
      if bool_decide (room ∈ joined) || bool_decide (mt m = Request) then Rx room m half
      else Dropped "dc_no_room".
Proof.
  intros Hn Hc Hr. destruct (client_msg_wire room w m Hn Hc) as (Ha & Hw & Hk & Hroom & Hfrom).
  destruct (send_bytes_some w) as [b Hb]; [by rewrite Hk|done|by destruct Hc|].
  exists b. split; [done|]. destruct (send_bytes_decode w b Ha Hb) as (p & Hd & Hm).
  unfold dc_in. rewrite Hd. cbn [Dc.svc Dc.payload]. rewrite Hm, Hroom, Hfrom. cbn [mbind option_bind].
  rewrite (bool_decide_true (room ∈ rooms)) by done. destruct (bool_decide (room ∈ joined)); [done|].
  destruct Hc; done.
Qed.

Lemma floor_dc_delivers_witness :
  exists b, send_bytes (Mbcp.request "r1" (Some 5)) = Some b /\ dc_in {["r1"]} ∅ true b = Rx "r1" (msg Request None 5 0) true.
Proof.
  destruct (floor_dc_delivers "r1" (Mbcp.request "r1" (Some 5)) (msg Request None 5 0) {["r1"]} ∅ true) as (b & H1 & H2);
    [split; vm_compute; [reflexivity|discriminate]|apply cm_request; vm_compute; split; [discriminate|reflexivity]
    |vm_compute; reflexivity|].
  exists b. split; [exact H1|]. rewrite H2. reflexivity.
Defined.

(** ** What is sent *)

(** What a client reads off a message is what the floor meant. *)
Definition reads (w : Mbcp.Msg) (m : Msg) : Prop :=
  match mt m with
  | Granted => Mbcp.msg_type w = Mbcp.GRANTED /\ Mbcp.priority w = Some (mn m) /\
               from_be <$> Mbcp.get w Mbcp.tlv.DURATION = Some (md m)
  | Taken => Mbcp.msg_type w = Mbcp.TAKEN /\ Mbcp.text w Mbcp.tlv.SPEAKER = Some (default "" (ma m)) /\
             Mbcp.seq w = Some (mq m)
  | Idle => Mbcp.msg_type w = Mbcp.IDLE /\ Mbcp.text w Mbcp.tlv.PREV = ma m /\ Mbcp.seq w = Some (mq m)
  | Deny => Mbcp.msg_type w = Mbcp.DENY /\ Mbcp.cause w = Some (mn m)
  | Revoke => Mbcp.msg_type w = Mbcp.REVOKE /\ Mbcp.cause w = Some (mn m)
  | Qinfo => Mbcp.msg_type w = Mbcp.QINFO /\ Mbcp.get w Mbcp.tlv.QINFO = Some [zb (mn m); zb (md m)]
  | Ack => Mbcp.msg_type w = Mbcp.ACK /\ Mbcp.ack_of w = Some (mn m)
  | _ => False
  end.

(** The messages the floor sends. *)
Definition outgoing (t : Mt) : bool :=
  match t with Granted | Taken | Idle | Deny | Revoke | Qinfo | Ack => true | _ => false end.

(** A message the encoder takes, readable as [m]. *)
Definition sendable (w : Mbcp.Msg) (m : Msg) (room : string) : Prop :=
  (Mbcp.adopted (Mbcp.msg_type w) = true /\ (Mbcp.ack w = true -> Mbcp.ack_allowed (Mbcp.msg_type w) = true)) /\
  (Mbcp.wf_tlvs (Mbcp.tlvs w) /\ len (Mbcp.tlvs w) <= 4) /\ Mbcp.room w = Some room /\ reads w m.

Lemma to_mbcp_sendable m room reason :
  outgoing (mt m) = true -> is_u8 (mn m) -> is_u16 (md m) -> is_u16 (mq m) -> name room ->
  name (default "" (ma m)) -> name (default "" reason) ->
  exists w, to_mbcp m room reason = Some w /\ sendable w m room.
Proof.
  intros Ho Hn Hd Hq [Hu Hl] [Ha Hal] [_ Hrl].
  assert (Hl' : len (Mbcp.utf8 room) <= Mbcp.MAX_VALUE) by exact Hl.
  unfold to_mbcp, sendable, reads. rewrite (u8_id _ Hn), (u16_id _ Hd), (u16_id _ Hq).
  assert (K : forall (x : option string), len (sb (default "" x)) <= Mbcp.MAX_VALUE ->
    match x with Some s => len (Mbcp.utf8 s) <= Mbcp.MAX_VALUE | None => True end) by (by intros []).
  pose proof (K _ Hal) as Hal'. pose proof (K _ Hrl) as Hrl'. clear K.
  destruct (mt m); try discriminate Ho; (eexists; split; [reflexivity|]; split; [by destruct reason, (ma m); split|]).
  - split; [split; [fields|done]|]. split; [by apply room_is|]. split; [done|].
    split; [by apply priority_is|]. transitivity (Some (from_be (be 2 (md m)))); [done|]. by rewrite from_be_be_u16.
  - split; [split; [fields|done]|]. split; [by apply room_is|]. split; [done|].
    split; [by apply text_is|by apply seq_is].
  - split; [destruct reason; split; (fields || done)|]. split; [by destruct reason; apply room_is|].
    split; [by destruct reason|by destruct reason; apply cause_is].
  - split; [destruct (ma m); split; (fields || done)|]. split; [by destruct (ma m); apply room_is|].
    split; [by destruct (ma m)|]. split; [|by destruct (ma m); apply seq_is].
    destruct (ma m); [by apply text_is|done].
  - split; [split; [fields|done]|]. split; [by apply room_is|]. split; [done|]. by apply cause_is.
  - split; [split; [fields|done]|]. split; [by apply room_is|]. split; [done|].
    rewrite Z.min_l, u8_id by (done || (unfold is_u8 in Hn; lia)).
    transitivity (Some [zb (mn m); zb (u8 (md m))]); [done|]. unfold zb. by rewrite (u8_id (u8 (md m)) (u8_range _)).
  - split; [split; [fields|done]|]. split; [by apply room_is|]. split; [done|]. by apply ack_of_is.
Qed.

(** Every message the floor sends in a room goes out as one frame, and what the client
    that decodes the frame reads, type, room, names, numbers and causes, is what the floor
    put in. *)
Theorem floor_dc_readable m room reason :
  outgoing (mt m) = true -> is_u8 (mn m) -> is_u16 (md m) -> is_u16 (mq m) -> name room ->
  name (default "" (ma m)) -> name (default "" reason) ->
  exists w b p, to_mbcp m room reason = Some w /\ send_bytes w = Some b /\
    Dc.decode b = Some (Dc.mkDcFrame Dc.SVC_FLOOR p) /\ Mbcp.decode p = Some w /\
    Mbcp.room w = Some room /\ reads w m.
Proof.
  intros Ho Hn Hd Hq Hu Ha Hrl.
  destruct (to_mbcp_sendable m room reason) as (w & Hw & [H1 H2] & [H3 H4] & H5); [done..|].
  destruct (send_bytes_some w H2 H3 H4) as [b Hb].
  destruct (send_bytes_decode w b H1 Hb) as (p & ? & ?). by exists w, b, p.
Qed.

End FloorDc.
