(* ===== verification/Keyexpr.v ===== *)
(** * Key expressions of the mesh

    crates/oxmesh/src/keyexpr.rs: slash-separated expressions in which [*] stands for one
    piece and [**] for any number of them; when two of them have a key in common and when
    one covers another.  A string is its byte sequence; the characters the code looks for
    are all ASCII, so that looking at bytes finds what looking at characters does. *)

From Stdlib Require Import Ascii.
From S2P Require Import Prelude.

Module Kx.

(** ** Strings *)

Definition contains (c : Ascii.ascii) (s : string) : bool :=
  existsb (Ascii.eqb c) (String.list_ascii_of_string s).

(** [str::split]: the empty string is one empty piece. *)
Fixpoint split (c : Ascii.ascii) (s : string) : list string :=
  match s with
  | EmptyString => [""]
  | String x r =>
    if Ascii.eqb x c then "" :: split c r
    else match split c r with p :: ps => String x p :: ps | [] => [String x ""] end
  end.

(** [str::find] of a character, as the text before and after it. *)
Fixpoint cut (c : Ascii.ascii) (s : string) : option (string * string) :=
  match s with
  | EmptyString => None
  | String x r =>
    if Ascii.eqb x c then Some ("", r)
    else match cut c r with Some (a, b) => Some (String x a, b) | None => None end
  end.

Definition slash : Ascii.ascii := "/"%char.
Definition star : Ascii.ascii := "*"%char.
Definition FORBIDDEN : list Ascii.ascii := ["$"%char; "?"%char; "#"%char].

(** ** The code *)

Fixpoint valid_pieces (prev_double : bool) (ps : list string) : bool :=
  match ps with
  | [] => true
  | c :: ps =>
    if bool_decide (c = "") || (contains star c && bool_decide (c <> "*") && bool_decide (c <> "**")) then false
    else
      let double := bool_decide (c = "**") in
      if double && prev_double then false else valid_pieces double ps
  end.

Definition valid (e : string) : bool :=
  if bool_decide (e = "") || existsb (fun c => contains c e) FORBIDDEN then false
  else valid_pieces false (split slash e).

Definition concrete (e : string) : bool := negb (contains star e).

Definition next (s : string) : string * string :=
  match cut slash s with Some (a, b) => (a, b) | None => (s, "") end.

(** The loop of [intersects] with its recursive calls, on [fuel]; [intersects] gives it
    more than the characters there are, and every turn drops one. *)
Fixpoint isect_loop (fuel : nat) (a b : string) : bool :=
  match fuel with
  | O => false
  | S fuel =>
    let isect x y := bool_decide (x = y) || isect_loop fuel x y in
    if negb (bool_decide (a = "")) && negb (bool_decide (b = "")) then
      let (c1, r1) := next a in
      let (c2, r2) := next b in
      if bool_decide (c1 = "**") then
        if bool_decide (r1 = "") then true else isect a r2 || isect r1 b
      else if bool_decide (c2 = "**") then
        if bool_decide (r2 = "") then true else isect r1 b || isect a r2
      else if bool_decide (c1 = c2) || bool_decide (c1 = "*") || bool_decide (c2 = "*") then
        isect_loop fuel r1 r2
      else false
    else (bool_decide (a = "") || bool_decide (a = "**")) && (bool_decide (b = "") || bool_decide (b = "**"))
  end.

Definition intersects (a b : string) : bool :=
  bool_decide (a = b) || isect_loop (S (String.length a + String.length b)) a b.

(** The loop of [includes], likewise. *)
Fixpoint incl_loop (fuel : nat) (l r : string) : bool :=
  match fuel with
  | O => false
  | S fuel =>
    let (lc, lr) := next l in
    if bool_decide (lc = "**") then
      if bool_decide (lr = "") || (bool_decide (lr = r) || incl_loop fuel lr r) then true
      else
        let r := (next r).2 in
        if bool_decide (r = "") then false else incl_loop fuel l r
    else
      let (rc, rr) := next r in
      if bool_decide (rc = "") || bool_decide (rc = "**") || negb (bool_decide (lc = rc) || bool_decide (lc = "*"))
      then false
      else if bool_decide (lr = "") then bool_decide (rr = "")
      else incl_loop fuel lr rr
  end.

Definition includes (l r : string) : bool :=
  bool_decide (l = r) || incl_loop (S (String.length l + String.length r)) l r.

(** ** What an expression means *)

(** The keys, as lists of pieces, that a list of pieces stands for. *)
Inductive matches : list string -> list string -> Prop :=
| m_nil : matches [] []
| m_one c x e k : c <> "**" -> c = "*" \/ c = x -> matches e k -> matches (c :: e) (x :: k)
| m_zero e k : matches e k -> matches ("**" :: e) k
| m_more e x k : matches ("**" :: e) k -> matches ("**" :: e) (x :: k).

(** The pieces of an expression; what is left of one at its end has none. *)
Definition pieces (s : string) : list string := if bool_decide (s = "") then [] else split slash s.

Definition allowed (p : string) : bool := forallb (fun c => negb (contains c p)) FORBIDDEN.
Definition literal (p : string) : Prop :=
  p <> "" /\ contains star p = false /\ contains slash p = false /\ allowed p = true.
Definition piece (p : string) : Prop := p = "*" \/ p = "**" \/ literal p.

Fixpoint no_dd (ps : list string) : Prop :=
  match ps with
  | [] => True
  | c :: ps => (c = "**" -> head ps <> Some "**") /\ no_dd ps
  end.

(** A well-formed rest of an expression. *)
Definition wf (s : string) : Prop := Forall piece (pieces s) /\ no_dd (pieces s).

(** ** Splitting *)

Lemma split_cons c s : exists p ps, split c s = p :: ps.
Proof. induction s as [|x s (p & ps & E)]; cbn; [by eexists _, _|]. rewrite E. destruct (Ascii.eqb x c); by eexists _, _. Qed.

Lemma split_cut c s :
  split c s = match cut c s with Some (a, b) => a :: split c b | None => [s] end.
Proof.
  induction s as [|x s IH]; cbn; [done|]. destruct (Ascii.eqb x c); [done|]. rewrite IH.
  by destruct (cut c s) as [[a b]|].
Qed.

Lemma cut_length c s a b : cut c s = Some (a, b) -> (String.length s = String.length a + S (String.length b))%nat.
Proof.
  revert a b. induction s as [|x s IH]; intros a b H; cbn in H; [done|].
  destruct (Ascii.eqb x c); [by simplify_eq|]. destruct (cut c s) as [[a' b']|]; [|done]. simplify_eq.
  cbn. by rewrite (IH _ _ eq_refl).
Qed.

Lemma split_empty c : split c "" = [""].
Proof. done. Qed.

Lemma contains_app c s t : contains c (s +:+ t) = contains c s || contains c t.
Proof.
  unfold contains in *. induction s as [|x s IH]; [done|].
  change (String x s +:+ t) with (String x (s +:+ t)). cbn [String.list_ascii_of_string existsb].
  by rewrite IH, orb_assoc.
Qed.

Lemma cut_app c s a b : cut c s = Some (a, b) -> s = a +:+ String c b.
Proof.
  revert a b. induction s as [|x s IH]; intros a b H; cbn in H; [done|].
  destruct (Ascii.eqb_spec x c) as [->|]; [by simplify_eq|]. destruct (cut c s) as [[a' b']|]; [|done].
  simplify_eq. change (String x a' +:+ String c b) with (String x (a' +:+ String c b)). by rewrite <- (IH _ _ eq_refl).
Qed.

(** No empty piece: then nothing is lost by reading the empty rest as no pieces. *)
Lemma next_pieces s : wf s -> s <> "" ->
  exists c r, next s = (c, r) /\ pieces s = c :: pieces r /\ wf r /\
    (String.length r < String.length s)%nat.
Proof.
  intros [Hp Hd] Hs. unfold next. unfold wf, pieces in *. rewrite (bool_decide_false (s = "")) in * by done.
  rewrite split_cut in *. destruct (cut slash s) as [[a b]|] eqn:E.
  - exists a, b. pose proof (cut_length _ _ _ _ E). apply Forall_cons in Hp as [Ha Hp]. destruct Hd as [_ Hd].
    case_bool_decide as Hb.
    + subst. apply Forall_cons in Hp as [[?|[?|(? & _)]] _]; done.
    + split; [done|]. split; [done|]. split; [done|]. lia.
  - exists s, "". rewrite bool_decide_true by done. split; [done|]. split; [done|]. split; [by split; constructor|].
    destruct s; [done|]. cbn. lia.
Qed.

Lemma pieces_nil s : pieces s = [] <-> s = "".
Proof.
  unfold pieces. case_bool_decide; [done|]. destruct (split_cons slash s) as (p & ps & ->). done.
Qed.

(** ** Matching *)

Lemma matches_one c x e k : c <> "**" -> matches (c :: e) (x :: k) <-> (c = "*" \/ c = x) /\ matches e k.
Proof. intros Hc. split; [|intros [? ?]; by constructor]. intros H. inversion H; subst; done. Qed.

Lemma matches_dd_nil e : matches ("**" :: e) [] <-> matches e [].
Proof. split; [|by constructor]. intros H. by inversion H; subst. Qed.

Lemma matches_dd_app e k k' : matches ("**" :: e) k' -> matches ("**" :: e) (k ++ k').
Proof. intros H. induction k as [|x k IH]; [done|]. by apply m_more. Qed.

Lemma matches_dd_all k : matches ["**"] k.
Proof. rewrite <- (app_nil_r k). apply matches_dd_app, m_zero, m_nil. Qed.

Lemma matches_dd_inv e k : matches ("**" :: e) k -> exists k1 k2, k = k1 ++ k2 /\ matches e k2.
Proof.
  remember ("**" :: e) as p eqn:Ep. intros H. induction H as [|c x e' k Hc _ _ _|e' k H _|e' x k H IH]; simplify_eq.
  - by exists [], k.
  - destruct (IH eq_refl) as (k1 & k2 & -> & ?). by exists (x :: k1), k2.
Qed.

Lemma no_dd_nil_match e : no_dd e -> matches e [] -> e = [] \/ e = ["**"].
Proof.
  destruct e as [|c e]; [by left|]. intros [Hd _] H. right. inversion H; subst.
  destruct e as [|c' e']; [done|]. match goal with H : matches (c' :: e') [] |- _ => inversion H; subst end.
  by destruct (Hd eq_refl).
Qed.

(** A key of an expression: a filler for every wildcard. *)
Definition filled (e : list string) : list string :=
  map (fun c => if bool_decide (c = "*") || bool_decide (c = "**") then "x" else c) e.

Lemma literal_x : literal "x".
Proof. by repeat split. Qed.

Lemma filled_ok e : Forall piece e -> matches e (filled e) /\ Forall literal (filled e).
Proof.
  induction 1 as [|c e Hc _ [IH1 IH2]]; cbn [filled map]; [by repeat constructor|]. fold (filled e).
  destruct (decide (c = "**")) as [->|Hdd].
  { cbn. split; [by apply m_more, m_zero|]. constructor; [apply literal_x|done]. }
  rewrite (bool_decide_false (c = "**")), orb_false_r by done. case_bool_decide as Hs.
  - subst. split; [apply m_one; [done|by left|done]|]. constructor; [apply literal_x|done].
  - split; [apply m_one; [done|by right|done]|]. constructor; [|done]. destruct Hc as [?|[?|?]]; done.
Qed.

(** ** Keys in common *)

Definition common (e1 e2 : list string) : Prop :=
  exists k, Forall literal k /\ matches e1 k /\ matches e2 k.

Lemma common_sym e1 e2 : common e1 e2 -> common e2 e1.
Proof. intros (k & ? & ? & ?). by exists k. Qed.

Lemma common_refl e : Forall piece e -> common e e.
Proof. intros H. destruct (filled_ok e H). by exists (filled e). Qed.

Lemma common_dd_all e : Forall piece e -> common ["**"] e.
Proof. intros H. destruct (filled_ok e H). exists (filled e). split; [done|]. split; [apply matches_dd_all|done]. Qed.

Lemma common_dd e1 c e2 : piece c ->
  common ("**" :: e1) (c :: e2) <-> common ("**" :: e1) e2 \/ common e1 (c :: e2).
Proof.
  intros Hc. split.
  - intros (k & Hk & H1 & H2). induction Hk as [|x k Hx Hk IH].
    { right. exists []. split; [done|]. split; [by apply matches_dd_nil|done]. }
    inversion H1; subst; [done| |].
    { right. exists (x :: k). split; [by constructor|done]. }
    destruct (decide (c = "**")) as [->|Hdd].
    + inversion H2; subst; [done| |].
      * left. exists (x :: k). split; [by constructor|done].
      * by apply IH.
    + apply matches_one in H2 as [_ H2]; [|done]. left. by exists k.
  - intros [(k & Hk & H1 & H2)|(k & Hk & H1 & H2)].
    + destruct (decide (c = "**")) as [->|Hdd]; [exists k; split; [done|]; split; [done|by apply m_zero]|].
      destruct (filled_ok [c]) as [Hm Hl]; [by constructor|]. cbn [filled map] in *.
      apply Forall_cons in Hl as [Hl _]. apply matches_one in Hm as [Hm _]; [|done].
      match type of Hl with literal ?z => set (y := z) in * end. clearbody y.
      exists (y :: k). split; [by constructor|]. split; [by apply m_more|by apply m_one].
    + exists k. split; [done|]. split; [by apply m_zero|done].
Qed.

Lemma common_one c1 e1 c2 e2 : c1 <> "**" -> c2 <> "**" -> piece c1 -> piece c2 ->
  common (c1 :: e1) (c2 :: e2) <-> (c1 = c2 \/ c1 = "*" \/ c2 = "*") /\ common e1 e2.
Proof.
  intros N1 N2 P1 P2. split.
  - intros (k & Hk & H1 & H2). destruct k as [|x k]; [inversion H1; subst; done|].
    apply matches_one in H1 as [? ?]; [|done]. apply matches_one in H2 as [? ?]; [|done].
    apply Forall_cons in Hk as [_ Hk]. split; [naive_solver|]. by exists k.
  - intros [Hc (k & Hk & H1 & H2)].
    assert (exists x, literal x /\ (c1 = "*" \/ c1 = x) /\ (c2 = "*" \/ c2 = x)) as (x & Hx & ? & ?).
    { destruct (decide (c1 = "*")) as [->|]; [destruct (decide (c2 = "*")) as [->|]|].
      - exists "x". split; [apply literal_x|]. by split; left.
      - exists c2. split; [by destruct P2 as [|[|]]|]. split; [by left|by right].
      - exists c1. split; [by destruct P1 as [|[|]]|]. split; [by right|]. naive_solver. }
    exists (x :: k). split; [by constructor|]. split; by apply m_one.
Qed.

Lemma common_nil e : no_dd e -> common [] e <-> e = [] \/ e = ["**"].
Proof.
  intros Hd. split.
  - intros (k & _ & H1 & H2). inversion H1; subst. by apply no_dd_nil_match.
  - intros [->| ->]; exists []; repeat constructor.
Qed.

Lemma wf_head s c r : wf s -> pieces s = c :: pieces r -> piece c.
Proof. intros [H _] E. rewrite E in H. by apply Forall_cons in H as [? _]. Qed.

Lemma pieces_dd s : pieces s = ["**"] <-> s = "**".
Proof.
  split; [|by intros ->]. intros H. assert (s <> "") as Hs by (by intros ->).
  unfold pieces in H. rewrite bool_decide_false in H by done. rewrite split_cut in H.
  destruct (cut slash s) as [[a b]|]; [|by simplify_eq]. destruct (split_cons slash b) as (? & ? & E).
  rewrite E in H. done.
Qed.

Lemma isect_end a b : wf a -> wf b -> a = "" \/ b = "" ->
  (bool_decide (a = "") || bool_decide (a = "**")) && (bool_decide (b = "") || bool_decide (b = "**")) = true
  <-> common (pieces a) (pieces b).
Proof.
  intros [_ Ha] [_ Hb] H. rewrite andb_true_iff, !orb_true_iff, !bool_decide_eq_true.
  destruct H as [-> | ->]; change (pieces "") with (@nil string).
  - rewrite common_nil, pieces_nil, pieces_dd by done. naive_solver.
  - split; [intros [? _]; apply common_sym|intros ?%common_sym; split; [|by left]; revert H];
      rewrite common_nil, pieces_nil, pieces_dd by done; naive_solver.
Qed.

(** With enough fuel the loop says whether there is a key in common. *)
Lemma isect_loop_common n a b : wf a -> wf b -> (String.length a + String.length b < n)%nat ->
  isect_loop n a b = true <-> common (pieces a) (pieces b).
Proof.
  revert a b. induction n as [|n IH]; intros a b Ha Hb Hn; [lia|]. cbn [isect_loop].
  destruct (decide (a = "")) as [->|Na]; [by apply isect_end; auto|].
  destruct (decide (b = "")) as [->|Nb]; [replace (negb (bool_decide (a = "")) && negb (bool_decide ("" = ""))) with false by (by rewrite andb_false_r); by apply isect_end; auto|].
  rewrite !(bool_decide_false (_ = "")) by done. cbn [negb andb].
  destruct (next_pieces a Ha Na) as (c1 & r1 & -> & E1 & Hr1 & L1).
  destruct (next_pieces b Hb Nb) as (c2 & r2 & -> & E2 & Hr2 & L2).
  pose proof (wf_head _ _ _ Ha E1) as P1. pose proof (wf_head _ _ _ Hb E2) as P2.
  assert (K : forall x y, wf x -> wf y -> (String.length x + String.length y < n)%nat ->
    bool_decide (x = y) || isect_loop n x y = true <-> common (pieces x) (pieces y)).
  { intros x y Hx Hy Hl. rewrite orb_true_iff, bool_decide_eq_true, IH by done. split; [|by right].
    intros [->|?]; [|done]. apply common_refl, Hy. }
  destruct (decide (c1 = "**")) as [->|N1].
  { rewrite bool_decide_true by done. case_bool_decide as R1.
    - split; [|done]. intros _. rewrite E1, (proj2 (pieces_nil r1) R1). apply common_dd_all, Hb.
    - rewrite orb_true_iff, !K by (done || lia). rewrite E1, E2. by rewrite common_dd. }
  rewrite bool_decide_false by done. destruct (decide (c2 = "**")) as [->|N2].
  { rewrite bool_decide_true by done. case_bool_decide as R2.
    - split; [|done]. intros _. rewrite E2, (proj2 (pieces_nil r2) R2). apply common_sym, common_dd_all, Ha.
    - rewrite orb_true_iff, !K by (done || lia). rewrite E1, E2. split.
      + intros H. apply common_sym, common_dd; [done|]. destruct H as [?|?]; [left|right]; by apply common_sym.
      + intros H%common_sym. apply common_dd in H; [|done]. destruct H as [?|?]; [left|right]; by apply common_sym. }
  rewrite bool_decide_false, E1, E2, common_one by done.
  destruct (_ || _ || _) eqn:Ec.
  - rewrite IH by (done || lia). rewrite !orb_true_iff, !bool_decide_eq_true in Ec. tauto.
  - zbool. split; [done|]. intros [[?|[?|?]] _]; done.
Qed.

(** ** Validity *)

Lemma contains_split c d s : c <> d ->
  contains d s = existsb (contains d) (split c s).
Proof.
  intros Hcd. unfold contains. induction s as [|x s IH]; [done|]. cbn [String.list_ascii_of_string existsb split].
  destruct (Ascii.eqb_spec x c) as [->|Hx].
  - rewrite IH. cbn. destruct (Ascii.eqb_spec d c); [by subst|done].
  - destruct (split_cons c s) as (p & ps & E). rewrite E in *. rewrite IH. cbn. by rewrite orb_assoc.
Qed.

Lemma split_no_sep c s : Forall (fun p => contains c p = false) (split c s).
Proof.
  induction s as [|x s IH]; cbn; [by repeat constructor|]. destruct (Ascii.eqb_spec x c) as [->|Hx].
  - by constructor.
  - destruct (split_cons c s) as (p & ps & E). rewrite E in *. apply Forall_cons in IH as [Hp Hps].
    constructor; [|done]. cbn. unfold contains in Hp. rewrite Hp. destruct (Ascii.eqb_spec c x); [by subst|done].
Qed.

Lemma existsb_Forall {A} (p : A -> bool) l : existsb p l = false <-> Forall (fun x => p x = false) l.
Proof. induction l as [|x l IH]; cbn; [by split|]. by rewrite orb_false_iff, IH, Forall_cons. Qed.

Lemma allowed_split e : existsb (fun c => contains c e) FORBIDDEN = false <-> Forall (fun p => allowed p = true) (split slash e).
Proof.
  unfold FORBIDDEN, allowed. cbn. rewrite !(contains_split slash) by done. rewrite !orb_false_iff, !existsb_Forall.
  induction (split slash e) as [|p ps IH]; [repeat split; constructor|].
  rewrite !Forall_cons, <- IH. cbn. rewrite !andb_true_iff, !negb_true_iff. tauto.
Qed.

Lemma valid_pieces_wf b ps : Forall (fun p => contains slash p = false) ps -> Forall (fun p => allowed p = true) ps ->
  valid_pieces b ps = true <-> Forall piece ps /\ no_dd ps /\ (b = true -> head ps <> Some "**").
Proof.
  intros Hs Ha. revert b. induction Hs as [|c ps Hc Hs IH]; intros b; cbn [valid_pieces].
  { repeat split; done. }
  apply Forall_cons in Ha as [Hac Ha]. specialize (IH Ha). rewrite Forall_cons. cbn [no_dd head].
  assert (Hp : bool_decide (c = "") || (contains star c && bool_decide (c <> "*") && bool_decide (c <> "**")) = false <-> piece c).
  { unfold piece, literal. rewrite orb_false_iff, !andb_false_iff, !bool_decide_eq_false.
    split; [|intros [->|[->|H]]; naive_solver].
    intros [Hn [[H|H]|H]].
    - right. right. done.
    - left. by apply dec_stable.
    - right. left. by apply dec_stable. }
  destruct (_ || _); [split; [done|]; intros [[? _] _]; naive_solver|].
  destruct (decide (c = "**")) as [->|Nc].
  - rewrite bool_decide_true by done. destruct b; cbn [andb]; [split; [done|]; naive_solver|].
    rewrite IH. naive_solver.
  - rewrite bool_decide_false by done. cbn [andb]. rewrite IH. naive_solver.
Qed.

Lemma valid_wf e : valid e = true <-> e <> "" /\ wf e.
Proof.
  unfold valid, wf, pieces. destruct (decide (e = "")) as [->|He]; [naive_solver|].
  rewrite (bool_decide_false (e = "")) by done. cbn [orb].
  destruct (existsb _ FORBIDDEN) eqn:Ef.
  - split; [done|]. intros [_ [Hp _]]. rewrite (proj2 (allowed_split e)) in Ef; [done|].
    eapply Forall_impl; [exact Hp|]. intros p [->|[->|H]]; [done..|]. apply H.
  - rewrite valid_pieces_wf by (apply split_no_sep || by apply allowed_split). naive_solver.
Qed.

(** A key and its pieces. *)
Lemma pieces_concrete k : wf k -> concrete k = true -> Forall literal (pieces k).
Proof.
  unfold concrete, wf, pieces. intros [Hp _]. case_bool_decide as Hk; [by constructor|].
  rewrite negb_true_iff, (contains_split slash), existsb_Forall by done. intros Hs.
  eapply Forall_impl; [apply Forall_and; exact (conj Hs Hp)|].
  intros p [Hs' [->|[->|?]]]; done.
Qed.

Fixpoint join (ps : list string) : string :=
  match ps with
  | [] => ""
  | [p] => p
  | p :: ps => p +:+ String slash (join ps)
  end.

Lemma split_app a b : split slash (a +:+ String slash b) = split slash a ++ split slash b.
Proof.
  induction a as [|x a IH]; [done|]. change (String x a +:+ String slash b) with (String x (a +:+ String slash b)).
  cbn [split]. rewrite IH. destruct (Ascii.eqb x slash); [done|].
  destruct (split_cons slash a) as (p & ps & ->). done.
Qed.

Lemma split_whole p : contains slash p = false -> split slash p = [p].
Proof.
  unfold contains. induction p as [|x p IH]; [done|]. cbn [String.list_ascii_of_string existsb]. intros [Hx Hp]%orb_false_iff.
  cbn [split]. rewrite IH by done. destruct (Ascii.eqb_spec x slash) as [->|]; [by rewrite Ascii.eqb_refl in Hx|done].
Qed.

Lemma split_join ps : ps <> [] -> Forall (fun p => contains slash p = false) ps -> split slash (join ps) = ps.
Proof.
  intros Hn H. induction H as [|p ps Hp Hps IH]; [done|]. destruct ps as [|q ps]; [by apply split_whole|].
  change (join (p :: q :: ps)) with (p +:+ String slash (join (q :: ps))). rewrite split_app, split_whole, IH by done. done.
Qed.

Lemma literal_piece p : literal p -> piece p.
Proof. unfold piece. auto. Qed.

Lemma piece_no_slash p : piece p -> contains slash p = false.
Proof. intros [->|[->|H]]; [done..|]. apply H. Qed.

Lemma join_expr ps : ps <> [] -> Forall piece ps -> no_dd ps -> pieces (join ps) = ps /\ valid (join ps) = true.
Proof.
  intros Hn Hl Hd. assert (Hs : split slash (join ps) = ps).
  { apply split_join; [done|]. eapply Forall_impl; [exact Hl|]. apply piece_no_slash. }
  assert (join ps <> "") as He.
  { intros E. rewrite E in Hs. subst. by apply Forall_cons in Hl as [[?|[?|[? _]]] _]. }
  assert (Hp : pieces (join ps) = ps). { unfold pieces. by rewrite bool_decide_false. }
  split; [done|]. apply valid_wf. split; [done|]. unfold wf. by rewrite Hp.
Qed.

Lemma literal_no_dd ps : Forall literal ps -> no_dd ps.
Proof. induction 1 as [|p ps Hp _ IH]; [done|]. split; [|done]. intros ->. by destruct Hp as (_ & ? & _). Qed.

Lemma join_key ps : ps <> [] -> Forall literal ps -> pieces (join ps) = ps /\ valid (join ps) = true /\ concrete (join ps) = true.
Proof.
  intros Hn Hl. assert (Hp : Forall piece ps) by (eapply Forall_impl; [exact Hl|apply literal_piece]).
  destruct (join_expr ps Hn Hp (literal_no_dd ps Hl)) as [E Hv]. split; [done|]. split; [done|].
  unfold concrete. apply negb_true_iff. rewrite (contains_split slash) by done.
  rewrite (split_join ps), existsb_Forall; [|done|eapply Forall_impl; [exact Hp|apply piece_no_slash]].
  eapply Forall_impl; [exact Hl|]. intros p H. apply H.
Qed.

(** A key string and the key it names. *)
Definition is_key (k : string) : Prop := valid k = true /\ concrete k = true.
Definition covers (e k : string) : Prop := matches (pieces e) (pieces k).

Lemma intersects_iff a b :
  valid a = true -> valid b = true ->
  intersects a b = true <-> exists k, is_key k /\ covers a k /\ covers b k.
Proof.
  intros [Na Ha]%valid_wf [Nb Hb]%valid_wf. unfold intersects.
  rewrite orb_true_iff, bool_decide_eq_true, isect_loop_common by (done || lia).
  assert (a = b \/ common (pieces a) (pieces b) <-> common (pieces a) (pieces b)) as ->.
  { split; [|by right]. intros [->|?]; [apply common_refl, Hb|done]. }
  split.
  - intros (k & Hk & H1 & H2). destruct k as [|x k].
    + pose proof (no_dd_nil_match _ (proj2 Ha) H1) as Ea. pose proof (no_dd_nil_match _ (proj2 Hb) H2) as Eb.
      rewrite pieces_nil, pieces_dd in Ea, Eb. destruct Ea as [?| ->], Eb as [?| ->]; try done.
      exists "x". split; [by split|]. split; apply matches_dd_all.
    + destruct (join_key (x :: k)) as (E & Hv & Hc); [done..|]. exists (join (x :: k)).
      split; [done|]. unfold covers. by rewrite E.
  - intros (k & [[_ Hw]%valid_wf Hc] & H1 & H2). exists (pieces k). split; [by apply pieces_concrete|done].
Qed.

(** C38: [intersects] is exact: it says yes to two valid expressions when, and only when, some
    key is covered by both; the recursion always ends with an answer. *)
Theorem intersects_exact a b :
  valid a = true -> valid b = true ->
  intersects a b = true <-> exists k, is_key k /\ covers a k /\ covers b k.
Proof. apply intersects_iff. Qed.

Lemma intersects_exact_witness : exists k, is_key k /\ covers "ox/*/room/**" k /\ covers "ox/a/**" k.
Proof. apply (intersects_exact "ox/*/room/**" "ox/a/**"); vm_compute; reflexivity. Defined.

(** *** Covering *)

Lemma incl_loop_sound n l r : wf l -> wf r -> incl_loop n l r = true ->
  forall k, matches (pieces r) k -> matches (pieces l) k.
Proof.
  revert l r. induction n as [|n IH]; intros l r Hl Hr H k Hk; [done|]. cbn [incl_loop] in H.
  destruct (decide (l = "")) as [->|Nl].
  { cbn in H. rewrite bool_decide_false in H by done. destruct (next r) as [rc rr].
    rewrite (bool_decide_false ("" = "*")), orb_false_r in H by done.
    destruct (decide (rc = "")) as [->|Nr]; [done|].
    rewrite (bool_decide_false ("" = rc)), orb_true_r in H by done. done. }
  destruct (next_pieces l Hl Nl) as (lc & lr & Enl & El & Hlr & _). rewrite El. rewrite Enl in H.
  destruct (decide (lc = "**")) as [->|N1].
  - rewrite bool_decide_true in H by done. destruct (_ || _) eqn:E.
    + rewrite !orb_true_iff, !bool_decide_eq_true in E. destruct E as [E|[->|E]].
      * rewrite (proj2 (pieces_nil lr) E). apply matches_dd_all.
      * by apply m_zero.
      * apply m_zero. by apply (IH lr r).
    + case_bool_decide as Er; [done|]. destruct (decide (r = "")) as [->|Nr]; [done|].
      destruct (next_pieces r Hr Nr) as (rc & rr & Enx & Er' & Hrr & _). rewrite Enx in *. cbn [snd] in *.
      rewrite Er' in Hk. specialize (IH l rr Hl Hrr H). rewrite El in IH.
      destruct (decide (rc = "**")) as [->|].
      * apply matches_dd_inv in Hk as (k1 & k2 & -> & Hk). by apply matches_dd_app, IH.
      * inversion Hk; subst; [|done..]. by apply m_more, IH.
  - rewrite (bool_decide_false (lc = "**")) in H by done.
    destruct (decide (r = "")) as [->|Nr]; [done|].
    destruct (next_pieces r Hr Nr) as (rc & rr & Enx & Er' & Hrr & _). rewrite Enx, Er' in *.
    destruct (_ || _) eqn:E in H; [done|]. zbool. rewrite !orb_true_iff, !bool_decide_eq_true in *.
    inversion Hk; subst; [|done..]. apply m_one; [done|naive_solver|].
    case_bool_decide as Elr.
    + zbool. by subst.
    + by apply (IH lr rr).
Qed.

Lemma incl_loop_key n l r : wf l -> wf r -> l <> "" -> Forall literal (pieces r) ->
  (String.length l + String.length r < n)%nat ->
  matches (pieces l) (pieces r) -> incl_loop n l r = true.
Proof.
  revert l r. induction n as [|n IH]; intros l r Hl Hr Nl Hk Hn Hm; [lia|]. cbn [incl_loop].
  destruct (next_pieces l Hl Nl) as (lc & lr & Enl & El & Hlr & Ll). rewrite Enl. rewrite El in Hm.
  destruct (decide (lc = "**")) as [->|N1].
  - rewrite bool_decide_true by done. destruct (_ || _) eqn:E; [done|]. zbool.
    assert (Hz : ~ matches (pieces lr) (pieces r)).
    { intros Hz. rewrite (IH lr r) in *; try done. lia. }
    assert (exists x k, pieces r = x :: k /\ matches ("**" :: pieces lr) k) as (x & k & Er & Hm').
    { inversion Hm; subst; [done..|]. eauto. }
    assert (r <> "") as Nr by (by intros ->). destruct (next_pieces r Hr Nr) as (rc & rr & Enr & Er' & Hrr & Lr).
    rewrite Enr. cbn [snd]. rewrite Er' in Er, Hk. injection Er as -> <-. apply Forall_cons in Hk as [_ Hk].
    case_bool_decide as Err.
    + subst rr. change (pieces "") with (@nil string) in *. rewrite matches_dd_nil in Hm'.
      destruct (no_dd_nil_match _ (proj2 Hlr) Hm') as [E0|E0]; [by apply pieces_nil in E0|].
      destruct Hl as [_ Hd]. rewrite El, E0 in Hd. by destruct Hd as [Hd _], (Hd eq_refl).
    + apply IH; try done; [lia|]. by rewrite El.
  - rewrite bool_decide_false by done.
    assert (r <> "") as Nr. { intros ->. inversion Hm; done. }
    destruct (next_pieces r Hr Nr) as (rc & rr & Enr & Er' & Hrr & Lr). rewrite Enr. rewrite Er' in Hm, Hk.
    apply Forall_cons in Hk as [(K1 & K2 & _) Hk]. apply matches_one in Hm as [Hc Hm]; [|done].
    assert (rc <> "**") by (by intros ->). rewrite !(bool_decide_false (rc = _)) by done. cbn [orb].
    assert (bool_decide (lc = rc) || bool_decide (lc = "*") = true) as ->.
    { rewrite orb_true_iff, !bool_decide_eq_true. naive_solver. }
    cbn [negb]. case_bool_decide as Elr.
    + apply bool_decide_eq_true. subst lr. inversion Hm as [E0| | |]. by apply pieces_nil.
    + apply IH; try done. lia.
Qed.

(** [includes] is sound: when it says that [l] includes [r], every key [r] covers is
    covered by [l]. *)
Theorem includes_sound l r :
  valid l = true -> valid r = true -> includes l r = true ->
  forall k, is_key k -> covers r k -> covers l k.
Proof.
  intros [_ Hl]%valid_wf [_ Hr]%valid_wf H k _ Hk. unfold includes in H. apply orb_true_iff in H as [H|H].
  - by zbool; subst.
  - by apply (incl_loop_sound _ l r Hl Hr H).
Qed.

Lemma includes_sound_witness : covers "ox/**" "ox/a/room/r1".
Proof.
  apply (includes_sound "ox/**" "ox/*/room/*" ltac:(vm_compute; reflexivity) ltac:(vm_compute; reflexivity) ltac:(vm_compute; reflexivity) "ox/a/room/r1").
  - split; vm_compute; reflexivity.
  - unfold covers. change (matches ["ox"; "*"; "room"; "*"] ["ox"; "a"; "room"; "r1"]).
    repeat (apply m_one; [done|by (left + right)|]). apply m_nil.
Defined.

Lemma includes_iff l k :
  valid l = true -> is_key k -> includes l k = true <-> covers l k.
Proof.
  intros [Nl Hl]%valid_wf [[Nk Hk]%valid_wf Hc]. pose proof (pieces_concrete k Hk Hc) as Hlit. split.
  - unfold includes. rewrite orb_true_iff, bool_decide_eq_true.
    assert (Hself : covers k k).
    { unfold covers. clear -Hlit. induction Hlit as [|p ps Hp _ IH]; [apply m_nil|].
      apply m_one; [|by right|done]. intros ->. by destruct Hp as (_ & ? & _). }
    intros [->|H]; [done|]. by apply (incl_loop_sound _ l k Hl Hk H).
  - intros Hm. unfold includes. rewrite (incl_loop_key _ l k) by (done || lia). by rewrite orb_true_r.
Qed.

(** On a key it is exact: the expression includes the key when, and only when, it covers
    it. *)
Theorem includes_key l k :
  valid l = true -> is_key k -> includes l k = true <-> covers l k.
Proof. apply includes_iff. Qed.

(** Both, for expressions and keys given as pieces. *)
Lemma includes_join ps ks : ps <> [] -> Forall piece ps -> no_dd ps -> ks <> [] -> Forall literal ks ->
  includes (join ps) (join ks) = true <-> matches ps ks.
Proof.
  intros Np Hp Hd Nk Hk. destruct (join_expr ps Np Hp Hd) as [Ep Vp], (join_key ks Nk Hk) as (Ek & Vk & Ck).
  rewrite includes_iff by (done || by split). unfold covers. by rewrite Ep, Ek.
Qed.

Lemma matches_literal p e x k : literal p -> matches (p :: e) (x :: k) <-> p = x /\ matches e k.
Proof.
  intros (_ & Hs & _). rewrite matches_one by (by intros ->). split; [|tauto].
  intros [[->|?] ?]; done.
Qed.

(** It is not complete: the two orders of [*] and [**] cover the same keys, at least one
    piece, and neither is found to include the other. *)
Theorem includes_incomplete :
  includes "*/**" "**/*" = false /\ includes "**/*" "*/**" = false /\
  (forall k, is_key k -> covers "*/**" k /\ covers "**/*" k).
Proof.
  split; [done|]. split; [done|]. intros k [[Nk _]%valid_wf _].
  assert (exists x ps, pieces k = x :: ps) as (x & ps & E).
  { destruct (pieces k) as [|x ps] eqn:E; [by apply pieces_nil in E|eauto]. }
  unfold covers. rewrite E. split.
  - apply m_one; [done|by left|]. apply matches_dd_all.
  - destruct (exists_last (l := x :: ps)) as (init & y & ->); [done|].
    apply matches_dd_app, m_zero, m_one; [done|by left|]. apply m_nil.
Qed.

Lemma join_split s : join (split slash s) = s.
Proof.
  induction s as [|x s IH]; [done|]. cbn [split]. destruct (Ascii.eqb_spec x slash) as [->|Hx].
  - destruct (split_cons slash s) as (p & ps & E). rewrite E in *.
    change (join ("" :: p :: ps)) with (String slash (join (p :: ps))). by rewrite IH.
  - destruct (split_cons slash s) as (p & ps & E). rewrite E in *. rewrite <- IH.
    by destruct ps.
Qed.

End Kx.
