(* ===== verification/Keyspace.v ===== *)
(** * The key space of the bus

    crates/common/src/keyspace.rs: the keys the nodes announce themselves, their rooms and
    their sessions under, the expressions that find them, and the parser of what is found. *)

From Stdlib Require Import Ascii.
From S2P Require Import Prelude Keyexpr.

Module Keys.
Import Kx.

Definition FORBIDDEN : list ascii := ["*"%char; "$"%char; "?"%char; "#"%char; "/"%char].

Definition valid_piece (s : string) : bool :=
  negb (bool_decide (s = "")) && negb (existsb (fun c => contains c s) FORBIDDEN).

(** [Keys] holds the deployment's name [ns]. *)
Section Ns.
Context (ns : string).

Definition base : string := "ox/" +:+ ns +:+ "/int".

Definition node_token (node inst : string) : string := base +:+ "/node/" +:+ node +:+ "/" +:+ inst.
Definition node_all : string := base +:+ "/node/**".
Definition room_token (room node inst : string) : string :=
  base +:+ "/room/" +:+ room +:+ "/" +:+ node +:+ "/" +:+ inst.
Definition room_where (room : string) : string := base +:+ "/room/" +:+ room +:+ "/**".
Definition room_all : string := base +:+ "/room/**".
Definition rooms_of_node (node : string) : string := base +:+ "/room/*/" +:+ node +:+ "/**".
Definition sess_token (user node sid : string) : string :=
  base +:+ "/sess/" +:+ user +:+ "/" +:+ node +:+ "/" +:+ sid.
Definition sess_all : string := base +:+ "/sess/**".
Definition ev_room (room : string) : string := base +:+ "/ev/room/" +:+ room.
Definition ev_room_all : string := base +:+ "/ev/room/*".
Definition ev_user (user : string) : string := base +:+ "/ev/user/" +:+ user.
Definition ev_user_all : string := base +:+ "/ev/user/*".
Definition ev_node (node : string) : string := base +:+ "/ev/node/" +:+ node.
Definition q_node (node rest : string) : string := base +:+ "/q/node/" +:+ node +:+ "/" +:+ rest.
Definition q_node_serve (node : string) : string := base +:+ "/q/node/" +:+ node +:+ "/**".
Definition q_all_nodes (rest : string) : string := base +:+ "/q/node/*/" +:+ rest.

Inductive Parsed :=
| Node (node inst : string)
| Room (room node inst : string)
| Sess (user node sid : string)
| EvRoom (room : string)
| EvUser (user : string)
| EvNode (node : string)
| Query (node path : string).

Fixpoint strip_prefix (p s : string) : option string :=
  match p, s with
  | EmptyString, _ => Some s
  | String x p, String y s => if Ascii.eqb x y then strip_prefix p s else None
  | String _ _, EmptyString => None
  end.

Definition parse_parts (parts : list string) : option Parsed :=
  match parts with
  | [a; b; c] =>
    if bool_decide (a = "node") then Some (Node b c)
    else if bool_decide (a = "ev") && bool_decide (b = "room") then Some (EvRoom c)
    else if bool_decide (a = "ev") && bool_decide (b = "user") then Some (EvUser c)
    else if bool_decide (a = "ev") && bool_decide (b = "node") then Some (EvNode c)
    else if bool_decide (a = "q") && bool_decide (b = "node") then Some (Query c "")
    else None
  | [a; b; c; d] =>
    if bool_decide (a = "room") then Some (Room b c d)
    else if bool_decide (a = "sess") then Some (Sess b c d)
    else if bool_decide (a = "q") && bool_decide (b = "node") then Some (Query c d)
    else None
  | a :: b :: c :: rest =>
    if bool_decide (a = "q") && bool_decide (b = "node") then Some (Query c (join rest)) else None
  | _ => None
  end.

Definition parse (key : string) : option Parsed :=
  let? rest := strip_prefix (base +:+ "/") key in parse_parts (split slash rest).

(** The key the sources build for each of these. *)
Definition key_of (p : Parsed) : string :=
  match p with
  | Node n i => node_token n i
  | Room r n i => room_token r n i
  | Sess u n s => sess_token u n s
  | EvRoom r => ev_room r
  | EvUser u => ev_user u
  | EvNode n => ev_node n
  | Query n path => q_node n path
  end.

Definition wf_parsed (p : Parsed) : Prop :=
  match p with
  | Node a b => valid_piece a = true /\ valid_piece b = true
  | Room a b c | Sess a b c => valid_piece a = true /\ valid_piece b = true /\ valid_piece c = true
  | EvRoom a | EvUser a | EvNode a | Query a _ => valid_piece a = true
  end.

(** ** Pieces *)

Lemma valid_piece_literal s : valid_piece s = true <-> literal s.
Proof.
  unfold valid_piece, literal, allowed, FORBIDDEN, Kx.FORBIDDEN, star, slash. cbn.
  rewrite !andb_true_iff, !negb_true_iff, !orb_false_iff, bool_decide_eq_false. tauto.
Qed.

Lemma app_nil_str (s : string) : "" +:+ s = s.
Proof. done. Qed.
Lemma app_cons_str x (s t : string) : String x s +:+ t = String x (s +:+ t).
Proof. done. Qed.
Lemma app_assoc_str (a b c : string) : (a +:+ b) +:+ c = a +:+ (b +:+ c).
Proof. induction a as [|x a IH]; [done|]. rewrite !app_cons_str. by rewrite IH. Qed.

Lemma strip_prefix_app p s : strip_prefix p (p +:+ s) = Some s.
Proof. induction p as [|x p IH]; [done|]. rewrite app_cons_str. cbn. by rewrite Ascii.eqb_refl. Qed.

Lemma valid_piece_no_slash s : valid_piece s = true -> contains slash s = false.
Proof. by intros H%valid_piece_literal; apply H. Qed.

(** What [parse] sees of a key under the base. *)
Lemma parse_under parts :
  parts <> [] -> Forall (fun p => contains slash p = false) parts ->
  parse (base +:+ String slash (join parts)) = parse_parts parts.
Proof.
  intros Hn Hs. unfold parse. change (String slash (join parts)) with ("/" +:+ join parts).
  by rewrite <- app_assoc_str, strip_prefix_app, split_join.
Qed.

Lemma parse_query n path :
  valid_piece n = true -> parse (q_node n path) = Some (Query n path).
Proof.
  intros Hn. unfold parse.
  change (q_node n path) with (base +:+ ("/" +:+ ("q/node/" +:+ n +:+ String slash path))).
  rewrite <- app_assoc_str, strip_prefix_app.
  change ("q/node/" +:+ n +:+ String slash path) with ("q" +:+ String slash ("node" +:+ String slash (n +:+ String slash path))).
  rewrite !split_app, (split_whole n) by (by apply valid_piece_no_slash). cbn [split Ascii.eqb app].
  pose proof (join_split path) as Hj. destruct (split_cons slash path) as (q & qs & E). rewrite E in *.
  destruct qs as [|q' qs]; cbn [app parse_parts]; by rewrite <- Hj.
Qed.

Ltac under parts :=
  transitivity (parse_parts parts);
  [apply (parse_under parts); [done|repeat constructor; apply valid_piece_no_slash; tauto]|].

(** Every key built from legal names is read back as what it was built from: no two of
    them are confused. *)
Theorem keyspace_roundtrip p : wf_parsed p -> parse (key_of p) = Some p.
Proof.
  destruct p as [a b|a b c|a b c|a|a|a|a path]; cbn [key_of wf_parsed]; intros Hp; [..|by apply parse_query].
  - by under ["node"; a; b].
  - by under ["room"; a; b; c].
  - by under ["sess"; a; b; c].
  - by under ["ev"; "room"; a].
  - by under ["ev"; "user"; a].
  - by under ["ev"; "node"; a].
Qed.

End Ns.

Lemma keyspace_roundtrip_witness : parse "prod" (key_of "prod" (Room "r1" "n1" "i1")) = Some (Room "r1" "n1" "i1").
Proof. apply (keyspace_roundtrip "prod" (Room "r1" "n1" "i1")). vm_compute. auto. Defined.

(** ** Looking up *)

Lemma base_join ns parts : parts <> [] ->
  base ns +:+ String slash (join parts) = join ("ox" :: ns :: "int" :: parts).
Proof.
  intros Hn. unfold base. destruct parts as [|p ps]; [done|].
  change (join ("ox" :: ns :: "int" :: p :: ps)) with ("ox/" +:+ (ns +:+ ("/int" +:+ String slash (join (p :: ps))))).
  by rewrite !app_assoc_str.
Qed.

Definition under_base (ns : string) (parts : list string) : list string := "ox" :: ns :: "int" :: parts.

Lemma literal_word w : valid_piece w = true -> literal w.
Proof. by apply valid_piece_literal. Qed.

(** Looking up a key under the base is looking up what follows it, in one deployment. *)
Lemma includes_under ns ns' ps ks :
  valid_piece ns = true -> valid_piece ns' = true ->
  ps <> [] -> Forall piece ps -> no_dd ps -> ks <> [] -> Forall literal ks ->
  includes (base ns +:+ String slash (join ps)) (base ns' +:+ String slash (join ks)) = true
  <-> ns = ns' /\ matches ps ks.
Proof.
  intros Hns%literal_word Hns'%literal_word Np Hp Hd Nk Hk. rewrite !base_join by done.
  assert (literal "ox") by (by apply literal_word). assert (literal "int") by (by apply literal_word).
  assert (Hd3 : no_dd ("ox" :: ns :: "int" :: ps)).
  { split; [by intros ?|]. split; [intros ->; by destruct Hns as (_ & ? & _)|]. split; [by intros ?|done]. }
  rewrite includes_join; [|done|by repeat (constructor; [by apply literal_piece|])|exact Hd3|done|by repeat (constructor; [done|])].
  rewrite !matches_literal by done. tauto.
Qed.

Ltac lookup_side :=
  try done;
  repeat (constructor; try (by apply literal_word); try (apply literal_piece; by apply literal_word);
          try (by left); try (by right; left); try (by intros ->); try (by intros ?)).
Ltac lookup ps ks := etransitivity; [apply (includes_under _ _ ps ks); lookup_side|].

(** The expression for a room finds the tokens of that room and of no other, the one for
    a node the rooms of that node only, each in its own deployment; the expressions for
    all nodes and all rooms find every token of their kind and none of the other. *)
Theorem keyspace_lookup ns ns' r r' n n' i :
  valid_piece ns = true -> valid_piece ns' = true -> valid_piece r = true -> valid_piece r' = true ->
  valid_piece n = true -> valid_piece n' = true -> valid_piece i = true ->
  (includes (room_where ns r) (room_token ns' r' n i) = true <-> ns = ns' /\ r = r') /\
  (includes (rooms_of_node ns n) (room_token ns' r n' i) = true <-> ns = ns' /\ n = n') /\
  (includes (room_all ns) (room_token ns' r n i) = true <-> ns = ns') /\
  (includes (node_all ns) (node_token ns' n i) = true <-> ns = ns') /\
  includes (node_all ns) (room_token ns' r n i) = false /\
  includes (room_all ns) (node_token ns' n i) = false.
Proof.
  intros Hns Hns' Hr Hr' Hn Hn' Hi.
  assert (Hlit : forall x, valid_piece x = true -> forall e y k, matches (x :: e) (y :: k) <-> x = y /\ matches e k).
  { intros x Hx e y k. apply matches_literal. by apply literal_word. }
  assert (Hdd : forall k, matches ["**"] k <-> True) by (split; [done|]; intros _; apply matches_dd_all).
  rewrite <- !not_true_iff_false.
  split; [|split; [|split; [|split; [|split]]]].
  - lookup ["room"; r; "**"] ["room"; r'; n; i]. rewrite !Hlit, Hdd by done. tauto.
  - lookup ["room"; "*"; n; "**"] ["room"; r; n'; i]. rewrite Hlit, matches_one, Hlit, Hdd by done. tauto.
  - lookup ["room"; "**"] ["room"; r; n; i]. rewrite Hlit, Hdd by done. tauto.
  - lookup ["node"; "**"] ["node"; n; i]. rewrite Hlit, Hdd by done. tauto.
  - intros H. eapply (includes_under ns ns' ["node"; "**"] ["room"; r; n; i]) in H; [|lookup_side ..].
    rewrite Hlit in H by done. naive_solver.
  - intros H. eapply (includes_under ns ns' ["room"; "**"] ["node"; n; i]) in H; [|lookup_side ..].
    rewrite Hlit in H by done. naive_solver.
Qed.

Lemma keyspace_lookup_witness :
  includes (room_where "prod" "r1") (room_token "prod" "r1" "n1" "i1") = true <-> "prod" = "prod" /\ "r1" = "r1".
Proof. apply (keyspace_lookup "prod" "prod" "r1" "r1" "n1" "n1" "i1"); vm_compute; reflexivity. Defined.

End Keys.
