(* ===== verification/MeshWire.v ===== *)
(** * Messages of the mesh on the wire

    crates/oxmesh/src/wire.rs: the fourteen messages and their hand-written encoding
    (variable-length integers, length-prefixed bytes), the cut into frames of at most
    16 KiB and the per-lane reassembly.  The cursor of the decoder is the rest of the
    buffer. *)

From S2P Require Import Prelude Utf8.

Module Wire.

Definition PROTO : Z := 1.
Definition FRAME_MAX : Z := 16 * 1024.
Definition FRAME_HEAD : Z := 6.
Definition MSG_MAX : Z := 64 * 1024 * 1024.
Definition MORE : Z := 1.

Inductive Lane := Control | Declares | Request | Data.
#[export] Instance Lane_eq_dec : EqDecision Lane. Proof. solve_decision. Defined.
Definition lane_no (l : Lane) : Z := match l with Control => 0 | Declares => 1 | Request => 2 | Data => 3 end.
Definition lane_from_u8 (v : Z) : option Lane :=
  match v with 0 => Some Control | 1 => Some Declares | 2 => Some Request | 3 => Some Data | _ => None end.

Inductive Role := Router | Client.
#[export] Instance Role_eq_dec : EqDecision Role. Proof. solve_decision. Defined.
Definition role_no (r : Role) : Z := match r with Router => 0 | Client => 1 end.

Inductive DeclKind := KToken | KSub | KQabl.
#[export] Instance DeclKind_eq_dec : EqDecision DeclKind. Proof. solve_decision. Defined.
Definition kind_no (k : DeclKind) : Z := match k with KToken => 0 | KSub => 1 | KQabl => 2 end.

Inductive TokenEvtKind := EPut | EDelete | EBatchEnd.
#[export] Instance TokenEvtKind_eq_dec : EqDecision TokenEvtKind. Proof. solve_decision. Defined.
Definition evt_no (k : TokenEvtKind) : Z := match k with EPut => 0 | EDelete => 1 | EBatchEnd => 2 end.

Inductive CloseReason := Shutdown | Expired | Fenced | Replaced | Refused | Duplicate | Protocol | Io.
#[export] Instance CloseReason_eq_dec : EqDecision CloseReason. Proof. solve_decision. Defined.
Definition reason_no (r : CloseReason) : Z :=
  match r with
  | Shutdown => 0 | Expired => 1 | Fenced => 2 | Replaced => 3 | Refused => 4 | Duplicate => 5
  | Protocol => 6 | Io => 7
  end.
Definition reason_from_u8 (v : Z) : CloseReason :=
  match v with
  | 0 => Shutdown | 1 => Expired | 2 => Fenced | 3 => Replaced | 4 => Refused | 5 => Duplicate
  | 6 => Protocol | _ => Io
  end.

Record Hello := mkHello {
  proto : Z; role : Role; node : string; boot : Z; sno : Z; lease_ms : Z;
  listen : list string; peers : list (string * string) }.

Inductive Msg :=
| MHello (h : Hello)
| MClose (r : CloseReason)
| MKeepAlive
| MDeclare (kind : DeclKind) (id : Z) (expr : string)
| MUndeclare (kind : DeclKind) (id : Z)
| MDeclareDone
| MTokenSub (id : Z) (expr : string) (history : bool)
| MTokenUnsub (id : Z)
| MTokenEvt (id : Z) (kind : TokenEvtKind) (key : string)
| MPeers (ps : list (string * string))
| MPut (key : string) (payload : list byte)
| MRequest (qid : Z) (expr : string) (payload : list byte) (timeout_ms : Z)
| MReply (qid : Z) (key : string) (ok : bool) (payload : list byte)
| MFinal (qid : Z).

Definition lane (m : Msg) : Lane :=
  match m with
  | MHello _ | MClose _ | MKeepAlive => Control
  | MDeclare _ _ _ | MUndeclare _ _ | MDeclareDone | MTokenSub _ _ _ | MTokenUnsub _ | MTokenEvt _ _ _
  | MPeers _ => Declares
  | MRequest _ _ _ _ | MReply _ _ _ _ | MFinal _ => Request
  | MPut _ _ => Data
  end.

(** ** Encoding *)

(** [put_var] ends within ten turns on a [u64]. *)
Fixpoint put_var_loop (fuel : nat) (v : Z) : list byte :=
  match fuel with
  | O => []
  | S fuel =>
    let low := Z.land v 0x7f in
    let v := Z.shiftr v 7 in
    if v =? 0 then [zb low] else zb (Z.lor low 0x80) :: put_var_loop fuel v
  end.
Definition put_var (v : Z) : list byte := put_var_loop 10 v.
Definition put_bytes (v : list byte) : list byte := put_var (len v) ++ v.
Definition put_str (s : string) : list byte := put_bytes (sb s).
Definition put_pairs (p : list (string * string)) : list byte :=
  put_var (len p) ++ concat (map (fun kv => put_str kv.1 ++ put_str kv.2) p).
Definition flag (b : bool) : Z := if b then 1 else 0.

Definition encode (m : Msg) : list byte :=
  match m with
  | MHello h =>
    [zb 0; zb (proto h); zb (role_no (role h))] ++ put_str (node h) ++ put_var (boot h) ++ put_var (sno h)
    ++ put_var (lease_ms h) ++ put_var (len (listen h)) ++ concat (map put_str (listen h)) ++ put_pairs (peers h)
  | MClose r => [zb 1; zb (reason_no r)]
  | MKeepAlive => [zb 2]
  | MDeclare kind id expr => [zb 3; zb (kind_no kind)] ++ put_var id ++ put_str expr
  | MUndeclare kind id => [zb 4; zb (kind_no kind)] ++ put_var id
  | MDeclareDone => [zb 5]
  | MTokenSub id expr history => [zb 6] ++ put_var id ++ put_str expr ++ [zb (flag history)]
  | MTokenUnsub id => [zb 7] ++ put_var id
  | MTokenEvt id kind key => [zb 8] ++ put_var id ++ [zb (evt_no kind)] ++ put_str key
  | MPeers p => [zb 9] ++ put_pairs p
  | MPut key payload => [zb 10] ++ put_str key ++ put_bytes payload
  | MRequest qid expr payload timeout_ms =>
    [zb 11] ++ put_var qid ++ put_str expr ++ put_bytes payload ++ put_var timeout_ms
  | MReply qid key ok payload => [zb 12] ++ put_var qid ++ put_str key ++ [zb (flag ok)] ++ put_bytes payload
  | MFinal qid => [zb 13] ++ put_var qid
  end.

(** ** Decoding *)

Definition cur_u8 (c : list byte) : option (Z * list byte) :=
  match c with [] => None | b :: c => Some (bz b, c) end.

(** The loop over the shifts 0, 7, ..., 63. *)
Fixpoint var_loop (n : nat) (shift v : Z) (c : list byte) : option (Z * list byte) :=
  match n with
  | O => None
  | S n =>
    let? (b, c) := cur_u8 c in
    let v := Z.lor v (u64 (Z.shiftl (Z.land b 0x7f) shift)) in
    if Z.land b 0x80 =? 0 then Some (v, c) else var_loop n (shift + 7) v c
  end.
Definition cur_var (c : list byte) : option (Z * list byte) := var_loop 10 0 0 c.

Definition cur_len (c : list byte) : option (Z * list byte) :=
  let? (n, c) := cur_var c in if n <=? len c then Some (n, c) else None.

Definition cur_bytes (c : list byte) : option (list byte * list byte) :=
  let? (n, c) := cur_len c in Some (take (Z.to_nat n) c, drop (Z.to_nat n) c).

Definition cur_str (c : list byte) : option (string * list byte) :=
  let? (v, c) := cur_bytes c in let? s := Utf8.from_utf8 v in Some (s, c).

Definition cur_u32 (c : list byte) : option (Z * list byte) :=
  let? (v, c) := cur_var c in if v <? 2 ^ 32 then Some (v, c) else None.

Definition cur_kind (c : list byte) : option (DeclKind * list byte) :=
  let? (v, c) := cur_u8 c in
  match v with 0 => Some (KToken, c) | 1 => Some (KSub, c) | 2 => Some (KQabl, c) | _ => None end.

Fixpoint cur_strs (n : nat) (c : list byte) : option (list string * list byte) :=
  match n with
  | O => Some ([], c)
  | S n => let? (s, c) := cur_str c in let? (ss, c) := cur_strs n c in Some (s :: ss, c)
  end.

Fixpoint cur_kvs (n : nat) (c : list byte) : option (list (string * string) * list byte) :=
  match n with
  | O => Some ([], c)
  | S n =>
    let? (k, c) := cur_str c in let? (v, c) := cur_str c in
    let? (ps, c) := cur_kvs n c in Some ((k, v) :: ps, c)
  end.

Definition cur_pairs (c : list byte) : option (list (string * string) * list byte) :=
  let? (n, c) := cur_len c in cur_kvs (Z.to_nat n) c.

Definition cur_hello (c : list byte) : option (Msg * list byte) :=
  let? (proto, c) := cur_u8 c in
  let? (r, c) := cur_u8 c in
  let? role := (match r with 0 => Some Router | 1 => Some Client | _ => None end) in
  let? (node, c) := cur_str c in
  let? (boot, c) := cur_var c in
  let? (sno, c) := cur_var c in
  let? (lease_ms, c) := cur_u32 c in
  let? (n, c) := cur_len c in
  let? (listen, c) := cur_strs (Z.to_nat n) c in
  let? (peers, c) := cur_pairs c in
  Some (MHello (mkHello proto role node boot sno lease_ms listen peers), c).

Definition cur_msg (c : list byte) : option (Msg * list byte) :=
  let? (tag, c) := cur_u8 c in
  match tag with
  | 0 => cur_hello c
  | 1 => let? (r, c) := cur_u8 c in Some (MClose (reason_from_u8 r), c)
  | 2 => Some (MKeepAlive, c)
  | 3 => let? (k, c) := cur_kind c in let? (id, c) := cur_var c in
         let? (e, c) := cur_str c in Some (MDeclare k id e, c)
  | 4 => let? (k, c) := cur_kind c in let? (id, c) := cur_var c in Some (MUndeclare k id, c)
  | 5 => Some (MDeclareDone, c)
  | 6 => let? (id, c) := cur_var c in let? (e, c) := cur_str c in
         let? (h, c) := cur_u8 c in Some (MTokenSub id e (negb (h =? 0)), c)
  | 7 => let? (id, c) := cur_var c in Some (MTokenUnsub id, c)
  | 8 => let? (id, c) := cur_var c in let? (k, c) := cur_u8 c in
         let? kind := (match k with 0 => Some EPut | 1 => Some EDelete | 2 => Some EBatchEnd | _ => None end) in
         let? (key, c) := cur_str c in Some (MTokenEvt id kind key, c)
  | 9 => let? (ps, c) := cur_pairs c in Some (MPeers ps, c)
  | 10 => let? (key, c) := cur_str c in let? (p, c) := cur_bytes c in Some (MPut key p, c)
  | 11 => let? (qid, c) := cur_var c in let? (e, c) := cur_str c in let? (p, c) := cur_bytes c in
          let? (t, c) := cur_u32 c in Some (MRequest qid e p t, c)
  | 12 => let? (qid, c) := cur_var c in let? (key, c) := cur_str c in let? (ok, c) := cur_u8 c in
          let? (p, c) := cur_bytes c in Some (MReply qid key (negb (ok =? 0)) p, c)
  | 13 => let? (qid, c) := cur_var c in Some (MFinal qid, c)
  | _ => None
  end.

(** The whole buffer must be one message. *)
Definition decode (b : list byte) : option Msg :=
  let? (m, c) := cur_msg b in match c with [] => Some m | _ => None end.

(** ** Frames *)

Fixpoint chunks (fuel room : nat) (b : list byte) : list (list byte) :=
  match fuel with
  | O => []
  | S fuel => match b with [] => [] | _ => take room b :: chunks fuel room (drop room b) end
  end.

Definition frame (l : Lane) (flags : Z) (chunk : list byte) : list byte :=
  be 4 (u32 (len chunk + 2)) ++ [zb (lane_no l)] ++ [zb flags] ++ chunk.

(** The flags of each chunk: all but the last say that more follows. *)
Fixpoint flagged (cs : list (list byte)) : list (Z * list byte) :=
  match cs with
  | [] => []
  | [c] => [(0, c)]
  | c :: cs => (MORE, c) :: flagged cs
  end.

Definition ROOM : nat := Z.to_nat (FRAME_MAX - FRAME_HEAD).

(** The flags and chunks of a message's frames, then the frames. *)
Definition parts (m : Msg) : list (Z * list byte) :=
  let body := encode m in
  match chunks (length body) ROOM body with [] => [(0, [])] | cs => flagged cs end.

Definition frames (m : Msg) : Lane * list (list byte) :=
  (lane m, map (fun fc => frame (lane m) fc.1 fc.2) (parts m)).

(** ** Reassembly *)

(** What each lane has so far. *)
Definition Reassembler : Type := Lane -> list byte.
Definition fresh : Reassembler := fun _ => [].
Definition set_lane (r : Reassembler) (l : Lane) (v : list byte) : Reassembler :=
  fun l' => if bool_decide (l' = l) then v else r l'.

Inductive Assembled := Partial | Done (b : list byte) | TooBig.

Definition push (r : Reassembler) (l : Lane) (flags : Z) (chunk : list byte) : Reassembler * Assembled :=
  if len (r l) + len chunk >? MSG_MAX then (r, TooBig)
  else
    let p := r l ++ chunk in
    if negb (Z.land flags MORE =? 0) then (set_lane r l p, Partial) else (set_lane r l [], Done p).

(** ** Integers of variable length *)

Lemma low7 b : Z.land (bz b) 0x7f = bz b mod 128 /\ (Z.land (bz b) 0x80 =? 0) = (bz b <? 128).
Proof. each_byte b. Qed.

Lemma land_127 v : Z.land v 0x7f = v mod 128.
Proof. change 0x7f with (Z.ones 7). rewrite Z.land_ones by lia. done. Qed.

Lemma shiftr_7 v : Z.shiftr v 7 = v / 128.
Proof. rewrite Z.shiftr_div_pow2 by lia. done. Qed.

Lemma lor_128 x : 0 <= x < 128 -> Z.lor x 0x80 = x + 128.
Proof. intros Hx. transitivity (Z.lor x (Z.shiftl 1 7)); [done|]. rewrite lor_shift; [|lia|]; change (2 ^ 7) with 128; lia. Qed.

Lemma cur_u8_cons b c : cur_u8 (b :: c) = Some (bz b, c).
Proof. done. Qed.

Lemma put_var_loop_S fuel v :
  put_var_loop (S fuel) v =
  if v / 128 =? 0 then [zb (v mod 128)] else zb (Z.lor (v mod 128) 0x80) :: put_var_loop fuel (v / 128).
Proof. cbn [put_var_loop]. by rewrite land_127, shiftr_7. Qed.

(** One more byte of an integer: [n] bytes of it are still allowed. *)
Lemma var_loop_put fuel n s v0 v rest :
  0 <= v -> s = 7 * (10 - Z.of_nat n) -> (1 <= n <= 10)%nat ->
  0 <= v0 < 2 ^ s -> v0 + v * 2 ^ s < 2 ^ 64 -> v < 128 ^ Z.of_nat (S fuel) ->
  var_loop n s v0 (put_var_loop (S fuel) v ++ rest) = Some (v0 + v * 2 ^ s, rest).
Proof.
  revert n s v0 v. induction fuel as [|fuel IH]; intros [|n] s v0 v Hv Es Hn Hv0 Hb Hf; try lia;
    rewrite put_var_loop_S; assert (0 <= s) by lia;
    assert (0 < 2 ^ s) by (by apply Z.pow_pos_nonneg);
    assert (Hlow : 0 <= v mod 128 < 128) by (apply Z.mod_pos_bound; lia).
  - change (128 ^ Z.of_nat 1) with 128 in Hf. rewrite Z.div_small, Z.mod_small by lia. cbn [Z.eqb app var_loop].
    rewrite cur_u8_cons. destruct (low7 (zb v)) as [E1 E2]. rewrite E1, E2, bz_zb_id by lia.
    rewrite (proj2 (Z.ltb_lt v 128)), (Z.mod_small v), u64_id, lor_shift by
      (try lia; unfold is_u64; rewrite Z.shiftl_mul_pow2 by done; nia). done.
  - destruct (Z.eqb_spec (v / 128) 0) as [Ez|Ez].
    + assert (v < 128) by (apply Z.div_small_iff in Ez; lia). rewrite Z.mod_small by lia. cbn [app var_loop].
      rewrite cur_u8_cons. destruct (low7 (zb v)) as [E1 E2]. rewrite E1, E2, bz_zb_id by lia.
      rewrite (proj2 (Z.ltb_lt v 128)), (Z.mod_small v), u64_id, lor_shift by
        (try lia; unfold is_u64; rewrite Z.shiftl_mul_pow2 by done; nia). done.
    + rewrite lor_128 by done. cbn [app]. cbn [var_loop]. rewrite cur_u8_cons.
      destruct (low7 (zb (v mod 128 + 128))) as [E1 E2]. rewrite E1, E2, bz_zb_id by lia.
      rewrite (proj2 (Z.ltb_ge _ 128)) by lia. replace ((v mod 128 + 128) mod 128) with (v mod 128)
        by (rewrite <- Z.add_mod_idemp_r, Z.mod_same, Z.add_0_r, Z.mod_mod by lia; done).
      pose proof (Z.div_mod v 128) as Edm. assert (0 < v / 128) by (pose proof (Z.div_pos v 128); lia).
      assert (E7 : 2 ^ (s + 7) = 128 * 2 ^ s) by (rewrite Z.pow_add_r by lia; lia).
      assert (v / 128 < 128 ^ Z.of_nat (S fuel)).
      { apply Z.div_lt_upper_bound; [lia|]. rewrite <- Z.pow_succ_r by lia. by rewrite <- Nat2Z.inj_succ. }
      rewrite u64_id, lor_shift by (try lia; unfold is_u64; rewrite Z.shiftl_mul_pow2 by done; nia).
      rewrite IH; [f_equal; f_equal; nia|lia|lia| |nia|nia|done].
      destruct n as [|n]; [|lia]. exfalso. assert (s = 63) by lia. subst s.
      change (2 ^ 64) with (2 * 2 ^ 63) in Hb. nia.
Qed.

Lemma put_var_spec v rest : is_u64 v -> cur_var (put_var v ++ rest) = Some (v, rest).
Proof.
  intros Hv. unfold cur_var, put_var. unfold is_u64 in Hv.
  rewrite var_loop_put; [by rewrite Z.mul_1_r|lia..].
Qed.

(** ** Fields *)

Definition is_usize (v : Z) : Prop := 0 <= v < 2 ^ 64.

Lemma put_bytes_spec v rest : is_usize (len v) -> cur_bytes (put_bytes v ++ rest) = Some (v, rest).
Proof.
  intros Hv. unfold cur_bytes, cur_len, put_bytes. rewrite <- app_assoc, put_var_spec by done.
  rewrite (proj2 (Z.leb_le _ _)), len_nat, take_app_len, drop_app_len; [done|].
  rewrite len_app. pose proof (len_nonneg rest). lia.
Qed.

(** A Rust string: well-formed UTF-8 of a length that fits. *)
Definition str_ok (s : string) : Prop := Utf8.wf s /\ is_usize (len (sb s)).

Lemma put_str_spec s rest : str_ok s -> cur_str (put_str s ++ rest) = Some (s, rest).
Proof.
  intros [Hu Hl]. unfold cur_str, put_str. rewrite put_bytes_spec by done. by rewrite Utf8.from_utf8_wf.
Qed.

Lemma put_u32_spec v rest : is_u32 v -> cur_u32 (put_var v ++ rest) = Some (v, rest).
Proof.
  intros Hv. unfold cur_u32. rewrite put_var_spec by ulia.
  unfold is_u32 in Hv. destruct (Z.ltb_spec v (2 ^ 32)); [done|lia].
Qed.

Lemma put_strs_spec ss rest : Forall str_ok ss ->
  cur_strs (length ss) (concat (map put_str ss) ++ rest) = Some (ss, rest).
Proof.
  induction 1 as [|s ss Hs _ IH]; [done|]. cbn [length map concat cur_strs].
  by rewrite <- app_assoc, put_str_spec, IH.
Qed.

Definition pair_ok (kv : string * string) : Prop := str_ok kv.1 /\ str_ok kv.2.

Lemma put_kvs_spec ps rest : Forall pair_ok ps ->
  cur_kvs (length ps) (concat (map (fun kv => put_str kv.1 ++ put_str kv.2) ps) ++ rest) = Some (ps, rest).
Proof.
  induction 1 as [|[k v] ps [Hk Hv] _ IH]; [done|]. cbn [length map concat cur_kvs fst snd] in *.
  by rewrite <- !app_assoc, put_str_spec, put_str_spec, IH.
Qed.

Lemma len_put_var v : 1 <= len (put_var v).
Proof.
  unfold put_var. rewrite put_var_loop_S. case_match; autorewrite with len; [lia|].
  pose proof (len_nonneg (put_var_loop 9 (v / 128))). lia.
Qed.

Lemma len_put_str s : 1 <= len (put_str s).
Proof. unfold put_str, put_bytes. rewrite len_app. pose proof (len_put_var (len (sb s))). pose proof (len_nonneg (sb s)). lia. Qed.

Lemma len_concat_ge {A} (f : A -> list byte) l : (forall x, 1 <= len (f x)) -> len l <= len (concat (map f l)).
Proof.
  intros H. induction l as [|x l IH]; [done|]. cbn [map concat]. rewrite len_cons, len_app. specialize (H x). lia.
Qed.

Lemma cur_len_put n rest : is_usize n -> n <= len rest -> cur_len (put_var n ++ rest) = Some (n, rest).
Proof. intros Hn Hl. unfold cur_len. rewrite put_var_spec by done. by rewrite (proj2 (Z.leb_le _ _)). Qed.

Lemma put_pairs_spec ps rest : is_usize (len ps) -> Forall pair_ok ps ->
  cur_pairs (put_pairs ps ++ rest) = Some (ps, rest).
Proof.
  intros Hl Hp. unfold cur_pairs, put_pairs. rewrite <- app_assoc, cur_len_put; [|done|].
  - by rewrite len_nat, put_kvs_spec.
  - rewrite len_app. pose proof (len_nonneg rest).
    pose proof (len_concat_ge (fun kv : string * string => put_str kv.1 ++ put_str kv.2) ps) as H'.
    assert (len ps <= len (concat (map (fun kv : string * string => put_str kv.1 ++ put_str kv.2) ps))); [|lia].
    apply H'. intros x. rewrite len_app. pose proof (len_put_str x.1). pose proof (len_put_str x.2). lia.
Qed.

(** ** Messages *)

(** The ranges of the fields' types. *)
Definition hello_ok (h : Hello) : Prop :=
  is_u8 (proto h) /\ str_ok (node h) /\ is_u64 (boot h) /\ is_u64 (sno h) /\ is_u32 (lease_ms h) /\
  (is_usize (len (listen h)) /\ Forall str_ok (listen h)) /\ is_usize (len (peers h)) /\ Forall pair_ok (peers h).

Definition msg_ok (m : Msg) : Prop :=
  match m with
  | MHello h => hello_ok h
  | MClose _ | MKeepAlive | MDeclareDone => True
  | MDeclare _ id e | MTokenSub id e _ | MTokenEvt id _ e => is_u64 id /\ str_ok e
  | MUndeclare _ id | MTokenUnsub id | MFinal id => is_u64 id
  | MPeers ps => is_usize (len ps) /\ Forall pair_ok ps
  | MPut k p => str_ok k /\ is_usize (len p)
  | MRequest q e p t => is_u64 q /\ str_ok e /\ is_usize (len p) /\ is_u32 t
  | MReply q k _ p => is_u64 q /\ str_ok k /\ is_usize (len p)
  end.

Lemma cur_hello_spec h rest : hello_ok h ->
  cur_hello (drop 1 (encode (MHello h)) ++ rest) = Some (MHello h, rest).
Proof.
  intros (H1 & H2 & H3 & H4 & H5 & [H6 H7] & H8 & H9). cbn [encode drop app].
  unfold cur_hello. rewrite cur_u8_cons, bz_zb, u8_id, cur_u8_cons by done.
  assert (match bz (zb (role_no (role h))) with 0 => Some Router | 1 => Some Client | _ => None end = Some (role h)) as ->
    by (by destruct (role h)).
  rewrite <- !app_assoc, put_str_spec, put_var_spec, put_var_spec, put_u32_spec by done.
  rewrite cur_len_put, len_nat, put_strs_spec, put_pairs_spec; [|done..|].
  - by destruct h.
  - rewrite len_app. pose proof (len_concat_ge put_str (listen h) len_put_str).
    pose proof (len_nonneg (put_pairs (peers h) ++ rest)). lia.
Qed.

Lemma cur_kind_spec k rest : cur_kind (zb (kind_no k) :: rest) = Some (k, rest).
Proof. by destruct k. Qed.
Lemma evt_spec k : match bz (zb (evt_no k)) with 0 => Some EPut | 1 => Some EDelete | 2 => Some EBatchEnd | _ => None end = Some k.
Proof. by destruct k. Qed.
Lemma flag_spec b : negb (bz (zb (flag b)) =? 0) = b.
Proof. by destruct b. Qed.

Lemma cur_msg_spec m rest : msg_ok m -> cur_msg (encode m ++ rest) = Some (m, rest).
Proof.
  intros Hm. destruct m as [h|r| |k id e|k id| |id e hist|id|id k key|ps|key p|q e p t|q key ok p|q];
    cbn [msg_ok] in Hm.
  - change (encode (MHello h) ++ rest) with (zb 0 :: (drop 1 (encode (MHello h)) ++ rest)).
    unfold cur_msg. rewrite cur_u8_cons. by apply cur_hello_spec.
  - by destruct r.
  - done.
  - cbn [encode app]. unfold cur_msg. rewrite cur_u8_cons. change (bz (zb 3)) with 3. cbv iota beta.
    rewrite cur_kind_spec, <- app_assoc, put_var_spec, put_str_spec by apply Hm. done.
  - cbn [encode app]. unfold cur_msg. rewrite cur_u8_cons. change (bz (zb 4)) with 4. cbv iota beta.
    rewrite cur_kind_spec, put_var_spec by apply Hm. done.
  - done.
  - cbn [encode app]. unfold cur_msg. rewrite cur_u8_cons. change (bz (zb 6)) with 6. cbv iota beta.
    rewrite <- !app_assoc, put_var_spec, put_str_spec by apply Hm. cbn [app]. by rewrite cur_u8_cons, flag_spec.
  - cbn [encode app]. unfold cur_msg. rewrite cur_u8_cons. change (bz (zb 7)) with 7. cbv iota beta.
    by rewrite put_var_spec.
  - cbn [encode app]. unfold cur_msg. rewrite cur_u8_cons. change (bz (zb 8)) with 8. cbv iota beta.
    rewrite <- !app_assoc, put_var_spec by apply Hm. cbn [app]. rewrite cur_u8_cons, evt_spec, put_str_spec by apply Hm.
    done.
  - cbn [encode app]. unfold cur_msg. rewrite cur_u8_cons. change (bz (zb 9)) with 9. cbv iota beta.
    rewrite put_pairs_spec by apply Hm. done.
  - cbn [encode app]. unfold cur_msg. rewrite cur_u8_cons. change (bz (zb 10)) with 10. cbv iota beta.
    rewrite <- !app_assoc, put_str_spec, put_bytes_spec by apply Hm. done.
  - cbn [encode app]. unfold cur_msg. rewrite cur_u8_cons. change (bz (zb 11)) with 11. cbv iota beta.
    rewrite <- !app_assoc, put_var_spec, put_str_spec, put_bytes_spec, put_u32_spec by apply Hm. done.
  - cbn [encode app]. unfold cur_msg. rewrite cur_u8_cons. change (bz (zb 12)) with 12. cbv iota beta.
    rewrite <- !app_assoc, put_var_spec, put_str_spec by apply Hm. cbn [app].
    rewrite cur_u8_cons, flag_spec, put_bytes_spec by apply Hm. done.
  - cbn [encode app]. unfold cur_msg. rewrite cur_u8_cons. change (bz (zb 13)) with 13. cbv iota beta.
    by rewrite put_var_spec.
Qed.

Lemma msg_decode_encode m : msg_ok m -> decode (encode m) = Some m.
Proof. intros Hm. unfold decode. by rewrite <- (app_nil_r (encode m)), cur_msg_spec. Qed.

(** Bytes after a message make the whole buffer unreadable. *)
Lemma decode_trailing m b rest : msg_ok m -> decode (encode m ++ b :: rest) = None.
Proof. intros Hm. unfold decode. by rewrite cur_msg_spec. Qed.

(** *** What the decoder accepts *)

Lemma is_u64_lor a b : is_u64 a -> is_u64 b -> is_u64 (Z.lor a b).
Proof.
  unfold is_u64. intros Ha Hb. split; [apply Z.lor_nonneg; lia|].
  destruct (Z.eq_dec (Z.lor a b) 0) as [->|Hn]; [lia|].
  assert (0 <= Z.lor a b) by (apply Z.lor_nonneg; lia).
  apply Z.log2_lt_pow2; [lia|]. rewrite Z.log2_lor by lia.
  assert (forall x, 0 <= x < 2 ^ 64 -> Z.log2 x < 64) as K.
  { intros x Hx. destruct (Z.eq_dec x 0) as [->|]; [done|]. apply Z.log2_lt_pow2; lia. }
  apply Z.max_lub_lt; by apply K.
Qed.

Lemma var_loop_range n s v c x c' : is_u64 v -> var_loop n s v c = Some (x, c') -> is_u64 x /\ len c' < len c.
Proof.
  revert s v c. induction n as [|n IH]; intros s v c Hv H; [done|]. cbn [var_loop] in H.
  destruct c as [|b c]; [done|]. rewrite cur_u8_cons in H. rewrite len_cons.
  assert (is_u64 (Z.lor v (u64 (Z.shiftl (Z.land (bz b) 0x7f) s)))) by (apply is_u64_lor; auto with ox).
  case_match; [simplify_eq; split; [done|lia]|]. apply IH in H as [? ?]; [|done]. split; [done|lia].
Qed.

Lemma cur_var_range c x c' : cur_var c = Some (x, c') -> is_u64 x /\ len c' < len c.
Proof. apply var_loop_range. by unfold is_u64. Qed.

Lemma cur_u8_range c x c' : cur_u8 c = Some (x, c') -> is_u8 x /\ len c' < len c.
Proof. destruct c as [|b c]; cbn; [done|]. intros [= <- <-]. rewrite len_cons. split; [apply bz_u8|lia]. Qed.

Lemma cur_len_range c x c' : cur_len c = Some (x, c') -> 0 <= x <= len c' /\ len c' < len c.
Proof.
  unfold cur_len. destruct (cur_var c) as [[n c1]|] eqn:E; [|done]. case_match; [|done]. intros [= <- <-].
  apply cur_var_range in E as [? ?]. zbool. unfold is_u64 in *. lia.
Qed.

Lemma cur_bytes_range c v c' : cur_bytes c = Some (v, c') -> len v + len c' < len c.
Proof.
  unfold cur_bytes. destruct (cur_len c) as [[n c1]|] eqn:E; [|done]. intros [= <- <-].
  apply cur_len_range in E as [? ?]. unfold len in *. rewrite length_take, length_drop. lia.
Qed.

Section Decoded.
(** Decoding from a buffer that fits in memory. *)
Context (max : Z) (Hmax : max < 2 ^ 64).

Lemma cur_str_range c s c' : len c <= max -> cur_str c = Some (s, c') -> str_ok s /\ len c' < len c.
Proof.
  intros Hc. unfold cur_str. destruct (cur_bytes c) as [[v c1]|] eqn:E; [|done].
  destruct (Utf8.from_utf8 v) as [s'|] eqn:Eu; [|done]. intros [= <- <-]. apply cur_bytes_range in E.
  apply Utf8.from_utf8_Some in Eu as [Hu Hs]. pose proof (len_nonneg v). pose proof (len_nonneg c1).
  split; [|lia]. split; [done|]. rewrite Hs. unfold is_usize. lia.
Qed.

Lemma cur_u32_range c x c' : cur_u32 c = Some (x, c') -> is_u32 x /\ len c' < len c.
Proof.
  unfold cur_u32. destruct (cur_var c) as [[v c1]|] eqn:E; [|done]. case_match; [|done]. intros [= <- <-].
  apply cur_var_range in E as [? ?]. zbool. unfold is_u64, is_u32 in *. lia.
Qed.

Lemma cur_kind_range c k c' : cur_kind c = Some (k, c') -> len c' < len c.
Proof.
  unfold cur_kind. destruct (cur_u8 c) as [[v c1]|] eqn:E; [|done]. apply cur_u8_range in E as [_ E].
  intros H. destruct v as [|[|[]|]|]; simplify_eq; done.
Qed.

Lemma cur_strs_range n c ss c' : len c <= max -> cur_strs n c = Some (ss, c') ->
  length ss = n /\ Forall str_ok ss /\ len c' <= len c.
Proof.
  revert c ss. induction n as [|n IH]; intros c ss Hc H; cbn [cur_strs] in H; [by simplify_eq|].
  destruct (cur_str c) as [[s c1]|] eqn:E; [|done]. apply cur_str_range in E as [Hs Hl]; [|done].
  destruct (cur_strs n c1) as [[ss' c2]|] eqn:E2; [|done]. simplify_eq. apply IH in E2 as (<- & ? & ?); [|lia].
  split; [done|]. split; [by constructor|lia].
Qed.

Lemma cur_kvs_range n c ps c' : len c <= max -> cur_kvs n c = Some (ps, c') ->
  length ps = n /\ Forall pair_ok ps /\ len c' <= len c.
Proof.
  revert c ps. induction n as [|n IH]; intros c ps Hc H; cbn [cur_kvs] in H; [by simplify_eq|].
  destruct (cur_str c) as [[k c1]|] eqn:E; [|done]. apply cur_str_range in E as [Hk Hl]; [|done].
  destruct (cur_str c1) as [[v c2]|] eqn:E1; [|done]. apply cur_str_range in E1 as [Hv Hl1]; [|lia].
  destruct (cur_kvs n c2) as [[ps' c3]|] eqn:E2; [|done]. simplify_eq. apply IH in E2 as (<- & ? & ?); [|lia].
  split; [done|]. split; [by constructor|lia].
Qed.

Lemma cur_pairs_range c ps c' : len c <= max -> cur_pairs c = Some (ps, c') ->
  is_usize (len ps) /\ Forall pair_ok ps.
Proof.
  intros Hc. unfold cur_pairs. destruct (cur_len c) as [[n c1]|] eqn:E; [|done]. apply cur_len_range in E as [Hn Hl].
  intros H. apply cur_kvs_range in H as (Hlen & Hp & _); [|lia]. split; [|done]. unfold is_usize, len in *. lia.
Qed.

(** Runs through the reads of a handler, keeping the range of each field. *)
Ltac reads :=
  repeat match goal with
  | H : (match ?e with Some _ => _ | None => None end) = Some _ |- _ =>
      let E := fresh "E" in destruct e as [[? ?]|] eqn:E; [|discriminate H];
      first [ apply cur_str_range in E as [? ?]; [|lia] | apply cur_var_range in E as [? ?]
            | apply cur_u32_range in E as [? ?] | apply cur_u8_range in E as [? ?]
            | apply cur_kind_range in E | apply cur_bytes_range in E
            | apply cur_pairs_range in E as [? ?]; [|lia] ]
  end.

Lemma cur_hello_range c m c' : len c <= max -> cur_hello c = Some (m, c') -> msg_ok m.
Proof.
  intros Hc H. unfold cur_hello in H. reads.
  match type of H with match ?e with Some _ => _ | None => None end = _ => destruct e; [|done] end. reads.
  match type of H with match cur_len ?c with Some _ => _ | None => None end = _ =>
    destruct (cur_len c) as [[n c1]|] eqn:En; [|done] end. apply cur_len_range in En as [? ?].
  match type of H with match cur_strs ?n ?c with Some _ => _ | None => None end = _ =>
    destruct (cur_strs n c) as [[ss c2]|] eqn:Es; [|done] end. apply cur_strs_range in Es as (? & ? & ?); [|lia].
  reads. simplify_eq. do 5 (split; [done|]). split; [|by split]. split; [|done].
  cbn [listen]. unfold is_usize, len in *. lia.
Qed.

Lemma cur_msg_range c m c' : len c <= max -> cur_msg c = Some (m, c') -> msg_ok m.
Proof.
  intros Hc H. unfold cur_msg in H. destruct (cur_u8 c) as [[tag c1]|] eqn:E; [|done].
  apply cur_u8_range in E as [_ E].
  repeat match type of H with
  | (match tag with _ => _ end) = _ => destruct tag
  | (match ?x with xI _ => _ | xO _ => _ | xH => _ end) = _ => destruct x
  end; try discriminate H; reads;
  first [ eapply cur_hello_range; [|exact H]; lia
        | match type of H with match ?e with Some _ => _ | None => None end = _ => destruct e; [|done] end; reads
        | idtac ];
  simplify_eq; cbn [msg_ok];
  repeat match goal with l : list byte |- _ =>
    assert_fails (assert (0 <= len l) by assumption); pose proof (len_nonneg l) end;
  repeat match goal with |- _ /\ _ => split end; first [done | unfold is_usize; lia].
Qed.

Lemma decode_ok b m : len b <= max -> decode b = Some m -> msg_ok m.
Proof.
  intros Hb. unfold decode. destruct (cur_msg b) as [[m' [|? ?]]|] eqn:E; [|done..]. intros [= <-].
  by eapply cur_msg_range.
Qed.

End Decoded.

(** Every message the mesh sends is read back as it was, and with a single byte more the
    buffer is refused. *)
Theorem mesh_msg_roundtrip m b rest :
  msg_ok m -> decode (encode m) = Some m /\ decode (encode m ++ b :: rest) = None.
Proof. intros Hm. split; [by apply msg_decode_encode|by apply decode_trailing]. Qed.

Lemma mesh_msg_roundtrip_witness : decode (encode (MPut "ox/a" [x01; x02])) = Some (MPut "ox/a" [x01; x02]).
Proof. apply (mesh_msg_roundtrip (MPut "ox/a" [x01; x02]) x00 []). vm_compute. repeat split; discriminate || reflexivity. Defined.

(** Whatever buffer the decoder accepts, what it returns is a message whose fields are in
    range: it can be sent on, and is read the same by the next node. *)
Theorem mesh_msg_relay b m :
  len b < 2 ^ 64 -> decode b = Some m -> msg_ok m /\ decode (encode m) = Some m.
Proof.
  intros Hb Hd. assert (msg_ok m) by (by apply (decode_ok (len b) Hb b)). split; [done|by apply msg_decode_encode].
Qed.

(** ** One lane *)

Lemma chunks_nil fuel room : chunks fuel room [] = [].
Proof. by destruct fuel. Qed.

Lemma chunks_concat fuel room b : (0 < room)%nat -> (length b <= fuel)%nat -> concat (chunks fuel room b) = b.
Proof.
  intros Hr. revert b. induction fuel as [|fuel IH]; intros b Hb; [by destruct b; [|cbn in Hb; lia]|].
  destruct b as [|x b]; [done|]. cbn [chunks concat]. rewrite IH; [apply take_drop|].
  rewrite length_drop. cbn [length] in *. lia.
Qed.

Lemma chunks_size fuel room b : Forall (fun c => (length c <= room)%nat) (chunks fuel room b).
Proof.
  revert b. induction fuel as [|fuel IH]; intros b; [constructor|]. destruct b as [|x b]; [constructor|].
  cbn [chunks]. constructor; [rewrite length_take; lia|apply IH].
Qed.

Lemma flagged_snd cs : map snd (flagged cs) = cs.
Proof. induction cs as [|c [|c' cs] IH]; [done..|]. cbn [flagged map] in *. by rewrite IH. Qed.

Lemma encode_nonempty m : encode m <> [].
Proof. by destruct m. Qed.

Lemma parts_flagged m : exists cs, cs <> [] /\ parts m = flagged cs /\ concat cs = encode m /\
  Forall (fun c => (length c <= ROOM)%nat) cs.
Proof.
  unfold parts. pose proof (chunks_concat (length (encode m)) ROOM (encode m)) as H.
  destruct (chunks (length (encode m)) ROOM (encode m)) as [|c cs] eqn:E.
  - exfalso. apply (encode_nonempty m). rewrite <- H; [done|vm_compute; lia|lia].
  - exists (c :: cs). split; [done|]. split; [done|]. split; [apply H; [vm_compute; lia|lia]|].
    rewrite <- E. apply chunks_size.
Qed.

(** What a lane with [acc] pending makes of the frames that arrive on it: the bodies it
    completes, and what is then pending; [None] when it grows too big. *)
Fixpoint lane_run (acc : list byte) (fs : list (Z * list byte)) : option (list byte * list (list byte)) :=
  match fs with
  | [] => Some (acc, [])
  | (flags, chunk) :: fs =>
    if len acc + len chunk >? MSG_MAX then None
    else if negb (Z.land flags MORE =? 0) then lane_run (acc ++ chunk) fs
    else match lane_run [] fs with Some (a, ds) => Some (a, (acc ++ chunk) :: ds) | None => None end
  end.

Lemma lane_run_app acc f1 f2 :
  lane_run acc (f1 ++ f2) =
  match lane_run acc f1 with
  | Some (a, ds) => match lane_run a f2 with Some (a', ds') => Some (a', ds ++ ds') | None => None end
  | None => None
  end.
Proof.
  revert acc. induction f1 as [|[fl c] f1 IH]; intros acc; cbn [app lane_run].
  { by destruct (lane_run acc f2) as [[a ds]|]. }
  case_match; [done|]. case_match; [apply IH|]. rewrite IH.
  destruct (lane_run [] f1) as [[a ds]|]; [|done]. by destruct (lane_run a f2) as [[a' ds']|].
Qed.

Lemma lane_run_flagged acc cs : cs <> [] -> len acc + len (concat cs) <= MSG_MAX ->
  lane_run acc (flagged cs) = Some ([], [acc ++ concat cs]).
Proof.
  intros Hn. revert acc. induction cs as [|c cs IH]; intros acc Hl; [done|]. cbn [concat] in Hl. rewrite len_app in Hl.
  pose proof (len_nonneg (concat cs)). destruct cs as [|c' cs].
  - cbn. rewrite Z.gtb_ltb, (proj2 (Z.ltb_ge _ _)) by lia. by rewrite app_nil_r.
  - change (flagged (c :: c' :: cs)) with ((MORE, c) :: flagged (c' :: cs)). cbn [lane_run].
    rewrite Z.gtb_ltb, (proj2 (Z.ltb_ge _ _)) by lia. change (Z.land MORE MORE =? 0) with false. cbn [negb].
    rewrite IH by (done || (rewrite len_app; lia)). cbn [concat]. by rewrite <- app_assoc.
Qed.

(** The frames of one message complete it, and leave nothing pending. *)
Lemma lane_run_parts m : len (encode m) <= MSG_MAX -> lane_run [] (parts m) = Some ([], [encode m]).
Proof.
  intros Hl. destruct (parts_flagged m) as (cs & Hn & -> & Ec & _).
  rewrite lane_run_flagged by (done || (rewrite Ec, len_nil; lia)). by rewrite Ec.
Qed.

Lemma lane_run_msgs ms : Forall (fun m => len (encode m) <= MSG_MAX) ms ->
  lane_run [] (concat (map parts ms)) = Some ([], map encode ms).
Proof.
  induction 1 as [|m ms Hm _ IH]; [done|]. cbn [map concat]. by rewrite lane_run_app, lane_run_parts, IH.
Qed.

(** However the frames are cut off, the bodies completed are the first ones. *)
Lemma lane_run_prefix ms fs : Forall (fun m => len (encode m) <= MSG_MAX) ms ->
  fs `prefix_of` concat (map parts ms) ->
  exists a k, lane_run [] fs = Some (a, map encode (take k ms)).
Proof.
  intros Hm [rest E]. pose proof (lane_run_msgs ms Hm) as H. rewrite E, lane_run_app in H.
  destruct (lane_run [] fs) as [[a ds]|]; [|done]. destruct (lane_run a rest) as [[a' ds']|]; [|done].
  injection H as _ H. exists a, (length ds). f_equal. f_equal.
  assert (take (length ds) (ds ++ ds') = take (length ds) (map encode ms)) as K by (by rewrite H).
  rewrite take_app_len in K. rewrite <- firstn_map. exact K.
Qed.

(** [push] is [lane_run] on the frame's lane and nothing on the others. *)
Lemma push_lane r l fl c :
  match push r l fl c with
  | (r', Partial) => lane_run (r l) [(fl, c)] = Some (r' l, []) /\ forall l', l' <> l -> r' l' = r l'
  | (r', Done b) => lane_run (r l) [(fl, c)] = Some (r' l, [b]) /\ forall l', l' <> l -> r' l' = r l'
  | (_, TooBig) => lane_run (r l) [(fl, c)] = None
  end.
Proof.
  unfold push. cbn [lane_run]. destruct (_ >? _); [done|]. destruct (negb _).
  - unfold set_lane. rewrite bool_decide_true by done. split; [done|]. intros l' Hn. by rewrite bool_decide_false.
  - unfold set_lane. rewrite bool_decide_true by done. split; [done|]. intros l' Hn. by rewrite bool_decide_false.
Qed.

End Wire.
