(* ===== verification/MeshSession.v ===== *)
(** * One session of the mesh

    crates/oxmesh/src/session.rs: the outbox with its four lanes, the writer that empties
    it, higher lanes first, and the reader at the other end of the connection.  The
    connection carries the writer's bytes in order and may break anywhere. *)

From S2P Require Import Prelude Utf8 MeshWire.

Module Sess.
Import Wire.

Definition DATA_CAP : Z := 8192.
Definition REQ_CAP : Z := 4096.
Definition WRITE_BATCH : Z := 64 * 1024.

Inductive Push := Queued | Dropped | Full | Closed.
#[export] Instance Push_eq_dec : EqDecision Push. Proof. solve_decision. Defined.

(** ** The outbox *)

Record Outbox := mkOutbox {
  q : Lane -> list (list byte);
  closing : option (option (list byte));
  dropped : Z; full : Z; total_dropped : Z }.

Definition new_outbox (total : Z) : Outbox := mkOutbox (fun _ => []) None 0 0 total.

Definition set_q (l : Lane) (v : list (list byte)) (f : Lane -> list (list byte)) : Lane -> list (list byte) :=
  fun l' => if bool_decide (l' = l) then v else f l'.

Definition cap (l : Lane) : option Z :=
  match l with Data => Some DATA_CAP | Request => Some REQ_CAP | _ => None end.

Definition push (m : Msg) (o : Outbox) : Outbox * Push :=
  let (l, fs) := frames m in
  match closing o with
  | Some _ => (o, Closed)
  | None =>
    if match cap l with Some c => len (q o l) + len fs >? c | None => false end then
      if bool_decide (l = Data) then
        (mkOutbox (q o) (closing o) (u64 (dropped o + 1)) (full o) (u64 (total_dropped o + 1)), Dropped)
      else (mkOutbox (q o) (closing o) (dropped o) (u64 (full o + 1)) (total_dropped o), Full)
    else (mkOutbox (set_q l (q o l ++ fs) (q o)) (closing o) (dropped o) (full o) (total_dropped o), Queued)
  end.

Definition close (reason : option CloseReason) (o : Outbox) : Outbox :=
  match closing o with
  | Some _ => o
  | None =>
    mkOutbox (q o) (Some (match reason with Some r => Some (concat (frames (MClose r)).2) | None => None end))
      (dropped o) (full o) (total_dropped o)
  end.

Definition all_lanes : list Lane := [Control; Declares; Request; Data].
Definition depths (o : Outbox) : list Z := map (fun l => len (q o l)) all_lanes.

(** The first frame of the highest lane that has one. *)
Fixpoint pop_front (ls : list Lane) (f : Lane -> list (list byte)) : option (list byte * (Lane -> list (list byte))) :=
  match ls with
  | [] => None
  | l :: ls => match f l with [] => pop_front ls f | fr :: rest => Some (fr, set_q l rest f) end
  end.

(** The loop that fills a batch; the fuel is one more than the frames there are. *)
Fixpoint fill (fuel : nat) (f : Lane -> list (list byte)) (out : list byte) : list byte * (Lane -> list (list byte)) :=
  match fuel with
  | O => (out, f)
  | S fuel =>
    if len out <? WRITE_BATCH then
      match pop_front all_lanes f with
      | Some (fr, f) => fill fuel f (out ++ fr)
      | None => (out, f)
      end
    else (out, f)
  end.

Definition count (f : Lane -> list (list byte)) : nat := length (concat (map f all_lanes)).

Inductive Pop := PFrames (b : list byte) | PEmpty | PClose (b : option (list byte)).

Definition pop (o : Outbox) : Outbox * Pop :=
  match closing o with
  | Some c => (mkOutbox (fun _ => []) (Some None) (dropped o) (full o) (total_dropped o), PClose c)
  | None =>
    let (out, f) := fill (S (count (q o))) (q o) [] in
    (mkOutbox f None (dropped o) (full o) (total_dropped o),
     match out with [] => PEmpty | _ => PFrames out end)
  end.

(** One turn of [write_loop]: the bytes put on the connection; [idle] says that the
    keepalive timer ran out while there was nothing to send. *)
Definition write_turn (idle : bool) (o : Outbox) : Outbox * list byte :=
  let (o, p) := pop o in
  match p with
  | PFrames b => (o, b)
  | PClose b => (o, default [] b)
  | PEmpty => (o, if idle then concat (frames MKeepAlive).2 else [])
  end.

(** ** The reader *)

Inductive FrameIn := FGot (l : Lane) (flags : Z) (chunk rest : list byte) | FErr (r : CloseReason).

(** [read_exact] fails with [Io] when the connection ends first. *)
Definition read_frame (bs : list byte) : FrameIn :=
  if len bs <? 4 then FErr Io
  else
    let n := from_be (take 4 bs) in
    if negb ((2 <=? n) && (n <=? FRAME_MAX - 4)) then FErr Protocol
    else
      let bs := drop 4 bs in
      if len bs <? n then FErr Io
      else
        let body := take (Z.to_nat n) bs in
        let rest := drop (Z.to_nat n) bs in
        match body with
        | l :: flags :: chunk =>
          match lane_from_u8 (bz l) with Some l => FGot l (bz flags) chunk rest | None => FErr Protocol end
        | _ => FErr Protocol
        end.

Inductive Outcome := OClosed (r : CloseReason) | OPaused | OStopped.

Section Reader.
(** What the reader sees at its [i]-th frame: whether it was told to stop, and the time
    since the process's last tick. *)
Context (stop : nat -> bool) (gap_ms : nat -> Z) (fence_ms : Z).

Fixpoint read_loop (fuel i : nat) (asm : Reassembler) (bs : list byte) : list Msg * Outcome :=
  match fuel with
  | O => ([], OStopped)
  | S fuel =>
    match read_frame bs with
    | FErr e => ([], if stop i then OStopped else OClosed e)
    | FGot l flags chunk rest =>
      if stop i then ([], OStopped)
      else if gap_ms i >? fence_ms then ([], OPaused)
      else
        match Wire.push asm l flags chunk with
        | (asm, Partial) => read_loop fuel (S i) asm rest
        | (_, TooBig) => ([], OClosed Protocol)
        | (asm, Done b) =>
          match decode b with
          | Some MKeepAlive => read_loop fuel (S i) asm rest
          | Some m => let (ms, e) := read_loop fuel (S i) asm rest in (m :: ms, e)
          | None => ([], OClosed Protocol)
          end
        end
    end
  end.

(** Every frame takes bytes, so that this fuel is never used up. *)
Definition read_all (bs : list byte) : list Msg * Outcome := read_loop (S (length bs)) 0 fresh bs.

End Reader.

(** ** A session at work *)

Inductive Op := OpPush (m : Msg) | OpWrite (idle : bool).

(** The outbox, the bytes written so far, the messages that were queued. *)
Record Run := mkRun { ob : Outbox; wire : list byte; log : list Msg }.

Definition op (r : Run) (x : Op) : Run :=
  match x with
  | OpPush m =>
    let (o, p) := push m (ob r) in
    mkRun o (wire r) (match p with Queued => log r ++ [m] | _ => log r end)
  | OpWrite idle => let (o, b) := write_turn idle (ob r) in mkRun o (wire r ++ b) (log r)
  end.

Definition run (xs : list Op) : Run := fold_left op xs (mkRun (new_outbox 0) [] []).

(** A message of a lane, other than the reader's own keepalives. *)
Definition on_lane (l : Lane) (m : Msg) : bool :=
  bool_decide (lane m = l) && match m with MKeepAlive => false | _ => true end.
Definition lane_msgs (l : Lane) (ms : list Msg) : list Msg := List.filter (on_lane l) ms.

(** ** Frames on the connection *)

Definition Fr : Type := Lane * (Z * list byte).
Definition bytes_of (x : Fr) : list byte := frame x.1 x.2.1 x.2.2.
Definition fr_ok (x : Fr) : Prop := is_u8 x.2.1 /\ (length x.2.2 <= ROOM)%nat.

Lemma ROOM_Z : Z.of_nat ROOM = FRAME_MAX - FRAME_HEAD.
Proof. vm_compute. done. Qed.

Lemma bytes_of_eq x : fr_ok x -> bytes_of x = be 4 (len x.2.2 + 2) ++ zb (lane_no x.1) :: zb x.2.1 :: x.2.2.
Proof.
  intros [_ Hl]. unfold bytes_of, frame. rewrite u32_id; [done|]. pose proof ROOM_Z.
  unfold FRAME_MAX, FRAME_HEAD, len in *. ulia.
Qed.

Lemma lane_from_u8_no l : lane_from_u8 (bz (zb (lane_no l))) = Some l.
Proof. by destruct l. Qed.

Lemma from_be_be4 z : 0 <= z < 2 ^ 32 -> from_be (be 4 z) = z.
Proof. apply from_be_be_u32. Qed.

Lemma read_frame_got x rest : fr_ok x -> read_frame (bytes_of x ++ rest) = FGot x.1 x.2.1 x.2.2 rest.
Proof.
  intros Hx. rewrite bytes_of_eq by done. destruct x as [l [fl c]], Hx as [Hf Hc]. cbn [fst snd] in *.
  pose proof ROOM_Z as HR. pose proof (len_nonneg c) as Hn. pose proof (len_nonneg rest).
  assert (Hc2 : len c + 2 <= FRAME_MAX - 4) by (unfold len, FRAME_MAX, FRAME_HEAD in *; lia).
  unfold read_frame. rewrite <- app_assoc. cbn [app]. rewrite !len_app. unfold len at 1. rewrite length_be.
  rewrite (proj2 (Z.ltb_ge _ 4)) by (rewrite !len_cons; unfold len; lia).
  assert (Et : take 4 (be 4 (len c + 2) ++ zb (lane_no l) :: zb fl :: c ++ rest) = be 4 (len c + 2)).
  { rewrite <- (length_be 4 (len c + 2)) at 1. apply take_app_len. }
  assert (Ed : drop 4 (be 4 (len c + 2) ++ zb (lane_no l) :: zb fl :: c ++ rest) = zb (lane_no l) :: zb fl :: c ++ rest).
  { rewrite <- (length_be 4 (len c + 2)) at 1. apply drop_app_len. }
  rewrite Et, Ed, from_be_be4 by (unfold FRAME_MAX in *; lia).
  rewrite (proj2 (Z.leb_le 2 _)), (proj2 (Z.leb_le _ (FRAME_MAX - 4))) by lia. cbn [andb negb].
  rewrite !len_cons, len_app. rewrite (proj2 (Z.ltb_ge _ _)) by lia.
  replace (Z.to_nat (len c + 2)) with (S (S (length c))) by (unfold len; lia). cbn [take drop].
  rewrite take_app_len, drop_app_len, lane_from_u8_no, bz_zb, u8_id by done. done.
Qed.

(** A frame that is cut is not read. *)
Lemma read_frame_cut x bs : fr_ok x -> bs `prefix_of` bytes_of x -> bs <> bytes_of x -> read_frame bs = FErr Io.
Proof.
  intros Hx [k E] Hne. rewrite bytes_of_eq in * by done. destruct x as [l [fl c]], Hx as [Hf Hc]. cbn [fst snd] in *.
  pose proof ROOM_Z as HR. pose proof (len_nonneg c) as Hn.
  assert (Hc2 : len c + 2 <= FRAME_MAX - 4) by (unfold len, FRAME_MAX, FRAME_HEAD in *; lia).
  assert (Hk : 0 < len k). { destruct k; [|rewrite len_cons; pose proof (len_nonneg k); lia]. by rewrite app_nil_r in E. }
  assert (Hlen : len bs + len k = 6 + len c).
  { rewrite <- len_app, <- E, len_app, !len_cons. unfold len at 1. rewrite length_be. lia. }
  unfold read_frame. destruct (Z.ltb_spec (len bs) 4) as [|H4]; [done|].
  assert (Et : take 4 bs = be 4 (len c + 2)).
  { transitivity (take 4 (bs ++ k)); [rewrite take_app_le; [done|unfold len in H4; lia]|]. rewrite <- E.
    rewrite <- (length_be 4 (len c + 2)) at 1. apply take_app_len. }
  rewrite Et, from_be_be4 by (unfold FRAME_MAX in *; lia).
  rewrite (proj2 (Z.leb_le 2 _)), (proj2 (Z.leb_le _ (FRAME_MAX - 4))) by lia. cbn [andb negb].
  rewrite (proj2 (Z.ltb_lt _ _)); [done|]. unfold len in *. rewrite length_drop. lia.
Qed.

(** ** What the reader delivers *)

Definition lanes_of (l : Lane) (W : list Fr) : list (Z * list byte) :=
  omap (fun x => if bool_decide (x.1 = l) then Some x.2 else None) W.

Lemma lanes_of_cons l x W :
  lanes_of l (x :: W) = if bool_decide (x.1 = l) then x.2 :: lanes_of l W else lanes_of l W.
Proof. unfold lanes_of. cbn. by case_bool_decide. Qed.

Lemma lanes_of_app l V W : lanes_of l (V ++ W) = lanes_of l V ++ lanes_of l W.
Proof. apply omap_app. Qed.

(** The message in a completed body, if the reader hands it on. *)
Definition handed (b : list byte) : option Msg :=
  match decode b with Some MKeepAlive | None => None | Some m => Some m end.

(** Every body these frames complete holds a message of its lane. *)
Definition readable (r : Reassembler) (W : list Fr) : Prop :=
  forall l fs, fs `prefix_of` lanes_of l W ->
    exists a ds, lane_run (r l) fs = Some (a, ds) /\
      Forall (fun b => exists m, decode b = Some m /\ lane m = l) ds.

(** The messages come from a first part of the frames of each lane. *)
Definition from_frames (r : Reassembler) (W : list Fr) (whole : Prop) (D : list Msg) : Prop :=
  forall l, exists fs a ds, fs `prefix_of` lanes_of l W /\ (whole -> fs = lanes_of l W) /\
    lane_run (r l) fs = Some (a, ds) /\ List.filter (fun m => bool_decide (lane m = l)) D = omap handed ds.

Lemma from_nothing r W (whole : Prop) : (whole -> W = []) -> from_frames r W whole [].
Proof.
  intros Hw l. exists [], (r l), []. split; [apply prefix_nil|]. split; [|done].
  intros H. by rewrite (Hw H).
Qed.

Lemma from_frames_weaken r W (w w' : Prop) D : (w' -> w) -> from_frames r W w D -> from_frames r W w' D.
Proof.
  intros Hw H l. destruct (H l) as (fs & a & ds & K1 & K2 & K3). exists fs, a, ds.
  split; [done|]. split; [auto|done].
Qed.

Lemma readable_head r l fl c W : readable r ((l, (fl, c)) :: W) ->
  exists a ds, lane_run (r l) [(fl, c)] = Some (a, ds) /\
    Forall (fun b => exists m, decode b = Some m /\ lane m = l) ds.
Proof.
  intros H. apply (H l). rewrite lanes_of_cons, bool_decide_true by done. cbn [snd].
  apply prefix_cons, prefix_nil.
Qed.

(** After a frame the rest of them is readable in the new state. *)
Lemma readable_tail r r' l fl c W ds : readable r ((l, (fl, c)) :: W) ->
  lane_run (r l) [(fl, c)] = Some (r' l, ds) -> (forall l', l' <> l -> r' l' = r l') -> readable r' W.
Proof.
  intros H Hr Ho l' fs Hp. destruct (decide (l' = l)) as [->|Hn].
  - destruct (H l ((fl, c) :: fs)) as (a & ds' & E & F).
    { rewrite lanes_of_cons, bool_decide_true by done. by apply prefix_cons. }
    change ((fl, c) :: fs) with ([(fl, c)] ++ fs) in E. rewrite lane_run_app, Hr in E.
    destruct (lane_run (r' l) fs) as [[a' ds'']|]; [|done]. injection E as <- <-. exists a', ds''.
    split; [done|]. by apply Forall_app in F as [_ F].
  - rewrite (Ho l' Hn). apply H. rewrite lanes_of_cons, bool_decide_false by (cbn; congruence). done.
Qed.

Lemma handed_lane l ds : Forall (fun b => exists m, decode b = Some m /\ lane m = l) ds ->
  Forall (fun m => lane m = l) (omap handed ds).
Proof.
  rewrite !Forall_forall. intros H m (b & Hb & E)%list_elem_of_omap. destruct (H b Hb) as (m' & Em & <-).
  unfold handed in E. rewrite Em in E. destruct m'; by simplify_eq.
Qed.

Lemma filter_all {A} (p : A -> bool) l : Forall (fun x => p x = true) l -> List.filter p l = l.
Proof. induction 1 as [|x l Hx _ IH]; [done|]. cbn. by rewrite Hx, IH. Qed.
Lemma filter_none {A} (p : A -> bool) l : Forall (fun x => p x = false) l -> List.filter p l = [].
Proof. induction 1 as [|x l Hx _ IH]; [done|]. cbn. by rewrite Hx. Qed.

Lemma from_frames_cons r r' l fl c W whole ds D : 
  lane_run (r l) [(fl, c)] = Some (r' l, ds) -> (forall l', l' <> l -> r' l' = r l') ->
  Forall (fun b => exists m, decode b = Some m /\ lane m = l) ds ->
  from_frames r' W whole D -> from_frames r ((l, (fl, c)) :: W) whole (omap handed ds ++ D).
Proof.
  intros Hr Ho Hd H l'. destruct (H l') as (fs & a & ds' & H1 & H2 & H3 & H4). destruct (decide (l' = l)) as [->|Hn].
  - exists ((fl, c) :: fs), a, (ds ++ ds'). rewrite lanes_of_cons, bool_decide_true by done. cbn [snd].
    split; [by apply prefix_cons|]. split; [intros Hw; by rewrite (H2 Hw)|]. split.
    + change ((fl, c) :: fs) with ([(fl, c)] ++ fs). by rewrite lane_run_app, Hr, H3.
    + rewrite List.filter_app, omap_app, H4. f_equal. apply filter_all.
      eapply Forall_impl; [by apply handed_lane|]. intros m ->. by apply bool_decide_eq_true.
  - exists fs, a, ds'. rewrite lanes_of_cons, bool_decide_false by (cbn; congruence). rewrite <- (Ho l' Hn).
    split; [done|]. split; [done|]. split; [done|]. rewrite List.filter_app, H4, filter_none; [done|].
    eapply Forall_impl; [by apply handed_lane|]. intros m ->. by apply bool_decide_eq_false.
Qed.

Lemma prefix_concat_cons bs (x : Fr) W :
  bs `prefix_of` concat (map bytes_of (x :: W)) ->
  (exists bs', bs = bytes_of x ++ bs' /\ bs' `prefix_of` concat (map bytes_of W)) \/
  (bs `prefix_of` bytes_of x /\ bs <> bytes_of x).
Proof.
  intros [k E]. cbn [map concat] in E. destruct (decide (length (bytes_of x) <= length bs)%nat) as [Hl|Hl].
  - left. exists (drop (length (bytes_of x)) bs).
    assert (Et : take (length (bytes_of x)) bs = bytes_of x).
    { transitivity (take (length (bytes_of x)) (bs ++ k)); [by rewrite take_app_le|]. rewrite <- E. apply take_app_len. }
    assert (Eb : bs = bytes_of x ++ drop (length (bytes_of x)) bs) by (by rewrite <- Et at 1; rewrite take_drop).
    split; [done|]. exists k. apply (app_inv_head (bytes_of x)). by rewrite app_assoc, <- Eb.
  - right. split; [|intros ->; lia]. exists (drop (length bs) (bytes_of x)).
    assert (Et : take (length bs) (bytes_of x) = bs).
    { transitivity (take (length bs) (bytes_of x ++ concat (map bytes_of W))); [by rewrite take_app_le by lia|].
      rewrite E. apply take_app_len. }
    rewrite <- Et at 1. by rewrite take_drop.
Qed.

Lemma bytes_of_length x : (6 <= length (bytes_of x))%nat.
Proof. unfold bytes_of, frame. rewrite !length_app, length_be. cbn. lia. Qed.

(** Nothing interrupts the reader. *)
Definition undisturbed (stop : nat -> bool) (gap_ms : nat -> Z) (fence_ms : Z) : Prop :=
  forall i, stop i = false /\ gap_ms i <= fence_ms.

Lemma read_loop_frames stop gap fence W : forall fuel i r bs,
  Forall fr_ok W -> readable r W -> bs `prefix_of` concat (map bytes_of W) -> (length bs < fuel)%nat ->
  let whole := bs = concat (map bytes_of W) /\ undisturbed stop gap fence in
  from_frames r W whole (read_loop stop gap fence fuel i r bs).1.
Proof.
  induction W as [|[l [fl c]] W IH]; intros fuel i r bs HW Hr Hp Hf whole; (destruct fuel as [|fuel]; [lia|]); cbn [read_loop].
  { assert (bs = []) as -> by (by apply prefix_nil_inv). by apply from_nothing. }
  apply Forall_cons in HW as [Hx HW]. apply prefix_concat_cons in Hp as [(bs' & -> & Hp)|[Hp Hne]].
  2:{ rewrite (read_frame_cut (l, (fl, c)) bs Hx Hp Hne). apply from_nothing. intros [E _]. exfalso.
      cbn [map concat] in E. apply Hne. destruct Hp as [k Ek].
      assert (Hl : length bs = length (bytes_of (l, (fl, c)) ++ concat (map bytes_of W))) by (by rewrite <- E).
      rewrite Ek in Hl. rewrite !length_app in Hl. destruct k; [by rewrite Ek, app_nil_r|cbn in Hl; lia]. }
  rewrite (read_frame_got (l, (fl, c)) bs' Hx). cbn [fst snd].
  pose proof (bytes_of_length (l, (fl, c))) as H6. rewrite length_app in Hf.
  assert (Hwhole : whole -> bs' = concat (map bytes_of W) /\ undisturbed stop gap fence).
  { intros [E ?]. cbn [map concat] in E. by apply app_inv_head in E. }
  destruct (stop i) eqn:Es. { apply from_nothing. intros [_ Hu]. by destruct (Hu i) as [? _]; congruence. }
  destruct (Z.gtb_spec (gap i) fence) as [Hg|Hg]. { apply from_nothing. intros [_ Hu]. destruct (Hu i). lia. }
  destruct (readable_head _ _ _ _ _ Hr) as (a & ds & Erun & Hds).
  pose proof (push_lane r l fl c) as Hpush. destruct (Wire.push r l fl c) as [r' [|b|]].
  - destruct Hpush as [E Ho]. rewrite E in Erun. injection Erun as <- <-.
    specialize (IH fuel (S i) r' bs' HW (readable_tail _ _ _ _ _ _ _ Hr E Ho) Hp ltac:(lia)). cbv zeta in IH.
    apply (from_frames_cons r r' l fl c W whole [] _ E Ho Hds). by apply (from_frames_weaken _ _ _ _ _ Hwhole).
  - destruct Hpush as [E Ho]. rewrite E in Erun. injection Erun as <- <-.
    specialize (IH fuel (S i) r' bs' HW (readable_tail _ _ _ _ _ _ _ Hr E Ho) Hp ltac:(lia)). cbv zeta in IH.
    apply (from_frames_weaken _ _ _ _ _ Hwhole) in IH.
    pose proof (from_frames_cons r r' l fl c W whole [b] _ E Ho Hds IH) as H.
    apply Forall_cons in Hds as [(m & Em & _) _]. cbn in H. unfold handed in H. rewrite Em in *.
    by destruct m; destruct (read_loop stop gap fence fuel (S i) r' bs').
  - by rewrite Hpush in Erun.
Qed.

(** ** What the writer sends *)

Definition not_ka (m : Msg) : bool := match m with MKeepAlive => false | _ => true end.

Definition framed (l : Lane) (fc : Z * list byte) : list byte := bytes_of (l, fc).

(** The state of a run: [W] is on the wire, [Q] is queued, and together they are the
    frames of [S], the messages of each lane in order, keepalives included. *)
Record tracks (r : Run) (W : list Fr) (Q : Lane -> list (Z * list byte)) (S : Lane -> list Msg) : Prop := {
  tr_open : closing (ob r) = None;
  tr_wire : wire r = concat (map bytes_of W);
  tr_q : forall l, q (ob r) l = map (framed l) (Q l);
  tr_seq : forall l, lanes_of l W ++ Q l = concat (map parts (S l));
  tr_log : forall l, List.filter not_ka (S l) = lane_msgs l (log r);
  tr_lane : forall l, Forall (fun m => lane m = l /\ (m ∈ log r \/ m = MKeepAlive)) (S l) }.

Definition upd_lane {A} (l : Lane) (v : A) (f : Lane -> A) : Lane -> A :=
  fun l' => if bool_decide (l' = l) then v else f l'.

Lemma lane_msgs_app l a b : lane_msgs l (a ++ b) = lane_msgs l a ++ lane_msgs l b.
Proof. apply List.filter_app. Qed.

Lemma tracks_push r W Q S m : tracks r W Q S -> exists Q' S', tracks (op r (OpPush m)) W Q' S'.
Proof.
  intros [H1 H2 H3 H4 H5 H6]. cbn [op]. unfold push, frames. rewrite H1.
  destruct (match cap (lane m) with Some c => _ | None => false end).
  { exists Q, S. by destruct (bool_decide (lane m = Data)); split. }
  exists (upd_lane (lane m) (Q (lane m) ++ parts m) Q), (upd_lane (lane m) (S (lane m) ++ [m]) S).
  split; cbn [ob wire log closing q]; [done|done|..]; intros l; unfold set_q, upd_lane; case_bool_decide as Hl; subst.
  - rewrite H3, map_app. f_equal.
  - done.
  - by rewrite map_app, concat_app, app_assoc, H4; cbn; rewrite app_nil_r.
  - done.
  - rewrite List.filter_app, H5, lane_msgs_app. f_equal. cbn. unfold on_lane. rewrite bool_decide_true by done. by destruct m.
  - rewrite lane_msgs_app, H5. cbn. unfold on_lane. rewrite bool_decide_false by done. by rewrite app_nil_r.
  - apply Forall_app. split.
    + eapply Forall_impl; [apply H6|]. intros x [? [?|?]]; (split; [done|]); [left; apply elem_of_app; by left|by right].
    + constructor; [|done]. split; [done|]. left. apply elem_of_app. right. by apply list_elem_of_singleton.
  - eapply Forall_impl; [apply H6|]. intros x [? [?|?]]; (split; [done|]); [left; apply elem_of_app; by left|by right].
Qed.

(** Taking a frame from the queues. *)
Lemma pop_front_some ls f Q fr f' : (forall l, f l = map (framed l) (Q l)) -> pop_front ls f = Some (fr, f') ->
  exists l fc rest, Q l = fc :: rest /\ fr = bytes_of (l, fc) /\ forall l', f' l' = map (framed l') (upd_lane l rest Q l').
Proof.
  intros Hf. induction ls as [|l ls IH]; cbn [pop_front]; [done|]. rewrite Hf.
  destruct (Q l) as [|fc rest] eqn:Eq; cbn [map]; [apply IH|]. intros [= <- <-]. exists l, fc, rest.
  split; [done|]. split; [done|]. intros l'. unfold set_q, upd_lane. case_bool_decide as Hl; [by subst|apply Hf].
Qed.

Lemma pop_front_none ls f : pop_front ls f = None -> forall l, l ∈ ls -> f l = [].
Proof.
  induction ls as [|l ls IH]; cbn [pop_front]; [by intros _ l ?%not_elem_of_nil|].
  destruct (f l) eqn:E; [|done]. intros H l' [->|Hl]%elem_of_cons; [done|by apply IH].
Qed.

Lemma elem_of_all_lanes l : l ∈ all_lanes.
Proof. unfold all_lanes. destruct l; set_solver. Qed.

(** A batch moves frames from the queues to the wire, in order on each lane. *)
Lemma fill_moves fuel f Q out : (forall l, f l = map (framed l) (Q l)) ->
  exists V Q', let r := fill fuel f out in
    r.1 = out ++ concat (map bytes_of V) /\ (forall l, r.2 l = map (framed l) (Q' l)) /\
    (forall l, Q l = lanes_of l V ++ Q' l) /\ (r.1 = [] -> (0 < fuel)%nat -> forall l, Q l = []).
Proof.
  revert f Q out. induction fuel as [|fuel IH]; intros f Q out Hf; cbn [fill].
  { exists [], Q. cbn. rewrite app_nil_r. split; [done|]. split; [done|]. split; [done|lia]. }
  destruct (Z.ltb_spec (len out) WRITE_BATCH) as [Hlt|Hge].
  2:{ exists [], Q. cbn. rewrite app_nil_r. split; [done|]. split; [done|]. split; [done|].
      intros -> . rewrite len_nil in Hge. unfold WRITE_BATCH in Hge. lia. }
  destruct (pop_front all_lanes f) as [[fr f']|] eqn:E.
  - destruct (pop_front_some _ _ _ _ _ Hf E) as (l & fc & rest & Eq & -> & Hf').
    destruct (IH f' (upd_lane l rest Q) (out ++ bytes_of (l, fc)) Hf') as (V & Q' & E1 & E2 & E3 & _).
    exists ((l, fc) :: V), Q'. cbv zeta. split; [by rewrite E1, <- app_assoc|]. split; [done|]. split.
    + intros l'. rewrite lanes_of_cons. cbn [fst snd]. specialize (E3 l'). unfold upd_lane in E3.
      destruct (decide (l' = l)) as [->|Hl].
      * rewrite bool_decide_true in E3 by done. rewrite bool_decide_true by done. by rewrite Eq, E3.
      * rewrite bool_decide_false in E3 by done. rewrite bool_decide_false by congruence. done.
    + rewrite E1, <- app_assoc. intros Hn. exfalso. apply app_nil in Hn as [_ Hn]. apply app_nil in Hn as [Hn _].
      pose proof (bytes_of_length (l, fc)). by rewrite Hn in *; cbn in *; lia.
  - exists [], Q. cbn [fst snd map concat]. rewrite app_nil_r. split; [done|]. split; [done|]. split; [done|].
    intros _ _ l. pose proof (pop_front_none _ _ E l (elem_of_all_lanes l)) as H. rewrite Hf in H. by apply map_eq_nil in H.
Qed.

Lemma ka_frames : concat (frames MKeepAlive).2 = concat (map bytes_of (map (pair Control) (parts MKeepAlive))).
Proof. reflexivity. Qed.

Lemma lanes_of_pair l l' fs : lanes_of l' (map (pair l) fs) = if bool_decide (l = l') then fs else [].
Proof.
  induction fs as [|fc fs IH]; [by case_bool_decide|]. cbn [map]. rewrite lanes_of_cons, IH. cbn [fst snd].
  by case_bool_decide.
Qed.

Lemma tracks_write r W Q S idle : tracks r W Q S -> exists W' Q' S', tracks (op r (OpWrite idle)) W' Q' S'.
Proof.
  intros [H1 H2 H3 H4 H5 H6]. cbn [op]. unfold write_turn, pop. rewrite H1.
  destruct (fill_moves (Datatypes.S (count (q (ob r)))) _ Q [] H3) as (V & Q' & E1 & E2 & E3 & E4). cbv zeta in *.
  destruct (fill _ (q (ob r)) []) as [out f]. cbn [fst snd] in *. rewrite app_nil_l in E1.
  destruct out as [|x out]; [destruct idle|].
  - specialize (E4 eq_refl ltac:(lia)).
    exists (W ++ map (pair Control) (parts MKeepAlive)), Q', (upd_lane Control (S Control ++ [MKeepAlive]) S).
    assert (Q0 : forall l, Q' l = []). { intros l. specialize (E3 l). rewrite (E4 l) in E3. by symmetry in E3; apply app_nil in E3 as [_ ?]. }
    split; cbn [ob wire log closing q]; [done| |done|..].
    + by rewrite ka_frames, H2, map_app, concat_app.
    + intros l. rewrite lanes_of_app, lanes_of_pair, Q0, app_nil_r. specialize (H4 l). rewrite (E4 l), app_nil_r in H4.
      rewrite H4. unfold upd_lane. destruct (decide (l = Control)) as [->|Hl].
      * rewrite !bool_decide_true by done. by rewrite map_app, concat_app; cbn [map concat]; rewrite app_nil_r.
      * rewrite !bool_decide_false by congruence. by rewrite app_nil_r.
    + intros l. unfold upd_lane. case_bool_decide as Hl; [|apply H5]. subst. rewrite List.filter_app, H5. cbn. by rewrite app_nil_r.
    + intros l. unfold upd_lane. case_bool_decide as Hl; [|apply H6]. subst. apply Forall_app. split; [apply H6|].
      constructor; [|done]. split; [done|by right].
  - exists (W ++ V), Q', S. split; cbn [ob wire log closing q]; [done| |done| |done|done].
    + by rewrite H2, map_app, concat_app, <- E1.
    + intros l. by rewrite lanes_of_app, <- app_assoc, <- E3.
  - exists (W ++ V), Q', S. split; cbn [ob wire log closing q]; [done| |done| |done|done].
    + by rewrite H2, map_app, concat_app, <- E1.
    + intros l. by rewrite lanes_of_app, <- app_assoc, <- E3.
Qed.

Lemma tracks_run xs : exists W Q S, tracks (run xs) W Q S.
Proof.
  unfold run. assert (H0 : tracks (mkRun (new_outbox 0) [] []) [] (fun _ => []) (fun _ => [])) by (by split).
  revert H0. generalize (mkRun (new_outbox 0) [] []) as r, (@nil Fr) as W, (fun _ : Lane => @nil (Z * list byte)) as Q,
    (fun _ : Lane => @nil Msg) as S.
  induction xs as [|x xs IH]; intros r W Q S H; [by exists W, Q, S|]. cbn [fold_left]. destruct x as [m|idle].
  - destruct (tracks_push r W Q S m H) as (Q' & S' & H'). by apply (IH _ _ _ _ H').
  - destruct (tracks_write r W Q S idle H) as (W' & Q' & S' & H'). by apply (IH _ _ _ _ H').
Qed.

(** ** First in, first out *)

(** A message that can be sent: its fields are in range and it is not too long. *)
Definition sendable (m : Msg) : Prop := msg_ok m /\ len (encode m) <= MSG_MAX.

Lemma flagged_ok cs : Forall (fun c => (length c <= ROOM)%nat) cs ->
  Forall (fun fc => is_u8 fc.1 /\ (length fc.2 <= ROOM)%nat) (flagged cs).
Proof.
  induction 1 as [|c cs Hc Hcs IH]; [constructor|]. destruct cs as [|c' cs].
  - constructor; [|constructor]. split; [by unfold is_u8|done].
  - constructor; [|done]. split; [by unfold is_u8|done].
Qed.

Lemma parts_ok m : Forall (fun fc => is_u8 fc.1 /\ (length fc.2 <= ROOM)%nat) (parts m).
Proof. destruct (parts_flagged m) as (cs & _ & -> & _ & H). by apply flagged_ok. Qed.

Lemma frames_ok W (S : Lane -> list Msg) : (forall l, lanes_of l W `prefix_of` concat (map parts (S l))) -> Forall fr_ok W.
Proof.
  intros H. apply Forall_forall. intros [l fc] Hx.
  assert (Hin : fc ∈ lanes_of l W).
  { unfold lanes_of. apply list_elem_of_omap. exists (l, fc). split; [done|]. cbn. by rewrite bool_decide_true. }
  destruct (H l) as [k E]. assert (Hp : fc ∈ concat (map parts (S l))) by (rewrite E; apply elem_of_app; by left).
  apply list_elem_of_In, in_concat in Hp as (ps & (m & <- & _)%in_map_iff & Hp%list_elem_of_In).
  pose proof (parts_ok m) as Hm. rewrite Forall_forall in Hm. by apply Hm.
Qed.

Lemma handed_encode ms : Forall sendable ms -> omap handed (map encode ms) = List.filter not_ka ms.
Proof.
  induction 1 as [|m ms [Hm _] _ IH]; [done|]. cbn [map List.filter].
  change (omap handed (encode m :: map encode ms)) with
    (match handed (encode m) with Some x => x :: omap handed (map encode ms) | None => omap handed (map encode ms) end).
  unfold handed at 1. rewrite msg_decode_encode by done. rewrite IH. by destruct m.
Qed.

Lemma lane_msgs_idem l D ms : List.filter (fun m => bool_decide (lane m = l)) D = List.filter not_ka ms ->
  lane_msgs l D = List.filter not_ka ms.
Proof.
  intros E. transitivity (List.filter not_ka (List.filter (fun m => bool_decide (lane m = l)) D)).
  - unfold lane_msgs, on_lane. clear E. induction D as [|m D IH]; [done|]. cbn [List.filter].
    destruct (bool_decide (lane m = l)); cbn [andb List.filter]; [|done].
    unfold not_ka at 2. fold not_ka. destruct m; cbn [not_ka]; by rewrite IH.
  - rewrite E. apply filter_all. rewrite Forall_forall. intros m Hm. apply list_elem_of_In, filter_In in Hm. apply Hm.
Qed.

Lemma filter_take_prefix {A} (p : A -> bool) k l : List.filter p (take k l) `prefix_of` List.filter p l.
Proof. rewrite <- (take_drop k l) at 2. rewrite List.filter_app. by eexists. Qed.

(** The reader, fed with what a run has written. *)
Lemma reader_lanes r W Q S stop gap fence bs l :
  tracks r W Q S -> Forall sendable (log r) -> bs `prefix_of` wire r ->
  exists k, lane_msgs l (read_all stop gap fence bs).1 = List.filter not_ka (take k (S l)) /\
    (bs = wire r -> undisturbed stop gap fence -> Q l = [] -> take k (S l) = S l).
Proof.
  intros [_ H2 _ H4 _ H6] Hlog Hp. rewrite H2 in Hp.
  assert (HS : forall l, Forall sendable (S l)).
  { intros l'. eapply Forall_impl; [apply H6|]. intros m [_ [Hm| ->]]; [|by split].
    rewrite Forall_forall in Hlog. by apply Hlog. }
  assert (Hsz : forall l, Forall (fun m => len (encode m) <= MSG_MAX) (S l)).
  { intros l'. eapply Forall_impl; [apply HS|]. by intros m [_ ?]. }
  assert (Hpre : forall l, lanes_of l W `prefix_of` concat (map parts (S l))).
  { intros l'. rewrite <- H4. by eexists. }
  assert (Hread : readable fresh W).
  { intros l' fs Hfs. destruct (lane_run_prefix (S l') fs (Hsz l')) as (a & k & E).
    { etransitivity; [exact Hfs|apply Hpre]. }
    exists a, (map encode (take k (S l'))). split; [done|]. apply Forall_forall.
    intros b (m & <- & Hm)%list_elem_of_In%in_map_iff. exists m.
    assert (m ∈ S l') by (rewrite <- (take_drop k (S l')); apply elem_of_app; left; by apply list_elem_of_In).
    pose proof (HS l') as HS'. pose proof (H6 l') as H6'. rewrite Forall_forall in HS', H6'.
    split; [by apply msg_decode_encode, HS'|by apply H6']. }
  pose proof (read_loop_frames stop gap fence W (Datatypes.S (length bs)) 0 fresh bs (frames_ok W S Hpre) Hread Hp
    ltac:(lia) l) as (fs & a & ds & K1 & K2 & K3 & K4). fold (read_all stop gap fence bs) in K4.
  destruct (lane_run_prefix (S l) fs (Hsz l)) as (a' & k & E); [etransitivity; [exact K1|apply Hpre]|].
  change (fresh l) with (@nil byte) in K3. rewrite E in K3. injection K3 as _ <-.
  rewrite handed_encode in K4 by (apply Forall_take; apply HS).
  exists k. split; [by apply lane_msgs_idem|]. intros -> Hu HQ. rewrite K2 in E by done.
  specialize (H4 l). rewrite HQ, app_nil_r in H4. rewrite H4, lane_run_msgs in E by done. injection E as _ E.
  symmetry. apply (f_equal length) in E. rewrite !length_map, length_take in E. by rewrite take_ge by lia.
Qed.

(** C26: Messages arrive as they were queued: wherever the connection breaks, and whenever the
    reader is stopped or fenced off, what the other end was handed on each lane is a first
    part of what this end queued on it, in order, whole and unchanged. *)
Theorem mesh_session_prefix xs stop gap fence bs l :
  Forall sendable (log (run xs)) -> bs `prefix_of` wire (run xs) ->
  lane_msgs l (read_all stop gap fence bs).1 `prefix_of` lane_msgs l (log (run xs)).
Proof.
  intros Hlog Hp. destruct (tracks_run xs) as (W & Q & S & H).
  destruct (reader_lanes _ _ _ _ stop gap fence bs l H Hlog Hp) as (k & -> & _).
  rewrite <- (tr_log _ _ _ _ H). apply filter_take_prefix.
Qed.

(** Two messages queued, one turn of the writer, and the connection cut inside the second. *)
Definition cut_short : list Op := [OpPush (MPut "k" [x01]); OpPush (MPut "k" [x02]); OpWrite false].

Lemma cut_short_sendable : Forall sendable (log (run cut_short)).
Proof.
  assert (log (run cut_short) = [MPut "k" [x01]; MPut "k" [x02]]) as -> by (vm_compute; reflexivity).
  repeat constructor; vm_compute; discriminate || reflexivity.
Qed.

Lemma mesh_session_prefix_witness :
  let got := (read_all (fun _ => false) (fun _ => 0) 10 (take 20 (wire (run cut_short)))).1 in
  got = [MPut "k" [x01]] /\ lane_msgs Data got `prefix_of` lane_msgs Data (log (run cut_short)).
Proof.
  split; [vm_compute; reflexivity|].
  apply (mesh_session_prefix cut_short (fun _ => false) (fun _ => 0) 10 _ Data cut_short_sendable). apply prefix_take.
Defined.

(** And nothing is missing once the queues are empty and every byte has arrived at a
    reader that was not disturbed. *)
Theorem mesh_session_complete xs stop gap fence l :
  Forall sendable (log (run xs)) -> undisturbed stop gap fence ->
  depths (ob (run xs)) = [0; 0; 0; 0] ->
  lane_msgs l (read_all stop gap fence (wire (run xs))).1 = lane_msgs l (log (run xs)).
Proof.
  intros Hlog Hu Hd. destruct (tracks_run xs) as (W & Q & S & H).
  destruct (reader_lanes _ _ _ _ stop gap fence _ l H Hlog (reflexivity _)) as (k & -> & K).
  rewrite <- (tr_log _ _ _ _ H), K; [done|done|done|].
  assert (len (q (ob (run xs)) l) = 0) as E by (injection Hd as ? ? ? ?; by destruct l).
  rewrite (tr_q _ _ _ _ H) in E. unfold len in E. rewrite length_map in E. by destruct (Q l).
Qed.

Lemma mesh_session_complete_witness :
  lane_msgs Data (read_all (fun _ => false) (fun _ => 0) 10 (wire (run cut_short))).1 = lane_msgs Data (log (run cut_short)).
Proof.
  apply (mesh_session_complete cut_short (fun _ => false) (fun _ => 0) 10 Data cut_short_sendable); [|vm_compute; reflexivity].
  intros i. split; [reflexivity|lia].
Defined.

(** After [close] nothing more is queued, and what was is given up for the closing
    message, which is sent once. *)
Theorem mesh_session_close o r m :
  closing o = None ->
  let o1 := close (Some r) o in
  push m o1 = (o1, Closed) /\ (pop o1).2 = PClose (Some (concat (frames (MClose r)).2)) /\
  (forall l, q (pop o1).1 l = []) /\ (pop (pop o1).1).2 = PClose None.
Proof. intros Ho. unfold close. rewrite Ho. cbn [closing]. done. Qed.

End Sess.
