(* ===== verification/MeshIndex.v ===== *)
(** * The subscription index of a mesh node

    crates/oxmesh/src/core.rs, [SubIndex]: subscriptions by owner and number, those with
    a concrete expression also under the expression itself, the others in a set that is
    gone through with [intersects].  The index finds what a walk over all subscriptions
    would find. *)

From S2P Require Import Prelude Keyexpr.

Module Idx.

Inductive Owner := OLocal (id : Z) | OSess (uid : Z).
#[export] Instance Owner_eq_dec : EqDecision Owner. Proof. solve_decision. Defined.
#[export] Instance Owner_countable : Countable Owner.
Proof.
  refine (inj_countable' (fun o => match o with OLocal i => inl i | OSess u => inr u end)
    (fun x => match x with inl i => OLocal i | inr u => OSess u end) _). by intros [].
Defined.

Abbreviation SubId := (prod Owner Z).

Record SubIndex := mkIdx {
  exprs : gmap SubId string;
  exact : gmap string (gset SubId);
  wild : gset SubId }.

Definition empty : SubIndex := mkIdx ∅ ∅ ∅.

Definition remove (k : SubId) (x : SubIndex) : SubIndex :=
  match exprs x !! k with
  | None => x
  | Some e =>
    let ex :=
      match exact x !! e with
      | Some set =>
        let set := set ∖ {[k]} in
        if bool_decide (set = ∅) then delete e (exact x) else <[e := set]> (exact x)
      | None => exact x
      end in
    mkIdx (delete k (exprs x)) ex (wild x ∖ {[k]})
  end.

Definition add (k : SubId) (expr : string) (x : SubIndex) : SubIndex :=
  let x := remove k x in
  if Kx.concrete expr then
    mkIdx (<[k := expr]> (exprs x)) (<[expr := default ∅ (exact x !! expr) ∪ {[k]}]> (exact x)) (wild x)
  else mkIdx (<[k := expr]> (exprs x)) (exact x) (wild x ∪ {[k]}).

Definition hits (x : SubIndex) (key : string) (k : SubId) : bool :=
  match exprs x !! k with Some e => Kx.intersects e key | None => false end.

Definition matching (key : string) (x : SubIndex) : list SubId :=
  elements (default ∅ (exact x !! key)) ++ List.filter (hits x key) (elements (wild x)).

(** ** The index against a walk over all subscriptions *)

Definition Inv (x : SubIndex) : Prop :=
  (forall e set k, exact x !! e = Some set -> k ∈ set -> exprs x !! k = Some e) /\
  (forall k e, exprs x !! k = Some e ->
     if Kx.concrete e then ((k ∉ wild x) /\ exists set, exact x !! e = Some set /\ k ∈ set) else (k ∈ wild x)) /\
  (forall k, k ∈ wild x -> is_Some (exprs x !! k)).

Lemma inv_empty : Inv empty.
Proof. split; [|split]; intros *; cbn; rewrite ?lookup_empty; done || set_solver. Qed.

(** A subscription is gone after [remove], and all others are where they were. *)
Lemma remove_spec k x : Inv x -> Inv (remove k x) /\ exprs (remove k x) = delete k (exprs x).
Proof.
  intros Hi. pose proof Hi as (H1 & H2 & H3). unfold remove. destruct (exprs x !! k) as [e|] eqn:Ek.
  2:{ split; [done|]. by rewrite delete_id. }
  split; [|done]. cbn.
  set (ex := match exact x !! e with Some set => _ | None => _ end).
  assert (Hex : forall e' k', k' <> k ->
    (exists set, ex !! e' = Some set /\ k' ∈ set) <-> (exists set, exact x !! e' = Some set /\ k' ∈ set)).
  { intros e' k' Hne. unfold ex. destruct (exact x !! e) as [set|] eqn:E; [|done].
    case_bool_decide as Hs; destruct (decide (e' = e)) as [->|Hn].
    - rewrite lookup_delete_eq, E. split; [by intros (? & ? & _)|]. intros (s & [= <-] & Hk). exfalso. set_solver.
    - by rewrite lookup_delete_ne.
    - rewrite lookup_insert_eq, E. split; intros (s & [= <-] & Hk); eexists; (split; [done|]); set_solver.
    - by rewrite lookup_insert_ne. }
  assert (Hk : forall e' set, ex !! e' = Some set -> k ∉ set).
  { intros e' set. unfold ex. destruct (exact x !! e) as [s0|] eqn:E.
    - case_bool_decide; destruct (decide (e' = e)) as [->|Hn].
      + by rewrite lookup_delete_eq.
      + rewrite lookup_delete_ne by done. intros Hs Hin. apply Hn. specialize (H1 _ _ _ Hs Hin). congruence.
      + rewrite lookup_insert_eq. intros [= <-]. set_solver.
      + rewrite lookup_insert_ne by done. intros Hs Hin. apply Hn. specialize (H1 _ _ _ Hs Hin). congruence.
    - intros Hs Hin. specialize (H1 _ _ _ Hs Hin). congruence. }
  clearbody ex. split; [|split]; cbn.
  - intros e' set k' Hs Hin. assert (k' <> k) by (intros ->; by eapply Hk). rewrite lookup_delete_ne by done.
    destruct (proj1 (Hex e' k' ltac:(done)) (ex_intro _ set (conj Hs Hin))) as (s' & Hs' & Hin'). by eapply H1.
  - intros k' e' Hk'. apply lookup_delete_Some in Hk' as [Hne Hk']. specialize (H2 _ _ Hk').
    destruct (Kx.concrete e'); [|set_solver]. destruct H2 as [Hw Hs]. split; [set_solver|]. by apply Hex.
  - intros k' Hk'. apply elem_of_difference in Hk' as [Hw Hn]. rewrite lookup_delete_ne by set_solver. by apply H3.
Qed.

Lemma add_spec k e x : Inv x -> Inv (add k e x) /\ exprs (add k e x) = <[k := e]> (exprs x).
Proof.
  intros Hi. destruct (remove_spec k x Hi) as [(H1 & H2 & H3) Er]. unfold add. set (y := remove k x) in *. clearbody y.
  assert (Hk : exprs y !! k = None) by (rewrite Er; apply lookup_delete_eq).
  assert (Hex : forall e' set, exact y !! e' = Some set -> k ∉ set) by (intros e' set Hs Hin; specialize (H1 _ _ _ Hs Hin); congruence).
  assert (Hw : k ∉ wild y) by (intros Hin; apply H3 in Hin as [? ?]; congruence).
  destruct (Kx.concrete e) eqn:Ec; (split; [|cbn; by rewrite Er, insert_delete_eq]); split; [|split| |split]; cbn.
  - intros e' set k' Hs Hin. destruct (decide (e' = e)) as [->|Hn].
    + rewrite lookup_insert_eq in Hs. injection Hs as <-. apply elem_of_union in Hin as [Hin|Hin].
      * destruct (exact y !! e) as [s|] eqn:E; [|set_solver]. cbn in Hin. rewrite lookup_insert_ne; [by eapply H1|].
        intros <-. by eapply Hex.
      * apply elem_of_singleton in Hin as ->. apply lookup_insert_eq.
    + rewrite lookup_insert_ne in Hs by done. rewrite lookup_insert_ne; [by eapply H1|]. intros <-. by eapply Hex.
  - intros k' e' Hk'. apply lookup_insert_Some in Hk' as [[<- <-]|[Hne Hk']].
    + rewrite Ec. split; [done|]. rewrite lookup_insert_eq. eexists. split; [done|]. set_solver.
    + specialize (H2 _ _ Hk'). destruct (Kx.concrete e'); [|done]. destruct H2 as [Hw' (s & Hs & Hin)]. split; [done|].
      destruct (decide (e' = e)) as [->|Hn]; [rewrite lookup_insert_eq, Hs|rewrite lookup_insert_ne by done]; eexists; (split; [done|]); set_solver.
  - intros k' Hin. destruct (decide (k' = k)) as [->|]; [rewrite lookup_insert_eq; eauto|]. rewrite lookup_insert_ne by done. by apply H3.
  - intros e' set k' Hs Hin. rewrite lookup_insert_ne; [by eapply H1|]. intros <-. by eapply Hex.
  - intros k' e' Hk'. apply lookup_insert_Some in Hk' as [[<- <-]|[Hne Hk']]; [rewrite Ec; set_solver|].
    specialize (H2 _ _ Hk'). destruct (Kx.concrete e'); [|set_solver]. split; [set_solver|]. by destruct H2.
  - intros k' Hin. destruct (decide (k' = k)) as [->|]; [rewrite lookup_insert_eq; eauto|]. rewrite lookup_insert_ne by done.
    apply H3. set_solver.
Qed.

(** *** A concrete expression meets a key only if it is that key *)

Lemma pieces_inj a b : a <> "" -> b <> "" -> Kx.pieces a = Kx.pieces b -> a = b.
Proof.
  intros Ha Hb. unfold Kx.pieces. rewrite !bool_decide_false by done. intros H.
  by rewrite <- (Kx.join_split a), <- (Kx.join_split b), H.
Qed.

Lemma matches_literals ps ks : Forall Kx.literal ps -> Kx.matches ps ks -> ks = ps.
Proof.
  intros Hl. revert ks. induction Hl as [|p ps Hp _ IH]; intros ks H; [by inversion H|].
  inversion H as [|c x e k Hc Hx Hm| |]; subst; [|by destruct Hp as (_ & ? & _)..].
  destruct Hx as [->| ->]; [by destruct Hp as (_ & ? & _)|]. f_equal. by apply IH.
Qed.

Lemma concrete_intersects e key : Kx.is_key e -> Kx.is_key key -> Kx.intersects e key = true <-> e = key.
Proof.
  intros [Ve Ce] [Vk Ck]. split.
  - intros (k & _ & H1 & H2)%Kx.intersects_iff; try done.
    pose proof (proj1 (Kx.valid_wf e) Ve) as [Ne We]. pose proof (proj1 (Kx.valid_wf key) Vk) as [Nk Wk].
    apply pieces_inj; [done..|]. apply matches_literals in H1, H2; [congruence|by apply Kx.pieces_concrete..].
  - intros ->. unfold Kx.intersects. by rewrite bool_decide_true.
Qed.

Lemma elem_of_filter_list {A} (p : A -> bool) l x : x ∈ List.filter p l <-> p x = true /\ x ∈ l.
Proof. rewrite !list_elem_of_In, filter_In. tauto. Qed.

(** What [matching] finds, each once. *)
Lemma matching_spec x key : Inv x -> Kx.is_key key -> map_Forall (fun _ e => Kx.valid e = true) (exprs x) ->
  NoDup (matching key x) /\ forall k, k ∈ matching key x <-> exists e, exprs x !! k = Some e /\ Kx.intersects e key = true.
Proof.
  intros (H1 & H2 & H3) Hk Hv.
  assert (Hex : forall k, k ∈ (default ∅ (exact x !! key)) <-> exprs x !! k = Some key).
  { intros k. split.
    - destruct (exact x !! key) as [s|] eqn:E; [|set_solver]. intros Hin. by eapply H1.
    - intros He. specialize (H2 _ _ He). destruct Hk as [_ Hc]. rewrite Hc in H2. destruct H2 as (_ & s & -> & Hin). done. }
  unfold matching. split.
  - apply NoDup_app. split; [apply NoDup_elements|]. split; [|apply NoDup_ListNoDup, List.NoDup_filter, NoDup_ListNoDup, NoDup_elements].
    intros k. rewrite elem_of_elements, elem_of_filter_list, elem_of_elements. intros He%Hex [_ Hw].
    specialize (H2 _ _ He). destruct Hk as [_ Hc]. rewrite Hc in H2. by destruct H2.
  - intros k. rewrite elem_of_app, elem_of_filter_list, !elem_of_elements, Hex. unfold hits. split.
    + intros [He|[Hh Hw]].
      * exists key. split; [done|]. apply concrete_intersects; done.
      * destruct (exprs x !! k) as [e|]; [by exists e|done].
    + intros (e & He & Hi). rewrite He. specialize (Hv _ _ He). cbv beta in Hv. specialize (H2 _ _ He).
      destruct (Kx.concrete e) eqn:Ec; [left|by right]. f_equal. apply concrete_intersects in Hi; [by subst|by split|done].
Qed.

(** ** Any history of subscriptions *)

Inductive Op := Add (k : SubId) (expr : string) | Remove (k : SubId).
Definition op (x : SubIndex) (o : Op) : SubIndex :=
  match o with Add k e => add k e x | Remove k => remove k x end.

(** The subscriptions there are, with no index. *)
Definition op_ref (m : gmap SubId string) (o : Op) : gmap SubId string :=
  match o with Add k e => <[k := e]> m | Remove k => delete k m end.
Definition op_valid (o : Op) : Prop := match o with Add _ e => Kx.valid e = true | Remove _ => True end.

Lemma ops_ref os : forall x, Inv x -> map_Forall (fun _ e => Kx.valid e = true) (exprs x) -> Forall op_valid os ->
  let y := fold_left op os x in
  Inv y /\ exprs y = fold_left op_ref os (exprs x) /\ map_Forall (fun _ e => Kx.valid e = true) (exprs y).
Proof.
  induction os as [|o os IH]; intros x Hx Hv Hos; [done|]. apply Forall_cons in Hos as [Ho Hos]. cbn [fold_left].
  assert (H : Inv (op x o) /\ exprs (op x o) = op_ref (exprs x) o).
  { destruct o; cbn [op op_ref]; [by apply add_spec|by apply remove_spec]. }
  destruct H as [H E]. rewrite <- E. apply IH; [done| |done]. rewrite E. destruct o; cbn [op_ref op_valid] in *.
  - by apply map_Forall_insert_2.
  - by apply map_Forall_delete.
Qed.

(** After any sequence of subscriptions and unsubscriptions, the index finds for a key
    exactly the subscriptions whose expression intersects it, each once. *)
Theorem mesh_index_exact os key :
  Forall op_valid os -> Kx.is_key key ->
  let x := fold_left op os empty in
  NoDup (matching key x) /\
  forall k, k ∈ matching key x <-> exists e, fold_left op_ref os ∅ !! k = Some e /\ Kx.intersects e key = true.
Proof.
  intros Hos Hk x. destruct (ops_ref os empty inv_empty (map_Forall_empty _) Hos) as (H1 & H2 & H3). fold x in H1, H2, H3.
  destruct (matching_spec x key H1 Hk H3) as [N M]. split; [done|]. intros k. rewrite M, H2. done.
Qed.

Lemma mesh_index_exact_witness :
  (OSess 1, 2) ∈ matching "ox/a" (fold_left op [Add (OSess 1, 2) "ox/*"; Add (OLocal 3, 3) "ox/a"; Remove (OLocal 3, 3)] empty).
Proof.
  apply (mesh_index_exact [Add (OSess 1, 2) "ox/*"; Add (OLocal 3, 3) "ox/a"; Remove (OLocal 3, 3)] "ox/a").
  - repeat constructor.
  - split; vm_compute; reflexivity.
  - exists "ox/*". split; vm_compute; reflexivity.
Defined.

End Idx.
