(* ===== verification/MeshCore.v ===== *)
(** * A node of the mesh

    crates/oxmesh/src/core.rs, [Core]: the one task that owns a node's state.  It keeps
    the sessions with other nodes, the declarations of this node and of the nodes behind
    those sessions (tokens, subscriptions, queryables), the count of each token, and the
    queries under way.  Every handler is a function on the state that also returns what
    it hands to local channels; what it sends to another node goes through that session's
    outbox ([Sess.push] of MeshSession).

    Where the sources go through a [HashMap], the model goes through its finite map in the
    map's own order; numbers that only count up are unbounded here.  A local subscriber,
    queryable or token subscriber is the number of its declaration, the caller of [get] a
    channel number of its own. *)

From S2P Require Import Prelude Keyexpr MeshWire MeshSession MeshIndex.

Module Mesh.
Import Wire Idx.


#[export] Instance DeclKind_countable : Countable DeclKind.
Proof.
  refine (inj_countable' (fun k => match k with KToken => 0 | KSub => 1 | KQabl => 2 end)%nat
    (fun n => match n with 0 => KToken | 1 => KSub | _ => KQabl end)%nat _). by intros [].
Defined.

Definition BACKOFF_MIN : Z := 100.
Definition BACKOFF_MAX : Z := 250.

Inductive TokenEvent := TPut (key : string) | TDelete (key : string) | TBatchEnd.

Inductive Target := TLocal (id : Z) | TSess (uid : Z).
#[export] Instance Target_eq_dec : EqDecision Target. Proof. solve_decision. Defined.
#[export] Instance Target_countable : Countable Target.
Proof.
  refine (inj_countable' (fun o => match o with TLocal i => inl i | TSess u => inr u end)
    (fun x => match x with inl i => TLocal i | inr u => TSess u end) _). by intros [].
Defined.

Inductive Origin := FromLocal (ch : Z) | FromSess (uid qid : Z).

Record Pending := mkPending { origin : Origin; targets : gset Target; deadline : Z }.
Record LTokenSub := mkTSub { texpr : string; seen : gset string }.

Abbreviation DeclKey := (prod DeclKind Z).
Abbreviation DeclId := (prod (prod Z DeclKind) Z).

Record Session := mkSession {
  peer : string; srole : Role; dialer : string; sboot : Z; ssno : Z; adv : option string;
  ob : Sess.Outbox; last_rx : Z;
  decls : gmap DeclKey string; tsubs : gmap Z string; speers : list (string * string) }.

Definition set_ob x (s : Session) : Session :=
  mkSession (peer s) (srole s) (dialer s) (sboot s) (ssno s) (adv s) x (last_rx s) (decls s) (tsubs s) (speers s).
Definition set_decls x (s : Session) : Session :=
  mkSession (peer s) (srole s) (dialer s) (sboot s) (ssno s) (adv s) (ob s) (last_rx s) x (tsubs s) (speers s).
Definition set_tsubs x (s : Session) : Session :=
  mkSession (peer s) (srole s) (dialer s) (sboot s) (ssno s) (adv s) (ob s) (last_rx s) (decls s) x (speers s).
Definition set_speers x (s : Session) : Session :=
  mkSession (peer s) (srole s) (dialer s) (sboot s) (ssno s) (adv s) (ob s) (last_rx s) (decls s) (tsubs s) x.

Record Dial := mkDial { seed : bool; dnode : option string; busy : bool; dnext : Z; backoff : Z }.
Definition seed_dial : Dial := mkDial true None false 0 BACKOFF_MIN.

(** What goes to local channels, to the dialler and to a writer that is told to stop. *)
Inductive Emit :=
| ESample (sub : Z) (key : string) (payload : list byte)
| EToken (tsub : Z) (ev : TokenEvent)
| EQuery (qabl qid : Z) (expr : string) (payload : list byte)
| EReply (ch : Z) (key : string) (ok : bool) (payload : list byte)
| EAck (id : Z)
| EDial (addr : string) (h : Hello)
| EDown (uid : Z) (ob : Sess.Outbox)
| EDirect (m : Msg)
| EPartial (missing : string) (seen_by : list string).

Record Core := mkCore {
  next_uid : Z;
  next_id : Z;
  next_sno : Z;
  sessions : gmap Z Session;
  by_peer : gmap string Z;
  l_tokens : gmap Z string;
  l_subs : gmap Z string;
  l_qabls : gmap Z string;
  l_tsubs : gmap Z LTokenSub;
  tok : gmap string Z;
  subs : SubIndex;
  out : gmap Z (DeclKind * string);
  south : gmap DeclId Z;
  pending : gmap Z Pending;
  dials : gmap string Dial;
  known : gmap string string;
  partial : gmap string (Z * bool);
  last_partial_check : Z }.

(** Field updates. *)
Definition set_next_uid x (c : Core) : Core :=
  mkCore x (next_id c) (next_sno c) (sessions c) (by_peer c) (l_tokens c) (l_subs c) (l_qabls c) (l_tsubs c) (tok c) (subs c) (out c) (south c) (pending c) (dials c) (known c) (partial c) (last_partial_check c).
Definition set_next_id x (c : Core) : Core :=
  mkCore (next_uid c) x (next_sno c) (sessions c) (by_peer c) (l_tokens c) (l_subs c) (l_qabls c) (l_tsubs c) (tok c) (subs c) (out c) (south c) (pending c) (dials c) (known c) (partial c) (last_partial_check c).
Definition set_next_sno x (c : Core) : Core :=
  mkCore (next_uid c) (next_id c) x (sessions c) (by_peer c) (l_tokens c) (l_subs c) (l_qabls c) (l_tsubs c) (tok c) (subs c) (out c) (south c) (pending c) (dials c) (known c) (partial c) (last_partial_check c).
Definition set_sessions x (c : Core) : Core :=
  mkCore (next_uid c) (next_id c) (next_sno c) x (by_peer c) (l_tokens c) (l_subs c) (l_qabls c) (l_tsubs c) (tok c) (subs c) (out c) (south c) (pending c) (dials c) (known c) (partial c) (last_partial_check c).
Definition set_by_peer x (c : Core) : Core :=
  mkCore (next_uid c) (next_id c) (next_sno c) (sessions c) x (l_tokens c) (l_subs c) (l_qabls c) (l_tsubs c) (tok c) (subs c) (out c) (south c) (pending c) (dials c) (known c) (partial c) (last_partial_check c).
Definition set_l_tokens x (c : Core) : Core :=
  mkCore (next_uid c) (next_id c) (next_sno c) (sessions c) (by_peer c) x (l_subs c) (l_qabls c) (l_tsubs c) (tok c) (subs c) (out c) (south c) (pending c) (dials c) (known c) (partial c) (last_partial_check c).
Definition set_l_subs x (c : Core) : Core :=
  mkCore (next_uid c) (next_id c) (next_sno c) (sessions c) (by_peer c) (l_tokens c) x (l_qabls c) (l_tsubs c) (tok c) (subs c) (out c) (south c) (pending c) (dials c) (known c) (partial c) (last_partial_check c).
Definition set_l_qabls x (c : Core) : Core :=
  mkCore (next_uid c) (next_id c) (next_sno c) (sessions c) (by_peer c) (l_tokens c) (l_subs c) x (l_tsubs c) (tok c) (subs c) (out c) (south c) (pending c) (dials c) (known c) (partial c) (last_partial_check c).
Definition set_l_tsubs x (c : Core) : Core :=
  mkCore (next_uid c) (next_id c) (next_sno c) (sessions c) (by_peer c) (l_tokens c) (l_subs c) (l_qabls c) x (tok c) (subs c) (out c) (south c) (pending c) (dials c) (known c) (partial c) (last_partial_check c).
Definition set_tok x (c : Core) : Core :=
  mkCore (next_uid c) (next_id c) (next_sno c) (sessions c) (by_peer c) (l_tokens c) (l_subs c) (l_qabls c) (l_tsubs c) x (subs c) (out c) (south c) (pending c) (dials c) (known c) (partial c) (last_partial_check c).
Definition set_subs x (c : Core) : Core :=
  mkCore (next_uid c) (next_id c) (next_sno c) (sessions c) (by_peer c) (l_tokens c) (l_subs c) (l_qabls c) (l_tsubs c) (tok c) x (out c) (south c) (pending c) (dials c) (known c) (partial c) (last_partial_check c).
Definition set_out x (c : Core) : Core :=
  mkCore (next_uid c) (next_id c) (next_sno c) (sessions c) (by_peer c) (l_tokens c) (l_subs c) (l_qabls c) (l_tsubs c) (tok c) (subs c) x (south c) (pending c) (dials c) (known c) (partial c) (last_partial_check c).
Definition set_south x (c : Core) : Core :=
  mkCore (next_uid c) (next_id c) (next_sno c) (sessions c) (by_peer c) (l_tokens c) (l_subs c) (l_qabls c) (l_tsubs c) (tok c) (subs c) (out c) x (pending c) (dials c) (known c) (partial c) (last_partial_check c).
Definition set_pending x (c : Core) : Core :=
  mkCore (next_uid c) (next_id c) (next_sno c) (sessions c) (by_peer c) (l_tokens c) (l_subs c) (l_qabls c) (l_tsubs c) (tok c) (subs c) (out c) (south c) x (dials c) (known c) (partial c) (last_partial_check c).
Definition set_dials x (c : Core) : Core :=
  mkCore (next_uid c) (next_id c) (next_sno c) (sessions c) (by_peer c) (l_tokens c) (l_subs c) (l_qabls c) (l_tsubs c) (tok c) (subs c) (out c) (south c) (pending c) x (known c) (partial c) (last_partial_check c).
Definition set_known x (c : Core) : Core :=
  mkCore (next_uid c) (next_id c) (next_sno c) (sessions c) (by_peer c) (l_tokens c) (l_subs c) (l_qabls c) (l_tsubs c) (tok c) (subs c) (out c) (south c) (pending c) (dials c) x (partial c) (last_partial_check c).
Definition set_partial x (c : Core) : Core :=
  mkCore (next_uid c) (next_id c) (next_sno c) (sessions c) (by_peer c) (l_tokens c) (l_subs c) (l_qabls c) (l_tsubs c) (tok c) (subs c) (out c) (south c) (pending c) (dials c) (known c) x (last_partial_check c).
Definition set_last_partial_check x (c : Core) : Core :=
  mkCore (next_uid c) (next_id c) (next_sno c) (sessions c) (by_peer c) (l_tokens c) (l_subs c) (l_qabls c) (l_tsubs c) (tok c) (subs c) (out c) (south c) (pending c) (dials c) (known c) (partial c) x.


Abbreviation St := (Core * list Emit)%type.
Definition modc (h : Core -> Core) (s : St) : St := (h s.1, s.2).
Definition emit (e : Emit) (s : St) : St := (s.1, s.2 ++ [e]).
Definition emits (es : list Emit) (s : St) : St := (s.1, s.2 ++ es).

Section Node.
(** The node's name, whether it is a router, its lease (the fence is the same), the time
    it started and the addresses it gives out; none of them changes. *)
Context (me : string) (router : bool) (lease : Z) (my_boot : Z) (my_listen : list string).

(** [str::parse::<SocketAddr>]: whether the host is unspecified, and the port; and the
    text of an address, from the peer's host and a port. *)
Context (parse_addr : string -> option (bool * Z)) (show_addr : string -> Z -> string).

Definition lease_ms_of (ms : Z) : Z := Z.max ms 400.

Definition new (seeds : list string) : Core :=
  mkCore 1 1 1 ∅ ∅ ∅ ∅ ∅ ∅ ∅ Idx.empty ∅ ∅ ∅ (list_to_map (map (fun a => (a, seed_dial)) seeds)) ∅ ∅ 0.

Definition fresh_id (c : Core) : Core * Z := (set_next_id (next_id c + 1) c, next_id c).

(** *** Sending *)

Definition tell (m : Msg) (s : Session) : Session := set_ob (Sess.push m (ob s)).1 s.
Definition push_to (uid : Z) (m : Msg) (c : Core) : Core := set_sessions (alter (tell m) uid (sessions c)) c.
Definition is_router (s : Session) : bool := bool_decide (srole s = Router).
Definition push_where (p : Session -> bool) (m : Msg) (c : Core) : Core :=
  set_sessions ((fun s => if p s then tell m s else s) <$> sessions c) c.

Definition announce (m : Msg) (c : Core) : Core := if router then push_where is_router m c else c.

(** The session a client sends everything through. *)
Definition upstream (c : Core) : option Z :=
  if router then None else match map_to_list (sessions c) with [] => None | (u, _) :: _ => Some u end.

Definition push_upstream (m : Msg) (c : Core) : Core :=
  match upstream c with Some u => push_to u m c | None => c end.

(** Pairs in the order of Rust's tuples of strings. *)
Definition pair_le (a b : string * string) : bool :=
  if String.eqb a.1 b.1 then String.leb a.2 b.2 else String.leb a.1 b.1.

Definition peer_list (c : Core) : list (string * string) :=
  merge_sort pair_le
    (omap (fun us => if is_router us.2 then (fun a => (peer us.2, a)) <$> adv us.2 else None) (map_to_list (sessions c))).

Definition broadcast_peers (c : Core) : Core := push_where is_router (MPeers (peer_list c)) c.

Definition my_hello (c : Core) (n : Z) : Hello :=
  mkHello PROTO (if router then Router else Client) me my_boot n (u32 lease) my_listen (peer_list c).

(** *** Tokens *)

Definition token_event (kind : TokenEvtKind) (key : string) : TokenEvent :=
  match kind with EPut => TPut key | _ => TDelete key end.

(** The token subscriptions of one session that an event concerns, told in order. *)
Definition tell_tokens (kind : TokenEvtKind) (key : string) (p : string -> bool) (s : Session) : Session :=
  if bool_decide (srole s = Client) then
    fold_left (fun s ie => if p ie.2 then tell (MTokenEvt ie.1 kind key) s else s) (map_to_list (tsubs s)) s
  else s.

Definition tok_notify (kind : TokenEvtKind) (key : string) (st : St) : St :=
  let mine := List.filter (fun it => Kx.intersects (texpr it.2) key) (map_to_list (l_tsubs st.1)) in
  st |> emits (map (fun it => EToken it.1 (token_event kind key)) mine)
     |> modc (fun c => set_sessions (tell_tokens kind key (fun e => Kx.intersects e key) <$> sessions c) c).

Definition tok_add (key : string) (st : St) : St :=
  match tok st.1 !! key with
  | Some n => modc (set_tok (<[key := n + 1]> (tok st.1))) st
  | None => st |> modc (set_tok (<[key := 1]> (tok st.1))) |> tok_notify EPut key
  end.

Definition tok_del (key : string) (st : St) : St * bool :=
  match tok st.1 !! key with
  | None => (st, false)
  | Some n =>
    if 1 <? n then (modc (set_tok (<[key := n - 1]> (tok st.1))) st, false)
    else (st |> modc (set_tok (delete key (tok st.1))) |> tok_notify EDelete key, true)
  end.

Definition batch_end (st : St) : St :=
  st |> emits (map (fun it => EToken it.1 TBatchEnd) (map_to_list (l_tsubs st.1)))
     |> modc (fun c => set_sessions (tell_tokens EBatchEnd "" (fun _ => true) <$> sessions c) c).

Definition history (expr : string) (c : Core) : list string :=
  merge_sort String.le (List.filter (Kx.intersects expr) (map fst (map_to_list (tok c)))).

(** *** Queries *)

Definition finish (q : Z) (c : Core) : Core :=
  match pending c !! q with
  | None => c
  | Some p =>
    let c := set_pending (delete q (pending c)) c in
    match origin p with FromSess uid theirs => push_to uid (MFinal theirs) c | FromLocal _ => c end
  end.

Definition target_done (q : Z) (t : Target) (c : Core) : Core :=
  match pending c !! q with
  | None => c
  | Some p =>
    let left := targets p ∖ {[t]} in
    let c := set_pending (<[q := mkPending (origin p) left (deadline p)]> (pending c)) c in
    if bool_decide (t ∈ targets p) && bool_decide (left = ∅) then finish q c else c
  end.

Definition forward_reply (q : Z) (key : string) (ok : bool) (payload : list byte) (st : St) : St :=
  match pending st.1 !! q with
  | None => st
  | Some p =>
    match origin p with
    | FromLocal ch => emit (EReply ch key ok payload) st
    | FromSess uid theirs => modc (push_to uid (MReply theirs key ok payload)) st
    end
  end.

(** *** The end of a session *)

Definition says (r : CloseReason) : bool :=
  match r with Shutdown | Replaced | Refused | Duplicate | Protocol => true | _ => false end.

(** One declaration of a session that is gone; the flag is set when a token went with it. *)
Definition drop_decl (uid : Z) (de : DeclKey * string) (sd : St * bool) : St * bool :=
  let '(st, deleted) := sd in
  let '((k, cid), e) := de in
  let '(st, deleted) :=
    match k with
    | KToken => let (st, d) := tok_del e st in (st, deleted || d)
    | KSub => (modc (fun c => set_subs (remove (OSess uid, cid) (subs c)) c) st, deleted)
    | KQabl => (st, deleted)
    end in
  (match south st.1 !! (uid, k, cid) with
   | Some rid =>
     modc (fun c => c |> set_south (delete (uid, k, cid) (south c)) |> set_out (delete rid (out c))
                      |> announce (MUndeclare k rid)) st
   | None => st
   end, deleted).

(** A client forgets what its token subscriptions have seen. *)
Definition forget_seen (st : St) : St :=
  st |> emits (flat_map (fun it => map (fun k => EToken it.1 (TDelete k)) (elements (seen it.2)) ++ [EToken it.1 TBatchEnd])
                 (map_to_list (l_tsubs st.1)))
     |> modc (fun c => set_l_tsubs ((fun t => mkTSub (texpr t) ∅) <$> l_tsubs c) c).

(** One query when session [uid] is gone: dropped if it came from there, and over if that
    was the last target. *)
Definition drop_query (uid : Z) (c : Core) (q : Z) : Core :=
  match pending c !! q with
  | None => c
  | Some p =>
    if match origin p with FromSess o _ => o =? uid | FromLocal _ => false end
    then set_pending (delete q (pending c)) c
    else target_done q (TSess uid) c
  end.

Definition close (uid : Z) (reason : CloseReason) (st : St) : St :=
  match sessions st.1 !! uid with
  | None => st
  | Some s =>
    let st :=
      st |> modc (fun c => set_sessions (delete uid (sessions c)) c)
         |> modc (fun c => if bool_decide (by_peer c !! peer s = Some uid) then set_by_peer (delete (peer s) (by_peer c)) c else c)
         |> emit (EDown uid (Sess.close (if says reason then Some reason else None) (ob s))) in
    let '(st, deleted) := fold_left (fun sd de => drop_decl uid de sd) (map_to_list (decls s)) (st, false) in
    let st := if negb router then forget_seen st else if deleted then batch_end st else st in
    let st := modc (fun c => fold_left (drop_query uid) (map fst (map_to_list (pending c))) c) st in
    if router && is_router s then modc broadcast_peers st else st
  end.

Definition close_all (reason : CloseReason) (st : St) : St :=
  fold_left (fun st u => close u reason st) (map fst (map_to_list (sessions st.1))) st.

Definition shutdown (st : St) : St :=
  st |> modc (fun c => c |> set_l_tsubs ∅ |> set_l_subs ∅ |> set_l_qabls ∅ |> set_pending ∅) |> close_all Shutdown.

Definition fence (st : St) : St :=
  st |> close_all Fenced
     |> modc (fun c => set_dials ((fun d => mkDial (seed d) (dnode d) (busy d) 0 BACKOFF_MIN) <$> dials c) c).

(** *** Dialling *)

Definition linked (c : Core) (n : string) : bool := bool_decide (is_Some (by_peer c !! n)).

Definition unlinked_seeds (c : Core) : list (string * Dial) :=
  List.filter (fun ad => seed ad.2 && negb (match dnode ad.2 with Some n => linked c n | None => false end))
    (map_to_list (dials c)).

Definition wanted (c : Core) : list string :=
  if router then
    let us := unlinked_seeds c in
    let by_seed := omap (fun ad => dnode ad.2) us in
    map fst us
    ++ map snd (List.filter (fun na => String.ltb me na.1 && negb (linked c na.1) && negb (bool_decide (na.1 ∈ by_seed)))
                  (map_to_list (known c)))
  else if bool_decide (sessions c = ∅) then map fst (List.filter (fun ad => seed ad.2) (map_to_list (dials c)))
  else [].

(** Sorted, each once. *)
Definition sorted_set (l : list string) : list string := merge_sort String.le (elements (list_to_set (C := gset string) l)).

Definition dial_one (now : Z) (st : St) (a : string) : St :=
  let d := default (mkDial false None false 0 BACKOFF_MIN) (dials st.1 !! a) in
  let st := modc (fun c => set_dials (<[a := d]> (dials c)) c) st in
  if busy d || (now <? dnext d) then st
  else
    let n := next_sno st.1 in
    st |> modc (fun c => c |> set_dials (<[a := mkDial (seed d) (dnode d) true (dnext d) (backoff d)]> (dials c))
                           |> set_next_sno (n + 1))
       |> (fun st => emit (EDial a (my_hello st.1 n)) st).

Definition dial_wanted (now : Z) (st : St) : St := fold_left (dial_one now) (sorted_set (wanted st.1)) st.

(** *** Routers the neighbours see *)

Definition seen_elsewhere (c : Core) : gmap string (list string) :=
  fold_left (fun m us =>
      if is_router us.2 then
        fold_left (fun m na =>
            if negb (String.eqb na.1 me) && negb (linked c na.1) then <[na.1 := default [] (m !! na.1) ++ [peer us.2]]> m else m)
          (speers us.2) m
      else m)
    (map_to_list (sessions c)) ∅.

Definition check_one (now : Z) (st : St) (nb : string * list string) : St :=
  let (n, by_) := nb in
  let e := default (now, false) (partial st.1 !! n) in
  if negb e.2 && (lease <? sat_sub now e.1) then
    st |> modc (fun c => set_partial (<[n := (e.1, true)]> (partial c)) c) |> emit (EPartial n by_)
  else modc (fun c => set_partial (<[n := e]> (partial c)) c) st.

Definition check_partial (now : Z) (st : St) : St :=
  let sn := seen_elsewhere st.1 in
  fold_left (check_one now) (map_to_list sn)
    (modc (fun c => set_partial (filter (fun ne => is_Some (sn !! ne.1)) (partial c)) c) st).

(** *** The tick *)

Definition on_tick (now gap : Z) (st : St) : St :=
  if lease <? gap then fence st
  else
    let expired := map fst (List.filter (fun us => lease <? sat_sub now (last_rx us.2)) (map_to_list (sessions st.1))) in
    let st := fold_left (fun st u => close u Expired st) expired st in
    let late := map fst (List.filter (fun qp => deadline qp.2 <=? now) (map_to_list (pending st.1))) in
    let st := modc (fun c => fold_left (fun c q => finish q c) late c) st in
    let st := dial_wanted now st in
    if router && (1000 <=? sat_sub now (last_partial_check st.1)) then
      st |> modc (set_last_partial_check now) |> check_partial now
    else st.

(** *** Sessions coming up *)

Definition accept_verdict (h : Hello) (c : Core) : option CloseReason :=
  if negb (proto h =? PROTO) || String.eqb (node h) me || negb router then Some Protocol
  else
    let? u := by_peer c !! node h in
    let? s := sessions c !! u in
    if String.eqb (dialer s) (node h) then
      if (sboot s <? boot h) || ((boot h =? sboot s) && (ssno s <? sno h)) then None else Some Refused
    else if String.ltb (node h) me then None
    else Some Duplicate.

Definition advertise (listen seen : string) : string :=
  match parse_addr listen with Some (true, port) => show_addr seen port | _ => listen end.

Definition learn (ps : list (string * string)) (c : Core) : Core :=
  fold_left (fun c na => if String.eqb na.1 me then c else set_known (<[na.1 := na.2]> (known c)) c) ps c.

Definition by_id (a b : Z * (DeclKind * string)) : bool := a.1 <=? b.1.

(** What a router tells a new router, and a client its router, in order. *)
Definition declarations (c : Core) : list Msg :=
  if router then map (fun ie => MDeclare ie.2.1 ie.1 ie.2.2) (merge_sort by_id (map_to_list (out c))) ++ [MDeclareDone]
  else
    map (fun ie => MDeclare KToken ie.1 ie.2) (map_to_list (l_tokens c))
    ++ map (fun ie => MDeclare KSub ie.1 ie.2) (map_to_list (l_subs c))
    ++ map (fun ie => MDeclare KQabl ie.1 ie.2) (map_to_list (l_qabls c))
    ++ map (fun it => MTokenSub it.1 (texpr it.2) true) (map_to_list (l_tsubs c))
    ++ [MDeclareDone].

Definition push_all (uid : Z) (ms : list Msg) (c : Core) : Core := fold_left (fun c m => push_to uid m c) ms c.

(** [host] is the peer's address as the connection shows it. *)
Definition install (now : Z) (h : Hello) (host dlr : string) (bt n : Z) (c : Core) : Core :=
  let uid := next_uid c in
  let a := match listen h with l :: _ => Some (advertise l host) | [] => None end in
  let c := c |> set_next_uid (uid + 1)
             |> (fun c => match a with
                          | Some a => if bool_decide (role h = Router) then set_known (<[node h := a]> (known c)) c else c
                          | None => c
                          end)
             |> learn (peers h) in
  let s := mkSession (node h) (role h) dlr bt n a (Sess.new_outbox 0) now ∅ ∅ (peers h) in
  let c := c |> set_by_peer (<[node h := uid]> (by_peer c)) |> set_sessions (<[uid := s]> (sessions c)) in
  if router then
    if bool_decide (role h = Router) then c |> push_all uid (declarations c) |> broadcast_peers else c
  else push_all uid (declarations c) c.

(** A connection that came in; [sent] says whether the answer could be written. *)
Definition on_accepted (now : Z) (h : Hello) (host : string) (sent : bool) (st : St) : St :=
  let st := emit (EDirect (MHello (my_hello st.1 (sno h)))) st in
  if negb sent then st
  else
    match accept_verdict h st.1 with
    | Some r => emit (EDirect (MClose r)) st
    | None =>
      let st :=
        match by_peer st.1 !! node h with
        | Some u =>
          let r := match sessions st.1 !! u with
                   | Some s => if String.eqb (dialer s) (node h) then Replaced else Duplicate
                   | None => Duplicate end in
          close u r st
        | None => st
        end in
      modc (install now h host (node h) (boot h) (sno h)) st
    end.

Definition keep_old (h : Hello) (n u : Z) (c : Core) : bool :=
  match sessions c !! u with
  | Some s => if String.eqb (dialer s) me then n <? ssno s else String.ltb (node h) me
  | None => false
  end.

(** A dial that ended, with the peer's hello if it got through. *)
Definition on_dialed (now : Z) (target : string) (n : Z) (res : option (Hello * string)) (st : St) : St :=
  match dials st.1 !! target with
  | None => st
  | Some d =>
    match res with
    | None =>
      let d := mkDial (seed d) (dnode d) false (now + backoff d) (Z.min (backoff d * 2) BACKOFF_MAX) in
      modc (fun c => set_dials (<[target := d]> (dials c)) c) st
    | Some (h, host) =>
      let d := mkDial (seed d) (Some (node h)) false (now + BACKOFF_MIN) BACKOFF_MIN in
      let st := modc (fun c => set_dials (<[target := d]> (dials c)) c) st in
      if negb (proto h =? PROTO) || String.eqb (node h) me || (negb router && negb (bool_decide (role h = Router)))
      then emit (EDirect (MClose Protocol)) st
      else
        match by_peer st.1 !! node h with
        | Some u =>
          if keep_old h n u st.1 then emit (EDirect (MClose Duplicate)) st
          else st |> close u Duplicate |> modc (install now h host me my_boot n)
        | None => modc (install now h host me my_boot n) st
        end
    end
  end.

(** *** Routing *)

Definition from_router (from : option Z) (c : Core) : bool :=
  match from with
  | Some u => match sessions c !! u with Some s => is_router s | None => false end
  | None => false
  end.

(** One subscription a sample goes to; [sent] are the sessions that have it already. *)
Definition put_one (from : option Z) (fr : bool) (key : string) (payload : list byte) (k : SubId) (acc : St * gset Z) : St * gset Z :=
  let '(st, sent) := acc in
  match k.1 with
  | OLocal _ => (if bool_decide (is_Some (l_subs st.1 !! k.2)) then emit (ESample k.2 key payload) st else st, sent)
  | OSess u =>
    if bool_decide (Some u = from) || bool_decide (u ∈ sent) then (st, sent)
    else
      (match sessions st.1 !! u with
       | Some s => if fr && is_router s then st else modc (push_to u (MPut key payload)) st
       | None => st
       end, sent ∪ {[u]})
  end.

Definition route_put (from : option Z) (key : string) (payload : list byte) (st : St) : St :=
  let fr := from_router from st.1 in
  let '(st, _) := fold_left (fun acc k => put_one from fr key payload k acc) (matching key (subs st.1)) (st, ∅) in
  match from with None => modc (push_upstream (MPut key payload)) st | Some _ => st end.

Definition query_targets (from : option Z) (expr : string) (c : Core) : gset Target :=
  let fr := from_router from c in
  list_to_set (omap (fun ie => if Kx.intersects ie.2 expr then Some (TLocal ie.1) else None) (map_to_list (l_qabls c)))
  ∪ list_to_set (omap (fun us =>
      let hit :=
        if router then
          negb (fr && is_router us.2)
          && existsb (fun de => bool_decide (de.1.1 = KQabl) && Kx.intersects de.2 expr) (map_to_list (decls us.2))
        else bool_decide (from = None) in
      if negb (bool_decide (Some us.1 = from)) && hit then Some (TSess us.1) else None)
    (map_to_list (sessions c))).

(** Asking one target.  [gone] are the queryables whose handler has been dropped. *)
Definition ask (gone : gset Z) (q : Z) (expr : string) (payload : list byte) (timeout : Z) (st : St) (t : Target) : St :=
  match t with
  | TLocal id =>
    if bool_decide (is_Some (l_qabls st.1 !! id)) then
      if bool_decide (id ∈ gone) then modc (target_done q t) st else emit (EQuery id q expr payload) st
    else st
  | TSess u =>
    let m := MRequest q expr payload timeout in
    let pushed := match sessions st.1 !! u with Some s => Some (Sess.push m (ob s)).2 | None => None end in
    let st := modc (push_to u m) st in
    match pushed with
    | Some Sess.Queued => st
    | _ =>
      let name := match sessions st.1 !! u with Some s => peer s | None => "" end in
      st |> forward_reply q name false (sb "mesh: request lane full") |> modc (target_done q t)
    end
  end.

Definition from_of (o : Origin) : option Z := match o with FromSess uid _ => Some uid | FromLocal _ => None end.

Definition route_get (now : Z) (gone : gset Z) (o : Origin) (expr : string) (payload : list byte) (timeout : Z) (st : St) : St :=
  let q := next_id st.1 in
  let ts := query_targets (from_of o) expr st.1 in
  let st := modc (fun c => c |> set_next_id (q + 1) |> set_pending (<[q := mkPending o ts (now + timeout)]> (pending c))) st in
  let st := fold_left (ask gone q expr payload timeout) (elements ts) st in
  match pending st.1 !! q with
  | Some p => if bool_decide (targets p = ∅) then modc (finish q) st else st
  | None => st
  end.

(** *** Messages of a session *)

Definition remote_declare (uid : Z) (r : Role) (k : DeclKind) (id : Z) (expr : string) (st : St) : St :=
  if negb router then st
  else
    match sessions st.1 !! uid with
    | None => st
    | Some s =>
      let old := decls s !! (k, id) in
      let st := modc (fun c => set_sessions (<[uid := set_decls (<[(k, id) := expr]> (decls s)) s]> (sessions c)) c) st in
      match old with
      | Some _ => st
      | None =>
        let st :=
          match k with
          | KToken => tok_add expr st
          | KSub => modc (fun c => set_subs (add (OSess uid, id) expr (subs c)) c) st
          | KQabl => st
          end in
        if bool_decide (r = Client) then
          let rid := next_id st.1 in
          modc (fun c => c |> set_next_id (rid + 1) |> set_south (<[(uid, k, id) := rid]> (south c))
                           |> set_out (<[rid := (k, expr)]> (out c)) |> announce (MDeclare k rid expr)) st
        else st
      end
    end.

Definition remote_undeclare (uid : Z) (k : DeclKind) (id : Z) (st : St) : St :=
  match sessions st.1 !! uid with
  | None => st
  | Some s =>
    match decls s !! (k, id) with
    | None => st
    | Some e =>
      let st := modc (fun c => set_sessions (<[uid := set_decls (delete (k, id) (decls s)) s]> (sessions c)) c) st in
      (drop_decl uid ((k, id), e) (st, false)).1
    end
  end.

Definition on_token_sub (uid : Z) (r : Role) (id : Z) (expr : string) (hist : bool) (st : St) : St :=
  if negb router || negb (bool_decide (r = Client)) then st
  else
    let ks := if hist then history expr st.1 else [] in
    let evs := map (fun k => MTokenEvt id EPut k) ks ++ (if hist then [MTokenEvt id EBatchEnd ""] else []) in
    modc (fun c => c |> push_all uid evs
                     |> (fun c => set_sessions (alter (fun s => set_tsubs (<[id := expr]> (tsubs s)) s) uid (sessions c)) c)) st.

Definition on_token_evt (id : Z) (kind : TokenEvtKind) (key : string) (st : St) : St :=
  if router then st
  else
    match l_tsubs st.1 !! id with
    | None => st
    | Some t =>
      let set_seen v := modc (fun c => set_l_tsubs (<[id := mkTSub (texpr t) v]> (l_tsubs c)) c) in
      match kind with
      | EPut => if bool_decide (key ∈ seen t) then st else st |> set_seen (seen t ∪ {[key]}) |> emit (EToken id (TPut key))
      | EDelete => st |> set_seen (seen t ∖ {[key]}) |> emit (EToken id (TDelete key))
      | EBatchEnd => emit (EToken id TBatchEnd) st
      end
    end.

Definition is_target (q : Z) (t : Target) (c : Core) : bool :=
  match pending c !! q with Some p => bool_decide (t ∈ targets p) | None => false end.

Definition on_msg (now : Z) (gone : gset Z) (uid : Z) (m : Msg) (st : St) : St :=
  match sessions st.1 !! uid with
  | None => st
  | Some s =>
    match m with
    | MClose r => close uid r st
    | MHello _ | MKeepAlive | MDeclareDone => st
    | MDeclare k id expr => remote_declare uid (srole s) k id expr st
    | MUndeclare k id => remote_undeclare uid k id st
    | MTokenSub id expr hist => on_token_sub uid (srole s) id expr hist st
    | MTokenUnsub id =>
      modc (fun c => set_sessions (alter (fun s => set_tsubs (delete id (tsubs s)) s) uid (sessions c)) c) st
    | MTokenEvt id kind key => on_token_evt id kind key st
    | MPeers l =>
      modc (fun c => c |> learn l |> (fun c => set_sessions (alter (set_speers l) uid (sessions c)) c)) st
    | MPut key payload => route_put (Some uid) key payload st
    | MRequest q expr payload timeout => route_get now gone (FromSess uid q) expr payload timeout st
    | MReply q key ok payload => if is_target q (TSess uid) st.1 then forward_reply q key ok payload st else st
    | MFinal q => modc (target_done q (TSess uid)) st
    end
  end.

Inductive SessEv := Paused | Closed (uid : Z) (r : CloseReason) | Heard (uid : Z) (m : Msg).

Definition on_sess (now : Z) (gone : gset Z) (e : SessEv) (st : St) : St :=
  match e with
  | Paused => fence st
  | Closed uid r => close uid r st
  | Heard uid m => on_msg now gone uid m st
  end.

(** *** Commands of this node *)

Inductive Cmd :=
| DeclareToken (key : string)
| Subscribe (expr : string)
| Queryable (expr : string)
| TokenSub (expr : string) (hist : bool)
| Undeclare (k : DeclKind) (id : Z)
| TokenUnsub (id : Z)
| Put (key : string) (payload : list byte)
| Get (expr : string) (payload : list byte) (timeout_ms : Z) (ch : Z)
| LocalReply (q qabl : Z) (key : string) (ok : bool) (payload : list byte)
| LocalFinal (q qabl : Z)
| Close.

(** Telling the other nodes of a declaration of this one. *)
Definition publish (k : DeclKind) (id : Z) (expr : string) (c : Core) : Core :=
  if router then c |> set_out (<[id := (k, expr)]> (out c)) |> announce (MDeclare k id expr)
  else push_upstream (MDeclare k id expr) c.

Definition unpublish (k : DeclKind) (id : Z) (c : Core) : Core :=
  if router then c |> set_out (delete id (out c)) |> announce (MUndeclare k id)
  else push_upstream (MUndeclare k id) c.

Definition declare_token (key : string) (st : St) : St :=
  let id := next_id st.1 in
  let st := modc (fun c => c |> set_next_id (id + 1) |> set_l_tokens (<[id := key]> (l_tokens c))) st in
  let st := if router then tok_add key st else st in
  st |> modc (publish KToken id key) |> emit (EAck id).

Definition subscribe (expr : string) (st : St) : St :=
  let id := next_id st.1 in
  st |> modc (fun c => c |> set_next_id (id + 1) |> set_subs (add (OLocal id, id) expr (subs c))
                         |> set_l_subs (<[id := expr]> (l_subs c)) |> publish KSub id expr)
     |> emit (EAck id).

Definition queryable (expr : string) (st : St) : St :=
  let id := next_id st.1 in
  st |> modc (fun c => c |> set_next_id (id + 1) |> set_l_qabls (<[id := expr]> (l_qabls c)) |> publish KQabl id expr)
     |> emit (EAck id).

Definition token_sub (expr : string) (hist : bool) (st : St) : St :=
  let id := next_id st.1 in
  let st := modc (set_next_id (id + 1)) st in
  let st :=
    if router then
      if hist then emits (map (fun k => EToken id (TPut k)) (history expr st.1) ++ [EToken id TBatchEnd]) st else st
    else match upstream st.1 with
         | Some u => modc (push_to u (MTokenSub id expr hist)) st
         | None => if hist then emit (EToken id TBatchEnd) st else st
         end in
  st |> modc (fun c => set_l_tsubs (<[id := mkTSub expr ∅]> (l_tsubs c)) c) |> emit (EAck id).

Definition undeclare (k : DeclKind) (id : Z) (st : St) : St :=
  let '(st, had) :=
    match k with
    | KToken =>
      match l_tokens st.1 !! id with
      | Some key =>
        let st := modc (fun c => set_l_tokens (delete id (l_tokens c)) c) st in
        (if router then (tok_del key st).1 else st, true)
      | None => (st, false)
      end
    | KSub =>
      (modc (fun c => c |> set_subs (remove (OLocal id, id) (subs c)) |> set_l_subs (delete id (l_subs c))) st,
       bool_decide (is_Some (l_subs st.1 !! id)))
    | KQabl =>
      (modc (fun c => set_l_qabls (delete id (l_qabls c)) c) st, bool_decide (is_Some (l_qabls st.1 !! id)))
    end in
  if had then modc (unpublish k id) st else st.

Definition token_unsub (id : Z) (st : St) : St :=
  let had := bool_decide (is_Some (l_tsubs st.1 !! id)) in
  let st := modc (fun c => set_l_tsubs (delete id (l_tsubs c)) c) st in
  if had then modc (push_upstream (MTokenUnsub id)) st else st.

Definition on_cmd (now : Z) (gone : gset Z) (x : Cmd) (st : St) : St :=
  match x with
  | DeclareToken key => declare_token key st
  | Subscribe expr => subscribe expr st
  | Queryable expr => queryable expr st
  | TokenSub expr hist => token_sub expr hist st
  | Undeclare k id => undeclare k id st
  | TokenUnsub id => token_unsub id st
  | Put key payload => route_put None key payload st
  | Get expr payload timeout ch => route_get now gone (FromLocal ch) expr payload (Z.min timeout (2 ^ 32 - 1)) st
  | LocalReply q qabl key ok payload => if is_target q (TLocal qabl) st.1 then forward_reply q key ok payload st else st
  | LocalFinal q qabl => modc (target_done q (TLocal qabl)) st
  | Close => shutdown st
  end.

End Node.
End Mesh.
