(* ===== verification/MeshDecl.v ===== *)
(** * The declarations a mesh node keeps

    The invariant that ties together what crates/oxmesh/src/core.rs spreads over [tok],
    [subs], [out], [south] and the declarations of the sessions, on these components
    alone, and the steps that keep it.  [D] is each session's role and declarations. *)

From S2P Require Import Prelude Keyexpr MeshWire MeshSession MeshIndex MeshCore.

Module Decl.
Import Wire Idx Mesh.

Abbreviation Sessions := (gmap Z (prod Role (gmap DeclKey string))).

(** ** Counting *)

(** The count of every token is the number of those that hold it. *)
Definition TokOk (t : gmap string Z) (H : string -> SubId -> Prop) : Prop :=
  forall k, exists S : gset SubId, (forall o, o ∈ S <-> H k o) /\
    t !! k = if bool_decide (S = ∅) then None else Some (Z.of_nat (size S)).

Definition t_add (key : string) (t : gmap string Z) : gmap string Z :=
  match t !! key with Some n => <[key := n + 1]> t | None => <[key := 1]> t end.
Definition t_del (key : string) (t : gmap string Z) : gmap string Z :=
  match t !! key with None => t | Some n => if 1 <? n then <[key := n - 1]> t else delete key t end.

Lemma tok_ok_ext t H H' : TokOk t H -> (forall k o, H k o <-> H' k o) -> TokOk t H'.
Proof. intros Ht He k. destruct (Ht k) as (S & HS & E). exists S. split; [|done]. intros o. by rewrite HS, He. Qed.

Lemma tok_ok_add t H key o : TokOk t H -> ~ H key o ->
  TokOk (t_add key t) (fun k o' => H k o' \/ (k = key /\ o' = o)).
Proof.
  intros Ht Hn k. destruct (Ht k) as (S & HS & E). destruct (decide (k = key)) as [->|Hk].
  - exists (S ∪ {[o]}). split; [intros o'; rewrite elem_of_union, HS, elem_of_singleton; naive_solver|].
    assert (o ∉ S) as Hno by (by rewrite HS). rewrite bool_decide_false by set_solver.
    rewrite size_union, size_singleton by set_solver. unfold t_add. rewrite E. case_bool_decide as Hs.
    + rewrite lookup_insert_eq, Hs, size_empty. done.
    + rewrite lookup_insert_eq. f_equal. lia.
  - exists S. split; [intros o'; rewrite HS; naive_solver|]. unfold t_add. by destruct (t !! key); rewrite lookup_insert_ne.
Qed.

Lemma tok_ok_del t H key o : TokOk t H -> H key o ->
  TokOk (t_del key t) (fun k o' => H k o' /\ ~ (k = key /\ o' = o)).
Proof.
  intros Ht Hn k. destruct (Ht k) as (S & HS & E). destruct (decide (k = key)) as [->|Hk].
  - exists (S ∖ {[o]}). split; [intros o'; rewrite elem_of_difference, HS, elem_of_singleton; naive_solver|].
    assert (Ho : o ∈ S) by (by rewrite HS). rewrite bool_decide_false in E by set_solver.
    assert (Hsz : size (S ∖ {[o]}) = (size S - 1)%nat) by (rewrite size_difference by set_solver; by rewrite size_singleton).
    unfold t_del. rewrite E. destruct (Z.ltb_spec 1 (Z.of_nat (size S))) as [Hlt|Hge].
    + rewrite lookup_insert_eq. rewrite bool_decide_false; [f_equal; lia|]. intros Hs. rewrite Hs, size_empty in Hsz. lia.
    + rewrite lookup_delete_eq. rewrite bool_decide_true; [done|]. apply leibniz_equiv, size_empty_iff. lia.
  - exists S. split; [intros o'; rewrite HS; naive_solver|]. unfold t_del. rewrite <- E.
    destruct (t !! key) as [n|]; [|done]. destruct (1 <? n); [by rewrite lookup_insert_ne|by rewrite lookup_delete_ne].
Qed.

(** ** The invariant *)

Section Inv.
Context (router : bool).

Definition local (lt ls lq : gmap Z string) (k : DeclKind) (id : Z) : option string :=
  match k with KToken => lt !! id | KSub => ls !! id | KQabl => lq !! id end.

(** Session [u] has declared [e] as its number [id] of kind [k]. *)
Definition remote (D : Sessions) (u : Z) (k : DeclKind) (id : Z) (e : string) : Prop :=
  exists r R, D !! u = Some (r, R) /\ R !! (k, id) = Some e.

(** Session [u] is a client's and has declared its number [id] of kind [k]. *)
Definition client_decl (D : Sessions) (u : Z) (k : DeclKind) (id : Z) : Prop :=
  exists R, D !! u = Some (Client, R) /\ is_Some (R !! (k, id)).

(** Who holds a token (a client's own are counted by its router) and whose subscription
    an index entry is. *)
Definition holds (D : Sessions) (lt : gmap Z string) (key : string) (o : SubId) : Prop :=
  match o with
  | (OLocal i, j) => router = true /\ i = j /\ lt !! i = Some key
  | (OSess u, id) => remote D u KToken id key
  end.
Definition subscribed (D : Sessions) (ls : gmap Z string) (o : SubId) (e : string) : Prop :=
  match o with
  | (OLocal i, j) => i = j /\ ls !! i = Some e
  | (OSess u, id) => remote D u KSub id e
  end.

Record DInv (D : Sessions) (lt ls lq : gmap Z string) (tk : gmap string Z) (ix : SubIndex)
    (ou : gmap Z (DeclKind * string)) (so : gmap DeclId Z) (nid : Z) : Prop := {
  d_tok : TokOk tk (holds D lt);
  d_idx : Idx.Inv ix;
  d_sub : forall o e, exprs ix !! o = Some e <-> subscribed D ls o e;
  d_client : router = false -> ou = ∅ /\ so = ∅ /\ forall u k id e, ~ remote D u k id e;
  d_out : router = true -> forall rid k e, ou !! rid = Some (k, e) <->
    local lt ls lq k rid = Some e \/ exists u id, so !! (u, k, id) = Some rid /\ remote D u k id e;
  d_south : router = true -> forall u k id, is_Some (so !! (u, k, id)) <-> client_decl D u k id;
  d_inj : forall x y rid, so !! x = Some rid -> so !! y = Some rid -> x = y;
  d_new : forall x rid, so !! x = Some rid -> rid < nid /\ forall k, local lt ls lq k rid = None;
  d_loc : forall k id, is_Some (local lt ls lq k id) -> id < nid /\ forall k', k' <> k -> local lt ls lq k' id = None }.

(** *** Sessions that come and go *)

Lemma dinv_ext D D' lt ls lq tk ix ou so nid :
  (forall u k id e, remote D u k id e <-> remote D' u k id e) -> (forall u k id, client_decl D u k id <-> client_decl D' u k id) ->
  DInv D lt ls lq tk ix ou so nid -> DInv D' lt ls lq tk ix ou so nid.
Proof.
  intros Hr Hc [H1 H2 H3 H4 H5 H6 H7 H8 H9]. split; try done.
  - eapply tok_ok_ext; [exact H1|]. intros k [[i|v] id]; cbn [holds]; [done|by rewrite Hr].
  - intros [[i|v] id] e; rewrite H3; cbn [subscribed]; [done|by rewrite Hr].
  - intros E. destruct (H4 E) as (? & ? & H). split; [done|]. split; [done|]. intros v k id e. rewrite <- Hr. apply H.
  - intros E rid k e. rewrite (H5 E). by setoid_rewrite Hr.
  - intros E v k id. by rewrite (H6 E), Hc.
Qed.

Lemma remote_empty D u r v k id e : D !! u = None -> remote (<[u := (r, ∅)]> D) v k id e <-> remote D v k id e.
Proof.
  intros Hu. unfold remote. destruct (decide (v = u)) as [->|Hn]; [|by rewrite lookup_insert_ne].
  rewrite lookup_insert_eq, Hu. split; [intros (? & ? & [= <- <-] & Hk); by rewrite lookup_empty in Hk|by intros (? & ? & ? & _)].
Qed.

Lemma client_empty D u r v k id : D !! u = None -> client_decl (<[u := (r, ∅)]> D) v k id <-> client_decl D v k id.
Proof.
  intros Hu. unfold client_decl. destruct (decide (v = u)) as [->|Hn]; [|by rewrite lookup_insert_ne].
  rewrite lookup_insert_eq, Hu. split; [|by intros (? & ? & _)]. intros (R & [= -> <-] & [? Hk]). by rewrite lookup_empty in Hk.
Qed.

Lemma dinv_session D lt ls lq tk ix ou so nid u r : D !! u = None ->
  DInv (<[u := (r, ∅)]> D) lt ls lq tk ix ou so nid <-> DInv D lt ls lq tk ix ou so nid.
Proof.
  intros Hu. split; apply dinv_ext; intros; (rewrite remote_empty || rewrite client_empty); done.
Qed.

Lemma dinv_next D lt ls lq tk ix ou so nid nid' :
  DInv D lt ls lq tk ix ou so nid -> nid <= nid' -> DInv D lt ls lq tk ix ou so nid'.
Proof.
  intros [H1 H2 H3 H4 H5 H6 H7 H8 H9] Hle. split; try done.
  - intros x rid H. destruct (H8 x rid H). split; [lia|done].
  - intros k id H. destruct (H9 k id H). split; [lia|done].
Qed.

(** *** A declaration of a session withdrawn *)

Definition tok_without (k : DeclKind) (e : string) (tk : gmap string Z) : gmap string Z :=
  match k with KToken => t_del e tk | _ => tk end.
Definition idx_without (k : DeclKind) (o : SubId) (ix : SubIndex) : SubIndex :=
  match k with KSub => remove o ix | _ => ix end.
Definition out_without (rid : option Z) (ou : gmap Z (DeclKind * string)) : gmap Z (DeclKind * string) :=
  match rid with Some r => delete r ou | None => ou end.

Lemma remote_delete D u r R k id v k' id' e' : D !! u = Some (r, R) ->
  remote (<[u := (r, delete (k, id) R)]> D) v k' id' e' <-> remote D v k' id' e' /\ ~ (v = u /\ k' = k /\ id' = id).
Proof.
  intros Hu. unfold remote. destruct (decide (v = u)) as [->|Hn].
  - rewrite lookup_insert_eq, Hu. split.
    + intros (? & ? & [= <- <-] & Hk). apply lookup_delete_Some in Hk as [Hne Hk]. split; [eauto|]. intros (_ & -> & ->). done.
    + intros ((? & ? & [= <- <-] & Hk) & Hne). eexists _, _. split; [done|]. rewrite lookup_delete_ne; [done|]. intros [= -> ->]. tauto.
  - rewrite lookup_insert_ne by done. split; [intros H; split; [done|naive_solver]|tauto].
Qed.

Lemma client_delete D u r R k id v k' id' : D !! u = Some (r, R) ->
  client_decl (<[u := (r, delete (k, id) R)]> D) v k' id' <-> client_decl D v k' id' /\ ~ (v = u /\ k' = k /\ id' = id).
Proof.
  intros Hu. unfold client_decl. destruct (decide (v = u)) as [->|Hn].
  - rewrite lookup_insert_eq, Hu. split.
    + intros (? & [= -> <-] & [e Hk]). apply lookup_delete_Some in Hk as [Hne Hk]. split; [eauto|]. intros (_ & -> & ->). done.
    + intros ((? & [= -> <-] & Hk) & Hne). eexists. split; [done|]. rewrite lookup_delete_ne; [done|]. intros [= -> ->]. tauto.
  - rewrite lookup_insert_ne by done. split; [intros H; split; [done|naive_solver]|tauto].
Qed.

Lemma remote_fun D u k id e e' : remote D u k id e -> remote D u k id e' -> e = e'.
Proof. intros (r & R & H1 & H2) (r' & R' & H3 & H4). congruence. Qed.

Lemma dinv_drop D lt ls lq tk ix ou so nid u r R k id e :
  DInv D lt ls lq tk ix ou so nid -> D !! u = Some (r, R) -> R !! (k, id) = Some e ->
  DInv (<[u := (r, delete (k, id) R)]> D) lt ls lq (tok_without k e tk) (idx_without k (OSess u, id) ix)
    (out_without (so !! (u, k, id)) ou) (delete (u, k, id) so) nid.
Proof.
  intros [H1 H2 H3 H4 H5 H6 H7 H8 H9] Hu Hk. assert (Hrem : remote D u k id e) by (unfold remote; eauto).
  pose proof (fun v k' id' e' => remote_delete D u r R k id v k' id' e' Hu) as Hr.
  split.
  - unfold tok_without. destruct (decide (k = KToken)) as [->|Hn].
    + apply (tok_ok_ext _ _ _ (tok_ok_del tk (holds D lt) e (OSess u, id) H1 Hrem)). intros key [[i|v] id']; cbn [holds]; [naive_solver|].
      rewrite Hr. split; [|naive_solver]. intros [Hh Hne]. split; [done|]. intros (-> & _ & ->). apply Hne.
      split; [by eapply remote_fun|done].
    + assert (TokOk tk (holds (<[u := (r, delete (k, id) R)]> D) lt)); [|by destruct k].
      eapply tok_ok_ext; [exact H1|]. intros key [[i|v] id']; cbn [holds]; [done|]. rewrite Hr. naive_solver.
  - destruct k; try done. by apply remove_spec.
  - intros o e'. assert (exprs (idx_without k (OSess u, id) ix) !! o = Some e' <->
      exprs ix !! o = Some e' /\ ~ (k = KSub /\ o = (OSess u, id))) as ->.
    { destruct k; cbn [idx_without]; [naive_solver| |naive_solver]. rewrite (proj2 (remove_spec (OSess u, id) ix H2)).
      rewrite lookup_delete_Some. naive_solver. }
    rewrite H3. destruct o as [[i|v] id']; cbn [subscribed]; [naive_solver|]. rewrite Hr. naive_solver.
  - intros E. exfalso. destruct (H4 E) as (_ & _ & H). by eapply H.
  - intros E rid k' e'. destruct (so !! (u, k, id)) as [rid0|] eqn:Es; cbn [out_without].
    + rewrite lookup_delete_Some, (H5 E). split.
      * intros (Hne & [?|(v & id' & Hs & Hrm)]); [by left|]. right. exists v, id'.
        assert ((v, k', id') <> (u, k, id)) by congruence. rewrite lookup_delete_ne by done. split; [done|]. apply Hr. naive_solver.
      * intros [Hl|(v & id' & Hs & Hrm)].
        -- split; [|by left]. intros ->. destruct (H8 _ _ Es) as [_ Hnone]. rewrite Hnone in Hl. done.
        -- apply lookup_delete_Some in Hs as [Hne Hs]. apply Hr in Hrm as [Hrm _]. split; [|right; eauto].
           intros ->. apply Hne. by eapply H7.
    + rewrite delete_id by done. rewrite (H5 E). setoid_rewrite Hr. split; [|naive_solver].
      intros [?|(v & id' & Hs & Hrm)]; [by left|]. right. exists v, id'. split; [done|]. split; [done|].
      intros (-> & -> & ->). congruence.
  - intros E v k' id'. rewrite (client_delete D u r R k id v k' id' Hu), <- (H6 E). unfold is_Some.
    setoid_rewrite lookup_delete_Some. naive_solver.
  - intros x y rid Hx Hy. apply lookup_delete_Some in Hx as [_ Hx], Hy as [_ Hy]. by eapply H7.
  - intros x rid Hx. apply lookup_delete_Some in Hx as [_ Hx]. by eapply H8.
  - done.
Qed.

(** *** A declaration of a session made *)

Definition tok_with (k : DeclKind) (e : string) (tk : gmap string Z) : gmap string Z :=
  match k with KToken => t_add e tk | _ => tk end.
Definition idx_with (k : DeclKind) (o : SubId) (e : string) (ix : SubIndex) : SubIndex :=
  match k with KSub => add o e ix | _ => ix end.

Lemma remote_insert D u r R k id e v k' id' e' : D !! u = Some (r, R) -> R !! (k, id) = None ->
  remote (<[u := (r, <[(k, id) := e]> R)]> D) v k' id' e' <-> remote D v k' id' e' \/ (v = u /\ k' = k /\ id' = id /\ e' = e).
Proof.
  intros Hu Hk. unfold remote. destruct (decide (v = u)) as [->|Hn].
  - rewrite lookup_insert_eq, Hu. split.
    + intros (? & ? & [= <- <-] & H). apply lookup_insert_Some in H as [[[= <- <-] <-]|[_ H]]; [by right|left; eauto].
    + intros [(? & ? & [= <- <-] & H)|(_ & -> & -> & ->)].
      * eexists _, _. split; [done|]. rewrite lookup_insert_ne; [done|]. intros [= <- <-]. congruence.
      * eexists _, _. split; [done|]. by rewrite lookup_insert_eq.
  - rewrite lookup_insert_ne by done. naive_solver.
Qed.

Lemma client_insert D u r R k id e v k' id' : D !! u = Some (r, R) -> R !! (k, id) = None ->
  client_decl (<[u := (r, <[(k, id) := e]> R)]> D) v k' id' <->
  client_decl D v k' id' \/ (r = Client /\ v = u /\ k' = k /\ id' = id).
Proof.
  intros Hu Hk. unfold client_decl. destruct (decide (v = u)) as [->|Hn].
  - rewrite lookup_insert_eq, Hu. split.
    + intros (? & [= -> <-] & H). apply lookup_insert_is_Some' in H as [[= <- <-]|H]; [by right|left; eauto].
    + intros [(? & [= -> <-] & H)|(-> & _ & -> & ->)]; (eexists; split; [done|]); rewrite lookup_insert_is_Some'; auto.
  - rewrite lookup_insert_ne by done. naive_solver.
Qed.

Lemma dinv_tok_with D D' lt lt' tk k e o :
  TokOk tk (holds D lt) -> ~ holds D lt e o ->
  (forall key o', holds D' lt' key o' <-> holds D lt key o' \/ (k = KToken /\ key = e /\ o' = o)) ->
  TokOk (tok_with k e tk) (holds D' lt').
Proof.
  intros H1 Hn He. destruct (decide (k = KToken)) as [->|Hk].
  - apply (tok_ok_ext _ _ _ (tok_ok_add tk (holds D lt) e o H1 Hn)). intros key o'. rewrite He. naive_solver.
  - assert (TokOk tk (holds D' lt')); [|by destruct k]. eapply tok_ok_ext; [exact H1|]. intros key o'. rewrite He. naive_solver.
Qed.

Lemma idx_with_spec k o e ix : Idx.Inv ix -> exprs ix !! o = None -> Idx.Inv (idx_with k o e ix) /\
  forall o' e', exprs (idx_with k o e ix) !! o' = Some e' <-> exprs ix !! o' = Some e' \/ (k = KSub /\ o' = o /\ e' = e).
Proof.
  intros Hi Ho. destruct k; cbn [idx_with]; try (split; [done|naive_solver]).
  destruct (add_spec o e ix Hi) as [? ->]. split; [done|]. intros o' e'. rewrite lookup_insert_Some. naive_solver.
Qed.

Lemma dinv_declare D lt ls lq tk ix ou so nid u r R k id e :
  router = true -> DInv D lt ls lq tk ix ou so nid -> D !! u = Some (r, R) -> R !! (k, id) = None ->
  let D' := <[u := (r, <[(k, id) := e]> R)]> D in
  let tk' := tok_with k e tk in let ix' := idx_with k (OSess u, id) e ix in
  if bool_decide (r = Client) then DInv D' lt ls lq tk' ix' (<[nid := (k, e)]> ou) (<[(u, k, id) := nid]> so) (nid + 1)
  else DInv D' lt ls lq tk' ix' ou so nid.
Proof.
  intros Ert [H1 H2 H3 H4 H5 H6 H7 H8 H9] Hu Hk D' tk' ix'.
  pose proof (fun v k' id' e' => remote_insert D u r R k id e v k' id' e' Hu Hk) as Hr.
  pose proof (fun v k' id' => client_insert D u r R k id e v k' id' Hu Hk) as Hc. fold D' in Hr, Hc.
  assert (Hnr : forall e', ~ remote D u k id e') by (intros e' (? & ? & ? & ?); congruence).
  assert (Hso : so !! (u, k, id) = None).
  { apply eq_None_not_Some. rewrite (H6 Ert). intros (? & ? & [? ?]). congruence. }
  assert (T : TokOk tk' (holds D' lt)).
  { destruct (decide (k = KToken)) as [->|Hn].
    - apply (dinv_tok_with D D' lt lt tk KToken e (OSess u, id) H1); [apply Hnr|].
      intros key [[i|v] id']; cbn [holds]; [naive_solver|]. rewrite Hr. naive_solver.
    - assert (tk' = tk) as -> by (unfold tk'; by destruct k). eapply tok_ok_ext; [exact H1|].
      intros key [[i|v] id']; cbn [holds]; [done|]. rewrite Hr. naive_solver. }
  assert (Hi : exprs ix !! (OSess u, id) = None \/ k <> KSub).
  { destruct (decide (k = KSub)) as [->|]; [left|by right]. apply eq_None_not_Some. intros [e' He']. apply H3 in He'. by eapply Hnr. }
  assert (X : Idx.Inv ix' /\ forall o' e', exprs ix' !! o' = Some e' <-> subscribed D' ls o' e').
  { assert (Idx.Inv ix' /\ forall o' e', exprs ix' !! o' = Some e' <-> exprs ix !! o' = Some e' \/ (k = KSub /\ o' = (OSess u, id) /\ e' = e)) as [? Hx].
    { destruct Hi as [Hi|Hi]; [by apply idx_with_spec|]. unfold ix'. destruct k; try done; (split; [done|naive_solver]). }
    split; [done|]. intros o' e'. rewrite Hx, H3. destruct o' as [[i|v] id']; cbn [subscribed]; [naive_solver|]. rewrite Hr. naive_solver. }
  destruct X as [X1 X2]. case_bool_decide as Er; split; try done.
  all: try (intros E; congruence).
  - intros _ rid k' e'. rewrite lookup_insert_Some, (H5 Ert). setoid_rewrite Hr. setoid_rewrite lookup_insert_Some. split.
    + intros [[<- [= <- <-]]|[Hne [?|(v & id' & Hs & Hrm)]]]; [right; exists u, id; naive_solver|by left|].
      right. exists v, id'. split; [|by left]. right. split; [|done]. intros [= <- <- <-]. congruence.
    + intros [Hl|(v & id' & [[[= <- <- <-] <-]|[Hne Hs]] & Hrm)].
      * right. split; [|by left]. intros <-. destruct (H9 k' nid) as [? _]; [eauto|lia].
      * left. destruct Hrm as [Hrm|(_ & _ & _ & ->)]; [by apply Hnr in Hrm|done].
      * right. destruct (H8 _ _ Hs) as [Hlt _]. split; [lia|]. right. exists v, id'. split; [done|]. destruct Hrm as [|(-> & -> & -> & _)]; [done|]. done.
  - intros _ v k' id'. rewrite Hc, <- (H6 Ert), lookup_insert_is_Some'. naive_solver.
  - intros x y rid Hx Hy. apply lookup_insert_Some in Hx as [[<- <-]|[Hnx Hx]], Hy as [[<- Hy]|[Hny Hy]]; [done|..].
    + destruct (H8 _ _ Hy). lia.
    + subst. destruct (H8 _ _ Hx). lia.
    + by eapply H7.
  - intros x rid Hx. apply lookup_insert_Some in Hx as [[<- <-]|[Hnx Hx]].
    + split; [lia|]. intros k'. apply eq_None_not_Some. intros Hl. destruct (H9 _ _ Hl). lia.
    + destruct (H8 _ _ Hx). split; [lia|done].
  - intros k' id' Hl. destruct (H9 _ _ Hl). split; [lia|done].
  - intros _ rid k' e'. rewrite (H5 Ert). setoid_rewrite Hr. split; [naive_solver|]. intros [?|(v & id' & Hs & [?|(-> & -> & -> & _)])]; [by left|right; eauto|congruence].
  - intros _ v k' id'. rewrite Hc, <- (H6 Ert). naive_solver.
Qed.

(** *** This node's own declarations *)

Lemma dinv_local D lt ls lq lt' ls' lq' tk ix ou so nid k e :
  DInv D lt ls lq tk ix ou so nid ->
  (forall k' id', local lt' ls' lq' k' id' = if bool_decide (k' = k /\ id' = nid) then Some e else local lt ls lq k' id') ->
  DInv D lt' ls' lq' (if router then tok_with k e tk else tk) (idx_with k (OLocal nid, nid) e ix)
    (if router then <[nid := (k, e)]> ou else ou) so (nid + 1).
Proof.
  intros [H1 H2 H3 H4 H5 H6 H7 H8 H9] Hl.
  assert (Hno : forall k', local lt ls lq k' nid = None).
  { intros k'. apply eq_None_not_Some. intros Hs. destruct (H9 _ _ Hs). lia. }
  assert (Hloc : forall k' id' e', local lt' ls' lq' k' id' = Some e' <-> local lt ls lq k' id' = Some e' \/ (k' = k /\ id' = nid /\ e' = e)).
  { intros k' id' e'. rewrite Hl. case_bool_decide as Hb.
    - destruct Hb as [-> ->]. rewrite Hno. split; [intros [= <-]; by right|by intros [?|(_ & _ & ->)]].
    - split; [by left|]. intros [?|(-> & -> & _)]; [done|tauto]. }
  assert (Ho : exprs ix !! (OLocal nid, nid) = None).
  { apply eq_None_not_Some. intros [e' [_ He']%H3]. pose proof (Hno KSub) as Hs. cbn [local] in Hs. by rewrite Hs in He'. }
  destruct (idx_with_spec k (OLocal nid, nid) e ix H2 Ho) as [X1 X2]. split; try done.
  - destruct router eqn:Er.
    + apply (dinv_tok_with D D lt lt' tk k e (OLocal nid, nid) H1).
      * intros (_ & _ & Hx). pose proof (Hno KToken) as Hs. cbn [local] in Hs. by rewrite Hs in Hx.
      * intros key [[i|v] id']; cbn [holds]; [|clear; naive_solver]. change (lt' !! i) with (local lt' ls' lq' KToken i).
        rewrite Hloc. cbn [local]. split.
        -- intros (_ & -> & [?|(<- & -> & ->)]); [by left|by right].
        -- intros [(_ & -> & ?)|(-> & -> & [= -> ->])]; [split; [done|]; split; [done|]; by left|].
           split; [done|]. split; [done|]. by right.
    + eapply tok_ok_ext; [exact H1|]. intros key [[i|v] id']; cbn [holds]; [split; intros [? _]; congruence|done].
  - intros o' e'. rewrite X2, H3. destruct o' as [[i|v] id']; cbn [subscribed]; [|clear; naive_solver].
    change (ls' !! i) with (local lt' ls' lq' KSub i). rewrite Hloc. cbn [local]. split.
    + intros [(-> & ?)|(-> & [= -> ->] & ->)]; (split; [done|]); [by left|by right].
    + intros (-> & [?|(<- & -> & ->)]); [by left|by right].
  - intros E. destruct (H4 E) as (-> & -> & H). by rewrite E.
  - intros E rid k' e'. rewrite E, lookup_insert_Some, (H5 E), Hloc. split.
    + intros [[<- [= <- <-]]|[Hne [?|?]]]; [left; by right|left; by left|by right].
    + intros [[Hx|(-> & -> & ->)]|(v & id' & Hs & Hrm)]; [|by left|].
      * right. split; [|by left]. intros <-. congruence.
      * right. split; [|right; eauto]. destruct (H8 _ _ Hs). lia.
  - intros x rid Hx. destruct (H8 _ _ Hx) as [Hlt Hn]. split; [lia|]. intros k'. rewrite Hl, bool_decide_false by lia. apply Hn.
  - intros k' id' [e' Hs]. apply Hloc in Hs as [Hs|(-> & -> & _)].
    + destruct (H9 k' id') as [Hlt Hk]; [eauto|]. split; [lia|]. intros k'' Hn. rewrite Hl, bool_decide_false by lia. by apply Hk.
    + split; [lia|]. intros k'' Hn. rewrite Hl, bool_decide_false by tauto. apply Hno.
Qed.

Lemma dinv_unlocal D lt ls lq lt' ls' lq' tk ix ou so nid k id e :
  DInv D lt ls lq tk ix ou so nid -> local lt ls lq k id = Some e ->
  (forall k' id', local lt' ls' lq' k' id' = if bool_decide (k' = k /\ id' = id) then None else local lt ls lq k' id') ->
  DInv D lt' ls' lq' (if router then tok_without k e tk else tk) (idx_without k (OLocal id, id) ix)
    (if router then delete id ou else ou) so nid.
Proof.
  intros [H1 H2 H3 H4 H5 H6 H7 H8 H9] Hin Hl.
  assert (Hloc : forall k' id' e', local lt' ls' lq' k' id' = Some e' <-> local lt ls lq k' id' = Some e' /\ ~ (k' = k /\ id' = id)).
  { intros k' id' e'. rewrite Hl. case_bool_decide as Hb; [split; [done|tauto]|tauto]. }
  destruct (H9 k id) as [Hid Hother]; [eauto|]. split; try done.
  - destruct router eqn:Er.
    + destruct (decide (k = KToken)) as [->|Hn].
      * apply (tok_ok_ext _ _ _ (tok_ok_del tk (holds D lt) e (OLocal id, id) H1 ltac:(done))).
        intros key [[i|v] id']; cbn [holds]; [|clear; naive_solver]. change (lt' !! i) with (local lt' ls' lq' KToken i).
        rewrite Hloc. cbn [local] in *. split.
        -- intros [(? & -> & Hk) Hn]. split; [done|]. split; [done|]. split; [done|]. intros [_ ->]. apply Hn.
           rewrite Hin in Hk. by injection Hk.
        -- intros (? & -> & ? & Hn). split; [done|]. intros [_ [= ->]]. tauto.
      * assert (TokOk tk (holds D lt')); [|by destruct k]. eapply tok_ok_ext; [exact H1|].
        intros key [[i|v] id']; cbn [holds]; [|done]. change (lt' !! i) with (local lt' ls' lq' KToken i). rewrite Hloc. cbn [local].
        split; [|tauto]. intros (? & -> & ?). split; [done|]. split; [done|]. split; [done|]. by intros [<- _].
    + eapply tok_ok_ext; [exact H1|]. intros key [[i|v] id']; cbn [holds]; [split; intros [? _]; congruence|done].
  - destruct k; try done. by apply remove_spec.
  - intros o e'. assert (exprs (idx_without k (OLocal id, id) ix) !! o = Some e' <->
      exprs ix !! o = Some e' /\ ~ (k = KSub /\ o = (OLocal id, id))) as ->.
    { destruct k; cbn [idx_without]; [clear; naive_solver| |clear; naive_solver]. rewrite (proj2 (remove_spec (OLocal id, id) ix H2)).
      rewrite lookup_delete_Some. clear; naive_solver. }
    rewrite H3. destruct o as [[i|v] id']; cbn [subscribed]; [|clear; naive_solver].
    change (ls' !! i) with (local lt' ls' lq' KSub i). rewrite Hloc. cbn [local]. clear; naive_solver.
  - intros E. destruct (H4 E) as (-> & -> & H). by rewrite E.
  - intros E rid k' e'. rewrite E, lookup_delete_Some, (H5 E), Hloc. split.
    + intros (Hne & [Hx|?]); [left; split; [done|]; intros [_ ->]; done|by right].
    + intros [[Hx Hn]|(v & id' & Hs & Hrm)].
      * split; [|by left]. intros <-. destruct (decide (k' = k)) as [->|Hk]; [tauto|]. rewrite Hother in Hx; done.
      * split; [|right; eauto]. intros <-. destruct (H8 _ _ Hs) as [_ Hn]. rewrite Hn in Hin. done.
  - intros x rid Hx. destruct (H8 _ _ Hx) as [Hlt Hn]. split; [lia|]. intros k'. rewrite Hl. case_bool_decide; [done|apply Hn].
  - intros k' id' [e' Hs]. apply Hloc in Hs as [Hs _]. destruct (H9 k' id') as [Hlt Hk]; [eauto|]. split; [lia|]. intros k'' Hn.
    rewrite Hl. case_bool_decide; [done|by apply Hk].
Qed.

End Inv.
End Decl.
