(* ===== verification/MeshInv.v ===== *)
(** * Every handler of a mesh node keeps its state consistent

    The invariant of the state of crates/oxmesh/src/core.rs: the declarations (MeshDecl),
    one session per peer, and queries that only wait for sessions that are up.  Outboxes,
    dials and what is handed to channels do not matter to it: [face] leaves them out. *)

From S2P Require Import Prelude Keyexpr MeshWire MeshSession MeshIndex MeshCore MeshDecl.

Module Inv.
Import Wire Idx Mesh Decl.

(** ** What the invariant looks at *)

Definition blank (s : Session) : Session :=
  mkSession (peer s) (srole s) "" 0 0 None (Sess.new_outbox 0) 0 (decls s) ∅ [].

Definition face (c : Core) : Core :=
  mkCore (next_uid c) (next_id c) 0 (blank <$> sessions c) (by_peer c) (l_tokens c) (l_subs c) (l_qabls c) ∅ (tok c)
    (subs c) (out c) (south c) (pending c) ∅ ∅ ∅ 0.

Definition dcl (c : Core) : Sessions := (fun s => (srole s, decls s)) <$> sessions c.
Definition names (c : Core) : gmap Z string := peer <$> sessions c.

Lemma dcl_face c : dcl (face c) = dcl c.
Proof. unfold dcl, face. cbn [sessions]. rewrite <- map_fmap_compose. by apply map_fmap_ext. Qed.
Lemma names_face c : names (face c) = names c.
Proof. unfold names, face. cbn [sessions]. rewrite <- map_fmap_compose. by apply map_fmap_ext. Qed.

Lemma names_dcl c u : is_Some (names c !! u) <-> is_Some (dcl c !! u).
Proof. unfold names, dcl. rewrite !lookup_fmap. destruct (sessions c !! u); cbn; split; intros [? ?]; done || eauto. Qed.

(** A query in good order: it waits for something, for sessions that are up only, and the
    session it came from is up. *)
Definition pending_ok (up : Z -> Prop) (p : Pending) : Prop :=
  targets p <> ∅ /\ (forall u, TSess u ∈ targets p -> up u) /\ (forall u q, origin p = FromSess u q -> up u).

Definition link_ok (c : Core) (u : Z) : Prop := is_Some (names c !! u).

Section Node.
Context (me : string) (router : bool) (lease : Z) (my_boot : Z) (my_listen : list string).
Context (parse_addr : string -> option (bool * Z)) (show_addr : string -> Z -> string).

Record Inv (c : Core) : Prop := {
  i_decl : DInv router (dcl c) (l_tokens c) (l_subs c) (l_qabls c) (tok c) (subs c) (out c) (south c) (next_id c);
  i_peer : forall n u, by_peer c !! n = Some u <-> names c !! u = Some n;
  i_uid : forall u, link_ok c u -> u < next_uid c;
  i_pend : forall q p, pending c !! q = Some p -> q < next_id c /\ pending_ok (link_ok c) p }.

Lemma inv_face c : Inv (face c) <-> Inv c.
Proof.
  split; intros [H1 H2 H3 H4]; unfold link_ok in *; rewrite ?dcl_face, ?names_face in *; (split; unfold link_ok; rewrite ?dcl_face, ?names_face; done).
Qed.

(** ** What does not matter *)

Lemma face_sessions c f : (forall s, blank (f s) = blank s) -> face (set_sessions (f <$> sessions c) c) = face c.
Proof.
  intros H. unfold face. cbn. f_equal. rewrite <- map_fmap_compose. apply map_fmap_ext. intros; apply H.
Qed.

Lemma face_alter c f u : (forall s, blank (f s) = blank s) -> face (set_sessions (alter f u (sessions c)) c) = face c.
Proof.
  intros H. unfold face. cbn. f_equal. apply map_eq. intros v. rewrite !lookup_fmap.
  destruct (decide (v = u)) as [->|Hn]; [rewrite lookup_alter_eq|by rewrite lookup_alter_ne].
  destruct (sessions c !! u); cbn; [by rewrite H|done].
Qed.

Lemma face_push_to u m c : face (push_to u m c) = face c.
Proof. by apply face_alter. Qed.
Lemma face_push_where p m c : face (push_where p m c) = face c.
Proof. apply face_sessions. intros s. by destruct (p s). Qed.
Lemma face_announce m c : face (announce router m c) = face c.
Proof. unfold announce. destruct router; [apply face_push_where|done]. Qed.
Lemma face_upstream m c : face (push_upstream router m c) = face c.
Proof. unfold push_upstream. destruct (upstream router c); [apply face_push_to|done]. Qed.
Lemma face_broadcast c : face (broadcast_peers c) = face c.
Proof. apply face_push_where. Qed.
Lemma face_push_all u ms : forall c, face (push_all u ms c) = face c.
Proof. induction ms as [|m ms IH]; intros c; [done|]. cbn. fold (push_all u ms (push_to u m c)). by rewrite IH, face_push_to. Qed.
Lemma face_learn ps : forall c, face (learn me ps c) = face c.
Proof.
  induction ps as [|x ps IH]; intros c; [done|].
  change (learn me (x :: ps) c) with (learn me ps (if String.eqb x.1 me then c else set_known (<[x.1 := x.2]> (known c)) c)).
  rewrite IH. by destruct (String.eqb x.1 me).
Qed.

Lemma blank_tell_tokens kind key p s : blank (tell_tokens kind key p s) = blank s.
Proof.
  unfold tell_tokens. destruct (bool_decide _); [|done]. generalize (map_to_list (tsubs s)). intros l. revert s.
  induction l as [|x l IH]; intros s; [done|]. cbn. rewrite IH. by destruct (p x.2).
Qed.
Lemma face_tok_notify kind key st : face (tok_notify kind key st).1 = face st.1.
Proof. apply face_sessions. intros s. apply blank_tell_tokens. Qed.
Lemma face_batch_end st : face (batch_end st).1 = face st.1.
Proof. apply face_sessions. intros s. apply blank_tell_tokens. Qed.
Lemma face_forget_seen st : face (forget_seen st).1 = face st.1.
Proof. done. Qed.
Lemma face_forward q key ok pl st : face (forward_reply q key ok pl st).1 = face st.1.
Proof. unfold forward_reply. destruct (pending st.1 !! q) as [p|]; [|done]. destruct (origin p); [done|]. apply face_push_to. Qed.

(** ** Tokens *)

Lemma face_tok_add key st : face (tok_add key st).1 = set_tok (t_add key (tok st.1)) (face st.1).
Proof. unfold tok_add, t_add. destruct (tok st.1 !! key); [done|]. by rewrite face_tok_notify. Qed.
Lemma face_tok_del key st : face (tok_del key st).1.1 = set_tok (t_del key (tok st.1)) (face st.1).
Proof.
  unfold tok_del, t_del. destruct (tok st.1 !! key) as [n|] eqn:E; [|by destruct st as [[] ?]].
  destruct (1 <? n); [done|]. cbn [fst]. by rewrite face_tok_notify.
Qed.

(** ** Declarations withdrawn *)

(** The state with other declarations. *)
Definition redeclare tk ix so ou (c : Core) : Core := c |> set_tok tk |> set_subs ix |> set_south so |> set_out ou.

Lemma face_drop_decl uid k cid e st b :
  face (drop_decl router uid ((k, cid), e) (st, b)).1.1 =
  redeclare (tok_without k e (tok st.1)) (idx_without k (OSess uid, cid) (subs st.1)) (delete (uid, k, cid) (south st.1))
    (out_without (south st.1 !! (uid, k, cid)) (out st.1)) (face st.1).
Proof.
  unfold drop_decl. set (r := match k with KToken => _ | KSub => _ | KQabl => _ end). destruct r as [st1 b1] eqn:Er.
  assert (E : face st1.1 = face st.1 |> set_tok (tok_without k e (tok st.1)) |> set_subs (idx_without k (OSess uid, cid) (subs st.1))).
  { subst r. destruct k; cbn [tok_without idx_without].
    - pose proof (face_tok_del e st) as H. destruct (tok_del e st) as [st' d]. cbn [fst] in H. injection Er as <- <-. by rewrite H.
    - by injection Er as <- <-.
    - injection Er as <- <-. by destruct st as [[] ?]. }
  clear r Er. assert (Es : south st1.1 = south st.1) by apply (f_equal south E). assert (Eo : out st1.1 = out st.1) by apply (f_equal out E).
  rewrite Es. destruct (south st.1 !! (uid, k, cid)) as [rid|] eqn:Eq; cbn [fst out_without].
  - cbn [modc fst]. rewrite face_announce.
    change (set_out (delete rid (out st1.1)) (set_south (delete (uid, k, cid) (south st1.1)) (face st1.1)) =
      redeclare (tok_without k e (tok st.1)) (idx_without k (OSess uid, cid) (subs st.1)) (delete (uid, k, cid) (south st.1))
        (delete rid (out st.1)) (face st.1)). by rewrite E, Es, Eo.
  - rewrite E, delete_id by done. by destruct st as [[] ?].
Qed.

(** All of them, one after the other. *)
Lemma drop_decls uid r L : forall st b, NoDup L.*1 ->
  DInv router (<[uid := (r, list_to_map L)]> (dcl st.1)) (l_tokens st.1) (l_subs st.1) (l_qabls st.1) (tok st.1) (subs st.1)
    (out st.1) (south st.1) (next_id st.1) ->
  let c' := (fold_left (fun sd de => drop_decl router uid de sd) L (st, b)).1.1 in
  (exists tk ix so ou, face c' = redeclare tk ix so ou (face st.1)) /\
  DInv router (<[uid := (r, ∅)]> (dcl st.1)) (l_tokens c') (l_subs c') (l_qabls c') (tok c') (subs c') (out c') (south c') (next_id c').
Proof.
  induction L as [|[[k cid] e] L IH]; intros st b Hnd Hd; cbn [fold_left].
  { split; [|done]. exists (tok st.1), (subs st.1), (south st.1), (out st.1). by destruct st as [[] ?]. }
  cbn [fmap list_fmap fst] in Hnd. apply NoDup_cons in Hnd as [Hno Hnd].
  pose proof (face_drop_decl uid k cid e st b) as E. destruct (drop_decl router uid ((k, cid), e) (st, b)) as [st1 b1].
  cbn [fst] in E. pose proof (f_equal dcl E) as Ed. unfold redeclare in Ed. rewrite dcl_face in Ed.
  change (dcl (face st.1) = dcl st1.1) in Ed || change (dcl st1.1 = dcl (face st.1)) in Ed. rewrite dcl_face in Ed.
  destruct (IH st1 b1 Hnd) as [(tk & ix & so & ou & E2) H2].
  - rewrite Ed. unfold face, redeclare in E. cbn in E. injection E as _ E1 _ _ E3 E4 E5 E6 E7 E8 E9 _.
    rewrite E1, E3, E4, E5, E6, E7, E8, E9.
    pose proof (dinv_drop router (<[uid := (r, list_to_map (((k, cid), e) :: L))]> (dcl st.1)) _ _ _ _ _ _ _ _ uid r
      (list_to_map (((k, cid), e) :: L)) k cid e Hd) as H. rewrite lookup_insert_eq, insert_insert_eq in H.
    cbn [list_to_map foldr fst snd] in H. rewrite lookup_insert_eq, delete_insert_id in H; [by apply H|].
    by apply not_elem_of_list_to_map_1.
  - split; [|by rewrite <- Ed]. exists tk, ix, so, ou. rewrite E2, E. done.
Qed.

(** ** Queries *)

Definition p_done (q : Z) (t : Target) (pd : gmap Z Pending) : gmap Z Pending :=
  match pd !! q with
  | None => pd
  | Some p =>
    let left := targets p ∖ {[t]} in
    if bool_decide (t ∈ targets p) && bool_decide (left = ∅) then delete q pd
    else <[q := mkPending (origin p) left (deadline p)]> pd
  end.

Definition p_drop (uid : Z) (pd : gmap Z Pending) (q : Z) : gmap Z Pending :=
  match pd !! q with
  | None => pd
  | Some p =>
    if match origin p with FromSess o _ => o =? uid | FromLocal _ => false end then delete q pd else p_done q (TSess uid) pd
  end.

Lemma face_finish q c : face (finish q c) = set_pending (delete q (pending c)) (face c).
Proof.
  unfold finish. destruct (pending c !! q) as [p|] eqn:E; [|rewrite delete_id by done; by destruct c].
  destruct (origin p); [done|]. by rewrite face_push_to.
Qed.

Lemma face_target_done q t c : face (target_done q t c) = set_pending (p_done q t (pending c)) (face c).
Proof.
  unfold target_done, p_done. destruct (pending c !! q) as [p|] eqn:E; [|by destruct c].
  destruct (_ && _); [|done]. rewrite face_finish. cbn [pending set_pending]. by rewrite delete_insert_eq.
Qed.

Lemma face_drop_query uid c q : face (drop_query uid c q) = set_pending (p_drop uid (pending c) q) (face c).
Proof.
  unfold drop_query, p_drop. destruct (pending c !! q) as [p|] eqn:E; [|by destruct c].
  destruct (match origin p with FromLocal _ => false | FromSess o _ => o =? uid end); [done|apply face_target_done].
Qed.

Lemma face_drop_queries uid qs : forall c,
  face (fold_left (drop_query uid) qs c) = set_pending (fold_left (p_drop uid) qs (pending c)) (face c).
Proof.
  induction qs as [|q qs IH]; intros c; [by destruct c|]. cbn [fold_left]. pose proof (face_drop_query uid c q) as E.
  rewrite IH, E, (f_equal pending E : pending (drop_query uid c q) = p_drop uid (pending c) q). done.
Qed.

(** What is left of a query when session [uid] is gone. *)
Definition less (uid : Z) (p0 p : Pending) : Prop :=
  origin p = origin p0 /\ targets p = targets p0 ∖ {[TSess uid]} /\ (targets p0 <> ∅ -> targets p <> ∅) /\
  forall q, origin p <> FromSess uid q.

Lemma p_drop_same uid pd q p : p_drop uid pd q !! q = Some p -> exists p0, pd !! q = Some p0 /\ less uid p0 p.
Proof.
  clear me router lease my_boot my_listen parse_addr show_addr.
  unfold p_drop. destruct (pd !! q) as [p0|] eqn:E; [|by rewrite E].
  destruct (origin p0) as [ch|o th] eqn:Eo; [|destruct (Z.eqb_spec o uid) as [->|Hn]; [by rewrite lookup_delete_eq|]].
  all: unfold p_done; rewrite E; destruct (bool_decide (TSess uid ∈ targets p0) && _) eqn:Eb; [by rewrite lookup_delete_eq|].
  all: rewrite lookup_insert_eq; intros [= <-]; exists p0; split; [done|]; unfold less; cbn [origin targets]; rewrite Eo.
  all: (split; [done|]); (split; [done|]); (split; [|congruence]); intros Hne Hl; apply andb_false_iff in Eb as [Eb|Eb]; zbool; [|done].
  all: apply Hne; rewrite difference_disjoint_L in Hl by set_solver; done.
Qed.

Lemma p_drop_other uid pd q q' : q <> q' -> p_drop uid pd q !! q' = pd !! q'.
Proof.
  intros Hn. unfold p_drop, p_done. destruct (pd !! q) as [p|]; [|done].
  destruct (match origin p with FromLocal _ => false | FromSess o _ => o =? uid end); [by rewrite lookup_delete_ne|].
  destruct (_ && _); [by rewrite lookup_delete_ne|by rewrite lookup_insert_ne].
Qed.

Lemma p_drops uid qs : forall pd, NoDup qs -> forall q p, fold_left (p_drop uid) qs pd !! q = Some p ->
  if bool_decide (q ∈ qs) then exists p0, pd !! q = Some p0 /\ less uid p0 p else pd !! q = Some p.
Proof.
  clear me router lease my_boot my_listen parse_addr show_addr.
  induction qs as [|q0 qs IH]; intros pd Hnd q p H; [done|]. apply NoDup_cons in Hnd as [Hno Hnd]. cbn [fold_left] in H.
  apply IH in H; [|done]. destruct (decide (q = q0)) as [->|Hn].
  - rewrite bool_decide_false in H by done. rewrite bool_decide_true by set_solver. by apply p_drop_same in H.
  - rewrite p_drop_other in H by done. case_bool_decide as Hq; [rewrite bool_decide_true by set_solver|rewrite bool_decide_false by set_solver]; done.
Qed.

(** ** The end of a session *)

(** The state without session [uid], whose peer is [n]. *)
Definition without (uid : Z) (n : string) (c : Core) : Core :=
  c |> set_sessions (delete uid (sessions c)) |> set_by_peer (delete n (by_peer c)).

Lemma dcl_without uid n c : dcl (without uid n c) = delete uid (dcl c).
Proof. apply fmap_delete. Qed.
Lemma names_without uid n c : names (without uid n c) = delete uid (names c).
Proof. apply fmap_delete. Qed.
Lemma face_without uid n c : face (without uid n c) = without uid n (face c).
Proof. unfold face, without. cbn. rewrite fmap_delete. done. Qed.

Lemma close_face uid reason st s : Inv st.1 -> sessions st.1 !! uid = Some s ->
  exists tk ix so ou,
    let c1 := redeclare tk ix so ou (without uid (peer s) (face st.1)) in
    face (close router uid reason st).1 =
      set_pending (fold_left (p_drop uid) (map fst (map_to_list (pending st.1))) (pending st.1)) c1 /\
    DInv router (dcl c1) (l_tokens c1) (l_subs c1) (l_qabls c1) (tok c1) (subs c1) (out c1) (south c1) (next_id c1).
Proof.
  intros Hi Hs. unfold close. rewrite Hs.
  assert (Hp : by_peer st.1 !! peer s = Some uid) by (apply (i_peer _ Hi); unfold names; by rewrite lookup_fmap, Hs).
  set (st1 := emit _ (modc _ (modc _ st))). assert (E0 : st1.1 = without uid (peer s) st.1).
  { unfold st1, emit, modc. cbn [fst snd by_peer set_sessions]. by rewrite bool_decide_true. }
  assert (E1 : face st1.1 = without uid (peer s) (face st.1)) by (by rewrite E0, face_without).
  destruct (fold_left (fun sd de => drop_decl router uid de sd) (map_to_list (decls s)) (st1, false)) as [st2 d] eqn:Ef.
  destruct (drop_decls uid (srole s) (map_to_list (decls s)) st1 false) as [(tk & ix & so & ou & E2) HD].
  { apply NoDup_fst_map_to_list. }
  { rewrite list_to_map_to_list, E0, dcl_without, insert_delete_id.
    - apply (i_decl _ Hi).
    - unfold dcl. by rewrite lookup_fmap, Hs. }
  rewrite Ef in E2, HD. cbn [fst] in E2, HD. exists tk, ix, so, ou. set (c1 := redeclare tk ix so ou (without uid (peer s) (face st.1))).
  set (st3 := if negb router then _ else _). assert (E3 : face st3.1 = c1).
  { unfold c1. rewrite <- E1, <- E2. unfold st3. destruct router; cbn [negb]; [|done]. destruct d; [apply face_batch_end|done]. }
  cbv zeta. split.
  - assert (E4 : face (modc (fun c => fold_left (drop_query uid) (map fst (map_to_list (pending c))) c) st3).1 =
      set_pending (fold_left (p_drop uid) (map fst (map_to_list (pending st.1))) (pending st.1)) c1).
    { cbn [modc fst]. rewrite face_drop_queries, E3. by rewrite (f_equal pending E3 : pending st3.1 = pending st.1). }
    destruct (router && is_router s); [|exact E4]. cbn [modc fst] in *. by rewrite face_broadcast.
  - rewrite E1 in E2. unfold c1, redeclare in *. cbn [dcl l_tokens l_subs l_qabls tok subs out south next_id set_tok set_subs set_south set_out without set_sessions set_by_peer face] in *.
    rewrite E0, dcl_without in HD.
    assert (Hd : delete uid (dcl st.1) !! uid = None) by apply lookup_delete_eq. apply (dinv_session router _ _ _ _ _ _ _ _ _ uid (srole s) Hd) in HD.
    pose proof (dcl_without uid (peer s) (face st.1)) as Ew. rewrite dcl_face in Ew.
    match goal with |- DInv _ ?d _ _ _ _ _ _ _ _ => change d with (dcl (without uid (peer s) (face st.1))) end. rewrite Ew.
    unfold face in E2. cbn in E2. injection E2 as _ X1 _ _ X2 X3 X4 X5 X6 X7 X8 _. by rewrite X1, X2, X3, X4, X5, X6, X7, X8 in HD.
Qed.

Lemma closed_names c c' uid n tk ix so ou pd : face c' = set_pending pd (redeclare tk ix so ou (without uid n (face c))) ->
  names c' = delete uid (names c) /\ dcl c' = delete uid (dcl c) /\
  l_tokens c' = l_tokens c /\ l_subs c' = l_subs c /\ l_qabls c' = l_qabls c.
Proof.
  intros E. split; [|split].
  - pose proof (f_equal names E) as H. rewrite names_face in H. rewrite H.
    change (names (without uid n (face c)) = delete uid (names c)). by rewrite names_without, names_face.
  - pose proof (f_equal dcl E) as H. rewrite dcl_face in H. rewrite H.
    change (dcl (without uid n (face c)) = delete uid (dcl c)). by rewrite dcl_without, dcl_face.
  - split; [exact (f_equal l_tokens E)|split; [exact (f_equal l_subs E)|exact (f_equal l_qabls E)]].
Qed.

Lemma closed_inv c uid n tk ix so ou pd : Inv c -> names c !! uid = Some n ->
  (forall q p, pd !! q = Some p -> exists p0, pending c !! q = Some p0 /\ less uid p0 p) ->
  let c1 := redeclare tk ix so ou (without uid n (face c)) in
  DInv router (dcl c1) (l_tokens c1) (l_subs c1) (l_qabls c1) (tok c1) (subs c1) (out c1) (south c1) (next_id c1) ->
  Inv (set_pending pd c1).
Proof.
  clear me lease my_boot my_listen parse_addr show_addr.
  intros [H1 H2 H3 H4] Hn Hpd c1 HD.
  assert (En : names c1 = delete uid (names c)) by (change (names (without uid n (face c)) = delete uid (names c)); by rewrite names_without, names_face).
  split; [exact HD|..]; unfold link_ok; change (names (set_pending pd c1)) with (names c1); rewrite ?En.
  - intros m u. change (delete n (by_peer c) !! m = Some u <-> delete uid (names c) !! u = Some m).
    rewrite !lookup_delete_Some, H2. split; intros [Ha Hb]; (split; [|done]); intros Hx; subst; [congruence|apply H2 in Hb, Hn; congruence].
  - intros u [m Hx]. apply lookup_delete_Some in Hx as [_ Hx]. apply (H3 u). unfold link_ok. eauto.
  - intros q p Hp. destruct (Hpd q p Hp) as (p0 & Hp0 & L1 & L2 & L3 & L4). destruct (H4 q p0 Hp0) as [Hq (P1 & P2 & P3)].
    split; [done|]. unfold pending_ok. rewrite L1, L2. split; [rewrite <- L2; by apply L3|]. split.
    + intros u Hu. apply elem_of_difference in Hu as [Hu Hne]. rewrite lookup_delete_ne by set_solver. by apply P2.
    + intros u th Ho. rewrite lookup_delete_ne; [by eapply P3|]. intros <-. eapply L4. by rewrite L1.
Qed.

Lemma p_drop_all uid (pd : gmap Z Pending) q p : fold_left (p_drop uid) (map fst (map_to_list pd)) pd !! q = Some p ->
  exists p0, pd !! q = Some p0 /\ less uid p0 p.
Proof.
  clear me router lease my_boot my_listen parse_addr show_addr.
  intros Hp. apply p_drops in Hp; [|apply NoDup_fst_map_to_list]. case_bool_decide as Hq; [done|]. exfalso. apply Hq.
  change (q ∈ (map_to_list pd).*1). apply list_elem_of_fmap. exists (q, p). split; [done|]. by apply elem_of_map_to_list.
Qed.

Lemma close_spec uid reason st s : Inv st.1 -> sessions st.1 !! uid = Some s ->
  let c' := (close router uid reason st).1 in
  Inv c' /\ names c' = delete uid (names st.1) /\ dcl c' = delete uid (dcl st.1) /\
  l_tokens c' = l_tokens st.1 /\ l_subs c' = l_subs st.1 /\ l_qabls c' = l_qabls st.1.
Proof.
  intros Hi Hs c'. destruct (close_face uid reason st s Hi Hs) as (tk & ix & so & ou & E & HD). fold c' in E. cbv zeta in E, HD.
  split; [|by eapply closed_names]. apply inv_face. rewrite E. apply closed_inv; [done| |apply p_drop_all|done].
  unfold names. by rewrite lookup_fmap, Hs.
Qed.

(** ** One handler after the other *)

Lemma inv_same c c' : face c' = face c -> Inv c -> Inv c'.
Proof. intros E H. apply inv_face. rewrite E. by apply inv_face. Qed.

Lemma inv_close uid reason st : Inv st.1 -> Inv (close router uid reason st).1.
Proof.
  intros H. destruct (sessions st.1 !! uid) as [s|] eqn:E; [by apply (close_spec uid reason st s)|]. unfold close. by rewrite E.
Qed.

Lemma inv_close_list reason us : forall st, Inv st.1 -> Inv (fold_left (fun st u => close router u reason st) us st).1.
Proof. induction us as [|u us IH]; intros st H; [done|]. cbn [fold_left]. apply IH. by apply inv_close. Qed.

Lemma inv_fence st : Inv st.1 -> Inv (fence router st).1.
Proof. intros H. apply (inv_same (close_all router Fenced st).1); [done|]. by apply inv_close_list. Qed.

Lemma inv_pending_sub c pd : Inv c -> (forall q p, pd !! q = Some p -> pending c !! q = Some p) -> Inv (set_pending pd c).
Proof. intros [H1 H2 H3 H4] Hs. split; try done. intros q p Hp. apply (H4 q p). by apply Hs. Qed.

Lemma inv_finish q c : Inv c -> Inv (finish q c).
Proof.
  intros H. apply inv_face. rewrite face_finish. apply inv_pending_sub; [by apply inv_face|].
  intros q' p Hp. by apply lookup_delete_Some in Hp as [_ Hp].
Qed.

Lemma inv_finish_list qs : forall c, Inv c -> Inv (fold_left (fun c q => finish q c) qs c).
Proof. induction qs as [|q qs IH]; intros c H; [done|]. cbn [fold_left]. apply IH. by apply inv_finish. Qed.

Lemma face_dial_one now st a : face (dial_one me router lease my_boot my_listen now st a).1 = face st.1.
Proof. unfold dial_one. by destruct (busy _ || _). Qed.

Lemma face_dial_wanted now st : face (dial_wanted me router lease my_boot my_listen now st).1 = face st.1.
Proof.
  unfold dial_wanted. generalize (sorted_set (wanted me router st.1)). intros l. revert st.
  induction l as [|a l IH]; intros st; [done|]. cbn [fold_left]. by rewrite IH, face_dial_one.
Qed.

Lemma face_check_partial now st : face (check_partial me lease now st).1 = face st.1.
Proof.
  unfold check_partial. set (st0 := modc _ st). change (face st.1) with (face st0.1). generalize (map_to_list (seen_elsewhere me st.1)).
  intros l. generalize st0. induction l as [|[n b] l IH]; intros st'; [done|]. cbn [fold_left]. rewrite IH. unfold check_one.
  by destruct (_ && _).
Qed.

Lemma inv_tick now gap st : Inv st.1 -> Inv (on_tick me router lease my_boot my_listen now gap st).1.
Proof.
  intros H. unfold on_tick. destruct (lease <? gap); [by apply inv_fence|].
  set (st1 := fold_left (fun st u => close router u Expired st) _ st). assert (H1 : Inv st1.1) by (by apply inv_close_list).
  set (st2 := modc _ st1). assert (H2 : Inv st2.1) by (by apply inv_finish_list).
  set (st3 := dial_wanted _ _ _ _ _ _ st2). assert (H3 : Inv st3.1) by (eapply inv_same; [apply face_dial_wanted|done]).
  destruct (_ && _); [|done]. eapply inv_same; [|exact H3]. by rewrite face_check_partial.
Qed.

(** *** A session comes up *)

Lemma face_install now h host dlr bt n c :
  exists a, face (install me router parse_addr show_addr now h host dlr bt n c) =
    face c |> set_next_uid (next_uid c + 1) |> set_by_peer (<[node h := next_uid c]> (by_peer c))
           |> set_sessions (<[next_uid c := blank (mkSession (node h) (role h) dlr bt n a (Sess.new_outbox 0) now ∅ ∅ (peers h))]> (blank <$> sessions c)).
Proof.
  unfold install. set (a := match listen h with [] => None | _ => _ end). exists a.
  set (c0 := learn me (peers h) _). assert (E0 : face c0 = set_next_uid (next_uid c + 1) (face c)).
  { unfold c0. rewrite face_learn. destruct a; [|done]. by destruct (bool_decide (role h = Router)). }
  assert (B0 : by_peer c0 = by_peer c) by apply (f_equal by_peer E0).
  assert (S0 : blank <$> sessions c0 = blank <$> sessions c) by apply (f_equal sessions E0).
  set (s := mkSession _ _ _ _ _ _ _ _ _ _ _). set (c1 := set_sessions _ (set_by_peer _ c0)).
  assert (E1 : face c1 = face c |> set_next_uid (next_uid c + 1) |> set_by_peer (<[node h := next_uid c]> (by_peer c))
    |> set_sessions (<[next_uid c := blank s]> (blank <$> sessions c))).
  { unfold c1, face. cbn. rewrite fmap_insert, S0, B0. unfold face in E0. cbn in E0. injection E0 as -> -> _ _ -> -> -> -> -> -> -> ->. done. }
  rewrite <- E1. destruct router; [destruct (bool_decide (role h = Router)); [|done]; rewrite face_broadcast|]; by rewrite face_push_all.
Qed.

Lemma inv_install now h host dlr bt n c : Inv c -> by_peer c !! node h = None ->
  Inv (install me router parse_addr show_addr now h host dlr bt n c).
Proof.
  intros [H1 H2 H3 H4] Hn. destruct (face_install now h host dlr bt n c) as [a E]. apply inv_face. rewrite E. clear E.
  set (u := next_uid c). set (s := blank _). set (c' := set_sessions _ _).
  assert (Hu : names c !! u = None).
  { apply eq_None_not_Some. intros Hs. specialize (H3 u Hs). unfold u in H3. lia. }
  assert (En : names c' = <[u := node h]> (names c)).
  { unfold names, c'. cbn [sessions set_sessions]. rewrite fmap_insert, <- map_fmap_compose. by f_equal; apply map_fmap_ext. }
  assert (Ed : dcl c' = <[u := (role h, ∅)]> (dcl c)).
  { unfold dcl, c'. cbn [sessions set_sessions]. rewrite fmap_insert, <- map_fmap_compose. by f_equal; apply map_fmap_ext. }
  assert (Hup : forall v, link_ok c v -> link_ok c' v).
  { unfold link_ok. intros v Hv. rewrite En, lookup_insert_is_Some'. by right. }
  split.
  - rewrite Ed. apply dinv_session; [|done]. apply eq_None_not_Some. rewrite <- names_dcl, Hu. by intros [? ?].
  - intros m v. rewrite En. change (by_peer c') with (<[node h := u]> (by_peer c)). rewrite !lookup_insert_Some, H2. split.
    + intros [[<- <-]|[Hne Hv]]; [by left|right]. split; [|done]. intros <-. congruence.
    + intros [[<- <-]|[Hne Hv]]; [by left|right]. split; [|done]. intros <-. apply H2 in Hv. congruence.
  - intros v. unfold link_ok. rewrite En. change (next_uid c') with (u + 1). intros Hv. apply lookup_insert_is_Some' in Hv as [<-|Hv]; [lia|].
    specialize (H3 v Hv). unfold u. lia.
  - intros q p Hp. destruct (H4 q p Hp) as [Hq (P1 & P2 & P3)]. split; [done|]. split; [done|].
    split; [intros v Hv; by apply Hup, P2|intros v th Ho; apply Hup; by eapply P3].
Qed.

Lemma by_peer_close uid reason st n : Inv st.1 -> by_peer st.1 !! n = Some uid -> by_peer (close router uid reason st).1 !! n = None.
Proof.
  intros H Hn. pose proof (proj1 (i_peer _ H n uid) Hn) as Hu. unfold names in Hu. rewrite lookup_fmap in Hu.
  destruct (sessions st.1 !! uid) as [s|] eqn:Es; [|done]. injection Hu as <-.
  destruct (close_spec uid reason st s H Es) as (Hi & En & _). apply eq_None_not_Some. intros [v Hv]. apply (i_peer _ Hi) in Hv.
  rewrite En in Hv. apply lookup_delete_Some in Hv as [Hne Hv]. apply (i_peer _ H) in Hv. congruence.
Qed.

Lemma inv_accepted now h host sent st : Inv st.1 ->
  Inv (on_accepted me router lease my_boot my_listen parse_addr show_addr now h host sent st).1.
Proof.
  intros H. unfold on_accepted. destruct sent; [|done]. cbn [negb]. set (st0 := emit _ st). assert (H0 : Inv st0.1) by done.
  destruct (accept_verdict me router h st0.1); [done|]. cbn [modc fst]. apply inv_install.
  - destruct (by_peer st0.1 !! node h); [by apply inv_close|done].
  - destruct (by_peer st0.1 !! node h) eqn:E; [by apply by_peer_close|done].
Qed.

Lemma inv_dialed now target n res st : Inv st.1 ->
  Inv (on_dialed me router my_boot parse_addr show_addr now target n res st).1.
Proof.
  intros H. unfold on_dialed. destruct (dials st.1 !! target) as [d|]; [|done]. destruct res as [[h host]|]; [|by apply (inv_same st.1)].
  set (st0 := modc _ st). assert (H0 : Inv st0.1) by (by apply (inv_same st.1)). destruct (_ || _); [done|].
  destruct (by_peer st0.1 !! node h) as [u|] eqn:E.
  - destruct (keep_old me h n u st0.1); [done|]. cbn [modc fst]. apply inv_install; [by apply inv_close|by apply by_peer_close].
  - cbn [modc fst]. by apply inv_install.
Qed.

(** *** Routing *)

Lemma face_put_one from fr key pl k st sent : face (put_one from fr key pl k (st, sent)).1.1 = face st.1.
Proof.
  unfold put_one. destruct k as [[i|u] id]; cbn [fst snd].
  - by destruct (bool_decide _).
  - destruct (_ || _); [done|]. cbn [fst]. destruct (sessions st.1 !! u); [|done]. destruct (fr && _); [done|apply face_push_to].
Qed.

Lemma face_route_put from key pl st : face (route_put router from key pl st).1 = face st.1.
Proof.
  unfold route_put. set (l := matching key (subs st.1)). set (fr := from_router from st.1).
  assert (H : forall st' sent, face (fold_left (fun acc k => put_one from fr key pl k acc) l (st', sent)).1.1 = face st'.1).
  { induction l as [|k l IH]; intros st' sent; [done|]. cbn [fold_left].
    pose proof (face_put_one from fr key pl k st' sent) as E. destruct (put_one from fr key pl k (st', sent)) as [st1 s1]. by rewrite IH. }
  specialize (H st ∅). destruct (fold_left _ l (st, ∅)) as [st1 s1]. cbn [fst] in H. destruct from; [done|].
  cbn [modc fst]. by rewrite face_upstream.
Qed.

(** While a query is being sent out, it alone may have no target left. *)
Definition asking (q : Z) (c : Core) : Prop :=
  Inv (set_pending (delete q (pending c)) c) /\
  forall p, pending c !! q = Some p -> q < next_id c /\
    (forall u, TSess u ∈ targets p -> link_ok c u) /\ (forall u th, origin p = FromSess u th -> link_ok c u).

Lemma asking_face q c : asking q (face c) <-> asking q c.
Proof.
  unfold asking. change (set_pending (delete q (pending (face c))) (face c)) with (face (set_pending (delete q (pending c)) c)).
  rewrite inv_face. unfold link_ok. rewrite names_face. done.
Qed.

Lemma asking_done q t c : asking q c -> asking q (target_done q t c).
Proof.
  clear me lease my_boot my_listen parse_addr show_addr.
  intros H. apply asking_face. apply asking_face in H. rewrite face_target_done. set (d := face c) in *.
  change (pending c) with (pending d). destruct H as [H1 H2]. unfold p_done. destruct (pending d !! q) as [p|] eqn:E.
  2:{ split; [done|]. intros p Hp. cbn [pending set_pending] in Hp. congruence. }
  destruct (_ && _) eqn:Eb; split; cbn [pending set_pending].
  - by rewrite delete_delete_eq.
  - intros p'. by rewrite lookup_delete_eq.
  - by rewrite delete_insert_eq.
  - intros p'. rewrite lookup_insert_eq. intros [= <-]. destruct (H2 p eq_refl) as (A & B & C). split; [done|]. cbn [targets origin]. split; [|done].
    intros u Hu. apply B. set_solver.
Qed.

Lemma asking_ask gone q expr pl timeout t st : asking q st.1 -> asking q (ask gone q expr pl timeout st t).1.
Proof.
  intros H. unfold ask. destruct t as [id|u].
  - destruct (bool_decide _); [|done]. destruct (bool_decide _); [|done]. by apply asking_done.
  - set (st1 := modc _ st). assert (H1 : asking q st1.1) by (apply asking_face; unfold st1; cbn [modc fst]; rewrite face_push_to; by apply asking_face).
    assert (H2 : forall name, asking q (modc (target_done q (TSess u)) (forward_reply q name false (sb "mesh: request lane full") st1)).1).
    { intros name. cbn [modc fst]. apply asking_done, asking_face. rewrite face_forward. by apply asking_face. }
    destruct (sessions st.1 !! u) as [s|]; [destruct (Sess.push _ (ob s)).2; [done|apply H2..]|apply H2].
Qed.

Lemma inv_route_get now gone o expr pl timeout st : Inv st.1 ->
  (forall u th, o = FromSess u th -> link_ok st.1 u) -> Inv (route_get router now gone o expr pl timeout st).1.
Proof.
  intros Hi Ho. unfold route_get. set (q := next_id st.1). set (ts := query_targets router (from_of o) expr st.1).
  set (st1 := modc _ st). set (st2 := fold_left _ (elements ts) st1).
  assert (Hq : pending st.1 !! q = None).
  { apply eq_None_not_Some. intros [p Hp]. destruct (i_pend _ Hi q p Hp). unfold q in *. lia. }
  assert (H1 : asking q st1.1).
  { split; cbn [st1 modc fst pending set_pending set_next_id].
    - rewrite delete_insert_eq, delete_id by done. destruct Hi as [D1 D2 D3 D4]. split; try done.
      + eapply dinv_next; [exact D1|]. cbn. unfold q. lia.
      + intros q' p Hp. destruct (D4 q' p Hp). split; [cbn; unfold q; lia|done].
    - intros p. rewrite lookup_insert_eq. intros [= <-]. cbn [targets origin next_id set_pending set_next_id]. split; [lia|]. split; [|exact Ho].
      intros u Hu. unfold ts, query_targets in Hu. apply elem_of_union in Hu as [Hu|Hu]; rewrite elem_of_list_to_set, list_elem_of_omap in Hu.
      + destruct Hu as ([i e] & _ & Hu). by destruct (Kx.intersects _ _).
      + destruct Hu as ([v s] & Hv & Hu). destruct (negb _ && _); [|done]. injection Hu as ->. apply elem_of_map_to_list in Hv.
        unfold link_ok, names. cbn [sessions set_pending set_next_id]. rewrite lookup_fmap, Hv. by eexists. }
  assert (H2 : asking q st2.1).
  { unfold st2. generalize (elements ts). intros l. revert H1. generalize st1. induction l as [|t l IH]; intros st' H1; [done|].
    cbn [fold_left]. apply IH. by apply asking_ask. }
  clearbody st2. destruct H2 as [A B]. destruct (pending st2.1 !! q) as [p|] eqn:Ep.
  - destruct (B p eq_refl) as (B1 & B2 & B3). case_bool_decide as He.
    + cbn [modc fst]. apply inv_face. rewrite face_finish. apply inv_face in A. exact A.
    + destruct A as [A1 A2 A3 A4]. split; try done. intros q' p' Hp'. destruct (decide (q' = q)) as [->|Hn].
      * rewrite Ep in Hp'. injection Hp' as <-. by split.
      * apply (A4 q' p'). cbn [pending set_pending]. by rewrite lookup_delete_ne.
  - destruct A as [A1 A2 A3 A4]. split; try done. intros q' p' Hp'. apply (A4 q' p'). cbn [pending set_pending].
    rewrite lookup_delete_ne; [done|]. intros ->. congruence.
Qed.

(** *** Messages *)

(** Replacing the declarations of a session. *)
Definition with_decls (uid : Z) (D : gmap DeclKey string) (s : Session) (c : Core) : Core :=
  set_sessions (<[uid := set_decls D s]> (sessions c)) c.

Lemma names_with_decls uid D s c : sessions c !! uid = Some s -> names (with_decls uid D s c) = names c.
Proof.
  intros Hs. unfold names, with_decls. cbn [sessions set_sessions]. rewrite fmap_insert. apply insert_id. by rewrite lookup_fmap, Hs.
Qed.
Lemma dcl_with_decls uid D s c : dcl (with_decls uid D s c) = <[uid := (srole s, D)]> (dcl c).
Proof. unfold dcl, with_decls. cbn [sessions set_sessions]. by rewrite fmap_insert. Qed.

(** The parts of the invariant that declarations do not touch. *)
Lemma inv_redeclared c c' : Inv c -> names c' = names c -> by_peer c' = by_peer c -> next_uid c' = next_uid c ->
  next_id c <= next_id c' -> pending c' = pending c ->
  DInv router (dcl c') (l_tokens c') (l_subs c') (l_qabls c') (tok c') (subs c') (out c') (south c') (next_id c') -> Inv c'.
Proof.
  intros [H1 H2 H3 H4] En Eb Eu Ei Ep HD. split; [done|..].
  - intros n u. by rewrite Eb, En.
  - intros u. unfold link_ok. rewrite En, Eu. apply H3.
  - intros q p. rewrite Ep. intros Hp. destruct (H4 q p Hp) as [Hq (P1 & P2 & P3)]. split; [lia|]. unfold pending_ok, link_ok. by rewrite En.
Qed.

(** A declaration made again under its number says the same. The core of a peer takes every
    number from a counter that only goes up ([next_id]), so a peer that runs this program keeps
    to it; a peer that does not could declare another key under a number it has used, which
    [remote_declare] takes without giving up the first. *)
Definition declares_once (uid : Z) (m : Msg) (c : Core) : Prop :=
  match m with
  | MDeclare k id e => forall s e', sessions c !! uid = Some s -> decls s !! (k, id) = Some e' -> e' = e
  | _ => True
  end.

Lemma inv_remote_declare uid s k id e st : Inv st.1 -> sessions st.1 !! uid = Some s ->
  declares_once uid (MDeclare k id e) st.1 -> Inv (remote_declare router uid (srole s) k id e st).1.
Proof.
  intros Hi Hs Ho. unfold remote_declare. destruct (negb router) eqn:Er; [done|]. apply negb_false_iff in Er. rewrite Hs.
  fold (with_decls uid (<[(k, id) := e]> (decls s)) s). set (st1 := modc (with_decls _ _ s) st).
  assert (En : names st1.1 = names st.1) by (by apply names_with_decls).
  assert (Ed : dcl st1.1 = <[uid := (srole s, <[(k, id) := e]> (decls s))]> (dcl st.1)) by apply dcl_with_decls.
  assert (Hd : dcl st.1 !! uid = Some (srole s, decls s)) by (unfold dcl; by rewrite lookup_fmap, Hs).
  destruct (decls s !! (k, id)) as [e'|] eqn:Ek.
  - apply (inv_redeclared st.1); try done. rewrite Ed. specialize (Ho s e' Hs Ek) as ->.
    rewrite (insert_id _ (k, id)), insert_id by done. apply (i_decl _ Hi).
  - pose proof (dinv_declare router _ _ _ _ _ _ _ _ _ uid (srole s) (decls s) k id e Er (i_decl _ Hi) Hd Ek) as HD.
    cbv zeta in HD. rewrite <- Ed in HD.
    set (st2 := match k with KToken => _ | KSub => _ | KQabl => _ end).
    assert (E2 : face st2.1 = face st1.1 |> set_tok (tok_with k e (tok st.1)) |> set_subs (idx_with k (OSess uid, id) e (subs st.1))).
    { unfold st2. destruct k; cbn [tok_with idx_with]; [by rewrite face_tok_add|done|]. unfold st1. by destruct st as [[] ?]. }
    clearbody st2. destruct (bool_decide (srole s = Client)).
    + cbn [modc fst]. apply inv_face. rewrite face_announce. set (c3 := set_out _ _). assert (E3 : face c3 = face st1.1 |> set_tok (tok_with k e (tok st.1))
        |> set_subs (idx_with k (OSess uid, id) e (subs st.1)) |> set_next_id (next_id st.1 + 1)
        |> set_south (<[(uid, k, id) := next_id st.1]> (south st.1)) |> set_out (<[next_id st.1 := (k, e)]> (out st.1))).
      { unfold c3. change (face (set_out ?x (set_south ?y (set_next_id ?z st2.1)))) with (set_out x (set_south y (set_next_id z (face st2.1)))).
        rewrite E2. cbn [out south set_next_id set_south].
        rewrite (f_equal next_id E2 : next_id st2.1 = next_id st.1), (f_equal south E2 : south st2.1 = south st.1), (f_equal out E2 : out st2.1 = out st.1). done. }
      rewrite E3. apply (inv_redeclared (face st.1)); try done; [by apply inv_face| | |].
      * change (names (face st1.1) = names (face st.1)). by rewrite !names_face.
      * cbn. lia.
      * change (DInv router (dcl (face st1.1)) (l_tokens st.1) (l_subs st.1) (l_qabls st.1) (tok_with k e (tok st.1)) (idx_with k (OSess uid, id) e (subs st.1))
          (<[next_id st.1 := (k, e)]> (out st.1)) (<[(uid, k, id) := next_id st.1]> (south st.1)) (next_id st.1 + 1)).
        by rewrite dcl_face.
    + apply inv_face. rewrite E2. apply (inv_redeclared (face st.1)); try done; [by apply inv_face| |].
      * change (names (face st1.1) = names (face st.1)). by rewrite !names_face.
      * change (DInv router (dcl (face st1.1)) (l_tokens st.1) (l_subs st.1) (l_qabls st.1) (tok_with k e (tok st.1)) (idx_with k (OSess uid, id) e (subs st.1))
          (out st.1) (south st.1) (next_id st.1)). by rewrite dcl_face.
Qed.

Lemma inv_remote_undeclare uid k id st : Inv st.1 -> Inv (remote_undeclare router uid k id st).1.
Proof.
  intros Hi. unfold remote_undeclare. destruct (sessions st.1 !! uid) as [s|] eqn:Hs; [|done].
  destruct (decls s !! (k, id)) as [e|] eqn:Ek; [|done]. fold (with_decls uid (delete (k, id) (decls s)) s).
  set (st1 := modc (with_decls _ _ s) st). cbn [modc fst]. apply inv_face. rewrite face_drop_decl.
  assert (Hd : dcl st.1 !! uid = Some (srole s, decls s)) by (unfold dcl; by rewrite lookup_fmap, Hs).
  pose proof (dinv_drop router _ _ _ _ _ _ _ _ _ uid (srole s) (decls s) k id e (i_decl _ Hi) Hd Ek) as HD.
  apply (inv_redeclared (face st.1)); try done; [by apply inv_face| |].
  - change (names (face st1.1) = names (face st.1)). rewrite !names_face. by apply names_with_decls.
  - change (DInv router (dcl (face st1.1)) (l_tokens st.1) (l_subs st.1) (l_qabls st.1) (tok_without k e (tok st.1)) (idx_without k (OSess uid, id) (subs st.1))
      (out_without (south st.1 !! (uid, k, id)) (out st.1)) (delete (uid, k, id) (south st.1)) (next_id st.1)).
    rewrite dcl_face. unfold st1. cbn [modc fst]. by rewrite dcl_with_decls.
Qed.

Lemma inv_target_done q t c : Inv c -> Inv (target_done q t c).
Proof.
  clear me lease my_boot my_listen parse_addr show_addr.
  intros H. apply inv_face. rewrite face_target_done. apply inv_face in H. set (d := face c) in *. change (pending c) with (pending d).
  clearbody d. destruct H as [H1 H2 H3 H4]. split; try done. intros q' p. cbn [pending set_pending]. unfold p_done.
  destruct (pending d !! q) as [p0|] eqn:E; [|apply H4]. destruct (bool_decide (t ∈ targets p0) && bool_decide (targets p0 ∖ {[t]} = ∅)) eqn:Eb.
  - intros Hp. apply lookup_delete_Some in Hp as [_ Hp]. by apply H4.
  - intros Hp. apply lookup_insert_Some in Hp as [[<- <-]|[_ Hp]]; [|by apply H4].
    destruct (H4 q p0 E) as [Hq (P1 & P2 & P3)]. split; [done|]. unfold pending_ok. cbn [targets origin]. split; [|split; [|done]].
    + apply andb_false_iff in Eb as [Eb|Eb]; zbool; [|done]. rewrite difference_disjoint_L by set_solver. done.
    + intros u Hu. apply P2. set_solver.
Qed.

Lemma inv_msg now gone uid m st : Inv st.1 -> declares_once uid m st.1 -> Inv (on_msg me router now gone uid m st).1.
Proof.
  intros Hi Ho. unfold on_msg. destruct (sessions st.1 !! uid) as [s|] eqn:Hs; [|done]. destruct m; try done.
  - by apply inv_close.
  - by apply inv_remote_declare.
  - by apply inv_remote_undeclare.
  - unfold on_token_sub. destruct (_ || _); [done|]. apply (inv_same st.1); [|done]. cbn [modc fst].
    rewrite face_alter by done. apply face_push_all.
  - apply (inv_same st.1); [|done]. by apply face_alter.
  - unfold on_token_evt. destruct router; [done|]. destruct (l_tsubs st.1 !! id) as [t|]; [|done].
    destruct kind; [destruct (bool_decide _)| |]; by apply (inv_same st.1).
  - apply (inv_same st.1); [|done]. cbn [modc fst]. rewrite face_alter by done. apply face_learn.
  - apply (inv_same st.1); [|done]. apply face_route_put.
  - apply inv_route_get; [done|]. intros u th [= <- _]. unfold link_ok, names. rewrite lookup_fmap, Hs. by eexists.
  - destruct (is_target _ _ _); [|done]. apply (inv_same st.1); [|done]. apply face_forward.
  - by apply inv_target_done.
Qed.

(** *** Commands *)

Lemma if_face (b : bool) (x y : Core) : face (if b then x else y) = if b then face x else face y.
Proof. by destruct b. Qed.

Lemma face_publish k id e c :
  face (publish router k id e c) = face (set_out (if router then <[id := (k, e)]> (out c) else out c) c).
Proof. unfold publish. rewrite if_face, face_announce, face_upstream. by destruct router, c. Qed.
Lemma face_unpublish k id c : face (unpublish router k id c) = face (set_out (if router then delete id (out c) else out c) c).
Proof. unfold unpublish. rewrite if_face, face_announce, face_upstream. by destruct router, c. Qed.

Lemma inv_local k id e (st : St) (c1 : Core) :
  Inv st.1 -> id = next_id st.1 ->
  (forall k' id', local (l_tokens c1) (l_subs c1) (l_qabls c1) k' id' =
     if bool_decide (k' = k /\ id' = id) then Some e else local (l_tokens st.1) (l_subs st.1) (l_qabls st.1) k' id') ->
  dcl c1 = dcl st.1 -> names c1 = names st.1 -> by_peer c1 = by_peer st.1 -> next_uid c1 = next_uid st.1 ->
  next_id c1 = id + 1 -> pending c1 = pending st.1 -> south c1 = south st.1 -> out c1 = out st.1 ->
  tok c1 = (if router then tok_with k e (tok st.1) else tok st.1) -> subs c1 = idx_with k (OLocal id, id) e (subs st.1) ->
  Inv (publish router k id e c1).
Proof.
  intros Hi -> Hl Ed En Eb Eu Ei Ep Es Eo Et Ex.
  pose proof (dinv_local router _ _ _ _ (l_tokens c1) (l_subs c1) (l_qabls c1) _ _ _ _ _ k e (i_decl _ Hi) Hl) as HD.
  set (c2 := set_out (if router then <[next_id st.1 := (k, e)]> (out c1) else out c1) c1).
  assert (H2 : Inv c2).
  { apply (inv_redeclared st.1); try done; [change (next_id st.1 <= next_id c1); lia|].
    cbn [l_tokens l_subs l_qabls tok subs out south next_id set_out c2]. change (dcl c2) with (dcl c1). rewrite Ed, Et, Ex, Es, Ei, Eo. exact HD. }
  apply (inv_same c2); [apply face_publish|done].
Qed.

Lemma inv_unlocal k id e (st : St) (c1 : Core) :
  Inv st.1 -> local (l_tokens st.1) (l_subs st.1) (l_qabls st.1) k id = Some e ->
  (forall k' id', local (l_tokens c1) (l_subs c1) (l_qabls c1) k' id' =
     if bool_decide (k' = k /\ id' = id) then None else local (l_tokens st.1) (l_subs st.1) (l_qabls st.1) k' id') ->
  dcl c1 = dcl st.1 -> names c1 = names st.1 -> by_peer c1 = by_peer st.1 -> next_uid c1 = next_uid st.1 ->
  next_id c1 = next_id st.1 -> pending c1 = pending st.1 -> south c1 = south st.1 -> out c1 = out st.1 ->
  tok c1 = (if router then tok_without k e (tok st.1) else tok st.1) -> subs c1 = idx_without k (OLocal id, id) (subs st.1) ->
  Inv (unpublish router k id c1).
Proof.
  intros Hi Hin Hl Ed En Eb Eu Ei Ep Es Eo Et Ex.
  pose proof (dinv_unlocal router _ _ _ _ (l_tokens c1) (l_subs c1) (l_qabls c1) _ _ _ _ _ k id e (i_decl _ Hi) Hin Hl) as HD.
  set (c2 := set_out (if router then delete id (out c1) else out c1) c1).
  assert (H2 : Inv c2).
  { apply (inv_redeclared st.1); try done; [change (next_id st.1 <= next_id c1); lia|].
    cbn [l_tokens l_subs l_qabls tok subs out south next_id set_out c2]. change (dcl c2) with (dcl c1). rewrite Ed, Et, Ex, Es, Ei, Eo. exact HD. }
  apply (inv_same c2); [apply face_unpublish|done].
Qed.

(** The declarations of one kind with one more, or one less. *)
Lemma local_insert (m : gmap Z string) (k : DeclKind) i j e :
  <[i := e]> m !! j = if bool_decide (k = k /\ j = i) then Some e else m !! j.
Proof.
  destruct (decide (j = i)) as [->|Hn]; [by rewrite lookup_insert_eq, bool_decide_true|].
  by rewrite lookup_insert_ne, bool_decide_false by naive_solver.
Qed.
Lemma local_delete (m : gmap Z string) (k : DeclKind) i j :
  delete i m !! j = if bool_decide (k = k /\ j = i) then None else m !! j.
Proof.
  destruct (decide (j = i)) as [->|Hn]; [by rewrite lookup_delete_eq, bool_decide_true|].
  by rewrite lookup_delete_ne, bool_decide_false by naive_solver.
Qed.

Ltac by_kind := intros [] ?; cbn [local]; (by rewrite bool_decide_false by naive_solver) || apply local_insert || apply local_delete.

Lemma inv_declare_token key st : Inv st.1 -> Inv (declare_token router key st).1.
Proof.
  intros Hi. unfold declare_token. set (id := next_id st.1). set (st1 := modc _ st).
  set (st2 := if router then tok_add key st1 else st1). cbn [emit modc fst].
  assert (E : face st2.1 = face st1.1 |> set_tok (if router then tok_with KToken key (tok st.1) else tok st.1)).
  { unfold st2. destruct router; [by rewrite face_tok_add|]. by destruct st as [[] ?]. }
  assert (Ed : dcl st2.1 = dcl st.1) by (rewrite <- dcl_face, E; apply (dcl_face st1.1)).
  assert (En : names st2.1 = names st.1) by (rewrite <- names_face, E; apply (names_face st1.1)).
  apply (inv_local KToken id key st); try done; [|apply (f_equal by_peer E)|apply (f_equal next_uid E)|apply (f_equal next_id E)
    |apply (f_equal pending E)|apply (f_equal south E)|apply (f_equal out E)|apply (f_equal tok E)|apply (f_equal subs E)].
  rewrite (f_equal l_tokens E : l_tokens st2.1 = <[id := key]> (l_tokens st.1)),
    (f_equal l_subs E : l_subs st2.1 = l_subs st.1), (f_equal l_qabls E : l_qabls st2.1 = l_qabls st.1). by_kind.
Qed.

Lemma inv_subscribe expr st : Inv st.1 -> Inv (subscribe router expr st).1.
Proof. intros Hi. apply (inv_local KSub (next_id st.1) expr st); try done; [by_kind|by destruct router]. Qed.

Lemma inv_queryable expr st : Inv st.1 -> Inv (queryable router expr st).1.
Proof. intros Hi. apply (inv_local KQabl (next_id st.1) expr st); try done; [by_kind|by destruct router]. Qed.

Lemma inv_next c id : Inv c -> next_id c <= id -> Inv (set_next_id id c).
Proof.
  intros [H1 H2 H3 H4] Hle. split; try done; [by eapply dinv_next|]. intros q p Hp. destruct (H4 q p Hp). split; [cbn; lia|done].
Qed.

Lemma inv_token_sub expr hist st : Inv st.1 -> Inv (token_sub router expr hist st).1.
Proof.
  intros Hi. unfold token_sub. set (st1 := modc (set_next_id _) st). assert (H1 : Inv st1.1) by (apply inv_next; [done|lia]).
  set (st2 := if router then _ else _). apply (inv_same st1.1); [|done]. change (face st2.1 = face st1.1). unfold st2.
  destruct router; [by destruct hist|]. destruct (upstream false st1.1); [apply face_push_to|by destruct hist].
Qed.

Lemma inv_undeclare k id st : Inv st.1 -> Inv (undeclare router k id st).1.
Proof.
  intros Hi. unfold undeclare. destruct k.
  - destruct (l_tokens st.1 !! id) as [key|] eqn:El; [|done]. set (st1 := modc _ st).
    set (st2 := if router then (tok_del key st1).1 else st1). cbn [modc fst].
    assert (E : face st2.1 = face st1.1 |> set_tok (if router then tok_without KToken key (tok st.1) else tok st.1)).
    { unfold st2. destruct router; [by rewrite face_tok_del|]. by destruct st as [[] ?]. }
    apply (inv_unlocal KToken id key st); try done; [|rewrite <- dcl_face, E; apply (dcl_face st1.1)|rewrite <- names_face, E; apply (names_face st1.1)
      |apply (f_equal by_peer E)|apply (f_equal next_uid E)|apply (f_equal next_id E)
      |apply (f_equal pending E)|apply (f_equal south E)|apply (f_equal out E)|apply (f_equal tok E)|apply (f_equal subs E)].
    rewrite (f_equal l_tokens E : l_tokens st2.1 = delete id (l_tokens st.1)),
      (f_equal l_subs E : l_subs st2.1 = l_subs st.1), (f_equal l_qabls E : l_qabls st2.1 = l_qabls st.1). by_kind.
  - destruct (l_subs st.1 !! id) as [e|] eqn:El.
    + rewrite bool_decide_true by eauto. apply (inv_unlocal KSub id e st); try done; [by_kind|by destruct router].
    + rewrite bool_decide_false by (by intros [? ?]). apply (inv_same st.1); [|done]. cbn [modc fst].
      rewrite delete_id by done. assert (exprs (subs st.1) !! (OLocal id, id) = None) as Hn.
      { apply eq_None_not_Some. intros [e He]. apply (d_sub _ _ _ _ _ _ _ _ _ _ (i_decl _ Hi)) in He as [_ He]. congruence. }
      unfold remove. rewrite Hn. by destruct (st.1).
  - destruct (l_qabls st.1 !! id) as [e|] eqn:El.
    + rewrite bool_decide_true by eauto. apply (inv_unlocal KQabl id e st); try done; [by_kind|by destruct router].
    + rewrite bool_decide_false by (by intros [? ?]). apply (inv_same st.1); [|done]. cbn [modc fst].
      rewrite delete_id by done. by destruct (st.1).
Qed.

(** Every command but the last one, after which the node's task ends. *)
Lemma inv_cmd now gone x st : Inv st.1 -> x <> Close -> Inv (on_cmd router now gone x st).1.
Proof.
  intros Hi Hx. destruct x; cbn [on_cmd].
  - by apply inv_declare_token.
  - by apply inv_subscribe.
  - by apply inv_queryable.
  - by apply inv_token_sub.
  - by apply inv_undeclare.
  - apply (inv_same st.1); [|done]. unfold token_unsub. destruct (bool_decide _); [|done]. cbn [modc fst]. by rewrite face_upstream.
  - apply (inv_same st.1); [|done]. apply face_route_put.
  - by apply inv_route_get.
  - destruct (is_target _ _ _); [|done]. apply (inv_same st.1); [|done]. apply face_forward.
  - by apply inv_target_done.
  - done.
Qed.

(** ** Every state a node can be in *)

(** What can happen: the tick, an event of a session, a connection that came in, a dial
    that ended, a command; a writer that empties an outbox and a reader that notes when it
    heard its peer work beside the node's task. *)
Inductive Input :=
| ITick (gap : Z)
| ISess (e : SessEv)
| IAccepted (h : Hello) (host : string) (sent : bool)
| IDialed (target : string) (n : Z) (res : option (Hello * string))
| ICmd (x : Cmd)
| IWrite (uid : Z) (idle : bool)
| IHeard (uid : Z).

Definition set_last_rx x (s : Session) : Session :=
  mkSession (peer s) (srole s) (dialer s) (sboot s) (ssno s) (adv s) (ob s) x (decls s) (tsubs s) (speers s).

Definition input (now : Z) (gone : gset Z) (i : Input) (c : Core) : St :=
  match i with
  | ITick gap => on_tick me router lease my_boot my_listen now gap (c, [])
  | ISess Paused => fence router (c, [])
  | ISess (Closed uid r) => close router uid r (c, [])
  | ISess (Heard uid m) => on_msg me router now gone uid m (c, [])
  | IAccepted h host sent => on_accepted me router lease my_boot my_listen parse_addr show_addr now h host sent (c, [])
  | IDialed target n res => on_dialed me router my_boot parse_addr show_addr now target n res (c, [])
  | ICmd x => on_cmd router now gone x (c, [])
  | IWrite uid idle => (set_sessions (alter (fun s => set_ob (Sess.write_turn idle (ob s)).1 s) uid (sessions c)) c, [])
  | IHeard uid => (set_sessions (alter (set_last_rx now) uid (sessions c)) c, [])
  end.

Definition input_ok (c : Core) (i : Input) : Prop :=
  match i with ISess (Heard uid m) => declares_once uid m c | ICmd x => x <> Close | _ => True end.

Inductive step : Core -> Core -> Prop :=
| step_input now gone i c : input_ok c i -> step c (input now gone i c).1.

Definition reachable (seeds : list string) (c : Core) : Prop := rtc step (new seeds) c.

Lemma inv_new seeds : Inv (new seeds).
Proof.
  split; cbn.
  - split; try done.
    + intros k. exists ∅. rewrite bool_decide_true by done. split; [|done]. intros o. split; [set_solver|].
      destruct o as [[i|u] id]; cbn [holds]; [intros (_ & _ & H)|intros (r & R & H & _)]; done.
    + intros [[i|u] id] e; cbn [subscribed exprs empty]; (split; [done|]); [intros [_ H]|intros (r & R & H & _)]; done.
    + intros _. split; [done|]. split; [done|]. intros u k id e (r & R & H & _). done.
    + intros _ rid k e. rewrite lookup_empty. split; [done|]. intros [H|(u & id & H & _)]; [by destruct k|done].
    + intros _ u k id. rewrite lookup_empty. split; [by intros [? ?]|]. intros (R & H & _). done.
    + intros k id [e H]. by destruct k.
  - done.
  - intros u [n H]. done.
  - done.
Qed.

Lemma inv_step c c' : step c c' -> Inv c -> Inv c'.
Proof.
  intros [now gone i d Hok] Hi. destruct i as [gap|[|uid r|uid m]|h host sent|target n res|x|uid idle|uid]; cbn [input].
  - by apply inv_tick.
  - by apply inv_fence.
  - by apply inv_close.
  - by apply inv_msg.
  - by apply inv_accepted.
  - by apply inv_dialed.
  - by apply inv_cmd.
  - apply (inv_same d); [|done]. by apply face_alter.
  - apply (inv_same d); [|done]. by apply face_alter.
Qed.

Lemma inv_reachable seeds c : reachable seeds c -> Inv c.
Proof.
  revert c. apply rtc_ind_r; [apply inv_new|]. intros y z _ Hs IH. by eapply inv_step.
Qed.

(** *** States to look at *)

Definition input_okb (c : Core) (i : Input) : bool :=
  match i with
  | ISess (Heard uid (MDeclare k id e)) =>
    match sessions c !! uid with
    | Some s => match decls s !! (k, id) with Some e' => String.eqb e' e | None => true end
    | None => true
    end
  | ICmd Close => false
  | _ => true
  end.

Lemma input_okb_ok c i : input_okb c i = true -> input_ok c i.
Proof.
  destruct i as [|[|uid r|uid m]| | |[]| |]; try done. destruct m; try done. cbn. intros H s e' Hs He. rewrite Hs, He in H.
  by apply String.eqb_eq in H.
Qed.

(** A node that all this happens to, one thing per millisecond. *)
Fixpoint run (now : Z) (xs : list Input) (c : Core) : option Core :=
  match xs with
  | [] => Some c
  | i :: xs => if input_okb c i then run (now + 1) xs (input now ∅ i c).1 else None
  end.

Lemma steps_run xs : forall now c c', run now xs c = Some c' -> rtc step c c'.
Proof.
  induction xs as [|i xs IH]; intros now c c' H; cbn [run] in H; [by injection H as ->|].
  destruct (input_okb c i) eqn:E; [|done]. eapply rtc_l; [constructor; by apply input_okb_ok|by eapply IH].
Qed.

Lemma reach_run seeds xs c : run 0 xs (new seeds) = Some c -> reachable seeds c.
Proof. apply steps_run. Qed.

End Node.
End Inv.
