(* ===== verification/MeshThm.v ===== *)
(** * What a mesh node promises

    Theorems on crates/oxmesh/src/core.rs, for every state a node can come to
    ([Inv.reachable]): the token table, what other nodes are told, sessions, queries and
    the routing of samples. *)

From S2P Require Import Prelude Keyexpr MeshWire MeshSession MeshIndex MeshCore MeshDecl MeshInv.

Module MeshThm.
Import Wire Idx Mesh Decl Inv.

(** ** Lemmas *)

Section Node.
Context (me : string) (router : bool) (lease : Z) (my_boot : Z) (my_listen : list string).
Context (parse_addr : string -> option (bool * Z)) (show_addr : string -> Z -> string).

Abbreviation reach := (reachable me router lease my_boot my_listen parse_addr show_addr).
Abbreviation reach_inv := (inv_reachable me router lease my_boot my_listen parse_addr show_addr).

Lemma dcl_lookup c u r R : dcl c !! u = Some (r, R) <-> exists s, sessions c !! u = Some s /\ srole s = r /\ decls s = R.
Proof.
  unfold dcl. rewrite lookup_fmap. destruct (sessions c !! u) as [s|]; cbn; [|by split; [|intros (? & ? & _)]].
  split; [intros [= <- <-]; eauto|intros (? & [= <-] & <- & <-); done].
Qed.

Lemma names_lookup c u n : names c !! u = Some n <-> exists s, sessions c !! u = Some s /\ peer s = n.
Proof.
  unfold names. rewrite lookup_fmap. destruct (sessions c !! u) as [s|]; cbn; [|by split; [|intros (? & ? & _)]].
  split; [intros [= <-]; eauto|intros (? & [= <-] & <-); done].
Qed.

Lemma link_lookup c u : link_ok c u <-> is_Some (sessions c !! u).
Proof.
  unfold link_ok, names. rewrite lookup_fmap. destruct (sessions c !! u); cbn; split; intros [? ?]; done || eauto.
Qed.

(** *** Samples *)

(** The sessions and the local subscribers a list of subscriptions stands for. *)
Definition goes_to (from : option Z) (fr : bool) (l : list SubId) (u : Z) (s : Session) : Prop :=
  from <> Some u /\ fr && is_router s = false /\ exists id, (OSess u, id) ∈ l.

Definition local_of (k : SubId) : option Z := match k.1 with OLocal _ => Some k.2 | OSess _ => None end.

(** What one subscription of session [v] does to the state. *)
Definition hand (fr : bool) (m : Msg) (v : Z) (c : Core) : Core :=
  match sessions c !! v with Some s => if fr && is_router s then c else push_to v m c | None => c end.

Lemma hand_rest fr m v c : hand fr m v c = set_sessions (sessions (hand fr m v c)) c.
Proof. unfold hand. destruct (sessions c !! v) as [s|]; [destruct (fr && is_router s)|]; by destruct c. Qed.

Lemma hand_lookup fr m v c u s : sessions c !! u = Some s ->
  sessions (hand fr m v c) !! u = Some (if bool_decide (u = v) && negb (fr && is_router s) then tell m s else s).
Proof.
  intros Hs. unfold hand. destruct (decide (u = v)) as [->|Hn].
  - rewrite bool_decide_true by done. rewrite Hs. destruct (fr && is_router s); [done|].
    cbn [negb andb push_to sessions set_sessions]. by rewrite lookup_alter_eq, Hs.
  - rewrite bool_decide_false by done. destruct (sessions c !! v) as [s'|]; [|done]. destruct (fr && is_router s'); [done|].
    cbn [push_to sessions set_sessions andb]. by rewrite lookup_alter_ne.
Qed.

Lemma put_one_sess from fr key pl v id c es sent : from <> Some v -> v ∉ sent ->
  put_one from fr key pl (OSess v, id) ((c, es), sent) = ((hand fr (MPut key pl) v c, es), sent ∪ {[v]}).
Proof.
  intros Hf Hs. cbn [put_one fst snd]. rewrite (bool_decide_false (Some v = from)), bool_decide_false by congruence. cbn [orb].
  unfold hand. destruct (sessions c !! v) as [s|]; [|done]. by destruct (fr && is_router s).
Qed.

Lemma put_fold from fr key pl l : forall c es sent,
  (forall k, k ∈ l -> forall i, local_of k = Some i -> is_Some (l_subs c !! i)) ->
  let acc := fold_left (fun acc k => put_one from fr key pl k acc) l ((c, es), sent) in
  acc.1.1 = set_sessions (sessions acc.1.1) c /\
  acc.1.2 = es ++ map (fun i => ESample i key pl) (omap local_of l) /\
  forall u s, sessions c !! u = Some s ->
    (goes_to from fr l u s /\ u ∉ sent -> sessions acc.1.1 !! u = Some (tell (MPut key pl) s)) /\
    (~ (goes_to from fr l u s /\ u ∉ sent) -> sessions acc.1.1 !! u = Some s).
Proof.
  clear me router lease my_boot my_listen parse_addr show_addr.
  induction l as [|[[i|v] id] l IH]; intros c es sent Hl; cbn [fold_left].
  - cbn. rewrite app_nil_r. split; [by destruct c|]. split; [done|]. intros u s Hs. split; [|done]. intros [(_ & _ & [? H]) _]. set_solver.
  - assert (Hi : is_Some (l_subs c !! id)) by (apply (Hl (OLocal i, id)); [set_solver|done]).
    cbn [put_one fst snd]. rewrite bool_decide_true by done. cbn [emit fst snd].
    destruct (IH c (es ++ [ESample id key pl]) sent) as (A & B & C); [intros; eapply Hl; [by apply list_elem_of_further|done]|].
    split; [done|]. split; [etransitivity; [exact B|]; cbn; by rewrite <- app_assoc|].
    intros u s Hs. destruct (C u s Hs) as [C1 C2]. assert (E : goes_to from fr ((OLocal i, id) :: l) u s <-> goes_to from fr l u s).
    { unfold goes_to. setoid_rewrite elem_of_cons. naive_solver. }
    rewrite E. done.
  - assert (Hl' : forall k, k ∈ l -> forall i, local_of k = Some i -> is_Some (l_subs c !! i)) by (intros; eapply Hl; [by apply list_elem_of_further|done]).
    destruct (bool_decide (Some v = from) || bool_decide (v ∈ sent)) eqn:Eb.
    + assert (E0 : put_one from fr key pl (OSess v, id) ((c, es), sent) = ((c, es), sent)) by (cbn; by rewrite Eb). rewrite E0.
      destruct (IH c es sent Hl') as (A & B & C). split; [done|]. split; [done|]. intros u s Hs. destruct (C u s Hs) as [C1 C2].
      assert (E : (goes_to from fr ((OSess v, id) :: l) u s /\ u ∉ sent) <-> (goes_to from fr l u s /\ u ∉ sent)).
      { apply orb_true_iff in Eb. unfold goes_to. setoid_rewrite elem_of_cons. split; [|naive_solver].
        intros ((F & G & [j [[= -> ->]|Hj]]) & Hn); [|naive_solver]. exfalso. destruct Eb as [Eb|Eb]; zbool; [by rewrite Eb in F|done]. }
      by rewrite E.
    + apply orb_false_iff in Eb as [Ef Esn]. zbool. rewrite put_one_sess by congruence.
      set (c1 := hand fr (MPut key pl) v c). pose proof (hand_rest fr (MPut key pl) v c) as E1. fold c1 in E1.
      destruct (IH c1 es (sent ∪ {[v]})) as (A & B & C); [by rewrite E1|]. split; [by rewrite A, E1|]. split; [done|].
      intros u s Hs. pose proof (hand_lookup fr (MPut key pl) v c u s Hs) as S1. destruct (C u _ S1) as [C1 C2].
      destruct (decide (u = v)) as [->|Hn].
      * rewrite bool_decide_true in * by done. cbn [andb] in *. rewrite C2 by set_solver. split.
        -- intros ((_ & G & _) & _). by rewrite G.
        -- intros Hno. destruct (fr && is_router s) eqn:G; [done|]. exfalso. apply Hno. split; [|done]. split; [congruence|]. split; [done|]. exists id. set_solver.
      * rewrite bool_decide_false in * by done. cbn [andb] in *.
        assert (E : (goes_to from fr ((OSess v, id) :: l) u s /\ u ∉ sent) <-> (goes_to from fr l u s /\ u ∉ sent ∪ {[v]})).
        { unfold goes_to. setoid_rewrite elem_of_cons. set_solver. }
        by rewrite E.
Qed.

(** *** Queries and the tick *)

Lemma pending_finish_list qs : forall c,
  pending (fold_left (fun c q => finish q c) qs c) = foldr delete (pending c) (reverse qs) /\
  face (fold_left (fun c q => finish q c) qs c) = set_pending (foldr delete (pending c) (reverse qs)) (face c).
Proof.
  induction qs as [|q qs IH]; intros c; cbn [fold_left]; [by destruct c|]. destruct (IH (finish q c)) as [E1 E2].
  pose proof (face_finish q c) as F. assert (P : pending (finish q c) = delete q (pending c)) by apply (f_equal pending F).
  rewrite reverse_cons, foldr_app. cbn [foldr]. rewrite <- P, E1, E2, F. done.
Qed.

Lemma foldr_delete (m : gmap Z Pending) qs q p : foldr delete m qs !! q = Some p -> m !! q = Some p /\ q ∉ qs.
Proof.
  clear me router lease my_boot my_listen parse_addr show_addr.
  induction qs as [|x qs IH]; cbn; [intros H; split; [done|set_solver]|]. intros [Hn [H1 H2]%IH]%lookup_delete_Some. split; [done|]. set_solver.
Qed.

Lemma tick_no_late now gap c q p : gap <= lease ->
  pending (on_tick me router lease my_boot my_listen now gap (c, [])).1 !! q = Some p -> now < deadline p.
Proof.
  intros Hg. unfold on_tick. rewrite (proj2 (Z.ltb_ge lease gap)) by done.
  set (st1 := fold_left (fun st u => close router u Expired st) _ (c, [])). set (late := map fst _). set (st2 := modc _ st1).
  set (st3 := dial_wanted _ _ _ _ _ now st2).
  assert (E : forall b : bool, pending (if b then check_partial me lease now (modc (set_last_partial_check now) st3) else st3).1 = pending st2.1).
  { intros b. assert (E3 : pending st3.1 = pending st2.1) by (unfold st3; apply (f_equal pending (face_dial_wanted me router lease my_boot my_listen now st2))).
    destruct b; [|done]. rewrite <- E3. apply (f_equal pending (face_check_partial me lease now (modc (set_last_partial_check now) st3))). }
  rewrite E. unfold st2. cbn [modc fst]. rewrite (proj1 (pending_finish_list late st1.1)). intros [Hp Hno]%foldr_delete.
  destruct (Z.ltb_spec now (deadline p)) as [|Hd]; [done|]. exfalso. apply Hno. rewrite elem_of_reverse. unfold late.
  apply list_elem_of_In, in_map_iff. exists (q, p). split; [done|]. apply filter_In. split; [|cbn; by apply Z.leb_le].
  by apply list_elem_of_In, elem_of_map_to_list.
Qed.

(** *** All sessions closed *)

Lemma names_close uid r st : Inv router st.1 -> names (close router uid r st).1 = delete uid (names st.1).
Proof.
  intros Hi. destruct (sessions st.1 !! uid) as [s|] eqn:Es; [by apply (close_spec router uid r st s)|].
  unfold close. rewrite Es, delete_id; [done|]. unfold names. by rewrite lookup_fmap, Es.
Qed.

Lemma names_close_list r us : forall st, Inv router st.1 ->
  forall u, names (fold_left (fun st u => close router u r st) us st).1 !! u = if bool_decide (u ∈ us) then None else names st.1 !! u.
Proof.
  clear me lease my_boot my_listen parse_addr show_addr.
  induction us as [|v us IH]; intros st Hi u; [done|]. cbn [fold_left]. rewrite IH by (by apply inv_close). rewrite names_close by done.
  destruct (decide (u = v)) as [->|Hn]; [rewrite lookup_delete_eq|rewrite lookup_delete_ne by done].
  - rewrite (bool_decide_true (v ∈ v :: us)) by set_solver. by case_bool_decide.
  - rewrite (bool_decide_ext (u ∈ v :: us) (u ∈ us)) by set_solver. done.
Qed.

Lemma fence_sessions st : Inv router st.1 -> sessions (fence router st).1 = ∅.
Proof.
  clear me lease my_boot my_listen parse_addr show_addr.
  intros Hi. change (sessions (close_all router Fenced st).1 = ∅). apply map_empty. intros u. apply eq_None_not_Some. intros Hu.
  apply link_lookup in Hu as [n Hu]. unfold close_all in Hu. rewrite names_close_list in Hu by done. case_bool_decide as Hb; [done|].
  apply Hb, list_elem_of_In, in_map_iff. apply names_lookup in Hu as (s & Hs & _). exists (u, s). split; [done|].
  by apply list_elem_of_In, elem_of_map_to_list.
Qed.

(** ** Declarations *)

(** C14: A token is alive on a node exactly while somebody holds it, and its count is the number
    of its holders: declarations of this node's own (on a router) and of the sessions that
    are up.  A token is never left behind and never lost early. The peers are taken to number
    their declarations as this program does, no number twice for different keys
    ([declares_once]), and the node has not been told to close. *)
Theorem mesh_tokens_alive seeds c key : reachable me router lease my_boot my_listen parse_addr show_addr seeds c ->
  exists H : gset SubId,
    (forall o, o ∈ H <-> match o with
                         | (OLocal i, j) => router = true /\ i = j /\ l_tokens c !! i = Some key
                         | (OSess u, id) => exists s, sessions c !! u = Some s /\ decls s !! (KToken, id) = Some key
                         end) /\
    tok c !! key = if bool_decide (H = ∅) then None else Some (Z.of_nat (size H)).
Proof.
  intros Hr. destruct (d_tok _ _ _ _ _ _ _ _ _ _ (i_decl _ _ (reach_inv seeds c Hr)) key) as (H & Hh & E).
  exists H. split; [|done]. intros [[i|u] id]; rewrite Hh; cbn [holds]; [done|]. unfold remote. setoid_rewrite dcl_lookup. naive_solver.
Qed.

(** What a router tells a new router: every declaration of its own and every one of its
    clients, under a number of its own, each number once; nothing it has from another
    router. *)
Theorem mesh_declarations_own seeds c : reach seeds c -> router = true ->
  NoDup (map fst (map_to_list (out c))) /\
  forall k rid e, MDeclare k rid e ∈ declarations router c <->
    match k with KToken => l_tokens c | KSub => l_subs c | KQabl => l_qabls c end !! rid = Some e \/
    exists u id s, south c !! (u, k, id) = Some rid /\ sessions c !! u = Some s /\ srole s = Client /\ decls s !! (k, id) = Some e.
Proof.
  intros Hr Er. pose proof (i_decl _ _ (reach_inv seeds c Hr)) as Hd. split; [apply NoDup_fst_map_to_list|]. intros k rid e.
  unfold declarations. rewrite Er, elem_of_app, list_elem_of_In, in_map_iff.
  transitivity (out c !! rid = Some (k, e)).
  { split.
    - intros [([i [k' e']] & [= -> -> ->] & Hin)|Hx]; [|set_solver]. apply list_elem_of_In in Hin. rewrite merge_sort_Permutation in Hin.
      by apply elem_of_map_to_list in Hin.
    - intros Ho. left. exists (rid, (k, e)). split; [done|]. apply list_elem_of_In. rewrite merge_sort_Permutation. by apply elem_of_map_to_list. }
  rewrite (d_out _ _ _ _ _ _ _ _ _ _ Hd Er). assert (El : local (l_tokens c) (l_subs c) (l_qabls c) k rid = match k with KToken => l_tokens c | KSub => l_subs c | KQabl => l_qabls c end !! rid) by (by destruct k).
  rewrite El. apply or_iff_compat_l. split.
  - intros (u & id & Hs & r & R & Hu & HR). destruct (proj1 (d_south _ _ _ _ _ _ _ _ _ _ Hd Er u k id)) as (R' & Hu' & _); [by eexists|].
    assert (r = Client) as -> by congruence. apply dcl_lookup in Hu as (s & H1 & H2 & <-). eauto 10.
  - intros (u & id & s & Hs & Hu & Hc & He). exists u, id. split; [done|]. exists Client, (decls s). split; [|done]. apply dcl_lookup. eauto.
Qed.

(** ** Sessions *)

(** One session per peer: the table by name and the sessions agree. *)
Theorem mesh_one_session_per_peer seeds c u v s t : reach seeds c ->
  sessions c !! u = Some s -> sessions c !! v = Some t -> peer s = peer t -> u = v /\ by_peer c !! peer s = Some u.
Proof.
  intros Hr Hs Ht E. pose proof (i_peer _ _ (reach_inv seeds c Hr)) as Hp.
  assert (A : by_peer c !! peer s = Some u) by (apply Hp, names_lookup; eauto).
  assert (B : by_peer c !! peer s = Some v) by (apply Hp, names_lookup; eauto). split; [congruence|done].
Qed.

(** A session that ends takes everything of its peer with it: the session, its name, its
    subscriptions, what was passed on for it, and its part in queries under way; the other
    sessions are the same ones. *)
Theorem mesh_close_forgets seeds c uid r s : reach seeds c -> sessions c !! uid = Some s ->
  let c' := (close router uid r (c, [])).1 in
  sessions c' !! uid = None /\ by_peer c' !! peer s = None /\
  (forall id, exprs (subs c') !! (OSess uid, id) = None) /\
  (forall k id, south c' !! (uid, k, id) = None) /\
  (forall q p, pending c' !! q = Some p -> (TSess uid ∉ targets p) /\ forall th, origin p <> FromSess uid th) /\
  forall v, v <> uid -> (peer <$> (sessions c' !! v)) = (peer <$> (sessions c !! v)) /\ (decls <$> (sessions c' !! v)) = (decls <$> (sessions c !! v)).
Proof.
  intros Hr Hs c'. pose proof (reach_inv seeds c Hr) as Hi. destruct (close_spec router uid r (c, []) s Hi Hs) as (Hi' & En & Ed & _).
  fold c' in Hi', En, Ed. cbn [fst] in En, Ed. pose proof (i_decl _ _ Hi') as Hd.
  assert (Hu : sessions c' !! uid = None).
  { apply eq_None_not_Some. rewrite <- link_lookup. unfold link_ok. rewrite En, lookup_delete_eq. by intros [? ?]. }
  assert (Hg : dcl c' !! uid = None) by (rewrite Ed; apply lookup_delete_eq).
  split; [done|]. split; [|split; [|split; [|split]]].
  - apply (by_peer_close router uid r (c, []) (peer s) Hi), (i_peer _ _ Hi), names_lookup; eauto.
  - intros id. apply eq_None_not_Some. intros [e He]. apply (d_sub _ _ _ _ _ _ _ _ _ _ Hd) in He as (r' & R & H & _). congruence.
  - intros k id. apply eq_None_not_Some. intros Hx. destruct router eqn:Er.
    + apply (d_south _ _ _ _ _ _ _ _ _ _ Hd eq_refl) in Hx as (R & H & _). congruence.
    + destruct (d_client _ _ _ _ _ _ _ _ _ _ Hd eq_refl) as (_ & E & _). rewrite E in Hx. by destruct Hx.
  - intros q p Hp. destruct (i_pend _ _ Hi' q p Hp) as [_ (_ & A & B)]. split.
    + intros Ht. apply A, link_lookup in Ht. rewrite Hu in Ht. by destruct Ht.
    + intros th Ho. apply B, link_lookup in Ho. rewrite Hu in Ho. by destruct Ho.
  - intros v Hv. assert (A : names c' !! v = names c !! v) by (rewrite En; by apply lookup_delete_ne).
    assert (B : dcl c' !! v = dcl c !! v) by (rewrite Ed; by apply lookup_delete_ne).
    unfold names, dcl in A, B. rewrite !lookup_fmap in A. rewrite !lookup_fmap in B.
    destruct (sessions c' !! v), (sessions c !! v); cbn in *; split; congruence.
Qed.

(** A node that was stopped for longer than its lease starts over: no session is left, no
    declaration of another node, no query that waits for one, and the tokens it lists are
    its own. *)
Theorem mesh_fence_clean seeds c : reach seeds c ->
  let c' := (fence router (c, [])).1 in
  sessions c' = ∅ /\ by_peer c' = ∅ /\ south c' = ∅ /\
  (forall key, is_Some (tok c' !! key) <-> router = true /\ exists i, l_tokens c' !! i = Some key) /\
  (forall q p u, pending c' !! q = Some p -> TSess u ∉ targets p) /\
  forall addr d, dials c' !! addr = Some d -> dnext d = 0 /\ backoff d = BACKOFF_MIN.
Proof.
  intros Hr c'. pose proof (reach_inv seeds c Hr) as Hi. pose proof (fence_sessions (c, []) Hi) as Hs. fold c' in Hs.
  assert (Hi' : Inv router c') by (by apply inv_fence). pose proof (i_decl _ _ Hi') as Hd.
  assert (Hn : names c' = ∅) by (unfold names; by rewrite Hs, fmap_empty). assert (Hdc : dcl c' = ∅) by (unfold dcl; by rewrite Hs, fmap_empty).
  split; [done|]. split; [|split; [|split; [|split]]].
  - apply map_empty. intros n. apply eq_None_not_Some. intros [u Hu]. apply (i_peer _ _ Hi') in Hu. by rewrite Hn in Hu.
  - apply map_empty. intros [[u k] id]. apply eq_None_not_Some. intros Hx. destruct router eqn:Er.
    + apply (d_south _ _ _ _ _ _ _ _ _ _ Hd eq_refl) in Hx as (R & H & _). by rewrite Hdc in H.
    + destruct (d_client _ _ _ _ _ _ _ _ _ _ Hd eq_refl) as (_ & E & _). rewrite E in Hx. by destruct Hx.
  - intros key. destruct (d_tok _ _ _ _ _ _ _ _ _ _ Hd key) as (H & Hh & E). rewrite E. case_bool_decide as Hb.
    + split; [by intros [? ?]|]. intros [Er [i Hx]]. exfalso. assert (X : (OLocal i, i) ∈ H) by (by apply Hh). set_solver.
    + split; [intros _|done]. apply set_choose_L in Hb as [[[i|u] id] Ho]; apply Hh in Ho; cbn [holds] in Ho; [naive_solver|].
      destruct Ho as (r & R & Hx & _). by rewrite Hdc in Hx.
  - intros q p u Hp Ht. destruct (i_pend _ _ Hi' q p Hp) as [_ (_ & A & _)]. apply A in Ht as [n Ht]. by rewrite Hn in Ht.
  - intros addr d. change (dials c') with ((fun d => mkDial (seed d) (dnode d) (busy d) 0 BACKOFF_MIN) <$> dials (close_all router Fenced (c, [])).1).
    rewrite lookup_fmap. destruct (dials _ !! addr); cbn; [|done]. by intros [= <-].
Qed.

(** ** Queries *)

(** C39: No query waits forever or for nobody: after a tick (of a node that was not stopped)
    every query still under way has its deadline ahead, at least one target left, all
    targets among the sessions that are up, and somebody to answer to. *)
Theorem mesh_queries_end seeds c now gap : reach seeds c -> gap <= lease ->
  let c' := (on_tick me router lease my_boot my_listen now gap (c, [])).1 in
  forall q p, pending c' !! q = Some p ->
    now < deadline p /\ targets p <> ∅ /\
    (forall u, TSess u ∈ targets p -> is_Some (sessions c' !! u)) /\
    forall u th, origin p = FromSess u th -> is_Some (sessions c' !! u).
Proof.
  intros Hr Hg c' q p Hp. split; [by eapply tick_no_late|].
  assert (Hi : Inv router c') by (apply inv_tick, (reach_inv seeds c Hr)). destruct (i_pend _ _ Hi q p Hp) as [_ (A & B & C)].
  split; [done|]. split; [intros u Hu; by apply link_lookup, B|intros u th Ho; apply link_lookup; by eapply C].
Qed.

(** ** Samples *)

Lemma NoDup_omap_local l : NoDup l -> (forall i j, (OLocal i, j) ∈ l -> i = j) -> NoDup (omap local_of l).
Proof.
  clear. induction 1 as [|[[i|u] id] l Hno _ IH]; intros Hl; [constructor| |apply IH; set_solver]. cbn. constructor; [|apply IH; set_solver].
  rewrite list_elem_of_omap. intros ([[i'|u'] id'] & Hin & [= ->]). assert (i = id) as -> by (apply Hl; set_solver).
  assert (i' = id) as -> by (apply Hl; set_solver). done.
Qed.

(** C25: Where a router sends a sample: to every session other than the one it came from that
    has a subscription it matches, once however many there are, and not from a router to a
    router; to every matching subscriber of its own, once; to nobody else. *)
Theorem mesh_put_exact seeds c from key payload : reach seeds c -> router = true ->
  Kx.is_key key -> map_Forall (fun _ e => Kx.valid e = true) (exprs (subs c)) ->
  let st := route_put router from key payload (c, []) in
  (forall u s, sessions c !! u = Some s ->
     let wanted := from <> Some u /\ from_router from c && is_router s = false /\
       exists id e, decls s !! (KSub, id) = Some e /\ Kx.intersects e key = true in
     (wanted -> sessions st.1 !! u = Some (tell (MPut key payload) s)) /\
     (~ wanted -> sessions st.1 !! u = Some s)) /\
  exists ids, NoDup ids /\ st.2 = map (fun id => ESample id key payload) ids /\
    forall id, id ∈ ids <-> exists e, l_subs c !! id = Some e /\ Kx.intersects e key = true.
Proof.
  intros Hr Er Hk Hv st. pose proof (i_decl _ _ (reach_inv seeds c Hr)) as Hd.
  destruct (matching_spec (subs c) key (d_idx _ _ _ _ _ _ _ _ _ _ Hd) Hk Hv) as [Hnd Hm].
  set (l := matching key (subs c)) in *. setoid_rewrite (d_sub _ _ _ _ _ _ _ _ _ _ Hd) in Hm.
  assert (Hloc : forall i j, (OLocal i, j) ∈ l <-> i = j /\ exists e, l_subs c !! i = Some e /\ Kx.intersects e key = true).
  { intros i j. rewrite Hm. cbn [subscribed]. naive_solver. }
  assert (Hids : forall id, id ∈ omap local_of l <-> exists e, l_subs c !! id = Some e /\ Kx.intersects e key = true).
  { intros id. rewrite list_elem_of_omap. split.
    - intros ([[i|u] j] & Hin & [= ->]). by apply Hloc in Hin as [-> Hx].
    - intros Hx. exists (OLocal id, id). by rewrite Hloc. }
  destruct (put_fold from (from_router from c) key payload l c [] ∅) as (A & B & C).
  { intros k Hin i Hi. destruct (proj1 (Hids i)) as (e & He & _); [by apply list_elem_of_omap; eauto|]. by exists e. }
  assert (Est : st = (fold_left (fun acc k => put_one from (from_router from c) key payload k acc) l (c, [], ∅)).1).
  { unfold st, route_put. cbn [fst]. fold l. destruct (fold_left _ l _) as [[c1 e1] s1]. cbn [fst]. destruct from; [done|].
    unfold push_upstream, upstream. by rewrite Er. }
  rewrite Est. split.
  - intros u s Hs wanted. destruct (C u s Hs) as [C1 C2].
    assert (E : goes_to from (from_router from c) l u s /\ u ∉ (∅ : gset Z) <-> wanted).
    { unfold goes_to, wanted. setoid_rewrite Hm. cbn [subscribed]. unfold remote. setoid_rewrite dcl_lookup. rewrite Hs.
      split; [|intros (? & ? & id & e & ? & ?); split; [|set_solver]; split_and!; try done; exists id, e; eauto 10].
      intros [(? & ? & id & e & (r & R & (s' & [= <-] & _ & <-) & ?) & ?) _]. eauto 10. }
    by rewrite <- E.
  - exists (omap local_of l). split; [|split; [exact B|done]]. apply NoDup_omap_local; [done|]. intros i j Hij. by apply Hloc in Hij as [-> _].
Qed.

(** ** Two nodes that dial each other *)

(** What sending leaves alone. *)
Definition ends (c : Core) : gmap Z (string * string) * gmap string Z * gmap string Dial :=
  ((fun s => (peer s, dialer s)) <$> sessions c, by_peer c, dials c).

Lemma ends_push_to u m c : ends (push_to u m c) = ends c.
Proof.
  unfold ends. cbn. f_equal. f_equal. apply map_eq. intros v. rewrite !lookup_fmap.
  destruct (decide (v = u)) as [->|Hn]; [rewrite lookup_alter_eq|by rewrite lookup_alter_ne]. by destruct (sessions c !! u).
Qed.
Lemma ends_push_all u ms : forall c, ends (push_all u ms c) = ends c.
Proof. induction ms as [|m ms IH]; intros c; [done|]. cbn. fold (push_all u ms (push_to u m c)). by rewrite IH, ends_push_to. Qed.
Lemma ends_broadcast c : ends (broadcast_peers c) = ends c.
Proof.
  unfold ends. cbn. f_equal. f_equal. rewrite <- map_fmap_compose. apply map_fmap_ext. intros v s _. cbn. by destruct (is_router s).
Qed.
Lemma learn_rest ps : forall c, ends (learn me ps c) = ends c /\ next_uid (learn me ps c) = next_uid c.
Proof.
  induction ps as [|x ps IH]; intros c; [done|].
  change (learn me (x :: ps) c) with (learn me ps (if String.eqb x.1 me then c else set_known (<[x.1 := x.2]> (known c)) c)).
  rewrite (proj1 (IH _)), (proj2 (IH _)). by destruct (String.eqb x.1 me).
Qed.

Lemma install_ends now h host dlr bt n c :
  ends (install me router parse_addr show_addr now h host dlr bt n c) =
  (<[next_uid c := (node h, dlr)]> (ends c).1.1, <[node h := next_uid c]> (by_peer c), dials c).
Proof.
  unfold install. set (c0 := learn me (peers h) _). assert (E0 : ends c0 = ends c).
  { unfold c0. rewrite (proj1 (learn_rest _ _)). destruct (listen h); [done|]. by destruct (bool_decide (role h = Router)). }
  set (s := mkSession _ _ _ _ _ _ _ _ _ _ _). set (c1 := set_sessions _ (set_by_peer _ c0)).
  assert (E1 : ends c1 = (<[next_uid c := (node h, dlr)]> (ends c).1.1, <[node h := next_uid c]> (by_peer c), dials c)).
  { unfold c1. unfold ends in E0 |- *. cbn. injection E0 as E2 E3 E4. by rewrite fmap_insert, E2, E3, E4. }
  rewrite <- E1. destruct router; [destruct (bool_decide (role h = Router)); [|done]; rewrite ends_broadcast|]; by rewrite ends_push_all.
Qed.

(** The node has one session with [n], and [d] dialled it. *)
Definition session_with (n d : string) (c : Core) : Prop :=
  exists u s, by_peer c !! n = Some u /\ sessions c !! u = Some s /\ peer s = n /\ dialer s = d.

Lemma session_ends n d c : session_with n d c <-> exists u, (ends c).1.2 !! n = Some u /\ (ends c).1.1 !! u = Some (n, d).
Proof.
  unfold session_with, ends. cbn. setoid_rewrite lookup_fmap. split.
  - intros (u & s & H1 & H2 & <- & <-). exists u. rewrite H2. done.
  - intros (u & H1 & H2). destruct (sessions c !! u) as [s|] eqn:E; [|done]. injection H2 as <- <-. eauto 10.
Qed.

Lemma session_install now h host dlr bt n c :
  session_with (node h) dlr (install me router parse_addr show_addr now h host dlr bt n c).
Proof. apply session_ends. rewrite install_ends. cbn. exists (next_uid c). by rewrite !lookup_insert_eq. Qed.

(** The dials and the hellos of two connections between the same two routers. *)
Definition smaller (a b : string) : string := if String.ltb a b then a else b.

Lemma smaller_comm a b : a <> b -> smaller a b = smaller b a.
Proof.
  intros Hn. unfold smaller, String.ltb. rewrite (String.compare_antisym b a). destruct (String.compare a b) eqn:E; try done.
  by apply String.compare_eq_iff in E.
Qed.

(** Two routers that dial each other end up with one connection, and both with the same
    one: whichever of the two comes first, a node keeps the one the smaller name dialled. *)
Theorem mesh_crossing_dials c now h1 host1 now' target n h2 host2 d : router = true ->
  node h1 <> me -> node h2 = node h1 -> proto h1 = PROTO -> proto h2 = PROTO ->
  by_peer c !! node h1 = None -> dials c !! target = Some d ->
  let accepted := on_accepted me router lease my_boot my_listen parse_addr show_addr now h1 host1 true in
  let dialed := on_dialed me router my_boot parse_addr show_addr now' target n (Some (h2, host2)) in
  session_with (node h1) (smaller (node h1) me) (dialed (accepted (c, []))).1 /\
  session_with (node h1) (smaller (node h1) me) (accepted (dialed (c, []))).1 /\
  smaller (node h1) me = smaller me (node h1).
Proof.
  intros Er Hme Hn P1 P2 Hb Hd accepted dialed. apply String.eqb_neq in Hme as Eme.
  split; [|split; [|by apply smaller_comm]].
  - assert (Ea : (accepted (c, [])).1 = install me router parse_addr show_addr now h1 host1 (node h1) (boot h1) (sno h1) c).
    { unfold accepted, on_accepted. cbn [negb emit fst]. unfold accept_verdict. rewrite P1, Z.eqb_refl, Eme, Er. cbn [negb orb]. by rewrite Hb. }
    set (st := accepted (c, [])) in *. clearbody st. pose proof (session_install now h1 host1 (node h1) (boot h1) (sno h1) c) as Hs. rewrite <- Ea in Hs.
    pose proof (f_equal snd (install_ends now h1 host1 (node h1) (boot h1) (sno h1) c)) as Edl. rewrite <- Ea in Edl. cbn in Edl.
    unfold dialed, on_dialed. rewrite Edl, Hd, P2, Hn, Z.eqb_refl, Eme, Er. cbn [negb orb andb]. set (st1 := modc _ st).
    destruct Hs as (u & s & H1 & H2 & H3 & H4). change (by_peer st1.1) with (by_peer st.1). rewrite H1.
    unfold keep_old. change (sessions st1.1) with (sessions st.1). rewrite H2, H4, Eme, Hn. unfold smaller.
    destruct (String.ltb (node h1) me); [by exists u, s|]. rewrite <- Hn. rewrite <- Er. apply session_install.
  - assert (Ed : exists c1, (dialed (c, [])).1 = install me router parse_addr show_addr now' h2 host2 me my_boot n c1).
    { unfold dialed, on_dialed. cbn [fst]. rewrite Hd, P2, Hn, Z.eqb_refl, Eme, Er. cbn [negb orb andb modc fst].
      change (by_peer (set_dials ?x c)) with (by_peer c). rewrite Hb. by eexists. }
    destruct Ed as [c1 Ed]. pose proof (session_install now' h2 host2 me my_boot n c1) as Hs. rewrite <- Ed, Hn in Hs.
    set (st := dialed (c, [])) in *. clearbody st. destruct Hs as (u & s & H1 & H2 & H3 & H4).
    unfold accepted, on_accepted. cbn [negb emit fst]. unfold accept_verdict. rewrite P1, Z.eqb_refl, Eme, Er. cbn [negb orb].
    change (by_peer (emit ?x st).1) with (by_peer st.1). change (sessions (emit ?x st).1) with (sessions st.1). rewrite H1, H2, H4.
    rewrite (String.eqb_sym me), Eme. unfold smaller. destruct (String.ltb (node h1) me); [|by exists u, s].
    cbn [modc fst]. rewrite <- Er. apply session_install.
Qed.

End Node.

(** ** A router with two sessions *)

(** Router [m] with router [a] and client [c] connected; the client has declared a token, a
    subscription and a queryable, the router the same token and a subscription, and
    somebody on the router has asked a question the client answers. *)
Definition hello_of (r : Role) (n : string) : Hello := mkHello PROTO r n 5 1 3000 [] [].
Definition no_addr (a : string) : option (bool * Z) := None.
Definition host_only (h : string) (p : Z) : string := h.

Definition story : list Input :=
  [IAccepted (hello_of Router "a") "10.0.0.1" true; IAccepted (hello_of Client "c") "10.0.0.2" true;
   ISess (Heard 2 (MDeclare KToken 1 "ox/t")); ISess (Heard 2 (MDeclare KSub 2 "ox/*")); ISess (Heard 2 (MDeclare KQabl 3 "ox/q"));
   ICmd (DeclareToken "ox/t"); ICmd (Subscribe "ox/a"); ICmd (Get "ox/q" [] 100 1)].

Definition told : Core := default (new []) (run "m" true 3000 7 [] no_addr host_only 0 story (new [])).

Lemma told_reachable : reachable "m" true 3000 7 [] no_addr host_only [] told.
Proof.
  apply (reach_run "m" true 3000 7 [] no_addr host_only [] story). unfold told.
  destruct (run "m" true 3000 7 [] no_addr host_only 0 story (new [])) eqn:E; [done|]. exfalso.
  assert (X : is_Some (run "m" true 3000 7 [] no_addr host_only 0 story (new []))) by (vm_compute; eauto). rewrite E in X. by destruct X.
Qed.

Lemma told_has u n : (peer <$> (sessions told !! u)) = Some n -> exists s, sessions told !! u = Some s /\ peer s = n.
Proof. destruct (sessions told !! u) as [s|]; [|done]. intros [= <-]. eauto. Qed.

Lemma mesh_tokens_alive_witness : exists H : gset SubId, size H = 2%nat /\ (OLocal 4, 4) ∈ H /\ (OSess 2, 1) ∈ H.
Proof.
  destruct (mesh_tokens_alive "m" true 3000 7 [] no_addr host_only [] told "ox/t" told_reachable) as (H & Hh & E).
  exists H. assert (E2 : tok told !! "ox/t" = Some 2) by (vm_compute; reflexivity). rewrite E2 in E. clear E2.
  split; [destruct (bool_decide (H = ∅)); [discriminate E|injection E; lia]|]. rewrite !Hh. split; [split_and!; vm_compute; reflexivity|].
  destruct (told_has 2 "c") as (s & Hs & _); [vm_compute; reflexivity|]. exists s. split; [done|].
  assert (D : ((fun s => decls s !! (KToken, 1)) <$> (sessions told !! 2)) = Some (Some "ox/t")) by (vm_compute; reflexivity).
  rewrite Hs in D. by injection D.
Defined.

Lemma mesh_declarations_own_witness : MDeclare KToken 4 "ox/t" ∈ declarations true told.
Proof.
  apply (mesh_declarations_own "m" true 3000 7 [] no_addr host_only [] told told_reachable eq_refl). left. vm_compute. reflexivity.
Defined.

Lemma mesh_one_session_per_peer_witness : by_peer told !! "c" = Some 2.
Proof.
  destruct (told_has 2 "c") as (s & Hs & <-); [vm_compute; reflexivity|].
  apply (mesh_one_session_per_peer "m" true 3000 7 [] no_addr host_only [] told 2 2 s s told_reachable Hs Hs eq_refl).
Defined.

Lemma mesh_close_forgets_witness : by_peer (close true 2 Expired (told, [])).1 !! "c" = None.
Proof.
  destruct (told_has 2 "c") as (s & Hs & <-); [vm_compute; reflexivity|].
  by destruct (mesh_close_forgets "m" true 3000 7 [] no_addr host_only [] told 2 Expired s told_reachable Hs) as (_ & H & _).
Defined.

Lemma mesh_fence_clean_witness : is_Some (tok (fence true (told, [])).1 !! "ox/t") /\ sessions (fence true (told, [])).1 = ∅.
Proof.
  destruct (mesh_fence_clean "m" true 3000 7 [] no_addr host_only [] told told_reachable) as (A & _ & _ & B & _). split; [|done].
  apply B. split; [done|]. exists 4. vm_compute. reflexivity.
Defined.

Lemma mesh_queries_end_witness : pending (on_tick "m" true 3000 7 [] 107 20 (told, [])).1 = ∅ /\ pending told <> ∅.
Proof.
  split; [|by vm_compute]. apply map_empty. intros q. apply eq_None_not_Some. intros [p Hp].
  pose proof (mesh_queries_end "m" true 3000 7 [] no_addr host_only [] told 107 20 told_reachable ltac:(lia) q p Hp) as (Hd & _).
  assert (A : map_Forall (fun _ p => deadline p = 107) (pending (on_tick "m" true 3000 7 [] 107 20 (told, [])).1)) by (vm_compute; intros ? ? ?; done).
  specialize (A q p Hp). cbn in A. lia.
Defined.

Lemma mesh_put_exact_witness : (route_put true (Some 1) "ox/a" [] (told, [])).2 = [ESample 5 "ox/a" []] /\
  exists s, sessions told !! 2 = Some s /\ sessions (route_put true (Some 1) "ox/a" [] (told, [])).1 !! 2 = Some (tell (MPut "ox/a" []) s).
Proof.
  split; [vm_compute; reflexivity|]. destruct (told_has 2 "c") as (s & Hs & _); [vm_compute; reflexivity|]. exists s. split; [done|].
  assert (D : ((fun s => decls s !! (KSub, 2)) <$> (sessions told !! 2)) = Some (Some "ox/*")) by (vm_compute; reflexivity).
  assert (F : (is_router <$> (sessions told !! 2)) = Some false) by (vm_compute; reflexivity). rewrite Hs in D, F. injection D as D. injection F as F.
  destruct (mesh_put_exact "m" true 3000 7 [] no_addr host_only [] told (Some 1) "ox/a" [] told_reachable eq_refl) as [H _].
  - by split; vm_compute.
  - apply (bool_decide_unpack _). vm_compute. done.
  - destruct (H 2 s Hs) as [Hy _]. apply Hy. split; [done|]. split; [by rewrite F, andb_false_r|]. exists 2, "ox/*". split; [done|vm_compute; reflexivity].
Defined.

Lemma mesh_crossing_dials_witness : session_with "a" "a"
  (on_accepted "m" true 3000 7 [] no_addr host_only 0 (hello_of Router "a") "10.0.0.1" true
     (on_dialed "m" true 7 no_addr host_only 0 "10.0.0.1:9" 1 (Some (hello_of Router "a", "10.0.0.1")) (new ["10.0.0.1:9"], []))).1.
Proof.
  by destruct (mesh_crossing_dials "m" true 3000 7 [] no_addr host_only (new ["10.0.0.1:9"]) 0 (hello_of Router "a") "10.0.0.1" 0 "10.0.0.1:9" 1
    (hello_of Router "a") "10.0.0.1" seed_dial eq_refl) as (_ & H & _).
Defined.

End MeshThm.
