(* ===== verification/Rewriter.v ===== *)
(** * The rewriter of one outgoing stream

    crates/oxsfud/src/fwd/core.rs: a subscriber sees one SSRC whatever source feeds it, so
    that sequence numbers and timestamps are shifted by offsets that change at every
    switch of source.  Sequence numbers are [u16], timestamps [u32], both wrapping. *)

From S2P Require Import Prelude.

Module Rw.

Definition serial_after (a b : Z) : bool := i16 (u16 (a - b)) >? 0.

(** Tenths of a millisecond per frame, from the table of the Opus configuration. *)
Definition frame_x10 (config : Z) : Z :=
  if config <=? 11 then nth (Z.to_nat (config mod 4)) [100; 200; 400; 600] 0
  else if config <=? 15 then nth (Z.to_nat (config mod 2)) [100; 200] 0
  else nth (Z.to_nat (config mod 4)) [25; 50; 100; 200] 0.

Definition opus_toc_samples (payload : list byte) : Z :=
  match payload with
  | [] => 1
  | toc :: rest =>
    let config := Z.shiftr (bz toc) 3 in
    match
      match Z.land (bz toc) 0x03 with
      | 0 => Some 1
      | 1 | 2 => Some 2
      | _ => match rest with b :: _ => Some (Z.land (bz b) 0x3f) | [] => None end
      end
    with
    | None => 1
    | Some frames => Z.max (u32 (u32 (u32 (frame_x10 config * 48) * frames) / 10)) 1
    end
  end.

Definition covers (audio_opus : bool) (payload : list byte) : Z :=
  if audio_opus then opus_toc_samples payload else 1.

Record Last := mkLast { lseq : Z; lts : Z; at_ms : Z; lcovers : Z }.

Record Rewriter := mkRw {
  clock : Z; src : option Z; seq_off : Z; ts_off : Z; last : option Last;
  boundary : option Z; switches : Z; last_out_at : Z }.

Record Mapped := mkMapped { mseq : Z; mts : Z; switched : bool }.

Definition new (clock : Z) : Rewriter := mkRw clock None 0 0 None None 0 0.

(** How far the timestamp moves at a switch: at least what the last packet covers, and
    the time since it on the stream's clock. *)
Definition switch_tick (clock now : Z) (l : Last) : Z :=
  let elapsed := Z.max (sat_sub now (at_ms l)) 1 in
  let ticks := u64 (elapsed * clock / 1000) in
  u32 (Z.max (Z.max (lcovers l) 1) ticks).

(** The part of [map] that runs when the packet is of another source than the last. *)
Definition switch (s seq ts now : Z) (r : Rewriter) : Rewriter :=
  let '(so, to) :=
    match last r with
    | None => (0, 0)
    | Some l => (u16 (u16 (lseq l + 1) - seq), u32 (u32 (lts l + switch_tick (clock r) now l) - ts))
    end in
  let sw := if bool_decide (src r <> None) || bool_decide (is_Some (last r)) then u32 (switches r + 1) else switches r in
  mkRw (clock r) (Some s) so to (last r) (Some (u16 (seq + so))) sw (last_out_at r).

Definition map (s seq ts now cov : Z) (r : Rewriter) : Rewriter * Mapped :=
  let other := negb (bool_decide (src r = Some s)) in
  let sw := other && (bool_decide (src r <> None) || bool_decide (is_Some (last r))) in
  let r := if other then switch s seq ts now r else r in
  let out_seq := u16 (seq + seq_off r) in
  let out_ts := u32 (ts + ts_off r) in
  let advance := match last r with None => true | Some l => sw || serial_after out_seq (lseq l) end in
  let la := if advance then Some (mkLast out_seq out_ts now cov) else last r in
  (mkRw (clock r) (src r) (seq_off r) (ts_off r) la (boundary r) (switches r) now, mkMapped out_seq out_ts sw).

Definition unmap_nack (out_seq : Z) (r : Rewriter) : option Z :=
  if match boundary r with Some b => serial_after b out_seq | None => false end then None
  else Some (u16 (out_seq - seq_off r)).

Definition translate_sr_ts (rtp_ts : Z) (r : Rewriter) : Z := u32 (rtp_ts + ts_off r).

Definition pt_byte1 (byte1 pt : Z) : Z := Z.lor (Z.land byte1 0x80) (Z.land pt 0x7f).

(** A packet, and a run of packets of one source. *)
Record Packet := mkPacket { pseq : Z; pts : Z; pat : Z; pcov : Z }.
Definition packet_ok (p : Packet) : Prop := is_u16 (pseq p) /\ is_u32 (pts p).
Definition map_packet (s : Z) (r : Rewriter) (p : Packet) : Rewriter := (map s (pseq p) (pts p) (pat p) (pcov p) r).1.
Definition map_run (s : Z) (ps : list Packet) (r : Rewriter) : Rewriter := fold_left (map_packet s) ps r.

(** ** Serial numbers *)

Lemma serial_after_iff a b : serial_after a b = true <-> 0 < u16 (a - b) < 32768.
Proof.
  unfold serial_after, i16, signed. rewrite Z.gtb_ltb, Z.ltb_lt. change (2 ^ (16 - 1)) with 32768. change (2 ^ 16) with 65536.
  pose proof (u16_range (a - b)) as Hr. unfold is_u16 in Hr. change (2 ^ 16) with 65536 in Hr.
  rewrite (u16_id (u16 (a - b))) by (unfold is_u16; change (2 ^ 16) with 65536; lia).
  destruct (Z.ltb_spec (u16 (a - b)) 32768); lia.
Qed.

(** ** One source *)

Lemma map_same s seq ts now cov r : src r = Some s ->
  let (r', m) := map s seq ts now cov r in
  src r' = Some s /\ seq_off r' = seq_off r /\ ts_off r' = ts_off r /\ boundary r' = boundary r /\
  clock r' = clock r /\ switches r' = switches r /\
  m = mkMapped (u16 (seq + seq_off r)) (u32 (ts + ts_off r)) false.
Proof. intros Hs. unfold map. rewrite bool_decide_true by done. cbn. done. Qed.

Lemma map_run_same s ps r : src r = Some s ->
  src (map_run s ps r) = Some s /\ seq_off (map_run s ps r) = seq_off r /\
  ts_off (map_run s ps r) = ts_off r /\ boundary (map_run s ps r) = boundary r.
Proof.
  revert r. induction ps as [|p ps IH]; intros r Hs; [done|]. cbn [map_run fold_left].
  pose proof (map_same s (pseq p) (pts p) (pat p) (pcov p) r Hs) as H. unfold map_packet at 2 4 6 8.
  destruct (map s (pseq p) (pts p) (pat p) (pcov p) r) as [r' m]. destruct H as (H1 & H2 & H3 & H4 & _).
  cbn [fst]. destruct (IH r' H1) as (K1 & K2 & K3 & K4). unfold map_run in *. split; [done|]. split; [congruence|]. split; congruence.
Qed.

(** ** A switch *)

Lemma map_switch s seq ts now cov r l : src r <> Some s -> last r = Some l ->
  let so := u16 (u16 (lseq l + 1) - seq) in
  let to := u32 (u32 (lts l + switch_tick (clock r) now l) - ts) in
  let (r', m) := map s seq ts now cov r in
  src r' = Some s /\ seq_off r' = so /\ ts_off r' = to /\ boundary r' = Some (u16 (seq + so)) /\
  last r' = Some (mkLast (u16 (seq + so)) (u32 (ts + to)) now cov) /\
  m = mkMapped (u16 (seq + so)) (u32 (ts + to)) true.
Proof.
  intros Hs Hl. cbv zeta. unfold map. rewrite bool_decide_false by done. cbn [negb]. unfold switch. rewrite Hl.
  rewrite (bool_decide_true (is_Some (Some l))) by done. rewrite !orb_true_r. cbn. done.
Qed.

Lemma switch_seq s l : u16 (s + u16 (u16 (lseq l + 1) - s)) = u16 (lseq l + 1).
Proof. ulia. Qed.

(** When another source takes over, its first packet follows the last one the subscriber
    was sent with no gap in the sequence numbers, and its timestamp is later by what that
    packet covers or by the time since, whichever is more. *)
Theorem rewriter_switch s seq ts now cov r l :
  src r <> Some s -> last r = Some l -> is_u16 (lseq l) -> is_u32 (lts l) ->
  let m := (map s seq ts now cov r).2 in
  switched m = true /\ mseq m = u16 (lseq l + 1) /\
  u32 (mts m - lts l) = switch_tick (clock r) now l /\
  (lcovers l < 2 ^ 32 -> sat_sub now (at_ms l) * clock r < 2 ^ 32 * 1000 -> 0 <= clock r -> clock r < 2 ^ 32 ->
   Z.max 1 (Z.max (lcovers l) (sat_sub now (at_ms l) * clock r / 1000)) <= u32 (mts m - lts l)).
Proof.
  intros Hs Hl Hq Ht. cbv zeta. pose proof (map_switch s seq ts now cov r l Hs Hl) as H. cbv zeta in H.
  destruct (map s seq ts now cov r) as [r' m]. destruct H as (_ & _ & _ & _ & _ & ->). cbn [snd switched mseq mts].
  rewrite switch_seq. assert (E : u32 (u32 (ts + u32 (u32 (lts l + switch_tick (clock r) now l) - ts)) - lts l)
    = switch_tick (clock r) now l).
  { assert (is_u32 (switch_tick (clock r) now l)) by (unfold switch_tick; auto with ox). ulia. }
  split; [done|]. split; [done|]. split; [exact E|]. intros Hc Hk Hclk Hclk2. rewrite E. unfold switch_tick.
  assert (He : 0 <= sat_sub now (at_ms l) * clock r) by (unfold sat_sub; nia).
  assert (0 <= sat_sub now (at_ms l) * clock r / 1000 < 2 ^ 32).
  { split; [by apply Z.div_pos|]. apply Z.div_lt_upper_bound; lia. }
  destruct (Z.le_gt_cases 1 (sat_sub now (at_ms l))) as [Hge|Hlt].
  - rewrite (Z.max_l (sat_sub _ _)) by done. rewrite u64_id by ulia. rewrite u32_id by ulia. lia.
  - rewrite (Z.max_r (sat_sub _ _)) by lia. assert (0 <= 1 * clock r / 1000 < 2 ^ 32).
    { split; [apply Z.div_pos; lia|]. apply Z.div_lt_upper_bound; lia. }
    assert (sat_sub now (at_ms l) = 0) as -> by (unfold sat_sub in *; lia).
    rewrite u64_id by ulia. rewrite u32_id by ulia. change (0 * clock r / 1000) with 0. lia.
Qed.

(** A subscriber that has been sent packet 65535 of source 1. *)
Definition sent_one : Rewriter := (map 1 65535 4294967000 1000 960 (new 48000)).1.

Lemma rewriter_switch_witness :
  mseq (map 2 500 77 1020 960 sent_one).2 = 0 /\ switched (map 2 500 77 1020 960 sent_one).2 = true.
Proof.
  split; [vm_compute; reflexivity|].
  apply (rewriter_switch 2 500 77 1020 960 sent_one (mkLast 65535 4294967000 1000 960)); vm_compute;
    [discriminate|reflexivity|split; [discriminate|reflexivity]..].
Defined.

(** Between switches nothing is distorted: two packets of the source are as far apart, in
    sequence number and in timestamp, at the subscriber as they were, and a sender report
    of the source is moved by the same offset as its packets. *)
Theorem rewriter_keeps_distances s ps p r :
  src r = Some s ->
  let r' := map_run s ps r in
  let m := (map s (pseq p) (pts p) (pat p) (pcov p) r').2 in
  switched m = false /\ u16 (mseq m - seq_off r) = u16 (pseq p) /\ u32 (mts m - ts_off r) = u32 (pts p) /\
  translate_sr_ts (pts p) r' = mts m.
Proof.
  intros Hs. cbv zeta. destruct (map_run_same s ps r Hs) as (H1 & H2 & H3 & _).
  pose proof (map_same s (pseq p) (pts p) (pat p) (pcov p) _ H1) as H.
  destruct (map s (pseq p) (pts p) (pat p) (pcov p) (map_run s ps r)) as [r' m].
  destruct H as (_ & _ & _ & _ & _ & _ & ->). cbn [snd switched mseq mts]. unfold translate_sr_ts. rewrite H2, H3.
  split; [done|]. split; [ulia|]. split; [ulia|done].
Qed.

Lemma rewriter_keeps_distances_witness :
  let r := (map 2 500 77 1020 960 sent_one).1 in
  mseq (map 2 501 1037 1040 960 r).2 = 1 /\ translate_sr_ts 1037 r = mts (map 2 501 1037 1040 960 r).2.
Proof.
  split; [vm_compute; reflexivity|].
  apply (rewriter_keeps_distances 2 [] (mkPacket 501 1037 1040 960) (map 2 500 77 1020 960 sent_one).1). vm_compute. reflexivity.
Defined.

(** A retransmission request is answered from the right source: counting from the first
    packet of the current source, the number [k] places on is turned back into that
    source's number [k] places on, and any number up to 32767 places before it, which
    belonged to an earlier source, is refused. *)
Theorem rewriter_nack s seq ts now cov r l ps k :
  src r <> Some s -> last r = Some l -> is_u16 seq ->
  let r' := map_run s ps (map s seq ts now cov r).1 in
  let first := u16 (lseq l + 1) in
  (0 <= k < 32768 -> unmap_nack (u16 (first + k)) r' = Some (u16 (seq + k))) /\
  (0 < k < 32768 -> unmap_nack (u16 (first - k)) r' = None).
Proof.
  intros Hs Hl Hq. cbv zeta. pose proof (map_switch s seq ts now cov r l Hs Hl) as H. cbv zeta in H.
  destruct (map s seq ts now cov r) as [r0 m]. destruct H as (H1 & H2 & _ & H4 & _). cbn [fst].
  destruct (map_run_same s ps r0 H1) as (_ & K2 & _ & K4). unfold unmap_nack. rewrite K2, K4, H2, H4, switch_seq.
  split; intros Hk.
  - destruct (serial_after _ _) eqn:E; [apply serial_after_iff in E; exfalso; ulia|]. f_equal. ulia.
  - assert (serial_after (u16 (lseq l + 1)) (u16 (u16 (lseq l + 1) - k)) = true) as ->; [|done].
    apply serial_after_iff. ulia.
Qed.

Lemma rewriter_nack_witness : unmap_nack 3 (map 2 500 77 1020 960 sent_one).1 = Some 503.
Proof.
  apply (rewriter_nack 2 500 77 1020 960 sent_one (mkLast 65535 4294967000 1000 960) [] 3); vm_compute;
    [discriminate|reflexivity|split; [discriminate|reflexivity]|split; [discriminate|reflexivity]].
Defined.

(** The number of samples an Opus packet stands for is never zero and never more than 63
    frames of 60 ms, and no intermediate product wraps: it is the frame length of the
    configuration times the number of frames. *)
Theorem opus_samples_bounded payload :
  1 <= opus_toc_samples payload <= 181440.
Proof.
  destruct payload as [|toc rest]; [cbn; lia|]. unfold opus_toc_samples.
  assert (Hf : 25 <= frame_x10 (Z.shiftr (bz toc) 3) <= 600).
  { assert (forall b, 25 <= frame_x10 (Z.shiftr (bz b) 3) <= 600) as H by (intros b; each_byte b). apply H. }
  set (f := frame_x10 _) in *.
  assert (Hm : forall n, 0 <= n <= 63 -> 1 <= Z.max (u32 (u32 (u32 (f * 48) * n) / 10)) 1 <= 181440).
  { intros n Hn. rewrite (u32_id (f * 48)) by ulia. rewrite (u32_id (f * 48 * n)) by (unfold is_u32; nia).
    assert (0 <= f * 48 * n / 10 <= 181440).
    { split; [apply Z.div_pos; nia|]. apply Z.div_le_upper_bound; nia. }
    rewrite u32_id by ulia. lia. }
  assert (Hb : forall b, 0 <= Z.land (bz b) 0x3f <= 63) by (intros b; each_byte b).
  destruct (Z.land (bz toc) 0x03) as [|[p|[p|p|]|]|p]; try (apply Hm; lia);
    destruct rest as [|b rest]; try lia; apply Hm, Hb.
Qed.

(** The payload type is replaced and the marker bit kept. *)
Theorem pt_byte_keeps_marker b pt :
  0 <= b < 256 -> 0 <= pt < 128 -> pt_byte1 b pt mod 128 = pt /\ pt_byte1 b pt / 128 = b / 128.
Proof.
  intros Hb Hp. unfold pt_byte1. rewrite Z.lor_comm.
  assert (Z.land b 0x80 = Z.shiftl (b / 128) 7) as ->.
  { assert (forall c, Z.land (bz c) 0x80 = Z.shiftl (bz c / 128) 7) as H by (intros c; each_byte c).
    rewrite <- (bz_zb_id b) by lia. apply H. }
  change 0x7f with (Z.ones 7). rewrite Z.land_ones, (Z.mod_small pt) by (change (2 ^ 7) with 128; lia).
  rewrite lor_shift by (change (2 ^ 7) with 128; lia). change (2 ^ 7) with 128.
  rewrite Z.mod_add, Z.div_add, Z.mod_small, (Z.div_small pt) by lia. lia.
Qed.

End Rw.
