(* ===== verification/Rtp.v ===== *)
(** * RTP packets

    The RTP header and header-extension parsers of crates/oxsfud/src/fwd/mod.rs
    ([parse_rtp], [ext_get]), the extension builder of crates/oxsfud/src/sub/ext.rs, and
    the packet [send_down] puts together for one subscriber. *)

From S2P Require Import Prelude Rewriter.

Module Rtp.

(** ** Parsing *)

Record Rtp := mkRtp {
  raw : list byte; pt : Z; marker : bool; seq : Z; ts : Z; ssrc : Z; hlen : nat;
  ext : option (Z * list byte) }.

Definition nth0 (b : list byte) (i : nat) : Z := bz (nth i b x00).
Definition be16_at (b : list byte) (i : nat) : Z := from_be (take 2 (drop i b)).
Definition be32_at (b : list byte) (i : nat) : Z := from_be (take 4 (drop i b)).

Definition parse_rtp (b : list byte) : option Rtp :=
  if (length b <? 12)%nat || negb (Z.shiftr (nth0 b 0) 6 =? 2) then None
  else
    let cc := Z.to_nat (Z.land (nth0 b 0) 0x0f) in
    let h := (12 + cc * 4)%nat in
    if (length b <? h)%nat then None
    else
      let? (h, ext) :=
        (if negb (Z.land (nth0 b 0) 0x10 =? 0) then
           if (length b <? h + 4)%nat then None
           else
             let words := Z.to_nat (be16_at b (h + 2)) in
             let stop := (h + 4 + words * 4)%nat in
             if (length b <? stop)%nat then None
             else Some (stop, Some (be16_at b h, take (words * 4) (drop (h + 4) b)))
         else Some (h, None)) in
      Some (mkRtp b (Z.land (nth0 b 1) 0x7f) (negb (Z.land (nth0 b 1) 0x80 =? 0))
              (be16_at b 2) (be32_at b 4) (be32_at b 8) h ext).

(** The two loops of [ext_get]; every turn drops a byte, so the length is fuel enough. *)
Fixpoint get_one (fuel : nat) (d : list byte) (id : Z) : option (list byte) :=
  match fuel with
  | O => None
  | S fuel =>
    match d with
    | [] => None
    | b :: rest =>
      if bz b =? 0 then get_one fuel rest id
      else
        let eid := Z.shiftr (bz b) 4 in
        let n := Z.to_nat (Z.land (bz b) 0x0f + 1) in
        if eid =? 15 then None
        else if (length rest <? n)%nat then None
        else if eid =? id then Some (take n rest)
        else get_one fuel (drop n rest) id
    end
  end.

Fixpoint get_two (fuel : nat) (d : list byte) (id : Z) : option (list byte) :=
  match fuel with
  | O => None
  | S fuel =>
    match d with
    | e :: l :: rest =>
      if bz e =? 0 then get_two fuel (l :: rest) id
      else
        let n := Z.to_nat (bz l) in
        if (length rest <? n)%nat then None
        else if bz e =? id then Some (take n rest)
        else get_two fuel (drop n rest) id
    | _ => None
    end
  end.

Definition ext_get (ext : option (Z * list byte)) (id : Z) : option (list byte) :=
  let? (profile, d) := ext in
  if id =? 0 then None
  else if profile =? 0xbede then get_one (S (length d)) d id
  else if Z.land profile 0xfff0 =? 0x1000 then get_two (S (length d)) d id
  else None.

(** ** Building the extension *)

Record ExtTable := mkTable {
  mid_id : option Z; level_id : option Z; abs_id : option Z; twcc_id : option Z }.

Definition ids (t : ExtTable) : list Z :=
  omap id [mid_id t; level_id t; abs_id t; twcc_id t].

Definition one_byte (t : ExtTable) : bool := forallb (fun i => (1 <=? i) && (i <=? 14)) (ids t).

(** 24 bits of fixed-point seconds, 18 of them below the point. *)
Definition abs_send_time (t_us : Z) : Z :=
  Z.land (u32 (t_us mod 64000000 * 2 ^ 18 / 1000000)) 0x00ffffff.

Record ExtInput := mkInput { mid : list byte; audio_level : option Z; t_us : Z; twcc_seq : option Z }.

Definition put (one : bool) (i : Z) (v : list byte) : list byte :=
  match v with
  | [] => []
  | _ =>
    (if one then [zb (Z.lor (u8 (Z.shiftl i 4)) (Z.land (u8 (len v) - 1) 0x0f))]
     else [zb i; zb (len v)]) ++ v
  end.

(** The elements [build] puts in, in order. *)
Definition elements (t : ExtTable) (inp : ExtInput) : list (Z * list byte) :=
  match mid_id t with Some i => (match mid inp with [] => [] | _ => [(i, mid inp)] end) | None => [] end
  ++ match level_id t, audio_level inp with Some i, Some l => [(i, [zb l])] | _, _ => [] end
  ++ match abs_id t with Some i => [(i, drop 1 (be 4 (abs_send_time (t_us inp))))] | None => [] end
  ++ match twcc_id t, twcc_seq inp with Some i, Some s => [(i, be 2 s)] | _, _ => [] end.

Definition pad4 (b : list byte) : list byte := b ++ replicate (pad (length b)) x00.

(** The bytes [build] appends. *)
Definition build (t : ExtTable) (inp : ExtInput) : list byte :=
  let one := one_byte t in
  let body := pad4 (concat (map (fun iv => put one iv.1 iv.2) (elements t inp))) in
  let words := u16 (len body / 4) in
  if words =? 0 then []
  else (if one then [xbe; xde] else [x10; x00]) ++ be 2 words ++ body.

(** ** The packet for one subscriber *)

(** What [send_down] encrypts and sends: [data] is the packet received, [h] its header's
    length, [m] the sequence number and timestamp of the rewriter. *)
Definition down_packet (data : list byte) (h : nat) (row_pt row_ssrc : Z) (m : Rw.Mapped)
    (t : ExtTable) (inp : ExtInput) : list byte :=
  let e := build t inp in
  let b0 := Z.lor 0x80 (Z.land (nth0 data 0) 0x20) in
  let b0 := match e with [] => b0 | _ => Z.lor b0 0x10 end in
  [zb b0] ++ [zb (Rw.pt_byte1 (nth0 data 1) row_pt)] ++ be 2 (Rw.mseq m) ++ be 4 (Rw.mts m) ++ be 4 row_ssrc
  ++ e ++ drop h data.

(** ** Reading back what was built *)

Definition element_ok (one : bool) (iv : Z * list byte) : Prop :=
  iv.2 <> [] /\ if one then 1 <= iv.1 <= 14 /\ (length iv.2 <= 16)%nat else 1 <= iv.1 <= 255 /\ (length iv.2 <= 255)%nat.

Definition lookup_element (i : Z) (es : list (Z * list byte)) : option (list byte) :=
  snd <$> List.find (fun iv => iv.1 =? i) es.

Lemma put_one_byte i n : 1 <= i <= 14 -> 1 <= n <= 16 ->
  let b := bz (zb (Z.lor (u8 (Z.shiftl i 4)) (Z.land (u8 n - 1) 0x0f))) in
  (b =? 0) = false /\ Z.shiftr b 4 = i /\ Z.land b 0x0f + 1 = n.
Proof.
  intros Hi Hn. assert (In i (List.map Z.of_nat (List.seq 1 14))) as Hi'.
  { apply in_map_iff. exists (Z.to_nat i). split; [lia|]. apply in_seq. lia. }
  assert (In n (List.map Z.of_nat (List.seq 1 16))) as Hn'.
  { apply in_map_iff. exists (Z.to_nat n). split; [lia|]. apply in_seq. lia. }
  assert (H : forallb (fun i => forallb (fun n =>
    let b := bz (zb (Z.lor (u8 (Z.shiftl i 4)) (Z.land (u8 n - 1) 0x0f))) in
    negb (b =? 0) && (Z.shiftr b 4 =? i) && (Z.land b 0x0f + 1 =? n)) (List.map Z.of_nat (List.seq 1 16)))
    (List.map Z.of_nat (List.seq 1 14)) = true) by (vm_compute; reflexivity).
  rewrite forallb_forall in H. specialize (H i Hi'). rewrite forallb_forall in H. specialize (H n Hn').
  cbv zeta in *. zbool. split; [by apply Z.eqb_neq|done].
Qed.

Lemma get_one_zeros fuel n i : get_one fuel (replicate n x00) i = None.
Proof. revert n. induction fuel as [|fuel IH]; intros [|n]; cbn; done. Qed.

Lemma get_two_zeros fuel n i : get_two fuel (replicate n x00) i = None.
Proof.
  revert n. induction fuel as [|fuel IH]; intros [|[|n]]; cbn; try done. apply (IH (S n)).
Qed.

Lemma get_one_elements es n fuel i :
  Forall (element_ok true) es ->
  (length (concat (map (fun iv => put true iv.1 iv.2) es)) < fuel)%nat ->
  get_one fuel (concat (map (fun iv => put true iv.1 iv.2) es) ++ replicate n x00) i = lookup_element i es.
Proof.
  intros H. revert fuel. induction H as [|[j v] es [Hv [Hj Hl]] _ IH]; intros fuel Hf; [apply get_one_zeros|].
  cbn [map concat fst snd] in *. unfold put in Hf at 1. unfold put at 1. destruct v as [|x v]; [done|]. cbn [app] in *.
  destruct fuel as [|fuel]; [cbn in Hf; lia|]. cbn [get_one].
  destruct (put_one_byte j (len (x :: v))) as (E1 & E2 & E3); [done|unfold len; cbn in *; lia|]. cbv zeta in *.
  set (b := zb _) in *. rewrite E1, E2, E3, len_nat. destruct (Z.eqb_spec j 15); [lia|].
  rewrite <- app_assoc. set (R := concat _ ++ replicate n x00).
  rewrite (proj2 (Nat.ltb_ge _ _)) by (cbn [length]; rewrite length_app; lia).
  rewrite (take_app_len (x :: v) R : take (length (x :: v)) (x :: v ++ R) = _), (drop_app_len (x :: v) R : drop (length (x :: v)) (x :: v ++ R) = _).
  unfold lookup_element. cbn [List.find fst]. destruct (j =? i); [done|]. apply IH. rewrite ?length_app in Hf. cbn [length] in Hf. rewrite length_app in Hf. lia.
Qed.

Lemma get_two_elements es n fuel i :
  Forall (element_ok false) es ->
  (length (concat (map (fun iv => put false iv.1 iv.2) es)) < fuel)%nat ->
  get_two fuel (concat (map (fun iv => put false iv.1 iv.2) es) ++ replicate n x00) i = lookup_element i es.
Proof.
  intros H. revert fuel. induction H as [|[j v] es [Hv [Hj Hl]] _ IH]; intros fuel Hf; [apply get_two_zeros|].
  cbn [map concat fst snd] in *. unfold put in Hf at 1. unfold put at 1. destruct v as [|x v]; [done|]. cbn [app] in *.
  destruct fuel as [|fuel]; [cbn in Hf; lia|]. cbn [get_two]. rewrite !bz_zb_id by (unfold len; cbn in *; lia).
  destruct (Z.eqb_spec j 0); [lia|]. rewrite len_nat. rewrite <- app_assoc.
  set (R := concat _ ++ replicate n x00).
  rewrite (proj2 (Nat.ltb_ge _ _)) by (cbn [length]; rewrite length_app; lia).
  rewrite (take_app_len (x :: v) R : take (length (x :: v)) (x :: v ++ R) = _), (drop_app_len (x :: v) R : drop (length (x :: v)) (x :: v ++ R) = _).
  unfold lookup_element. cbn [List.find fst]. destruct (j =? i); [done|]. apply IH. cbn [length] in Hf. rewrite length_app in Hf. lia.
Qed.

(** Extension numbers that exist, and a media id short enough for both forms. *)
Definition table_ok (t : ExtTable) : Prop := Forall (fun i => 1 <= i <= 255) (ids t).
Definition input_ok (inp : ExtInput) : Prop := (length (mid inp) <= 16)%nat.

Lemma ids_elem t o i : table_ok t -> o ∈ [mid_id t; level_id t; abs_id t; twcc_id t] -> o = Some i ->
  1 <= i <= 255 /\ (one_byte t = true -> i <= 14).
Proof.
  intros Ht Ho ->. assert (Hi : i ∈ ids t) by (unfold ids; apply list_elem_of_omap; by exists (Some i)).
  unfold table_ok in Ht. rewrite Forall_forall in Ht. split; [by apply Ht|]. unfold one_byte. rewrite forallb_forall.
  intros H. specialize (H i (proj1 (list_elem_of_In _ _) Hi)). zbool. lia.
Qed.

Lemma elements_ok t inp : table_ok t -> input_ok inp -> Forall (element_ok (one_byte t)) (elements t inp).
Proof.
  intros Ht Hi. assert (K : forall o i v, o ∈ [mid_id t; level_id t; abs_id t; twcc_id t] -> o = Some i ->
    v <> [] -> (length v <= 16)%nat -> element_ok (one_byte t) (i, v)).
  { intros o i v Ho Eo Hv Hl. destruct (ids_elem t o i Ht Ho Eo) as [H1 H2]. split; [done|]. cbn [fst snd].
    destruct (one_byte t); [specialize (H2 eq_refl)|]; lia. }
  unfold elements. repeat apply Forall_app_2.
  - destruct (mid_id t) as [i|] eqn:E; [|constructor]. unfold input_ok in Hi. destruct (mid inp) as [|x v] eqn:Em; [constructor|].
    constructor; [|constructor]. apply (K (mid_id t)); [set_solver|done|done|done].
  - destruct (level_id t) as [i|] eqn:E; [|constructor]. destruct (audio_level inp); constructor; [|constructor].
    apply (K (level_id t)); [set_solver|done|done|cbn; lia].
  - destruct (abs_id t) as [i|] eqn:E; constructor; [|constructor]. apply (K (abs_id t)); [set_solver|done|done|cbn; lia].
  - destruct (twcc_id t) as [i|] eqn:E; [|constructor]. destruct (twcc_seq inp); constructor; [|constructor].
    apply (K (twcc_id t)); [set_solver|done|done|cbn; lia].
Qed.

Lemma put_length one iv : element_ok one iv -> (1 <= length (put one iv.1 iv.2) <= 18 + 255)%nat.
Proof.
  destruct iv as [i v]. intros [Hv H]. cbn [fst snd] in *. unfold put. destruct v as [|x v]; [done|].
  destruct one; destruct H; rewrite length_app; cbn [length] in *; lia.
Qed.

Lemma elements_count t inp : (length (elements t inp) <= 4)%nat.
Proof. unfold elements. rewrite !length_app. repeat case_match; cbn; lia. Qed.

(** The length of the elements' bytes. *)
Lemma puts_length one es : Forall (element_ok one) es ->
  (length es <= length (concat (map (fun iv => put one iv.1 iv.2) es)) <= 273 * length es)%nat.
Proof.
  induction 1 as [|iv es Hiv _ IH]; [cbn; lia|]. cbn [map concat length]. rewrite length_app.
  pose proof (put_length one iv Hiv). lia.
Qed.

Lemma pad4_length b : (length (pad4 b) mod 4 = 0)%nat /\ (length b <= length (pad4 b) < length b + 4)%nat.
Proof.
  unfold pad4. rewrite length_app, length_replicate. destruct (pad_spec (length b)). split; [done|lia].
Qed.

(** What [build] makes, and that reading it finds the elements. *)
Lemma build_spec t inp : table_ok t -> input_ok inp ->
  (elements t inp = [] /\ build t inp = []) \/
  exists p1 p2 w body, build t inp = [p1; p2] ++ be 2 w ++ body /\ 0 < w < 65536 /\
    length body = (Z.to_nat w * 4)%nat /\
    forall i, 1 <= i -> ext_get (Some (from_be [p1; p2], body)) i = lookup_element i (elements t inp).
Proof.
  intros Ht Hi. pose proof (elements_ok t inp Ht Hi) as He. pose proof (elements_count t inp) as Hc.
  unfold build. set (one := one_byte t) in *. set (es := elements t inp) in *.
  pose proof (puts_length one es He) as Hl. set (c := concat _) in *. destruct (pad4_length c) as [Hm Hp].
  destruct (decide (es = [])) as [Ees|Ees]; [left; split; [done|]; unfold c; by rewrite Ees|right].
  assert (1 <= length es)%nat by (destruct es; [done|cbn; lia]). set (n := (length (pad4 c) / 4)%nat). pose proof (Nat.div_mod_eq (length (pad4 c)) 4) as En. fold n in En.
  assert (1 <= n < 2000)%nat by lia.
  assert (Ew : u16 (len (pad4 c) / 4) = Z.of_nat n).
  { unfold len. rewrite (Nat2Z.inj_div _ 4 : Z.of_nat n = _). apply u16_id. rewrite <- (Nat2Z.inj_div _ 4). fold n. ulia. }
  rewrite Ew. destruct (Z.eqb_spec (Z.of_nat n) 0); [lia|].
  exists (if one then xbe else x10), (if one then xde else x00), (Z.of_nat n), (pad4 c).
  split; [by destruct one|]. split; [lia|]. split; [rewrite Nat2Z.id; lia|].
  intros i Hi1. unfold ext_get. destruct (Z.eqb_spec i 0); [lia|]. unfold pad4. destruct one.
  - change (from_be [xbe; xde] =? 0xbede) with true. apply get_one_elements; [done|]. fold c. rewrite (length_app c). lia.
  - change (from_be [x10; x00] =? 0xbede) with false. change (Z.land (from_be [x10; x00]) 0xfff0 =? 0x1000) with true.
    apply get_two_elements; [done|]. fold c. rewrite (length_app c). lia.
Qed.

(** ** The packet read back *)

Lemma head_byte b e :
  let x := Z.lor (Z.lor 0x80 (Z.land (bz b) 0x20)) (if e : bool then 0x10 else 0) in
  let y := bz (zb x) in
  (Z.shiftr y 6 =? 2) = true /\ Z.land y 0x0f = 0 /\ (Z.land y 0x10 =? 0) = negb e.
Proof. destruct e; each_byte b. Qed.

Lemma pt_byte b pt : 0 <= pt < 128 ->
  let y := bz (zb (Rw.pt_byte1 (bz b) pt)) in
  Z.land y 0x7f = pt /\ (Z.land y 0x80 =? 0) = (Z.land (bz b) 0x80 =? 0).
Proof.
  intros Hp. assert (In pt (List.map Z.of_nat (List.seq 0 128))) as Hin.
  { apply in_map_iff. exists (Z.to_nat pt). split; [lia|]. apply in_seq. lia. }
  assert (H : forallb (fun b => forallb (fun pt =>
     let y := bz (zb (Rw.pt_byte1 b pt)) in
     (Z.land y 0x7f =? pt) && Bool.eqb (Z.land y 0x80 =? 0) (Z.land b 0x80 =? 0)) (List.map Z.of_nat (List.seq 0 128)))
     (List.map Z.of_nat (List.seq 0 256)) = true) by (vm_compute; reflexivity).
  rewrite forallb_forall in H. specialize (H (bz b)).
  assert (In (bz b) (List.map Z.of_nat (List.seq 0 256))) as Hb.
  { apply in_map_iff. exists (Z.to_nat (bz b)). pose proof (bz_range b). split; [lia|]. apply in_seq. lia. }
  specialize (H Hb). rewrite forallb_forall in H. specialize (H pt Hin). cbv zeta in *.
  apply andb_prop in H as [H1 H2]. apply Z.eqb_eq in H1. apply Bool.eqb_prop in H2. done.
Qed.

Lemma from_be_pair z : is_u16 z -> from_be [zb (z / 256); zb z] = z.
Proof. apply (from_be_be_u16 z). Qed.
Lemma from_be_quad z : is_u32 z -> from_be [zb (z / 256 / 256 / 256); zb (z / 256 / 256); zb (z / 256); zb z] = z.
Proof. apply (from_be_be_u32 z). Qed.

(** A fixed header, an extension or none, and the payload, as [parse_rtp] sees them. *)
Lemma parse_built b1 b2 s t c e payload x :
  is_u16 s -> is_u32 t -> is_u32 c ->
  (Z.shiftr (bz b1) 6 =? 2) = true -> Z.land (bz b1) 0x0f = 0 -> (Z.land (bz b1) 0x10 =? 0) = negb x ->
  (x = false /\ e = [] \/
   x = true /\ exists p1 p2 w body, e = [p1; p2] ++ be 2 w ++ body /\ 0 < w < 65536 /\ length body = (Z.to_nat w * 4)%nat) ->
  let out := [b1; b2] ++ be 2 s ++ be 4 t ++ be 4 c ++ e ++ payload in
  parse_rtp out = Some (mkRtp out (Z.land (bz b2) 0x7f) (negb (Z.land (bz b2) 0x80 =? 0)) s t c (12 + length e)
    (match e with p1 :: p2 :: _ :: _ :: body => Some (from_be [p1; p2], body) | _ => None end)).
Proof.
  intros Hs Ht Hc H1 H2 H3 He. cbv zeta. cbn [be app]. unfold parse_rtp.
  set (out := b1 :: b2 :: _). assert (Hlen : length out = (12 + length e + length payload)%nat).
  { unfold out. cbn [length]. rewrite length_app. lia. }
  rewrite (proj2 (Nat.ltb_ge _ 12)) by lia. change (nth0 out 0) with (bz b1). rewrite H1, H2, H3. change (Z.to_nat 0) with 0%nat.
  change (12 + 0 * 4)%nat with 12%nat. change (12 + 4)%nat with 16%nat. change (12 + 2)%nat with 14%nat. cbn [negb orb].
  rewrite (proj2 (Nat.ltb_ge _ 12)) by lia.
  change (be16_at out 2) with (from_be [zb (s / 256); zb s]).
  change (be32_at out 4) with (from_be [zb (t / 256 / 256 / 256); zb (t / 256 / 256); zb (t / 256); zb t]).
  change (be32_at out 8) with (from_be [zb (c / 256 / 256 / 256); zb (c / 256 / 256); zb (c / 256); zb c]).
  rewrite from_be_pair, !from_be_quad by done. change (nth0 out 1) with (bz b2).
  destruct He as [[-> ->]|[-> (p1 & p2 & w & body & -> & Hw & Hb)]].
  - cbn [negb]. done.
  - cbn [negb]. cbn [be app length] in *. rewrite (proj2 (Nat.ltb_ge _ 16)) by lia.
    change (be16_at out 12) with (from_be [p1; p2]). change (be16_at out 14) with (from_be [zb (w / 256); zb w]).
    rewrite from_be_pair by ulia. rewrite (proj2 (Nat.ltb_ge _ _)) by lia.
    change (drop 16 out) with (body ++ payload). rewrite <- Hb, take_app_len. cbn [Nat.add]. done.
Qed.

(** What a subscriber's parser makes of the packet it is sent: the row's payload type and
    SSRC, the rewriter's sequence number and timestamp, the marker and payload of the
    packet that came in, and under each number of the subscriber's table the element meant
    for it, and nothing under any other. *)
Theorem rtp_down_readable d0 d1 rest h row_pt row_ssrc m t inp :
  0 <= row_pt < 128 -> is_u32 row_ssrc -> is_u16 (Rw.mseq m) -> is_u32 (Rw.mts m) ->
  table_ok t -> input_ok inp ->
  let data := d0 :: d1 :: rest in
  let out := down_packet data h row_pt row_ssrc m t inp in
  exists p, parse_rtp out = Some p /\
    pt p = row_pt /\ ssrc p = row_ssrc /\ seq p = Rw.mseq m /\ ts p = Rw.mts m /\
    marker p = negb (Z.land (bz d1) 0x80 =? 0) /\
    drop (hlen p) out = drop h data /\
    forall i, 1 <= i -> ext_get (ext p) i = lookup_element i (elements t inp).
Proof.
  intros Hpt Hc Hs Ht Htab Hin. cbv zeta. unfold down_packet. set (e := build t inp).
  assert (He : exists x, (match e with [] => Z.lor 0x80 (Z.land (nth0 (d0 :: d1 :: rest) 0) 0x20)
      | _ => Z.lor (Z.lor 0x80 (Z.land (nth0 (d0 :: d1 :: rest) 0) 0x20)) 0x10 end)
      = Z.lor (Z.lor 0x80 (Z.land (bz d0) 0x20)) (if x : bool then 0x10 else 0) /\
    (x = false /\ e = [] /\ elements t inp = [] \/
     x = true /\ exists p1 p2 w body, e = [p1; p2] ++ be 2 w ++ body /\ 0 < w < 65536 /\ length body = (Z.to_nat w * 4)%nat /\
      forall i, 1 <= i -> ext_get (Some (from_be [p1; p2], body)) i = lookup_element i (elements t inp))).
  { destruct (build_spec t inp Htab Hin) as [[E1 E2]|(p1 & p2 & w & body & E & Hw & Hb & Hx)].
    - exists false. fold e in E2. rewrite E2. split; [by rewrite Z.lor_0_r|]. by left.
    - exists true. fold e in E. rewrite E. split; [done|]. right. split; [done|]. by exists p1, p2, w, body. }
  destruct He as (x & -> & He). destruct (head_byte d0 x) as (H1 & H2 & H3). cbv zeta in *.
  destruct (pt_byte d1 row_pt Hpt) as [P1 P2]. cbv zeta in *. change (nth0 (d0 :: d1 :: rest) 1) with (bz d1).
  set (b2 := zb (Rw.pt_byte1 _ _)) in *.
  set (b1 := zb (Z.lor _ _)) in *. eexists. split.
  { apply (parse_built b1 b2 _ _ _ e _ x Hs Ht Hc H1 H2 H3).
    destruct He as [(-> & -> & _)|(-> & p1 & p2 & w & body & E & ? & ? & _)]; [by left|right].
    split; [done|]. by exists p1, p2, w, body. }
  cbn [pt ssrc seq ts marker hlen ext]. rewrite P1, P2. do 5 (split; [done|]). split.
  - change (12 + length e)%nat with (S (S (S (S (S (S (S (S (S (S (S (S (length e))))))))))))). cbn [be app drop].
    apply drop_app_len.
  - intros i Hi. destruct He as [(_ & -> & ->)|(_ & p1 & p2 & w & body & -> & _ & _ & Hx)]; [done|]. cbn [be app]. by apply Hx.
Qed.

Lemma rtp_down_readable_witness :
  exists p, parse_rtp (down_packet (replicate 20 x80) 12 111 9 (Rw.mkMapped 7 8 false) (mkTable (Some 1) None None (Some 5))
                         (mkInput (sb "a0") None 0 (Some 3))) = Some p /\ seq p = 7 /\ ext_get (ext p) 1 = Some (sb "a0").
Proof.
  destruct (rtp_down_readable x80 x80 (replicate 18 x80) 12 111 9 (Rw.mkMapped 7 8 false) (mkTable (Some 1) None None (Some 5))
              (mkInput (sb "a0") None 0 (Some 3))) as (p & H1 & _ & _ & H2 & _ & _ & _ & H3);
    [lia|vm_compute; split; [discriminate|reflexivity]..|repeat constructor; lia|vm_compute; lia|].
  exists p. split; [exact H1|]. split; [exact H2|]. rewrite H3 by lia. vm_compute. reflexivity.
Defined.

End Rtp.
