(* ===== verification/Rtcp.v ===== *)
(** * RTCP packets

    The packets crates/oxsfud/src/rtcp/mod.rs builds (receiver and sender reports, NACK,
    PLI, REMB, transport-wide feedback) and the parsers of what comes in. *)

From S2P Require Import Prelude.

Module Rtcp.

Definition SENDER_SSRC : Z := 1.

(** [words as u16] is truncation; the callers count the words after the first. *)
Definition header (fmt pt words : Z) : list byte :=
  [zb (Z.lor 0x80 (Z.land fmt 0x1f)); zb pt] ++ be 2 (u16 words).

Record Report := mkReport { fraction : Z; lost : Z; extended_max : Z; jitter : Z }.

Definition clamp (lo hi v : Z) : Z := Z.max lo (Z.min hi v).

Definition build_rr (ssrc : Z) (r : Report) (lsr dlsr : Z) : list byte :=
  let lost24 := Z.land (u32 (clamp (-0x800000) 0x7fffff (lost r))) 0x00ffffff in
  header 1 201 7 ++ be 4 SENDER_SSRC ++ be 4 ssrc ++ [zb (fraction r)] ++ drop 1 (be 4 lost24)
  ++ be 4 (extended_max r) ++ be 4 (jitter r) ++ be 4 lsr ++ be 4 dlsr.

(** *** NACK *)

(** One turn of the loop; the last item of the list comes first. *)
Definition nack_add (acc : list (Z * Z)) (s : Z) : list (Z * Z) :=
  match acc with
  | (pid, blp) :: rest =>
    let d := u16 (s - pid) in
    if (1 <=? d) && (d <=? 16) then (pid, Z.lor blp (u16 (Z.shiftl 1 (d - 1)))) :: rest
    else (s, 0) :: acc
  | [] => [(s, 0)]
  end.

Definition nack_items (seqs : list Z) : list (Z * Z) :=
  rev (fold_left nack_add (merge_sort Z.le seqs) []).

Definition build_nack (media : Z) (seqs : list Z) : list byte :=
  let fci := nack_items seqs in
  header 1 205 (2 + len fci) ++ be 4 SENDER_SSRC ++ be 4 media
  ++ concat (map (fun pb => be 2 pb.1 ++ be 2 pb.2) fci).

Definition build_pli (media : Z) : list byte := header 1 206 2 ++ be 4 SENDER_SSRC ++ be 4 media.

(** *** REMB *)

(** The loop that halves the rate until it fits 18 bits. *)
Fixpoint remb_shift (fuel : nat) (exp mant : Z) : Z * Z :=
  match fuel with
  | O => (exp, mant)
  | S fuel => if mant >? 0x3ffff then remb_shift fuel (u8 (exp + 1)) (Z.shiftr mant 1) else (exp, mant)
  end.

Definition remb_parts (bps : Z) : Z * Z := remb_shift 64 0 bps.

Definition build_remb (bps : Z) (ssrcs : list Z) : list byte :=
  let (exp, mant) := remb_parts bps in
  header 15 206 (4 + len ssrcs) ++ be 4 SENDER_SSRC ++ be 4 0 ++ sb "REMB" ++ [zb (len ssrcs)]
  ++ [zb (Z.lor (u8 (Z.shiftl exp 2)) (Z.land (u8 (Z.shiftr mant 16)) 0x03))] ++ be 2 (u16 mant)
  ++ concat (map (be 4) ssrcs).

(** *** Transport-wide feedback *)

Definition SYM_NONE : Z := 0.
Definition SYM_SMALL : Z := 1.
Definition SYM_LARGE : Z := 2.

Record Feedback := mkFeedback {
  base_seq : Z; status_count : Z; reference_time : Z; fb_count : Z;
  symbols : list Z; deltas_250us : list Z }.

(** How many of the first symbols are the same, up to the limit. *)
Fixpoint run_of (s : Z) (limit : nat) (l : list Z) : nat :=
  match limit, l with
  | S limit, x :: l => if x =? s then S (run_of s limit l) else O
  | _, _ => O
  end.

Fixpoint twcc_chunks (fuel : nat) (l : list Z) : list byte :=
  match fuel, l with
  | S fuel, s :: rest =>
    let n := S (run_of s (Z.to_nat (0x1fff - 1)) rest) in
    be 2 (Z.lor (Z.shiftl (Z.land s 0x03) 13) (Z.of_nat n)) ++ twcc_chunks fuel (drop n l)
  | _, _ => []
  end.

Fixpoint twcc_deltas (syms deltas : list Z) : list byte :=
  match syms with
  | [] => []
  | s :: syms =>
    if s =? SYM_SMALL then match deltas with d :: ds => zb d :: twcc_deltas syms ds | [] => [] end
    else if s =? SYM_LARGE then match deltas with d :: ds => be 2 (u16 d) ++ twcc_deltas syms ds | [] => [] end
    else twcc_deltas syms deltas
  end.

(** The padding and its length in the last byte, the padding bit, the length field. *)
Definition finish (b0 : Z) (rest : list byte) : list byte :=
  let n := (4 + length rest)%nat in
  let p := pad n in
  let b0 := if (p =? 0)%nat then b0 else Z.lor b0 0x20 in
  let tail := match p with O => [] | S k => replicate k x00 ++ [zb (Z.of_nat p)] end in
  let words := u16 (Z.of_nat ((n + p) / 4) - 1) in
  [zb b0; zb 205] ++ be 2 words ++ rest ++ tail.

Definition build_twcc (media : Z) (f : Feedback) : list byte :=
  let rt := Z.lor (u32 (Z.shiftl (Z.land (reference_time f) 0x00ffffff) 8)) (fb_count f) in
  finish (Z.lor 0x80 (Z.land 15 0x1f))
    (be 4 SENDER_SSRC ++ be 4 media ++ be 2 (base_seq f) ++ be 2 (status_count f) ++ be 4 rt
     ++ twcc_chunks (length (symbols f)) (symbols f) ++ twcc_deltas (symbols f) (deltas_250us f)).

Definition build_sr (ssrc ntp rtp packets octets : Z) : list byte :=
  header 0 200 6 ++ be 4 ssrc ++ be 8 ntp ++ be 4 rtp ++ be 4 packets ++ be 4 octets.

(** ** What comes in *)

Record Packet := mkPacket { fmt : Z; ptype : Z; body : list byte }.

(** The loop of [split]; every packet has four bytes at least. *)
Fixpoint split_loop (fuel : nat) (b : list byte) : list Packet :=
  match fuel, b with
  | S fuel, b0 :: b1 :: l1 :: l0 :: _ =>
    if negb (Z.shiftr (bz b0) 6 =? 2) then []
    else
      let n := Z.to_nat ((from_be [l1; l0] + 1) * 4) in
      if (length b <? n)%nat then []
      else mkPacket (Z.land (bz b0) 0x1f) (bz b1) (drop 4 (take n b)) :: split_loop fuel (drop n b)
  | _, _ => []
  end.
Definition split (b : list byte) : list Packet := split_loop (length b) b.

Definition be32 (b : list byte) (i : nat) : option Z :=
  if (length b <? i + 4)%nat then None else Some (from_be (take 4 (drop i b))).

Definition nack_bits (pid blp : Z) : list Z :=
  pid :: omap (fun k => if negb (Z.land blp (Z.shiftl 1 (Z.of_nat k)) =? 0) then Some (u16 (pid + (Z.of_nat k + 1))) else None)
           (seq 0 16).

Fixpoint nack_loop (fuel : nat) (b : list byte) : list Z :=
  match fuel, b with
  | S fuel, p1 :: p0 :: m1 :: m0 :: b => nack_bits (from_be [p1; p0]) (from_be [m1; m0]) ++ nack_loop fuel b
  | _, _ => []
  end.

Definition parse_nack (b : list byte) : option (Z * list Z) :=
  let? media := be32 b 4 in Some (media, nack_loop (length b) (drop 8 b)).

Definition get16 (b : list byte) (i : nat) : option Z :=
  match drop i b with x :: y :: _ => Some (from_be [x; y]) | _ => None end.

(** The symbols of one chunk: a run, fourteen of one bit, or seven of two bits. *)
Definition chunk_syms (c : Z) : list Z :=
  if Z.land c 0x8000 =? 0 then
    replicate (Z.to_nat (Z.land c 0x1fff)) (Z.land (Z.shiftr c 13) 0x03)
  else if Z.land c 0x4000 =? 0 then
    map (fun k => Z.land (Z.shiftr c (Z.of_nat k)) 0x01) (rev (seq 0 14))
  else map (fun k => Z.land (Z.shiftr c (Z.of_nat k * 2)) 0x03) (rev (seq 0 7)).

(** Chunks until there are enough symbols; each chunk takes two bytes. *)
Fixpoint read_chunks (fuel : nat) (count : nat) (b : list byte) : option (list Z * list byte) :=
  match count with
  | O => Some ([], b)
  | _ =>
    match fuel, b with
    | S fuel, x :: y :: b =>
      let syms := take count (chunk_syms (from_be [x; y])) in
      let? (more, b) := read_chunks fuel (count - length syms) b in Some (syms ++ more, b)
    | _, _ => None
    end
  end.

Fixpoint read_deltas (t : Z) (syms : list Z) (b : list byte) : option (list (option Z)) :=
  match syms with
  | [] => Some []
  | s :: syms =>
    if s =? 1 then
      match b with
      | x :: b => let t := t + bz x * 250 in let? l := read_deltas t syms b in Some (Some t :: l)
      | [] => None
      end
    else if s =? 2 then
      match b with
      | x :: y :: b => let t := t + i16 (from_be [x; y]) * 250 in let? l := read_deltas t syms b in Some (Some t :: l)
      | _ => None
      end
    else let? l := read_deltas t syms b in Some (None :: l)
  end.

Definition parse_twcc (b : list byte) : option (Z * list (option Z)) :=
  let? base := get16 b 8 in
  let? count := get16 b 10 in
  let? w := be32 b 12 in
  let rt := Z.shiftr w 8 in
  let rt := if negb (Z.land rt 0x800000 =? 0) then rt - 0x1000000 else rt in
  let? (syms, rest) := read_chunks (length b) (Z.to_nat count) (drop 16 b) in
  let? out := read_deltas (rt * 64000) syms rest in
  Some (base, out).

(** ** Compound packets *)

Lemma split_loop_fuel n : forall f g b, (length b <= n)%nat -> (length b <= f)%nat -> (length b <= g)%nat ->
  split_loop f b = split_loop g b.
Proof.
  induction n as [|n IH]; intros f g b Hn Hf Hg.
  { destruct b; [by destruct f, g|cbn in Hn; lia]. }
  destruct f as [|f], g as [|g]; try (destruct b; [done|cbn in *; lia]).
  destruct b as [|b0 [|b1 [|l1 [|l0 b]]]]; try done. cbn [split_loop]. case_match; [done|]. case_match eqn:Hc; [done|].
  f_equal. pose proof (from_be_range [l1; l0]) as Hr. change (256 ^ len [l1; l0]) with 65536 in Hr.
  apply IH; rewrite length_drop; cbn [length] in *; lia.
Qed.

Lemma split_loop_cons f b0 b1 l1 l0 r :
  split_loop (S f) (b0 :: b1 :: l1 :: l0 :: r) =
  if negb (Z.shiftr (bz b0) 6 =? 2) then []
  else
    let n := Z.to_nat ((from_be [l1; l0] + 1) * 4) in
    let b := b0 :: b1 :: l1 :: l0 :: r in
    if (length b <? n)%nat then []
    else mkPacket (Z.land (bz b0) 0x1f) (bz b1) (drop 4 (take n b)) :: split_loop f (drop n b).
Proof. done. Qed.

(** A packet whose length field counts its words is taken off the front. *)
Lemma split_packet x y w bd rest :
  (Z.shiftr (bz x) 6 =? 2) = true -> 0 <= w < 65536 -> length bd = (Z.to_nat w * 4)%nat ->
  split ([x; y] ++ be 2 w ++ bd ++ rest) = mkPacket (Z.land (bz x) 0x1f) (bz y) bd :: split rest.
Proof.
  intros Hx Hw Hl. unfold split. cbn [be app]. cbn [length].
  rewrite split_loop_cons, Hx. cbv zeta. cbn [negb].
  change [zb (w / 256); zb w] with (be 2 w). rewrite from_be_be_u16 by ulia.
  replace (Z.to_nat ((w + 1) * 4)) with (S (S (S (S (length bd))))) by lia.
  rewrite (proj2 (Nat.ltb_ge _ _)) by (cbn [length]; rewrite length_app; lia). cbn [take drop]. rewrite take_app_len, drop_app_len.
  f_equal. apply (split_loop_fuel (length rest)); cbn [length]; rewrite ?length_app; lia.
Qed.

Lemma len_words {A} (l : list A) k : Z.of_nat (length l) = 4 * k -> length l = (Z.to_nat k * 4)%nat.
Proof. intros H. lia. Qed.

(** *** NACK *)

Lemma land_bit blp k : 0 <= k -> negb (Z.land blp (Z.shiftl 1 k) =? 0) = Z.testbit blp k.
Proof.
  intros Hk. rewrite Z.shiftl_1_l. destruct (Z.testbit blp k) eqn:E.
  - apply negb_true_iff, Z.eqb_neq. intros H. apply (f_equal (fun z => Z.testbit z k)) in H.
    rewrite Z.land_spec, E, Z.pow2_bits_true, Z.bits_0 in H by done. done.
  - apply negb_false_iff, Z.eqb_eq. apply Z.bits_inj'. intros i Hi. rewrite Z.land_spec, Z.bits_0.
    destruct (Z.eq_dec i k) as [->|Hn]; [by rewrite E|]. rewrite Z.pow2_bits_false by done. apply andb_false_r.
Qed.

Lemma testbit_small blp m k : 0 <= blp < 2 ^ m -> m <= k -> Z.testbit blp k = false.
Proof.
  intros Hb Hk. destruct (Z.eq_dec blp 0) as [->|]; [apply Z.bits_0|].
  apply Z.bits_above_log2; [lia|]. apply Z.log2_lt_pow2; [lia|].
  destruct (Z.lt_ge_cases m 0); [rewrite Z.pow_neg_r in Hb by done; lia|].
  assert (2 ^ m <= 2 ^ k) by (apply Z.pow_le_mono_r; lia). lia.
Qed.

Definition bit_seq (pid blp : Z) (k : nat) : option Z :=
  if Z.testbit blp (Z.of_nat k) then Some (u16 (pid + (Z.of_nat k + 1))) else None.

Lemma nack_bits_eq pid blp : nack_bits pid blp = pid :: omap (bit_seq pid blp) (seq 0 16).
Proof.
  unfold nack_bits. f_equal. apply list_omap_ext. apply Forall2_same_length_lookup_2; [done|].
  intros i x y Hx Hy. rewrite Hx in Hy. injection Hy as ->. unfold bit_seq. by rewrite land_bit by lia.
Qed.

Lemma omap_none {A B} (f : A -> option B) (l : list A) : (forall x, x ∈ l -> f x = None) -> omap f l = [].
Proof.
  intros H. induction l as [|x l IH]; [done|]. cbn. rewrite H by (apply list_elem_of_here). apply IH.
  intros y Hy. apply H. by apply list_elem_of_further.
Qed.

Lemma omap_same {A B} (f g : A -> option B) (l : list A) : (forall x, x ∈ l -> f x = g x) -> omap f l = omap g l.
Proof.
  intros H. induction l as [|x l IH]; [done|]. cbn. rewrite H by (apply list_elem_of_here).
  rewrite IH; [done|]. intros y Hy. apply H. by apply list_elem_of_further.
Qed.

(** Setting a bit above the ones that are set adds one number at the end. *)
Lemma nack_bits_set pid blp m d :
  0 <= blp < 2 ^ m -> 0 <= m < d -> 1 <= d <= 16 ->
  nack_bits pid (Z.lor blp (u16 (Z.shiftl 1 (d - 1)))) = nack_bits pid blp ++ [u16 (pid + d)].
Proof.
  intros Hb Hm Hd. rewrite !nack_bits_eq. cbn [app]. f_equal. rewrite Z.shiftl_1_l.
  rewrite u16_id by (unfold is_u16; split; [apply Z.pow_nonneg; lia|apply Z.pow_lt_mono_r; lia]).
  assert (Hbit : forall k, 0 <= k -> Z.testbit (Z.lor blp (2 ^ (d - 1))) k = Z.testbit blp k || (d - 1 =? k)).
  { intros k Hk. rewrite Z.lor_spec, Z.pow2_bits_eqb by lia. done. }
  assert (Hs : seq 0 16 = seq 0 (Z.to_nat (d - 1)) ++ [Z.to_nat (d - 1)] ++ seq (Z.to_nat d) (Z.to_nat (16 - d))).
  { replace 16%nat with (Z.to_nat (d - 1) + (1 + Z.to_nat (16 - d)))%nat by lia. rewrite !seq_app. cbn [Nat.add seq app].
    do 2 f_equal. f_equal. lia. }
  rewrite Hs, !omap_app.
  assert (omap (bit_seq pid (Z.lor blp (2 ^ (d - 1)))) (seq 0 (Z.to_nat (d - 1)))
    = omap (bit_seq pid blp) (seq 0 (Z.to_nat (d - 1)))) as ->.
  { apply omap_same. intros k Hk%elem_of_seq. unfold bit_seq. rewrite Hbit by lia.
    destruct (Z.eqb_spec (d - 1) (Z.of_nat k)); [lia|]. by rewrite orb_false_r. }
  assert (Hhi : forall k, d <= Z.of_nat k -> bit_seq pid blp k = None /\ bit_seq pid (Z.lor blp (2 ^ (d - 1))) k = None).
  { intros k Hk. unfold bit_seq. rewrite Hbit by lia. rewrite (testbit_small blp m) by lia.
    destruct (Z.eqb_spec (d - 1) (Z.of_nat k)); [lia|done]. }
  rewrite !(omap_none _ (seq (Z.to_nat d) _)) by (intros k Hk%elem_of_seq; apply Hhi; lia).
  assert (omap (bit_seq pid blp) [Z.to_nat (d - 1)] = []) as ->.
  { cbn. unfold bit_seq. by rewrite (testbit_small blp m) by lia. }
  assert (omap (bit_seq pid (Z.lor blp (2 ^ (d - 1)))) [Z.to_nat (d - 1)] = [u16 (pid + d)]) as ->.
  { cbn. unfold bit_seq. rewrite Hbit by lia. rewrite Z2Nat.id by lia. rewrite Z.eqb_refl, orb_true_r.
    do 2 f_equal. lia. }
  cbn [app]. by rewrite !app_nil_r.
Qed.

Lemma nack_bits_0 s : nack_bits s 0 = [s].
Proof. done. Qed.

Definition expand (acc : list (Z * Z)) : list Z := concat (map (fun pb => nack_bits pb.1 pb.2) (rev acc)).

Lemma expand_cons pb acc : expand (pb :: acc) = expand acc ++ nack_bits pb.1 pb.2.
Proof. unfold expand. cbn [rev]. rewrite map_app, concat_app. cbn [map concat]. by rewrite app_nil_r. Qed.

(** The items stand for the numbers [l], the last of which is the last item's [m]-th. *)
Definition items_of (acc : list (Z * Z)) (l : list Z) : Prop :=
  expand acc = l /\ Forall (fun pb => is_u16 pb.1 /\ is_u16 pb.2) acc /\
  match acc with
  | [] => l = []
  | (pid, blp) :: _ => exists m, 0 <= m <= 16 /\ 0 <= blp < 2 ^ m /\ List.last l 0 = pid + m
  end.

Lemma last_snoc (l : list Z) x : List.last (l ++ [x]) 0 = x.
Proof. apply List.last_last. Qed.

Lemma items_of_add acc l s : items_of acc l -> is_u16 s -> (acc = [] \/ List.last l 0 < s) -> items_of (nack_add acc s) (l ++ [s]).
Proof.
  intros (He & Hu & Hm) Hs Hlt. unfold nack_add. destruct acc as [|[pid blp] acc].
  { cbn in He. subst l. split; [rewrite expand_cons; cbn [fst snd]; by rewrite nack_bits_0|].
    split; [constructor; [by split|constructor]|]. exists 0. cbn. lia. }
  destruct Hm as (m & Hm & Hb & Hlast). destruct Hlt as [|Hlt]; [done|]. apply Forall_cons in Hu as [[Hp Hblp] Hu]. cbn [fst snd] in *.
  assert (u16 (s - pid) = s - pid) as Ed by (apply u16_id; ulia). rewrite Ed.
  destruct ((1 <=? s - pid) && (s - pid <=? 16)) eqn:E.
  - zbool. assert (Hpow : 2 ^ m <= 2 ^ (s - pid - 1)) by (apply Z.pow_le_mono_r; lia).
    assert (Hpow2 : 2 ^ (s - pid - 1) <= 2 ^ 15) by (apply Z.pow_le_mono_r; lia).
    assert (Hpow3 : 2 ^ (s - pid) = 2 * 2 ^ (s - pid - 1)) by (rewrite <- Z.pow_succ_r by lia; f_equal; lia).
    assert (Hlor : Z.lor blp (u16 (Z.shiftl 1 (s - pid - 1))) = blp + 2 ^ (s - pid - 1)).
    { rewrite (u16_id (Z.shiftl 1 _)) by (rewrite Z.shiftl_1_l; unfold is_u16; lia). rewrite lor_shift by lia. lia. } split; [|split].
    + rewrite expand_cons in *. cbn [fst snd] in *. rewrite (nack_bits_set pid blp m) by lia.
      replace (u16 (pid + (s - pid))) with s by (rewrite u16_id by ulia; lia). by rewrite app_assoc, He.
    + constructor; [|done]. split; [done|]. cbn [snd]. rewrite Hlor. unfold is_u16. lia.
    + exists (s - pid). rewrite last_snoc, Hlor. lia.
  - split; [|split].
    + rewrite expand_cons. cbn [fst snd]. by rewrite nack_bits_0, He.
    + constructor; [by split|]. constructor; [by split|done].
    + exists 0. rewrite last_snoc. cbn. lia.
Qed.

Lemma items_of_fold l : forall acc l0, items_of acc l0 -> Forall is_u16 l -> StronglySorted Z.lt l ->
  (acc = [] \/ Forall (fun x => List.last l0 0 < x) l) -> items_of (fold_left nack_add l acc) (l0 ++ l).
Proof.
  induction l as [|s l IH]; intros acc l0 Hi Hu Hs Hlt; cbn [fold_left]; [by rewrite app_nil_r|].
  apply Forall_cons in Hu as [Hu1 Hu]. apply StronglySorted_inv in Hs as [Hs Hf].
  replace (l0 ++ s :: l) with ((l0 ++ [s]) ++ l) by (by rewrite <- app_assoc). apply IH; [|done|done|].
  - apply items_of_add; [done|done|]. destruct Hlt as [?|Hlt]; [by left|right]. by apply Forall_cons in Hlt as [? _].
  - right. by rewrite last_snoc.
Qed.

(** The items, as the parser expands them, are the numbers in order. *)
Lemma nack_items_expand seqs : NoDup seqs -> Forall is_u16 seqs ->
  Forall (fun pb => is_u16 pb.1 /\ is_u16 pb.2) (nack_items seqs) /\
  concat (map (fun pb => nack_bits pb.1 pb.2) (nack_items seqs)) = merge_sort Z.le seqs.
Proof.
  intros Hn Hu. unfold nack_items. pose proof (merge_sort_Permutation Z.le seqs) as Hp.
  assert (Hs : StronglySorted Z.lt (merge_sort Z.le seqs)).
  { assert (NoDup (merge_sort Z.le seqs)) as Hn' by (by rewrite Hp).
    pose proof (StronglySorted_merge_sort Z.le seqs) as Hle.
    clear Hp. revert Hn'. induction Hle as [|x l Hl IH Hf]; intros Hn'; [constructor|]. apply NoDup_cons in Hn' as [Hx Hn'].
    constructor; [by apply IH|]. rewrite Forall_forall in *. intros y Hy. specialize (Hf y Hy).
    assert (x <> y) by (by intros ->). lia. }
  pose proof (items_of_fold (merge_sort Z.le seqs) [] []) as H. cbn [app] in H.
  destruct H as (He & Hf & _); [done|by rewrite Hp|done|by left|]. split; [|exact He].
  by apply Forall_rev.
Qed.

Lemma nack_loop_items its : forall fuel, (length its <= fuel)%nat -> Forall (fun pb => is_u16 pb.1 /\ is_u16 pb.2) its ->
  nack_loop fuel (concat (map (fun pb => be 2 pb.1 ++ be 2 pb.2) its)) = concat (map (fun pb => nack_bits pb.1 pb.2) its).
Proof.
  induction its as [|[p m] its IH]; intros fuel Hf Hu; [by destruct fuel|]. destruct fuel as [|fuel]; [cbn in Hf; lia|].
  apply Forall_cons in Hu as [[Hp Hm] Hu]. cbn [map concat fst snd be app nack_loop] in *.
  change [zb (p / 256); zb p] with (be 2 p). change [zb (m / 256); zb m] with (be 2 m).
  rewrite !from_be_be_u16 by done. rewrite IH by (done || (cbn in Hf; lia)). done.
Qed.

Lemma length_items its : length (concat (map (fun pb : Z * Z => be 2 pb.1 ++ be 2 pb.2) its)) = (4 * length its)%nat.
Proof. induction its as [|pb its IH]; [done|]. cbn [map concat length]. rewrite !length_app, !length_be, IH. lia. Qed.

Lemma header_split fmt pt words bd rest :
  0 <= fmt < 32 -> is_u8 pt -> 0 <= words < 65536 -> length bd = (Z.to_nat words * 4)%nat ->
  split (header fmt pt words ++ bd ++ rest) = mkPacket fmt pt bd :: split rest.
Proof.
  intros Hf Hp Hw Hl. unfold header. rewrite u16_id by ulia. rewrite <- app_assoc.
  assert (Hb : (Z.shiftr (bz (zb (Z.lor 0x80 (Z.land fmt 0x1f)))) 6 =? 2) = true /\
    Z.land (bz (zb (Z.lor 0x80 (Z.land fmt 0x1f)))) 0x1f = fmt).
  { assert (In fmt (List.map Z.of_nat (List.seq 0 32))) as Hin.
    { apply in_map_iff. exists (Z.to_nat fmt). split; [lia|]. apply in_seq. lia. }
    repeat (destruct Hin as [<-|Hin]; [done|]). done. }
  destruct Hb as [H1 H2]. rewrite (split_packet _ _ words bd rest H1 Hw Hl), H2. by rewrite bz_zb, u8_id.
Qed.

(** A NACK for any set of sequence numbers, anywhere in a compound packet, is parsed back
    to exactly those numbers, in increasing order, for the same stream. *)
Theorem nack_roundtrip media seqs rest :
  is_u32 media -> NoDup seqs -> Forall is_u16 seqs -> len seqs <= 60000 ->
  exists bd, split (build_nack media seqs ++ rest) = mkPacket 1 205 bd :: split rest /\
    parse_nack bd = Some (media, merge_sort Z.le seqs).
Proof.
  intros Hmed Hn Hu Hlen. destruct (nack_items_expand seqs Hn Hu) as [Hi He].
  assert (Hcount : (length (nack_items seqs) <= length seqs)%nat).
  { rewrite <- (Permutation_length (merge_sort_Permutation Z.le seqs)), <- He. clear.
    induction (nack_items seqs) as [|pb its IH]; [done|]. cbn [map concat length]. rewrite length_app.
    unfold nack_bits at 1. cbn [length]. lia. }
  set (its := nack_items seqs) in *. set (bd := be 4 SENDER_SSRC ++ be 4 media ++ concat (map (fun pb => be 2 pb.1 ++ be 2 pb.2) its)).
  assert (Hbd : length bd = (8 + 4 * length its)%nat) by (unfold bd; by rewrite !length_app, !length_be, length_items).
  exists bd. split.
  - unfold build_nack. fold its. replace (header 1 205 (2 + len its) ++ be 4 SENDER_SSRC ++ be 4 media
      ++ concat (map (fun pb => be 2 pb.1 ++ be 2 pb.2) its)) with (header 1 205 (2 + len its) ++ bd) by done.
    rewrite <- app_assoc. apply header_split; [lia|by unfold is_u8| |]; unfold len in *; [|rewrite Hbd]; lia.
  - unfold parse_nack, be32. rewrite (proj2 (Nat.ltb_ge _ _)) by (rewrite Hbd; lia).
    change (take 4 (drop 4 bd)) with (be 4 media). rewrite from_be_be_u32 by done.
    change (drop 8 bd) with (concat (map (fun pb => be 2 pb.1 ++ be 2 pb.2) its)).
    rewrite nack_loop_items by (done || (rewrite Hbd; lia)). by rewrite He.
Qed.

Lemma nack_roundtrip_witness :
  exists bd, split (build_nack 9 [20; 4; 5]) = [mkPacket 1 205 bd] /\ parse_nack bd = Some (9, [4; 5; 20]).
Proof.
  destruct (nack_roundtrip 9 [20; 4; 5] []) as (bd & H1 & H2);
    [vm_compute; split; [discriminate|reflexivity]|apply (bool_decide_unpack _); vm_compute; exact I
    |repeat constructor; discriminate || reflexivity|vm_compute; discriminate|].
  rewrite app_nil_r in H1. exists bd. split; [exact H1|exact H2].
Defined.

(** *** REMB *)

Lemma remb_shift_spec fuel : forall exp mant, 0 <= exp -> exp + Z.of_nat fuel <= 255 -> 0 <= mant < 2 ^ (18 + Z.of_nat fuel) ->
  let (e, m) := remb_shift fuel exp mant in
  exp <= e <= exp + Z.of_nat fuel /\ 0 <= m <= 0x3ffff /\ m * 2 ^ (e - exp) <= mant < (m + 1) * 2 ^ (e - exp) /\
  (exp < e -> 0x20000 <= m).
Proof.
  induction fuel as [|fuel IH]; intros exp mant He Hf Hm; cbn [remb_shift].
  { change (2 ^ (18 + Z.of_nat 0)) with 262144 in Hm. rewrite Z.sub_diag. lia. }
  destruct (Z.gtb_spec mant 0x3ffff) as [Hgt|Hle]; [|rewrite Z.sub_diag; lia].
  rewrite u8_id by ulia. rewrite Z.shiftr_div_pow2 by lia. change (2 ^ 1) with 2.
  specialize (IH (exp + 1) (mant / 2)).
  assert (E : 2 ^ (18 + Z.of_nat (S fuel)) = 2 * 2 ^ (18 + Z.of_nat fuel)) by (rewrite <- Z.pow_succ_r by lia; f_equal; lia).
  destruct (remb_shift fuel (exp + 1) (mant / 2)) as [e m]. destruct IH as (H1 & H2 & H3 & H4); [lia|lia| |].
  { split; [apply Z.div_pos; lia|]. apply Z.div_lt_upper_bound; lia. }
  split; [lia|]. split; [done|]. assert (E2 : 2 ^ (e - exp) = 2 * 2 ^ (e - (exp + 1))) by (rewrite <- Z.pow_succ_r by lia; f_equal; lia).
  pose proof (Z.div_mod mant 2). pose proof (Z.mod_pos_bound mant 2 ltac:(lia)). split; [nia|].
  intros _. destruct (Z.eq_dec e (exp + 1)) as [->|Hne]; [|apply H4; lia].
  rewrite Z.sub_diag in H3. lia.
Qed.

Lemma remb_parts_spec bps :
  is_u64 bps ->
  let (e, m) := remb_parts bps in
  0 <= e < 64 /\ 0 <= m < 2 ^ 18 /\ m * 2 ^ e <= bps < (m + 1) * 2 ^ e /\
  131072 * (bps - m * 2 ^ e) <= bps.
Proof.
  intros Hb. unfold remb_parts. pose proof (remb_shift_spec 64 0 bps) as H.
  assert (2 ^ 64 <= 2 ^ (18 + Z.of_nat 64)) as Hp by (apply Z.pow_le_mono_r; lia).
  destruct (remb_shift 64 0 bps) as [e m]. unfold is_u64 in Hb.
  destruct H as (H1 & H2 & H3 & H4); [lia|lia|lia|]. rewrite Z.sub_0_r in *.
  assert (He : e < 64).
  { destruct (Z.lt_ge_cases e 64) as [|Hge]; [done|exfalso]. assert (2 ^ 64 <= 2 ^ e) by (apply Z.pow_le_mono_r; lia).
    specialize (H4 ltac:(lia)). nia. }
  split; [lia|]. split; [change (2 ^ 18) with 262144; lia|]. split; [done|].
  destruct (Z.eq_dec e 0) as [->|]; [change (2 ^ 0) with 1 in *; lia|]. specialize (H4 ltac:(lia)).
  assert (0 < 2 ^ e) by (apply Z.pow_pos_nonneg; lia). nia.
Qed.

(** The rate a receiver reads off a REMB packet. *)
Definition remb_rate (b : list byte) : Z :=
  let x := bz (nth 17 b x00) in
  Z.shiftl (Z.land x 0x03 * 65536 + from_be (take 2 (drop 18 b))) (Z.shiftr x 2).

Lemma remb_byte e h : 0 <= e < 64 -> 0 <= h < 4 ->
  let x := bz (zb (Z.lor (u8 (Z.shiftl e 2)) (Z.land (u8 h) 0x03))) in Z.land x 0x03 = h /\ Z.shiftr x 2 = e.
Proof.
  intros He Hh. assert (H : forallb (fun e => forallb (fun h =>
    let x := bz (zb (Z.lor (u8 (Z.shiftl e 2)) (Z.land (u8 h) 0x03))) in (Z.land x 0x03 =? h) && (Z.shiftr x 2 =? e))
    (List.map Z.of_nat (List.seq 0 4))) (List.map Z.of_nat (List.seq 0 64)) = true) by (vm_compute; reflexivity).
  assert (Hin : forall z n, 0 <= z < Z.of_nat n -> In z (List.map Z.of_nat (List.seq 0 n))).
  { intros z n Hz. apply in_map_iff. exists (Z.to_nat z). split; [lia|]. apply in_seq. lia. }
  rewrite forallb_forall in H. specialize (H e (Hin e 64%nat He)). rewrite forallb_forall in H.
  specialize (H h (Hin h 4%nat Hh)). cbv zeta in *. apply andb_prop in H as [H1 H2]. by apply Z.eqb_eq in H1, H2.
Qed.

(** The announced bit rate is the configured one rounded down by at most one part in
    131072, whatever 64-bit rate is configured. *)
Theorem remb_accurate bps ssrcs :
  is_u64 bps ->
  let r := remb_rate (build_remb bps ssrcs) in r <= bps /\ 131072 * (bps - r) <= bps.
Proof.
  intros Hb. cbv zeta. unfold build_remb. pose proof (remb_parts_spec bps Hb) as H.
  destruct (remb_parts bps) as [e m]. destruct H as (H1 & H2 & H3 & H4).
  destruct (remb_byte e (m / 65536)) as [E1 E2]; [done|split; [apply Z.div_pos; lia|apply Z.div_lt_upper_bound; [lia|change (2 ^ 18) with 262144 in H2; lia]]|].
  cbv zeta in *. unfold remb_rate. rewrite (Z.shiftr_div_pow2 m 16) by lia. change (2 ^ 16) with 65536.
  set (x := zb (Z.lor _ _)) in *. set (b := header _ _ _ ++ _). change (nth 17 b x00) with x.
  change (take 2 (drop 18 b)) with (be 2 (u16 m)). rewrite E1, E2, from_be_be_u16 by auto with ox.
  rewrite Z.shiftl_mul_pow2 by lia. unfold u16. change (2 ^ 16) with 65536.
  rewrite (Z.mul_comm (m / 65536)), <- Z.div_mod by lia. lia.
Qed.

Lemma remb_accurate_witness : remb_rate (build_remb 3000001 [7]) <= 3000001.
Proof. apply (remb_accurate 3000001 [7]). vm_compute. split; [discriminate|reflexivity]. Defined.

(** *** Transport-wide feedback *)

Definition sym_ok (s : Z) : Prop := s = SYM_NONE \/ s = SYM_SMALL \/ s = SYM_LARGE.

Lemma run_of_take s limit l : let n := run_of s limit l in
  (n <= limit)%nat /\ (n <= length l)%nat /\ take n l = replicate n s.
Proof.
  cbv zeta. revert l. induction limit as [|limit IH]; intros l; [cbn; split; [lia|]; split; [lia|done]|]. destruct l as [|x l]; [cbn; split; [lia|]; split; [lia|done]|].
  cbn [run_of]. destruct (Z.eqb_spec x s) as [->|]; [|cbn; split; [lia|]; split; [lia|done]]. destruct (IH l) as (H1 & H2 & H3). cbn [take length replicate].
  rewrite H3. split; [lia|]. split; [lia|done].
Qed.

Lemma chunk_word s n : sym_ok s -> 1 <= n <= 0x1fff ->
  let c := from_be (be 2 (Z.lor (Z.shiftl (Z.land s 0x03) 13) n)) in chunk_syms c = replicate (Z.to_nat n) s.
Proof.
  intros Hs Hn. cbv zeta.
  assert (Z.lor (Z.shiftl (Z.land s 0x03) 13) n = n + s * 2 ^ 13 /\ 0 <= s <= 2) as [-> Hs2].
  { rewrite Z.lor_comm. destruct Hs as [->|[->| ->]]; (rewrite lor_shift by (change (2 ^ 13) with 8192; lia); split; [done|]); unfold SYM_NONE, SYM_SMALL, SYM_LARGE; lia. }
  change (2 ^ 13) with 8192. rewrite from_be_be_u16 by ulia. unfold chunk_syms.
  assert (Hl : 0 <= n + s * 8192 < 2 ^ 15) by (change (2 ^ 15) with 32768; lia).
  assert (Z.land (n + s * 8192) 0x8000 = 0) as ->.
  { change 0x8000 with (Z.shiftl 1 15). apply Z.bits_inj'. intros i Hi. rewrite Z.land_spec, Z.bits_0, Z.shiftl_1_l.
    destruct (Z.eq_dec i 15) as [->|]; [by rewrite (testbit_small _ 15)|]. by rewrite Z.pow2_bits_false, andb_false_r. }
  cbn [Z.eqb]. change 0x1fff with (Z.ones 13). rewrite Z.land_ones by lia. change (2 ^ 13) with 8192.
  rewrite Z.mod_add, Z.mod_small by lia. rewrite Z.shiftr_div_pow2 by lia. change (2 ^ 13) with 8192.
  rewrite Z.div_add, Z.div_small by lia. cbn [Z.add]. f_equal. by destruct Hs as [->|[->| ->]].
Qed.

Lemma twcc_chunks_read l : forall f g rest, Forall sym_ok l -> (length l <= f)%nat ->
  (length (twcc_chunks f l) <= 2 * g)%nat -> read_chunks g (length l) (twcc_chunks f l ++ rest) = Some (l, rest).
Proof.
  induction l as [l IH] using (induction_ltof1 _ (@length Z)); unfold ltof in IH. intros f g rest Hs Hf Hg.
  destruct l as [|s l]; [by destruct f, g|]. destruct f as [|f]; [cbn in Hf; lia|].
  apply Forall_cons in Hs as [Hs1 Hs]. cbn [twcc_chunks] in *. destruct (run_of_take s (Z.to_nat (0x1fff - 1)) l) as (R1 & R2 & R3).
  set (n := run_of s (Z.to_nat (0x1fff - 1)) l) in *. cbv zeta in *. rewrite <- app_assoc. rewrite length_app, length_be in Hg.
  destruct g as [|g]; [lia|].
  pose proof (chunk_word s (Z.of_nat (S n)) Hs1 ltac:(lia)) as Hc. cbv zeta in Hc. rewrite Nat2Z.id in Hc.
  set (w := Z.lor _ _) in *. cbn [drop] in *. cbn [be app] in *. cbn [length]. cbn [read_chunks]. rewrite Hc.
  rewrite take_ge by (rewrite length_replicate; lia). rewrite length_replicate.
  replace (S (length l) - S n)%nat with (length (drop n l)) by (rewrite length_drop; lia).
  rewrite IH; [|rewrite length_drop; cbn; lia|by apply Forall_drop|rewrite length_drop; cbn in *; lia|lia].
  cbn [replicate]. rewrite <- R3. cbn [app]. by rewrite take_drop.
Qed.

(** The times a feedback stands for: each delta counts from the packet before. *)
Fixpoint times (t : Z) (syms deltas : list Z) : list (option Z) :=
  match syms with
  | [] => []
  | s :: syms =>
    if (s =? SYM_SMALL) || (s =? SYM_LARGE) then
      match deltas with
      | d :: ds => Some (t + d * 250) :: times (t + d * 250) syms ds
      | [] => None :: times t syms []
      end
    else None :: times t syms deltas
  end.

(** A delta for every packet received, of the size its symbol says. *)
Inductive deltas_ok : list Z -> list Z -> Prop :=
| do_nil : deltas_ok [] []
| do_none ss ds : deltas_ok ss ds -> deltas_ok (SYM_NONE :: ss) ds
| do_small ss d ds : 0 <= d <= 255 -> deltas_ok ss ds -> deltas_ok (SYM_SMALL :: ss) (d :: ds)
| do_large ss d ds : -32768 <= d <= 32767 -> deltas_ok ss ds -> deltas_ok (SYM_LARGE :: ss) (d :: ds).

Lemma i16_be d : -32768 <= d <= 32767 -> i16 (from_be (be 2 (u16 d))) = d.
Proof.
  intros Hd. rewrite from_be_be_u16 by auto with ox. unfold i16, signed. rewrite (u16_id (u16 d)) by auto with ox.
  change (2 ^ (16 - 1)) with 32768. change (2 ^ 16) with 65536. destruct (Z.ltb_spec (u16 d) 32768); ulia.
Qed.

Lemma twcc_deltas_read ss ds rest : deltas_ok ss ds -> forall t,
  read_deltas t ss (twcc_deltas ss ds ++ rest) = Some (times t ss ds).
Proof.
  induction 1 as [|ss ds _ IH|ss d ds Hd _ IH|ss d ds Hd _ IH]; intros t; [done|..]; cbn [twcc_deltas read_deltas times].
  - change (SYM_NONE =? SYM_SMALL) with false. change (SYM_NONE =? SYM_LARGE) with false.
    change (SYM_NONE =? 1) with false. change (SYM_NONE =? 2) with false. cbn [orb]. by rewrite IH.
  - change (SYM_SMALL =? SYM_SMALL) with true. change (SYM_SMALL =? 1) with true. cbn [orb app].
    rewrite bz_zb_id by lia. by rewrite IH.
  - change (SYM_LARGE =? SYM_SMALL) with false. change (SYM_LARGE =? SYM_LARGE) with true. change (SYM_LARGE =? 1) with false.
    change (SYM_LARGE =? 2) with true. cbn [orb]. rewrite <- app_assoc. pose proof (i16_be d Hd) as E. cbn [be app] in *. rewrite E. by rewrite IH.
Qed.


Lemma deltas_syms ss ds : deltas_ok ss ds -> Forall sym_ok ss.
Proof. induction 1; constructor; try done; unfold sym_ok; auto. Qed.

Lemma length_chunks f l : (length (twcc_chunks f l) <= 2 * length l)%nat.
Proof.
  revert l. induction f as [|f IH]; intros [|s l]; try (cbn; lia). cbn [twcc_chunks]. cbv zeta.
  rewrite length_app, length_be. set (n := run_of _ _ _). specialize (IH (drop (S n) (s :: l))). rewrite length_drop in IH.
  cbn [length] in *. lia.
Qed.

Lemma length_deltas ss ds : (length (twcc_deltas ss ds) <= 2 * length ss)%nat.
Proof.
  revert ds. induction ss as [|s ss IH]; intros ds; [cbn; lia|]. cbn [twcc_deltas length].
  destruct (s =? SYM_SMALL); [destruct ds as [|d ds]; cbn [length]; [lia|specialize (IH ds); lia]|].
  destruct (s =? SYM_LARGE); [destruct ds as [|d ds]; [cbn; lia|]|].
  - rewrite length_app, length_be. specialize (IH ds). lia.
  - specialize (IH ds). lia.
Qed.

(** The feedback [finish] completes, on the wire: its body starts with what was given. *)
Lemma finish_split bd rest : Z.of_nat (length bd) <= 262000 ->
  exists tail, split (finish (Z.lor 0x80 (Z.land 15 0x1f)) bd ++ rest) = mkPacket 15 205 (bd ++ tail) :: split rest.
Proof.
  intros Hl. unfold finish. set (n := (4 + length bd)%nat). destruct (pad_spec n) as [Hp Hm]. set (p := pad n) in *.
  set (tail := match p with O => [] | S k => replicate k x00 ++ [zb (Z.of_nat p)] end). exists tail.
  assert (Htail : length tail = p).
  { unfold tail. clearbody p. destruct p as [|k]; [done|]. rewrite length_app, length_replicate. cbn. lia. }
  pose proof (Nat.div_mod_eq (n + p) 4) as E. rewrite Hm in E.
  set (w := ((n + p) / 4)%nat) in *. rewrite u16_id by ulia. rewrite <- !app_assoc.
  replace (bd ++ tail ++ rest) with ((bd ++ tail) ++ rest) by (by rewrite app_assoc).
  assert (Hlen : length (bd ++ tail) = (Z.to_nat (Z.of_nat w - 1) * 4)%nat) by (rewrite length_app, Htail; lia).
  destruct (p =? 0)%nat; rewrite (split_packet _ _ (Z.of_nat w - 1) (bd ++ tail) rest); try done; lia.
Qed.

Record fb_ok (f : Feedback) : Prop := {
  fb_base : is_u16 (base_seq f);
  fb_status : status_count f = len (symbols f);
  fb_size : len (symbols f) <= 65000;
  fb_time : 0 <= reference_time f < 2 ^ 24;
  fb_fb : is_u8 (fb_count f);
  fb_deltas : deltas_ok (symbols f) (deltas_250us f) }.

(** A 24-bit value read as signed. *)
Definition i24 (z : Z) : Z := if z <? 2 ^ 23 then z else z - 2 ^ 24.

Lemma parse_rt rt fbc : 0 <= rt < 2 ^ 24 -> is_u8 fbc ->
  let w := from_be (be 4 (Z.lor (u32 (Z.shiftl (Z.land rt 0x00ffffff) 8)) fbc)) in
  (let r := Z.shiftr w 8 in if negb (Z.land r 0x800000 =? 0) then r - 0x1000000 else r) = i24 rt.
Proof.
  intros Hr Hf. cbv zeta. change 0x00ffffff with (Z.ones 24). rewrite Z.land_ones, Z.mod_small by lia.
  rewrite (u32_id (Z.shiftl rt 8)) by (rewrite Z.shiftl_mul_pow2 by lia; ulia).
  rewrite Z.lor_comm, lor_shift by (done || lia). change (2 ^ 8) with 256. unfold is_u8 in Hf. change (2 ^ 8) with 256 in Hf.
  rewrite from_be_be_u32 by (change (2 ^ 24) with 16777216 in Hr; ulia).
  rewrite Z.shiftr_div_pow2 by lia. change (2 ^ 8) with 256. rewrite Z.div_add, Z.div_small by lia. rewrite Z.add_0_l.
  change 0x800000 with (Z.shiftl 1 23). rewrite land_bit by lia. unfold i24.
  destruct (Z.ltb_spec rt (2 ^ 23)) as [Hlt|Hge].
  - by rewrite (testbit_small rt 23) by lia.
  - assert (Z.testbit rt 23 = true) as ->; [|done]. rewrite Z.testbit_true by lia.
    assert (rt / 2 ^ 23 = 1) as ->; [|done]. symmetry. apply Z.div_unique with (rt - 2 ^ 23); change (2 ^ 24) with (2 * 2 ^ 23) in Hr; lia.
Qed.

(** A feedback is read back, wherever it stands in a compound packet: the first sequence
    number and, for each packet from it on, whether it arrived and when. *)
Lemma twcc_read_back media f rest :
  is_u32 media -> fb_ok f ->
  exists bd, split (build_twcc media f ++ rest) = mkPacket 15 205 bd :: split rest /\
    parse_twcc bd = Some (base_seq f, times (i24 (reference_time f) * 64000) (symbols f) (deltas_250us f)).
Proof.
  intros Hm [H1 H2 H3 H4 H5 H6]. pose proof (len_nonneg (symbols f)).
  pose proof (length_chunks (length (symbols f)) (symbols f)) as Hc. pose proof (length_deltas (symbols f) (deltas_250us f)) as Hd.
  unfold build_twcc. set (w := Z.lor _ (fb_count f)).
  set (chunks := twcc_chunks _ _) in *. set (ds := twcc_deltas _ _) in *.
  set (bd := be 4 SENDER_SSRC ++ be 4 media ++ be 2 (base_seq f) ++ be 2 (status_count f) ++ be 4 w ++ chunks ++ ds).
  assert (Hbd : length bd = (16 + length chunks + length ds)%nat) by (unfold bd; rewrite !length_app, !length_be; lia).
  destruct (finish_split bd rest) as [tail Ht]; [unfold len in *; lia|]. exists (bd ++ tail). split; [exact Ht|].
  assert (Eb : bd ++ tail = be 4 SENDER_SSRC ++ be 4 media ++ be 2 (base_seq f) ++ be 2 (status_count f) ++ be 4 w ++ (chunks ++ ds ++ tail)).
  { unfold bd. by rewrite <- !app_assoc. }
  rewrite Eb. unfold parse_twcc. unfold get16 at 1 2. cbn [be app drop].
  change [zb (base_seq f / 256); zb (base_seq f)] with (be 2 (base_seq f)).
  change [zb (status_count f / 256); zb (status_count f)] with (be 2 (status_count f)).
  rewrite !from_be_be_u16 by (done || (rewrite H2; ulia)). unfold be32.
  rewrite (proj2 (Nat.ltb_ge _ _)) by (cbn [length]; lia). cbn [drop take]. rewrite ?drop_0, ?take_0.
  pose proof (parse_rt (reference_time f) (fb_count f) H4 H5) as Hrt. cbv zeta in Hrt.
  change (from_be [zb (w / 256 / 256 / 256); zb (w / 256 / 256); zb (w / 256); zb w]) with (from_be (be 4 w)).
  fold w in Hrt. rewrite Hrt. rewrite H2, len_nat. unfold chunks.
  rewrite twcc_chunks_read; [|by eapply deltas_syms|done|].
  - unfold ds. by rewrite twcc_deltas_read.
  - fold chunks. cbn [length]. rewrite length_app. lia.
Qed.

End Rtcp.
