(* ===== verification/RtcpCore.v ===== *)
(** * RTCP arithmetic

    crates/oxsfud/src/rtcp/core.rs: the statistics of a received stream ([RecvStats],
    RFC 3550 A.1, A.3, A.8) and the window of arrival times behind the transport-wide
    feedback ([TwccRecv]).  Arrival times and unwrapped sequence numbers are [i64] in the
    sources and unbounded here; the 16-bit and 32-bit counters wrap as they do there. *)

From Stdlib Require Import Floats.SpecFloat.
From S2P Require Import Prelude Rtcp.

Module Recv.
Import Rtcp.

Definition MIN_SEQUENTIAL : Z := 2.
Definition MAX_DROPOUT : Z := 3000.
Definition MAX_MISORDER : Z := 100.
Definition SEQ_MOD : Z := 65536.

(** *** Double-precision arithmetic, for the jitter *)

Definition f64 : Type := spec_float.
Definition f64_of_u32 (z : Z) : f64 := binary_normalize 53 1024 z 0 false.
Definition f64_add : f64 -> f64 -> f64 := SFadd 53 1024.
Definition f64_sub : f64 -> f64 -> f64 := SFsub 53 1024.
Definition f64_div : f64 -> f64 -> f64 := SFdiv 53 1024.

(** [as u32]: toward zero, saturating, NaN as 0. *)
Definition f64_as_u32 (x : f64) : Z :=
  match x with
  | S754_zero _ | S754_nan => 0
  | S754_infinity s => if s then 0 else 2 ^ 32 - 1
  | S754_finite s m e =>
    if s then 0 else Z.min (2 ^ 32 - 1) (if 0 <=? e then Zpos m * 2 ^ e else Zpos m / 2 ^ (- e))
  end.

Record RecvStats := mkStats {
  clock : Z; max_seq : Z; cycles : Z; base_seq : Z; bad_seq : Z; probation : Z; received : Z;
  expected_prior : Z; received_prior : Z; transit : option Z; jitter : f64; started : bool;
  packets : Z; bytes : Z }.

Definition new (clock : Z) : RecvStats := mkStats clock 0 0 0 0 0 0 0 0 None (S754_zero false) false 0 0.

Definition init_seq (seq : Z) (s : RecvStats) : RecvStats :=
  mkStats (clock s) seq 0 seq (SEQ_MOD + 1) (probation s) 0 0 0 (transit s) (jitter s) (started s) (packets s) (bytes s).

Definition set_seq (max cyc bad prob rcv : Z) (st : bool) (s : RecvStats) : RecvStats :=
  mkStats (clock s) max cyc (base_seq s) bad prob rcv (expected_prior s) (received_prior s) (transit s) (jitter s) st
    (packets s) (bytes s).

Definition update_seq (seq : Z) (s : RecvStats) : RecvStats * bool :=
  let s :=
    if started s then s
    else
      let s := init_seq seq s in
      set_seq (u16 (seq - 1)) (cycles s) (bad_seq s) MIN_SEQUENTIAL (received s) true s in
  let udelta := u16 (seq - max_seq s) in
  if probation s >? 0 then
    if seq =? u16 (max_seq s + 1) then
      let s := set_seq seq (cycles s) (bad_seq s) (probation s - 1) (received s) (started s) s in
      if probation s =? 0 then
        let s := init_seq seq s in
        (set_seq (max_seq s) (cycles s) (bad_seq s) (probation s) (u32 (received s + 1)) (started s) s, true)
      else (s, false)
    else (set_seq seq (cycles s) (bad_seq s) (MIN_SEQUENTIAL - 1) (received s) (started s) s, false)
  else if udelta <? MAX_DROPOUT then
    let cyc := if seq <? max_seq s then u32 (cycles s + SEQ_MOD) else cycles s in
    (set_seq seq cyc (bad_seq s) (probation s) (u32 (received s + 1)) (started s) s, true)
  else if udelta <=? SEQ_MOD - MAX_MISORDER then
    if seq =? bad_seq s then
      let s := init_seq seq s in
      (set_seq (max_seq s) (cycles s) (bad_seq s) (probation s) (u32 (received s + 1)) (started s) s, true)
    else (set_seq (max_seq s) (cycles s) (Z.land (seq + 1) (SEQ_MOD - 1)) (probation s) (received s) (started s) s, false)
  else (set_seq (max_seq s) (cycles s) (bad_seq s) (probation s) (u32 (received s + 1)) (started s) s, true).

Definition update (seq ts arrival_ms nbytes : Z) (s : RecvStats) : RecvStats * bool :=
  let (s, valid) := update_seq seq s in
  let arrival := Z.land (arrival_ms * clock s / 1000) 0xffffffff in
  let tr := u32 (arrival - ts) in
  let j :=
    match transit s with
    | Some prev =>
      let d := f64_of_u32 (Z.abs (i32 (u32 (tr - prev)))) in
      f64_add (jitter s) (f64_div (f64_sub d (jitter s)) (f64_of_u32 16))
    | None => jitter s
    end in
  (mkStats (clock s) (max_seq s) (cycles s) (base_seq s) (bad_seq s) (probation s) (received s) (expected_prior s)
     (received_prior s) (Some tr) j (started s) (u64 (packets s + 1)) (u64 (bytes s + nbytes)), valid).

Definition ext_max (s : RecvStats) : Z := u32 (cycles s + max_seq s).

Definition report (s : RecvStats) : RecvStats * option Report :=
  if negb (started s) || (probation s >? 0) then (s, None)
  else
    let ext := ext_max s in
    let expected := u32 (u32 (ext - base_seq s) + 1) in
    let lost := clamp (-0x800000) 0x7fffff (expected - received s) in
    let expected_interval := u32 (expected - expected_prior s) in
    let received_interval := u32 (received s - received_prior s) in
    let lost_interval := expected_interval - received_interval in
    let fraction :=
      if (expected_interval =? 0) || (lost_interval <=? 0) then 0
      else u8 (Z.min (Z.shiftl lost_interval 8 / expected_interval) 255) in
    (mkStats (clock s) (max_seq s) (cycles s) (base_seq s) (bad_seq s) (probation s) (received s) expected (received s)
       (transit s) (jitter s) (started s) (packets s) (bytes s),
     Some (mkReport fraction lost ext (f64_as_u32 (jitter s)))).

(** ** What the statistics follow *)

(** The stream is past probation, [E] is its highest sequence number counted without
    wrapping, [B] the first, and [n] packets have been counted since. *)
Record follows (s : RecvStats) (B E n : Z) : Prop := {
  fw_started : started s = true;
  fw_prob : probation s = 0;
  fw_base : base_seq s = B /\ 0 <= B < SEQ_MOD;
  fw_max : max_seq s = E mod SEQ_MOD;
  fw_cyc : cycles s = u32 (E - E mod SEQ_MOD);
  fw_rcv : received s = u32 n;
  fw_le : B <= E }.

(** A packet whose place is near enough to the highest one: up to 2999 ahead, or up to 99
    behind. *)
Definition near (E e : Z) : Prop := E - MAX_MISORDER < e < E + MAX_DROPOUT.

Lemma land_ffffffff z : Z.land z 0xffffffff = u32 z.
Proof. change 0xffffffff with (Z.ones 32). by rewrite Z.land_ones. Qed.

Lemma u32_add_l a b : u32 (u32 a + b) = u32 (a + b).
Proof. unfold u32. by rewrite Z.add_mod_idemp_l. Qed.

Lemma follows_update_seq s B E n e : follows s B E n -> near E e -> 0 <= e ->
  follows (update_seq (u16 e) s).1 B (Z.max E e) (n + 1) /\ (update_seq (u16 e) s).2 = true.
Proof.
  intros [H1 H2 [H3 H4] H5 H6 H7 H8] [Hlo Hhi] He. unfold MAX_MISORDER, MAX_DROPOUT, SEQ_MOD in *.
  unfold update_seq. rewrite H1, H2. cbn [Z.gtb Z.compare]. rewrite H5. unfold SEQ_MOD, MAX_DROPOUT, MAX_MISORDER.
  destruct (Z.le_gt_cases E e) as [Hge|Hlt].
  - assert (Ed : u16 (u16 e - E mod 65536) = e - E) by ulia. rewrite Ed. rewrite (proj2 (Z.ltb_lt (e - E) 3000)) by lia.
    rewrite Z.max_r by lia. split; [|done]. split; try done; cbn [max_seq cycles received]; unfold SEQ_MOD.
    + rewrite H6. destruct (Z.ltb_spec (u16 e) (E mod 65536)) as [Hw|Hw]; unfold u16 in Hw; change (2 ^ 16) with 65536 in Hw.
      * assert (e - e mod 65536 = E - E mod 65536 + 65536) as -> by ulia. apply u32_add_l.
      * assert (e - e mod 65536 = E - E mod 65536) as -> by ulia. done.
    + by rewrite H7, u32_add_l.
    + lia.
  - assert (Ed : u16 (u16 e - E mod 65536) = 65536 - (E - e)) by ulia. rewrite Ed.
    rewrite (proj2 (Z.ltb_ge _ 3000)) by lia. rewrite (proj2 (Z.leb_gt _ (65536 - 100))) by lia.
    rewrite Z.max_l by lia. split; [|done]. split; try done. cbn [received]. by rewrite H7, u32_add_l.
Qed.

(** A packet on arrival: its place in the stream, its timestamp, the time, its size. *)
Record Arrival := mkArrival { place : Z; ats : Z; aat : Z; asize : Z }.
Definition arrive (s : RecvStats) (a : Arrival) : RecvStats := (update (u16 (place a)) (ats a) (aat a) (asize a) s).1.

(** Each packet is near the highest before it. *)
Fixpoint all_near (E : Z) (l : list Arrival) : Prop :=
  match l with
  | [] => True
  | a :: l => 0 <= place a /\ near E (place a) /\ all_near (Z.max E (place a)) l
  end.
Definition highest (E : Z) (l : list Arrival) : Z := fold_left (fun E a => Z.max E (place a)) l E.

Lemma follows_arrive s B E n a : follows s B E n -> near E (place a) -> 0 <= place a ->
  follows (arrive s a) B (Z.max E (place a)) (n + 1).
Proof.
  intros H Hn He. unfold arrive, update. destruct (follows_update_seq s B E n (place a) H Hn He) as [[H1 H2 H3 H4 H5 H6 H7] _].
  destruct (update_seq (u16 (place a)) s) as [s' v]. cbn [fst] in *. by split.
Qed.

Lemma follows_run l : forall s B E n, follows s B E n -> all_near E l ->
  follows (fold_left arrive l s) B (highest E l) (n + len l).
Proof.
  induction l as [|a l IH]; intros s B E n H Hl; [by rewrite len_nil, Z.add_0_r|]. destruct Hl as (Hp & Hn & Hl).
  cbn [fold_left highest]. rewrite len_cons. replace (n + (1 + len l)) with (n + 1 + len l) by lia.
  apply IH; [|done]. by apply follows_arrive.
Qed.

(** The first packets: two in a row end the probation. *)
Lemma first_packet seq s : started s = false -> is_u16 seq ->
  let s' := (update_seq seq s).1 in started s' = true /\ probation s' = 1 /\ max_seq s' = seq.
Proof.
  intros H Hs. cbv zeta. unfold update_seq. rewrite H. cbn [set_seq init_seq max_seq probation started cycles bad_seq received].
  assert (u16 (u16 (seq - 1) + 1) = seq) as -> by ulia. by rewrite Z.eqb_refl.
Qed.

Lemma second_packet seq s : started s = true -> probation s = 1 -> seq = u16 (max_seq s + 1) ->
  follows (update_seq seq s).1 seq seq 1.
Proof.
  intros H1 H2 H3. unfold update_seq. rewrite H1, H2, <- H3, Z.eqb_refl. cbn [Z.gtb Z.compare].
  cbn [set_seq init_seq probation]. change (1 - 1 =? 0) with true. cbv iota. cbn [fst].
  pose proof (u16_range (max_seq s + 1)) as Hr. rewrite <- H3 in Hr. unfold is_u16 in Hr. change (2 ^ 16) with SEQ_MOD in Hr.
  split; cbn [set_seq init_seq probation started cycles bad_seq received max_seq base_seq]; try done.
  - by rewrite Z.mod_small.
  - rewrite Z.mod_small by done. rewrite Z.sub_diag. done.
Qed.

Lemma follows_start c e t1 a1 b1 t2 a2 b2 : 0 <= e ->
  follows (update (u16 (e + 1)) t2 a2 b2 (update (u16 e) t1 a1 b1 (new c)).1).1 (u16 (e + 1)) (u16 (e + 1)) 1.
Proof.
  intros He. destruct (first_packet (u16 e) (new c) eq_refl (u16_range e)) as (H1 & H2 & H3).
  set (s1 := (update (u16 e) t1 a1 b1 (new c)).1).
  assert (started s1 = true /\ probation s1 = 1 /\ max_seq s1 = u16 e) as (G1 & G2 & G3).
  { unfold s1, update. by destruct (update_seq (u16 e) (new c)). }
  clearbody s1. destruct (second_packet (u16 (e + 1)) s1 G1 G2) as [F1 F2 F3 F4 F5 F6 F7]; [rewrite G3; ulia|].
  unfold update. destruct (update_seq (u16 (e + 1)) s1). cbn [fst] in *. by split.
Qed.

(** From the second packet on, as long as no packet is 3000 or more ahead of the highest
    or 100 or more behind it, the report is that of a counter that never wraps: the
    highest number (modulo 2^32) and the number of packets that should have come, from the
    first counted one to the highest, less those that did. *)
Theorem recv_report_exact c e t1 a1 b1 t2 a2 b2 l :
  0 <= e -> let B := u16 (e + 1) in
  all_near B l -> highest B l < 2 ^ 32 - 1 -> len l < 2 ^ 32 - 1 ->
  let s := fold_left arrive l (update B t2 a2 b2 (update (u16 e) t1 a1 b1 (new c)).1).1 in
  exists r, (report s).2 = Some r /\ extended_max r = highest B l /\
    lost r = clamp (-0x800000) 0x7fffff (highest B l - B + 1 - (1 + len l)).
Proof.
  intros He B Hn Hh Hl s. pose proof (follows_start c e t1 a1 b1 t2 a2 b2 He) as H0. fold B in H0.
  destruct (follows_run l _ B B 1 H0 Hn) as [F1 F2 [F3 F4] F5 F6 F7 F8]. fold s in F1, F2, F3, F5, F6, F7.
  pose proof (len_nonneg l). unfold report. rewrite F1, F2. cbn [negb orb Z.gtb Z.compare]. eexists. split; [done|].
  cbn [extended_max lost]. unfold ext_max. rewrite F3, F5, F6, F7. unfold SEQ_MOD in *. rewrite (u32_id (1 + len l)) by ulia.
  assert (E : u32 (u32 (highest B l - highest B l mod 65536) + highest B l mod 65536) = highest B l).
  { rewrite u32_add_l, Z.sub_add. apply u32_id. unfold is_u32. lia. }
  rewrite E. split; [done|]. f_equal.
  rewrite u32_add_l, u32_id; [done|]. unfold is_u32. lia.
Qed.

(** Packets 65534, 65535, then 1 (0 is missing). *)
Lemma recv_report_exact_witness :
  exists r, (report (fold_left arrive [mkArrival 65537 0 40 100]
    (update 65535 0 20 100 (update 65534 0 0 100 (new 48000)).1).1)).2 = Some r /\ lost r = 1.
Proof.
  destruct (recv_report_exact 48000 65534 0 0 100 0 20 100 [mkArrival 65537 0 40 100]) as (r & H1 & _ & H2);
    [lia|repeat split; vm_compute; discriminate || reflexivity|vm_compute; reflexivity..|].
  exists r. split; [exact H1|exact H2].
Defined.

End Recv.
