(* ===== verification/TwccRecv.v ===== *)
(** * The window behind the transport-wide feedback

    crates/oxsfud/src/rtcp/core.rs, [TwccRecv]: the arrival times of the packets of a
    subscriber, by unwrapped sequence number, the window that has not been reported yet,
    and the feedback built from it.  Times and unwrapped numbers are [i64] in the sources
    and unbounded here. *)

From S2P Require Import Prelude Rtcp.

Module Twcc.
Import Rtcp.

Record TwccRecv := mkTwcc {
  arrivals : gmap Z Z; last_unwrapped : option Z; window_start : option Z; fb_count : Z; newest_us : Z }.

Definition default : TwccRecv := mkTwcc ∅ None None 0 0.
Definition KEEP_US : Z := 500000.

Definition unwrap (seq : Z) (t : TwccRecv) : TwccRecv * Z :=
  let u :=
    match last_unwrapped t with
    | None => seq
    | Some l => l + i16 (u16 (seq - u16 l))
    end in
  let newer := match last_unwrapped t with Some l => l <? u | None => true end in
  (mkTwcc (arrivals t) (if newer then Some u else last_unwrapped t) (window_start t) (fb_count t) (newest_us t), u).

Definition record (seq arrival_us : Z) (t : TwccRecv) : TwccRecv :=
  let (t, u) := unwrap seq t in
  let arr := match arrivals t !! u with Some _ => arrivals t | None => <[u := arrival_us]> (arrivals t) end in
  let newest := if newest_us t <? arrival_us then arrival_us else newest_us t in
  let win :=
    match window_start t with
    | Some w => if u <? w then Some u else Some w
    | None => Some u
    end in
  let horizon := newest - KEEP_US in
  let ws := match win with Some w => w | None => - 2 ^ 63 end in
  mkTwcc (filter (fun kt => horizon <= kt.2 \/ ws <= kt.1) arr) (last_unwrapped t) win (fb_count t) newest.

(** [range(w..).next()] and [keys().next_back()] of the ordered map. *)
Definition first_from (w : Z) (m : gmap Z Z) : option (Z * Z) :=
  map_fold (fun k t acc =>
    if w <=? k then match acc with Some (k', _) => if k <? k' then Some (k, t) else acc | None => Some (k, t) end
    else acc) None m.
Definition last_key (m : gmap Z Z) : option Z :=
  map_fold (fun k _ acc => match acc with Some k' => Some (Z.max k k') | None => Some k end) None m.

Definition pending (t : TwccRecv) : bool :=
  let! w := window_start t else false in
  match first_from w (arrivals t) with Some _ => true | None => false end.

(** The loop of [build] from number [s] on, with [n] symbols so far: the symbols and the
    deltas it adds. *)
Fixpoint collect (fuel : nat) (m : gmap Z Z) (max_seq s n last : Z) : list Z * list Z :=
  match fuel with
  | O => ([], [])
  | S fuel =>
    if (s <=? max_seq) && (n <? 0xffff) then
      match m !! s with
      | None => let (ss, ds) := collect fuel m max_seq (s + 1) (n + 1) last in (SYM_NONE :: ss, ds)
      | Some t =>
        let d := (t - last + 125) / 250 in
        if negb ((-32768 <=? d) && (d <=? 32767)) then ([], [])
        else
          let (ss, ds) := collect fuel m max_seq (s + 1) (n + 1) (last + d * 250) in
          ((if (0 <=? d) && (d <=? 255) then SYM_SMALL else SYM_LARGE) :: ss, d :: ds)
      end
    else ([], [])
  end.

(** The symbols without the trailing [SYM_NONE]s. *)
Fixpoint strip (l : list Z) : list Z :=
  match l with
  | [] => []
  | s :: l => match strip l with [] => if s =? SYM_NONE then [] else [s] | l' => s :: l' end
  end.

Definition build (t : TwccRecv) : TwccRecv * option Feedback :=
  let! w := window_start t else (t, None) in
  let! (first_seq, first_t) := first_from w (arrivals t) else (t, None) in
  let reference_time := first_t / 64000 in
  let max_seq := match last_key (arrivals t) with Some k => k | None => first_seq end in
  let (ss, deltas) := collect (Z.to_nat 0xffff) (arrivals t) max_seq w 0 (reference_time * 64000) in
  let syms := strip ss in
  if (len syms =? 0) then (t, None)
  else
    let last := w - 1 + len syms in
    (mkTwcc (arrivals t) (last_unwrapped t) (Some (last + 1)) (u8 (fb_count t + 1)) (newest_us t),
     Some (mkFeedback (u16 w) (u16 (len syms)) (Z.land (u32 reference_time) 0x00ffffff) (fb_count t) syms deltas)).

Example twcc_small_run :
  let t := record 12 1040000 (record 11 1020000 (record 10 1000000 default)) in
  (build t).2 = Some (mkFeedback 10 3 15 0 [1; 1; 1] [160; 80; 80]).
Proof. vm_compute. done. Qed.

(** ** The ordered map *)

Lemma first_from_spec w m :
  match first_from w m with
  | Some (k, t) => m !! k = Some t /\ w <= k /\ forall k', is_Some (m !! k') -> w <= k' -> k <= k'
  | None => forall k, is_Some (m !! k) -> k < w
  end.
Proof.
  unfold first_from. apply (map_fold_weak_ind (fun r m => match r with
    | Some (k, t) => m !! k = Some t /\ w <= k /\ forall k', is_Some (m !! k') -> w <= k' -> k <= k'
    | None => forall k, is_Some (m !! k) -> k < w end)).
  - intros k [t H]. by rewrite lookup_empty in H.
  - intros k t m' r Hm Hr. destruct (Z.leb_spec w k) as [Hle|Hgt].
    + destruct r as [[k' t']|].
      * destruct Hr as (H1 & H2 & H3). assert (k' <> k) by (intros ->; congruence).
        destruct (Z.ltb_spec k k').
        -- rewrite lookup_insert_eq. split; [done|]. split; [done|]. intros j Hj Hw.
           apply lookup_insert_is_Some in Hj as [->|[_ Hj]]; [done|]. specialize (H3 j Hj Hw). lia.
        -- rewrite lookup_insert_ne by done. split; [done|]. split; [done|]. intros j Hj Hw.
           apply lookup_insert_is_Some in Hj as [->|[_ Hj]]; [done|by apply H3].
      * rewrite lookup_insert_eq. split; [done|]. split; [done|]. intros j Hj Hw.
        apply lookup_insert_is_Some in Hj as [->|[_ Hj]]; [done|]. specialize (Hr j Hj). lia.
    + destruct r as [[k' t']|].
      * destruct Hr as (H1 & H2 & H3). rewrite lookup_insert_ne by lia. split; [done|]. split; [done|]. intros j Hj Hw.
        apply lookup_insert_is_Some in Hj as [->|[_ Hj]]; [lia|by apply H3].
      * intros j Hj. apply lookup_insert_is_Some in Hj as [->|[_ Hj]]; [done|by apply Hr].
Qed.

Lemma last_key_spec m : match last_key m with Some k => is_Some (m !! k) /\ forall k', is_Some (m !! k') -> k' <= k | None => m = ∅ end.
Proof.
  unfold last_key. apply (map_fold_weak_ind (fun r m => match r with
    | Some k => is_Some (m !! k) /\ forall k', is_Some (m !! k') -> k' <= k | None => m = ∅ end)); [done|].
  intros k t m' r Hm Hr. destruct r as [k'|].
  - destruct Hr as [H1 H2]. split.
    + destruct (Z.max_spec k k') as [[? ->]|[? ->]]; [rewrite lookup_insert_is_Some'; auto|rewrite lookup_insert_eq; eauto].
    + intros j Hj. apply lookup_insert_is_Some' in Hj as [->|Hj]; [lia|]. specialize (H2 j Hj). lia.
  - subst. split; [rewrite lookup_insert_eq; eauto|]. intros j Hj. apply lookup_insert_is_Some' in Hj as [->|[? Hj]]; [done|].
    by rewrite lookup_empty in Hj.
Qed.

(** ** What a feedback says *)

(** The list says of each packet from [s] on whether it arrived, and when to within half a
    tick of 250 microseconds. *)
Fixpoint tells (m : gmap Z Z) (s : Z) (l : list (option Z)) : Prop :=
  match l with
  | [] => True
  | x :: l =>
    match m !! s, x with
    | None, None => True
    | Some t, Some y => Z.abs (y - t) <= 125
    | _, _ => False
    end /\ tells m (s + 1) l
  end.

Lemma tells_take m l : forall s n, tells m s l -> tells m s (take n l).
Proof. induction l as [|x l IH]; intros s [|n]; try done. intros [H1 H2]. split; [done|by apply IH]. Qed.

Lemma nearest a : Z.abs (a - (a + 125) / 250 * 250) <= 125.
Proof. Z.to_euclidean_division_equations; lia. Qed.

Lemma collect_spec fuel m mx : forall s n last ss ds, collect fuel m mx s n last = (ss, ds) ->
  deltas_ok ss ds /\ tells m s (times last ss ds) /\ (n <= 0xffff -> n + len ss <= 0xffff).
Proof.
  induction fuel as [|fuel IH]; intros s n last ss ds H; cbn [collect] in H.
  { injection H as <- <-. cbn. split; [constructor|]. rewrite len_nil. split; [done|lia]. }
  assert (Hnil : ([], []) = (ss, ds) -> deltas_ok ss ds /\ tells m s (times last ss ds) /\ (n <= 0xffff -> n + len ss <= 0xffff)).
  { intros [= <- <-]. cbn. split; [constructor|]. rewrite len_nil. split; [done|lia]. }
  destruct ((s <=? mx) && (n <? 0xffff)) eqn:Ec; [|by apply Hnil]. zbool.
  destruct (m !! s) as [t|] eqn:Em.
  - set (d := (t - last + 125) / 250) in *. destruct (negb _) eqn:Er; [by apply Hnil|]. zbool.
    destruct (collect fuel m mx (s + 1) (n + 1) (last + d * 250)) as [ss' ds'] eqn:Eq. injection H as <- <-.
    apply IH in Eq as (I1 & I2 & I3). pose proof (nearest (t - last)) as Hn. fold d in Hn.
    rewrite len_cons. destruct ((0 <=? d) && (d <=? 255)) eqn:Es; zbool.
    + split; [by constructor|]. split; [|lia]. cbn [times tells]. change (_ || _) with true. cbv iota. cbn [tells]. rewrite Em.
      split; [lia|done].
    + split; [by constructor|]. split; [|lia]. cbn [times tells]. change (_ || _) with true. cbv iota. cbn [tells]. rewrite Em.
      split; [lia|done].
  - destruct (collect fuel m mx (s + 1) (n + 1) last) as [ss' ds'] eqn:Eq. injection H as <- <-.
    apply IH in Eq as (I1 & I2 & I3). rewrite len_cons. split; [by constructor|]. split; [|lia].
    cbn [times]. change (_ || _) with false. cbv iota. cbn [tells]. rewrite Em. done.
Qed.

Lemma length_times ss : forall t ds, length (times t ss ds) = length ss.
Proof.
  induction ss as [|s ss IH]; intros t ds; [done|]. cbn [times]. destruct (_ || _); [destruct ds|]; cbn [length]; by rewrite IH.
Qed.

Lemma strip_ok ss ds : deltas_ok ss ds -> deltas_ok (strip ss) ds /\
  forall t, times t (strip ss) ds = take (length (strip ss)) (times t ss ds).
Proof.
  induction 1 as [|ss ds _ [I1 I2]|ss d ds Hd _ [I1 I2]|ss d ds Hd _ [I1 I2]]; cbn [strip].
  - split; [constructor|done].
  - destruct (strip ss) as [|x ss'].
    + split; [|done]. inversion I1. subst. constructor.
    + split; [by constructor|]. intros t. specialize (I2 t).
      change (None :: times t (x :: ss') ds = None :: take (length (x :: ss')) (times t ss ds)). by rewrite I2.
  - destruct (strip ss) as [|x ss'].
    + change (SYM_SMALL =? SYM_NONE) with false. inversion I1. subst. split; [by apply do_small; [|constructor]|]. done.
    + split; [by constructor|]. intros t.
      change (Some (t + d * 250) :: times (t + d * 250) (x :: ss') ds =
        Some (t + d * 250) :: take (length (x :: ss')) (times (t + d * 250) ss ds)). by rewrite I2.
  - destruct (strip ss) as [|x ss'].
    + change (SYM_LARGE =? SYM_NONE) with false. inversion I1. subst. split; [by apply do_large; [|constructor]|]. done.
    + split; [by constructor|]. intros t.
      change (Some (t + d * 250) :: times (t + d * 250) (x :: ss') ds =
        Some (t + d * 250) :: take (length (x :: ss')) (times (t + d * 250) ss ds)). by rewrite I2.
Qed.

Lemma length_strip ss : (length (strip ss) <= length ss)%nat.
Proof. induction ss as [|s ss IH]; [done|]. cbn [strip]. destruct (strip ss); [destruct (s =? SYM_NONE)|]; cbn [length] in *; lia. Qed.

Lemma i24_wrap r : - 2 ^ 23 <= r < 2 ^ 23 ->
  let z := Z.land (u32 r) 0x00ffffff in 0 <= z < 2 ^ 24 /\ i24 z = r.
Proof.
  intros Hr. cbv zeta. change 0x00ffffff with (Z.ones 24). rewrite Z.land_ones by lia.
  assert (u32 r mod 2 ^ 24 = r mod 2 ^ 24) as ->. { change (2 ^ 24) with 16777216. change (2 ^ 23) with 8388608 in Hr. ulia. }
  change (2 ^ 24) with 16777216. change (2 ^ 23) with 8388608 in *. unfold i24. change (2 ^ 23) with 8388608.
  change (2 ^ 24) with 16777216. split; [apply Z.mod_pos_bound; lia|].
  destruct (Z.ltb_spec (r mod 16777216) 8388608); Z.to_euclidean_division_equations; lia.
Qed.

Lemma len_0 {A} (l : list A) : len l = 0 -> l = [].
Proof. destruct l; [done|]. rewrite len_cons. pose proof (len_nonneg l). lia. Qed.

(** What a successful [build] has read and done. *)
Lemma build_some t t' f : build t = (t', Some f) ->
  exists w k tk ss, window_start t = Some w /\ first_from w (arrivals t) = Some (k, tk) /\
    (let mx := match last_key (arrivals t) with Some k => k | None => k end in
     collect (Z.to_nat 0xffff) (arrivals t) mx w 0 (tk / 64000 * 64000) = (ss, deltas_250us f)) /\
    symbols f = strip ss /\ symbols f <> [] /\
    f = mkFeedback (u16 w) (u16 (len (symbols f))) (Z.land (u32 (tk / 64000)) 0x00ffffff) (fb_count t) (symbols f) (deltas_250us f) /\
    t' = mkTwcc (arrivals t) (last_unwrapped t) (Some (w + len (symbols f))) (u8 (fb_count t + 1)) (newest_us t).
Proof.
  unfold build. destruct (window_start t) as [w|]; [|done]. destruct (first_from w (arrivals t)) as [[k tk]|] eqn:Ek; [|done].
  cbv zeta. set (mx := match last_key _ with Some k => k | None => _ end).
  destruct (collect _ _ mx _ _ _) as [ss ds] eqn:Ec. destruct (Z.eqb_spec (len (strip ss)) 0) as [|Hn]; [done|].
  intros [= <- <-]. exists w, k, tk, ss. cbn [symbols deltas_250us]. split; [done|]. split; [done|]. split; [done|]. split; [done|].
  split; [by intros E; rewrite E in Hn|]. split; [done|]. f_equal. f_equal. lia.
Qed.

(** What the other end reads.  The bytes of every feedback [build] makes, wherever they
    stand in a compound packet, parse to the sequence number the window starts at and a
    list that says of every packet from there on whether it arrived and when, to within
    125 microseconds; the next window starts right after the last packet of the list.
    The 24-bit reference time covers arrival times below about 149 hours. *)
Theorem twcc_accurate t t' f media rest :
  build t = (t', Some f) -> is_u32 media -> is_u8 (fb_count t) -> len (symbols f) <= 65000 ->
  map_Forall (fun _ at_us => - 2 ^ 23 * 64000 <= at_us < 2 ^ 23 * 64000) (arrivals t) ->
  exists w l bd, window_start t = Some w /\ l <> [] /\
    split (build_twcc media f ++ rest) = mkPacket 15 205 bd :: split rest /\
    parse_twcc bd = Some (u16 w, l) /\ tells (arrivals t) w l /\ window_start t' = Some (w + len l).
Proof.
  intros Hb Hm Hfc Hsz Hall. destruct (build_some _ _ _ Hb) as (w & k & tk & ss & Hw & Hk & Hc & Hs & Hne & Hf & Ht).
  cbv zeta in Hc. destruct (collect_spec _ _ _ _ _ _ _ _ Hc) as (C1 & C2 & C3). destruct (strip_ok _ _ C1) as [S1 S2].
  rewrite <- Hs in S1, S2. pose proof (first_from_spec w (arrivals t)) as Hff. rewrite Hk in Hff. destruct Hff as (Hkt & _).
  specialize (Hall k tk Hkt). cbv beta in Hall.
  destruct (i24_wrap (tk / 64000)) as [R1 R2].
  { change (2 ^ 23) with 8388608 in *. Z.to_euclidean_division_equations; lia. }
  pose proof (len_nonneg (symbols f)).
  assert (Hok : fb_ok f).
  { rewrite Hf. split; cbn [base_seq status_count symbols reference_time Rtcp.fb_count deltas_250us]; auto with ox. apply u16_id. ulia. }
  destruct (twcc_read_back media f rest Hm Hok) as (bd & B1 & B2).
  exists w, (times (tk / 64000 * 64000) (symbols f) (deltas_250us f)), bd. split; [done|]. split.
  { intros E. apply (f_equal length) in E. rewrite length_times in E. by destruct (symbols f). }
  split; [done|]. split.
  { rewrite B2. rewrite Hf at 1 2. cbn [base_seq reference_time]. by rewrite R2. }
  split; [rewrite S2; by apply tells_take|]. rewrite Ht. cbn [window_start]. unfold len. by rewrite length_times.
Qed.

(** Packets 10 and 12. *)
Definition two_seen : TwccRecv := record 12 1040000 (record 10 1000000 default).

Lemma twcc_accurate_witness :
  exists f l bd, (build two_seen).2 = Some f /\ parse_twcc bd = Some (10, l) /\ split (build_twcc 9 f) = [mkPacket 15 205 bd] /\
    tells (arrivals two_seen) 10 l.
Proof.
  destruct (build two_seen) as [t' [f|]] eqn:E; [|vm_compute in E; discriminate].
  destruct (twcc_accurate two_seen t' f 9 [] E) as (w & l & bd & H1 & _ & H2 & H3 & H4 & _).
  - vm_compute. split; [discriminate|reflexivity].
  - vm_compute. split; [discriminate|reflexivity].
  - vm_compute in E. injection E as <- <-. vm_compute. discriminate.
  - apply (bool_decide_unpack _). vm_compute. exact I.
  - vm_compute in H1. injection H1 as <-. rewrite app_nil_r in H2. exists f, l, bd. auto.
Defined.

(** ** Nothing stays unreported *)

Inductive Op := Rec (seq arrival_us : Z) | Build.
Definition step (t : TwccRecv) (o : Op) : TwccRecv :=
  match o with Rec seq at_us => record seq at_us t | Build => (build t).1 end.
Definition run (ops : list Op) : TwccRecv := fold_left step ops default.

(** Between the start of the window, or any later place, and the next packet there is less
    than a feedback can span. *)
Record reach_ok (t : TwccRecv) (l w : Z) : Prop := {
  rk_max : forall k, is_Some (arrivals t !! k) -> k <= l;
  rk_gap : forall a k, w <= a <= k -> is_Some (arrivals t !! k) -> exists k', is_Some (arrivals t !! k') /\ a <= k' <= a + 65534;
  rk_end : forall a, w <= a -> (forall k, is_Some (arrivals t !! k) -> k < a) -> l - 32767 <= a }.

Definition inv (t : TwccRecv) : Prop :=
  match last_unwrapped t with
  | None => window_start t = None /\ arrivals t = ∅
  | Some l => exists w, window_start t = Some w /\ reach_ok t l w
  end.

Lemma build_keeps t : arrivals (build t).1 = arrivals t /\ last_unwrapped (build t).1 = last_unwrapped t.
Proof.
  unfold build. destruct (window_start t); [|done]. destruct (first_from _ _) as [[k tk]|]; [|done].
  destruct (collect _ _ _ _ _ _). by destruct (_ =? 0).
Qed.

Lemma build_window t w : window_start t = Some w -> exists w', w <= w' /\ window_start (build t).1 = Some w'.
Proof.
  intros Hw. destruct (build t) as [t' [f|]] eqn:E.
  - destruct (build_some _ _ _ E) as (w0 & k & tk & ss & H1 & _ & _ & _ & _ & _ & ->). cbn [fst window_start].
    rewrite H1 in Hw. injection Hw as ->. exists (w + len (symbols f)). split; [|done]. pose proof (len_nonneg (symbols f)). lia.
  - exists w. split; [lia|]. revert E. unfold build. rewrite Hw. destruct (first_from _ _) as [[k tk]|]; [|by intros [= <-]].
    destruct (collect _ _ _ _ _ _). destruct (_ =? 0); [by intros [= <-]|done].
Qed.

Lemma inv_build t : inv t -> inv (build t).1.
Proof.
  unfold inv. destruct (build_keeps t) as [-> ->]. destruct (last_unwrapped t) as [l|].
  - intros (w & Hw & [H1 H2 H3]). destruct (build_window t w Hw) as (w' & Hle & Hw'). exists w'. split; [done|].
    split; destruct (build_keeps t) as [-> _]; [done| |].
    + intros a k Ha. apply H2. lia.
    + intros a Ha. apply H3. lia.
  - intros [Hw ->]. unfold build. by rewrite Hw.
Qed.

(** The number a packet gets, and what recording it changes. *)
Definition place (seq : Z) (t : TwccRecv) : Z := (unwrap seq t).2.

Lemma place_range seq t l : last_unwrapped t = Some l -> l - 32768 <= place seq t <= l + 32767.
Proof.
  intros H. unfold place, unwrap. cbn [snd]. rewrite H. unfold i16, signed. change (2 ^ (16 - 1)) with 32768. change (2 ^ 16) with 65536.
  pose proof (u16_range (u16 (seq - u16 l))) as Hr. set (z := u16 (u16 _)) in *. clearbody z. destruct (Z.ltb_spec z 32768); ulia.
Qed.

Definition opened (u : Z) (w : option Z) : Z := match w with Some w => Z.min u w | None => u end.

Lemma record_spec seq at_us t (u := place seq t) (w := opened u (window_start t)) (t' := record seq at_us t) :
  last_unwrapped t' = Some (match last_unwrapped t with Some l => Z.max l u | None => u end) /\
  window_start t' = Some w /\
  (forall k, is_Some (arrivals t' !! k) -> k = u \/ is_Some (arrivals t !! k)) /\
  (forall k, w <= k -> k = u \/ is_Some (arrivals t !! k) -> is_Some (arrivals t' !! k)).
Proof.
  unfold t', record. destruct (unwrap seq t) as [t1 u1] eqn:E.
  assert (u1 = u) as -> by (unfold u, place; by rewrite E).
  assert (E1 : t1 = mkTwcc (arrivals t) (match last_unwrapped t with Some l => Some (Z.max l u) | None => Some u end)
    (window_start t) (fb_count t) (newest_us t)).
  { assert (t1 = (unwrap seq t).1) as -> by (by rewrite E). unfold u, place, unwrap. cbn [fst snd]. f_equal.
    destruct (last_unwrapped t) as [l|]; [|done]. set (x := l + _). destruct (Z.ltb_spec l x); f_equal; lia. }
  subst t1. cbn [arrivals last_unwrapped window_start newest_us fb_count]. split; [by destruct (last_unwrapped t)|].
  set (win := match window_start t with Some w => _ | None => _ end).
  assert (Ew : win = Some w).
  { unfold win, w, opened. destruct (window_start t) as [w0|]; [|done]. destruct (Z.ltb_spec u w0); f_equal; lia. }
  rewrite Ew. split; [done|]. set (arr := match arrivals t !! u with Some _ => _ | None => _ end).
  assert (Ha : forall k, is_Some (arr !! k) <-> k = u \/ is_Some (arrivals t !! k)).
  { intros k. unfold arr. destruct (arrivals t !! u) eqn:Eu.
    - split; [auto|]. intros [->|?]; [by rewrite Eu|done].
    - rewrite lookup_insert_is_Some'. naive_solver. }
  clearbody arr. split.
  - intros k [x Hx]. apply map_lookup_filter_Some in Hx as [Hx _]. apply Ha. eauto.
  - intros k Hk H. apply Ha in H as [x Hx]. exists x. apply map_lookup_filter_Some. split; [done|by right].
Qed.

Lemma inv_record seq at_us t : inv t -> inv (record seq at_us t).
Proof.
  unfold inv. destruct (record_spec seq at_us t) as (-> & Hw & Hk & Hk'). set (t' := record seq at_us t) in *.
  set (u := place seq t) in *. destruct (last_unwrapped t) as [l|] eqn:El.
  - intros (w & Ew & [H1 H2 H3]). pose proof (place_range seq t l El) as Hr. fold u in Hr. rewrite Ew in *. cbn [opened] in *.
    exists (Z.min u w). split; [done|]. split.
    + intros k H. apply Hk in H as [->|H]; [lia|]. specialize (H1 k H). lia.
    + intros a k Ha H. destruct (Z.le_gt_cases a u) as [Hau|Hau].
      * destruct (Z.le_gt_cases u (a + 65534)) as [|Hfar]; [exists u; split; [apply Hk'; [lia|by left]|lia]|].
        destruct (first_from a (arrivals t)) as [[j tj]|] eqn:Ej; pose proof (first_from_spec a (arrivals t)) as Hj; rewrite Ej in Hj.
        -- destruct Hj as (J1 & J2 & _). destruct (H2 a j) as (k' & K1 & K2); [lia|eauto|]. exists k'. split; [|done].
           apply Hk'; [lia|by right].
        -- specialize (H3 a ltac:(lia) Hj). lia.
      * apply Hk in H as [->|H]; [lia|]. destruct (Z.le_gt_cases w a).
        -- destruct (H2 a k) as (k' & K1 & K2); [lia|done|]. exists k'. split; [|done]. apply Hk'; [lia|by right].
        -- exists k. specialize (H1 k H). split; [apply Hk'; [lia|by right]|lia].
    + intros a Ha Hno. pose proof (Hno u (Hk' u ltac:(lia) (or_introl eq_refl))). destruct (Z.le_gt_cases u l); [|lia].
      destruct (Z.le_gt_cases w a); [|lia]. rewrite Z.max_l by lia. apply H3; [done|]. intros k Hkk. destruct (Z.le_gt_cases a k); [|lia].
      apply Hno. apply Hk'; [lia|by right].
  - intros [Ew Ea]. exists u. rewrite Ew in Hw, Hk'. cbn [opened] in *. split; [done|]. rewrite Ea in *.
    assert (Hu : forall k, is_Some (arrivals t' !! k) -> k = u).
    { intros k H. apply Hk in H as [|[x H]]; [done|]. by rewrite lookup_empty in H. }
    assert (Hu' : is_Some (arrivals t' !! u)) by (apply Hk'; [lia|by left]). split.
    + intros k H. rewrite (Hu k H). lia.
    + intros a k Ha H. exists u. rewrite (Hu k H) in Ha. split; [done|]. lia.
    + intros a Ha H. specialize (H u Hu'). lia.
Qed.

Lemma inv_run ops : inv (run ops).
Proof.
  unfold run. assert (G : forall t, inv t -> inv (fold_left step ops t)); [|by apply G].
  induction ops as [|o ops IH]; intros t H; [done|]. cbn [fold_left]. apply IH. destruct o; [by apply inv_record|by apply inv_build].
Qed.

(** *** The first packet of the window always fits *)

Lemma collect_reach fuel m mx k tk : forall s n last, m !! k = Some tk -> s <= k -> k <= mx -> (forall j, s <= j < k -> m !! j = None) ->
  n + (k - s) < 0xffff -> k - s < Z.of_nat fuel -> 0 <= tk - last < 64000 ->
  k - s < len (strip (collect fuel m mx s n last).1).
Proof.
  induction fuel as [|fuel IH]; intros s n last Hk Hs Hm Hno Hn Hf Ht; [lia|]. cbn [collect].
  rewrite (proj2 (Z.leb_le s mx)), (proj2 (Z.ltb_lt n 0xffff)) by lia. cbn [andb]. destruct (Z.eq_dec s k) as [->|Hne].
  - rewrite Hk. set (d := (tk - last + 125) / 250). assert (0 <= d <= 256) by (unfold d; Z.to_euclidean_division_equations; lia).
    rewrite (proj2 (Z.leb_le (-32768) d)), (proj2 (Z.leb_le d 32767)) by lia. cbn [andb negb].
    destruct (collect fuel m mx (k + 1) (n + 1) (last + d * 250)) as [ss ds]. cbn [fst strip]. rewrite Z.sub_diag.
    pose proof (len_nonneg (strip ss)). destruct (strip ss) as [|x l]; [|rewrite !len_cons in *; pose proof (len_nonneg l); lia].
    by destruct ((0 <=? d) && (d <=? 255)).
  - rewrite (Hno s) by lia. specialize (IH (s + 1) (n + 1) last Hk ltac:(lia) Hm ltac:(intros; apply Hno; lia) ltac:(lia) ltac:(lia) Ht).
    destruct (collect fuel m mx (s + 1) (n + 1) last) as [ss ds]. cbn [fst strip] in *.
    destruct (strip ss) as [|x l]; [rewrite len_nil in IH; lia|]. rewrite len_cons. lia.
Qed.

Lemma build_progress t w k tk : inv t -> window_start t = Some w -> first_from w (arrivals t) = Some (k, tk) ->
  exists t' f, build t = (t', Some f) /\ k - w < len (symbols f) /\ window_start t' = Some (w + len (symbols f)).
Proof.
  intros Hi Hw Hk. pose proof (first_from_spec w (arrivals t)) as Hff. rewrite Hk in Hff. destruct Hff as (F1 & F2 & F3).
  assert (Hgap : k - w < 0xffff).
  { unfold inv in Hi. destruct (last_unwrapped t) as [l|]; [|destruct Hi; congruence]. destruct Hi as (w0 & Hw0 & [_ H2 _]).
    rewrite Hw in Hw0. injection Hw0 as <-. destruct (H2 w k) as (k' & K1 & K2); [lia|eauto|]. specialize (F3 k' K1 ltac:(lia)). lia. }
  set (mx := match last_key (arrivals t) with Some k => k | None => k end).
  assert (Hmx : k <= mx).
  { unfold mx. pose proof (last_key_spec (arrivals t)) as Hl. destruct (last_key (arrivals t)) as [j|]; [|lia]. apply Hl. eauto. }
  pose proof (collect_reach (Z.to_nat 0xffff) (arrivals t) mx k tk w 0 (tk / 64000 * 64000) F1 F2 Hmx) as Hc.
  assert (Hlt : k - w < len (strip (collect (Z.to_nat 0xffff) (arrivals t) mx w 0 (tk / 64000 * 64000)).1)).
  { apply Hc; [|lia|lia|Z.to_euclidean_division_equations; lia]. intros j Hj. apply eq_None_not_Some. intros Hs. specialize (F3 j Hs). lia. }
  clear Hc. unfold build. rewrite Hw, Hk. cbv zeta. fold mx.
  destruct (collect (Z.to_nat 0xffff) (arrivals t) mx w 0 (tk / 64000 * 64000)) as [ss ds]. cbn [fst] in Hlt.
  destruct (Z.eqb_spec (len (strip ss)) 0); [lia|]. eexists _, _. split; [done|]. cbn [symbols window_start]. split; [done|]. f_equal. lia.
Qed.

Lemma reported_within d : forall t w k, inv t -> window_start t = Some w -> w <= k -> is_Some (arrivals t !! k) -> k - w <= Z.of_nat d ->
  exists n w' f, (n <= d)%nat /\ let t' := Nat.iter n (fun t => (build t).1) t in
    window_start t' = Some w' /\ (build t').2 = Some f /\ w' <= k < w' + len (symbols f).
Proof.
  induction d as [|d IH]; intros t w k Hi Hw Hle Hk Hd.
  all: destruct (first_from w (arrivals t)) as [[j tj]|] eqn:Ej; pose proof (first_from_spec w (arrivals t)) as Hf; rewrite Ej in Hf;
    [|specialize (Hf k Hk); lia].
  all: destruct Hf as (_ & Hj & Hmin); specialize (Hmin k Hk Hle);
    destruct (build_progress t w j tj Hi Hw Ej) as (t' & f & Hb & Hlt & Hw').
  all: destruct (Z.lt_ge_cases k (w + len (symbols f)));
    [exists O, w, f; split; [lia|]; cbn [Nat.iter nat_rect]; rewrite Hb; done|].
  { lia. }
  pose proof (inv_build t Hi) as Hi'. destruct (build_keeps t) as [Ha _]. rewrite Hb in Hi', Ha. cbn [fst] in *.
  destruct (IH t' (w + len (symbols f)) k Hi' Hw' ltac:(lia) ltac:(by rewrite Ha) ltac:(lia)) as (n & w' & f' & Hn & R).
  exists (S n), w', f'. split; [lia|]. cbv zeta in *. rewrite Nat.iter_succ_r, Hb. exact R.
Qed.

(** Every packet is reported.  After any sequence of packets recorded and feedbacks
    built, a packet recorded in the window still to be reported is in one of the next
    feedbacks: building never gets stuck before it, whatever the sequence numbers and
    arrival times were. *)
Theorem twcc_all_reported ops w k :
  let t := run ops in
  window_start t = Some w -> w <= k -> is_Some (arrivals t !! k) ->
  exists n w' f, Z.of_nat n <= k - w /\ let t' := Nat.iter n (fun t => (build t).1) t in
    window_start t' = Some w' /\ (build t').2 = Some f /\ w' <= k < w' + len (symbols f).
Proof.
  intros t Hw Hle Hk. destruct (reported_within (Z.to_nat (k - w)) t w k (inv_run ops) Hw Hle Hk) as (n & w' & f & Hn & R); [lia|].
  exists n, w', f. split; [lia|exact R].
Qed.

Lemma twcc_all_reported_witness :
  exists n w' f, let t' := Nat.iter n (fun t => (build t).1) two_seen in
    window_start t' = Some w' /\ (build t').2 = Some f /\ w' <= 12 < w' + len (symbols f).
Proof.
  destruct (twcc_all_reported [Rec 10 1000000; Rec 12 1040000] 10 12) as (n & w' & f & _ & H);
    [vm_compute; reflexivity|lia|vm_compute; eauto|]. exists n, w', f. exact H.
Defined.

(** A packet just recorded for the first time is in the window: it will be reported. *)
Theorem twcc_record_pending ops seq at_us :
  let t := run ops in let u := place seq t in let t' := record seq at_us t in
  (exists w, window_start t' = Some w /\ w <= u) /\ is_Some (arrivals t' !! u) /\ pending t' = true /\
  (arrivals t !! u = None -> arrivals t' !! u = Some at_us).
Proof.
  intros t u t'. destruct (record_spec seq at_us t) as (_ & Hw & _ & Hk). fold u t' in Hw, Hk. set (w := opened u _) in *.
  assert (w <= u) by (unfold w, opened; destruct (window_start t); lia).
  assert (Hu : is_Some (arrivals t' !! u)) by (apply Hk; [done|by left]). split; [eauto|]. split; [done|]. split.
  - unfold pending. rewrite Hw. pose proof (first_from_spec w (arrivals t')) as Hf. destruct (first_from w (arrivals t')); [done|].
    specialize (Hf u Hu). lia.
  - intros Hn. destruct Hu as [x Hx]. rewrite Hx. f_equal. revert Hx. unfold t', record. unfold u, place in *.
    destruct (unwrap seq t) as [t1 u1] eqn:E. assert (arrivals t1 = arrivals t) as Ea.
    { revert E. unfold unwrap. by intros [= <- _]. }
    cbn [snd] in *. rewrite Ea, Hn. intros Hx. apply map_lookup_filter_Some in Hx as [Hx _]. rewrite lookup_insert_eq in Hx. by injection Hx.
Qed.

End Twcc.
