(* ===== verification/Placement.v ===== *)
(** * Which node a room lives on

    crates/oxhubd/src/bus/placement.rs: every hub computes the node of a room from the
    room's name and the nodes it sees, by highest random weight.  Nothing is exchanged, so
    the answer must depend on the set of nodes alone, and change as little as possible when
    the set does. *)

From S2P Require Import Prelude.

Module Place.

Definition fnv1a64 (b : list byte) : Z :=
  fold_left (fun h x => u64 (Z.lxor h (bz x) * 0x00000100000001b3)) b 0xcbf29ce484222325.

Definition splitmix_finish (z : Z) : Z :=
  let z := u64 (z + 0x9e3779b97f4a7c15) in
  let z := Z.lxor z (Z.shiftr z 30) in
  let z := u64 (z * 0xbf58476d1ce4e5b9) in
  let z := Z.lxor z (Z.shiftr z 27) in
  let z := u64 (z * 0x94d049bb133111eb) in
  Z.lxor z (Z.shiftr z 31).

Definition score (node room : string) : Z := splitmix_finish (fnv1a64 (sb node ++ [x00] ++ sb room)).

(** One round of the loop of [pick]. *)
Definition better (room : string) (best : option (Z * string)) (n : string) : option (Z * string) :=
  let s := score n room in
  match best with
  | None => Some (s, n)
  | Some (bs, bn) => if (bs <? s) || ((s =? bs) && String.ltb n bn) then Some (s, n) else best
  end.

Definition pick (nodes : list string) (room : string) : option string :=
  snd <$> fold_left (better room) nodes None.

Example fnv_known_values : fnv1a64 [] = 0xcbf29ce484222325 /\ fnv1a64 (sb "a") = 0xaf63dc4c8601ec8c.
Proof. vm_compute. done. Qed.

(** ** The order of the nodes *)

(** [n] is at least as good as [m] for the room. *)
Definition leads (room n m : string) : Prop :=
  score m room < score n room \/ (score n room = score m room /\ String.le n m).

Lemma ltb_le n m : String.ltb n m = true -> String.le n m.
Proof. unfold String.ltb, String.le, String.leb. by destruct (String.compare n m). Qed.
Lemma not_ltb_le n m : String.ltb n m = false -> String.le m n.
Proof.
  unfold String.ltb, String.le, String.leb. rewrite (String.compare_antisym m n). by destruct (String.compare n m).
Qed.

Lemma leads_refl room n : leads room n n.
Proof. right. split; [done|]. reflexivity. Qed.
Lemma leads_antisym room n m : leads room n m -> leads room m n -> n = m.
Proof. intros [H|[H Hn]] [H'|[H' Hm]]; [lia..|]. by apply (anti_symm String.le). Qed.
Lemma leads_trans room a b c : leads room a b -> leads room b c -> leads room a c.
Proof. intros [H|[H Hn]] [H'|[H' Hm]]; [left; lia..|]. right. split; [congruence|]. by transitivity b. Qed.

(** The loop keeps the best of what it has seen. *)
Lemma better_fold room l : forall b, exists n,
  fold_left (better room) l (Some (score b room, b)) = Some (score n room, n) /\
  (n ∈ b :: l) /\ forall m, m ∈ b :: l -> leads room n m.
Proof.
  induction l as [|x l IH]; intros b; cbn [fold_left].
  { exists b. split; [done|]. split; [set_solver|]. intros m ->%list_elem_of_singleton. apply leads_refl. }
  set (w := if (score b room <? score x room) || ((score x room =? score b room) && String.ltb x b) then x else b).
  assert (Ew : better room (Some (score b room, b)) x = Some (score w room, w)) by (unfold better, w; by destruct (_ || _)).
  assert (Hw : leads room w x /\ leads room w b /\ (w = x \/ w = b)).
  { unfold w. destruct (Z.ltb_spec (score b room) (score x room)); cbn [orb].
    - split; [apply leads_refl|]. split; [by left|by left].
    - destruct (Z.eqb_spec (score x room) (score b room)) as [E|E]; cbn [andb].
      + destruct (String.ltb x b) eqn:L; (split; [|split]); auto using leads_refl.
        * right. split; [done|]. by apply ltb_le.
        * right. split; [done|]. by apply not_ltb_le.
      + split; [left; lia|]. split; [apply leads_refl|by right]. }
  rewrite Ew. clear Ew. clearbody w. destruct (IH w) as (n & E & Hin & Hn). exists n. split; [done|]. destruct Hw as (Hx & Hb & Hor).
  split; [rewrite !elem_of_cons in *; naive_solver|]. intros m Hm. assert (Hnw : leads room n w) by (apply Hn, elem_of_cons; by left).
  apply elem_of_cons in Hm as [->|[->|Hm]%elem_of_cons]; [by eapply leads_trans..|apply Hn, elem_of_cons; by right].
Qed.

Lemma pick_spec l room n : pick l room = Some n <-> n ∈ l /\ forall m, m ∈ l -> leads room n m.
Proof.
  unfold pick. destruct l as [|b l]; [cbn; set_solver|]. cbn [fold_left].
  change (better room None b) with (Some (score b room, b)). destruct (better_fold room l b) as (w & -> & Hin & Hw). cbn. split.
  - intros [= <-]. done.
  - intros [Hn Hl]. f_equal. eapply leads_antisym; eauto.
Qed.

(** A room's node is the one with the highest score, the first by name among equals.  It
    does not depend on the order the nodes are listed in or on repetitions; a node that
    goes away moves only the rooms it had; a node that comes takes rooms only for itself;
    and there is a node for every room unless there are no nodes. *)
Theorem placement_stable nodes nodes' room n :
  pick nodes room = Some n ->
  ((forall m, m ∈ nodes <-> m ∈ nodes') -> pick nodes' room = Some n) /\
  ((forall m, m ∈ nodes' -> m ∈ nodes) -> n ∈ nodes' -> pick nodes' room = Some n) /\
  (forall x, pick (x :: nodes) room = Some n \/ pick (x :: nodes) room = Some x) /\
  forall m, m ∈ nodes -> score m room <= score n room.
Proof.
  intros H. pose proof (proj1 (pick_spec _ _ _) H) as [Hin Hn]. split; [|split; [|split]].
  - intros He. apply pick_spec. split; [by apply He|]. intros m Hm. by apply Hn, He.
  - intros Hs Hn'. apply pick_spec. split; [done|]. intros m Hm. by apply Hn, Hs.
  - intros x. destruct (pick (x :: nodes) room) as [w|] eqn:E.
    + pose proof (proj1 (pick_spec _ _ _) E) as [Hw Hl]. apply elem_of_cons in Hw as [->|Hw]; [by right|left].
      f_equal. eapply leads_antisym; [apply Hl, elem_of_cons; by right|by apply Hn].
    + unfold pick in E. cbn [fold_left] in E. change (better room None x) with (Some (score x room, x)) in E.
      by destruct (better_fold room nodes x) as (w & Ew & _); rewrite Ew in E.
  - intros m Hm. destruct (Hn m Hm) as [|[? _]]; lia.
Qed.

Lemma placement_stable_witness :
  pick ["node-a"; "node-b"; "node-c"] "r1" = pick ["node-c"; "node-a"; "node-b"; "node-a"] "r1".
Proof.
  destruct (pick ["node-a"; "node-b"; "node-c"] "r1") as [n|] eqn:E; [|by vm_compute in E]. symmetry.
  destruct (placement_stable _ ["node-c"; "node-a"; "node-b"; "node-a"] _ _ E) as (H & _).
  apply H. intros m. rewrite !elem_of_cons. tauto.
Defined.

End Place.
