(* ===== verification/Stun.v ===== *)
(** * STUN binding requests

    crates/oxsfud/src/link/stun.rs: the reader of a client's connectivity check, the check
    of its MESSAGE-INTEGRITY and the two writers.  HMAC-SHA1 and CRC-32 come from other
    crates and are parameters. *)

From Stdlib Require Import Ascii.
From S2P Require Import Prelude Utf8 Keyexpr.

Module Stun.

Definition MAGIC : Z := 0x2112a442.
Definition BINDING_REQUEST : Z := 0x0001.
Definition BINDING_SUCCESS : Z := 0x0101.
Definition ATTR_USERNAME : Z := 0x0006.
Definition ATTR_MESSAGE_INTEGRITY : Z := 0x0008.
Definition ATTR_XOR_MAPPED_ADDRESS : Z := 0x0020.
Definition ATTR_USE_CANDIDATE : Z := 0x0025.
Definition ATTR_SOFTWARE : Z := 0x8022.
Definition ATTR_FINGERPRINT : Z := 0x8028.
Definition SOFTWARE : string := "oxsfud".

Record Binding := mkBinding {
  txid : list byte; local_ufrag : string; remote_ufrag : string; use_candidate : bool;
  mi_offset : nat; mi : list byte }.

Inductive StunError := NotStun | NotBinding | Malformed | NoUsername | NoIntegrity | UnknownUfrag | BadIntegrity.

(** Two bytes of the buffer. *)
Definition u16_at (b : list byte) (i : nat) : Z := from_be (take 2 (drop i b)).

Definition is_stun (b : list byte) : bool :=
  (20 <=? len b) && (bz (nth 0 b x00) <? 4) && (from_be (take 4 (drop 4 b)) =? MAGIC).

(** What the loop over the attributes has found: the user name, the integrity attribute
    with its place, and whether USE-CANDIDATE came before it. *)
Record Found := mkFound { f_user : option string; f_mi : option (nat * list byte); f_cand : bool }.

Definition note (b : list byte) (i : nat) (at_ : Z) (al : nat) (f : Found) : Found :=
  let v := take al (drop (i + 4) b) in
  if at_ =? ATTR_USERNAME then mkFound (Some (Utf8.from_utf8_lossy v)) (f_mi f) (f_cand f)
  else if (at_ =? ATTR_MESSAGE_INTEGRITY) && (al =? 20)%nat then mkFound (f_user f) (Some (i, v)) (f_cand f)
  else if (at_ =? ATTR_USE_CANDIDATE) && negb (bool_decide (is_Some (f_mi f))) then mkFound (f_user f) (f_mi f) true
  else f.

Definition div_ceil4 (n : nat) : nat := ((n + 3) / 4)%nat.

(** The loop; a round moves on by four bytes at least, so [length b] rounds are enough. *)
Fixpoint attrs (fuel : nat) (b : list byte) (lim i : nat) (f : Found) : result Found StunError :=
  match fuel with
  | O => Ok f
  | S fuel =>
    if (i + 4 <=? lim)%nat then
      let at_ := u16_at b i in
      let al := Z.to_nat (u16_at b (i + 2)) in
      if (length b <? i + 4 + al)%nat then Err Malformed
      else
        let f := note b i at_ al f in
        if bool_decide (is_Some (f_mi f)) && negb (at_ =? ATTR_MESSAGE_INTEGRITY) then Ok f
        else attrs fuel b lim (i + 4 + div_ceil4 al * 4) f
    else Ok f
  end.

Definition parse (b : list byte) : result Binding StunError :=
  if negb (is_stun b) then Err NotStun
  else if negb (u16_at b 0 =? BINDING_REQUEST) then Err NotBinding
  else
    let n := Z.to_nat (u16_at b 2) in
    if (length b <? 20 + n)%nat then Err Malformed
    else
      match attrs (length b) b (20 + n) 20 (mkFound None None false) with
      | Err e => Err e
      | Ok f =>
        let! u := f_user f else Err NoUsername in
        let! (l, r) := Kx.cut ":"%char u else Err NoUsername in
        let! (off, m) := f_mi f else Err NoIntegrity in
        Ok (mkBinding (take 12 (drop 8 b)) l r (f_cand f) off m)
      end.

(** A socket address: the number of an IPv4 address, or the octets of an IPv6 one. *)
Inductive SocketAddr := V4 (ip port : Z) | V6 (octets : list byte) (port : Z).

Definition set_len (n : Z) (out : list byte) : list byte := take 2 out ++ be 2 (u16 n) ++ drop 4 out.

Definition attr (out : list byte) (ty : Z) (v : list byte) : list byte :=
  let out := out ++ be 2 ty ++ be 2 (u16 (len v)) ++ v in out ++ replicate (pad (length out)) x00.

Definition xor_bytes (a b : list byte) : list byte := zip_with (fun x y => zb (Z.lxor (bz x) (bz y))) a b.

Section Crypto.
(** [Hmac<Sha1>] over a key and a message, and [crc32fast::hash]. *)
Context (hmac : list byte -> list byte -> list byte) (crc32 : list byte -> Z).

(** The part of the message the integrity attribute covers, with the length it covers. *)
Definition covered (raw : list byte) (off : nat) : list byte :=
  set_len (Z.of_nat off - 20 + 24) (take off raw).

Definition verify (raw : list byte) (b : Binding) (pwd : string) : bool :=
  let calc := hmac (sb pwd) (covered raw (mi_offset b)) in
  fold_left (fun acc xy => Z.lor acc (Z.lxor (bz xy.1) (bz xy.2))) (combine calc (mi b)) 0 =? 0.

Definition check (raw : list byte) (pwd_of : string -> option string) : result Binding StunError :=
  match parse raw with
  | Err e => Err e
  | Ok b =>
    let! pwd := pwd_of (local_ufrag b) else Err UnknownUfrag in
    if verify raw b pwd then Ok b else Err BadIntegrity
  end.

Definition head (ty : Z) (tx : list byte) : list byte := be 2 ty ++ [x00; x00] ++ be 4 MAGIC ++ tx.

(** The integrity attribute and the fingerprint, as both writers end. *)
Definition sealed (pwd : string) (out : list byte) : list byte :=
  let out := set_len (len out - 20 + 24) out in
  let out := attr out ATTR_MESSAGE_INTEGRITY (hmac (sb pwd) out) in
  let out := set_len (len out - 20 + 8) out in
  attr out ATTR_FINGERPRINT (be 4 (Z.lxor (crc32 out) 0x5354554e)).

Definition xor_address (tx : list byte) (from : SocketAddr) : list byte :=
  let port p := be 2 (Z.lxor p (u16 (Z.shiftr MAGIC 16))) in
  match from with
  | V4 ip p => [x00; x01] ++ port p ++ be 4 (Z.lxor ip MAGIC)
  | V6 oct p => [x00; x02] ++ port p ++ xor_bytes oct (be 4 MAGIC ++ tx)
  end.

Definition success (tx : list byte) (from : SocketAddr) (pwd : string) : list byte :=
  let out := attr (head BINDING_SUCCESS tx) ATTR_XOR_MAPPED_ADDRESS (xor_address tx from) in
  sealed pwd (attr out ATTR_SOFTWARE (sb SOFTWARE)).

Definition request (l r : string) (pwd : string) (tx : list byte) (cand : bool) : list byte :=
  let out := attr (head BINDING_REQUEST tx) ATTR_USERNAME (sb (l +:+ ":" +:+ r)) in
  sealed pwd (if cand then attr out ATTR_USE_CANDIDATE [] else out).

End Crypto.

(** ** The check *)

Lemma lor_zero a b : Z.lor a b = 0 <-> a = 0 /\ b = 0.
Proof. apply Z.lor_eq_0_iff. Qed.

(** Comparing without a branch per byte is comparing. *)
Lemma same_bytes l : forall m acc, length l = length m ->
  fold_left (fun acc xy => Z.lor acc (Z.lxor (bz xy.1) (bz xy.2))) (combine l m) acc = 0 <-> acc = 0 /\ l = m.
Proof.
  induction l as [|x l IH]; intros [|y m] acc Hl; try done; cbn [combine fold_left]; [naive_solver|].
  rewrite IH by (injection Hl; done). cbn [fst snd]. rewrite lor_zero, Z.lxor_eq_0_iff. split.
  - intros [[? ?%bz_inj] ?]. subst. done.
  - intros [? [= -> ->]]. done.
Qed.

Definition mi_at (b : list byte) (f : Found) : Prop :=
  forall i m, f_mi f = Some (i, m) -> (20 <= i /\ i + 24 <= length b /\ m = take 20 (drop (i + 4) b))%nat.

Lemma attrs_mi fuel b lim : forall i f f', (20 <= i)%nat -> mi_at b f -> attrs fuel b lim i f = Ok f' -> mi_at b f'.
Proof.
  induction fuel as [|fuel IH]; intros i f f' Hi Hf; cbn [attrs]; [by intros [= <-]|].
  destruct (i + 4 <=? lim)%nat; [|by intros [= <-]]. set (ty := u16_at b i). set (al := Z.to_nat (u16_at b (i + 2))).
  destruct (Nat.ltb_spec (length b) (i + 4 + al)) as [|Hb]; [done|]. assert (Hn : mi_at b (note b i ty al f)).
  { unfold note. destruct (ty =? ATTR_USERNAME); [exact Hf|]. destruct ((ty =? ATTR_MESSAGE_INTEGRITY) && (al =? 20)%nat) eqn:E.
    - apply andb_true_iff in E as [_ E%Nat.eqb_eq]. intros j m [= <- <-]. rewrite E. split; [lia|]. split; [lia|done].
    - clear E. destruct (_ && _); exact Hf. }
  destruct (bool_decide _ && _); [by intros [= <-]|]. apply IH; [lia|done].
Qed.

Section Crypto.
Context (hmac : list byte -> list byte -> list byte) (crc32 : list byte -> Z).
(** An HMAC-SHA1 has twenty bytes. *)
Hypothesis hmac_20 : forall k m, length (hmac k m) = 20%nat.

Lemma verify_iff raw b pwd : length (mi b) = 20%nat ->
  verify hmac raw b pwd = true <-> hmac (sb pwd) (covered raw (mi_offset b)) = mi b.
Proof. clear crc32. intros Hl. unfold verify. rewrite Z.eqb_eq, same_bytes by (by rewrite hmac_20). naive_solver. Qed.

(** Nothing unauthenticated is acted on: a request passes only with the password of the
    user name it carries, over all bytes before its integrity attribute, which lies inside
    the datagram. *)
Theorem stun_check_authentic raw pwd_of b : check hmac raw pwd_of = Ok b ->
  exists pwd, pwd_of (local_ufrag b) = Some pwd /\
    (20 <= mi_offset b /\ mi_offset b + 24 <= length raw)%nat /\
    take 20 (drop (mi_offset b + 4) raw) = hmac (sb pwd) (covered raw (mi_offset b)).
Proof.
  clear crc32. unfold check. destruct (parse raw) as [b0|] eqn:Hp; [|done]. destruct (pwd_of (local_ufrag b0)) as [pwd|] eqn:Hu; [|done].
  destruct (verify hmac raw b0 pwd) eqn:Hv; [|done]. intros [= <-]. exists pwd. split; [done|].
  unfold parse in Hp. destruct (negb (is_stun raw)); [done|]. destruct (negb _); [done|]. destruct (length raw <? _)%nat; [done|].
  destruct (attrs _ _ _ _ _) as [f|] eqn:Ha; [|done]. destruct (f_user f); [|done]. destruct (Kx.cut _ _) as [[l r]|]; [|done].
  destruct (f_mi f) as [[off m]|] eqn:Em; [|done]. injection Hp as <-. cbn [mi_offset mi] in *.
  assert (H : mi_at raw f) by (eapply attrs_mi, Ha; [lia|done]). destruct (H off m Em) as (A & B & ->). split; [done|].
  apply verify_iff in Hv; [symmetry; exact Hv|]. cbn [mi]. rewrite length_take, length_drop. lia.
Qed.

(** ** A request and its reader *)

(** One attribute on the wire, and a header with its length. *)
Definition tlv (ty : Z) (v : list byte) : list byte := be 2 ty ++ be 2 (len v) ++ v ++ replicate (pad (length v)) x00.
Definition hd (n : Z) (tx : list byte) : list byte := be 2 BINDING_REQUEST ++ be 2 n ++ be 4 MAGIC ++ tx.

Lemma pad_add m n : (m mod 4 = 0)%nat -> pad (m + n) = pad n.
Proof. intros H. unfold pad. by rewrite Nat.Div0.add_mod, H, Nat.add_0_l, Nat.Div0.mod_mod. Qed.

Lemma length_tlv ty v : length (tlv ty v) = (4 + length v + pad (length v))%nat.
Proof. unfold tlv. rewrite !length_app, !length_be, length_replicate. lia. Qed.

Lemma tlv_mod ty v : (length (tlv ty v) mod 4 = 0)%nat.
Proof. rewrite length_tlv. destruct (pad_spec (length v)) as [_ H]. by rewrite <- Nat.add_assoc, Nat.Div0.add_mod, H. Qed.

Lemma attr_tlv out ty v : (length out mod 4 = 0)%nat -> len v < 65536 -> attr out ty v = out ++ tlv ty v.
Proof.
  intros Ho Hv. unfold attr, tlv. pose proof (len_nonneg v). rewrite u16_id by ulia.
  replace (length (out ++ be 2 ty ++ be 2 (len v) ++ v)) with (length out + (4 + length v))%nat by (rewrite !length_app, !length_be; lia).
  rewrite pad_add, pad_add by done. by rewrite <- !app_assoc.
Qed.

Lemma div_ceil4_pad n : (div_ceil4 n * 4 = n + pad n)%nat.
Proof.
  unfold div_ceil4. destruct (pad_spec n) as [H1 H2]. pose proof (Nat.div_mod_eq (n + pad n) 4) as E. pose proof (Nat.div_mod_eq (n + 3) 4) as E2.
  pose proof (Nat.mod_upper_bound (n + 3) 4 ltac:(lia)). lia.
Qed.

Lemma u16_at_app pre z post : is_u16 z -> u16_at (pre ++ be 2 z ++ post) (length pre) = z.
Proof. intros Hz. unfold u16_at. rewrite drop_app_len. rewrite take_app_le by (by rewrite length_be). rewrite take_ge by (by rewrite length_be). by apply from_be_be_u16. Qed.

Lemma is_u16_b z : (0 <=? z) && (z <? 65536) = true -> is_u16 z.
Proof. intros [H1%Z.leb_le H2%Z.ltb_lt]%andb_true_iff. ulia. Qed.

(** One round of the loop on an attribute. *)
Definition noted (i : nat) (ty : Z) (v : list byte) (f : Found) : Found :=
  if ty =? ATTR_USERNAME then mkFound (Some (Utf8.from_utf8_lossy v)) (f_mi f) (f_cand f)
  else if (ty =? ATTR_MESSAGE_INTEGRITY) && (length v =? 20)%nat then mkFound (f_user f) (Some (i, v)) (f_cand f)
  else if (ty =? ATTR_USE_CANDIDATE) && negb (bool_decide (is_Some (f_mi f))) then mkFound (f_user f) (f_mi f) true
  else f.

Lemma attrs_tlv fuel pre ty v post lim f : is_u16 ty -> len v < 65536 -> (length pre + 4 <= lim)%nat ->
  attrs (S fuel) (pre ++ tlv ty v ++ post) lim (length pre) f =
  let f := noted (length pre) ty v f in
  if bool_decide (is_Some (f_mi f)) && negb (ty =? ATTR_MESSAGE_INTEGRITY) then Ok f
  else attrs fuel (pre ++ tlv ty v ++ post) lim (length (pre ++ tlv ty v)) f.
Proof.
  intros Ht Hv Hlim. cbn [attrs]. pose proof (len_nonneg v). rewrite (proj2 (Nat.leb_le _ _) Hlim). set (b := pre ++ tlv ty v ++ post).
  assert (E1 : u16_at b (length pre) = ty) by (unfold b, tlv; rewrite <- !app_assoc; by apply u16_at_app).
  assert (E2 : u16_at b (length pre + 2) = len v).
  { unfold b, tlv. rewrite <- !app_assoc, (app_assoc pre). replace (length pre + 2)%nat with (length (pre ++ be 2 ty)) by (by rewrite length_app, length_be).
    apply u16_at_app. ulia. }
  assert (E3 : take (length v) (drop (length pre + 4) b) = v).
  { unfold b, tlv. rewrite <- !app_assoc, (app_assoc pre), (app_assoc (pre ++ _)).
    replace (length pre + 4)%nat with (length ((pre ++ be 2 ty) ++ be 2 (len v))) by (rewrite !length_app, !length_be; lia).
    rewrite drop_app_len. apply take_app_len. }
  rewrite E1, E2, len_nat. rewrite (proj2 (Nat.ltb_ge _ _)) by (unfold b; rewrite !length_app, length_tlv; lia).
  unfold note. rewrite E3. fold (noted (length pre) ty v f). cbv zeta.
  replace (length pre + 4 + div_ceil4 (length v) * 4)%nat with (length (pre ++ tlv ty v)); [done|].
  rewrite length_app, length_tlv, div_ceil4_pad. lia.
Qed.

Lemma length_hd n tx : length tx = 12%nat -> length (hd n tx) = 20%nat.
Proof. intros H. unfold hd. rewrite !length_app, !length_be, H. done. Qed.

Lemma set_len_hd n m tx rest : is_u16 n -> set_len n (hd m tx ++ rest) = hd n tx ++ rest.
Proof. intros Hn. unfold set_len, hd. rewrite u16_id by done. by rewrite <- !app_assoc. Qed.

(** What the writers make of a body. *)
Definition protected (tx body : list byte) : list byte := hd (len body + 24) tx ++ body.
Definition message (tx body mac fp : list byte) : list byte :=
  hd (len body + 32) tx ++ body ++ tlv ATTR_MESSAGE_INTEGRITY mac ++ tlv ATTR_FINGERPRINT fp.

Lemma sealed_message pwd tx body : length tx = 12%nat -> (length body mod 4 = 0)%nat -> len body < 65500 ->
  exists fp, length fp = 4%nat /\
    sealed hmac crc32 pwd (hd 0 tx ++ body) = message tx body (hmac (sb pwd) (protected tx body)) fp.
Proof.
  intros Ht Hb Hl. pose proof (len_nonneg body). unfold sealed.
  assert (E1 : len (hd 0 tx ++ body) - 20 + 24 = len body + 24) by (unfold len; rewrite length_app, length_hd by done; lia).
  rewrite E1, set_len_hd by ulia. fold (protected tx body). set (m := hmac (sb pwd) (protected tx body)).
  assert (Hm : length m = 20%nat) by apply hmac_20.
  assert (Hp : (length (protected tx body) mod 4 = 0)%nat) by (unfold protected; rewrite length_app, length_hd, Nat.Div0.add_mod, Hb by done; done).
  rewrite (attr_tlv (protected tx body)) by (done || (unfold len; rewrite Hm; lia)).
  assert (E2 : len (protected tx body ++ tlv ATTR_MESSAGE_INTEGRITY m) - 20 + 8 = len body + 32).
  { unfold protected, len. rewrite !length_app, length_hd, length_tlv, Hm by done. change (pad 20) with 0%nat. lia. }
  rewrite E2. unfold protected. rewrite <- app_assoc, set_len_hd by ulia. set (out := hd (len body + 32) tx ++ body ++ _).
  exists (be 4 (Z.lxor (crc32 out) 0x5354554e)). split; [apply length_be|]. rewrite attr_tlv.
  - unfold out, message. by rewrite <- !app_assoc.
  - unfold out. rewrite !length_app, length_hd, Nat.Div0.add_mod, (Nat.Div0.add_mod (length body)), Hb, tlv_mod by done. done.
  - unfold len. rewrite length_be. lia.
Qed.

Lemma covered_message tx body mac fp : length tx = 12%nat -> len body < 65500 ->
  covered (message tx body mac fp) (20 + length body) = protected tx body.
Proof.
  intros Ht Hl. pose proof (len_nonneg body). unfold covered, message, protected. rewrite app_assoc.
  replace (20 + length body)%nat with (length (hd (len body + 32) tx ++ body)) at 2 by (rewrite length_app, length_hd by done; lia).
  rewrite take_app_len. replace (Z.of_nat (20 + length body) - 20 + 24) with (len body + 24) by (unfold len; lia). apply set_len_hd. ulia.
Qed.

(** What [parse] finds in the attributes of a message. *)
Lemma parse_message tx body mac fp f k : length tx = 12%nat -> length mac = 20%nat -> length fp = 4%nat -> len body < 65500 ->
  let b := message tx body mac fp in
  (forall fuel, attrs (k + fuel) b (length b) 20 (mkFound None None false) = attrs fuel b (length b) (20 + length body) f) ->
  (k <= length body)%nat ->
  f_mi f = None ->
  parse b = let! u := f_user f else Err NoUsername in
            let! (l, r) := Kx.cut ":"%char u else Err NoUsername in
            Ok (mkBinding tx l r (f_cand f) (20 + length body) mac).
Proof.
  intros Ht Hm Hf Hl b Ha Hk Hn. pose proof (len_nonneg body).
  assert (Hlen : length b = (20 + (length body + 32))%nat).
  { unfold b, message. rewrite !length_app, length_hd, !length_tlv, Hm, Hf by done. change (pad 20) with 0%nat. change (pad 4) with 0%nat. lia. }
  assert (E0 : u16_at b 2 = len body + 32).
  { unfold b, message, hd. rewrite <- !app_assoc. change 2%nat with (length (be 2 BINDING_REQUEST)) at 1. apply u16_at_app. ulia. }
  unfold parse. replace (is_stun b) with true.
  2:{ unfold is_stun. symmetry. rewrite !andb_true_iff. split; [split|].
      - apply Z.leb_le. unfold len. rewrite Hlen. lia.
      - done.
      - done. }
  cbn [negb]. replace (u16_at b 0) with BINDING_REQUEST by done. rewrite Z.eqb_refl. cbn [negb]. rewrite E0.
  replace (20 + Z.to_nat (len body + 32))%nat with (length b) by (unfold len; lia). rewrite Nat.ltb_irrefl.
  rewrite Hlen at 1. replace (20 + (length body + 32))%nat with (k + S (S (50 + length body - k)))%nat by lia. rewrite Ha.
  assert (Eb : b = (hd (len body + 32) tx ++ body) ++ tlv ATTR_MESSAGE_INTEGRITY mac ++ tlv ATTR_FINGERPRINT fp) by (unfold b, message; by rewrite <- app_assoc).
  assert (Epre : length (hd (len body + 32) tx ++ body) = (20 + length body)%nat) by (rewrite length_app, length_hd by done; lia).
  assert (Hn2 : forall i, noted i ATTR_MESSAGE_INTEGRITY mac f = mkFound (f_user f) (Some (i, mac)) (f_cand f)) by (intros i; unfold noted; by rewrite Hm).
  rewrite <- Epre. rewrite Eb at 1. rewrite attrs_tlv; [|by apply is_u16_b|unfold len; rewrite Hm; lia|rewrite Epre, Hlen; lia]. cbv zeta.
  rewrite Hn2. cbn [f_mi]. rewrite bool_decide_true by eauto. cbn [andb negb ATTR_MESSAGE_INTEGRITY Z.eqb Pos.eqb].
  set (pre := hd (len body + 32) tx ++ body) in *. rewrite <- (app_nil_r (tlv ATTR_FINGERPRINT fp)), (app_assoc pre).
  rewrite attrs_tlv; [|by apply is_u16_b|unfold len; rewrite Hf; lia|rewrite Hlen, length_app, length_tlv, Epre, Hm; change (pad 20) with 0%nat; lia].
  cbv zeta. unfold noted. cbn [ATTR_FINGERPRINT ATTR_USERNAME ATTR_MESSAGE_INTEGRITY ATTR_USE_CANDIDATE Z.eqb Pos.eqb andb f_mi].
  rewrite bool_decide_true by eauto. cbn [negb andb f_user f_mi f_cand]. destruct (f_user f) as [u|]; [|done]. destruct (Kx.cut _ u) as [[l r]|]; [|done].
  rewrite Epre. f_equal. f_equal. unfold b, message, hd. rewrite <- !app_assoc.
  change (take 12 (tx ++ body ++ tlv ATTR_MESSAGE_INTEGRITY mac ++ tlv ATTR_FINGERPRINT fp) = tx). rewrite <- Ht. apply take_app_len.
Qed.

Lemma cut_colon l r : Kx.contains ":"%char l = false -> Kx.cut ":"%char (l +:+ ":" +:+ r) = Some (l, r).
Proof.
  induction l as [|x l IH]; [done|]. intros H. change (String x l +:+ ":" +:+ r) with (String x (l +:+ ":" +:+ r)).
  apply orb_false_iff in H as [Hx H]. rewrite Ascii.eqb_sym in Hx. cbn [Kx.cut]. by rewrite Hx, (IH H).
Qed.

(** The body of a request: its user name, and USE-CANDIDATE if it is nominated. *)
Definition request_body (l r : string) (cand : bool) : list byte :=
  tlv ATTR_USERNAME (sb (l +:+ ":" +:+ r)) ++ (if cand then tlv ATTR_USE_CANDIDATE [] else []).

Lemma request_body_mod l r cand : (length (request_body l r cand) mod 4 = 0)%nat.
Proof. unfold request_body. rewrite length_app, Nat.Div0.add_mod, tlv_mod. by destruct cand. Qed.

Lemma request_message l r pwd tx cand : length tx = 12%nat -> len (sb (l +:+ ":" +:+ r)) < 65400 ->
  let body := request_body l r cand in
  len body < 65500 /\ exists fp, length fp = 4%nat /\
    request hmac crc32 l r pwd tx cand = message tx body (hmac (sb pwd) (protected tx body)) fp.
Proof.
  intros Ht Hu body. set (u := sb (l +:+ ":" +:+ r)) in *.
  assert (Hb : len body < 65500).
  { unfold body, request_body, len. fold u. rewrite length_app, length_tlv. destruct (pad_spec (length u)) as [? _]. unfold len in Hu.
    destruct cand; [rewrite length_tlv; change (pad (length (@nil byte))) with 0%nat|]; cbn [length]; lia. }
  split; [done|]. destruct (sealed_message pwd tx body Ht (request_body_mod l r cand) Hb) as (fp & Hf & E). exists fp. split; [done|]. rewrite <- E.
  unfold request, body, request_body. fold u. change (head BINDING_REQUEST tx) with (hd 0 tx).
  assert (H0 : (length (hd 0 tx) mod 4 = 0)%nat) by (by rewrite length_hd). rewrite (attr_tlv (hd 0 tx)); [|exact H0|lia]. f_equal. destruct cand; [|by rewrite app_nil_r].
  rewrite attr_tlv, <- app_assoc; [done| |done]. by rewrite length_app, Nat.Div0.add_mod, H0, tlv_mod.
Qed.

Lemma length_message tx body mac fp : length tx = 12%nat -> length mac = 20%nat -> length fp = 4%nat ->
  length (message tx body mac fp) = (20 + length body + 32)%nat.
Proof.
  intros Ht Hm Hf. unfold message. rewrite !length_app, length_hd, !length_tlv, Hm, Hf by done.
  change (pad 20) with 0%nat. change (pad 4) with 0%nat. lia.
Qed.

Lemma no_mi u c : bool_decide (is_Some (f_mi (mkFound u None c))) = false.
Proof. apply bool_decide_false. by intros [? ?]. Qed.

Lemma parse_request l r tx cand mac fp : let body := request_body l r cand in
  length tx = 12%nat -> length mac = 20%nat -> length fp = 4%nat -> len body < 65500 -> len (sb (l +:+ ":" +:+ r)) < 65400 ->
  Utf8.wf (l +:+ ":" +:+ r) -> Kx.contains ":"%char l = false ->
  parse (message tx body mac fp) = Ok (mkBinding tx l r cand (20 + length body) mac).
Proof.
  intros body Ht Hm Hf Hb Hu Hw Hc. set (b := message tx body mac fp). set (t := tlv ATTR_MESSAGE_INTEGRITY mac ++ tlv ATTR_FINGERPRINT fp).
  pose proof (length_message tx body mac fp Ht Hm Hf) as Hlen. fold b in Hlen. set (u := l +:+ ":" +:+ r) in *.
  unfold b. rewrite (parse_message tx body mac fp (mkFound (Some u) None cand) (if cand then 2 else 1) Ht Hm Hf Hb).
  - cbn [f_user]. unfold u. by rewrite cut_colon.
  - intros fuel. fold b. set (h := hd (len body + 32) tx). assert (Hh : length h = 20%nat) by (by apply length_hd).
    assert (Eb : b = h ++ tlv ATTR_USERNAME (sb u) ++ (if cand then tlv ATTR_USE_CANDIDATE [] else []) ++ t).
    { unfold b, message, body, request_body. fold h u t. by rewrite <- app_assoc. }
    assert (Eu : noted 20 ATTR_USERNAME (sb u) (mkFound None None false) = mkFound (Some u) None false).
    { unfold noted. cbn. by rewrite Utf8.from_utf8_lossy_wf. }
    rewrite <- Hh. replace ((if cand then 2 else 1) + fuel)%nat with (S ((if cand then 1 else 0) + fuel))%nat by (by destruct cand).
    rewrite Eb at 1. rewrite attrs_tlv; [|by apply is_u16_b|lia|rewrite Hlen, Hh; lia]. cbv zeta. rewrite Hh, Eu, no_mi.
    cbn [andb]. unfold body, request_body. fold u. destruct cand.
    + rewrite (app_assoc h) in Eb |- *. cbn [Nat.add]. rewrite attrs_tlv; [|by apply is_u16_b|done|].
      2:{ rewrite Hlen, length_app, Hh. unfold body, request_body. fold u. rewrite length_app, (length_tlv ATTR_USE_CANDIDATE). lia. }
      cbv zeta. unfold noted. cbn [ATTR_USE_CANDIDATE ATTR_USERNAME ATTR_MESSAGE_INTEGRITY Z.eqb Pos.eqb andb]. rewrite no_mi.
      cbn [negb f_user]. rewrite no_mi. cbn [andb]. rewrite <- Eb. f_equal. rewrite !length_app, Hh. lia.
    + cbn [Nat.add app] in *. rewrite <- Eb. f_equal. rewrite !length_app, Hh. cbn [length]. lia.
  - unfold body, request_body. rewrite length_app, length_tlv. destruct cand; [rewrite length_tlv|]; lia.
  - done.
Qed.

(** A request that [request] writes is read back by [check] as it was written, if the
    password the user name stands for gives the same HMAC; otherwise it is refused for its
    integrity, and with a name nobody has for that. *)
Theorem stun_request_checked l r pwd tx cand pwd_of : length tx = 12%nat ->
  Utf8.wf (l +:+ ":" +:+ r) -> Kx.contains ":"%char l = false -> len (sb (l +:+ ":" +:+ r)) < 65400 ->
  exists m off,
    check hmac (request hmac crc32 l r pwd tx cand) pwd_of =
    match pwd_of l with
    | None => Err UnknownUfrag
    | Some p =>
      if bool_decide (hmac (sb p) m = hmac (sb pwd) m) then Ok (mkBinding tx l r cand off (hmac (sb pwd) m))
      else Err BadIntegrity
    end.
Proof.
  intros Ht Hw Hc Hu. destruct (request_message l r pwd tx cand Ht Hu) as (Hb & fp & Hf & ->). set (body := request_body l r cand) in *.
  exists (protected tx body), (20 + length body)%nat. set (mac := hmac (sb pwd) (protected tx body)).
  assert (Hm : length mac = 20%nat) by apply hmac_20. unfold check, body. rewrite (parse_request l r tx cand mac fp) by done. fold body.
  cbn [local_ufrag]. destruct (pwd_of l) as [p|]; [|done].
  pose proof (verify_iff (message tx body mac fp) (mkBinding tx l r cand (20 + length body) mac) p Hm) as V. cbn [mi_offset mi] in V.
  rewrite covered_message in V by done. destruct (verify hmac _ _ p), (bool_decide_reflect (hmac (sb p) (protected tx body) = mac)); naive_solver.
Qed.

End Crypto.

(** A stand-in for HMAC, for evaluation: the key and zeros. *)
Definition key_mac (k m : list byte) : list byte := take 20 (k ++ replicate 20 x00).

Lemma key_mac_20 k m : length (key_mac k m) = 20%nat.
Proof. unfold key_mac. rewrite length_take, length_app, length_replicate. lia. Qed.

Lemma stun_request_checked_witness :
  exists b, check key_mac (request key_mac (fun _ => 0) "srv1" "cli1" "pw" (replicate 12 x07) true)
              (fun u => if String.eqb u "srv1" then Some "pw" else None) = Ok b /\ use_candidate b = true.
Proof.
  destruct (stun_request_checked key_mac (fun _ => 0) key_mac_20 "srv1" "cli1" "pw" (replicate 12 x07) true
    (fun u => if String.eqb u "srv1" then Some "pw" else None)) as (m & off & E); [done|by vm_compute..|].
  rewrite E, String.eqb_refl, bool_decide_true by done. eexists. split; reflexivity.
Defined.

Lemma stun_check_authentic_witness :
  exists b pwd, check key_mac (request key_mac (fun _ => 0) "srv1" "cli1" "pw" (replicate 12 x07) true)
              (fun u => if String.eqb u "srv1" then Some "pw" else None) = Ok b /\ pwd = "pw" /\
    take 20 (drop (mi_offset b + 4) (request key_mac (fun _ => 0) "srv1" "cli1" "pw" (replicate 12 x07) true)) = key_mac (sb pwd) [].
Proof.
  set (raw := request key_mac (fun _ => 0) "srv1" "cli1" "pw" (replicate 12 x07) true).
  set (pwd_of := fun u => if String.eqb u "srv1" then Some "pw" else None).
  destruct (check key_mac raw pwd_of) as [b|e] eqn:E; [|by vm_compute in E].
  destruct (stun_check_authentic key_mac key_mac_20 raw pwd_of b E) as (pwd & Hp & _ & Hm). exists b, pwd. split; [done|].
  vm_compute in E. injection E as <-. cbn in Hp. injection Hp as <-. split; [done|]. exact Hm.
Defined.

End Stun.
