(* ===== verification/Publish.v ===== *)
(** * What a publisher's packets leave behind, and retransmission

    crates/oxsfud/src/pub/mod.rs: the packet cache, the list of packets to ask the publisher
    for again ([NackUp]) and the unwrapping of its retransmissions; and the other direction,
    crates/oxsfud/src/rtcp/mod.rs [send_rtx], which answers a subscriber's NACK from the
    cache through the rewriter. *)

From S2P Require Import Prelude Rewriter Rtp.

Module Pub.

Definition CACHE : nat := 1024.
Definition NACK_RESEND_MS : Z := 200.
Definition NACK_GIVEUP_MS : Z := 1000.
Definition NACK_MAX : Z := 128.
Definition RTX_BUDGET : Z := 200.
Definition RTX_WINDOW_MS : Z := 3000.

(** ** The cache *)

Abbreviation Cache := (list (option (Z * list byte))).

Definition slot_of (seq : Z) : nat := (Z.to_nat seq mod CACHE)%nat.

Definition put (seq : Z) (b : list byte) (c : Cache) : Cache :=
  let c := match c with [] => replicate CACHE None | _ => c end in
  <[slot_of seq := Some (seq, b)]> c.

Definition get (seq : Z) (c : Cache) : option (list byte) :=
  match c !! slot_of seq with
  | Some (Some (s, b)) => if s =? seq then Some b else None
  | _ => None
  end.

(** ** Packets to ask for again *)

Record NackUp := mkNack { last : option Z; missing : gmap Z (Z * option Z); base : Z; sent : Z }.
Definition nack_default : NackUp := mkNack None ∅ 0 0.

(** The loop over the numbers that were skipped, [n] of them from [s] on. *)
Fixpoint note_gap (now s : Z) (n : nat) (m : gmap Z (Z * option Z)) : gmap Z (Z * option Z) :=
  match n with
  | O => m
  | S n =>
    if NACK_MAX <=? Z.of_nat (size m) then m
    else note_gap now (s + 1) n (match m !! s with Some _ => m | None => <[s := (now, None)]> m end)
  end.

Definition on_packet (seq now : Z) (k : NackUp) : NackUp :=
  match last k with
  | None => mkNack (Some seq) (missing k) seq (sent k)
  | Some l =>
    let u := base k + i16 (u16 (seq - l)) in
    let diff := u - base k in
    if diff <=? 0 then mkNack (last k) (delete u (missing k)) (base k) (sent k)
    else
      let m :=
        if (1 <? diff) && (diff <? 128) then note_gap now (base k + 1) (Z.to_nat (diff - 1)) (missing k)
        else missing k in
      mkNack (Some seq) m u (sent k)
  end.

(** What [due] does with one number: whether it is kept, and whether it is asked for. *)
Definition retain (now : Z) (v : Z * option Z) : option (Z * option Z * bool) :=
  if NACK_GIVEUP_MS <? sat_sub now v.1 then None
  else
    let ask := match v.2 with Some t => NACK_RESEND_MS <=? sat_sub now t | None => true end in
    Some ((v.1, if ask then Some now else v.2), ask).

Definition by_key (a b : Z * (Z * option Z)) : Prop := a.1 <= b.1.
#[global] Instance by_key_dec : RelDecision by_key.
Proof. intros a b. unfold by_key. apply _. Defined.

Definition due (now : Z) (k : NackUp) : NackUp * (list Z * bool) :=
  let entries := merge_sort by_key (map_to_list (missing k)) in
  let out := omap (fun kv => match retain now kv.2 with Some (_, true) => Some (kv.1 mod 65536) | _ => None end) entries in
  let gave_up := existsb (fun kv => match retain now kv.2 with None => true | _ => false end) entries in
  (mkNack (last k) (omap (fun v => fst <$> retain now v) (missing k)) (base k) (u64 (sent k + len out)), (out, gave_up)).

Example nack_gap_and_giveup :
  let n := on_packet 13 0 (on_packet 10 0 nack_default) in
  let '(n1, (s1, g1)) := due 0 n in
  let '(n2, (s2, _)) := due 100 n1 in
  let '(n3, (s3, _)) := due 200 n2 in
  let '(_, (s4, g4)) := due 1001 (on_packet 11 250 n3) in
  (s1, g1, s2, s3, s4, g4) = ([11; 12], false, [], [11; 12], [], true).
Proof. vm_compute. reflexivity. Qed.

(** ** Unwrapping a retransmission *)

Definition set_at (i : nat) (v b : list byte) : list byte := take i b ++ v ++ drop (i + length v) b.

(** [stream_pt] and [track_ssrc] are those of the track the retransmission is for. *)
Definition unwrap_rtx (stream_pt track_ssrc : Z) (plain : list byte) (h : nat) : option (Z * list byte) :=
  if (length plain <? h + 2)%nat || (h <? 12)%nat then None
  else
    let osn := Rtp.be16_at plain h in
    let out := take h plain in
    let out := set_at 1 [zb (Z.lor (Z.land (Rtp.nth0 out 1) 0x80) (Z.land stream_pt 0x7f))] out in
    let out := set_at 2 (be 2 osn) out in
    let out := set_at 8 (be 4 track_ssrc) out in
    Some (osn, out ++ drop (h + 2) plain).

(** ** Answering a subscriber *)

Abbreviation Budget := (gmap string (Z * Z)).

Definition budget_ok (user : string) (now : Z) (m : Budget) : Budget * bool :=
  let e := default (now, 0) (m !! user) in
  let e := if RTX_WINDOW_MS <=? sat_sub now e.1 then (now, 0) else e in
  if RTX_BUDGET <=? e.2 then (<[user := e]> m, false) else (<[user := (e.1, e.2 + 1)]> m, true).

(** The bytes [send_built] encrypts and sends. *)
Definition built (pt seq ts ssrc : Z) (marker padding : bool) (payload : list byte) (t : Rtp.ExtTable) (inp : Rtp.ExtInput) : list byte :=
  let e := Rtp.build t inp in
  let b0 := if padding then 0xa0 else 0x80 in
  let b0 := match e with [] => b0 | _ => Z.lor b0 0x10 end in
  [zb b0] ++ [zb (if marker then Z.lor 0x80 (Z.land pt 0x7f) else Z.land pt 0x7f)] ++ be 2 seq ++ be 4 ts ++ be 4 ssrc ++ e ++ payload.

(** A row of a subscriber, as far as [send_rtx] reads it; [track] is the cache of the track
    the row carries. *)
Record Row := mkRow {
  user : string; rtx_pt : Z; rtx_ssrc : option Z; gate : bool; rw : Rw.Rewriter; track : option Cache;
  table : Rtp.ExtTable; inp : Rtp.ExtInput }.

Inductive Drop := RtxGate | RtxCacheMiss | RtxBudget | Unparsable.

(** One number of the NACK: the packet that answers it, or why there is none. *)
Definition rtx_one (r : Row) (ssrc now out_seq : Z) (s : Budget * Z) : (Budget * Z) * result (list byte) Drop :=
  let (bud, rseq) := s in
  if gate r then (s, Err RtxGate)
  else
    let! q := Rw.unmap_nack out_seq (rw r) else (s, Err RtxGate) in
    let! c := track r else (s, Err RtxCacheMiss) in
    let! orig := get q c else (s, Err RtxCacheMiss) in
    let (bud, ok) := budget_ok (user r) now bud in
    if negb ok then ((bud, rseq), Err RtxBudget)
    else
      let! p := Rtp.parse_rtp orig else ((bud, rseq), Err Unparsable) in
      let payload := be 2 out_seq ++ drop (Rtp.hlen p) orig in
      ((bud, u16 (rseq + 1)),
       Ok (built (rtx_pt r) rseq (u32 (Rtp.ts p + Rw.ts_off (rw r))) ssrc (Rtp.marker p) false payload (table r) (inp r))).

Definition send_rtx (r : Row) (now : Z) (seqs : list Z) (s : Budget * Z) : (Budget * Z) * list (result (list byte) Drop) :=
  match rtx_ssrc r with
  | None => (s, [])
  | Some ssrc =>
    fold_left (fun acc q => let (s, x) := rtx_one r ssrc now q acc.1 in (s, acc.2 ++ [x])) seqs (s, [])
  end.

(** ** What the cache holds *)

Definition puts (ops : list (Z * list byte)) : Cache := fold_left (fun c o => put o.1 o.2 c) ops [].

Lemma slot_lt seq : (slot_of seq < CACHE)%nat.
Proof. apply Nat.mod_upper_bound. unfold CACHE. lia. Qed.

Lemma put_lookup seq b c i : length c = CACHE \/ c = [] -> (i < CACHE)%nat ->
  length (put seq b c) = CACHE /\
  put seq b c !! i = if bool_decide (i = slot_of seq) then Some (Some (seq, b)) else if bool_decide (c = []) then Some None else c !! i.
Proof.
  intros Hc Hi. pose proof (slot_lt seq) as Hs. unfold put. set (c0 := match c with [] => replicate CACHE None | _ => c end).
  assert (H0 : length c0 = CACHE /\ c0 !! i = if bool_decide (c = []) then Some None else c !! i).
  { destruct Hc as [Hc| ->]; [|split; [apply length_replicate|by apply lookup_replicate_2]]. unfold c0. by destruct c. }
  destruct H0 as [H0 H1]. split; [by rewrite length_insert|]. destruct (decide (i = slot_of seq)) as [->|E].
  - rewrite (bool_decide_true (slot_of seq = _)) by done. by rewrite list_lookup_insert_eq by lia.
  - rewrite (bool_decide_false (i = _)) by done. by rewrite list_lookup_insert_ne.
Qed.

Lemma puts_snoc ops o : puts (ops ++ [o]) = put o.1 o.2 (puts ops).
Proof. unfold puts. by rewrite fold_left_app. Qed.

Lemma cache_length ops : length (puts ops) = CACHE \/ puts ops = [].
Proof.
  induction ops as [|o ops IH] using rev_ind; [by right|]. left. rewrite puts_snoc.
  by apply (put_lookup o.1 o.2 (puts ops) 0 IH); unfold CACHE; lia.
Qed.

Lemma get_snoc seq ops q b : get seq (puts (ops ++ [(q, b)])) =
  if bool_decide (slot_of q = slot_of seq) then if q =? seq then Some b else None else get seq (puts ops).
Proof.
  rewrite puts_snoc. cbn [fst snd]. unfold get. destruct (put_lookup q b (puts ops) (slot_of seq) (cache_length ops) (slot_lt seq)) as [_ ->].
  rewrite (bool_decide_ext (slot_of seq = slot_of q) (slot_of q = slot_of seq)) by done. case_bool_decide; [done|].
  case_bool_decide as E; [|done]. by rewrite E.
Qed.

Lemma get_last seq ops b : get seq (puts ops) = Some b <->
  exists pre post, ops = pre ++ (seq, b) :: post /\ Forall (fun o => slot_of o.1 <> slot_of seq) post.
Proof.
  induction ops as [|[q x] ops IH] using rev_ind.
  { split; [done|]. intros (pre & post & E & _). by destruct pre. }
  rewrite get_snoc. case_bool_decide as Hs.
  - split.
    + destruct (Z.eqb_spec q seq) as [->|]; [|done]. intros [= ->]. by exists ops, [].
    + intros (pre & post & E & Hp). destruct post as [|o post _] using rev_ind.
      * apply app_inj_tail in E as [_ [= -> ->]]. by rewrite Z.eqb_refl.
      * rewrite app_comm_cons, app_assoc in E. apply app_inj_tail in E as [_ <-]. apply Forall_app in Hp as [_ Hp]. by inversion Hp.
  - rewrite IH. split.
    + intros (pre & post & -> & Hp). exists pre, (post ++ [(q, x)]). rewrite <- app_assoc. split; [done|]. apply Forall_app. split; [done|]. by constructor.
    + intros (pre & post & E & Hp). destruct post as [|o post _] using rev_ind.
      * apply app_inj_tail in E as [_ [= -> ->]]. done.
      * rewrite app_comm_cons, app_assoc in E. apply app_inj_tail in E as [-> _]. exists pre, post. split; [done|]. by apply Forall_app in Hp as [Hp _].
Qed.

Lemma slot_next seq k : is_u16 seq -> 0 < k < 1024 -> slot_of (u16 (seq + k)) <> slot_of seq.
Proof.
  intros Hs Hk He. unfold slot_of, CACHE in He. pose proof (u16_range (seq + k)).
  assert (E : forall z, 0 <= z -> Z.of_nat (Z.to_nat z mod 1024) = z mod 1024) by (intros z Hz; rewrite Nat2Z.inj_mod, Z2Nat.id by done; done).
  apply (f_equal Z.of_nat) in He. rewrite !E in He by (unfold is_u16 in *; lia). unfold is_u16, u16 in *. change (2 ^ 16) with 65536 in *.
  Z.to_euclidean_division_equations. lia.
Qed.

(** The cache gives back exactly the packet last put under a number, until another number
    of the same place is put; the 1023 numbers that follow have other places. *)
Theorem cache_keeps ops seq b : is_u16 seq ->
  (get seq (puts ops) = Some b <->
   exists pre post, ops = pre ++ (seq, b) :: post /\ Forall (fun o => slot_of o.1 <> slot_of seq) post) /\
  forall post, Forall (fun o => exists k, 0 < k < 1024 /\ o.1 = u16 (seq + k)) post -> get seq (puts (ops ++ (seq, b) :: post)) = Some b.
Proof.
  intros Hs. split; [apply get_last|]. intros post Hp. apply get_last. exists ops, post. split; [done|].
  eapply Forall_impl; [exact Hp|]. intros o (k & Hk & ->). by apply slot_next.
Qed.

(** ** A NACK and its answer *)

Lemma unmap_map s q ts now cov r ps : is_u16 q ->
  let r1 := (Rw.map s q ts now cov r).1 in
  let m := (Rw.map s q ts now cov r).2 in
  let r2 := Rw.map_run s ps r1 in
  (forall b, Rw.boundary r1 = Some b -> Rw.serial_after b (Rw.mseq m) = false) ->
  Rw.unmap_nack (Rw.mseq m) r2 = Some q /\ Rw.ts_off r2 = Rw.ts_off r1 /\ Rw.mts m = u32 (ts + Rw.ts_off r2) /\ is_u16 (Rw.mseq m).
Proof.
  intros Hq r1 m r2 Hb. assert (Hs : Rw.src r1 = Some s /\ Rw.mseq m = u16 (q + Rw.seq_off r1) /\ Rw.mts m = u32 (ts + Rw.ts_off r1)).
  { unfold r1, m, Rw.map. case_bool_decide as E; cbn [negb]; [by cbn|]. split; [|done]. unfold Rw.switch. cbn. by destruct (Rw.last r). }
  destruct Hs as (H1 & H2 & H3). destruct (Rw.map_run_same s ps r1 H1) as (_ & K1 & K2 & K3). fold r2 in K1, K2, K3.
  split; [|split; [done|split; [by rewrite K2|rewrite H2; apply u16_range]]]. unfold Rw.unmap_nack. rewrite K3, K1.
  assert (E : u16 (Rw.mseq m - Rw.seq_off r1) = q) by (rewrite H2; unfold is_u16, u16 in *; change (2 ^ 16) with 65536 in *; Z.to_euclidean_division_equations; lia).
  rewrite E. destruct (Rw.boundary r1) as [b|]; [|done]. by rewrite (Hb b).
Qed.

Lemma built_readable pt seq ts ssrc marker padding payload t inp :
  0 <= pt < 128 -> is_u16 seq -> is_u32 ts -> is_u32 ssrc -> Rtp.table_ok t -> Rtp.input_ok inp ->
  let out := built pt seq ts ssrc marker padding payload t inp in
  exists p, Rtp.parse_rtp out = Some p /\ Rtp.pt p = pt /\ Rtp.marker p = marker /\ Rtp.seq p = seq /\ Rtp.ts p = ts /\
    Rtp.ssrc p = ssrc /\ drop (Rtp.hlen p) out = payload.
Proof.
  intros Hp Hs Ht Hc Htab Hin out. unfold out, built. set (e := Rtp.build t inp).
  assert (He : exists x, (match e with [] => if padding then 0xa0 else 0x80 | _ => Z.lor (if padding then 0xa0 else 0x80) 0x10 end) =
      Z.lor (Z.lor 0x80 (Z.land (bz (if padding then x20 else x00)) 0x20)) (if x : bool then 0x10 else 0) /\
    (x = false /\ e = [] \/
     x = true /\ exists p1 p2 w body, e = [p1; p2] ++ be 2 w ++ body /\ 0 < w < 65536 /\ length body = (Z.to_nat w * 4)%nat)).
  { destruct (Rtp.build_spec t inp Htab Hin) as [[_ E]|(p1 & p2 & w & body & E & Hw & Hb & _)]; fold e in E; rewrite E.
    - exists false. split; [by destruct padding|]. by left.
    - exists true. split; [by destruct padding|]. right. split; [done|]. by exists p1, p2, w, body. }
  destruct He as (x & -> & He). destruct (Rtp.head_byte (if padding then x20 else x00) x) as (H1 & H2 & H3). cbv zeta in H1, H2, H3.
  assert (Eb : (if marker then Z.lor 0x80 (Z.land pt 0x7f) else Z.land pt 0x7f) = Rw.pt_byte1 (bz (if marker then x80 else x00)) pt).
  { unfold Rw.pt_byte1. by destruct marker. }
  rewrite Eb. destruct (Rtp.pt_byte (if marker then x80 else x00) pt Hp) as [P1 P2]. cbv zeta in P1, P2.
  set (b1 := zb (Z.lor _ _)) in *. set (b2 := zb (Rw.pt_byte1 _ _)) in *. eexists. split; [apply (Rtp.parse_built b1 b2 seq ts ssrc e payload x Hs Ht Hc H1 H2 H3 He)|].
  cbn [Rtp.pt Rtp.marker Rtp.seq Rtp.ts Rtp.ssrc Rtp.hlen]. rewrite P1, P2. split; [done|]. split; [by destruct marker|]. do 3 (split; [done|]).
  change (12 + length e)%nat with (S (S (S (S (S (S (S (S (S (S (S (S (length e))))))))))))). cbn [be app drop]. apply drop_app_len.
Qed.

(** A subscriber that lost a packet gets it: the packet [raw] of the row's current source
    was put in the cache and sent on with number [mseq m]; as long as the source is the
    same and the cache still has it, asking for that number is answered with a packet on the
    retransmission stream that names the number asked for and carries the timestamp it was
    sent with, its marker and its payload. *)
Theorem rtx_answers s p now cov r0 ps ops r ssrc t bud rseq :
  Rtp.parse_rtp (Rtp.raw p) = Some p -> is_u16 (Rtp.seq p) ->
  let r1 := (Rw.map s (Rtp.seq p) (Rtp.ts p) now cov r0).1 in
  let m := (Rw.map s (Rtp.seq p) (Rtp.ts p) now cov r0).2 in
  (forall b, Rw.boundary r1 = Some b -> Rw.serial_after b (Rw.mseq m) = false) ->
  gate r = false -> rw r = Rw.map_run s ps r1 -> track r = Some (puts ops) -> get (Rtp.seq p) (puts ops) = Some (Rtp.raw p) ->
  (budget_ok (user r) t bud).2 = true -> 0 <= rtx_pt r < 128 -> is_u16 rseq -> is_u32 ssrc -> Rtp.table_ok (table r) -> Rtp.input_ok (inp r) ->
  exists out q, (rtx_one r ssrc t (Rw.mseq m) (bud, rseq)).2 = Ok out /\ Rtp.parse_rtp out = Some q /\
    Rtp.pt q = rtx_pt r /\ Rtp.ssrc q = ssrc /\ Rtp.seq q = rseq /\ Rtp.ts q = Rw.mts m /\ Rtp.marker q = Rtp.marker p /\
    drop (Rtp.hlen q) out = be 2 (Rw.mseq m) ++ drop (Rtp.hlen p) (Rtp.raw p).
Proof.
  intros Hp Hq r1 m Hb Hg Hrw Htr Hget Hbud Hpt Hrs Hss Htab Hin.
  destruct (unmap_map s (Rtp.seq p) (Rtp.ts p) now cov r0 ps Hq Hb) as (Hu & _ & Hm & _). fold r1 m in Hu, Hm. rewrite <- Hrw in Hu, Hm.
  unfold rtx_one. rewrite Hg, Hu, Htr, Hget. destruct (budget_ok (user r) t bud) as [bud' ok]. cbn [snd] in Hbud. rewrite Hbud, Hp. cbn [negb snd].
  rewrite <- Hm. destruct (built_readable (rtx_pt r) rseq (Rw.mts m) ssrc (Rtp.marker p) false (be 2 (Rw.mseq m) ++ drop (Rtp.hlen p) (Rtp.raw p)) (table r) (inp r))
    as (q & H1 & H2 & H3 & H4 & H5 & H6 & H7); try done.
  { rewrite Hm. apply u32_range. }
  eexists _, q. split_and!; done.
Qed.

(** A packet and a subscriber to look at. *)
Definition a_packet : list byte := [x80; x60; x01; xf4; x00; x00; x00; x4d; x00; x00; x00; x09; xaa; xbb].
Definition a_rewriter : Rw.Rewriter := (Rw.map 2 500 77 0 1 (Rw.new 90000)).1.
Definition a_row : Row :=
  mkRow "u" 97 (Some 11) false a_rewriter (Some (puts [(500, a_packet)])) (Rtp.mkTable None None None None) (Rtp.mkInput [] None 0 None).

Definition a_parsed : Rtp.Rtp := Rtp.mkRtp a_packet 96 false 500 77 9 12 None.

Lemma rtx_answers_witness : exists out q, (rtx_one a_row 11 0 500 (∅, 7)).2 = Ok out /\ Rtp.parse_rtp out = Some q /\
  drop (Rtp.hlen q) out = [x01; xf4; xaa; xbb].
Proof.
  assert (H1 : Rtp.parse_rtp (Rtp.raw a_parsed) = Some a_parsed) by (vm_compute; reflexivity).
  assert (H2 : is_u16 (Rtp.seq a_parsed)) by (cbn; ulia).
  assert (H3 : forall b, Rw.boundary (Rw.map 2 (Rtp.seq a_parsed) (Rtp.ts a_parsed) 0 1 (Rw.new 90000)).1 = Some b ->
    Rw.serial_after b (Rw.mseq (Rw.map 2 (Rtp.seq a_parsed) (Rtp.ts a_parsed) 0 1 (Rw.new 90000)).2) = false).
  { intros b Hb. vm_compute in Hb. injection Hb as <-. vm_compute. reflexivity. }
  assert (H4 : get (Rtp.seq a_parsed) (puts [(500, a_packet)]) = Some (Rtp.raw a_parsed)) by (vm_compute; reflexivity).
  assert (H5 : (budget_ok (user a_row) 0 ∅).2 = true) by (vm_compute; reflexivity).
  assert (H6 : is_u16 7) by ulia. assert (H7 : is_u32 11) by ulia.
  assert (H8 : Rtp.table_ok (table a_row)) by constructor. assert (H9 : Rtp.input_ok (inp a_row)) by (unfold Rtp.input_ok; cbn; lia).
  assert (H10 : 0 <= rtx_pt a_row < 128) by (cbn; lia).
  destruct (rtx_answers 2 a_parsed 0 1 (Rw.new 90000) [] [(500, a_packet)] a_row 11 0 ∅ 7 H1 H2 H3 eq_refl eq_refl eq_refl H4 H5 H10 H6 H7 H8 H9)
    as (out & q & K1 & K2 & _ & _ & _ & _ & _ & K3).
  exists out, q. split; [exact K1|]. split; [exact K2|exact K3].
Defined.

Lemma cache_keeps_witness : get 500 (puts [(1, []); (500, a_packet); (1523, [])]) = Some a_packet.
Proof.
  destruct (cache_keeps [(1, [])] 500 a_packet) as [_ H]; [vm_compute; split; [discriminate|reflexivity]|].
  apply (H [(1523, [])]). constructor; [|constructor]. exists 1023. split; [lia|]. vm_compute. reflexivity.
Defined.

(** ** A retransmission unwrapped *)

Lemma slice_head {A} (hd T tail rest : list A) (k j n : nat) : T = take k rest -> (k <= length rest)%nat -> (j + n <= k)%nat ->
  take n (drop (length hd + j) (hd ++ T ++ tail)) = take n (drop j rest).
Proof.
  intros -> Hk Hj. rewrite drop_app_ge by lia. replace (length hd + j - length hd)%nat with j by lia.
  rewrite drop_app_le by (rewrite length_take; lia). rewrite take_app_le by (rewrite length_drop, length_take; lia).
  by rewrite <- (firstn_skipn k rest) at 2; rewrite (drop_app_le (take k rest)) by (rewrite length_take; lia); rewrite take_app_le by (rewrite length_drop, length_take; lia).
Qed.

(** What [unwrap_rtx] makes of a packet with its first twelve bytes. *)
Lemma unwrap_bytes spt sssrc b0 b1 b2 b3 b4 b5 b6 b7 b8 b9 b10 b11 rest k : (k + 2 <= length rest)%nat ->
  let plain := b0 :: b1 :: b2 :: b3 :: b4 :: b5 :: b6 :: b7 :: b8 :: b9 :: b10 :: b11 :: rest in
  let osn := Rtp.be16_at plain (12 + k) in
  unwrap_rtx spt sssrc plain (12 + k) =
  Some (osn, ([b0; zb (Rw.pt_byte1 (bz b1) spt)] ++ be 2 osn ++ [b4; b5; b6; b7] ++ be 4 sssrc) ++ take k rest ++ drop (k + 2) rest).
Proof.
  intros Hk plain osn. unfold unwrap_rtx. rewrite (proj2 (Nat.ltb_ge _ _)) by (cbn [length plain]; lia).
  rewrite (proj2 (Nat.ltb_ge (12 + k) 12)) by lia. cbn [orb]. fold osn. reflexivity.
Qed.

(** The shape of what [parse_rtp] accepts. *)
Definition ext_at (b : list byte) (h : nat) (x : bool) : option (nat * option (Z * list byte)) :=
  if x then
    if (length b <? h + 4)%nat then None
    else
      let words := Z.to_nat (Rtp.be16_at b (h + 2)) in
      let stop := (h + 4 + words * 4)%nat in
      if (length b <? stop)%nat then None else Some (stop, Some (Rtp.be16_at b h, take (words * 4) (drop (h + 4) b)))
  else Some (h, None).

Lemma parse_shape b p : Rtp.parse_rtp b = Some p ->
  let h0 := (12 + Z.to_nat (Z.land (Rtp.nth0 b 0) 0x0f) * 4)%nat in
  (12 <= length b)%nat /\ (h0 <= length b)%nat /\ (Z.shiftr (Rtp.nth0 b 0) 6 =? 2) = true /\
  ext_at b h0 (negb (Z.land (Rtp.nth0 b 0) 0x10 =? 0)) = Some (Rtp.hlen p, Rtp.ext p) /\
  p = Rtp.mkRtp b (Z.land (Rtp.nth0 b 1) 0x7f) (negb (Z.land (Rtp.nth0 b 1) 0x80 =? 0))
        (Rtp.be16_at b 2) (Rtp.be32_at b 4) (Rtp.be32_at b 8) (Rtp.hlen p) (Rtp.ext p).
Proof.
  unfold Rtp.parse_rtp. destruct (Nat.ltb_spec (length b) 12); [done|]. cbn [orb].
  destruct (Z.shiftr (Rtp.nth0 b 0) 6 =? 2) eqn:E; [|done]. cbn [negb]. set (h0 := (12 + _)%nat).
  destruct (Nat.ltb_spec (length b) h0); [done|]. fold (ext_at b h0 (negb (Z.land (Rtp.nth0 b 0) 0x10 =? 0))).
  destruct (ext_at b h0 _) as [[h e]|]; [|done]. intros [= <-]. cbn. done.
Qed.

Lemma shape_parse b h e :
  let h0 := (12 + Z.to_nat (Z.land (Rtp.nth0 b 0) 0x0f) * 4)%nat in
  (12 <= length b)%nat -> (h0 <= length b)%nat -> (Z.shiftr (Rtp.nth0 b 0) 6 =? 2) = true ->
  ext_at b h0 (negb (Z.land (Rtp.nth0 b 0) 0x10 =? 0)) = Some (h, e) ->
  Rtp.parse_rtp b = Some (Rtp.mkRtp b (Z.land (Rtp.nth0 b 1) 0x7f) (negb (Z.land (Rtp.nth0 b 1) 0x80 =? 0))
        (Rtp.be16_at b 2) (Rtp.be32_at b 4) (Rtp.be32_at b 8) h e).
Proof.
  intros h0 H1 H2 H3 H4. unfold Rtp.parse_rtp. rewrite (proj2 (Nat.ltb_ge _ _) H1), H3. cbn [orb negb].
  fold h0. rewrite (proj2 (Nat.ltb_ge (length b) h0) H2). fold (ext_at b h0 (negb (Z.land (Rtp.nth0 b 0) 0x10 =? 0))). by rewrite H4.
Qed.

Lemma ext_at_range b h0 x h e : ext_at b h0 x = Some (h, e) -> (h0 <= h)%nat /\ (h0 <= length b -> h <= length b)%nat.
Proof.
  unfold ext_at. destruct x; [|by intros [= <- <-]]. destruct (length b <? h0 + 4)%nat; [done|].
  destruct (Nat.ltb_spec (length b) (h0 + 4 + Z.to_nat (Rtp.be16_at b (h0 + 2)) * 4)); [done|]. intros [= <- _]. lia.
Qed.

(** Two packets that agree from byte 12 to the end of the header have the same extension. *)
Lemma ext_at_agree b c h0 x h e : ext_at b h0 x = Some (h, e) -> (12 <= h0)%nat -> (h <= length c)%nat ->
  (forall i n, (12 <= i)%nat -> (i + n <= h)%nat -> take n (drop i c) = take n (drop i b)) -> ext_at c h0 x = Some (h, e).
Proof.
  intros H Hh Hl Ha. pose proof (ext_at_range b h0 x h e H) as [Hr _]. unfold ext_at in *. destruct x; [|done].
  destruct (Nat.ltb_spec (length b) (h0 + 4)); [done|]. destruct (Nat.ltb_spec (length b) (h0 + 4 + Z.to_nat (Rtp.be16_at b (h0 + 2)) * 4)) as [|Hs]; [done|].
  injection H as <- <-. assert (E1 : Rtp.be16_at c (h0 + 2) = Rtp.be16_at b (h0 + 2)) by (unfold Rtp.be16_at; rewrite Ha by lia; done).
  assert (E2 : Rtp.be16_at c h0 = Rtp.be16_at b h0) by (unfold Rtp.be16_at; rewrite Ha by lia; done).
  rewrite (proj2 (Nat.ltb_ge _ _)) by lia. rewrite E1, E2. rewrite (proj2 (Nat.ltb_ge _ _)) by lia. by rewrite Ha by lia.
Qed.

(** A publisher's retransmission is turned back into the packet it repeats: the stream's
    payload type and SSRC, the original number taken from the payload, and all the rest of
    the header, the extensions and the payload as they came. *)
Theorem rtx_unwrapped spt sssrc plain p : Rtp.parse_rtp plain = Some p -> (Rtp.hlen p + 2 <= length plain)%nat ->
  0 <= spt < 128 -> is_u32 sssrc ->
  let osn := Rtp.be16_at plain (Rtp.hlen p) in
  exists out q, unwrap_rtx spt sssrc plain (Rtp.hlen p) = Some (osn, out) /\ Rtp.parse_rtp out = Some q /\
    Rtp.pt q = spt /\ Rtp.ssrc q = sssrc /\ Rtp.seq q = osn /\ Rtp.ts q = Rtp.ts p /\ Rtp.marker q = Rtp.marker p /\
    Rtp.ext q = Rtp.ext p /\ drop (Rtp.hlen q) out = drop (Rtp.hlen p + 2) plain.
Proof.
  intros Hp Hl Hpt Hss osn. destruct (parse_shape plain p Hp) as (H1 & H2 & H3 & H4 & E). cbv zeta in *. set (h := Rtp.hlen p) in *.
  destruct (ext_at_range _ _ _ _ _ H4) as [Hh _].
  destruct plain as [|b0 [|b1 [|b2 [|b3 [|b4 [|b5 [|b6 [|b7 [|b8 [|b9 [|b10 [|b11 rest]]]]]]]]]]]]; try (cbn in H1; lia).
  change (Rtp.nth0 (b0 :: _) 0) with (bz b0) in *. set (h0 := (12 + _ * 4)%nat) in *. assert (12 <= h0)%nat by (unfold h0; lia).
  set (plain := b0 :: _) in *. cbn [length] in Hl. set (k := (h - 12)%nat). assert (Ek : h = (12 + k)%nat) by lia.
  pose proof (unwrap_bytes spt sssrc b0 b1 b2 b3 b4 b5 b6 b7 b8 b9 b10 b11 rest k ltac:(unfold plain in Hl; cbn [length] in Hl; lia)) as Hu. cbv zeta in Hu. fold plain in Hu.
  rewrite <- Ek in Hu. fold osn in Hu. set (hd := [b0; _] ++ _) in Hu. set (out := hd ++ take k rest ++ drop (k + 2) rest) in Hu.
  assert (Hlr : (k + 2 <= length rest)%nat) by (unfold plain in Hl; cbn [length] in Hl; lia).
  assert (Hlen : length out = (length plain - 2)%nat) by (unfold out; rewrite !length_app, length_take, length_drop; cbn [length plain hd be app]; lia).
  assert (Ha : forall i n, (12 <= i)%nat -> (i + n <= h)%nat -> take n (drop i out) = take n (drop i plain)).
  { intros i n Hi Hn. replace i with (length hd + (i - 12))%nat at 1 by (cbn; lia). unfold out. rewrite (slice_head hd (take k rest) _ rest k) by (done || lia).
    replace i with (12 + (i - 12))%nat at 2 by lia. done. }
  assert (Hlp : length plain = (12 + length rest)%nat) by done.
  assert (Hx : ext_at out h0 (negb (Z.land (Rtp.nth0 out 0) 0x10 =? 0)) = Some (h, Rtp.ext p)).
  { change (Rtp.nth0 out 0) with (bz b0). eapply ext_at_agree; [exact H4|done|lia|exact Ha]. }
  exists out. eexists. split; [exact Hu|]. split.
  { apply shape_parse; [lia| |exact H3|exact Hx]. change (Rtp.nth0 out 0) with (bz b0). fold h0. lia. }
  rewrite E. cbn [Rtp.pt Rtp.ssrc Rtp.seq Rtp.ts Rtp.marker Rtp.ext Rtp.hlen].
  change (Rtp.nth0 out 1) with (bz (zb (Rw.pt_byte1 (bz b1) spt))). change (Rtp.nth0 plain 1) with (bz b1).
  destruct (Rtp.pt_byte b1 spt Hpt) as [P1 P2]. cbv zeta in P1, P2. rewrite P1, P2. split; [done|].
  assert (Hosn : is_u16 osn).
  { unfold osn, Rtp.be16_at. pose proof (from_be_range (take 2 (drop h plain))) as R. unfold len in R.
    rewrite length_take, length_drop in R. replace (2 `min` (length plain - h))%nat with 2%nat in R by lia. exact R. }
  split; [exact (from_be_be_u32 sssrc Hss)|]. split; [exact (from_be_be_u16 osn Hosn)|]. split; [done|]. split; [done|]. split; [done|].
  rewrite Ek. unfold out. replace (12 + k)%nat with (length (hd ++ take k rest)) by (rewrite length_app, length_take; cbn; lia).
  rewrite app_assoc, drop_app_len. replace (length (hd ++ take k rest) + 2)%nat with (12 + (k + 2))%nat by (rewrite length_app, length_take; cbn; lia). done.
Qed.

Lemma rtx_unwrapped_witness : exists out, unwrap_rtx 96 9 (take 12 a_packet ++ [x01; x02; xcc]) 12 = Some (258, out) /\
  drop 12 out = [xcc].
Proof.
  assert (Hp : Rtp.parse_rtp (take 12 a_packet ++ [x01; x02; xcc]) = Some (Rtp.mkRtp (take 12 a_packet ++ [x01; x02; xcc]) 96 false 500 77 9 12 None)) by (vm_compute; reflexivity).
  destruct (rtx_unwrapped 96 9 _ _ Hp) as (out & q & H1 & H2 & _ & _ & _ & _ & _ & _ & H3); [vm_compute; lia|lia|ulia|].
  exists out. split; [exact H1|]. vm_compute in H1. injection H1 as <-. vm_compute. reflexivity.
Defined.

(** ** The list of missing packets *)

(** A reference that never wraps and has no limit: the highest number that came, and the
    numbers skipped with the time each was noticed. *)
Record Ref := mkRef { hi : Z; skipped : gmap Z Z }.

Fixpoint ref_gap (now s : Z) (n : nat) (m : gmap Z Z) : gmap Z Z :=
  match n with O => m | S n => ref_gap now (s + 1) n (<[s := now]> m) end.

Inductive Op := Arrives (x now : Z) | Asks (now : Z).

Definition ref_op (o : Op) (r : Ref) : Ref :=
  match o with
  | Arrives x now =>
    if x <=? hi r then mkRef (hi r) (delete x (skipped r))
    else mkRef x (if x - hi r <? 128 then ref_gap now (hi r + 1) (Z.to_nat (x - hi r - 1)) (skipped r) else skipped r)
  | Asks now => mkRef (hi r) (filter (fun kt => sat_sub now kt.2 <= NACK_GIVEUP_MS) (skipped r))
  end.

Definition nack_op (o : Op) (k : NackUp) : NackUp :=
  match o with Arrives x now => on_packet (u16 x) now k | Asks now => (due now k).1 end.

(** A packet is within reach when it is less than half the number space away. *)
Definition near (r : Ref) (o : Op) : Prop := match o with Arrives x _ => -32768 <= x - hi r < 32768 | Asks _ => True end.
Fixpoint all_near (r : Ref) (os : list Op) : Prop :=
  match os with [] => True | o :: os => near r o /\ all_near (ref_op o r) os end.

(** At no time more is missing than the list holds. *)
Fixpoint fits (r : Ref) (os : list Op) : Prop :=
  match os with [] => True | o :: os => Z.of_nat (size (skipped (ref_op o r))) <= NACK_MAX /\ fits (ref_op o r) os end.

Lemma ref_gap_lookup now n : forall s m j, ref_gap now s n m !! j = if bool_decide (s <= j < s + Z.of_nat n) then Some now else m !! j.
Proof.
  induction n as [|n IH]; intros s m j; cbn [ref_gap]; [rewrite bool_decide_false by lia; done|]. rewrite IH.
  destruct (decide (j = s)) as [->|Hn].
  - rewrite bool_decide_false, bool_decide_true by lia. apply lookup_insert_eq.
  - rewrite lookup_insert_ne by done. rewrite (bool_decide_ext (s + 1 <= j < s + 1 + Z.of_nat n) (s <= j < s + Z.of_nat (S n))) by lia. done.
Qed.

Lemma ref_gap_size now n : forall s m, (forall j, s <= j -> m !! j = None) -> size (ref_gap now s n m) = (size m + n)%nat.
Proof.
  induction n as [|n IH]; intros s m Hm; cbn [ref_gap]; [lia|]. rewrite IH.
  - rewrite map_size_insert_None by (apply Hm; lia). lia.
  - intros j Hj. rewrite lookup_insert_ne by lia. apply Hm. lia.
Qed.

Lemma note_gap_spec now n : forall s m, (forall j, s <= j -> m !! j = None) -> Z.of_nat (size m) <= NACK_MAX ->
  let m' := note_gap now s n m in
  (forall j, ~ (s <= j < s + Z.of_nat n) -> m' !! j = m !! j) /\
  (forall j v, s <= j < s + Z.of_nat n -> m' !! j = Some v -> v = (now, None)) /\
  Z.of_nat (size m') <= NACK_MAX /\
  (Z.of_nat (size m + n) <= NACK_MAX -> forall j, s <= j < s + Z.of_nat n -> m' !! j = Some (now, None)).
Proof.
  induction n as [|n IH]; intros s m Hm Hs; cbn [note_gap]; [split_and!; naive_solver lia|].
  destruct (Z.leb_spec NACK_MAX (Z.of_nat (size m))) as [Hf|Hf].
  { split; [done|]. split; [intros j v Hj Hv; rewrite (Hm j) in Hv by lia; done|]. split; [done|lia]. }
  rewrite (Hm s) by lia. destruct (IH (s + 1) (<[s := (now, None)]> m)) as (A & B & C & D).
  - intros j Hj. rewrite lookup_insert_ne by lia. apply Hm. lia.
  - rewrite map_size_insert_None by (apply Hm; lia). lia.
  - assert (As : note_gap now (s + 1) n (<[s := (now, None)]> m) !! s = Some (now, None)) by (rewrite A by lia; apply lookup_insert_eq).
    split_and!; [| |done|].
    + intros j Hj. rewrite A by lia. apply lookup_insert_ne. lia.
    + intros j v Hj Hv. destruct (decide (j = s)) as [->|]; [congruence|]. eapply B; [|exact Hv]. lia.
    + intros Hz j Hj. destruct (decide (j = s)) as [->|]; [done|]. apply D; [|lia]. rewrite map_size_insert_None by (apply Hm; lia). lia.
Qed.

(** What the list and the reference have in common, and when they are the same. *)
Record tracks (r : Ref) (k : NackUp) : Prop := {
  t_last : last k = Some (u16 (hi r));
  t_base : base k = hi r;
  t_old : forall j, hi r <= j -> skipped r !! j = None;
  t_sub : forall j v, missing k !! j = Some v -> skipped r !! j = Some v.1;
  t_size : Z.of_nat (size (missing k)) <= NACK_MAX }.
Definition same (r : Ref) (k : NackUp) : Prop := forall j, skipped r !! j = fst <$> missing k !! j.

Lemma i16_diff x h : -32768 <= x - h < 32768 -> i16 (u16 (u16 x - u16 h)) = x - h.
Proof.
  intros H. unfold i16, signed. change (2 ^ (16 - 1)) with 32768. change (2 ^ 16) with 65536.
  destruct (Z.ltb_spec (u16 (u16 (u16 x - u16 h))) 32768); ulia.
Qed.

Lemma tracks_arrives r k x now : tracks r k -> near r (Arrives x now) ->
  tracks (ref_op (Arrives x now) r) (on_packet (u16 x) now k) /\
  (same r k -> Z.of_nat (size (skipped (ref_op (Arrives x now) r))) <= NACK_MAX ->
   same (ref_op (Arrives x now) r) (on_packet (u16 x) now k)).
Proof.
  intros [H1 H2 H3 H4 H5] Hn. cbn [near] in Hn. unfold on_packet. rewrite H1, H2, i16_diff by done.
  replace (hi r + (x - hi r)) with x by lia. cbn [ref_op]. destruct (Z.leb_spec x (hi r)) as [Hx|Hx].
  { rewrite (proj2 (Z.leb_le (x - hi r) 0)) by lia. split.
    - split; cbn; try done.
      + intros j Hj. apply lookup_delete_None. right. by apply H3.
      + intros j v Hv. apply lookup_delete_Some in Hv as [Hne Hv]. rewrite lookup_delete_ne by done. by apply H4.
      + pose proof (map_subseteq_size (delete x (missing k)) (missing k) (delete_subseteq _ _)). lia.
    - intros Hs _ j. cbn. destruct (decide (j = x)) as [->|]; [by rewrite !lookup_delete_eq|]. rewrite !lookup_delete_ne by done. apply Hs. }
  rewrite (proj2 (Z.leb_gt (x - hi r) 0)) by lia.
  assert (Hold : forall j, hi r + 1 <= j -> missing k !! j = None).
  { intros j Hj. apply eq_None_not_Some. intros [v Hv]. apply H4 in Hv. by rewrite H3 in Hv by lia. }
  destruct (note_gap_spec now (Z.to_nat (x - hi r - 1)) (hi r + 1) (missing k) Hold H5) as (A & B & C & D).
  set (N := Z.to_nat (x - hi r - 1)) in *. assert (EN : Z.of_nat N = x - hi r - 1) by lia.
  assert (Hrange : forall j, bool_decide (hi r + 1 <= j < hi r + 1 + Z.of_nat N) = bool_decide (hi r < j < x)) by (intros j; apply bool_decide_ext; lia).
  destruct (Z.ltb_spec (x - hi r) 128) as [Hc|Hc].
  - assert (Em : (if (1 <? x - hi r) && true then note_gap now (hi r + 1) N (missing k) else missing k) = note_gap now (hi r + 1) N (missing k)).
    { destruct (Z.ltb_spec 1 (x - hi r)); [done|]. assert (N = 0%nat) as -> by lia. done. }
    rewrite Em. split.
    + split; cbn [last base hi skipped missing]; try done.
      * intros j Hj. rewrite ref_gap_lookup, Hrange, bool_decide_false by lia. apply H3. lia.
      * intros j v Hv. rewrite ref_gap_lookup, Hrange. case_bool_decide as Hj; [by rewrite (B j v) by (done || lia)|].
        apply H4. by rewrite <- A by lia.
    + cbn [hi skipped missing]. intros Hs Hf j. cbn [skipped missing]. rewrite ref_gap_lookup, Hrange. rewrite ref_gap_size in Hf by (intros; apply H3; lia).
      assert (Hsz : size (skipped r) = size (missing k)).
      { replace (skipped r) with (fst <$> missing k) by (apply map_eq; intros; rewrite lookup_fmap; by symmetry). apply map_size_fmap. }
      case_bool_decide as Hj; [by rewrite D by lia|]. rewrite A by lia. apply Hs.
  - rewrite andb_false_r. split; [split; cbn; try done|].
    + intros j Hj. apply H3. lia.
    + intros Hs _. exact Hs.
Qed.

Lemma retain_fst now v v' b : retain now v = Some (v', b) -> v'.1 = v.1.
Proof. unfold retain. destruct (_ <? _); [done|]. by intros [= <- _]. Qed.

Lemma tracks_asks r k now : tracks r k ->
  tracks (ref_op (Asks now) r) (due now k).1 /\ (same r k -> same (ref_op (Asks now) r) (due now k).1).
Proof.
  intros [H1 H2 H3 H4 H5]. cbn [ref_op due fst].
  assert (Hr : forall v, (fst <$> retain now v) = None <-> ~ sat_sub now v.1 <= NACK_GIVEUP_MS).
  { intros v. unfold retain. destruct (Z.ltb_spec NACK_GIVEUP_MS (sat_sub now v.1)); cbn; split; try done; lia. }
  split.
  - split; cbn [last base hi skipped missing]; try done.
    + intros j Hj. apply map_lookup_filter_None. left. by apply H3.
    + intros j v Hv. rewrite lookup_omap in Hv. destruct (missing k !! j) as [v0|] eqn:E; [|done]. cbn in Hv.
      destruct (retain now v0) as [[v1 b]|] eqn:Er; [|done]. injection Hv as <-. apply map_lookup_filter_Some.
      rewrite (retain_fst _ _ _ _ Er). split; [by apply H4|]. cbn. apply dec_stable. rewrite <- Hr, Er. done.
    + assert (size (omap (fun v => fst <$> retain now v) (missing k)) <= size (missing k))%nat; [|lia].
      rewrite <- !size_dom. apply subseteq_size. intros j. rewrite !elem_of_dom, lookup_omap. intros [v Hv]. destruct (missing k !! j); [eauto|done].
  - intros Hs j. cbn [skipped missing]. rewrite lookup_omap. rewrite map_lookup_filter, Hs. destruct (missing k !! j) as [v|]; [|done]. cbn.
    destruct (retain now v) as [[v1 b]|] eqn:Er; cbn.
    + rewrite option_guard_True; [by rewrite (retain_fst _ _ _ _ Er)|]. apply dec_stable. rewrite <- Hr, Er. done.
    + rewrite option_guard_False; [done|]. rewrite <- Hr, Er. done.
Qed.

Lemma nack_tracks_run os : forall r k, tracks r k -> all_near r os ->
  let r' := fold_left (fun r o => ref_op o r) os r in
  let k' := fold_left (fun k o => nack_op o k) os k in
  tracks r' k' /\ (same r k -> fits r os -> same r' k').
Proof.
  induction os as [|o os IH]; intros r k Ht Hn; [done|]. cbn [fold_left all_near fits] in *. destruct Hn as [Hn Hns].
  assert (H : tracks (ref_op o r) (nack_op o k) /\ (same r k -> Z.of_nat (size (skipped (ref_op o r))) <= NACK_MAX -> same (ref_op o r) (nack_op o k))).
  { destruct o as [x now|now]; [by apply tracks_arrives|]. destruct (tracks_asks r k now Ht) as [A B]. auto. }
  destruct H as [H1 H2]. destruct (IH _ _ H1 Hns) as [H3 H4]. split; [done|]. intros Hs [Hf Hfs]. auto.
Qed.

Lemma due_out now k q : q ∈ (due now k).2.1 <-> exists s v v', missing k !! s = Some v /\ retain now v = Some (v', true) /\ q = s mod 65536.
Proof.
  cbn [due snd fst]. rewrite list_elem_of_omap. split.
  - intros ([s v] & Hin & H). rewrite merge_sort_Permutation in Hin. apply elem_of_map_to_list in Hin. cbn [fst snd] in H.
    destruct (retain now v) as [[v' []]|] eqn:E; try done. injection H as <-. eauto 10.
  - intros (s & v & v' & Hm & Hr & ->). exists (s, v). split; [|cbn; by rewrite Hr]. rewrite merge_sort_Permutation. by apply elem_of_map_to_list.
Qed.

(** What is asked for again.  After any sequence of packets, in any order and with
    repetitions, none more than half the number space from the highest, and of requests
    made: only numbers that were skipped at most a second ago and have not come since are
    asked for; the list never has more than 128; and while no more are missing, every such
    number is asked for now or was within the last 200 ms. *)
Theorem nack_up_exact x0 t0 os now : is_u16 x0 ->
  let r0 := mkRef x0 ∅ in
  all_near r0 os ->
  let r := fold_left (fun r o => ref_op o r) os r0 in
  let k := fold_left (fun k o => nack_op o k) os (on_packet x0 t0 nack_default) in
  (forall q, q ∈ (due now k).2.1 -> exists s t, skipped r !! s = Some t /\ sat_sub now t <= NACK_GIVEUP_MS /\ q = s mod 65536) /\
  Z.of_nat (size (missing k)) <= NACK_MAX /\
  (fits r0 os -> forall s t, skipped r !! s = Some t -> sat_sub now t <= NACK_GIVEUP_MS ->
     s mod 65536 ∈ (due now k).2.1 \/ exists t', missing k !! s = Some (t, Some t') /\ sat_sub now t' < NACK_RESEND_MS).
Proof.
  intros Hx r0 Hn r k. assert (H0 : tracks r0 (on_packet x0 t0 nack_default)) by (split; cbn; rewrite ?u16_id; done).
  destruct (nack_tracks_run os r0 _ H0 Hn) as [[T1 T2 T3 T4 T5] Hsame]. fold r k in T4, T5, Hsame. split; [|split; [done|]].
  - intros q (s & v & v' & Hm & Hr & ->)%due_out. exists s, v.1. split; [by apply T4|]. split; [|done]. unfold retain in Hr.
    destruct (Z.ltb_spec NACK_GIVEUP_MS (sat_sub now v.1)); [done|lia].
  - intros Hf s t Hs Ht. assert (Hsm : same r k) by (apply Hsame; [by intros j|done]). rewrite Hsm in Hs.
    destruct (missing k !! s) as [[t1 l]|] eqn:Em; [|done]. injection Hs as <-. cbn [fst] in *.
    assert (Hr : retain now (t1, l) = Some ((t1, if match l with Some t => NACK_RESEND_MS <=? sat_sub now t | None => true end then Some now else l),
      match l with Some t => NACK_RESEND_MS <=? sat_sub now t | None => true end)).
    { unfold retain. cbn [fst snd]. by rewrite (proj2 (Z.ltb_ge _ _) Ht). }
    destruct l as [t'|]; [destruct (Z.leb_spec NACK_RESEND_MS (sat_sub now t'))|].
    + left. apply due_out. eauto 10.
    + right. eauto.
    + left. apply due_out. eauto 10.
Qed.

Lemma nack_up_exact_witness : 1 ∈ (due 10 (fold_left (fun k o => nack_op o k) [Arrives 65538 5] (on_packet 65535 0 nack_default))).2.1.
Proof.
  assert (Hn : all_near (mkRef 65535 ∅) [Arrives 65538 5]) by (cbn; lia).
  destruct (nack_up_exact 65535 0 [Arrives 65538 5] 10 ltac:(ulia) Hn) as (_ & _ & H).
  assert (Hf : fits (mkRef 65535 ∅) [Arrives 65538 5]) by (split; vm_compute; [discriminate|exact I]).
  destruct (H Hf 65537 5) as [K|(t' & E & _)]; [vm_compute; reflexivity|vm_compute; discriminate|exact K|vm_compute in E; discriminate].
Defined.

End Pub.
