(* ===== verification/Room.v ===== *)
(** * Rooms

    crates/oxsfud/src/room/mod.rs: who is in a room, the permissions set in it, the version
    every notice carries, and the room's lifetime; with the roster part of
    crates/oxsfud/src/gc/mod.rs [leave] and crates/oxsfud/src/ops/rooms.rs [snapshot_of].
    Every function that takes the room's lock once is one step. *)

From S2P Require Import Prelude.

Module Room.

Definition PERMANENT : Z := 2 ^ 32 - 1.

Record Permission := mkPerm { publish_audio : bool; publish_video : bool; publish_screen : bool; floor_request : bool }.
#[export] Instance Permission_eq_dec : EqDecision Permission. Proof. solve_decision. Defined.
Definition ALL : Permission := mkPerm true true true true.
Definition is_default (p : Permission) : bool := bool_decide (p = ALL).

(** [metadata] is kept and passed on as it is. *)
Record Member := mkMember {
  user : string; role : option Z; select : bool; participant_type : Z; hidden : bool;
  metadata : option string; permission : Permission }.

Record MemberInfo := mkInfo {
  i_user : string; i_role : option Z; i_select : bool; i_type : Z; i_metadata : option string; i_permission : option Permission }.

Definition info (m : Member) : MemberInfo :=
  mkInfo (user m) (role m) (select m) (participant_type m) (metadata m) (if is_default (permission m) then None else Some (permission m)).

Definition me (m : Member) : MemberInfo :=
  let i := info m in mkInfo (i_user i) (i_role i) (i_select i) (i_type i) (i_metadata i) (Some (permission m)).

Record RoomState := mkState {
  members : gmap string Member; seq : Z; overrides : gmap string Permission;
  empty_since : Z; ever_joined : bool; empty_seen : bool; closed : bool }.

(** What never changes of a room. *)
Record RoomInit := mkInit { capacity : Z; unused_ttl : Z; departure_ttl : Z }.

Definition new (now : Z) : RoomState := mkState ∅ 0 ∅ now false false false.

(** A notice to everybody in the room, with its version. *)
Inductive Body := Joined (i : MemberInfo) | Left (u : string) | Other.
Abbreviation Notice := (Z * Body)%type.

(** ** Reading *)

Definition has (u : string) (s : RoomState) : bool := bool_decide (is_Some (members s !! u)).
Definition registered (s : RoomState) : Z := Z.of_nat (size (members s)).
Definition visible (s : RoomState) : gmap string Member := filter (fun um => hidden um.2 = false) (members s).
Definition user_count (s : RoomState) : Z := u32 (Z.of_nat (size (visible s))).
Definition hidden_count (s : RoomState) : Z := u32 (Z.of_nat (size (filter (fun um => hidden um.2 = true) (members s)))).
Definition rec (s : RoomState) : bool := existsb (fun um => participant_type um.2 =? 1) (map_to_list (members s)).
Definition participants (s : RoomState) : gmap string MemberInfo := info <$> visible s.
Definition full_for (r : RoomInit) (hid : bool) (s : RoomState) : bool := negb hid && (capacity r <=? user_count s).

Definition permission_for (u : string) (token : option Permission) (s : RoomState) : Permission :=
  default ALL (match overrides s !! u with Some p => Some p | None => token end).

(** ** Changing *)

Definition remove (u : string) (s : RoomState) : RoomState * option Member :=
  (mkState (delete u (members s)) (seq s) (overrides s) (empty_since s) (ever_joined s) (empty_seen s) (closed s), members s !! u).

Definition close (s : RoomState) : RoomState :=
  mkState (members s) (seq s) (overrides s) (empty_since s) (ever_joined s) (empty_seen s) true.

Definition join (m : Member) (rejoin : bool) (token : option Permission) (s : RoomState) : RoomState * list Notice * Z :=
  let m := mkMember (user m) (role m) (select m) (participant_type m) (hidden m) (metadata m) (permission_for (user m) token s) in
  let notify := negb rejoin && negb (hidden m) in
  let q := if notify then seq s + 1 else seq s in
  (mkState (<[user m := m]> (members s)) q (overrides s) 0 true false (closed s), if notify then [(q, Joined (info m))] else [], q).

(** [f] says what the notice is, if there is one. *)
Definition bump_and_send (f : Z -> option Body) (s : RoomState) : RoomState * list Notice * Z :=
  let q := seq s + 1 in
  (mkState (members s) q (overrides s) (empty_since s) (ever_joined s) (empty_seen s) (closed s),
   match f q with Some b => [(q, b)] | None => [] end, q).

Definition announce_left (u : string) (s : RoomState) : RoomState * list Notice * Z := bump_and_send (fun _ => Some (Left u)) s.

Definition set_permission (u : string) (p : Permission) (s : RoomState) : RoomState * option (Permission * Permission * bool) :=
  match members s !! u with
  | None => (s, None)
  | Some m =>
    if bool_decide (permission m = p) then (s, Some (permission m, p, hidden m))
    else
      let m' := mkMember (user m) (role m) (select m) (participant_type m) (hidden m) (metadata m) p in
      (mkState (<[u := m']> (members s)) (seq s) (if is_default p then delete u (overrides s) else <[u := p]> (overrides s))
         (empty_since s) (ever_joined s) (empty_seen s) (closed s), Some (permission m, p, hidden m))
  end.

Definition ttl_due (r : RoomInit) (now : Z) (s : RoomState) : RoomState * bool :=
  let upd e b := mkState (members s) (seq s) (overrides s) e (ever_joined s) b (closed s) in
  if negb (bool_decide (members s = ∅)) then (upd 0 false, false)
  else if ever_joined s && (empty_since s =? 0) then (upd now true, false)
  else
    let ttl := if ever_joined s then departure_ttl r else unused_ttl r in
    if ttl =? PERMANENT then (s, false) else (s, ttl * 1000 <=? sat_sub now (empty_since s)).

(** What somebody who comes in is told: the roster is read first and the version after
    that, each under the lock but not both together; [between] is what others do in the
    meantime. *)
Definition snapshot_of (between : RoomState -> RoomState) (s : RoomState) : gmap string MemberInfo * Z :=
  (participants s, seq (between s)).

(** ** What the others see *)

(** A client, as docs/protocol/04-room.md (4-2-3) has it: it keeps who is in the room and
    the version of what it keeps; an old notice is dropped, the next one applied, and any
    other is a gap. *)
Record Client := mkClient { roster : gset string; cseq : Z; gap : bool }.

Definition hear (c : Client) (n : Notice) : Client :=
  if n.1 <=? cseq c then c
  else if n.1 =? cseq c + 1 then
    mkClient (match n.2 with Joined i => roster c ∪ {[i_user i]} | Left u => roster c ∖ {[u]} | Other => roster c end) n.1 (gap c)
  else mkClient (roster c) (cseq c) true.

(** [OpOther] is a TRACK_EVENT or a TRACK_STATE: these callers of [bump_and_send] always have a
    notice to send, as [announce_left] has. *)
Inductive Op :=
| OpJoin (m : Member) (rejoin : bool) (token : option Permission)
| OpRemove (u : string)
| OpLeft (u : string)
| OpOther
| OpPerm (u : string) (p : Permission)
| OpSweep (now : Z)
| OpClose.

Definition op (r : RoomInit) (o : Op) (s : RoomState) : RoomState * list Notice :=
  match o with
  | OpJoin m rejoin token => (join m rejoin token s).1
  | OpRemove u => ((remove u s).1, [])
  | OpLeft u => (announce_left u s).1
  | OpOther => (bump_and_send (fun _ => Some Other) s).1
  | OpPerm u p => ((set_permission u p s).1, [])
  | OpSweep now => ((ttl_due r now s).1, [])
  | OpClose => (close s, [])
  end.

(** The users taken off the roster whose leaving has not been announced yet. *)
Definition leaving_after (o : Op) (s : RoomState) (lv : gset string) : gset string :=
  match o with
  | OpRemove u => match visible s !! u with Some _ => lv ∪ {[u]} | None => lv end
  | OpLeft u => lv ∖ {[u]}
  | _ => lv
  end.

(** The users of whom the others have not been told what they are, until the next notice about
    them: somebody who joins while on the roster, and not as visible as before, is not told of;
    and the leaving of somebody who has come back is told after the coming. *)
Definition shown_now (u : string) (s : RoomState) : bool := bool_decide (is_Some (visible s !! u)).

Definition untold_after (o : Op) (s : RoomState) (lv un : gset string) : gset string :=
  match o with
  | OpJoin m rejoin _ =>
    let was := shown_now (user m) s || bool_decide (user m ∈ lv) in
    if negb rejoin && negb (hidden m) then un ∖ {[user m]}
    else if (if hidden m then shown_now (user m) s && negb (bool_decide (user m ∈ lv)) else negb was) then un ∪ {[user m]}
    else un
  | OpLeft u => if shown_now u s then un ∪ {[u]} else un ∖ {[u]}
  | _ => un
  end.

(** The room, what it has sent, who is leaving and who is not told of. *)
Definition run (r : RoomInit) (os : list Op) (x : RoomState * list Notice * gset string * gset string) : RoomState * list Notice * gset string * gset string :=
  fold_left (fun x o => (let '(s, ns, lv, un) := x in ((op r o s).1, ns ++ (op r o s).2, leaving_after o s lv, untold_after o s lv un))) os x.

Record synced (c : Client) (s : RoomState) (lv un : gset string) : Prop := {
  y_roster : forall u, u ∉ un -> u ∈ roster c <-> shown_now u s = true \/ u ∈ lv; y_seq : cseq c = seq s; y_gap : gap c = false }.

Lemma visible_lookup s u : visible s !! u = match members s !! u with Some m => if hidden m then None else Some m | None => None end.
Proof.
  unfold visible. rewrite map_lookup_filter. destruct (members s !! u) as [m|]; [|done]. cbn.
  destruct (hidden m); [by rewrite option_guard_False|by rewrite option_guard_True].
Qed.

Lemma shown_members u s : shown_now u s = match members s !! u with Some m => negb (hidden m) | None => false end.
Proof. unfold shown_now. rewrite visible_lookup. destruct (members s !! u) as [m|]; [|done]. by destruct (hidden m). Qed.

Lemma shown_same s s' u : hidden <$> (members s' !! u) = hidden <$> (members s !! u) -> shown_now u s' = shown_now u s.
Proof. rewrite !shown_members. destruct (members s' !! u), (members s !! u); cbn; congruence. Qed.

Lemma hear_next c q b : cseq c + 1 = q ->
  hear c (q, b) = mkClient (match b with Joined i => roster c ∪ {[i_user i]} | Left u => roster c ∖ {[u]} | Other => roster c end) q (gap c).
Proof. intros <-. unfold hear. cbn [fst snd]. rewrite (proj2 (Z.leb_gt _ _)), Z.eqb_refl by lia. done. Qed.

(** One step keeps a client in step. *)
Definition keeps (r : RoomInit) (o : Op) : Prop := forall s lv un c,
  synced c s lv un -> synced (fold_left hear (op r o s).2 c) (op r o s).1 (leaving_after o s lv) (untold_after o s lv un).

Lemma keeps_join r m rejoin token : keeps r (OpJoin m rejoin token).
Proof.
  intros s lv un c [H1 H2 H3]. cbn [op leaving_after untold_after]. unfold join. cbn [fst snd user hidden].
  set (s' := mkState _ _ _ _ _ _ _).
  assert (forall u, shown_now u s' = if decide (u = user m) then negb (hidden m) else shown_now u s) as Hs.
  { intros u. rewrite !shown_members. cbn [s' members]. destruct (decide (u = user m)) as [->|]; [by rewrite lookup_insert_eq|by rewrite lookup_insert_ne]. }
  destruct (negb rejoin && negb (hidden m)) eqn:En; cbn [fold_left].
  - rewrite hear_next by (by rewrite H2). split; cbn [roster cseq gap i_user info user]; try done.
    intros u Hu. rewrite Hs, elem_of_union, elem_of_singleton. apply andb_true_iff in En as [_ Eh]. rewrite Eh. destruct (decide (u = user m)); [tauto|]. rewrite H1 by set_solver. tauto.
  - split; [|done..]. intros u Hu. rewrite Hs. destruct (decide (u = user m)) as [->|]; [|apply H1; case_match; set_solver].
    destruct (hidden m); cbn [negb] in *.
    + assert (user m ∉ un) as Hn by (case_match; set_solver). rewrite H1 by done. destruct (shown_now (user m) s); cbn [andb] in Hu; [|tauto].
      destruct (decide (user m ∈ lv)) as [Hl|Hl]; [tauto|]. rewrite bool_decide_false in Hu by done. cbn in Hu. set_solver.
    + assert (user m ∉ un) as Hn by (case_match; set_solver). rewrite H1 by done. destruct (shown_now (user m) s); cbn [orb negb] in Hu; [tauto|].
      destruct (decide (user m ∈ lv)) as [Hl|Hl]; [tauto|]. rewrite bool_decide_false in Hu by done. cbn in Hu. set_solver.
Qed.

Lemma keeps_remove r u : keeps r (OpRemove u).
Proof.
  intros s lv un c [H1 H2 H3]. cbn [op leaving_after untold_after remove fst snd fold_left]. set (s' := mkState _ _ _ _ _ _ _). split; [|done..]. intros x Hx. rewrite H1 by done.
  assert (shown_now x s' = if decide (x = u) then false else shown_now x s) as ->.
  { rewrite !shown_members. cbn [s' members]. destruct (decide (x = u)) as [->|]; [by rewrite lookup_delete_eq|by rewrite lookup_delete_ne]. }
  unfold shown_now. destruct (visible s !! u) as [m|] eqn:E; (destruct (decide (x = u)) as [->|Ex]; [rewrite E|]); cbn; set_solver.
Qed.

Lemma keeps_left r u : keeps r (OpLeft u).
Proof.
  intros s lv un c [H1 H2 H3]. cbn [op leaving_after untold_after announce_left bump_and_send fst snd fold_left]. rewrite hear_next by (by rewrite H2).
  split; cbn [roster cseq gap seq]; try done. intros x Hx. change (shown_now x (mkState (members s) _ _ _ _ _ _)) with (shown_now x s).
  rewrite !elem_of_difference, elem_of_singleton. destruct (shown_now u s) eqn:E.
  - assert (x <> u /\ x ∉ un) as [Hne Hn] by set_solver. rewrite H1 by done. tauto.
  - destruct (decide (x = u)) as [->|Hne]; [rewrite E; split; [tauto|intros [?|?]; [done|tauto]]|]. rewrite H1 by set_solver. tauto.
Qed.

(** What leaves the roster and the version alone. *)
Lemma keeps_same r o : (forall s, (op r o s).2 = [] /\ seq (op r o s).1 = seq s /\ forall x, hidden <$> (members (op r o s).1 !! x) = hidden <$> (members s !! x)) ->
  (forall s lv un, leaving_after o s lv = lv /\ untold_after o s lv un = un) -> keeps r o.
Proof.
  intros H Hl s lv un c [H1 H2 H3]. destruct (H s) as (-> & Hq & Hh). destruct (Hl s lv un) as [-> ->]. cbn [fold_left]. split; [|congruence|done].
  intros u Hu. rewrite (shown_same s) by done. by apply H1.
Qed.

Lemma keeps_op r o : keeps r o.
Proof.
  destruct o as [m rejoin token|u|u| |u p|now|]; [apply keeps_join|apply keeps_remove|apply keeps_left| |apply keeps_same; [|done]..].
  - intros s lv un c [H1 H2 H3]. cbn [op leaving_after untold_after bump_and_send fst snd fold_left]. rewrite hear_next by (by rewrite H2). by split.
  - intros s. cbn [op snd fst]. unfold set_permission. split; [done|]. destruct (members s !! u) as [m|] eqn:E; [|done]. destruct (bool_decide _); [done|].
    cbn [fst members seq]. split; [done|]. intros x. destruct (decide (x = u)) as [->|]; [by rewrite lookup_insert_eq, E|by rewrite lookup_insert_ne].
  - intros s. cbn [op snd fst]. unfold ttl_due. split; [done|]. destruct (negb _); [done|]. destruct (_ && _); [done|]. by destruct (_ =? _).
  - done.
Qed.

Lemma run_synced r os c0 : forall s ns lv un, synced (fold_left hear ns c0) s lv un ->
  let '(s', ns', lv', un') := run r os (s, ns, lv, un) in synced (fold_left hear ns' c0) s' lv' un'.
Proof.
  induction os as [|o os IH]; intros s ns lv un Hs; [done|]. pose proof (keeps_op r o s lv un _ Hs) as Hs'. rewrite <- fold_left_app in Hs'. exact (IH _ _ _ _ Hs').
Qed.

(** C30: Whoever has the roster of a room at some version and applies the notices that follow
    keeps having it, through every sequence of joins, removals, announcements of leavings,
    permission changes, sweeps, closings and other notices: no notice is ever a gap, the
    version is the room's, and a user is shown exactly when the user is a visible member or is
    one whose leaving is still to be announced. Of this the users are excepted, until the next
    notice about them, of whom the room does not tell the truth ([untold_after]): one who joins
    again while on the roster and is hidden now and was not before, or was and is no longer
    ([room_rejoin_untold]), and one whose leaving is announced only after the coming back. *)
Theorem room_roster_converges r os s :
  let '(s', ns, lv, un) := run r os (s, [], ∅, ∅) in
  let c := fold_left hear ns (mkClient (dom (participants s)) (seq s) false) in
  gap c = false /\ cseq c = seq s' /\ forall u, u ∉ un -> u ∈ roster c <-> u ∈ dom (participants s') \/ u ∈ lv.
Proof.
  assert (forall u s, shown_now u s = true <-> u ∈ dom (participants s)) as Hd.
  { intros u x. unfold shown_now, participants. by rewrite bool_decide_eq_true, dom_fmap_L, elem_of_dom. }
  pose proof (run_synced r os (mkClient (dom (participants s)) (seq s) false) s [] ∅ ∅) as H.
  destruct (run r os (s, [], ∅, ∅)) as [[[s' ns] lv] un]. destruct H as [H1 H2 H3].
  - split; try done. intros u _. cbn. rewrite Hd. set_solver.
  - split_and!; try done. intros u Hu. rewrite H1 by done. by rewrite Hd.
Qed.

Definition a_member (u : string) (h : bool) : Member := mkMember u None true 0 h None ALL.
Definition a_room : RoomInit := mkInit 10 60 30.

(** Ann and Bob are in the room when Ann's client joins again with a token that hides her: she
    stays on the others' rosters. When it does so with the old token, she is on none. *)
Theorem room_rejoin_untold :
  let s := (join (a_member "bob" false) false None (join (a_member "ann" false) false None (new 1)).1.1).1.1 in
  let '(s1, ns1, _, un1) := run a_room [OpJoin (a_member "ann" true) true None] (s, [], ∅, ∅) in
  let '(s2, ns2, _, un2) := run a_room [OpRemove "ann"; OpLeft "ann"; OpJoin (a_member "ann" true) false None; OpJoin (a_member "ann" false) true None] (s, [], ∅, ∅) in
  let c := mkClient (dom (participants s)) (seq s) false in
  un1 = {["ann"]} /\ roster (fold_left hear ns1 c) = {["ann"; "bob"]} /\ dom (participants s1) = {["bob"]}
  /\ un2 = {["ann"]} /\ roster (fold_left hear ns2 c) = {["bob"]} /\ dom (participants s2) = {["ann"; "bob"]}.
Proof. vm_compute. done. Qed.

(** A snapshot that is not taken in one piece can miss somebody for good: if [b] joins
    between the reading of the roster and the reading of the version, the snapshot has the
    version of [b]'s joining but not [b], and the notice of it is dropped as old. *)
Theorem room_snapshot_race :
  let s := (join (a_member "a" false) false None (new 1)).1.1 in
  let '(s', ns, _) := join (a_member "b" false) false None s in
  let snap := snapshot_of (fun s => (join (a_member "b" false) false None s).1.1) s in
  let c := fold_left hear ns (mkClient (dom snap.1) snap.2 false) in
  roster c = {["a"]} /\ gap c = false /\ cseq c = seq s' /\ dom (participants s') = {["a"; "b"]}.
Proof. vm_compute. done. Qed.

(** ** How long a room lives *)

(** What happens to a room, with the time of each; a sweep runs at its time. *)
Definition timed (r : RoomInit) (s : RoomState) (x : Z * Op) : RoomState :=
  (op r (match x.2 with OpSweep _ => OpSweep x.1 | o => o end) s).1.

(** When the room last had a member. *)
Definition occupied (r : RoomInit) (so : RoomState * option Z) (x : Z * Op) : RoomState * option Z :=
  let s' := timed r so.1 x in
  (s', if bool_decide (members so.1 = ∅) && bool_decide (members s' = ∅) then so.2 else Some x.1).

Record lives (created now : Z) (s : RoomState) (occ : option Z) : Prop := {
  l_unused : ever_joined s = false -> members s = ∅ /\ empty_since s = created /\ occ = None;
  l_used : ever_joined s = true -> exists t, occ = Some t /\ t <= now /\ (empty_since s = 0 \/ t <= empty_since s <= now);
  l_members : ever_joined s = true -> empty_since s <> 0 -> members s = ∅ }.

Lemma lives_same created now t s s' occ : lives created now s occ -> now <= t ->
  ever_joined s' = ever_joined s -> empty_since s' = empty_since s -> (members s = ∅ -> members s' = ∅) ->
  lives created t s' (if bool_decide (members s = ∅) && bool_decide (members s' = ∅) then occ else Some t).
Proof.
  intros [H1 H2 H3] Hle Ej Ee Hm. destruct (decide (members s = ∅)) as [E|E].
  - rewrite bool_decide_true by done. rewrite bool_decide_true by auto. cbn [andb]. split; rewrite Ej, Ee; [naive_solver| |auto].
    intros Hj. destruct (H2 Hj) as (t0 & -> & ? & ?). exists t0. split; [done|]. lia.
  - rewrite bool_decide_false by done. cbn [andb]. assert (He : ever_joined s = true -> empty_since s = 0).
    { intros Hj. destruct (decide (empty_since s = 0)); [done|]. by destruct E; apply H3. }
    split; rewrite Ej, Ee.
    + intros Hj. by destruct (H1 Hj).
    + intros Hj. exists t. split; [done|]. split; [lia|]. left. auto.
    + intros Hj Hn. by destruct Hn; auto.
Qed.

Lemma lives_sweep r created now t s occ : lives created now s occ -> now <= t ->
  lives created t (ttl_due r t s).1 (if bool_decide (members s = ∅) then occ else Some t).
Proof.
  intros H Hle. pose proof (lives_same created now t s s occ H Hle eq_refl eq_refl (fun x => x)) as Hs. rewrite andb_diag in Hs.
  destruct H as [H1 H2 H3]. unfold ttl_due. destruct (decide (members s = ∅)) as [E|E].
  - rewrite bool_decide_true in * by done. cbn [negb]. destruct (ever_joined s && (empty_since s =? 0)) eqn:Eb.
    + apply andb_true_iff in Eb as [Ej _]. cbn [fst]. split; cbn [ever_joined empty_since members]; [congruence| |done].
      intros _. destruct (H2 Ej) as (t0 & -> & ? & ?). exists t0. split; [done|]. split; [lia|]. right. lia.
    + clear Eb. by destruct ((if ever_joined s then _ else _) =? PERMANENT).
  - rewrite bool_decide_false in * by done. cbn [negb fst]. split; cbn [ever_joined empty_since members]; [|intros _|done].
    + intros Hj. by destruct (H1 Hj).
    + exists t. split; [done|]. split; [lia|by left].
Qed.

Lemma lives_step r created now x s occ : lives created now s occ -> now <= x.1 ->
  lives created x.1 (occupied r (s, occ) x).1 (occupied r (s, occ) x).2.
Proof.
  intros H Hle. unfold occupied, timed. destruct x as [t o]. cbn [fst snd] in *. destruct o as [m rejoin token|u|u| |u p|n|]; cbn [op].
  - rewrite andb_comm, bool_decide_false by (cbn; apply insert_non_empty). cbn [join fst snd andb]. split; cbn [ever_joined empty_since members]; try done.
    intros _. exists t. split; [done|]. split; [lia|by left].
  - apply (lives_same _ _ _ _ _ _ H Hle); try done. cbn. intros ->. apply delete_empty.
  - by apply (lives_same _ _ _ _ _ _ H Hle).
  - by apply (lives_same _ _ _ _ _ _ H Hle).
  - cbn [fst]. unfold set_permission. destruct (members s !! u) as [m|] eqn:E; [|by apply (lives_same _ _ _ _ _ _ H Hle)].
    destruct (bool_decide (permission m = p)); [by apply (lives_same _ _ _ _ _ _ H Hle)|]. apply (lives_same _ _ _ _ _ _ H Hle); try done.
    intros E0. by rewrite E0 in E.
  - cbn [fst]. assert (Em : members (ttl_due r t s).1 = members s).
    { unfold ttl_due. destruct (negb _); [done|]. destruct (_ && _); [done|]. by destruct (_ =? _). }
    rewrite Em, andb_diag. by eapply lives_sweep.
  - by apply (lives_same _ _ _ _ _ _ H Hle).
Qed.

Lemma lives_run r created xs : forall now s occ, lives created now s occ -> StronglySorted Z.le (now :: map fst xs) ->
  let so := fold_left (occupied r) xs (s, occ) in exists now', lives created now' so.1 so.2 /\ Forall (fun t => t <= now') (now :: map fst xs) /\
    (now' = now \/ now' ∈ map fst xs).
Proof.
  induction xs as [|x xs IH]; intros now s occ H Hs; cbn [fold_left map].
  { exists now. split; [done|]. split; [by constructor|by left]. }
  cbn [map] in Hs. apply StronglySorted_inv in Hs as [Hs Hf]. apply Forall_cons in Hf as [Hx _].
  pose proof (lives_step r created now x s occ H Hx) as H'. destruct (occupied r (s, occ) x) as [s' occ'] eqn:E.
  destruct (IH x.1 s' occ' H' Hs) as (now' & A & B & C). exists now'. split; [done|]. split.
  - constructor; [|done]. apply Forall_cons in B as [B _]. lia.
  - right. destruct C as [->|C]; set_solver.
Qed.

(** A room is never taken away from under somebody, nor too early: when a sweep finds it
    due, it has no members, it is not permanent, and the time allowed has passed in full,
    since the room was made if nobody ever came, and else since the last moment it had a
    member.  And it is taken away: two sweeps of the empty room that far apart suffice. *)
Theorem room_ttl_respected r created xs now :
  StronglySorted Z.le (0 :: created :: map fst xs ++ [now]) ->
  let so := fold_left (occupied r) xs (new created, None) in
  let s := so.1 in
  ((ttl_due r now s).2 = true -> members s = ∅ /\
     match so.2 with
     | None => unused_ttl r <> PERMANENT /\ unused_ttl r * 1000 <= now - created
     | Some t => departure_ttl r <> PERMANENT /\ departure_ttl r * 1000 <= now - t
     end) /\
  (forall t2, members s = ∅ -> 0 < now -> let ttl := if ever_joined s then departure_ttl r else unused_ttl r in
     ttl <> PERMANENT -> now + ttl * 1000 <= t2 -> (ttl_due r t2 (ttl_due r now s).1).2 = true).
Proof.
  intros Hs so s. apply StronglySorted_inv in Hs as [Hs H0]. apply Forall_cons in H0 as [H0 _].
  change (created :: map fst xs ++ [now]) with ((created :: map fst xs) ++ [now]) in Hs.
  assert (Hs1 : StronglySorted Z.le (created :: map fst xs) /\ Forall (fun t => t <= now) (created :: map fst xs)).
  { generalize dependent (created :: map fst xs). intros l Hl. induction l as [|y l IH]; [by repeat constructor|]. cbn [app] in Hl.
    apply StronglySorted_inv in Hl as [Hl Hy]. apply Forall_app in Hy as [Hy Hn]. inversion Hn; subst. destruct (IH Hl). split; by constructor. }
  destruct Hs1 as [Hs1 Hn]. assert (Hl : lives created created (new created) None) by (split; done).
  destruct (lives_run r created xs created (new created) None Hl Hs1) as (t' & [L1 L2 L3] & _ & Ht'). fold so in L1, L2, L3. fold s in L1, L2, L3.
  assert (Htn : t' <= now) by (rewrite Forall_forall in Hn; apply Hn; set_solver).
  assert (Hcn : created <= now) by (by apply Forall_cons in Hn as [? _]).
  unfold ttl_due. destruct (decide (members s = ∅)) as [E|E].
  2:{ rewrite bool_decide_false by done. cbn. split; [done|]. intros t2 Hm. by destruct E. }
  rewrite bool_decide_true by done. cbn [negb]. destruct (ever_joined s) eqn:Ej; cbn [andb].
  - destruct (L2 eq_refl) as (t & -> & Ht & He). destruct (Z.eqb_spec (empty_since s) 0) as [E0|E0]; cbn [fst snd].
    + split; [done|]. intros t2 _ Hp Httl Ht2. cbn [members ever_joined empty_since]. rewrite E, bool_decide_true by done. rewrite ?Ej. cbn [negb andb].
      rewrite (proj2 (Z.eqb_neq now 0)), (proj2 (Z.eqb_neq _ _) Httl) by lia. cbn [snd]. apply Z.leb_le. unfold sat_sub. lia.
    + destruct (Z.eqb_spec (departure_ttl r) PERMANENT) as [Hp|Hp]; cbn [fst snd]; (split; [|intros t2 _ H1 Httl Ht2]); try done.
      * intros Hd%Z.leb_le. split; [done|]. split; [done|]. unfold sat_sub in Hd. lia.
      * rewrite bool_decide_true by done. rewrite ?Ej. cbn [negb andb]. rewrite (proj2 (Z.eqb_neq _ _) E0), (proj2 (Z.eqb_neq _ _) Hp). cbn [snd]. apply Z.leb_le. unfold sat_sub. lia.
  - destruct (L1 eq_refl) as (_ & Hes & ->). destruct (Z.eqb_spec (unused_ttl r) PERMANENT) as [Hp|Hp]; cbn [fst snd]; (split; [|intros t2 _ H1 Httl Ht2]); try done.
    + intros Hd%Z.leb_le. split; [done|]. split; [done|]. rewrite Hes in Hd. unfold sat_sub in Hd. lia.
    + rewrite bool_decide_true by done. rewrite ?Ej. cbn [negb andb]. rewrite (proj2 (Z.eqb_neq _ _) Hp). cbn [snd]. apply Z.leb_le. rewrite Hes. unfold sat_sub. lia.
Qed.

Lemma room_ttl_respected_witness :
  let so := fold_left (occupied a_room) [(10, OpJoin (a_member "a" false) false None); (20, OpRemove "a"); (25, OpSweep 0)] (new 1, None) in
  (ttl_due a_room 30025 so.1).2 = true /\ so.2 = Some 20 /\ 30 * 1000 <= 30025 - 20.
Proof.
  assert (Hs : StronglySorted Z.le (0 :: 1 :: map fst [(10, OpJoin (a_member "a" false) false None); (20, OpRemove "a"); (25, OpSweep 0)] ++ [30025])).
  { cbn. repeat (constructor; [|repeat (constructor; [lia|]); constructor]). constructor. }
  destruct (room_ttl_respected a_room 1 _ 30025 Hs) as [H _]. split; [vm_compute; reflexivity|].
  destruct H as [_ H]; [vm_compute; reflexivity|]. assert (E : (fold_left (occupied a_room) [(10, OpJoin (a_member "a" false) false None); (20, OpRemove "a"); (25, OpSweep 0)] (new 1, None)).2 = Some 20) by (vm_compute; reflexivity).
  rewrite E in H. split; [exact E|]. apply H.
Defined.

End Room.
