(* ===== verification/Tracks.v ===== *)
(** * Codecs, key frames and what may be published where

    crates/oxsfud/src/trk/mod.rs: the codec registry, the check of a track against a room's
    codecs and the key-frame detectors; crates/oxsfud/src/aff/mod.rs: the check that is made
    when a publisher moves to another room. *)

From Stdlib Require Import Ascii.
From S2P Require Import Prelude Utf8 Keyexpr Room.

Module Trk.

Inductive Kind := Audio | Video.
#[export] Instance Kind_eq_dec : EqDecision Kind. Proof. solve_decision. Defined.
Inductive Source := Camera | Screen.
Inductive Duplex := Full | Half.
#[export] Instance Duplex_eq_dec : EqDecision Duplex. Proof. solve_decision. Defined.

Definition SUPPORTED_VIDEO : list string := ["VP8"; "H264"].
Definition DEFAULT_AUDIO : string := "opus".
Definition DEFAULT_VIDEO : string := "H264".
Definition ROOM_H264_PROFILE : string := "42e0".
Definition SCALABILITY : string := "L2T1".
Definition FMTP_H264 : string := "level-asymmetry-allowed=1;packetization-mode=1;profile-level-id=42e01f".
Definition FMTP_OPUS : string := "minptime=10;useinbandfec=1".

Record MediaCodecs := mkCodecs { audio : option string; video : option string }.

(** ** Strings *)

Definition lower_byte (b : byte) : byte := if (65 <=? bz b) && (bz b <=? 90) then zb (bz b + 32) else b.
Definition to_ascii_lowercase (s : string) : string := bs (map lower_byte (sb s)).
Definition eq_ignore_ascii_case (a b : string) : bool := String.eqb (to_ascii_lowercase a) (to_ascii_lowercase b).

(** [str::trim]: white space of Unicode, in UTF-8. *)
Definition white (l : list byte) : option (list byte) :=
  match l with
  | x09 :: r | x0a :: r | x0b :: r | x0c :: r | x0d :: r | x20 :: r => Some r
  | xc2 :: x85 :: r | xc2 :: xa0 :: r => Some r
  | xe1 :: x9a :: x80 :: r => Some r
  | xe2 :: x80 :: b :: r => if ((0x80 <=? bz b) && (bz b <=? 0x8a)) || (bz b =? 0xa8) || (bz b =? 0xa9) || (bz b =? 0xaf) then Some r else None
  | xe2 :: x81 :: x9f :: r => Some r
  | xe3 :: x80 :: x80 :: r => Some r
  | _ => None
  end.
Definition white_back (l : list byte) : option (list byte) :=
  match l with
  | x09 :: r | x0a :: r | x0b :: r | x0c :: r | x0d :: r | x20 :: r => Some r
  | x85 :: xc2 :: r | xa0 :: xc2 :: r => Some r
  | x80 :: x9a :: xe1 :: r => Some r
  | b :: x80 :: xe2 :: r => if ((0x80 <=? bz b) && (bz b <=? 0x8a)) || (bz b =? 0xa8) || (bz b =? 0xa9) || (bz b =? 0xaf) then Some r else None
  | x9f :: x81 :: xe2 :: r => Some r
  | x80 :: x80 :: xe3 :: r => Some r
  | _ => None
  end.
Fixpoint strip_white (w : list byte -> option (list byte)) (fuel : nat) (l : list byte) : list byte :=
  match fuel with O => l | S fuel => match w l with Some r => strip_white w fuel r | None => l end end.
Definition trim (s : string) : string :=
  let l := sb s in
  let l := strip_white white (length l) l in
  bs (rev (strip_white white_back (length l) (rev l))).

(** [&s[..n]]: [None] when it panics, because [n] is inside a character or behind the end. *)
Definition str_prefix (n : nat) (s : string) : option string :=
  let l := sb s in
  if (length l <? n)%nat then None
  else if match drop n l with b :: _ => Utf8.cont b | [] => false end then None
  else Some (bs (take n l)).

(** ** The registry *)

Definition canonical_video (name : string) : option string := List.find (fun c => eq_ignore_ascii_case c name) SUPPORTED_VIDEO.

Definition row_fmtp (codec : string) : option string :=
  if eq_ignore_ascii_case codec "H264" then Some FMTP_H264
  else if eq_ignore_ascii_case codec "opus" then Some FMTP_OPUS
  else None.

Definition room_video (m : MediaCodecs) : string := default DEFAULT_VIDEO (video m).

(** The codec and the parameters a refusal carries. *)
Definition mismatch (k : Kind) (room : MediaCodecs) : string * option string :=
  let codec := match k with Audio => default DEFAULT_AUDIO (audio room) | Video => room_video room end in
  (codec, row_fmtp codec).

Definition fmtp_param (fmtp : option string) (key : string) : option string :=
  let? f := fmtp in
  head (omap (fun kv =>
    let? (k, v) := Kx.cut "="%char (trim kv) in
    if eq_ignore_ascii_case (trim k) key then Some (trim v) else None) (Kx.split ";"%char f)).

(** [None] when the slice panics. *)
Definition h264_profile (fmtp : option string) : option (option string) :=
  match fmtp_param fmtp "profile-level-id" with
  | Some p => if (4 <=? length (sb p))%nat then (fun x => Some (to_ascii_lowercase x)) <$> str_prefix 4 p else Some None
  | None => Some None
  end.

Definition resolve_room_codecs (req : option MediaCodecs) : option MediaCodecs :=
  let? a := match (let? m := req in audio m) with
            | None => Some DEFAULT_AUDIO
            | Some a => if eq_ignore_ascii_case a "opus" then Some DEFAULT_AUDIO else None
            end in
  let? v := match (let? m := req in video m) with
            | None => Some DEFAULT_VIDEO
            | Some v => canonical_video v
            end in
  Some (mkCodecs (Some a) (Some v)).

(** [None] when [h264_profile] panics. *)
Definition matches_room (k : Kind) (codec fmtp : option string) (room : MediaCodecs) : option bool :=
  match k with
  | Audio => Some (match codec with Some c => eq_ignore_ascii_case c "opus" | None => true end)
  | Video =>
    let! c := (let? c := codec in canonical_video c) else Some false in
    if negb (eq_ignore_ascii_case c (room_video room)) then Some false
    else if String.eqb c "H264" then
      let pm := default "0" (fmtp_param fmtp "packetization-mode") in
      if String.eqb pm "1" then
        (fun p => match p with Some p => String.eqb p ROOM_H264_PROFILE | None => false end) <$> h264_profile fmtp
      else Some false
    else Some true
  end.

(** ** Key frames *)

Definition vp8_key (p : list byte) : bool :=
  match p with
  | [] => false
  | b0 :: r =>
    if (Z.land (bz b0) 0x10 =? 0) || negb (Z.land (bz b0) 0x07 =? 0) then false
    else
      let first l := match l with h :: _ => Z.land (bz h) 0x01 =? 0 | [] => false end in
      if negb (Z.land (bz b0) 0x80 =? 0) then
        match r with
        | [] => false
        | x :: r =>
          let skip (b : bool) (l : list byte) := if b then drop 1 l else l in
          let rest :=
            if negb (Z.land (bz x) 0x80 =? 0) then
              match r with
              | [] => None
              | pid :: r' => Some (if negb (Z.land (bz pid) 0x80 =? 0) then drop 1 r' else r')
              end
            else Some r in
          match rest with
          | None => false
          | Some r => first (skip (negb (Z.land (bz x) 0x30 =? 0)) (skip (negb (Z.land (bz x) 0x40 =? 0)) r))
          end
        end
      else first r
  end.

Definition h264_nal_key (t : Z) : bool := (t =? 5) || (t =? 7).

(** The loop over the units of an aggregate, from byte [i] on. *)
Fixpoint stap_loop (fuel : nat) (p : list byte) : bool :=
  match fuel with
  | O => false
  | S fuel =>
    match p with
    | n1 :: n0 :: h :: _ =>
      if h264_nal_key (Z.land (bz h) 0x1f) then true
      else stap_loop fuel (drop (2 + Z.to_nat (from_be [n1; n0])) p)
    | _ => false
    end
  end.

Definition h264_key (p : list byte) : bool :=
  match p with
  | [] => false
  | b0 :: r =>
    let t := Z.land (bz b0) 0x1f in
    if t =? 24 then stap_loop (length r) r
    else if t =? 28 then match r with h :: _ => negb (Z.land (bz h) 0x80 =? 0) && h264_nal_key (Z.land (bz h) 0x1f) | [] => false end
    else h264_nal_key t
  end.

Definition is_keyframe (codec : string) (p : list byte) : bool :=
  if eq_ignore_ascii_case codec "VP8" then vp8_key p
  else if eq_ignore_ascii_case codec "H264" then h264_key p
  else false.

Example keyframes :
  is_keyframe "VP8" [x10; x00] && negb (is_keyframe "VP8" [x10; x01]) && is_keyframe "VP8" [x90; x80; x12; x00] && is_keyframe "H264" [x65]
  && is_keyframe "H264" [x7c; x85] && negb (is_keyframe "H264" [x7c; x05]) && is_keyframe "H264" [x18; x00; x02; x67; x42]
  && negb (is_keyframe "H264" [x41]) = true.
Proof. vm_compute. reflexivity. Qed.

(** ** Moving to another room *)

(** [PubStream], less the transport's side of it (m-line, payload types, SSRCs, rows). *)
Record Stream := mkStream {
  track_id : string; user : string; kind : Kind; codec : option string; fmtp : option string; source : option Source;
  simulcast : bool; duplex : Duplex; muted : bool; room : string; listed_flag : bool }.

Definition bit_allows (p : Room.Permission) (k : Kind) (src : option Source) : bool :=
  match k, src with
  | Audio, _ => Room.publish_audio p
  | Video, Some Screen => Room.publish_screen p
  | Video, _ => Room.publish_video p
  end.

Definition bit_name (k : Kind) (src : option Source) : string :=
  match k, src with
  | Audio, _ => "publish_audio"
  | Video, Some Screen => "publish_screen"
  | Video, _ => "publish_video"
  end.

Inductive Failure := CodecMismatch (d : string * option string) | NotAuthorized (denied : list string).

Definition codec_or (s : Stream) : option string :=
  match codec s with Some c => Some c | None => Some (match kind s with Audio => "opus" | Video => "" end) end.

(** The first loop of [recheck]; [None] when it panics. *)
Fixpoint recheck_codecs (room : MediaCodecs) (ss : list Stream) : option (option Failure) :=
  match ss with
  | [] => Some None
  | s :: ss =>
    let? ok := matches_room (kind s) (codec_or s) (fmtp s) room in
    if ok then recheck_codecs room ss else Some (Some (CodecMismatch (mismatch (kind s) room)))
  end.

Definition recheck (room : MediaCodecs) (st : Room.RoomState) (user : string) (ss : list Stream) (token : option Room.Permission) : option (result unit Failure) :=
  let? bad := recheck_codecs room ss in
  match bad with
  | Some f => Some (Err f)
  | None =>
    let p := Room.permission_for user token st in
    match omap (fun s => if bit_allows p (kind s) (source s) then None else Some (bit_name (kind s) (source s))) ss with
    | [] => Some (Ok tt)
    | denied => Some (Err (NotAuthorized denied))
    end
  end.

(** ** The list of tracks of a room *)

Definition is_half (s : Stream) : bool := bool_decide (duplex s = Half).

Definition codec_name (s : Stream) : string := match kind s with Audio => "opus" | Video => default "" (codec s) end.

Definition kind_str (k : Kind) : string := match k with Audio => "audio" | Video => "video" end.

Inductive TrackEntryType := Individual | Slot.

Record TrackEntry := mkEntry {
  type_ : TrackEntryType; e_room_id : string; e_track_id : string; e_kind : Kind; e_codec : option string; e_fmtp : option string;
  e_user_id : option string; e_source : option Source; e_active : option bool; e_muted : option bool;
  e_simulcast : option bool; e_scalability : option string }.

Definition slot_track_id (room : string) (k : Kind) : string := "ptt-" +:+ room +:+ "-" +:+ kind_str k.

Definition slot_entries (room : string) (codecs : MediaCodecs) : list TrackEntry :=
  map (fun k =>
    let codec := match k with Audio => None | Video => Some (room_video codecs) end in
    mkEntry Slot room (slot_track_id room k) k codec (let? c := codec in row_fmtp c) None None None None None None) [Audio; Video].

Definition entry (s : Stream) : TrackEntry :=
  mkEntry Individual (room s) (track_id s) (kind s) (match kind s with Video => Some (codec_name s) | Audio => None end) (fmtp s)
    (Some (user s)) (source s) (Some (negb (is_half s))) (Some (muted s)) (Some (simulcast s))
    (if simulcast s then Some SCALABILITY else None).

Definition listed (s : Stream) (r : string) : bool := listed_flag s && String.eqb (room s) r.

(** [sort_by] on [track_id]: stable, byte by byte. *)
Fixpoint place (e : TrackEntry) (l : list TrackEntry) : list TrackEntry :=
  match l with
  | [] => [e]
  | x :: l => if String.leb (e_track_id e) (e_track_id x) then e :: x :: l else x :: place e l
  end.
Definition sort_entries (l : list TrackEntry) : list TrackEntry := foldr place [] l.

Definition room_entries (r : string) (codecs : MediaCodecs) (streams : list Stream) : list TrackEntry :=
  slot_entries r codecs ++ sort_entries (map entry (List.filter (fun s => listed s r) streams)).

(** ** H.264 payloads, as RFC 6184 builds them

    A unit is its header byte and the rest; it is sent alone, in an aggregate (STAP-A) or in
    fragments (FU-A). *)

Definition Nal := (byte * list byte)%type.
Definition nal_bytes (n : Nal) : list byte := n.1 :: n.2.
Definition nal_type (n : Nal) : Z := Z.land (bz n.1) 0x1f.
Definition nal_key (n : Nal) : bool := h264_nal_key (nal_type n).

Inductive Packing :=
  | Single (n : Nal)
  | StapA (ind : byte) (ns : list Nal)
  | FuA (ind : byte) (n : Nal) (c : list byte) (cs : list (list byte)).

Definition ends (cs : list (list byte)) : bool := match cs with [] => true | _ => false end.

(** The fragments behind the first one: the end bit is on the last. *)
Fixpoint fu_rest (ind : byte) (t : Z) (cs : list (list byte)) : list (list byte) :=
  match cs with
  | [] => []
  | c :: cs => (ind :: zb ((if ends cs then 64 else 0) + t) :: c) :: fu_rest ind t cs
  end.

Definition stap_unit (n : Nal) : list byte := be 2 (len (nal_bytes n)) ++ nal_bytes n.

Definition packets (p : Packing) : list (list byte) :=
  match p with
  | Single n => [nal_bytes n]
  | StapA ind ns => [ind :: mjoin (map stap_unit ns)]
  | FuA ind n c cs => (ind :: zb (128 + (if ends cs then 64 else 0) + nal_type n) :: c) :: fu_rest ind (nal_type n) cs
  end.

Definition units (p : Packing) : list Nal :=
  match p with Single n => [n] | StapA _ ns => ns | FuA _ n _ _ => [n] end.

Definition packing_ok (p : Packing) : bool :=
  match p with
  | Single n => (1 <=? nal_type n) && (nal_type n <=? 23)
  | StapA ind ns => (Z.land (bz ind) 0x1f =? 24) && forallb (fun n => len (nal_bytes n) <? 65536) ns
  | FuA ind n c cs => (Z.land (bz ind) 0x1f =? 28) && bool_decide (mjoin (c :: cs) = n.2)
  end.

Lemma be2_two z : exists a b, be 2 z = [a; b].
Proof. eexists _, _. reflexivity. Qed.

Lemma stap_loop_exact fuel ns :
  (length (mjoin (map stap_unit ns)) <= fuel)%nat ->
  forallb (fun n => len (nal_bytes n) <? 65536) ns = true ->
  stap_loop fuel (mjoin (map stap_unit ns)) = existsb nal_key ns.
Proof.
  revert fuel. induction ns as [|n ns IH]; intros fuel Hf Hl; [by destruct fuel|].
  simpl in Hl. apply andb_true_iff in Hl as [Hn Hl]. apply Z.ltb_lt in Hn.
  assert (Hb : from_be (be 2 (len (nal_bytes n))) = len (nal_bytes n)).
  { apply from_be_be_u16. pose proof (len_nonneg (nal_bytes n)). ulia. }
  cbn [map mjoin list_join] in *. unfold stap_unit at 1 in Hf. unfold stap_unit at 1. rewrite !length_app, length_be in Hf.
  destruct (be2_two (len (nal_bytes n))) as (a & b & Eab). rewrite Eab in *.
  destruct n as [h t]. unfold nal_bytes in *. simpl in Hf |- *.
  destruct fuel as [|fuel]; [lia|]. cbn [stap_loop].
  unfold nal_key at 1, nal_type. cbn [fst]. destruct (h264_nal_key _); [done|]. cbn [orb].
  rewrite Hb. unfold len. rewrite Nat2Z.id. simpl length. cbn [drop Nat.add].
  rewrite drop_app_len. rewrite ?length_app in Hf. apply IH; [eapply Nat.le_trans; [|apply le_S_n, Hf]; do 2 apply le_S; apply Nat.le_add_l|done].
Qed.

Lemma nal_type_range n : 0 <= nal_type n < 32.
Proof.
  unfold nal_type. change 0x1f with (Z.ones 5). rewrite Z.land_ones by lia.
  apply Z.mod_pos_bound. lia.
Qed.

Lemma fu_header (s e : bool) t : 0 <= t < 32 ->
  let h := bz (zb ((if s then 128 else 0) + (if e then 64 else 0) + t)) in
  negb (Z.land h 0x80 =? 0) = s /\ Z.land h 0x1f = t.
Proof.
  intros Ht. assert (In t (map Z.of_nat (seq 0 32))) as Hin.
  { apply in_map_iff. exists (Z.to_nat t). split; [lia|]. apply in_seq. lia. }
  clear Ht. cbv zeta. simpl in Hin.
  repeat (destruct Hin as [<-|Hin]; [destruct s, e; vm_compute; done|]). done.
Qed.

Lemma fu_rest_not_key ind t cs : 0 <= t < 32 -> Z.land (bz ind) 0x1f = 28 ->
  map h264_key (fu_rest ind t cs) = repeat false (length cs).
Proof.
  intros Ht Hi. induction cs as [|c cs IH]; [done|].
  cbn [fu_rest map length repeat]. f_equal; [|exact IH].
  unfold h264_key. rewrite Hi. cbn [Z.eqb Pos.eqb].
  destruct (fu_header false (ends cs) t Ht) as [Hs _].
  rewrite Z.add_0_l in Hs. by rewrite Hs.
Qed.

(** A key frame is announced exactly once: of the packets a sender makes of a set of H.264
    units, alone, aggregated or in fragments, only the first can be taken for the start of
    a key frame, and it is when, and only when, one of the units is an IDR slice or a
    sequence parameter set. *)
Theorem h264_key_exact p :
  packing_ok p = true ->
  map h264_key (packets p) = existsb nal_key (units p) :: repeat false (length (packets p) - 1).
Proof.
  destruct p as [n|ind ns|ind n c cs]; cbn [packing_ok packets units]; intros H.
  - destruct n as [h t]. unfold nal_bytes. cbn [map fst snd length Nat.sub repeat existsb].
    rewrite orb_false_r. f_equal. unfold h264_key, nal_key. unfold nal_type in *. cbn [fst] in *.
    apply andb_true_iff in H as [H1 H2]. apply Z.leb_le in H1, H2.
    destruct (Z.eqb_spec (Z.land (bz h) 31) 24); [lia|]. destruct (Z.eqb_spec (Z.land (bz h) 31) 28); [lia|done].
  - apply andb_true_iff in H as [H1 H2]. apply Z.eqb_eq in H1.
    cbn [map length Nat.sub repeat]. f_equal. unfold h264_key. rewrite H1. cbn [Z.eqb Pos.eqb].
    by apply stap_loop_exact.
  - apply andb_true_iff in H as [H1 _]. apply Z.eqb_eq in H1. pose proof (nal_type_range n) as Ht.
    cbn [map existsb]. rewrite orb_false_r, (fu_rest_not_key ind _ cs Ht H1). f_equal.
    + unfold h264_key. rewrite H1. cbn [Z.eqb Pos.eqb].
      destruct (fu_header true (ends cs) _ Ht) as [Hs Ht'].
      destruct cs; cbn [negb] in *; rewrite Hs, Ht'; done.
    + f_equal. simpl. rewrite Nat.sub_0_r. clear. induction cs; simpl; congruence.
Qed.

Lemma h264_key_exact_witness :
  map h264_key (packets (FuA x7c (x65, [x01; x02; x03]) [x01] [[x02]; [x03]])) = [true; false; false]
  /\ map h264_key (packets (StapA x78 [(x09, [x10]); (x67, [x42; x00]); (x68, [])])) = [true].
Proof. split; (etrans; [apply h264_key_exact; vm_compute; reflexivity|reflexivity]). Defined.

(** ** VP8 payload descriptors, as RFC 7741 builds them *)

Inductive PictureId := Short (m : Z) | Long (m : Z).
Record Vp8Ext := mkExt { pic : option PictureId; tl0 : option byte; tid : option byte }.
Record Vp8Desc := mkDesc { nonref : bool; start : bool; part : Z; vext : option Vp8Ext }.

Definition bit (b : bool) (v : Z) : Z := if b then v else 0.
Definition is_some {A} (o : option A) : bool := match o with Some _ => true | None => false end.
Definition opt_byte (o : option byte) : list byte := match o with Some b => [b] | None => [] end.
Definition pic_bytes (p : option PictureId) : list byte :=
  match p with Some (Short m) => [zb m] | Some (Long m) => be 2 (32768 + m) | None => [] end.

(** [k] tells whether the octet of the temporal layer is there for T or for K. *)
Definition desc_bytes (k : bool) (d : Vp8Desc) : list byte :=
  zb (bit (is_some (vext d)) 128 + bit (nonref d) 32 + bit (start d) 16 + part d) ::
  match vext d with
  | None => []
  | Some x => zb (bit (is_some (pic x)) 128 + bit (is_some (tl0 x)) 64 + bit (is_some (tid x)) (if k then 16 else 32))
              :: pic_bytes (pic x) ++ opt_byte (tl0 x) ++ opt_byte (tid x)
  end.

Definition desc_ok (d : Vp8Desc) : bool :=
  (0 <=? part d) && (part d <? 8) &&
  match vext d with
  | Some x => match pic x with
              | Some (Short m) => (0 <=? m) && (m <? 128)
              | Some (Long m) => (0 <=? m) && (m <? 32768)
              | None => true
              end
  | None => true
  end.

(** The first byte of the frame behind the descriptor: its lowest bit is clear in a key frame. *)
Definition frame_key (frame : list byte) : bool := match frame with h :: _ => Z.land (bz h) 1 =? 0 | [] => false end.

Lemma high_bit b : (Z.land (bz b) 0x80 =? 0) = (bz b <? 128).
Proof. each_byte b. Qed.

Lemma first_octet (x n s : bool) t : 0 <= t < 8 ->
  let b := bz (zb (bit x 128 + bit n 32 + bit s 16 + t)) in
  negb (Z.land b 0x80 =? 0) = x /\ (Z.land b 0x10 =? 0) = negb s /\ (Z.land b 0x07 =? 0) = (t =? 0).
Proof.
  intros Ht. assert (In t (map Z.of_nat (seq 0 8))) as Hin.
  { apply in_map_iff. exists (Z.to_nat t). split; [lia|]. apply in_seq. lia. }
  clear Ht. cbv zeta. simpl in Hin.
  repeat (destruct Hin as [<-|Hin]; [destruct x, n, s; vm_compute; done|]). done.
Qed.

Lemma second_octet (i l t k : bool) :
  let b := bz (zb (bit i 128 + bit l 64 + bit t (if k then 16 else 32))) in
  negb (Z.land b 0x80 =? 0) = i /\ negb (Z.land b 0x40 =? 0) = l /\ negb (Z.land b 0x30 =? 0) = t.
Proof. cbv zeta. destruct i, l, t, k; vm_compute; done. Qed.

(** The reader skips exactly the descriptor: a VP8 payload is taken for the start of a key
    frame when it starts the first partition of a frame (the start bit is set and the
    partition is 0) and the frame's own header says key frame, whichever of the optional
    octets the descriptor has. *)
Theorem vp8_key_exact k d frame :
  desc_ok d = true ->
  vp8_key (desc_bytes k d ++ frame) = start d && (part d =? 0) && frame_key frame.
Proof.
  unfold desc_ok. intros H. apply andb_true_iff in H as [H Hx]. apply andb_true_iff in H as [H1 H2].
  destruct d as [n s t [x|]]; cbn [part start vext nonref desc_bytes app vp8_key is_some] in *;
    (destruct (first_octet true n s t ltac:(lia)) as (Ax & As & At); destruct (first_octet false n s t ltac:(lia)) as (Bx & Bs & Bt)).
  - cbv zeta in Ax, As, At. rewrite As, At, Ax.
    destruct s; [|done]. destruct (t =? 0); [|done]. cbn [negb orb andb].
    destruct x as [pi l td]. cbn [pic tl0 tid] in *.
    destruct (second_octet (is_some pi) (is_some l) (is_some td) k) as (C1 & C2 & C3). cbv zeta in C1, C2, C3.
    rewrite C1, C2, C3. destruct pi as [[m|m]|]; cbn [is_some pic_bytes app be].
    + rewrite high_bit, bz_zb_id by lia. replace (m <? 128) with true by lia. destruct l, td; done.
    + rewrite high_bit, bz_zb_id by (Z.to_euclidean_division_equations; lia).
      replace ((32768 + m) / 256 <? 128) with false by (Z.to_euclidean_division_equations; lia). destruct l, td; done.
    + destruct l, td; done.
  - cbv zeta in Bx, Bs, Bt. rewrite Bs, Bt, Bx. destruct s; [|done]. destruct (t =? 0); done.
Qed.

Lemma vp8_key_exact_witness :
  vp8_key (desc_bytes false (mkDesc true true 0 (Some (mkExt (Some (Long 4711)) (Some x07) (Some x40)))) ++ [x10; x02]) = true.
Proof. rewrite vp8_key_exact; vm_compute; reflexivity. Defined.

(** ** Who may publish what *)

(** What [recheck] promises: every stream fits the room's codecs and the user holds its bit. *)
Definition fits (room : MediaCodecs) (s : Stream) : bool :=
  match matches_room (kind s) (codec_or s) (fmtp s) room with Some b => b | None => false end.
Definition permits (st : Room.RoomState) (user : string) (token : option Room.Permission) (s : Stream) : bool :=
  bit_allows (Room.permission_for user token st) (kind s) (source s).

Lemma recheck_codecs_spec room ss r :
  recheck_codecs room ss = Some r ->
  r = (fun s => CodecMismatch (mismatch (kind s) room)) <$> List.find (fun s => negb (fits room s)) ss.
Proof.
  induction ss as [|s ss IH]; simpl; [by intros [= <-]|]. unfold fits.
  destruct (matches_room _ _ _ _) as [[]|]; [exact IH| |done]. by intros [= <-].
Qed.

Lemma denied_nil st user token ss :
  omap (fun s => if bit_allows (Room.permission_for user token st) (kind s) (source s) then None else Some (bit_name (kind s) (source s))) ss = []
  <-> forallb (permits st user token) ss = true.
Proof.
  induction ss as [|s ss IH]; [done|]. simpl. unfold permits at 1.
  destruct (bit_allows _ _ _); [exact IH|]. done.
Qed.

Lemma find_none_forallb {A} (f : A -> bool) l : List.find (fun x => negb (f x)) l = None <-> forallb f l = true.
Proof. induction l as [|x l IH]; [done|]. simpl. destruct (f x); [exact IH|]. done. Qed.

(** Moving the published streams to another room is accepted exactly when every stream fits
    the codecs of that room and the user has the permission bit of every stream there; a
    codec that does not fit is reported before a permission that is missing, with the
    codec of the room the first such stream should have had. *)
Theorem recheck_exact room st user ss token r :
  recheck room st user ss token = Some r ->
  (r = Ok tt <-> forallb (fits room) ss = true /\ forallb (permits st user token) ss = true)
  /\ (forall s, List.find (fun s => negb (fits room s)) ss = Some s -> r = Err (CodecMismatch (mismatch (kind s) room)))
  /\ (forall ds, r = Err (NotAuthorized ds) -> forallb (fits room) ss = true /\ ds <> []
        /\ forall d, d ∈ ds <-> exists s, s ∈ ss /\ permits st user token s = false /\ d = bit_name (kind s) (source s)).
Proof.
  unfold recheck. destruct (recheck_codecs room ss) as [b|] eqn:Eb; [|done]. apply recheck_codecs_spec in Eb.
  pose proof (find_none_forallb (fits room) ss) as Hf. pose proof (denied_nil st user token ss) as Hd.
  destruct (List.find _ ss) as [s|] eqn:Es; simpl in Eb; subst b.
  - intros [= <-]. split_and!; [split; [done|]|by intros ? [= <-]|done]. intros [H _]. by apply Hf in H.
  - destruct Hf as [Hf _]. specialize (Hf eq_refl).
    destruct (omap _ ss) as [|d ds] eqn:Eo; intros [= <-].
    + split_and!; [split; [|done]|done|done]. split; [done|by apply Hd].
    + split_and!; [split; [done|]|done|].
      * intros [_ H]. by apply Hd in H.
      * intros ? [= <-]. split_and!; [done|done|]. intros x. rewrite <- Eo, list_elem_of_omap. unfold permits.
        split; intros (s & ? & H); exists s; [destruct (bit_allows _ _ _); by simplify_eq|].
        destruct H as [-> ->]. done.
Qed.

Definition a_stream (k : Kind) (src : option Source) (c : option string) (f : option string) : Stream :=
  mkStream "t" "u" k c f src false Full false "r" true.
Definition a_state : Room.RoomState :=
  Room.mkState ∅ 0 {["u" := Room.mkPerm true true false true]} 0 true false false.

Lemma recheck_exact_witness :
  exists r, recheck (mkCodecs None None) a_state "u" [a_stream Audio None None None; a_stream Video (Some Screen) (Some "h264") (Some FMTP_H264)] None = Some r
  /\ ~ r = Ok tt.
Proof.
  eexists. split; [vm_compute; reflexivity|].
  pose proof (recheck_exact (mkCodecs None None) a_state "u" [a_stream Audio None None None; a_stream Video (Some Screen) (Some "h264") (Some FMTP_H264)] None _
    ltac:(vm_compute; reflexivity)) as (H & _ & _).
  intros E. apply H in E as [_ E]. vm_compute in E. done.
Defined.

(** The check of a track's codec is not total on the strings a client can send: the level of
    an H.264 profile is cut out of the parameter at byte 4, and where a character of more
    than one byte lies across that place the slice panics. Everything else of the check,
    the length of the parameter included, lets such a string through. *)
Theorem h264_profile_panics :
  exists f, Utf8.valid (sb f) = true
  /\ fmtp_param (Some f) "packetization-mode" = Some "1"
  /\ matches_room Video (Some "H264") (Some f) (mkCodecs None None) = None.
Proof.
  exists (bs (sb "packetization-mode=1;profile-level-id=42e" ++ [xc3; xa9] ++ sb "1f")).
  vm_compute. done.
Qed.

(** ** Lists of tracks *)

Definition by_id (a b : TrackEntry) : Prop := String.leb (e_track_id a) (e_track_id b) = true.

Lemma place_perm e l : place e l ≡ₚ e :: l.
Proof. induction l as [|x l IH]; simpl; [done|]. destruct (String.leb _ _); [done|]. by rewrite IH, Permutation_swap. Qed.

Lemma sort_perm l : sort_entries l ≡ₚ l.
Proof. induction l as [|x l IH]; [done|]. simpl. by rewrite place_perm, IH. Qed.

Lemma place_sorted e l : Sorted by_id l -> Sorted by_id (place e l).
Proof.
  unfold by_id. induction 1 as [|x l Hl IH Hx]; simpl; [by repeat constructor|].
  destruct (String.leb (e_track_id e) (e_track_id x)) eqn:E; [by repeat constructor|].
  destruct (String.leb_total (e_track_id e) (e_track_id x)) as [?|Hle]; [congruence|].
  constructor; [exact IH|]. destruct l as [|y l]; simpl; [by constructor|].
  destruct (String.leb (e_track_id e) (e_track_id y)); constructor; [exact Hle|by inversion Hx].
Qed.

Lemma sort_sorted l : Sorted by_id (sort_entries l).
Proof. induction l; simpl; [constructor|]. by apply place_sorted. Qed.

(** The list of a room starts with its two push-to-talk tracks; behind them are, in the order
    of their ids, exactly the tracks that are published to this room and announced, each of
    them under this room, with its publisher, and active unless it is half duplex. *)
Theorem room_entries_exact r codecs ss :
  exists ind, room_entries r codecs ss = slot_entries r codecs ++ ind
  /\ Sorted by_id ind
  /\ ind ≡ₚ map entry (List.filter (fun s => listed s r) ss)
  /\ forall e, e ∈ ind <-> exists s, s ∈ ss /\ listed_flag s = true /\ room s = r /\ e = entry s.
Proof.
  eexists. split; [reflexivity|]. split; [apply sort_sorted|]. split; [apply sort_perm|].
  intros e. rewrite sort_perm, list_elem_of_In, in_map_iff. setoid_rewrite filter_In. setoid_rewrite list_elem_of_In.
  unfold listed. setoid_rewrite andb_true_iff. setoid_rewrite String.eqb_eq. naive_solver.
Qed.

End Trk.
