(* ===== verification/Sim.v ===== *)
(** * Simulcast: which layer of a stream a subscriber gets

    crates/oxsfud/src/sim/mod.rs: the switching machine of one row ([pass], [retarget],
    [subscribe_layer]). A stream is sent in two layers, 0 and 1, each a track of its own; a
    row forwards one of them at a time. The atomics of a row that belong to the machine are
    [RowSim]; packets reach [pass] through the one worker of the publisher, and only the
    loading of the row writes its layer besides, so [pass] is one step here; a packet that is
    judged while the row is being loaded is not modelled. A request for a key frame
    ([request_pli]) is an output: the track it goes to. *)

From S2P Require Import Prelude.

Module Sim.

Definition LAYER_PAUSE : Z := 255.
Definition PENDING_MS : Z := 10000.
Definition PENDING_PLI_RETRY_MS : Z := 250.
Definition INBAND_MS : Z := 1000.

(** A physical track of a stream: its layer, when it has one, and the time of its last packet. *)
Record Phys := mkPhys { rid : option Z; last_rtp_ms : Z }.

Record RowSim := mkRow {
  layer : Z; target : Z; cap : Z; auto_cap : Z; pending_since : Z; pending_pli_at : Z; paused : bool; priority : Z }.

Definition set_layer v r := mkRow v (target r) (cap r) (auto_cap r) (pending_since r) (pending_pli_at r) (paused r) (priority r).
Definition set_target v r := mkRow (layer r) v (cap r) (auto_cap r) (pending_since r) (pending_pli_at r) (paused r) (priority r).
Definition set_cap v r := mkRow (layer r) (target r) v (auto_cap r) (pending_since r) (pending_pli_at r) (paused r) (priority r).
Definition set_auto_cap v r := mkRow (layer r) (target r) (cap r) v (pending_since r) (pending_pli_at r) (paused r) (priority r).
Definition set_pending_since v r := mkRow (layer r) (target r) (cap r) (auto_cap r) v (pending_pli_at r) (paused r) (priority r).
Definition set_pending_pli_at v r := mkRow (layer r) (target r) (cap r) (auto_cap r) (pending_since r) v (paused r) (priority r).
Definition set_paused v r := mkRow (layer r) (target r) (cap r) (auto_cap r) (pending_since r) (pending_pli_at r) v (priority r).
Definition set_priority v r := mkRow (layer r) (target r) (cap r) (auto_cap r) (pending_since r) (pending_pli_at r) (paused r) v.

(** [DownRow::create], as far as the machine goes. *)
Definition create : RowSim := mkRow LAYER_PAUSE 1 1 1 0 0 false 0.

(** The tracks of a stream, by number. *)
Abbreviation Stream := (list Phys).

Definition sibling (st : Stream) (l : Z) : option nat :=
  List.find (fun i => match st !! i with Some p => bool_decide (rid p = Some l) | None => false end) (seq 0 (length st)).

Definition opt_list {A} (o : option A) : list A := match o with Some x => [x] | None => [] end.

Definition retarget (st : Stream) (now : Z) (r : RowSim) : RowSim * list nat :=
  let want := Z.min (cap r) (auto_cap r) in
  if target r =? want then (r, [])
  else (r |> set_target want |> set_pending_since now, opt_list (sibling st want)).

(** Whether a packet of track [t] goes out on the row. *)
Definition pass (st : Stream) (t : nat) (keyframe : bool) (now : Z) (r : RowSim) : RowSim * bool * list nat :=
  if paused r then (r, false, [])
  else
    let l := default 1 (p ← st !! t; rid p) in
    let cur := layer r in
    let tgt := target r in
    if negb (cur =? tgt) then
      let since := pending_since r in
      if negb (cur =? LAYER_PAUSE) && (PENDING_MS <? sat_sub now since) then (r |> set_target cur, l =? cur, [])
      else if (l =? tgt) && keyframe then (r |> set_layer tgt, true, [])
      else
        let (r, pli) :=
          if negb (tgt =? LAYER_PAUSE) && (PENDING_PLI_RETRY_MS <=? sat_sub now (pending_pli_at r))
          then (r |> set_pending_pli_at now, opt_list (sibling st tgt)) else (r, []) in
        if l =? cur then (r, true, pli)
        else if (cur =? LAYER_PAUSE) && negb (l =? tgt) && keyframe && (PENDING_MS <? sat_sub now since)
        then (r |> set_layer l |> set_target l, true, pli)
        else (r, false, pli)
    else if l =? cur then (r, true, [])
    else
      let silent := match sibling st 1 with Some h => match st !! h with Some p => INBAND_MS <? sat_sub now (last_rtp_ms p) | None => false end | None => false end in
      if (cur =? 1) && (l =? 0) && silent then
        let r := r |> set_target 0 |> set_pending_since now in
        if keyframe then (r |> set_layer 0, true, []) else (r, false, [t])
      else (r, false, []).

Definition subscribe_layer (st : Stream) (any : nat) (spatial : option Z) (pause : option bool) (prio : option Z) (now : Z) (r : RowSim) : RowSim * list nat :=
  let r := match spatial with Some sp => r |> set_cap (Z.min sp 1) | None => r end in
  let r := match prio with Some p => r |> set_priority p | None => r end in
  let (r, pli) :=
    match pause with
    | Some p =>
      let was := paused r in
      let r := r |> set_paused p in
      (r, if was && negb p then [default any (sibling st (Z.min (cap r) (auto_cap r)))] else [])
    | None => (r, [])
    end in
  let (r, pli') := retarget st now r in
  (r, pli ++ pli').

(** ** What a subscriber sees *)

(** What happens to a row: a packet of the stream arrives, the client asks for a layer, the
    estimate of the bandwidth moves the automatic limit, the row is loaded with another stream
    ([apply_changes]). The tracks of the stream may change in between. *)
Inductive Event :=
  | Packet (st : Stream) (t : nat) (keyframe : bool) (now : Z)
  | Ask (st : Stream) (any : nat) (spatial : option Z) (pause : option bool) (prio : option Z) (now : Z)
  | Auto (st : Stream) (level : Z) (now : Z)
  | Load (now : Z).

(** What a subscriber sees: another stream from here on, or a packet with its layer and
    whether it starts a key frame. *)
Inductive Seen := Fresh | Sent (l : Z) (keyframe : bool).

(** The writes of [apply_changes] to a row that is loaded with a stream. *)
Definition loaded (now : Z) (r : RowSim) : RowSim :=
  r |> set_layer LAYER_PAUSE |> set_target (Z.min (cap r) (auto_cap r)) |> set_pending_since now.

Definition event (e : Event) (r : RowSim) : RowSim * list Seen :=
  match e with
  | Packet st t k now =>
    let '(r', sent, _) := pass st t k now r in
    (r', if sent then [Sent (default 1 (p ← st !! t; rid p)) k] else [])
  | Ask st any sp pa pr now => ((subscribe_layer st any sp pa pr now r).1, [])
  | Auto st level now => ((retarget st now (r |> set_auto_cap level)).1, [])
  | Load now => (loaded now r, [Fresh])
  end.

Fixpoint run (es : list Event) (r : RowSim) : RowSim * list Seen :=
  match es with
  | [] => (r, [])
  | e :: es => let (r, o) := event e r in let (r, o') := run es r in (r, o ++ o')
  end.

(** The layer changes only at a key frame; [l] is the layer before. *)
Fixpoint clean (l : Z) (o : list Seen) : bool :=
  match o with
  | [] => true
  | Fresh :: o => clean LAYER_PAUSE o
  | Sent x k :: o => ((x =? l) || k) && clean x o
  end.

Lemma pass_spec st t k now r :
  let '(r', sent, _) := pass st t k now r in
  let l := default 1 (p ← st !! t; rid p) in
  (sent = true -> layer r' = l /\ (layer r' = layer r \/ k = true)) /\ (sent = false -> layer r' = layer r).
Proof.
  unfold pass. cbv zeta. set (l := default 1 _). destruct (paused r); [done|].
  destruct (Z.eqb_spec (layer r) (target r)) as [Et|Et]; cbn [negb].
  - destruct (Z.eqb_spec l (layer r)); [by split; auto|]. destruct ((layer r =? 1) && (l =? 0) && _) eqn:Eb; [|done].
    apply andb_true_iff in Eb as [Eb _]. apply andb_true_iff in Eb as [_ El]. apply Z.eqb_eq in El. destruct k; cbn; [|done]. split; [intros _; split; [lia|by right]|done].
  - destruct (negb (layer r =? LAYER_PAUSE) && _).
    + cbn. split; [intros H; apply Z.eqb_eq in H; split; [done|by left]|done].
    + destruct ((l =? target r) && k) eqn:Ek.
      * apply andb_true_iff in Ek as [El ->]. apply Z.eqb_eq in El. cbn. split; [intros _; split; [done|by right]|done].
      * match goal with |- context [if ?b then (set_pending_pli_at ?n r, ?p) else (r, [])] => set (x := if b then (set_pending_pli_at n r, p) else (r, [])) end.
        assert (layer x.1 = layer r) as Ex by (subst x; by case_match). destruct x as [r1 pli]. cbn in Ex.
        destruct (Z.eqb_spec l (layer r)) as [El|El]; [by split; [intros _; split; [congruence|by left]|]|].
        destruct ((layer r =? LAYER_PAUSE) && negb (l =? target r) && k && _) eqn:Eb; [|done].
        apply andb_true_iff in Eb as [Eb _]. apply andb_true_iff in Eb as [_ ->]. cbn. split; [intros _; split; [done|by right]|done].
Qed.

Lemma retarget_layer st now r : layer (retarget st now r).1 = layer r.
Proof. unfold retarget. by destruct (_ =? _). Qed.

Lemma subscribe_layer_layer st any sp pa pr now r : layer (subscribe_layer st any sp pa pr now r).1 = layer r.
Proof.
  unfold subscribe_layer. set (r1 := match sp with Some s => _ | None => r end). set (r2 := match pr with Some p => _ | None => r1 end).
  assert (layer r2 = layer r) as E by (subst r1 r2; by destruct sp, pr).
  destruct pa as [p|]; cbv zeta; cbn [fst snd].
  - pose proof (retarget_layer st now (set_paused p r2)) as H. destruct (retarget st now (set_paused p r2)) as [r3 pli]. cbn in *. congruence.
  - pose proof (retarget_layer st now r2) as H. destruct (retarget st now r2) as [r3 pli]. cbn in *. congruence.
Qed.

Lemma event_clean e r o rest : clean (layer (event e r).1) rest = true -> (event e r).2 = o -> clean (layer r) (o ++ rest) = true.
Proof.
  destruct e as [st t k now|st any sp pa pr now|st level now|now]; cbn [event].
  - pose proof (pass_spec st t k now r) as H. destruct (pass st t k now r) as [[r' sent] pli]. cbn in *. destruct H as [Hs Hn]. intros Hc <-. destruct sent.
    + destruct (Hs eq_refl) as [El Hk]. cbn. rewrite El in Hc. rewrite Hc, andb_true_r. rewrite <- El.
      destruct Hk as [-> | ->]; [by rewrite Z.eqb_refl|by rewrite orb_true_r].
    + by rewrite <- (Hn eq_refl).
  - intros Hc <-. cbn in *. by rewrite subscribe_layer_layer in Hc.
  - intros Hc <-. cbn in *. by rewrite retarget_layer in Hc.
  - by intros Hc <-.
Qed.

(** C31: What goes out on a row is one layer at a time, and every change of layer starts with a
    key frame: after a row is loaded with a stream its first packet starts a key frame, and later a
    packet of another layer only where that packet starts a key frame, whatever the client
    asks for, the bandwidth allows, and tracks of the stream come and go in between. *)
Theorem sim_switches_at_keyframes es : clean LAYER_PAUSE (run es create).2 = true.
Proof.
  change LAYER_PAUSE with (layer create). generalize create. induction es as [|e es IH]; intros r; [done|].
  cbn [run]. destruct (event e r) as [r1 o] eqn:E. specialize (IH r1). destruct (run es r1) as [r2 o']. cbn in *.
  apply (event_clean e r o o'); by rewrite E.
Qed.

(** A switch never interrupts what a subscriber sees: the packets of the layer it has go on
    passing until the first key frame of the layer it is to have, which passes at once; a
    switch that takes longer than ten seconds is given up, and a row that shows nothing
    takes any key frame by then. *)
Theorem sim_keeps_flowing st t k now r :
  paused r = false ->
  let l := default 1 (p ← st !! t; rid p) in
  (l = layer r -> (pass st t k now r).1.2 = true)
  /\ (l = target r -> k = true -> now - pending_since r <= PENDING_MS \/ layer r = LAYER_PAUSE ->
       (pass st t k now r).1 = (set_layer (target r) r, true))
  /\ (layer r <> target r -> layer r <> LAYER_PAUSE -> PENDING_MS < now - pending_since r ->
       target (pass st t k now r).1.1 = layer r)
  /\ (layer r = LAYER_PAUSE -> target r <> LAYER_PAUSE -> k = true -> PENDING_MS < now - pending_since r ->
       (pass st t k now r).1.2 = true /\ layer (pass st t k now r).1.1 = l).
Proof.
  intros Hp l. unfold pass. rewrite Hp. fold l. unfold PENDING_MS, LAYER_PAUSE in *.
  destruct (Z.eqb_spec (layer r) (target r)) as [Et|Et]; cbn [negb].
  - split_and!.
    + intros ->. by rewrite Z.eqb_refl.
    + intros El _ _. rewrite (proj2 (Z.eqb_eq l (layer r))) by congruence. clear Hp l El. destruct r; cbn in *; by subst.
    + congruence.
    + congruence.
  - assert (Hs : sat_sub now (pending_since r) = Z.max 0 (now - pending_since r)) by done. rewrite !Hs.
    destruct (Z.eqb_spec (layer r) 255) as [E255|E255]; cbn [negb andb].
    + split_and!; [| | lia |].
      * intros El. rewrite (proj2 (Z.eqb_neq l (target r))) by lia. cbn [andb]. rewrite (proj2 (Z.eqb_eq l (layer r)) El). by case_match.
      * intros El -> _. rewrite (proj2 (Z.eqb_eq l (target r)) El). done.
      * intros _ Ht -> Hnow. destruct (Z.eqb_spec l (target r)) as [El|El]; cbn [andb negb]; [done|].
        rewrite (proj2 (Z.ltb_lt 10000 (Z.max 0 (now - pending_since r)))) by lia.
        destruct (Z.eqb_spec l (layer r)) as [El'|El']; repeat case_match; simplify_eq/=; try done; lia.
    + destruct (Z.ltb_spec 10000 (Z.max 0 (now - pending_since r))) as [Hlt|Hle].
      * cbn. split_and!; [intros ->; apply Z.eqb_refl|lia|done|lia].
      * split_and!; [|intros El -> _; by rewrite (proj2 (Z.eqb_eq l (target r)) El)|lia|lia].
        intros El. rewrite (proj2 (Z.eqb_neq l (target r))) by lia. cbn [andb]. rewrite (proj2 (Z.eqb_eq l (layer r)) El). by case_match.
Qed.

Definition two_layers : Stream := [mkPhys (Some 0) 100; mkPhys (Some 1) 100].

Lemma sim_keeps_flowing_witness :
  (pass two_layers 1 true 20000 create).1 = (set_layer 1 create, true)
  /\ (pass two_layers 0 true 20000 create).1.2 = true.
Proof.
  split.
  - apply (sim_keeps_flowing two_layers 1 true 20000 create); [reflexivity|reflexivity|reflexivity|right; reflexivity].
  - apply (sim_keeps_flowing two_layers 0 true 20000 create); [reflexivity|reflexivity|discriminate|reflexivity|reflexivity].
Defined.

End Sim.
