(* ===== verification/SubTable.v ===== *)
(** * The m-line table of a subscriber

    crates/oxsfud/src/sub/mod.rs: which track is on which downlink row. [State] is the content
    of the mutex together with the two atomics the table shares with its rows ([acked] and
    [ext]); the mutex makes every operation one step. A [DownRow] is shared with the
    forwarding threads: what the table writes there is [Down]. The gates are shared cells, so
    they live in a store ([cells]) and are named by number. Random numbers are taken from
    [tape]; an operation is [None] where the source keeps drawing because no number of the
    tape is usable. *)

From stdpp Require Import pretty.
From S2P Require Import Prelude Utf8 Keyexpr Rewriter Rtp Room Tracks.

Module Sub.
Import Trk.

Definition START_1PC : Z := 32.
Definition START_2PC : Z := 0.
Definition SUB_1PC : nat := 96.
Definition SUB_2PC : nat := 128.
Definition FULL_AUDIO : nat := 25.
Definition FULL_VIDEO : nat := 25.
Definition T_GATE_MS : Z := 5000.
Definition SLOT_STREAM : string := "ox-ptt".
Definition URI_MID : string := "urn:ietf:params:rtp-hdrext:sdes:mid".
Definition URI_AUDIO_LEVEL : string := "urn:ietf:params:rtp-hdrext:ssrc-audio-level".
Definition URI_ABS_SEND_TIME : string := "http://www.webrtc.org/experiments/rtp-hdrext/abs-send-time".
Definition URI_TWCC : string := "http://www.ietf.org/id/draft-holmer-rmcat-transport-wide-cc-extensions-01".
Definition URI_RID : string := "urn:ietf:params:rtp-hdrext:sdes:rtp-stream-id".
Definition URI_REPAIR_RID : string := "urn:ietf:params:rtp-hdrext:sdes:repaired-rtp-stream-id".

Inductive PcMode := One | Two.
Inductive Class := ClFull | ClSlot.
Inductive SubState := Created | Active.
#[export] Instance PcMode_eq_dec : EqDecision PcMode. Proof. solve_decision. Defined.
#[export] Instance Class_eq_dec : EqDecision Class. Proof. solve_decision. Defined.
#[export] Instance SubState_eq_dec : EqDecision SubState. Proof. solve_decision. Defined.

(** ** Extension numbers *)

Record ExtMap := mkExtMap { id : Z; uri : string }.

Definition server_extmap : list ExtMap :=
  map (fun p => mkExtMap p.1 p.2)
    [(1, URI_MID); (4, URI_AUDIO_LEVEL); (5, URI_ABS_SEND_TIME); (6, URI_TWCC); (10, URI_RID); (11, URI_REPAIR_RID)].

Definition ext_table (m : list ExtMap) : Rtp.ExtTable :=
  let id u := id <$> List.find (fun e => String.eqb (uri e) u) m in
  Rtp.mkTable (id URI_MID) (id URI_AUDIO_LEVEL) (id URI_ABS_SEND_TIME) (id URI_TWCC).

(** ** Tuples: what has to be equal for two codecs to share a row *)

Definition tuple_of (k : Kind) (codec : string) : string :=
  let name := to_ascii_lowercase codec in
  match k with
  | Audio => name +:+ "/48000/2"
  | Video => if String.eqb name "h264" then "h264/90000/pm1/42e0" else name +:+ "/90000"
  end.

Record JoinCodec := mkJoin { jkind : Kind; jpt : Z; name : string; jfmtp : option string; jrtx_pt : option Z }.

(** [None] when [h264_profile] panics. *)
Definition join_tuple (c : JoinCodec) : option (option string) :=
  let name := to_ascii_lowercase (name c) in
  match jkind c with
  | Audio =>
    if String.eqb name "opus" then
      let st := default "0" (fmtp_param (jfmtp c) "sprop-stereo") in
      Some (Some (if String.eqb st "1" then "opus/48000/2/stereo" else tuple_of Audio "opus"))
    else Some None
  | Video =>
    if String.eqb name "h264" then
      let pm := default "0" (fmtp_param (jfmtp c) "packetization-mode") in
      let? pr := h264_profile (jfmtp c) in
      Some (Some ("h264/90000/pm" +:+ pm +:+ "/" +:+ default "" pr))
    else Some (Some (tuple_of Video name))
  end.

(** ** Data *)

Record Cand := mkCand {
  c_track : string; c_room : string; c_kind : Kind; c_class : Class; c_codec : string; rank : Z; paused : bool }.

Record Down := mkDown {
  d_pt : Z; d_rtx_pt : Z; d_since : Z; d_room : option string; d_src : option (string * string);
  d_gate : option nat; d_loaded_at : Z; d_ext : Rtp.ExtTable }.

Record Row := mkRow {
  mid : Z; r_kind : Kind; class : Class; tuple : string; r_codec : string; pt : Z; rtx_pt : option Z;
  ssrc : Z; rtx_ssrc : option Z; track : option (string * string); since : Z; loaded_at : Z; state : SubState; down : Down }.

Record MlineEntry := mkMline {
  m_mid : Z; m_kind : Kind; m_pt : Z; m_codec : string; m_fmtp : option string; m_rtx_pt : option Z;
  m_track_id : option string; m_room_id : option string; m_ssrc : Z; m_rtx_ssrc : option Z; m_stream : Class * Z }.

(** The stream id is ["ox-m<mid>"] or [SLOT_STREAM]: kept as the class and the number. *)
Definition entry (r : Row) : MlineEntry :=
  mkMline (mid r) (r_kind r) (pt r) (r_codec r) (row_fmtp (r_codec r)) (rtx_pt r) (fst <$> track r) (snd <$> track r) (ssrc r) (rtx_ssrc r)
    (match class r with ClFull => (ClFull, mid r) | ClSlot => (ClSlot, 0) end).

(** The [down] of a change is the row with this number. *)
Record Change := mkChange { ch_row : nat; ch_class : Class; old : option (string * string); new_ : option (string * string) }.

Record SyncOut := mkOut { changes : list Change; changed : bool; mid_limit : bool; budget : option (nat * nat) }.
Definition out_default : SyncOut := mkOut [] false false None.

(** What never changes of a table. *)
Record Config := mkConfig { pc_mode : PcMode; slot_budget : nat }.

Record State := mkState {
  rows : list Row; arev : Z; pts : gmap string (Z * option Z); reserved : gset Z; ssrcs : gset Z; uplink : gset Z;
  waiting : gmap string Z; gates : gmap string (nat * Z * bool); cells : list bool; ready_at : gmap string Z;
  seeded : bool; prefs : gmap string (Z * bool); acked : Z; ext : Rtp.ExtTable; tape : list Z }.

Definition set_rows v s := mkState v (arev s) (pts s) (reserved s) (ssrcs s) (uplink s) (waiting s) (gates s) (cells s) (ready_at s) (seeded s) (prefs s) (acked s) (ext s) (tape s).
Definition set_arev v s := mkState (rows s) v (pts s) (reserved s) (ssrcs s) (uplink s) (waiting s) (gates s) (cells s) (ready_at s) (seeded s) (prefs s) (acked s) (ext s) (tape s).
Definition set_pts v s := mkState (rows s) (arev s) v (reserved s) (ssrcs s) (uplink s) (waiting s) (gates s) (cells s) (ready_at s) (seeded s) (prefs s) (acked s) (ext s) (tape s).
Definition set_reserved v s := mkState (rows s) (arev s) (pts s) v (ssrcs s) (uplink s) (waiting s) (gates s) (cells s) (ready_at s) (seeded s) (prefs s) (acked s) (ext s) (tape s).
Definition set_ssrcs v t s := mkState (rows s) (arev s) (pts s) (reserved s) v (uplink s) (waiting s) (gates s) (cells s) (ready_at s) (seeded s) (prefs s) (acked s) (ext s) t.
Definition set_uplink v s := mkState (rows s) (arev s) (pts s) (reserved s) (ssrcs s) v (waiting s) (gates s) (cells s) (ready_at s) (seeded s) (prefs s) (acked s) (ext s) (tape s).
Definition set_waiting v s := mkState (rows s) (arev s) (pts s) (reserved s) (ssrcs s) (uplink s) v (gates s) (cells s) (ready_at s) (seeded s) (prefs s) (acked s) (ext s) (tape s).
Definition set_gates v c s := mkState (rows s) (arev s) (pts s) (reserved s) (ssrcs s) (uplink s) (waiting s) v c (ready_at s) (seeded s) (prefs s) (acked s) (ext s) (tape s).
Definition set_ready_at v s := mkState (rows s) (arev s) (pts s) (reserved s) (ssrcs s) (uplink s) (waiting s) (gates s) (cells s) v (seeded s) (prefs s) (acked s) (ext s) (tape s).
Definition set_seeded v s := mkState (rows s) (arev s) (pts s) (reserved s) (ssrcs s) (uplink s) (waiting s) (gates s) (cells s) (ready_at s) v (prefs s) (acked s) (ext s) (tape s).
Definition set_prefs v s := mkState (rows s) (arev s) (pts s) (reserved s) (ssrcs s) (uplink s) (waiting s) (gates s) (cells s) (ready_at s) (seeded s) v (acked s) (ext s) (tape s).
Definition set_acked v s := mkState (rows s) (arev s) (pts s) (reserved s) (ssrcs s) (uplink s) (waiting s) (gates s) (cells s) (ready_at s) (seeded s) (prefs s) v (ext s) (tape s).
Definition set_ext v s := mkState (rows s) (arev s) (pts s) (reserved s) (ssrcs s) (uplink s) (waiting s) (gates s) (cells s) (ready_at s) (seeded s) (prefs s) (acked s) v (tape s).

Definition new (tape : list Z) : State :=
  mkState [] 0 ∅ ∅ ∅ ∅ ∅ ∅ [] ∅ false ∅ 0 (ext_table server_extmap) tape.

Definition start (g : Config) : Z := match pc_mode g with One => START_1PC | Two => START_2PC end.
Definition limit (g : Config) : nat := match pc_mode g with One => SUB_1PC | Two => SUB_2PC end.

(** ** What a client brings at its first joining *)

(** [None] when a codec's parameters make [join_tuple] panic. *)
Fixpoint seed_codecs (cs : list JoinCodec) (s : State) : option State :=
  match cs with
  | [] => Some s
  | c :: cs =>
    let s := s |> set_reserved ({[jpt c]} ∪ reserved s) in
    let s := match jrtx_pt c with Some r => s |> set_reserved ({[r]} ∪ reserved s) | None => s end in
    let? t := join_tuple c in
    seed_codecs cs
      (match t with
       | Some t => match pts s !! t with Some _ => s | None => s |> set_pts (<[t := (jpt c, jrtx_pt c)]> (pts s)) end
       | None => s
       end)
  end.

Definition seed (codecs : list JoinCodec) (extmap : list ExtMap) (s : State) : option (State * bool) :=
  if seeded s then Some (s, false)
  else
    let? s := seed_codecs codecs (s |> set_seeded true) in
    let merged := map (fun m => match List.find (fun e => String.eqb (uri e) (uri m)) extmap with Some x => mkExtMap (id x) (uri m) | None => m end) server_extmap in
    Some (match extmap with [] => s | _ => s |> set_ext (ext_table merged) end, true).

Definition mark_seeded (s : State) : State := s |> set_seeded true.

(** ** Reading *)

Definition snapshot (s : State) : Z * list MlineEntry := (arev s, map entry (rows s)).
Definition carry (v : Z) (s : State) : State := if arev s <? v then s |> set_arev v else s.
Definition add_uplink (l : list Z) (s : State) : State := s |> set_uplink (list_to_set l ∪ uplink s).
Definition remove_uplink (l : list Z) (s : State) : State := s |> set_uplink (uplink s ∖ list_to_set l).

Definition row_by_ssrc (x : Z) (s : State) : option (nat * bool) :=
  head (omap (fun '(i, r) => if ssrc r =? x then Some (i, false) else if bool_decide (rtx_ssrc r = Some x) then Some (i, true) else None)
             (zip (seq 0 (length (rows s))) (rows s))).

Definition row_of_track (t : string) (s : State) : option nat :=
  List.find (fun i => match rows s !! i with Some r => bool_decide (fst <$> track r = Some t) | None => false end) (seq 0 (length (rows s))).

(** ** Rows *)

Definition usable (s : State) (v : Z) : bool := (1 <? v) && bool_decide (v ∉ ssrcs s) && bool_decide (v ∉ uplink s).

Fixpoint draw (s : State) (t : list Z) : option (Z * list Z) :=
  match t with
  | [] => None
  | v :: t => if usable s v then Some (v, t) else draw s t
  end.

Definition fresh_ssrc (s : State) : option (State * Z) :=
  let? (v, t) := draw s (tape s) in
  Some (s |> set_ssrcs ({[v]} ∪ ssrcs s) t, v).

Definition used_pts (s : State) : gset Z :=
  list_to_set (mjoin (map (fun kv => kv.2.1 :: match kv.2.2 with Some b => [b] | None => [] end) (map_to_list (pts s)))) ∪ reserved s.

Definition pt_seed (g : Config) (k : Kind) (codec : string) : option (Z * option Z) :=
  match pc_mode g with
  | Two =>
    let c := to_ascii_lowercase codec in
    match k with
    | Audio => if String.eqb c "opus" then Some (111, None) else None
    | Video => if String.eqb c "vp8" then Some (96, Some 97) else if String.eqb c "h264" then Some (102, Some 103) else None
    end
  | One => None
  end.

Definition pt_for (g : Config) (k : Kind) (t codec : string) (s : State) : State * (Z * option Z) :=
  match pts s !! t with
  | Some p => (s, p)
  | None =>
    let used := used_pts s in
    let is_free p := bool_decide (p.1 ∉ used) && match p.2 with Some b => bool_decide (b ∉ used) | None => true end in
    let p :=
      match (let? p := pt_seed g k codec in if is_free p then Some p else None) with
      | Some p => p
      | None =>
        let free := List.filter (fun x => bool_decide (x ∉ used)) (seqZ 96 32 ++ seqZ 35 29) in
        match k with
        | Audio => (default 127 (free !! 0%nat), None)
        | Video => (default 126 (free !! 0%nat), Some (default 127 (free !! 1%nat)))
        end
      end in
    (s |> set_pts (<[t := p]> (pts s)), p)
  end.

Definition new_row (g : Config) (k : Kind) (cl : Class) (codec : string) (s : State) : option (State * nat) :=
  let t := tuple_of k codec in
  let (s, p) := pt_for g k t codec s in
  let? (s, x) := fresh_ssrc s in
  let? (s, rx) := match k with Video => (let? (s, v) := fresh_ssrc s in Some (s, Some v)) | Audio => Some (s, None) end in
  let m := u16 (start g + Z.of_nat (length (rows s))) in
  let d := mkDown p.1 (default 0 p.2) 0 None None None 0 (ext s) in
  Some (s |> set_rows (rows s ++ [mkRow m k cl t codec p.1 p.2 x rx None 0 0 Created d]), length (rows s)).

Definition upd (i : nat) (f : Row -> Row) (s : State) : State := s |> set_rows (alter f i (rows s)).

Definition retune_row (t codec : string) (p : Z * option Z) (r : Row) : Row :=
  let d := down r in
  mkRow (mid r) (r_kind r) (class r) t codec p.1 p.2 (ssrc r) (rtx_ssrc r) (track r) (since r) (loaded_at r) (state r)
    (mkDown p.1 (default 0 p.2) (d_since d) (d_room d) (d_src d) (d_gate d) (d_loaded_at d) (d_ext d)).

Definition retune (g : Config) (k : Kind) (i : nat) (codec : string) (s : State) : State :=
  let t := tuple_of k codec in
  let (s, p) := pt_for g k t codec s in
  s |> upd i (retune_row t codec p).

(** The gate of a room; made, closed, when there is none. *)
Definition gate (room : string) (now : Z) (s : State) : State * nat :=
  match gates s !! room with
  | Some (g, _, _) => (s, g)
  | None => let g := length (cells s) in (s |> set_gates (<[room := (g, now, false)]> (gates s)) (cells s ++ [false]), g)
  end.

Definition load_row (c : Cand) (rev now : Z) (g : option nat) (r : Row) : Row :=
  let k := (c_track c, c_room c) in
  mkRow (mid r) (r_kind r) (class r) (tuple r) (r_codec r) (pt r) (rtx_pt r) (ssrc r) (rtx_ssrc r) (Some k) rev now Created
    (mkDown (d_pt (down r)) (d_rtx_pt (down r)) rev (Some (c_room c)) (Some k) g now (d_ext (down r))).

Definition rehome_row (c : Cand) (rev : Z) (g : option nat) (r : Row) : Row :=
  let k := (c_track c, c_room c) in
  mkRow (mid r) (r_kind r) (class r) (tuple r) (r_codec r) (pt r) (rtx_pt r) (ssrc r) (rtx_ssrc r) (Some k) rev (loaded_at r) (state r)
    (mkDown (d_pt (down r)) (d_rtx_pt (down r)) rev (Some (c_room c)) (Some k) g (d_loaded_at (down r)) (d_ext (down r))).

Definition unload_row (rev : Z) (r : Row) : Row :=
  mkRow (mid r) (r_kind r) (class r) (tuple r) (r_codec r) (pt r) (rtx_pt r) (ssrc r) (rtx_ssrc r) None rev (loaded_at r) Created
    (mkDown (d_pt (down r)) (d_rtx_pt (down r)) rev None None None (d_loaded_at (down r)) (d_ext (down r))).

Definition opt_gate (b : bool) (room : string) (now : Z) (s : State) : State * option nat :=
  if b then let (s, g) := gate room now s in (s, Some g) else (s, None).

(** An index of these three is that of a row. *)
Definition load (i : nat) (c : Cand) (rev now : Z) (x : State * list Change) : State * list Change :=
  let (s, g) := opt_gate (bool_decide (c_class c = ClFull) && bool_decide (c_kind c = Video)) (c_room c) now x.1 in
  match rows s !! i with
  | Some r => (s |> upd i (load_row c rev now g), x.2 ++ [mkChange i (class r) (track r) (Some (c_track c, c_room c))])
  | None => x
  end.

Definition rehome (i : nat) (c : Cand) (rev now : Z) (x : State * list Change) : State * list Change :=
  let (s, g) := opt_gate (bool_decide (c_kind c = Video)) (c_room c) now x.1 in
  match rows s !! i with
  | Some r => (s |> upd i (rehome_row c rev g), x.2 ++ [mkChange i (class r) (track r) (Some (c_track c, c_room c))])
  | None => x
  end.

Definition unload (i : nat) (rev : Z) (x : State * list Change) : State * list Change :=
  let (s, ch) := x in
  match rows s !! i with
  | Some r =>
    match track r with
    | Some o => (s |> upd i (unload_row rev), ch ++ [mkChange i (class r) (Some o) None])
    | None => x
    end
  | None => x
  end.

(** ** Sync: the rows follow the candidates *)

Definition is_slot (c : Cand) : bool := bool_decide (c_class c = ClSlot).
Definition is_full (k : Kind) (c : Cand) : bool := bool_decide (c_class c = ClFull) && bool_decide (c_kind c = k).

(** [want_slot]: the rooms and kinds a slot candidate names. *)
Definition want_slot (cands : list Cand) (room : string) (k : Kind) : bool :=
  existsb (fun c => is_slot c && String.eqb (c_room c) room && bool_decide (c_kind c = k)) cands.

Definition unwanted (cands : list Cand) (r : Row) : bool :=
  bool_decide (class r = ClSlot) && match track r with Some t => negb (want_slot cands t.2 (r_kind r)) | None => false end.

(** Some row already has the slot of this room and kind. *)
Definition has_slot (rs : list Row) (c : Cand) : bool :=
  existsb (fun r => bool_decide (class r = ClSlot) && bool_decide (r_kind r = c_kind c) && match track r with Some t => String.eqb t.2 (c_room c) | None => false end) rs.

Definition row_sat (rs : list Row) (f : Row -> bool) (i : nat) : bool := match rs !! i with Some r => f r | None => false end.

(** The rows, by number. *)
Definition idx (s : State) : list nat := seq 0 (length (rows s)).

Definition is_none {A} (o : option A) : bool := match o with None => true | Some _ => false end.

(** One candidate of the loop of [fresh_slot_rows]. *)
Definition fresh_one (s : State) (cands : list Cand) (x : list nat * nat) (c : Cand) : list nat * nat :=
  let (claimed, fresh) := x in
  if has_slot (rows s) c then x
  else
    let t := tuple_of (c_kind c) (c_codec c) in
    match List.find (fun i => negb (bool_decide (i ∈ claimed)) && row_sat (rows s) (fun r =>
             bool_decide (class r = ClSlot) && bool_decide (r_kind r = c_kind c) && String.eqb (tuple r) t
             && (is_none (track r) || unwanted cands r)) i) (idx s) with
    | Some i => (i :: claimed, fresh)
    | None => (claimed, S fresh)
    end.

Definition fresh_slot_rows (s : State) (cands : list Cand) : nat :=
  (fold_left (fresh_one s cands) (List.filter is_slot cands) ([], O)).2.

Definition slot_rows (s : State) : nat := length (List.filter (fun r => bool_decide (class r = ClSlot)) (rows s)).
Definition full_rows (k : Kind) (s : State) : nat := length (List.filter (fun r => bool_decide (class r = ClFull) && bool_decide (r_kind r = k)) (rows s)).

(** [for i in 0..s.rows.len()]: the rows that fulfil [f] are emptied. *)
Definition unload_where (f : Row -> bool) (rev : Z) (x : State * list Change) : State * list Change :=
  fold_left (fun x i => if row_sat (rows x.1) f i then unload i rev x else x) (idx x.1) x.

(** The loop over [slots_needed]; the last part of the result is the budget it broke off with. *)
Fixpoint load_slots (g : Config) (rev now : Z) (cs : list Cand) (x : State * list Change) : option (State * list Change * option (nat * nat)) :=
  match cs with
  | [] => Some (x, None)
  | c :: cs =>
    let t := tuple_of (c_kind c) (c_codec c) in
    match List.find (row_sat (rows x.1) (fun r =>
            bool_decide (class r = ClSlot) && bool_decide (r_kind r = c_kind c) && is_none (track r) && String.eqb (tuple r) t)) (idx x.1) with
    | Some i => load_slots g rev now cs (load i c rev now x)
    | None =>
      let n := slot_rows x.1 in
      if (slot_budget g <=? n)%nat || (limit g <=? length (rows x.1))%nat then
        Some (x, Some (if (slot_budget g <=? n)%nat then (slot_budget g, n) else (limit g, length (rows x.1))))
      else
        let? (s, i) := new_row g (c_kind c) ClSlot (c_codec c) x.1 in
        load_slots g rev now cs (load i c rev now (s, x.2))
    end
  end.

Definition key_of (c : Cand) : string * string := (c_track c, c_room c).
Definition is_key (t : string * string) (c : Cand) : bool := bool_decide (key_of c = t).

(** One row of the loop that follows tracks into another room. *)
Definition rehome_one (cands : list Cand) (k : Kind) (rev now : Z) (x : State * list Change) (i : nat) : State * list Change :=
  match rows x.1 !! i with
  | Some r =>
    if negb (bool_decide (class r = ClFull) && bool_decide (r_kind r = k)) then x
    else match track r with
         | None => x
         | Some t =>
           if existsb (fun c => bool_decide (c_class c = ClFull) && is_key t c) cands then x
           else match List.find (fun c => is_full k c && String.eqb (c_track c) t.1 && negb (paused c)) cands with
                | Some c => rehome i c rev now x
                | None => x
                end
         end
  | None => x
  end.

Definition cap (k : Kind) : nat := match k with Audio => FULL_AUDIO | Video => FULL_VIDEO end.

Definition desired (cands : list Cand) (k : Kind) : list Cand := List.filter (fun c => is_full k c && negb (paused c)) cands.

(** [loaded_at], the map of the source: for a track twice on the rows the later one counts. *)
Definition loaded_when (k : Kind) (s : State) (t : string * string) : option Z :=
  loaded_at <$> last (List.filter (fun r => bool_decide (class r = ClFull) && bool_decide (r_kind r = k) && bool_decide (track r = Some t)) (rows s)).

Definition wait_one (k : Kind) (now : Z) (s0 : State) (w : gmap string Z) (c : Cand) : gmap string Z :=
  match loaded_when k s0 (key_of c) with
  | Some _ => w
  | None => match w !! c_track c with Some _ => w | None => <[c_track c := now]> w end
  end.

Definition U64_MAX : Z := 2 ^ 64 - 1.

(** Loaded before waiting, the latest loaded first, the longest waiting first. *)
Definition order_key (k : Kind) (now : Z) (s : State) (c : Cand) : Z * Z :=
  match loaded_when k s (key_of c) with
  | Some t => (0, U64_MAX - t)
  | None => (1, default now (waiting s !! c_track c))
  end.

Definition lex_le (a b : Z * Z) : bool := (a.1 <? b.1) || ((a.1 =? b.1) && (a.2 <=? b.2)).

(** The comparison of [sort_by] does not say [Greater]. *)
Definition cand_le (k : Kind) (now : Z) (s : State) (a b : Cand) : bool :=
  (rank b <? rank a) || ((rank a =? rank b) && lex_le (order_key k now s a) (order_key k now s b)).

(** A stable sort. *)
Fixpoint sort_in {A} (le : A -> A -> bool) (x : A) (l : list A) : list A :=
  match l with [] => [x] | y :: l => if le x y then x :: y :: l else y :: sort_in le x l end.
Definition sort_by {A} (le : A -> A -> bool) (l : list A) : list A := foldr (sort_in le) [] l.

(** [min_by_key]: the first of the least. *)
Definition min_step (f : nat -> Z) (b : option nat) (i : nat) : option nat :=
  match b with None => Some i | Some j => if f i <? f j then Some i else Some j end.
Definition min_by_key (f : nat -> Z) (l : list nat) : option nat := fold_left (min_step f) l None.

Definition row_val (rs : list Row) (f : Row -> Z) (i : nat) : Z := match rs !! i with Some r => f r | None => 0 end.

Definition empty_of (k : Kind) (r : Row) : bool := bool_decide (class r = ClFull) && bool_decide (r_kind r = k) && is_none (track r).

(** One candidate of [target]: the row it gets, if it is not on one already. The flag is [tuned]. *)
Definition place_one (g : Config) (k : Kind) (rev now : Z) (c : Cand) (x : State * list Change * bool) : option (State * list Change * bool) :=
  let '(s, ch, tuned) := x in
  if existsb (fun r => bool_decide (track r = Some (key_of c)) && bool_decide (class r = ClFull)) (rows s) then
    Some (s |> set_waiting (delete (c_track c) (waiting s)), ch, tuned)
  else
    let t := tuple_of k (c_codec c) in
    let put i s tuned :=
      let (s, ch) := load i c rev now (s |> set_waiting (delete (c_track c) (waiting s)), ch) in Some (s, ch, tuned) in
    match min_by_key (row_val (rows s) mid) (List.filter (row_sat (rows s) (fun r => empty_of k r && String.eqb (tuple r) t)) (idx s)) with
    | Some i => put i s tuned
    | None =>
      if (full_rows k s <? cap k)%nat && (length (rows s) <? limit g)%nat then
        let? (s, i) := new_row g k ClFull (c_codec c) s in
        put i s tuned
      else
        match min_by_key (row_val (rows s) loaded_at) (List.filter (row_sat (rows s) (empty_of k)) (idx s)) with
        | Some i => put i (retune g k i (c_codec c) s) true
        | None => Some x
        end
    end.

Fixpoint place_all (g : Config) (k : Kind) (rev now : Z) (cs : list Cand) (x : State * list Change * bool) : option (State * list Change * bool) :=
  match cs with
  | [] => Some x
  | c :: cs => let? x := place_one g k rev now c x in place_all g k rev now cs x
  end.

Definition target (cands : list Cand) (k : Kind) (now : Z) (s : State) : list Cand :=
  take (cap k) (sort_by (cand_le k now s) (desired cands k)).

(** The body of [for kind in [Audio, Video]]. *)
Definition kind_pass (g : Config) (cands : list Cand) (k : Kind) (rev now : Z) (x : State * list Change * bool) : option (State * list Change * bool) :=
  let '(s, ch, tuned) := x in
  let (s, ch) := fold_left (rehome_one cands k rev now) (idx s) (s, ch) in
  let s := s |> set_waiting (fold_left (wait_one k now s) (desired cands k) (waiting s)) in
  let tg := target cands k now s in
  let gone r := bool_decide (class r = ClFull) && bool_decide (r_kind r = k)
                && match track r with Some t => negb (existsb (is_key t) tg) | None => false end in
  let (s, ch) := unload_where gone rev (s, ch) in
  place_all g k rev now tg (s, ch, tuned).

Definition sync (g : Config) (cands : list Cand) (now : Z) (s : State) : option (State * SyncOut) :=
  let rev := arev s + 1 in
  let before := length (rows s) in
  let fresh := fresh_slot_rows s cands in
  let n := slot_rows s in
  if (0 <? fresh)%nat && ((slot_budget g <? n + fresh)%nat || (limit g <? length (rows s) + fresh)%nat) then
    Some (s, mkOut [] false true
               (Some (if (slot_budget g <? n + fresh)%nat then (slot_budget g, n) else (limit g, length (rows s)))))
  else
    let x := unload_where (unwanted cands) rev (s, []) in
    let needed := List.filter (fun c => negb (has_slot (rows x.1) c)) (List.filter is_slot cands) in
    let? (x, short) := load_slots g rev now needed x in
    match short with
    | Some b => Some (x.1, mkOut [] false true (Some b))
    | None =>
      let? x := kind_pass g cands Audio rev now (x, false) in
      let? (s, ch, tuned) := kind_pass g cands Video rev now x in
      let s := s |> set_waiting (filter (fun kv => existsb (fun c => String.eqb (c_track c) kv.1) cands = true) (waiting s)) in
      let moved := negb (match ch with [] => true | _ => false end) || negb (length (rows s) =? before)%nat || tuned in
      Some (if moved then s |> set_arev rev else s, mkOut ch moved false None)
    end.

(** ** Ready and the gates *)

Definition activate (a : Z) (r : Row) : Row :=
  if bool_decide (state r = Created) && negb (is_none (track r)) && (since r <=? a) then
    mkRow (mid r) (r_kind r) (class r) (tuple r) (r_codec r) (pt r) (rtx_pt r) (ssrc r) (rtx_ssrc r) (track r) (since r) (loaded_at r) Active (down r)
  else r.

Definition open_gate (room : string) (s : State) : State :=
  match gates s !! room with Some (g, _, _) => s |> set_gates (gates s) (<[g := true]> (cells s)) | None => s end.

Definition ready (room : string) (req now : Z) (s : State) : State * (bool * list (string * string)) :=
  let first := is_none (ready_at s !! room) in
  let s := if first then s |> set_ready_at (<[room := now]> (ready_at s)) else s in
  let s := open_gate room s in
  let ack := Z.min (arev s) req in
  let s := if acked s <? ack then s |> set_acked ack else s in
  let a := acked s in
  let became := omap (fun r => if bool_decide (state r = Created) && (since r <=? a) then track r else None) (rows s) in
  (s |> set_rows (map (activate a) (rows s)), (first, became)).

(** One gate of [gate_timeouts]; the rooms are visited in no particular order. *)
Definition gate_one (now : Z) (x : State * list string) (kv : string * (nat * Z * bool)) : State * list string :=
  let '(room, (g, t0, latched)) := kv in
  let (s, out) := x in
  if negb (default false (cells s !! g)) && (T_GATE_MS <=? sat_sub now t0) then
    let s := s |> set_gates (<[room := (g, t0, true)]> (gates s)) (<[g := true]> (cells s)) in
    (s, if latched then out else out ++ [room])
  else x.

Definition gate_timeouts (now : Z) (s : State) : State * list string := fold_left (gate_one now) (map_to_list (gates s)) (s, []).

Definition pref (t : string) (s : State) : Z * bool := default (0, false) (prefs s !! t).

Definition set_pref (t : string) (priority : option Z) (paused : option bool) (s : State) : State * bool :=
  let e := pref t s in
  let e' := (default e.1 priority, default e.2 paused) in
  (s |> set_prefs (<[t := e']> (prefs s)), negb (bool_decide (e = e'))).

Definition forget_room (room : string) (s : State) : State :=
  s |> set_gates (delete room (gates s)) (cells s) |> set_ready_at (delete room (ready_at s)).

(** [DownRow::open]: whether anything is sent on the row. *)
Definition is_open (s : State) (r : Row) : bool := d_since (down r) <=? acked s.

(** ** The numbers of the tables of a session, across its connections *)

Definition keep (sid : string) (v : Z) (f : gmap string Z) : gmap string Z := <[sid := Z.max (default 0 (f !! sid)) v]> f.
Definition floor (sid : string) (f : gmap string Z) : Z := default 0 (f !! sid).
Definition forget (sid : string) (f : gmap string Z) : gmap string Z := delete sid f.

(** ** The tests of the source, on the model *)

Definition cand (t room : string) (k : Kind) (cl : Class) (r : Z) : Cand :=
  mkCand t room k cl (match k with Audio => "opus" | Video => "H264" end) r false.
Definition pair_of (room : string) : list Cand := [cand ("ptt-" +:+ room +:+ "-audio") room Audio ClSlot 0; cand ("ptt-" +:+ room +:+ "-video") room Video ClSlot 0].
Definition then_sync (g : Config) (cs : list Cand) (now : Z) (x : option (State * SyncOut)) : option (State * SyncOut) :=
  let? (s, _) := x in sync g cs now s.
Definition started (n : Z) : option (State * SyncOut) := Some (new (seqZ 2 n), out_default).

Example slot_rows_and_reuse :
  let g := mkConfig Two 40 in
  let a := then_sync g (pair_of "a") 1 (started 9) in
  let b := then_sync g [] 2 a in
  let c := then_sync g (pair_of "b") 3 b in
  (fun x => (changed x.2, map m_pt (snapshot x.1).2)) <$> a = Some (true, [111; 102]) /\
  (fun x => length (changes x.2)) <$> b = Some 2%nat /\
  (fun x => (arev x.1, map m_room_id (snapshot x.1).2)) <$> c = Some (3, [Some "b"; Some "b"]).
Proof. vm_compute. done. Qed.

Example slot_budget_is_all_or_nothing :
  let g := mkConfig Two 3 in
  let a := then_sync g (pair_of "a") 1 (started 9) in
  let b := then_sync g (pair_of "a" ++ pair_of "b") 2 a in
  (fun x => (mid_limit x.2, budget x.2, arev x.1, length (rows x.1))) <$> b = Some (true, Some (3%nat, 2%nat), 1, 2%nat) /\
  (fun x => changed x.2) <$> then_sync g (pair_of "a") 3 b = Some false.
Proof. vm_compute. done. Qed.

Definition vids (n : nat) (r : Z) : list Cand := map (fun i => cand ("v" +:+ pretty i) "r" Video ClFull r) (seq 0 n).

Example full_cap_reassigns_by_rank :
  let g := mkConfig Two 40 in
  let a := then_sync g (vids 25 0) 1 (started 99) in
  let b := then_sync g (vids 25 0 ++ [cand "hot" "r" Video ClFull 5]) 2 a in
  (fun x => (length (changes x.2), length (rows x.1), existsb (fun m => bool_decide (m_track_id m = Some "hot")) (snapshot x.1).2)) <$> b
  = Some (2%nat, 25%nat, true).
Proof. vm_compute. done. Qed.

Example rehome_waits_for_ack :
  let g := mkConfig Two 40 in
  let opens s := map (is_open s) (rows s) in
  (let? (s, _) := then_sync g [cand "a" "r1" Audio ClFull 0] 1 (started 9) in
  let s1 := (ready "r1" (arev s) 2 s).1 in
  let? (s2, o) := sync g [cand "a" "r2" Audio ClFull 0] 3 s1 in
  let s3 := (ready "r2" (arev s2) 4 s2).1 in
  Some (opens s, opens s1, changed o, opens s2, opens s3)) = Some ([false], [true], true, [false], [true]).
Proof. vm_compute. done. Qed.

Example ready_gate_opens_at_timeout :
  (let? (s, _) := then_sync (mkConfig Two 40) (vids 1 0) 1000 (started 9) in
  let (s1, o1) := gate_timeouts 5999 s in
  let (s2, o2) := gate_timeouts 6000 s1 in
  let (s3, o3) := gate_timeouts 11000 s2 in
  Some (map (fun r => d_gate (down r)) (rows s), cells s, o1, o2, cells s2, o3)) = Some ([Some 0%nat], [false], [], ["r"], [true], []).
Proof. vm_compute. done. Qed.

End Sub.
