(* ===== verification/SubInv.v ===== *)
(** * The m-line table: invariant

    What one change of the table may do ([Step], a preorder), that every part of [sync] is
    such changes, and that the well-formedness of a table ([Wf]) survives them. *)

From S2P Require Import Prelude Utf8 Keyexpr Rewriter Rtp Room Tracks SubTable.

Module SubI.
Import Trk Sub.

(** What a row keeps for life. *)
Definition ids (r : Row) : Z * Kind * Class * Z * option Z := (mid r, r_kind r, class r, ssrc r, rtx_ssrc r).

Definition all_ssrcs (rs : list Row) : list Z := mjoin (map (fun r => ssrc r :: match rtx_ssrc r with Some x => [x] | None => [] end) rs).

(** The forwarding side of a row says what the row says. *)
Definition mirrors (r : Row) : Prop :=
  d_pt (down r) = pt r /\ d_rtx_pt (down r) = default 0 (rtx_pt r) /\ d_since (down r) = since r
  /\ d_src (down r) = track r /\ d_room (down r) = snd <$> track r.

Record row_ok (rev : Z) (s : State) (r : Row) : Prop := {
  ok_tuple : tuple r = tuple_of (r_kind r) (r_codec r);
  ok_pt : pts s !! tuple r = Some (pt r, rtx_pt r);
  ok_mirror : mirrors r;
  ok_rtx : is_Some (rtx_ssrc r) <-> r_kind r = Video;
  ok_since : since r <= rev }.

Record Wf (g : Config) (rev : Z) (s : State) : Prop := {
  wf_mid : forall i r, rows s !! i = Some r -> mid r = start g + Z.of_nat i;
  wf_len : (length (rows s) <= limit g)%nat;
  wf_full : forall k, (full_rows k s <= cap k)%nat;
  wf_slot : (slot_rows s <= slot_budget g)%nat;
  wf_nodup : NoDup (all_ssrcs (rows s));
  wf_known : forall x, x ∈ all_ssrcs (rows s) -> x ∈ ssrcs s /\ 1 < x;
  wf_rows : forall i r, rows s !! i = Some r -> row_ok rev s r }.

(** The random numbers that are left and usable. *)
Definition good (s : State) : gset Z := list_to_set (List.filter (usable s) (tape s)).

(** The same entry of the table, from the same version. *)
Definition unchanged (r r' : Row) : Prop := entry r' = entry r /\ since r' = since r.

(** Which track is on which row, by the number of the row, and what a list of changes makes of
    it; the changes fit when each of them tells what was on its row. *)
Definition tracks_map (rs : list Row) : gmap nat (string * string) := omap track (map_seq 0 rs).

Definition replay1 (m : gmap nat (string * string)) (c : Change) : gmap nat (string * string) :=
  match new_ c with Some k => <[ch_row c := k]> m | None => delete (ch_row c) m end.
Definition replay (d : list Change) (m : gmap nat (string * string)) : gmap nat (string * string) := fold_left replay1 d m.

Fixpoint fit (d : list Change) (m : gmap nat (string * string)) : Prop :=
  match d with
  | [] => True
  | c :: d => old c = m !! ch_row c /\ fit d (replay1 m c)
  end.

Record Step (g : Config) (rev : Z) (x x' : State * list Change) : Prop := {
  st_wf : Wf g rev x.1 -> Wf g rev x'.1;
  st_ids : exists l, map ids (rows x'.1) = map ids (rows x.1) ++ l;
  st_old : forall i r r', rows x.1 !! i = Some r -> rows x'.1 !! i = Some r' -> unchanged r r' \/ since r' = rev;
  st_new : forall i r', rows x.1 !! i = None -> rows x'.1 !! i = Some r' -> since r' = rev;
  st_more : (length x.2 <= length x'.2)%nat;
  st_quiet : length x'.2 = length x.2 -> rows x'.1 = rows x.1;
  st_replay : exists d, x'.2 = x.2 ++ d /\ fit d (tracks_map (rows x.1)) /\ replay d (tracks_map (rows x.1)) = tracks_map (rows x'.1)
              /\ forall c, c ∈ d -> exists r, rows x'.1 !! ch_row c = Some r /\ class r = ch_class c;
  st_arev : arev x'.1 = arev x.1;
  st_acked : acked x'.1 = acked x.1;
  st_good : (size (good x.1) + 2 * length (rows x.1) <= size (good x'.1) + 2 * length (rows x'.1))%nat }.

Lemma map_ids_length g rev x x' : Step g rev x x' -> (length (rows x.1) <= length (rows x'.1))%nat.
Proof. intros H. destruct (st_ids _ _ _ _ H) as [l E]. apply (f_equal length) in E. rewrite length_app, !length_map in E. lia. Qed.

#[export] Instance Step_refl g rev : Reflexive (Step g rev).
Proof.
  intros x. split; try done.
  - exists []. by rewrite app_nil_r.
  - intros i r r' H1. rewrite H1. intros [= ->]. by left.
  - intros i r H1. congruence.
  - exists []. rewrite app_nil_r. split_and!; [done|done|done|set_solver].
Qed.

Lemma fit_app d d' m : fit (d ++ d') m <-> fit d m /\ fit d' (replay d m).
Proof. revert m. induction d as [|c d IH]; intros m; simpl; [tauto|]. rewrite IH. unfold replay. simpl. tauto. Qed.

Lemma replay_app d d' m : replay (d ++ d') m = replay d' (replay d m).
Proof. apply fold_left_app. Qed.

Lemma ids_class rs rs' l i r : map ids rs' = map ids rs ++ l -> rs !! i = Some r -> exists r', rs' !! i = Some r' /\ class r' = class r.
Proof.
  intros E Hr. assert (map ids rs' !! i = Some (ids r)) as Hi by (rewrite E; apply lookup_app_l_Some; by rewrite list_lookup_fmap, Hr).
  rewrite list_lookup_fmap in Hi. destruct (rs' !! i) as [r'|]; [|done]. injection Hi as ? ? ? ? ?. eauto.
Qed.

#[export] Instance Step_trans g rev : Transitive (Step g rev).
Proof.
  intros x y z H1 H2. split.
  - intros H. by apply (st_wf _ _ _ _ H2), (st_wf _ _ _ _ H1).
  - destruct (st_ids _ _ _ _ H1) as [l E], (st_ids _ _ _ _ H2) as [l' E']. exists (l ++ l'). by rewrite E', E, app_assoc.
  - intros i r r' Hr Hr'. destruct (rows y.1 !! i) as [m|] eqn:Em.
    + destruct (st_old _ _ _ _ H2 i m r' Em Hr') as [[A B]|A]; [|by right].
      destruct (st_old _ _ _ _ H1 i r m Hr Em) as [[C D]|C]; [left; split; congruence|right; congruence].
    + right. by eapply (st_new _ _ _ _ H2).
  - intros i r' Hr Hr'. destruct (rows y.1 !! i) as [m|] eqn:Em.
    + pose proof (st_new _ _ _ _ H1 i m Hr Em) as A. destruct (st_old _ _ _ _ H2 i m r' Em Hr') as [[_ B]|B]; congruence.
    + by eapply (st_new _ _ _ _ H2).
  - pose proof (st_more _ _ _ _ H1). pose proof (st_more _ _ _ _ H2). lia.
  - intros E. pose proof (st_more _ _ _ _ H1). pose proof (st_more _ _ _ _ H2).
    rewrite (st_quiet _ _ _ _ H2), (st_quiet _ _ _ _ H1) by lia. done.
  - destruct (st_replay _ _ _ _ H1) as (d & E & F & R & C), (st_replay _ _ _ _ H2) as (d' & E' & F' & R' & C'). exists (d ++ d').
    rewrite fit_app, replay_app, R, E', E, app_assoc. split_and!; try done. intros c [Hc|Hc]%elem_of_app; [|by apply C'].
    destruct (C c Hc) as (r & Hr & <-), (st_ids _ _ _ _ H2) as [l El]. by apply (ids_class _ _ l _ r El).
  - by rewrite (st_arev _ _ _ _ H2), (st_arev _ _ _ _ H1).
  - by rewrite (st_acked _ _ _ _ H2), (st_acked _ _ _ _ H1).
  - pose proof (st_good _ _ _ _ H1). pose proof (st_good _ _ _ _ H2). lia.
Qed.

(** *** What depends on the ids alone *)

Lemma filter_ids (f : Z * Kind * Class * Z * option Z -> bool) rs rs' :
  map ids rs = map ids rs' -> length (List.filter (fun r => f (ids r)) rs) = length (List.filter (fun r => f (ids r)) rs').
Proof.
  revert rs'. induction rs as [|r rs IH]; intros [|r' rs']; try done. cbn [map List.filter]. intros [= E1 E2 E3 E4 E5 E].
  assert (ids r = ids r') as Er by (unfold ids; congruence). rewrite Er. specialize (IH rs' E).
  destruct (f (ids r')); simpl; congruence.
Qed.

Lemma full_rows_ids k s s' : map ids (rows s) = map ids (rows s') -> full_rows k s = full_rows k s'.
Proof. pose proof (filter_ids (fun i => bool_decide (i.1.1.2 = ClFull) && bool_decide (i.1.1.1.2 = k)) (rows s) (rows s')) as H. exact H. Qed.
Lemma slot_rows_ids s s' : map ids (rows s) = map ids (rows s') -> slot_rows s = slot_rows s'.
Proof. pose proof (filter_ids (fun i => bool_decide (i.1.1.2 = ClSlot)) (rows s) (rows s')) as H. exact H. Qed.

Lemma all_ssrcs_ids rs rs' : map ids rs = map ids rs' -> all_ssrcs rs = all_ssrcs rs'.
Proof.
  revert rs'. induction rs as [|r rs IH]; intros [|r' rs']; try done. cbn [map]. intros [= E1 E2 E3 E4 E5 E].
  unfold all_ssrcs in *. simpl. by rewrite (IH rs' E), E4, E5.
Qed.

Lemma lookup_ids rs rs' i r' : map ids rs = map ids rs' -> rs' !! i = Some r' -> exists r, rs !! i = Some r /\ ids r = ids r'.
Proof.
  intros E H. assert ((map ids rs) !! i = Some (ids r')) as Hi by (rewrite E; by rewrite list_lookup_fmap, H).
  rewrite list_lookup_fmap in Hi. destruct (rs !! i) as [r|]; [|done]. injection Hi as ?. exists r. split; [done|]. unfold ids. congruence.
Qed.

Lemma row_ok_mono rev s s' r : pts s ⊆ pts s' -> row_ok rev s r -> row_ok rev s' r.
Proof. intros Hp [? ? ? ? ?]. split; try done. by eapply lookup_weaken. Qed.

Lemma Wf_same_ids g rev s s' :
  map ids (rows s') = map ids (rows s) -> ssrcs s ⊆ ssrcs s' ->
  (forall i r, rows s' !! i = Some r -> row_ok rev s' r) ->
  Wf g rev s -> Wf g rev s'.
Proof.
  intros E Hs Hr [H1 H2 H3 H4 H5 H6 H7]. symmetry in E. split; [| | | | | |exact Hr].
  - intros i r Hi. destruct (lookup_ids _ _ _ _ E Hi) as (r0 & H0 & E0). apply H1 in H0. unfold ids in E0. congruence.
  - apply (f_equal length) in E. rewrite !length_map in E. lia.
  - intros k. rewrite <- (full_rows_ids k _ _ E). apply H3.
  - rewrite <- (slot_rows_ids _ _ E). apply H4.
  - by rewrite <- (all_ssrcs_ids _ _ E).
  - intros x. rewrite <- (all_ssrcs_ids _ _ E). intros Hx. apply H6 in Hx. set_solver.
Qed.

(** ** The changes *)

(** Nothing but rows, payload types, gates and waiting times changes. *)
Record Keeps (s s' : State) : Prop := {
  fr_arev : arev s' = arev s; fr_acked : acked s' = acked s; fr_ssrcs : ssrcs s' = ssrcs s;
  fr_uplink : uplink s' = uplink s; fr_tape : tape s' = tape s; fr_pts : pts s ⊆ pts s' }.

#[export] Instance Keeps_refl : Reflexive Keeps.
Proof. by intros s. Qed.
#[export] Instance Keeps_trans : Transitive Keeps.
Proof. intros a b c [] []. split; try congruence. by etrans. Qed.

Lemma usable_frame s s' v : ssrcs s' = ssrcs s -> uplink s' = uplink s -> usable s' v = usable s v.
Proof. unfold usable. by intros -> ->. Qed.

Lemma good_frame s s' : Keeps s s' -> good s' = good s.
Proof.
  intros []. unfold good. rewrite fr_tape0. f_equal. apply filter_ext. intros v. by apply usable_frame.
Qed.

Lemma Step_same g rev s s' ch : Keeps s s' -> rows s' = rows s -> Step g rev (s, ch) (s', ch).
Proof.
  intros F E. pose proof (good_frame _ _ F) as Hg. destruct F. split; simpl; rewrite ?E, ?Hg; try done.
  - intros H. apply (Wf_same_ids g rev s); [by rewrite E|by rewrite fr_ssrcs0| |done].
    rewrite E. intros i r Hi. eapply row_ok_mono; [done|]. by eapply (wf_rows _ _ _ H).
  - exists []. by rewrite app_nil_r.
  - intros i r r' H1. rewrite H1. intros [= ->]. by left.
  - congruence.
  - exists []. rewrite app_nil_r. split_and!; [done|done|done|set_solver].
Qed.

Lemma ids_alter f i rs : (forall r, rs !! i = Some r -> ids (f r) = ids r) -> map ids (alter f i rs) = map ids rs.
Proof.
  revert i. induction rs as [|r rs IH]; intros [|i] H; try done.
  - simpl. rewrite (H r); [done|reflexivity].
  - simpl. f_equal. by apply IH.
Qed.

Lemma tracks_lookup rs i : tracks_map rs !! i = rs !! i ≫= track.
Proof. unfold tracks_map. by rewrite lookup_omap, lookup_map_seq_0. Qed.

Lemma tracks_alter f i rs r : rs !! i = Some r ->
  tracks_map (alter f i rs) = match track (f r) with Some k => <[i := k]> (tracks_map rs) | None => delete i (tracks_map rs) end.
Proof.
  intros Hr. apply map_eq. intros j. rewrite tracks_lookup. destruct (decide (i = j)) as [<-|Hne].
  - rewrite list_lookup_alter_eq, Hr. simpl. destruct (track (f r)); by rewrite ?lookup_insert_eq, ?lookup_delete_eq.
  - rewrite list_lookup_alter_ne by done. destruct (track (f r)); by rewrite ?lookup_insert_ne, ?lookup_delete_ne, tracks_lookup by done.
Qed.

Lemma tracks_snoc rs r : tracks_map (rs ++ [r]) = match track r with Some k => <[length rs := k]> (tracks_map rs) | None => tracks_map rs end.
Proof.
  apply map_eq. intros j. rewrite tracks_lookup. destruct (decide (length rs = j)) as [<-|Hne].
  - rewrite list_lookup_middle by done. simpl. destruct (track r); rewrite ?lookup_insert_eq; [done|].
    rewrite tracks_lookup, (lookup_ge_None_2 rs) by done. done.
  - assert ((rs ++ [r]) !! j = rs !! j) as ->.
    { destruct (decide (j < length rs)%nat); [by apply lookup_app_l|]. rewrite !lookup_ge_None_2; [done|lia|rewrite length_app; simpl; lia]. }
    destruct (track r); by rewrite ?lookup_insert_ne, tracks_lookup by done.
Qed.

Lemma Step_alter g rev s s' ch c f i r0 :
  Keeps s s' -> rows s' = alter f i (rows s) -> rows s !! i = Some r0 -> c = mkChange i (class r0) (track r0) (track (f r0)) ->
  (forall r, rows s !! i = Some r -> ids (f r) = ids r /\ since (f r) = rev /\ (row_ok rev s r -> row_ok rev s' (f r))) ->
  Step g rev (s, ch) (s', ch ++ [c]).
Proof.
  intros F E H0 Hc Hf. pose proof (good_frame _ _ F) as Hg. destruct F.
  assert (map ids (rows s') = map ids (rows s)) as Ei by (rewrite E; apply ids_alter; naive_solver).
  assert (forall j r', rows s' !! j = Some r' -> exists r, rows s !! j = Some r /\ (r' = r \/ (j = i /\ r' = f r))) as Hrow.
  { intros j r' Hj. rewrite E in Hj. destruct (decide (i = j)) as [->|Hne].
    - rewrite list_lookup_alter_eq in Hj. destruct (rows s !! j); [|done]. injection Hj as <-. eauto.
    - rewrite list_lookup_alter_ne in Hj by done. eauto. }
  split; simpl; rewrite ?Hg; try done.
  - intros H. apply (Wf_same_ids g rev s); [done|by rewrite fr_ssrcs0| |done].
    intros j r' Hj. destruct (Hrow _ _ Hj) as (r & Hr & [->|[-> ->]]).
    + eapply row_ok_mono; [done|]. by eapply (wf_rows _ _ _ H).
    + apply Hf; [done|]. by eapply (wf_rows _ _ _ H).
  - exists []. by rewrite app_nil_r.
  - intros j r r' H1 H2. destruct (Hrow _ _ H2) as (r1 & H3 & [->|[-> ->]]); simplify_eq; [by left; split|]. right. by apply Hf.
  - intros j r' H1 H2. destruct (Hrow _ _ H2) as (r1 & H3 & _). congruence.
  - rewrite length_app. lia.
  - rewrite length_app. simpl. lia.
  - exists [c]. subst c. split_and!; [done| | |].
    + simpl. by rewrite tracks_lookup, H0.
    + unfold replay, replay1. simpl. by rewrite E, (tracks_alter f i (rows s) r0).
    + intros c' ->%list_elem_of_singleton. exists (f r0). simpl. rewrite E, list_lookup_alter_eq, H0. split; [done|].
      destruct (Hf r0 H0) as (Hi & _). unfold ids in Hi. congruence.
  - apply (f_equal length) in Ei. rewrite !length_map in Ei. lia.
Qed.

Lemma all_ssrcs_app a b : all_ssrcs (a ++ b) = all_ssrcs a ++ all_ssrcs b.
Proof. unfold all_ssrcs. by rewrite map_app, join_app. Qed.

(** What a new row needs. *)
Record Fresh (g : Config) (rev : Z) (s s' : State) (r : Row) : Prop := {
  fs_arev : arev s' = arev s; fs_acked : acked s' = acked s; fs_pts : pts s ⊆ pts s'; fs_ssrcs : ssrcs s ⊆ ssrcs s';
  fs_rows : rows s' = rows s ++ [r];
  fs_good : (size (good s) <= size (good s') + 2)%nat;
  fs_mid : (length (rows s) < limit g)%nat -> mid r = start g + Z.of_nat (length (rows s));
  fs_ids : NoDup (all_ssrcs [r]);
  fs_known : forall x, x ∈ all_ssrcs [r] -> (x ∉ ssrcs s) /\ (x ∈ ssrcs s') /\ 1 < x;
  fs_ok : row_ok rev s' r }.

Lemma full_rows_app k s s' r : rows s' = rows s ++ [r] ->
  full_rows k s' = (full_rows k s + (if bool_decide (class r = ClFull) && bool_decide (r_kind r = k) then 1 else 0))%nat.
Proof. unfold full_rows. intros ->. rewrite List.filter_app, length_app. simpl. by destruct (_ && _). Qed.
Lemma slot_rows_app s s' r : rows s' = rows s ++ [r] ->
  slot_rows s' = (slot_rows s + (if bool_decide (class r = ClSlot) then 1 else 0))%nat.
Proof. unfold slot_rows. intros ->. rewrite List.filter_app, length_app. simpl. by destruct (bool_decide _). Qed.

Lemma Step_push g rev s s' ch c r :
  Fresh g rev s s' r -> since r = rev -> c = mkChange (length (rows s)) (class r) None (track r) -> track r <> None -> (length (rows s) < limit g)%nat ->
  (class r = ClFull -> (full_rows (r_kind r) s < cap (r_kind r))%nat) ->
  (class r = ClSlot -> (slot_rows s < slot_budget g)%nat) ->
  Step g rev (s, ch) (s', ch ++ [c]).
Proof.
  intros [? ? Hp Hs E Hg Hm Hi Hk Hok] Hr Ech Ht Hl Hf Hsl.
  assert (forall i r', rows s' !! i = Some r' -> rows s !! i = Some r' \/ (i = length (rows s) /\ r' = r)) as Hrow.
  { intros i r' H. rewrite E, lookup_app_Some in H. destruct H as [H|[Hle H]]; [by left|right].
    apply list_lookup_singleton_Some in H as [? ->]. split; [lia|done]. }
  split; simpl; try done.
  - intros [H1 H2 H3 H4 H5 H6 H7]. split.
    + intros i r' Hi'. destruct (Hrow _ _ Hi') as [?|[-> ->]]; [by apply H1|by apply Hm].
    + rewrite E, length_app. simpl. lia.
    + intros k. rewrite (full_rows_app k s s' r E). specialize (H3 k).
      destruct (decide (class r = ClFull)) as [Hc|Hc]; [|rewrite bool_decide_false by done; simpl; lia].
      destruct (decide (r_kind r = k)) as [<-|Hc']; [|rewrite (bool_decide_false _ Hc'), andb_false_r; lia].
      rewrite !bool_decide_true by done. specialize (Hf Hc). simpl. lia.
    + rewrite (slot_rows_app s s' r E). case_bool_decide as Hc; [specialize (Hsl Hc)|]; lia.
    + rewrite E, all_ssrcs_app. apply NoDup_app. split_and!; [done| |done].
      intros x Hx Hx'. apply H6 in Hx. apply Hk in Hx'. naive_solver.
    + intros x. rewrite E, all_ssrcs_app, elem_of_app. intros [Hx|Hx]; [apply H6 in Hx; set_solver|apply Hk in Hx; naive_solver].
    + intros i r' Hi'. destruct (Hrow _ _ Hi') as [?|[-> ->]]; [|done]. eapply row_ok_mono; [done|by eapply H7].
  - exists [ids r]. by rewrite E, map_app.
  - intros i r0 r' H0 H'. destruct (Hrow _ _ H') as [?|[-> ->]]; [simplify_eq; by left|by right].
  - intros i r' H0 H'. destruct (Hrow _ _ H') as [?|[-> ->]]; congruence.
  - rewrite length_app. lia.
  - rewrite length_app. simpl. lia.
  - exists [c]. subst c. split_and!; [done| | |].
    + simpl. rewrite tracks_lookup, (lookup_ge_None_2 (rows s)) by done. done.
    + unfold replay, replay1. simpl. rewrite E, tracks_snoc. by destruct (track r).
    + intros c' ->%list_elem_of_singleton. exists r. simpl. rewrite E. split; [by apply list_lookup_middle|done].
  - rewrite E, length_app. simpl. lia.
Qed.

(** ** The operations *)

Lemma Keeps_waiting w s : Keeps s (set_waiting w s).
Proof. by split. Qed.
Lemma Keeps_upd i f s : Keeps s (upd i f s).
Proof. by split. Qed.
Lemma Keeps_gate b room now s : Keeps s (opt_gate b room now s).1 /\ rows (opt_gate b room now s).1 = rows s.
Proof. unfold opt_gate, gate. destruct b; [|done]. destruct (gates s !! room) as [[[? ?] ?]|]; [done|]. by split. Qed.

Lemma Keeps_pt_for g k t codec s :
  Keeps s (pt_for g k t codec s).1 /\ rows (pt_for g k t codec s).1 = rows s
  /\ pts (pt_for g k t codec s).1 !! t = Some (pt_for g k t codec s).2.
Proof.
  unfold pt_for. destruct (pts s !! t) as [p|] eqn:E; [done|]. cbn [fst snd]. split_and!; [split; try done|done|].
  - by apply insert_subseteq.
  - cbn [pts set_pts]. by rewrite lookup_insert_eq.
Qed.

Lemma load_row_ok rev s c now g r : row_ok rev s r -> row_ok rev s (load_row c rev now g r).
Proof. intros [? ? (? & ? & ? & ? & ?) ? ?]. split; try done; first [by split_and!|simpl; lia]. Qed.
Lemma rehome_row_ok rev s c g r : row_ok rev s r -> row_ok rev s (rehome_row c rev g r).
Proof. intros [? ? (? & ? & ? & ? & ?) ? ?]. split; try done; first [by split_and!|simpl; lia]. Qed.
Lemma unload_row_ok rev s r : row_ok rev s r -> row_ok rev s (unload_row rev r).
Proof. intros [? ? (? & ? & ? & ? & ?) ? ?]. split; try done; first [by split_and!|simpl; lia]. Qed.
Lemma retune_row_ok rev s codec p r :
  pts s !! tuple_of (r_kind r) codec = Some p -> row_ok rev s r -> row_ok rev s (retune_row (tuple_of (r_kind r) codec) codec p r).
Proof. intros Hp [? ? (? & ? & ? & ? & ?) ? ?]. split; try done; first [by destruct p|by split_and!]. Qed.

Lemma Step_load g rev now i c x : Step g rev x (load i c rev now x).
Proof.
  destruct x as [s ch]. unfold load. cbn [fst snd].
  pose proof (Keeps_gate (bool_decide (c_class c = ClFull) && bool_decide (c_kind c = Video)) (c_room c) now s) as [F E].
  destruct (opt_gate _ _ _ _) as [s' gt]. cbn [fst] in F, E. rewrite E. destruct (rows s !! i) as [r|] eqn:Hr; [|done].
  apply (Step_alter g rev s _ ch _ (load_row c rev now gt) i r); [etrans; [exact F|apply Keeps_upd]|simpl; by rewrite E|done|done|].
  intros r0 _. split_and!; [done|done|]. intros H. apply load_row_ok, (row_ok_mono rev s); [apply F|done].
Qed.

Lemma Step_rehome g rev now i c x : Step g rev x (rehome i c rev now x).
Proof.
  destruct x as [s ch]. unfold rehome. cbn [fst snd].
  pose proof (Keeps_gate (bool_decide (c_kind c = Video)) (c_room c) now s) as [F E].
  destruct (opt_gate _ _ _ _) as [s' gt]. cbn [fst] in F, E. rewrite E. destruct (rows s !! i) as [r|] eqn:Hr; [|done].
  apply (Step_alter g rev s _ ch _ (rehome_row c rev gt) i r); [etrans; [exact F|apply Keeps_upd]|simpl; by rewrite E|done|done|].
  intros r0 _. split_and!; [done|done|]. intros H. apply rehome_row_ok, (row_ok_mono rev s); [apply F|done].
Qed.

Lemma Step_unload g rev i x : Step g rev x (unload i rev x).
Proof.
  destruct x as [s ch]. unfold unload. destruct (rows s !! i) as [r|] eqn:Hr; [|done]. destruct (track r) as [o|] eqn:Ht; [|done].
  apply (Step_alter g rev s _ ch _ (unload_row rev) i r); [apply Keeps_upd|done|done|by rewrite Ht|].
  intros r0 _. split_and!; [done|done|]. intros H. by apply unload_row_ok, (row_ok_mono rev s).
Qed.

(** A chain of changes is a change. *)
Lemma Step_fold {A} g rev (f : State * list Change -> A -> State * list Change) l x :
  (forall x a, Step g rev x (f x a)) -> Step g rev x (fold_left f l x).
Proof. intros Hf. revert x. induction l as [|a l IH]; intros x; [done|]. simpl. etrans; [apply Hf|apply IH]. Qed.

Lemma Step_unload_where g rev f x : Step g rev x (unload_where f rev x).
Proof. apply Step_fold. intros y i. destruct (row_sat _ _ _); [apply Step_unload|done]. Qed.

Lemma Step_rehome_all g rev cands k now l x : Step g rev x (fold_left (rehome_one cands k rev now) l x).
Proof.
  apply Step_fold. intros y i. unfold rehome_one. repeat (case_match; try done). apply Step_rehome.
Qed.

(** *** Random numbers *)

Lemma draw_spec s l v t : draw s l = Some (v, t) ->
  usable s v = true /\ List.filter (usable s) l = v :: List.filter (usable s) t.
Proof.
  induction l as [|a l IH]; [done|]. simpl. destruct (usable s a) eqn:E; [intros [= -> ->]; split; [done|]|exact IH].
  done.
Qed.

Lemma draw_none s l : draw s l = None <-> List.filter (usable s) l = [].
Proof. induction l as [|a l IH]; [done|]. simpl. by destruct (usable s a). Qed.

Lemma usable_spec s v : usable s v = true <-> 1 < v /\ (v ∉ ssrcs s) /\ (v ∉ uplink s).
Proof. unfold usable. rewrite !andb_true_iff, !bool_decide_eq_true, Z.ltb_lt. tauto. Qed.

Lemma elem_good s x : x ∈ good s <-> x ∈ tape s /\ usable s x = true.
Proof. unfold good. by rewrite elem_of_list_to_set, !list_elem_of_In, filter_In. Qed.

Lemma fresh_ssrc_spec s s' v : fresh_ssrc s = Some (s', v) ->
  rows s' = rows s /\ arev s' = arev s /\ acked s' = acked s /\ pts s' = pts s /\ uplink s' = uplink s /\ ext s' = ext s /\ ssrcs s' = {[v]} ∪ ssrcs s
  /\ usable s v = true /\ (size (good s) <= size (good s') + 1)%nat.
Proof.
  unfold fresh_ssrc. destruct (draw s (tape s)) as [[w t]|] eqn:E; [|done]. intros [= <- <-]. apply draw_spec in E as [Hu Ef].
  split_and!; try done. transitivity (size (good (set_ssrcs ({[w]} ∪ ssrcs s) t s) ∪ {[w]})).
  - apply subseteq_size. intros x. rewrite elem_of_union, elem_of_singleton, !elem_good. cbn [tape set_ssrcs]. intros [Hx Hux].
    destruct (decide (x = w)) as [->|Hne]; [by right|left].
    assert (x ∈ List.filter (usable s) (tape s)) as Hin by (by rewrite list_elem_of_In, filter_In, <- list_elem_of_In).
    rewrite Ef in Hin. apply elem_of_cons in Hin as [?|Hin]; [done|]. rewrite list_elem_of_In, filter_In, <- list_elem_of_In in Hin.
    split; [naive_solver|]. apply usable_spec in Hux. apply usable_spec. cbn [ssrcs uplink set_ssrcs]. set_solver.
  - rewrite size_union_alt. apply Nat.add_le_mono_l. rewrite <- (size_singleton (C := gset Z) w). apply subseteq_size. set_solver.
Qed.

Lemma fresh_ssrc_total s : (0 < size (good s))%nat -> is_Some (fresh_ssrc s).
Proof.
  intros H. unfold fresh_ssrc. destruct (draw s (tape s)) as [[v t]|] eqn:E; [eauto|].
  apply draw_none in E. unfold good in H. rewrite E in H. change (0 < size (∅ : gset Z))%nat in H. rewrite size_empty in H. lia.
Qed.

(** *** A new row *)

Lemma limit_small g : (limit g <= 128)%nat /\ 0 <= start g <= 32.
Proof. unfold limit, start, SUB_1PC, SUB_2PC, START_1PC, START_2PC. destruct (pc_mode g); lia. Qed.

Lemma good_rows v s : good (set_rows v s) = good s.
Proof. done. Qed.

(** The number of the row, and that it is empty. *)
Lemma new_row_spec g k cl codec rev s s' i : 0 <= rev -> new_row g k cl codec s = Some (s', i) ->
  i = length (rows s) /\ exists r, Fresh g rev s s' r /\ r_kind r = k /\ class r = cl /\ track r = None /\ tuple r = tuple_of k codec.
Proof.
  intros Hrev. unfold new_row. pose proof (Keeps_pt_for g k (tuple_of k codec) codec s) as (F & Er & Hp).
  destruct (pt_for _ _ _ _ _) as [s1 p]. cbn [fst snd] in F, Er, Hp. pose proof (good_frame _ _ F) as Hg. destruct F.
  destruct (fresh_ssrc s1) as [[s2 x]|] eqn:E2; [|done]. apply fresh_ssrc_spec in E2 as (R2 & A2 & K2 & P2 & U2 & X2 & S2 & V2 & G2).
  rewrite Hg in G2. apply usable_spec in V2 as (V21 & V22 & V23). pose proof (limit_small g) as [Hl Hst].
  destruct k.
  - intros [= <- <-]. split; [by rewrite R2, Er|]. match goal with |- context [rows _ ++ [?r]] => exists r end. split; [split; cbn [rows arev acked pts ssrcs set_rows]|done].
    1, 2: congruence.
    1: by rewrite P2. 1: rewrite S2, fr_ssrcs0; set_solver. 1: by rewrite R2, Er.
    + rewrite good_rows. lia.
    + intros Hlt. cbn [mid]. rewrite R2, Er, u16_id; [done|]. ulia.
    + apply NoDup_singleton.
    + intros y Hy. apply list_elem_of_singleton in Hy as ->. rewrite <- fr_ssrcs0. split_and!; [done|set_solver|done].
    + split; cbn; try done. by rewrite P2; destruct p.
  - destruct (fresh_ssrc s2) as [[s3 y]|] eqn:E3; [|done]. apply fresh_ssrc_spec in E3 as (R3 & A3 & K3 & P3 & U3 & X3 & S3 & V3 & G3).
    apply usable_spec in V3 as (V31 & V32 & V33).
    intros [= <- <-]. split; [by rewrite R3, R2, Er|]. match goal with |- context [rows _ ++ [?r]] => exists r end. split; [split; cbn [rows arev acked pts ssrcs set_rows]|done].
    1, 2: congruence.
    1: by rewrite P3, P2. 1: rewrite S3, S2, fr_ssrcs0; set_solver. 1: by rewrite R3, R2, Er.
    + rewrite good_rows. lia.
    + intros Hlt. cbn [mid]. rewrite R3, R2, Er, u16_id; [done|]. ulia.
    + apply NoDup_cons. split; [|apply NoDup_singleton]. cbn. set_solver.
    + intros z Hz. rewrite <- fr_ssrcs0. apply elem_of_cons in Hz as [->|Hz]; [split_and!; [done|set_solver|done]|].
      apply list_elem_of_singleton in Hz as ->. split_and!; set_solver.
    + split; cbn; try done; by rewrite P3, P2; destruct p.
Qed.

Lemma new_row_total g k cl codec s : (2 <= size (good s))%nat -> is_Some (new_row g k cl codec s).
Proof.
  intros H. unfold new_row. pose proof (Keeps_pt_for g k (tuple_of k codec) codec s) as (F & _ & _).
  destruct (pt_for _ _ _ _ _) as [s1 p]. cbn [fst] in F. pose proof (good_frame _ _ F) as Hg.
  destruct (fresh_ssrc_total s1) as [[s2 x] E2]; [rewrite Hg; lia|]. rewrite E2. apply fresh_ssrc_spec in E2 as (_ & _ & _ & _ & _ & _ & _ & _ & G2).
  destruct k; [eauto|]. destruct (fresh_ssrc_total s2) as [[s3 y] E3]; [rewrite Hg in G2; lia|]. rewrite E3. eauto.
Qed.

(** What [load] does to the rows. *)
Lemma load_spec i c rev now s ch r : rows s !! i = Some r ->
  exists gt s', load i c rev now (s, ch) = (s', ch ++ [mkChange i (class r) (track r) (Some (key_of c))])
  /\ rows s' = alter (load_row c rev now gt) i (rows s) /\ Keeps s s'.
Proof.
  intros H. unfold load. cbn [fst snd].
  pose proof (Keeps_gate (bool_decide (c_class c = ClFull) && bool_decide (c_kind c = Video)) (c_room c) now s) as [F E].
  destruct (opt_gate _ _ _ _) as [s' gt]. cbn [fst] in F, E. rewrite E, H. exists gt, (upd i (load_row c rev now gt) s').
  split_and!; [done|simpl; by rewrite E|]. etrans; [exact F|apply Keeps_upd].
Qed.

Lemma alter_snoc {A} (f : A -> A) l x : alter f (length l) (l ++ [x]) = l ++ [f x].
Proof. induction l; [done|]. simpl. by f_equal. Qed.

Lemma alter_twice {A} (f h : A -> A) (i : nat) (l : list A) : alter f i (alter h i l) = alter (fun x => f (h x)) i l.
Proof. revert i. induction l as [|x l IH]; intros [|i]; try done. simpl. f_equal. apply IH. Qed.

Lemma Step_new_load g k cl codec rev now c s s' i ch :
  0 <= rev -> new_row g k cl codec s = Some (s', i) -> (length (rows s) < limit g)%nat ->
  (cl = ClFull -> (full_rows k s < cap k)%nat) -> (cl = ClSlot -> (slot_rows s < slot_budget g)%nat) ->
  Step g rev (s, ch) (load i c rev now (s', ch)).
Proof.
  intros Hrev E Hl Hf Hs. apply (new_row_spec _ _ _ _ rev) in E as (-> & r & Fr & <- & <- & Ht & Et); [|done].
  destruct (load_spec (length (rows s)) c rev now s' ch r) as (gt & s2 & -> & E2 & F2).
  { rewrite (fs_rows _ _ _ _ _ Fr). by apply list_lookup_middle. }
  rewrite (fs_rows _ _ _ _ _ Fr), alter_snoc in E2.
  assert (Fresh g rev s s2 (load_row c rev now gt r)) as Fr2.
  { pose proof (good_frame _ _ F2) as Hg. destruct Fr, F2. split; try done; try congruence.
    - by etrans.
    - by rewrite fr_ssrcs0.
    - intros x Hx. rewrite fr_ssrcs0. by apply fs_known0.
    - by apply load_row_ok, (row_ok_mono rev s'). }
  apply (Step_push g rev s s2 ch _ _ Fr2); try done. by rewrite Ht.
Qed.

Lemma Step_retune_load g k codec rev now c s i r ch :
  rows s !! i = Some r -> r_kind r = k -> Step g rev (s, ch) (load i c rev now (retune g k i codec s, ch)).
Proof.
  intros Hr Hk. unfold retune. pose proof (Keeps_pt_for g k (tuple_of k codec) codec s) as (F & Er & Hp).
  destruct (pt_for _ _ _ _ _) as [s1 p]. cbn [fst snd] in F, Er, Hp.
  destruct (load_spec i c rev now (upd i (retune_row (tuple_of k codec) codec p) s1) ch (retune_row (tuple_of k codec) codec p r)) as (gt & s2 & -> & E2 & F2).
  { simpl. by rewrite list_lookup_alter_eq, Er, Hr. }
  eapply (Step_alter g rev s s2 ch _ (fun r => load_row c rev now gt (retune_row (tuple_of k codec) codec p r)) i r).
  - etrans; [exact F|]. etrans; [apply Keeps_upd|exact F2].
  - rewrite E2. simpl. by rewrite Er, alter_twice.
  - done.
  - done.
  - intros r0 H0. split_and!; [done|done|]. intros Hok. simplify_eq. apply load_row_ok, (retune_row_ok rev s2 codec p).
    + eapply lookup_weaken; [exact Hp|]. destruct F2. done.
    + apply (row_ok_mono rev s); [|done]. destruct F, F2. by etrans.
Qed.

(** ** The loops of [sync] *)

(** Random numbers for all the rows that may still be made. *)
Definition rich (g : Config) (s : State) : Prop := (2 * limit g <= size (good s) + 2 * length (rows s))%nat.

Lemma rich_step g rev x x' : Step g rev x x' -> rich g x.1 -> rich g x'.1.
Proof. intros H. pose proof (st_good _ _ _ _ H). unfold rich. lia. Qed.

Lemma rich_new g k cl codec s : rich g s -> (length (rows s) < limit g)%nat -> is_Some (new_row g k cl codec s).
Proof. unfold rich. intros H1 H2. apply new_row_total. lia. Qed.

Lemma row_sat_spec rs f i : row_sat rs f i = true <-> exists r, rs !! i = Some r /\ f r = true.
Proof. unfold row_sat. destruct (rs !! i); naive_solver. Qed.

Lemma Step_load_slots g rev now cs x x' b : 0 <= rev -> load_slots g rev now cs x = Some (x', b) -> Step g rev x x'.
Proof.
  intros Hrev. revert x. induction cs as [|c cs IH]; intros x; simpl; [by intros [= -> _]|].
  destruct (List.find _ _) as [i|].
  - intros H. etrans; [apply Step_load|by apply IH].
  - destruct ((slot_budget g <=? slot_rows x.1)%nat || (limit g <=? length (rows x.1))%nat) eqn:Eb; [by intros [= -> _]|].
    apply orb_false_iff in Eb as [Eb1 Eb2]. apply Nat.leb_gt in Eb1, Eb2.
    destruct (new_row _ _ _ _ _) as [[s i]|] eqn:En; [|done]. intros H. etrans; [|by apply IH].
    destruct x as [s0 ch]. by eapply Step_new_load.
Qed.

Lemma load_slots_total g rev now cs x : 0 <= rev -> rich g x.1 -> is_Some (load_slots g rev now cs x).
Proof.
  intros Hrev. revert x. induction cs as [|c cs IH]; intros x Hr; simpl; [eauto|].
  destruct (List.find _ _) as [i|]; [apply IH, (rich_step g rev x); [apply Step_load|done]|].
  destruct (_ || _) eqn:Eb; [eauto|]. apply orb_false_iff in Eb as [Eb1 Eb2]. apply Nat.leb_gt in Eb1, Eb2.
  destruct (rich_new g (c_kind c) ClSlot (c_codec c) x.1 Hr Eb2) as [[s i] En]. rewrite En. apply IH, (rich_step g rev x); [|done].
  destruct x as [s0 ch]. by eapply Step_new_load.
Qed.

Lemma min_by_key_in f l i : min_by_key f l = Some i -> i ∈ l.
Proof.
  unfold min_by_key. assert (forall b, fold_left (min_step f) l b = Some i -> b = Some i \/ i ∈ l) as H.
  { induction l as [|a l IH]; intros b; simpl; [by left|]. intros H. apply IH in H as [H|H]; [|right; set_solver].
    unfold min_step in H. destruct b as [j|]; [destruct (_ <? _)|]; simplify_eq; set_solver. }
  intros E. by destruct (H None E).
Qed.

Lemma min_fold_some f l b : b <> None -> fold_left (min_step f) l b <> None.
Proof.
  revert b. induction l as [|a l IH]; intros b Hb; simpl; [done|]. apply IH. unfold min_step. destruct b; [|done]. by destruct (_ <? _).
Qed.

Lemma min_by_key_none f l : min_by_key f l = None -> l = [].
Proof. unfold min_by_key. destruct l as [|a l]; [done|]. intros E. simpl in E. by apply min_fold_some in E. Qed.

Lemma elem_idx_filter s f i : i ∈ List.filter (row_sat (rows s) f) (idx s) <-> exists r, rows s !! i = Some r /\ f r = true.
Proof.
  rewrite list_elem_of_In, filter_In, row_sat_spec. unfold idx. rewrite in_seq. split; [by intros [_ ?]|].
  intros (r & Hr & Hf). split; [apply lookup_lt_Some in Hr; lia|eauto].
Qed.

Lemma empty_of_spec k r : empty_of k r = true <-> class r = ClFull /\ r_kind r = k /\ track r = None.
Proof.
  unfold empty_of. rewrite !andb_true_iff, !bool_decide_eq_true. destruct (track r); naive_solver.
Qed.

(** The ways a candidate is placed. *)
Inductive Placed (g : Config) (k : Kind) (rev now : Z) (c : Cand) : State * list Change * bool -> State * list Change * bool -> Prop :=
  | AlreadyOn s ch tu :
      (exists r, r ∈ rows s /\ track r = Some (key_of c) /\ class r = ClFull) ->
      Placed g k rev now c (s, ch, tu) (set_waiting (delete (c_track c) (waiting s)) s, ch, tu)
  | OnEmpty s ch tu i r :
      rows s !! i = Some r -> empty_of k r = true -> tuple r = tuple_of k (c_codec c) ->
      Placed g k rev now c (s, ch, tu) (load i c rev now (set_waiting (delete (c_track c) (waiting s)) s, ch), tu)
  | OnNew s ch tu s' i :
      (full_rows k s < cap k)%nat -> (length (rows s) < limit g)%nat -> new_row g k ClFull (c_codec c) s = Some (s', i) ->
      Placed g k rev now c (s, ch, tu) (load i c rev now (set_waiting (delete (c_track c) (waiting s')) s', ch), tu)
  | OnRetuned s ch tu i r :
      rows s !! i = Some r -> empty_of k r = true ->
      Placed g k rev now c (s, ch, tu)
        (load i c rev now (set_waiting (delete (c_track c) (waiting (retune g k i (c_codec c) s))) (retune g k i (c_codec c) s), ch), true)
  | NoRoom s ch tu :
      (forall r, r ∈ rows s -> empty_of k r = false) -> ~ ((full_rows k s < cap k)%nat /\ (length (rows s) < limit g)%nat) ->
      (forall r, r ∈ rows s -> track r = Some (key_of c) -> class r <> ClFull) ->
      Placed g k rev now c (s, ch, tu) (s, ch, tu).

Lemma on_row_spec s c :
  existsb (fun r => bool_decide (track r = Some (key_of c)) && bool_decide (class r = ClFull)) (rows s) = true
  <-> exists r, r ∈ rows s /\ track r = Some (key_of c) /\ class r = ClFull.
Proof.
  rewrite existsb_exists. setoid_rewrite <- list_elem_of_In. setoid_rewrite andb_true_iff. by setoid_rewrite bool_decide_eq_true.
Qed.

Lemma place_one_placed g k rev now c x x' : place_one g k rev now c x = Some x' -> Placed g k rev now c x x'.
Proof.
  destruct x as [[s ch] tu]. unfold place_one.
  destruct (existsb _ _) eqn:Ea; [intros [= <-]; apply AlreadyOn; by apply on_row_spec|].
  destruct (min_by_key _ _) as [i|] eqn:Em.
  - apply min_by_key_in, elem_idx_filter in Em as (r & Hr & Hf). apply andb_true_iff in Hf as [He Et]. apply String.eqb_eq in Et.
    destruct (load _ _ _ _ _) as [s' ch'] eqn:El. intros [= <-]. rewrite <- El. by apply (OnEmpty g k rev now c s ch tu i r).
  - destruct ((full_rows k s <? cap k)%nat && (length (rows s) <? limit g)%nat) eqn:Eb.
    + destruct (new_row _ _ _ _ _) as [[s1 i]|] eqn:En; [|done]. apply andb_true_iff in Eb as [E1 E2]. apply Nat.ltb_lt in E1, E2.
      destruct (load _ _ _ _ _) as [s' ch'] eqn:El. intros [= <-]. rewrite <- El. by apply OnNew.
    + destruct (min_by_key (row_val (rows s) loaded_at) _) as [i|] eqn:Em2.
      * apply min_by_key_in, elem_idx_filter in Em2 as (r & Hr & He).
        destruct (load _ _ _ _ _) as [s' ch'] eqn:El. intros [= <-]. rewrite <- El. by apply (OnRetuned g k rev now c s ch tu i r).
      * intros [= <-]. apply min_by_key_none in Em2. apply NoRoom.
        -- intros r Hr. apply list_elem_of_lookup in Hr as [i Hi]. destruct (empty_of k r) eqn:He; [|done].
           assert (i ∈ List.filter (row_sat (rows s) (empty_of k)) (idx s)) as Hin by (apply elem_idx_filter; eauto). rewrite Em2 in Hin. set_solver.
        -- intros [E1 E2]. apply Nat.ltb_lt in E1, E2. by rewrite E1, E2 in Eb.
        -- intros r Hr Ht Hc. enough (false = true) by done. rewrite <- Ea. apply on_row_spec. eauto.
Qed.

Lemma load_waiting i c rev now w s ch :
  load i c rev now (set_waiting w s, ch) = (set_waiting w (load i c rev now (s, ch)).1, (load i c rev now (s, ch)).2).
Proof.
  unfold load, opt_gate, gate. cbn [fst snd gates set_waiting]. destruct (_ && _); [destruct (gates s !! c_room c) as [[[? ?] ?]|]|];
    cbn [rows set_waiting set_gates]; by destruct (rows s !! i).
Qed.

Lemma Step_waiting g rev x w : Step g rev x (set_waiting w x.1, x.2).
Proof. destruct x. by apply Step_same. Qed.

Lemma Step_placed g k rev now c s ch tu x' : 0 <= rev -> Placed g k rev now c (s, ch, tu) x' -> Step g rev (s, ch) x'.1.
Proof.
  intros Hrev H. remember (s, ch, tu) as x eqn:Ex. destruct H; injection Ex as -> -> ->; cbn [fst snd].
  - apply (Step_waiting g rev (s, ch)).
  - rewrite load_waiting. etrans; [apply Step_load|apply Step_waiting].
  - rewrite load_waiting. etrans; [by eapply Step_new_load|apply Step_waiting].
  - rewrite load_waiting. etrans; [|apply Step_waiting]. apply empty_of_spec in H0 as (? & ? & ?). by eapply Step_retune_load.
  - done.
Qed.

Lemma place_one_total g k rev now c x : rich g x.1.1 -> is_Some (place_one g k rev now c x).
Proof.
  destruct x as [[s ch] tu]. unfold place_one. intros Hr. cbn [fst] in Hr.
  destruct (existsb _ _); [eauto|]. destruct (min_by_key _ _) as [i|].
  - destruct (load _ _ _ _ _). eauto.
  - destruct (_ && _) eqn:Eb.
    + apply andb_true_iff in Eb as [_ E2]. apply Nat.ltb_lt in E2.
      destruct (rich_new g k ClFull (c_codec c) s Hr E2) as [[s1 i] ->]. destruct (load _ _ _ _ _). eauto.
    + destruct (min_by_key _ _) as [i|]; [|eauto]. destruct (load _ _ _ _ _). eauto.
Qed.

Lemma Step_place_all g k rev now cs x x' : 0 <= rev -> place_all g k rev now cs x = Some x' -> Step g rev x.1 x'.1.
Proof.
  intros Hrev. revert x. induction cs as [|c cs IH]; intros x; simpl; [by intros [= ->]|].
  destruct (place_one _ _ _ _ _ _) as [y|] eqn:E; [|done]. intros H. apply place_one_placed in E.
  destruct x as [[s ch] tu]. etrans; [by eapply Step_placed|by apply IH].
Qed.

Lemma place_all_total g k rev now cs x : 0 <= rev -> rich g x.1.1 -> is_Some (place_all g k rev now cs x).
Proof.
  intros Hrev. revert x. induction cs as [|c cs IH]; intros x Hr; simpl; [eauto|].
  destruct (place_one_total g k rev now c x Hr) as [y Ey]. rewrite Ey. apply place_one_placed in Ey. apply IH.
  destruct x as [[s ch] tu]. by eapply (rich_step g rev (s, ch) y.1), Hr; eapply Step_placed.
Qed.

(** What comes before the placing in a pass: the state and the targets. *)
Definition pass_state (cands : list Cand) (k : Kind) (rev now : Z) (x : State * list Change) : (State * list Change) * list Cand :=
  let (s, ch) := fold_left (rehome_one cands k rev now) (idx x.1) x in
  let s := set_waiting (fold_left (wait_one k now s) (desired cands k) (waiting s)) s in
  let tg := target cands k now s in
  (unload_where (fun r => bool_decide (class r = ClFull) && bool_decide (r_kind r = k)
     && match track r with Some t => negb (existsb (is_key t) tg) | None => false end) rev (s, ch), tg).

Lemma kind_pass_eq g cands k rev now x tu :
  kind_pass g cands k rev now (x, tu) =
  let '(s, ch, tg) := pass_state cands k rev now x in place_all g k rev now tg (s, ch, tu).
Proof.
  destruct x as [s ch]. unfold kind_pass, pass_state. cbn [fst]. destruct (fold_left _ _ _) as [s1 ch1]. by destruct (unload_where _ _ _).
Qed.

Lemma Step_pass_state g cands k rev now x : Step g rev x (pass_state cands k rev now x).1.
Proof.
  unfold pass_state. etrans; [apply (Step_rehome_all g rev cands k now (idx x.1) x)|].
  destruct (fold_left _ _ _) as [s ch]. etrans; [apply (Step_waiting g rev (s, ch))|]. apply Step_unload_where.
Qed.

Lemma Step_kind_pass g cands k rev now x x' : 0 <= rev -> kind_pass g cands k rev now x = Some x' -> Step g rev x.1 x'.1.
Proof.
  intros Hrev. destruct x as [x tu]. rewrite kind_pass_eq. pose proof (Step_pass_state g cands k rev now x) as H.
  destruct (pass_state _ _ _ _ _) as [[s ch] tg]. intros E. etrans; [exact H|by apply Step_place_all in E].
Qed.

Lemma kind_pass_total g cands k rev now x : 0 <= rev -> rich g x.1.1 -> is_Some (kind_pass g cands k rev now x).
Proof.
  intros Hrev Hr. destruct x as [x tu]. rewrite kind_pass_eq. pose proof (Step_pass_state g cands k rev now x) as H.
  destruct (pass_state _ _ _ _ _) as [[s ch] tg]. apply place_all_total; [done|]. by apply (rich_step g rev x (s, ch)).
Qed.

End SubI.
