(* ===== verification/SubSlots.v ===== *)
(** * The m-line table: push-to-talk rows

    The rows a [sync] needs for slots are counted before anything is changed
    ([fresh_slot_rows]); the count is right, so a [sync] that starts to load slots is never
    short of rows, and one that is refused has changed nothing. *)

From S2P Require Import Prelude Utf8 Keyexpr Rewriter Rtp Room Tracks SubTable SubInv.

Module SubS.
Import Trk Sub SubI.

(** ** Emptying rows *)

Definition emptied (f : Row -> bool) (rev : Z) (r : Row) : Row :=
  if f r then match track r with Some _ => unload_row rev r | None => r end else r.

Lemma unload_rows i rev x :
  rows (unload i rev x).1 = alter (fun r => match track r with Some _ => unload_row rev r | None => r end) i (rows x.1).
Proof.
  destruct x as [s ch]. unfold unload. destruct (rows s !! i) as [r|] eqn:E.
  - destruct (track r) as [o|] eqn:Et; simpl.
    + apply list_eq. intros j. destruct (decide (i = j)) as [<-|]; [rewrite !list_lookup_alter_eq, E; simpl; by rewrite Et|by rewrite !list_lookup_alter_ne].
    + apply list_eq. intros j. destruct (decide (i = j)) as [<-|]; [rewrite list_lookup_alter_eq, E; simpl; by rewrite Et|by rewrite list_lookup_alter_ne].
  - simpl. apply list_eq. intros j. destruct (decide (i = j)) as [<-|]; [by rewrite list_lookup_alter_eq, E|by rewrite list_lookup_alter_ne].
Qed.

Lemma unload_one f rev i x j :
  rows (if row_sat (rows x.1) f i then unload i rev x else x).1 !! j
  = (if decide (j = i) then emptied f rev else (fun r => r)) <$> rows x.1 !! j.
Proof.
  unfold row_sat, emptied. destruct (decide (j = i)) as [->|Hne].
  - destruct (rows x.1 !! i) as [r|] eqn:E; [|by rewrite E]. destruct (f r) eqn:Ef; [|rewrite E; simpl; by rewrite Ef].
    rewrite unload_rows, list_lookup_alter_eq, E. simpl. by rewrite Ef.
  - rewrite option_fmap_id. destruct (match rows x.1 !! i with Some r => f r | None => false end); [|done].
    by rewrite unload_rows, list_lookup_alter_ne.
Qed.

Lemma unload_each f rev l x j : NoDup l ->
  rows (fold_left (fun x i => if row_sat (rows x.1) f i then unload i rev x else x) l x).1 !! j
  = (if decide (j ∈ l) then emptied f rev else (fun r => r)) <$> rows x.1 !! j.
Proof.
  intros Hl. revert x. induction Hl as [|i l Hi Hl IH]; intros x; cbn [fold_left].
  - rewrite decide_False by set_solver. by rewrite option_fmap_id.
  - rewrite IH, unload_one. destruct (rows x.1 !! j) as [r|]; [|done]. cbn [fmap option_fmap option_map]. f_equal.
    destruct (decide (j = i)) as [->|Hne].
    + rewrite (decide_False (P := i ∈ l)) by done. by rewrite decide_True by set_solver.
    + destruct (decide (j ∈ l)); [rewrite decide_True by set_solver|rewrite decide_False by set_solver]; done.
Qed.

Lemma unload_where_rows f rev x : rows (unload_where f rev x).1 = map (emptied f rev) (rows x.1).
Proof.
  apply list_eq. intros j. unfold unload_where. rewrite unload_each, list_lookup_fmap by apply NoDup_seq.
  destruct (rows x.1 !! j) as [r|] eqn:E; [|done]. rewrite decide_True; [done|]. unfold idx. apply elem_of_seq.
  apply lookup_lt_Some in E. lia.
Qed.

(** ** Counting the rows for slots *)

Definition free_slot (c : Cand) (r : Row) : bool :=
  bool_decide (class r = ClSlot) && bool_decide (r_kind r = c_kind c) && is_none (track r) && String.eqb (tuple r) (tuple_of (c_kind c) (c_codec c)).

(** How the table looks while slots are loaded, against the state [s] they were counted in:
    a row that was free or to be emptied is free now unless it is claimed; the new rows are
    all taken. *)
Record Claims (s : State) (cands : list Cand) (claimed : list nat) (y : State) : Prop := {
  cl_old : forall i r, rows s !! i = Some r -> exists r', rows y !! i = Some r' /\ class r' = class r /\ r_kind r' = r_kind r /\ tuple r' = tuple r
           /\ (class r = ClSlot -> is_none (track r') = negb (bool_decide (i ∈ claimed)) && (is_none (track r) || unwanted cands r));
  cl_new : forall i r', rows s !! i = None -> rows y !! i = Some r' -> track r' <> None }.

Lemma find_ext_in {A} (f h : A -> bool) l : (forall x, x ∈ l -> f x = h x) -> List.find f l = List.find h l.
Proof.
  induction l as [|a l IH]; intros H; [done|]. simpl. rewrite (H a) by set_solver. destruct (h a); [done|]. apply IH. set_solver.
Qed.

Lemma find_none_in {A} (f : A -> bool) l : (forall x, x ∈ l -> f x = false) -> List.find f l = None.
Proof. induction l as [|a l IH]; intros H; [done|]. simpl. rewrite (H a) by set_solver. apply IH. set_solver. Qed.

Lemma find_app_l {A} (f : A -> bool) l k : List.find f k = None -> List.find f (l ++ k) = List.find f l.
Proof. intros H. induction l as [|a l IH]; [done|]. simpl. by destruct (f a). Qed.

(** The row that is found when a slot is loaded is the row that was claimed when it was counted. *)
Lemma claims_find s cands claimed y c : (length (rows s) <= length (rows y))%nat -> Claims s cands claimed y ->
  List.find (row_sat (rows y) (fun r =>
    bool_decide (class r = ClSlot) && bool_decide (r_kind r = c_kind c) && is_none (track r) && String.eqb (tuple r) (tuple_of (c_kind c) (c_codec c)))) (idx y)
  = List.find (fun i => negb (bool_decide (i ∈ claimed)) && row_sat (rows s) (fun r =>
      bool_decide (class r = ClSlot) && bool_decide (r_kind r = c_kind c) && String.eqb (tuple r) (tuple_of (c_kind c) (c_codec c))
      && (is_none (track r) || unwanted cands r)) i) (idx s).
Proof.
  intros Hle [Ho Hn]. unfold idx. replace (length (rows y)) with (length (rows s) + (length (rows y) - length (rows s)))%nat by lia.
  rewrite seq_app, find_app_l.
  - apply find_ext_in. intros i Hi. apply elem_of_seq in Hi. destruct (lookup_lt_is_Some_2 (rows s) i ltac:(lia)) as [r Hr].
    destruct (Ho i r Hr) as (r' & Hr' & Ec & Ek & Et & Hf). unfold row_sat. rewrite Hr, Hr', Ec, Ek, Et.
    destruct (decide (class r = ClSlot)) as [Hc|Hc]; [rewrite (bool_decide_true _ Hc), (Hf Hc)|rewrite (bool_decide_false _ Hc); simpl; by rewrite andb_false_r].
    destruct (bool_decide (r_kind r = c_kind c)), (bool_decide (i ∈ claimed)), (is_none (track r) || unwanted cands r), (String.eqb _ _); done.
  - apply find_none_in. intros i Hi. apply elem_of_seq in Hi. unfold row_sat. destruct (rows y !! i) as [r'|] eqn:E; [|done].
    assert (track r' <> None) as Ht by (apply (Hn i r'); [apply lookup_ge_None; lia|done]). destruct (track r'); [|done]. by rewrite andb_false_r.
Qed.

Lemma claims_start s cands rev : Claims s cands [] (set_rows (map (emptied (unwanted cands) rev) (rows s)) s).
Proof.
  split; cbn [rows set_rows].
  - intros i r Hr. exists (emptied (unwanted cands) rev r). rewrite list_lookup_fmap, Hr. split; [done|]. unfold emptied.
    destruct (unwanted cands r) eqn:Eu; [|split_and!; try done; intros _; by rewrite orb_false_r].
    unfold unwanted in Eu. destruct (track r) as [t|] eqn:Et; [|by rewrite andb_false_r in Eu]. done.
  - intros i r' H. rewrite list_lookup_fmap, H. done.
Qed.

Lemma claims_load s cands claimed y i c rev now ch : Claims s cands claimed y -> (i < length (rows s))%nat ->
  Claims s cands (i :: claimed) (load i c rev now (y, ch)).1.
Proof.
  intros [Ho Hn] Hi. destruct (lookup_lt_is_Some_2 (rows s) i Hi) as [r Hr]. destruct (Ho i r Hr) as (r' & Hr' & _).
  destruct (load_spec i c rev now y ch r' Hr') as (gt & y' & -> & E & _). cbn [fst]. split.
  - intros j rj Hj. destruct (Ho j rj Hj) as (rj' & Hj' & ? & ? & ? & Hf). rewrite E. destruct (decide (i = j)) as [<-|Hne].
    + rewrite list_lookup_alter_eq, Hj'. eexists. split; [reflexivity|]. split_and!; try done. intros _. by rewrite bool_decide_true by set_solver.
    + rewrite list_lookup_alter_ne by done. exists rj'. split_and!; try done. intros Hc. rewrite (Hf Hc). f_equal. f_equal. apply bool_decide_ext. set_solver.
  - intros j rj Hj. rewrite E, list_lookup_alter_ne; [by apply Hn|]. intros ->. congruence.
Qed.

Lemma claims_push s cands claimed y y' r : (length (rows s) <= length (rows y))%nat -> Claims s cands claimed y ->
  rows y' = rows y ++ [r] -> track r <> None -> Claims s cands claimed y'.
Proof.
  intros Hle [Ho Hn] E Ht. split.
  - intros j rj Hj. destruct (Ho j rj Hj) as (rj' & Hj' & ?). exists rj'. split; [rewrite E; by apply lookup_app_l_Some|done].
  - intros j rj Hj. rewrite E, lookup_app_Some. intros [?|[? H]]; [by eapply Hn|]. by apply list_lookup_singleton_Some in H as [_ <-].
Qed.

Lemma fresh_one_mono s cands x c : (x.2 <= (fresh_one s cands x c).2)%nat.
Proof. destruct x as [cl f]. unfold fresh_one. destruct (has_slot _ _); [done|]. destruct (List.find _ _); simpl; lia. Qed.

Lemma fresh_mono s cands cs x : (x.2 <= (fold_left (fresh_one s cands) cs x).2)%nat.
Proof. revert x. induction cs as [|c cs IH]; intros x; [done|]. simpl. etrans; [apply fresh_one_mono|apply IH]. Qed.

Lemma load_slot_rows i c rev now y ch : slot_rows (load i c rev now (y, ch)).1 = slot_rows y /\ length (rows (load i c rev now (y, ch)).1) = length (rows y).
Proof.
  destruct (rows y !! i) as [r|] eqn:Hr.
  - destruct (load_spec i c rev now y ch r Hr) as (gt & y' & -> & E & _). simpl. rewrite E, length_alter. split; [|done].
    apply slot_rows_ids. rewrite E. by apply ids_alter.
  - unfold load. pose proof (Keeps_gate (bool_decide (c_class c = ClFull) && bool_decide (c_kind c = Video)) (c_room c) now y) as [_ E].
    cbn [fst snd]. destruct (opt_gate _ _ _ _) as [s' gt]. cbn [fst] in E. rewrite E, Hr. done.
Qed.

(** A new row, loaded. *)
Lemma new_load_spec g k cl codec c rev now s s' i ch : 0 <= rev -> new_row g k cl codec s = Some (s', i) ->
  exists gt r x', load i c rev now (s', ch) = (x', ch ++ [mkChange i cl None (Some (key_of c))])
  /\ rows x' = rows s ++ [load_row c rev now gt r] /\ r_kind r = k /\ class r = cl.
Proof.
  intros Hrev E. apply (new_row_spec _ _ _ _ rev) in E as (-> & r & Fr & <- & <- & Ht & _); [|done].
  destruct (load_spec (length (rows s)) c rev now s' ch r) as (gt & x' & -> & E2 & _).
  { rewrite (fs_rows _ _ _ _ _ Fr). by apply list_lookup_middle. }
  rewrite (fs_rows _ _ _ _ _ Fr), alter_snoc in E2. exists gt, r, x'. by rewrite Ht.
Qed.

(** The count is right: where it fits, the loading is not cut short. *)
Lemma load_slots_fit g rev now s cands cs claimed f y ch y' b : 0 <= rev ->
  (length (rows s) <= length (rows y))%nat -> Claims s cands claimed y ->
  (slot_rows y + ((fold_left (fresh_one s cands) cs (claimed, f)).2 - f) <= slot_budget g)%nat ->
  (length (rows y) + ((fold_left (fresh_one s cands) cs (claimed, f)).2 - f) <= limit g)%nat ->
  load_slots g rev now (List.filter (fun c => negb (has_slot (rows s) c)) cs) (y, ch) = Some (y', b) -> b = None.
Proof.
  intros Hrev. revert claimed f y ch. induction cs as [|c cs IH]; intros claimed f y ch Hle Hc Hs Hl; cbn [List.filter load_slots]; [by intros [= _ <-]|].
  cbn [fold_left] in Hs, Hl. unfold fresh_one at 2 in Hs. unfold fresh_one at 2 in Hl.
  destruct (has_slot (rows s) c); [by apply (IH claimed f)|]. cbn [negb load_slots fst snd]. rewrite (claims_find s cands claimed y c Hle Hc).
  destruct (List.find _ (idx s)) as [i|] eqn:Ei.
  - destruct (load_slot_rows i c rev now y ch) as [E1 E2]. destruct (load i c rev now (y, ch)) as [y1 ch1] eqn:El. cbn [fst] in *.
    apply find_some in Ei as [Ei _]. apply in_seq in Ei.
    apply (IH (i :: claimed) f); [by rewrite E2| |by rewrite E1|by rewrite E2].
    pose proof (claims_load s cands claimed y i c rev now ch Hc ltac:(lia)) as H. by rewrite El in H.
  - pose proof (fresh_mono s cands cs (claimed, S f)) as Hm. cbn [snd] in Hm.
    replace ((slot_budget g <=? slot_rows y)%nat || (limit g <=? length (rows y))%nat) with false by (symmetry; apply orb_false_iff; rewrite !Nat.leb_gt; lia).
    destruct (new_row _ _ _ _ _) as [[s1 i]|] eqn:En; [|done].
    destruct (new_load_spec _ _ _ _ c rev now _ _ _ ch Hrev En) as (gt & r & y1 & -> & E1 & _ & Er).
    assert (slot_rows y1 = S (slot_rows y)) as E2 by (rewrite (slot_rows_app y y1 _ E1); cbn [class load_row]; rewrite Er, bool_decide_true by done; lia).
    assert (length (rows y1) = S (length (rows y))) as E3 by (rewrite E1, length_app; simpl; lia).
    apply (IH claimed (S f)); [lia| |lia|lia]. by apply (claims_push s cands claimed y y1 (load_row c rev now gt r)).
Qed.

Lemma has_slot_emptied cands rev rs c : In c cands -> is_slot c = true ->
  has_slot (map (emptied (unwanted cands) rev) rs) c = has_slot rs c.
Proof.
  intros Hc Hs. unfold has_slot. induction rs as [|r rs IH]; [done|]. simpl. rewrite IH. f_equal. unfold emptied.
  destruct (unwanted cands r) eqn:Eu; [|done]. unfold unwanted in Eu. destruct (track r) as [t|] eqn:Et; [|by rewrite Et].
  apply andb_true_iff in Eu as [Ec Ew]. cbn [class r_kind track unload_row]. rewrite Ec, andb_false_r. simpl.
  destruct (bool_decide (r_kind r = c_kind c)) eqn:Ek; [|done]. apply bool_decide_eq_true in Ek.
  destruct (String.eqb t.2 (c_room c)) eqn:Er; [|done]. apply String.eqb_eq in Er. exfalso.
  apply negb_true_iff in Ew. enough (want_slot cands t.2 (r_kind r) = true) by congruence.
  unfold want_slot. apply existsb_exists. exists c. split; [done|]. rewrite Hs, Er, Ek, String.eqb_refl. by rewrite bool_decide_true.
Qed.

End SubS.
