(* ===== verification/SubAssign.v ===== *)
(** * The m-line table: which tracks are on the rows

    A pass of [sync] over one kind leaves the rows of the other kind and of the slots alone,
    and puts exactly the candidates it chose on the rows of its kind. *)

From S2P Require Import Prelude Utf8 Keyexpr Rewriter Rtp Room Tracks SubTable SubInv SubSlots.

Module SubA.
Import Trk Sub SubI SubS.

Definition mine (k : Kind) (r : Row) : bool := bool_decide (class r = ClFull) && bool_decide (r_kind r = k).
Definition others (k : Kind) (rs : list Row) : list Row := List.filter (fun r => negb (mine k r)) rs.

(** The tracks on the full-duplex rows of a kind. *)
Definition loaded (k : Kind) (rs : list Row) : list (string * string) := omap (fun r => if mine k r then track r else None) rs.

Definition opt_list {A} (o : option A) : list A := match o with Some x => [x] | None => [] end.

Lemma loaded_cons k r rs : loaded k (r :: rs) = (if mine k r then opt_list (track r) else []) ++ loaded k rs.
Proof. unfold loaded. cbn. by destruct (mine k r), (track r). Qed.

Lemma loaded_app k a b : loaded k (a ++ b) = loaded k a ++ loaded k b.
Proof. apply omap_app. Qed.

Lemma others_app k a b : others k (a ++ b) = others k a ++ others k b.
Proof. apply List.filter_app. Qed.

Lemma mine_others k k' r : k <> k' -> mine k r = true -> mine k' r = false.
Proof. unfold mine. rewrite andb_true_iff, andb_false_iff, !bool_decide_eq_true, !bool_decide_eq_false. naive_solver. Qed.

Lemma loaded_others k k' rs : k <> k' -> loaded k rs = loaded k (others k' rs).
Proof.
  intros Hk. induction rs as [|r rs IH]; [done|]. rewrite loaded_cons. unfold others. cbn [List.filter]. destruct (mine k' r) eqn:E; cbn [negb].
  - by rewrite (mine_others k' k r).
  - by rewrite loaded_cons, IH.
Qed.

Lemma has_slot_others k rs c : has_slot rs c = has_slot (others k rs) c.
Proof.
  unfold has_slot, others. induction rs as [|r rs IH]; [done|]. cbn [existsb List.filter]. rewrite IH.
  destruct (mine k r) eqn:E; cbn [negb existsb]; [|done]. unfold mine in E. apply andb_true_iff in E as [E _]. apply bool_decide_eq_true in E.
  by rewrite E.
Qed.

(** One row of kind [k] is replaced by one of kind [k], or added. *)
Inductive Put (k : Kind) (c : Cand) : list Row -> list Row -> Prop :=
  | PutAt a r b r' : mine k r = true -> track r = None -> mine k r' = true -> track r' = Some (key_of c) -> Put k c (a ++ r :: b) (a ++ r' :: b)
  | PutEnd a r' : mine k r' = true -> track r' = Some (key_of c) -> Put k c a (a ++ [r']).

Lemma put_others k c rs rs' : Put k c rs rs' -> others k rs' = others k rs.
Proof.
  intros []; rewrite ?others_app; unfold others; simpl.
  - by rewrite H, H1.
  - rewrite H. simpl. by rewrite app_nil_r.
Qed.

Lemma put_loaded k c rs rs' : Put k c rs rs' -> loaded k rs' ≡ₚ key_of c :: loaded k rs.
Proof.
  intros [].
  - rewrite !loaded_app, !loaded_cons, H, H1, H0, H2. simpl. by rewrite Permutation_middle.
  - rewrite loaded_app, loaded_cons, H, H0. by rewrite Permutation_app_comm.
Qed.

Lemma alter_put k c i rs r f : rs !! i = Some r -> mine k r = true -> track r = None -> mine k (f r) = true -> track (f r) = Some (key_of c) ->
  Put k c rs (alter f i rs).
Proof.
  intros Hi Hm Ht Hm' Ht'. rewrite <- (take_drop_middle rs i r Hi) at 1.
  replace (alter f i rs) with (take i rs ++ f r :: drop (S i) rs); [by apply PutAt|].
  rewrite <- (take_drop_middle rs i r Hi) at 3. pose proof (lookup_lt_Some _ _ _ Hi) as Hlt.
  assert (length (take i rs) = i) as Hl by (rewrite length_take; lia).
  rewrite alter_app_r_alt by lia. rewrite Hl, Nat.sub_diag. done.
Qed.

Lemma empty_mine k r : empty_of k r = true -> mine k r = true /\ track r = None.
Proof. rewrite empty_of_spec. unfold mine. intros (-> & -> & ->). by rewrite !bool_decide_true. Qed.

Lemma load_put k i c rev now s ch r : rows s !! i = Some r -> empty_of k r = true ->
  Put k c (rows s) (rows (load i c rev now (s, ch)).1).
Proof.
  intros Hr He. apply empty_mine in He as [Hm Ht]. destruct (load_spec i c rev now s ch r Hr) as (gt & s' & -> & E & _). simpl. rewrite E.
  by apply (alter_put k c i (rows s) r).
Qed.

(** What [Placed] is for the rows. *)
Lemma placed_rows g k rev now c s ch tu x' : 0 <= rev -> Placed g k rev now c (s, ch, tu) x' ->
  Put k c (rows s) (rows x'.1.1)
  \/ (rows x'.1.1 = rows s /\ (key_of c ∈ loaded Audio (rows s) ++ loaded Video (rows s)
       \/ ((forall r, r ∈ rows s -> empty_of k r = false) /\ ~ ((full_rows k s < cap k)%nat /\ (length (rows s) < limit g)%nat)))).
Proof.
  intros Hrev H. remember (s, ch, tu) as x eqn:Ex. destruct H; injection Ex as -> -> ->; cbn [fst snd]; rewrite ?load_waiting; cbn [fst rows set_waiting].
  - right. split; [done|left]. destruct H as (r & Hr & Ht & Hc). apply elem_of_app.
    assert (key_of c ∈ loaded (r_kind r) (rows s)) as Hin.
    { apply list_elem_of_omap. exists r. split; [done|]. unfold mine. by rewrite Hc, !bool_decide_true. }
    destruct (r_kind r); [by left|by right].
  - left. by eapply load_put.
  - left. destruct (new_load_spec _ _ _ _ c rev now _ _ _ ch Hrev H1) as (gt & r & y & -> & E & Ek & Ec). simpl. rewrite E. apply PutEnd; [|done].
    unfold mine. simpl. by rewrite Ek, Ec, !bool_decide_true.
  - left. apply empty_of_spec in H0 as (Hc & Hk & Ht). unfold retune. pose proof (Keeps_pt_for g k (tuple_of k (c_codec c)) (c_codec c) s) as (F & Er & Hp).
    destruct (pt_for _ _ _ _ _) as [s1 p]. cbn [fst snd] in Er. set (f := retune_row _ _ _).
    destruct (load_spec i c rev now (upd i f s1) ch (f r)) as (gt & s2 & -> & E2 & _).
    { simpl. by rewrite list_lookup_alter_eq, Er, H. }
    cbn [fst]. rewrite E2. simpl. rewrite Er, alter_twice. apply (alter_put k c i (rows s) r); try done; unfold mine; simpl; by rewrite ?Hc, ?Hk, !bool_decide_true.
  - right. split; [done|right]. done.
Qed.

(** ** Following a track into another room *)

Lemma alter_split {A} (f : A -> A) i (rs : list A) r : rs !! i = Some r ->
  rs = take i rs ++ r :: drop (S i) rs /\ alter f i rs = take i rs ++ f r :: drop (S i) rs.
Proof.
  intros Hi. pose proof (take_drop_middle rs i r Hi) as E. split; [done|]. rewrite <- E at 1. pose proof (lookup_lt_Some _ _ _ Hi).
  assert (length (take i rs) = i) as Hl by (rewrite length_take; lia). rewrite alter_app_r_alt by lia. by rewrite Hl, Nat.sub_diag.
Qed.

(** The rows of a kind may change, but not which track ids are on them. *)
Definition same_ids (k : Kind) (rs rs' : list Row) : Prop := others k rs' = others k rs /\ map fst (loaded k rs') = map fst (loaded k rs).

Lemma alter_same_ids k f i rs r : rs !! i = Some r -> mine k r = true -> mine k (f r) = true -> fst <$> track (f r) = fst <$> track r ->
  same_ids k rs (alter f i rs).
Proof.
  intros Hi Hm Hm' Ht. destruct (alter_split f i rs r Hi) as [E1 E2]. rewrite E2. unfold same_ids.
  replace (others k rs) with (others k (take i rs ++ r :: drop (S i) rs)) by (by rewrite <- E1).
  replace (loaded k rs) with (loaded k (take i rs ++ r :: drop (S i) rs)) by (by rewrite <- E1).
  rewrite !others_app, !loaded_app, !loaded_cons, Hm, Hm', !map_app. unfold others at 2 4. simpl. rewrite Hm, Hm'. split; [done|]. f_equal. f_equal.
  destruct (track (f r)), (track r); by simplify_eq/=; f_equal.
Qed.

Lemma rehome_one_ids cands k rev now x i : same_ids k (rows x.1) (rows (rehome_one cands k rev now x i).1).
Proof.
  unfold rehome_one. destruct (rows x.1 !! i) as [r|] eqn:Hr; [|done]. destruct (negb _) eqn:Hm; [done|]. apply negb_false_iff in Hm.
  destruct (track r) as [t|] eqn:Ht; [|done]. destruct (existsb _ _); [done|]. destruct (List.find _ _) as [c|] eqn:Ef; [|done].
  apply find_some in Ef as [_ Ef]. apply andb_true_iff in Ef as [Ef _]. apply andb_true_iff in Ef as [_ Ef]. apply String.eqb_eq in Ef.
  unfold rehome. destruct x as [s ch]. cbn [fst snd] in *.
  pose proof (Keeps_gate (bool_decide (c_kind c = Video)) (c_room c) now s) as [_ E]. destruct (opt_gate _ _ _ _) as [s' gt]. cbn [fst] in E.
  rewrite E, Hr. cbn [fst rows upd set_rows]. rewrite E. apply (alter_same_ids k _ i (rows s) r); try done. simpl. by rewrite Ht, Ef.
Qed.

Lemma rehome_all_ids cands k rev now l x : same_ids k (rows x.1) (rows (fold_left (rehome_one cands k rev now) l x).1).
Proof.
  revert x. induction l as [|i l IH]; intros x; [done|]. simpl. destruct (IH (rehome_one cands k rev now x i)) as [H1 H2].
  destruct (rehome_one_ids cands k rev now x i) as [H3 H4]. split; congruence.
Qed.

(** ** Emptying the rows that are not wanted any more *)

Lemma emptied_loaded k gone rev rs (keep : string * string -> bool) :
  (forall r, gone r = mine k r && match track r with Some t => negb (keep t) | None => false end) ->
  others k (map (emptied gone rev) rs) = others k rs /\ loaded k (map (emptied gone rev) rs) = List.filter keep (loaded k rs).
Proof.
  intros Hg. induction rs as [|r rs [IH1 IH2]]; [done|]. cbn [map]. rewrite !loaded_cons, List.filter_app, <- IH2. unfold others in *. cbn [List.filter].
  assert (emptied gone rev r = if mine k r then match track r with Some t => if keep t then r else unload_row rev r | None => r end else r) as ->.
  { unfold emptied. rewrite Hg. destruct (mine k r), (track r) as [t|]; try done. simpl. by destruct (keep t). }
  destruct (mine k r) eqn:Em; [|by rewrite Em, IH1].
  destruct (track r) as [t|] eqn:Et; [|by rewrite Em, Et]. cbn [opt_list List.filter]. destruct (keep t) eqn:Ek; [by rewrite Em, Et|].
  by assert (mine k (unload_row rev r) = true) as -> by done.
Qed.

(** ** Choosing *)

Lemma sort_in_perm {A} (le : A -> A -> bool) x l : sort_in le x l ≡ₚ x :: l.
Proof. induction l as [|y l IH]; simpl; [done|]. destruct (le x y); [done|]. by rewrite IH, Permutation_swap. Qed.
Lemma sort_by_perm {A} (le : A -> A -> bool) l : sort_by le l ≡ₚ l.
Proof. induction l as [|x l IH]; [done|]. simpl. by rewrite sort_in_perm, IH. Qed.

Definition by_rank (a b : Cand) : Prop := rank b <= rank a.

Lemma cand_le_rank k now s a b : (cand_le k now s a b = true -> by_rank a b) /\ (cand_le k now s a b = false -> by_rank b a).
Proof.
  unfold cand_le, by_rank. destruct (Z.ltb_spec (rank b) (rank a)); [split; [lia|done]|]. destruct (Z.eqb_spec (rank a) (rank b)); [split; intros; lia|].
  split; [done|lia].
Qed.

Lemma sort_in_ranked k now s x l : Sorted by_rank l -> Sorted by_rank (sort_in (cand_le k now s) x l).
Proof.
  induction 1 as [|y l Hl IH Hy]; simpl; [by repeat constructor|]. destruct (cand_le_rank k now s x y) as [Ht Hf].
  destruct (cand_le k now s x y) eqn:E; [repeat constructor; auto|]. constructor; [done|].
  destruct l as [|z l]; simpl in *; [constructor; auto|]. destruct (cand_le k now s x z); constructor; [auto|by inversion Hy].
Qed.

Lemma sort_by_ranked k now s l : StronglySorted by_rank (sort_by (cand_le k now s) l).
Proof.
  apply Sorted_StronglySorted; [unfold by_rank; intros a b c; lia|]. induction l; simpl; [constructor|by apply sort_in_ranked].
Qed.

(** [T] is what is chosen among the candidates of a kind: as many as there are rows for, and
    none that is left out has a higher rank. *)
Record Chosen (cands : list Cand) (k : Kind) (T : list Cand) : Prop := {
  chosen_from : T ⊆+ desired cands k;
  chosen_many : length T = Nat.min (cap k) (length (desired cands k));
  chosen_best : forall c d, c ∈ T -> d ∈ desired cands k -> d ∉ T -> rank d <= rank c }.

Lemma target_chosen cands k now s : Chosen cands k (target cands k now s).
Proof.
  unfold target. pose proof (sort_by_perm (cand_le k now s) (desired cands k)) as Hp. pose proof (sort_by_ranked k now s (desired cands k)) as Hs.
  set (l := sort_by _ _) in *. split.
  - etrans; [apply sublist_submseteq, sublist_take|]. by rewrite Hp.
  - rewrite length_take, Hp. done.
  - intros c d Hc Hd Hn. rewrite <- (take_drop (cap k) l) in Hs. apply StronglySorted_app in Hs as (Hs & _ & _).
    apply (Hs c d Hc). rewrite <- Hp, <- (take_drop (cap k) l), elem_of_app in Hd. naive_solver.
Qed.

(** ** A pass puts exactly the chosen candidates on the rows *)

Lemma rows_partition s : length (rows s) = (slot_rows s + full_rows Audio s + full_rows Video s)%nat.
Proof.
  unfold slot_rows, full_rows. induction (rows s) as [|r rs IH]; [done|]. cbn [List.filter]. destruct (class r) eqn:Ec, (r_kind r) eqn:Ek; simpl; lia.
Qed.

Lemma all_loaded k s : (forall r, r ∈ rows s -> empty_of k r = false) -> full_rows k s = length (loaded k (rows s)).
Proof.
  unfold full_rows. induction (rows s) as [|r rs IH]; [done|]. intros H. rewrite loaded_cons, length_app, <- IH by set_solver.
  cbn [List.filter]. fold (mine k r). destruct (mine k r) eqn:Em; [|done]. destruct (track r) eqn:Et; [done|].
  assert (empty_of k r = false) as He by (apply H; set_solver). unfold empty_of in He. unfold mine in Em. rewrite Em, Et in He. done.
Qed.

(** Rows for the tracks are never what is missing. *)
Definition roomy (g : Config) : Prop := (slot_budget g + FULL_AUDIO + FULL_VIDEO <= limit g)%nat.

Section Kinds.

(** Every track has one kind, and is offered once. *)
Variable kind_of : string -> Kind.

Definition cands_ok (cands : list Cand) : Prop :=
  NoDup (map c_track (List.filter (fun c => bool_decide (c_class c = ClFull)) cands))
  /\ forall c, c ∈ cands -> c_class c = ClFull -> c_kind c = kind_of (c_track c).

(** No track is on two rows, and each is on a row of its kind. *)
Record Uniq (rs : list Row) : Prop := {
  uq_nodup : forall k, NoDup (map fst (loaded k rs));
  uq_kind : forall k t, t ∈ loaded k rs -> kind_of t.1 = k }.

Lemma Uniq_pass k rs rs' : Uniq rs -> others k rs' = others k rs -> NoDup (map fst (loaded k rs')) ->
  (forall t, t ∈ loaded k rs' -> kind_of t.1 = k) -> Uniq rs'.
Proof.
  intros [H1 H2] Ho Hn Hk. assert (forall k', k' <> k -> loaded k' rs' = loaded k' rs) as E.
  { intros k' Hk'. by rewrite (loaded_others k' k), Ho, <- loaded_others. }
  split; intros k'; (destruct (decide (k' = k)) as [->|Hne]; [done|rewrite (E k' Hne)]); [apply H1|apply H2].
Qed.

Lemma elem_desired cands k c : c ∈ desired cands k <-> c ∈ cands /\ c_class c = ClFull /\ c_kind c = k /\ paused c = false.
Proof.
  unfold desired, is_full. rewrite !list_elem_of_In, filter_In, !andb_true_iff, !bool_decide_eq_true, negb_true_iff. naive_solver.
Qed.

Lemma desired_nodup cands k : cands_ok cands -> NoDup (map c_track (desired cands k)).
Proof.
  intros [H _]. eapply sublist_NoDup; [exact H|]. unfold desired, is_full. clear H. induction cands as [|c cands IH]; [done|].
  cbn [List.filter]. destruct (c_class c); cbn [bool_decide decide_rel Class_eq_dec andb].
  - rewrite !bool_decide_true by done. cbn [andb map]. destruct (_ && _); [by apply sublist_skip|by apply sublist_cons].
  - rewrite !bool_decide_false by done. done.
Qed.

Lemma NoDup_map_inj {A B} (f : A -> B) l a b : NoDup (map f l) -> a ∈ l -> b ∈ l -> f a = f b -> a = b.
Proof.
  induction l as [|x l IH]; [set_solver|]. cbn [map]. intros [Hx Hn]%NoDup_cons Ha Hb E.
  apply elem_of_cons in Ha as [->|Ha], Hb as [->|Hb]; [done| | |by apply IH].
  - exfalso. apply Hx. rewrite E. by apply list_elem_of_fmap_2.
  - exfalso. apply Hx. rewrite <- E. by apply list_elem_of_fmap_2.
Qed.

Lemma place_one_on g k rev now c s ch tu x' : key_of c ∈ loaded k (rows s) -> place_one g k rev now c (s, ch, tu) = Some x' -> rows x'.1.1 = rows s.
Proof.
  intros Hk. apply list_elem_of_omap in Hk as (r & Hr & Ht). destruct (mine k r) eqn:Em; [|done].
  unfold mine in Em. apply andb_true_iff in Em as [Em _]. apply bool_decide_eq_true in Em.
  unfold place_one. rewrite (proj2 (on_row_spec s c)) by eauto. by intros [= <-].
Qed.

(** Where no row is left for a chosen candidate it is on a row already. *)
Lemma no_room_on g k rev s tg c : Wf g rev s -> roomy g -> (length tg <= cap k)%nat -> c ∈ tg ->
  (forall r, r ∈ rows s -> empty_of k r = false) -> ~ ((full_rows k s < cap k)%nat /\ (length (rows s) < limit g)%nat) ->
  NoDup (map fst (key_of c :: loaded k (rows s))) -> (forall t, t ∈ loaded k (rows s) -> t ∈ map key_of tg) -> False.
Proof.
  intros Hwf Hroom Hcap Hc Hne Hno Hnd Hsub. apply Hno.
  assert (S (length (loaded k (rows s))) <= length (map key_of tg))%nat as Hlen.
  { apply (NoDup_incl_length (l := key_of c :: loaded k (rows s))).
    - apply NoDup_ListNoDup. eapply NoDup_fmap_1, Hnd.
    - intros t Ht. apply list_elem_of_In. apply list_elem_of_In, elem_of_cons in Ht as [->|Ht]; [by apply list_elem_of_fmap_2|auto]. }
  rewrite length_map in Hlen. rewrite <- (all_loaded k s Hne) in Hlen. split; [lia|].
  rewrite rows_partition. pose proof (wf_slot _ _ _ Hwf). pose proof (wf_full _ _ _ Hwf Audio). pose proof (wf_full _ _ _ Hwf Video).
  unfold roomy, cap in *. destruct k; lia.
Qed.

Lemma place_all_spec g k rev now tg cs x x' : 0 <= rev -> Wf g rev x.1.1 -> roomy g ->
  NoDup (map c_track tg) -> (length tg <= cap k)%nat -> (forall c, c ∈ tg -> kind_of (c_track c) = k) ->
  Uniq (rows x.1.1) -> (forall t, t ∈ loaded k (rows x.1.1) -> t ∈ map key_of tg) -> (forall c, c ∈ cs -> c ∈ tg) ->
  place_all g k rev now cs x = Some x' ->
  others k (rows x'.1.1) = others k (rows x.1.1) /\ Uniq (rows x'.1.1)
  /\ (forall t, t ∈ loaded k (rows x'.1.1) -> t ∈ map key_of tg)
  /\ (forall t, t ∈ loaded k (rows x.1.1) -> t ∈ loaded k (rows x'.1.1))
  /\ (forall c, c ∈ cs -> key_of c ∈ loaded k (rows x'.1.1)).
Proof.
  intros Hrev Hwf Hroom Hnd Hcap Hkind. revert x Hwf. induction cs as [|c cs IH]; intros x Hwf Hu Hsub Hin; simpl.
  { intros [= <-]. split_and!; try done. set_solver. }
  destruct (place_one _ _ _ _ _ _) as [y|] eqn:Ep; [|done]. pose proof (place_one_placed _ _ _ _ _ _ _ Ep) as Hp. destruct x as [[s ch] tu]. cbn [fst] in *.
  pose proof (st_wf _ _ _ _ (Step_placed _ _ _ _ _ _ _ _ _ Hrev Hp) Hwf) as Hwf'. assert (c ∈ tg) as Hc by set_solver.
  assert (others k (rows y.1.1) = others k (rows s) /\ Uniq (rows y.1.1) /\ (forall t, t ∈ loaded k (rows y.1.1) -> t ∈ map key_of tg)
    /\ (forall t, t ∈ loaded k (rows s) -> t ∈ loaded k (rows y.1.1)) /\ key_of c ∈ loaded k (rows y.1.1)) as (Ho & Hu' & Hs' & Hm & Hk').
  { destruct (decide (key_of c ∈ loaded k (rows s))) as [Hd|Hd].
    { rewrite (place_one_on _ _ _ _ _ _ _ _ _ Hd Ep). by split_and!. }
    assert (NoDup (map fst (key_of c :: loaded k (rows s)))) as Hfresh.
    { cbn [map]. apply NoDup_cons. split; [|apply Hu]. intros Hi. apply list_elem_of_fmap in Hi as (t & Et & Ht).
      apply Hd. pose proof (Hsub t Ht) as Hs. apply list_elem_of_fmap in Hs as (c' & -> & Hc').
      by rewrite (NoDup_map_inj c_track tg c c' Hnd Hc Hc' Et). }
    destruct (placed_rows g k rev now c s ch tu y Hrev Hp) as [Hput|[E [Hk|[Hne Hno]]]].
    - pose proof (put_others _ _ _ _ Hput) as Ho. pose proof (put_loaded _ _ _ _ Hput) as Hl.
      assert (forall t, t ∈ loaded k (rows y.1.1) <-> t = key_of c \/ t ∈ loaded k (rows s)) as Hel by (intros t; by rewrite Hl, elem_of_cons).
      split_and!; [done| |intros t [->|Ht]%Hel; [by apply list_elem_of_fmap_2|auto]|intros t Ht; apply Hel; by right|apply Hel; by left].
      apply (Uniq_pass k (rows s)); [done|done|by rewrite Hl|]. intros t [->|Ht]%Hel; [by apply Hkind|by apply (uq_kind _ Hu)].
    - apply elem_of_app in Hk as [Hk|Hk]; pose proof (uq_kind _ Hu _ _ Hk) as Hkk; cbn [key_of fst] in Hkk; rewrite (Hkind c Hc) in Hkk; by subst k.
    - exfalso. by eapply (no_room_on g k rev s tg c). }
  intros E. destruct (IH y Hwf' Hu' Hs' ltac:(set_solver) E) as (A & B & C & D & F). split_and!; [congruence|done|done|auto|].
  intros c' [->|Hc']%elem_of_cons; [by apply D|by apply F].
Qed.

Lemma filter_sub {A} (f : A -> bool) (l : list A) : sublist (List.filter f l) l.
Proof. induction l as [|x l IH]; [constructor|]. simpl. destruct (f x); [by apply sublist_skip|by apply sublist_cons]. Qed.

(** Before the placing: only chosen tracks are left, and none twice. *)
Lemma pass_state_spec g cands k rev now x : Wf g rev x.1 -> Uniq (rows x.1) ->
  let '(y, tg) := pass_state cands k rev now x in
  others k (rows y.1) = others k (rows x.1) /\ Uniq (rows y.1) /\ Chosen cands k tg
  /\ (forall t, t ∈ loaded k (rows y.1) -> t ∈ map key_of tg).
Proof.
  intros Hwf Hu. unfold pass_state. pose proof (rehome_all_ids cands k rev now (idx x.1) x) as [R1 R2].
  destruct (fold_left _ (idx x.1) x) as [s ch]. cbn [fst] in R1, R2. set (s1 := set_waiting _ s). set (tg := target cands k now s1).
  set (gone := fun r => bool_decide (class r = ClFull) && bool_decide (r_kind r = k) && match track r with Some t => negb (existsb (is_key t) tg) | None => false end).
  assert (Uniq (rows s)) as Hus.
  { apply (Uniq_pass k (rows x.1)); [done|done|rewrite R2; apply Hu|]. intros t Ht.
    assert (t.1 ∈ map fst (loaded k (rows x.1))) as Hi by (rewrite <- R2; by apply list_elem_of_fmap_2).
    apply list_elem_of_fmap in Hi as (t' & -> & Ht'). by apply (uq_kind _ Hu). }
  destruct (emptied_loaded k gone rev (rows s) (fun t => existsb (is_key t) tg)) as [E1 E2]; [done|].
  rewrite !unload_where_rows. change (rows (s1, ch).1) with (rows s). rewrite E1.
  assert (forall t, t ∈ List.filter (fun t => existsb (is_key t) tg) (loaded k (rows s)) -> t ∈ loaded k (rows s) /\ t ∈ map key_of tg) as Hf.
  { intros t Ht. rewrite list_elem_of_In, filter_In, <- list_elem_of_In in Ht. destruct Ht as [Ht He]. split; [done|].
    apply existsb_exists in He as (c & Hc & He). unfold is_key in He. apply bool_decide_eq_true in He as <-. apply list_elem_of_fmap_2. by apply list_elem_of_In. }
  split_and!; [done| |apply target_chosen|rewrite E2; intros t Ht; by apply Hf].
  apply (Uniq_pass k (rows s)); [done|done| |].
  - rewrite E2. eapply sublist_NoDup; [apply (uq_nodup _ Hus k)|]. apply (fmap_sublist fst), filter_sub.
  - rewrite E2. intros t Ht. apply Hf in Ht as [Ht _]. by apply (uq_kind _ Hus).
Qed.

Lemma submseteq_NoDup {A} (l k : list A) : l ⊆+ k -> NoDup k -> NoDup l.
Proof. intros [r Hr]%submseteq_Permutation. rewrite Hr. by intros [? _]%NoDup_app. Qed.

Lemma chosen_in cands k T c : Chosen cands k T -> c ∈ T -> c ∈ desired cands k.
Proof. intros H Hc. eapply elem_of_submseteq; [exact Hc|apply H]. Qed.

Lemma kind_pass_spec g cands k rev now x tu x' : 0 <= rev -> Wf g rev x.1 -> roomy g -> cands_ok cands -> Uniq (rows x.1) ->
  kind_pass g cands k rev now (x, tu) = Some x' ->
  others k (rows x'.1.1) = others k (rows x.1) /\ Uniq (rows x'.1.1)
  /\ exists T, Chosen cands k T /\ loaded k (rows x'.1.1) ≡ₚ map key_of T.
Proof.
  intros Hrev Hwf Hroom Hok Hu. rewrite kind_pass_eq. pose proof (pass_state_spec g cands k rev now x Hwf Hu) as Hs.
  pose proof (st_wf _ _ _ _ (Step_pass_state g cands k rev now x) Hwf) as Hwf'.
  destruct (pass_state _ _ _ _ _) as [[s ch] tg]. cbn [fst] in *. destruct Hs as (Ho & Hu' & Hc & Hsub). intros E.
  assert (NoDup (map c_track tg)) as Hnd.
  { eapply submseteq_NoDup; [|apply (desired_nodup cands k Hok)]. by apply (fmap_submseteq c_track), Hc. }
  assert (forall c, c ∈ tg -> kind_of (c_track c) = k) as Hkind.
  { intros c Hi. apply (chosen_in _ _ _ _ Hc), elem_desired in Hi as (? & ? & <- & _). symmetry. by apply Hok. }
  apply (place_all_spec g k rev now tg tg) in E as (A & B & C & D & F); try done; [|rewrite (chosen_many _ _ _ Hc); lia].
  cbn [fst] in A. split_and!; [congruence|done|]. exists tg. split; [done|]. apply NoDup_Permutation.
  - eapply NoDup_fmap_1, (uq_nodup _ B).
  - apply (NoDup_fmap_1 fst). change (NoDup (map fst (map key_of tg))). rewrite map_map. exact Hnd.
  - intros t. split; [apply C|]. intros Ht. apply list_elem_of_fmap in Ht as (c & -> & Hi). by apply F.
Qed.

End Kinds.

(** ** The rows of the slots *)

(** An empty slot row gets the slot of [c], or a new row does. *)
Inductive SlotPut (c : Cand) : list Row -> list Row -> Prop :=
  | SlotAt a r b r' : class r = ClSlot -> track r = None -> class r' = ClSlot -> r_kind r' = c_kind c -> track r' = Some (key_of c) ->
      SlotPut c (a ++ r :: b) (a ++ r' :: b)
  | SlotEnd a r' : class r' = ClSlot -> r_kind r' = c_kind c -> track r' = Some (key_of c) -> SlotPut c a (a ++ [r']).

Lemma slot_not_mine k r : class r = ClSlot -> mine k r = false.
Proof. unfold mine. by intros ->. Qed.

Lemma slot_put_loaded k c rs rs' : SlotPut c rs rs' -> loaded k rs' = loaded k rs.
Proof.
  intros []; rewrite !loaded_app, !loaded_cons, !slot_not_mine by done; [done|]. simpl. by rewrite app_nil_r.
Qed.

Definition holds_slot (c : Cand) (r : Row) : Prop := class r = ClSlot /\ r_kind r = c_kind c /\ exists t, track r = Some t /\ t.2 = c_room c.

Lemma has_slot_spec rs c : has_slot rs c = true <-> exists r, r ∈ rs /\ holds_slot c r.
Proof.
  unfold has_slot, holds_slot. rewrite existsb_exists. setoid_rewrite <- list_elem_of_In. split.
  - intros (r & Hr & H). rewrite !andb_true_iff, !bool_decide_eq_true in H. destruct H as [[? ?] H]. destruct (track r) as [t|] eqn:Et; [|done].
    apply String.eqb_eq in H. exists r. split_and!; eauto.
  - intros (r & Hr & Hc & Hk & t & Ht & Et). exists r. split; [done|]. rewrite Ht, Et, String.eqb_refl, !bool_decide_true by done. done.
Qed.

Lemma slot_put_rows c rs rs' : SlotPut c rs rs' ->
  (exists r, r ∈ rs' /\ class r = ClSlot /\ r_kind r = c_kind c /\ track r = Some (key_of c))
  /\ (forall c', has_slot rs c' = true -> has_slot rs' c' = true)
  /\ (forall r, r ∈ rs' -> r ∈ rs \/ (class r = ClSlot /\ r_kind r = c_kind c /\ track r = Some (key_of c))).
Proof.
  intros H. split_and!.
  - destruct H; exists r'; (split; [set_solver|done]).
  - intros c'. rewrite !has_slot_spec. intros (r0 & Hr0 & Hh). exists r0. split; [|done]. destruct H; [|set_solver].
    destruct Hh as (_ & _ & t & Ht & _). apply elem_of_app in Hr0 as [?|[->|?]%elem_of_cons]; [set_solver|congruence|set_solver].
  - intros r0 Hr0. destruct H; [apply elem_of_app in Hr0 as [?|[->|?]%elem_of_cons]; [set_solver|by right|set_solver]|].
    apply elem_of_app in Hr0 as [?| ->%list_elem_of_singleton]; [by left|by right].
Qed.

Lemma load_slot_put i c rev now s ch r : rows s !! i = Some r -> class r = ClSlot -> r_kind r = c_kind c -> track r = None ->
  SlotPut c (rows s) (rows (load i c rev now (s, ch)).1).
Proof.
  intros Hr Hc Hk Ht. destruct (load_spec i c rev now s ch r Hr) as (gt & s' & -> & E & _). cbn [fst]. rewrite E.
  destruct (alter_split (load_row c rev now gt) i (rows s) r Hr) as [E1 E2]. rewrite E2. rewrite E1 at 1. by apply SlotAt.
Qed.

Lemma load_slots_spec g rev now cs x x' : 0 <= rev -> load_slots g rev now cs x = Some (x', None) ->
  (forall k, loaded k (rows x'.1) = loaded k (rows x.1))
  /\ (forall c, c ∈ cs -> has_slot (rows x'.1) c = true)
  /\ (forall c, has_slot (rows x.1) c = true -> has_slot (rows x'.1) c = true)
  /\ (forall r, r ∈ rows x'.1 -> r ∈ rows x.1 \/ exists c, c ∈ cs /\ class r = ClSlot /\ r_kind r = c_kind c /\ track r = Some (key_of c)).
Proof.
  intros Hrev. revert x. induction cs as [|c cs IH]; intros x; cbn [load_slots].
  { intros [= ->]. split_and!; try done; [set_solver|by left]. }
  assert (forall y, SlotPut c (rows x.1) (rows y.1) -> load_slots g rev now cs y = Some (x', None) ->
    (forall k, loaded k (rows x'.1) = loaded k (rows x.1)) /\ (forall c', c' ∈ c :: cs -> has_slot (rows x'.1) c' = true)
    /\ (forall c', has_slot (rows x.1) c' = true -> has_slot (rows x'.1) c' = true)
    /\ (forall r, r ∈ rows x'.1 -> r ∈ rows x.1 \/ exists c', c' ∈ c :: cs /\ class r = ClSlot /\ r_kind r = c_kind c' /\ track r = Some (key_of c'))) as Hput.
  { intros y Hp Hy. destruct (slot_put_rows _ _ _ Hp) as ((r & Hr & ? & ? & Ht) & P2 & P3). destruct (IH y Hy) as (A & B & C & D). split_and!.
    - intros k. by rewrite A, (slot_put_loaded k _ _ _ Hp).
    - intros c' [->|Hc']%elem_of_cons; [|auto]. apply C, has_slot_spec. exists r. split; [done|]. split_and!; eauto.
    - auto.
    - intros r0 Hr0. destruct (D r0 Hr0) as [Hy0|(c' & ? & ?)]; [|right; exists c'; set_solver].
      destruct (P3 r0 Hy0) as [?|?]; [by left|right; exists c; set_solver]. }
  destruct (List.find _ _) as [i|] eqn:Ei.
  - apply find_some in Ei as [_ Ei]. apply row_sat_spec in Ei as (r & Hr & Hf). rewrite !andb_true_iff, !bool_decide_eq_true in Hf.
    destruct Hf as (((Hc & Hk) & Ht) & _). apply Hput. destruct x as [s ch]. apply (load_slot_put i c rev now s ch r); try done. by destruct (track r).
  - destruct (_ || _); [done|]. destruct (new_row _ _ _ _ _) as [[s1 i]|] eqn:En; [|done]. apply Hput.
    destruct (new_load_spec _ _ _ _ c rev now _ _ _ x.2 Hrev En) as (gt & r & y & -> & E & Ek & Ec). cbn [fst]. rewrite E. by apply SlotEnd.
Qed.

Lemma unwanted_emptied cands rev rs :
  (forall k, loaded k (map (emptied (unwanted cands) rev) rs) = loaded k rs)
  /\ forall r, r ∈ map (emptied (unwanted cands) rev) rs -> unwanted cands r = false.
Proof.
  split.
  - intros k. induction rs as [|r rs IH]; [done|]. cbn [map]. rewrite !loaded_cons, IH. f_equal. unfold emptied. destruct (unwanted cands r) eqn:E; [|done].
    unfold unwanted in E. apply andb_true_iff in E as [E _]. apply bool_decide_eq_true in E. destruct (track r) eqn:Et; by rewrite !slot_not_mine.
  - intros r Hr. apply list_elem_of_fmap in Hr as (r0 & -> & _). unfold emptied. destruct (unwanted cands r0) eqn:E; [|done].
    destruct (track r0) eqn:Et; [unfold unwanted; simpl; by rewrite andb_false_r|]. unfold unwanted in E. by rewrite Et, andb_false_r in E.
Qed.

End SubA.
