(* ===== verification/SubThm.v ===== *)
(** * The m-line table: theorems

    What crates/oxsfud/src/sub/mod.rs promises over every sequence of operations on a table
    ([run]): rows are for life ([sub_rows_for_life]), a row that is open carries what the client
    confirmed ([sub_sends_what_is_confirmed]), and [sync] puts the best candidates on the rows
    or changes nothing ([sub_assignment_exact]). *)

From S2P Require Import Prelude Utf8 Keyexpr Rewriter Rtp Room Tracks SubTable SubInv SubSlots SubAssign.

Module SubThm.
Import Trk Sub SubI SubS SubA.

(** ** One [sync] *)

(** A [sync] is refused before it does anything, or it runs to its end. *)
Inductive Synced (g : Config) (cands : list Cand) (now : Z) (s : State) : State -> SyncOut -> Prop :=
  | Refused b : (slot_budget g < slot_rows s + fresh_slot_rows s cands)%nat \/ (limit g < length (rows s) + fresh_slot_rows s cands)%nat ->
      Synced g cands now s s (mkOut [] false true (Some b))
  | Done x0 x1 x2 s3 ch tu :
      x0 = unload_where (unwanted cands) (arev s + 1) (s, []) ->
      load_slots g (arev s + 1) now (List.filter (fun c => negb (has_slot (rows x0.1) c)) (List.filter is_slot cands)) x0 = Some (x1, None) ->
      kind_pass g cands Audio (arev s + 1) now (x1, false) = Some x2 ->
      kind_pass g cands Video (arev s + 1) now x2 = Some (s3, ch, tu) ->
      let s4 := set_waiting (filter (fun kv => existsb (fun c => String.eqb (c_track c) kv.1) cands = true) (waiting s3)) s3 in
      let moved := negb (match ch with [] => true | _ => false end) || negb (length (rows s4) =? length (rows s))%nat || tu in
      Synced g cands now s (if moved then set_arev (arev s + 1) s4 else s4) (mkOut ch moved false None).

Lemma unload_where_claims s cands rev :
  Claims s cands [] (unload_where (unwanted cands) rev (s, [])).1
  /\ slot_rows (unload_where (unwanted cands) rev (s, [])).1 = slot_rows s
  /\ length (rows (unload_where (unwanted cands) rev (s, [])).1) = length (rows s).
Proof.
  pose proof (unload_where_rows (unwanted cands) rev (s, [])) as E. cbn [fst] in E. split_and!.
  - destruct (claims_start s cands rev) as [A B]. cbn [rows set_rows] in A, B. split; rewrite E; done.
  - apply slot_rows_ids. rewrite E, map_map. apply map_ext. intros r. unfold emptied. destruct (unwanted cands r); [|done]. by destruct (track r).
  - by rewrite E, length_map.
Qed.

Lemma needed_same s cands rev :
  List.filter (fun c => negb (has_slot (rows (unload_where (unwanted cands) rev (s, [])).1) c)) (List.filter is_slot cands)
  = List.filter (fun c => negb (has_slot (rows s) c)) (List.filter is_slot cands).
Proof.
  apply filter_ext_in. intros c Hc. apply filter_In in Hc as [Hc Hs]. by rewrite unload_where_rows, has_slot_emptied.
Qed.

Lemma sync_synced g cands now s s' o : 0 <= arev s -> Wf g (arev s) s -> sync g cands now s = Some (s', o) -> Synced g cands now s s' o.
Proof.
  intros Ha Hwf. unfold sync. destruct (_ && (_ || _)) eqn:Eb.
  { intros [= <- <-]. apply Refused. apply andb_true_iff in Eb as [_ Eb]. rewrite orb_true_iff, !Nat.ltb_lt in Eb. exact Eb. }
  set (x0 := unload_where _ _ _). destruct (load_slots _ _ _ _ x0) as [[x1 b]|] eqn:E1; [|done].
  assert (b = None) as ->.
  { destruct (unload_where_claims s cands (arev s + 1)) as (Hc & Hs & Hl). fold x0 in Hc, Hs, Hl. subst x0. rewrite needed_same in E1.
    destruct (unload_where (unwanted cands) (arev s + 1) (s, [])) as [y ch] eqn:Ey. cbn [fst] in *.
    assert (Hf : fresh_slot_rows s cands = (fold_left (fresh_one s cands) (List.filter is_slot cands) ([], O)).2) by done.
    pose proof (wf_slot _ _ _ Hwf) as W1. pose proof (wf_len _ _ _ Hwf) as W2.
    apply andb_false_iff in Eb. rewrite orb_false_iff, !Nat.ltb_ge in Eb.
    eapply (load_slots_fit g (arev s + 1) now s cands _ [] 0 y ch x1 b); [lia|lia|exact Hc| | |exact E1]; rewrite <- Hf, ?Hs, ?Hl; lia. }
  destruct (kind_pass _ _ Audio _ _ _) as [x2|] eqn:E2; [|done]. destruct (kind_pass _ _ Video _ _ _) as [[[s3 ch] tu]|] eqn:E3; [|done].
  intros [= <- <-]. by eapply Done.
Qed.

Lemma sync_total g cands now s : 0 <= arev s -> rich g s -> is_Some (sync g cands now s).
Proof.
  intros Ha Hr. unfold sync. destruct (_ && (_ || _)); [eauto|]. set (x0 := unload_where _ _ _).
  assert (rich g x0.1) as H0 by (apply (rich_step g (arev s + 1) (s, []) x0); [apply Step_unload_where|done]).
  destruct (load_slots_total g (arev s + 1) now (List.filter (fun c => negb (has_slot (rows x0.1) c)) (List.filter is_slot cands)) x0 ltac:(lia) H0) as [[x1 b] E1].
  rewrite E1. destruct b; [eauto|]. apply Step_load_slots in E1; [|lia]. pose proof (rich_step _ _ _ _ E1 H0) as H1.
  destruct (kind_pass_total g cands Audio (arev s + 1) now (x1, false) ltac:(lia) H1) as [x2 E2]. rewrite E2. apply Step_kind_pass in E2; [|lia].
  pose proof (rich_step _ _ _ _ E2 H1) as H2.
  destruct (kind_pass_total g cands Video (arev s + 1) now x2 ltac:(lia) H2) as [[[s3 ch] tu] E3]. rewrite E3. eauto.
Qed.

(** What a [sync] that is not refused does to the table. *)
Lemma done_step g cands now s x0 x1 x2 s3 ch tu : 0 <= arev s ->
  x0 = unload_where (unwanted cands) (arev s + 1) (s, []) ->
  load_slots g (arev s + 1) now (List.filter (fun c => negb (has_slot (rows x0.1) c)) (List.filter is_slot cands)) x0 = Some (x1, None) ->
  kind_pass g cands Audio (arev s + 1) now (x1, false) = Some x2 ->
  kind_pass g cands Video (arev s + 1) now x2 = Some (s3, ch, tu) ->
  Step g (arev s + 1) (s, []) x1 /\ Step g (arev s + 1) x1 x2.1 /\ Step g (arev s + 1) x2.1 (s3, ch).
Proof.
  intros Ha -> E1 E2 E3. apply Step_load_slots in E1; [|lia]. apply Step_kind_pass in E2, E3; try lia. split_and!; try done.
  etrans; [apply Step_unload_where|exact E1].
Qed.

Lemma Wf_since g rev rev' s : Wf g rev s -> (forall i r, rows s !! i = Some r -> since r <= rev') -> Wf g rev' s.
Proof.
  intros [? ? ? ? ? ? H] Hs. split; try done. intros i r Hr. destruct (H i r Hr). split; try done. eauto.
Qed.

Lemma Wf_later g rev rev' s : rev <= rev' -> Wf g rev s -> Wf g rev' s.
Proof. intros Hle H. apply (Wf_since g rev); [done|]. intros i r Hr. pose proof (ok_since _ _ _ (wf_rows _ _ _ H i r Hr)). lia. Qed.

(** How a table goes from one version to the next. *)
Record Next (g : Config) (s s' : State) : Prop := {
  nx_wf : Wf g (arev s') s';
  nx_arev : arev s <= arev s';
  nx_acked : acked s <= acked s' <= arev s';
  nx_ids : exists l, map ids (rows s') = map ids (rows s) ++ l;
  nx_old : forall i r r', rows s !! i = Some r -> rows s' !! i = Some r' -> unchanged r r' \/ arev s < since r';
  nx_new : forall i r', rows s !! i = None -> rows s' !! i = Some r' -> arev s < since r';
  nx_same : arev s' = arev s -> map entry (rows s') = map entry (rows s) }.

Lemma Next_refl g s : acked s <= arev s -> Wf g (arev s) s -> Next g s s.
Proof.
  intros Hk Hwf. split; [done|lia|lia|exists []; by rewrite app_nil_r| |congruence|done]. intros i r r' H H'. simplify_eq. by left.
Qed.

Lemma synced_next g cands now s s' o : 0 <= arev s -> acked s <= arev s -> Wf g (arev s) s -> Synced g cands now s s' o -> Next g s s'.
Proof.
  intros Ha Hk Hwf [b Hb|x0 x1 x2 s3 ch tu E0 E1 E2 E3 s4 moved].
  { by apply Next_refl. }
  destruct (done_step g cands now s x0 x1 x2 s3 ch tu Ha E0 E1 E2 E3) as (S1 & S2 & S3).
  assert (Step g (arev s + 1) (s, []) (s3, ch)) as S by (etrans; [exact S1|]; etrans; [exact S2|exact S3]). clear S1 S2 S3 E1 E2 E3.
  assert (rows s4 = rows s3 /\ arev s4 = arev s /\ acked s4 = acked s) as (R4 & A4 & K4).
  { pose proof (st_arev _ _ _ _ S). pose proof (st_acked _ _ _ _ S). subst s4. by cbn in *. }
  assert (Wf g (arev s + 1) s4) as W4 by (apply (st_wf _ _ _ _ (Step_waiting g _ (s3, ch) _)), (st_wf _ _ _ _ S), (Wf_later g (arev s)); [lia|done]).
  assert (moved = false -> rows s4 = rows s) as Hquiet.
  { intros Hm. subst moved. apply orb_false_iff in Hm as [Hm _]. apply orb_false_iff in Hm as [Hm _]. rewrite R4. apply (st_quiet _ _ _ _ S). by destruct ch. }
  pose proof (st_ids _ _ _ _ S) as Hids. pose proof (st_old _ _ _ _ S) as Hold. pose proof (st_new _ _ _ _ S) as Hnew. cbn [fst] in Hids, Hold, Hnew.
  rewrite <- R4 in Hids, Hold, Hnew. destruct moved eqn:Em.
  - split; cbn [rows arev acked set_arev]; [|lia|lia|done| | |lia].
    + destruct W4 as [? ? ? ? ? ? W]. split; try done. intros i r Hr. by destruct (W i r Hr).
    + intros i r r' H H'. destruct (Hold i r r' H H') as [?|?]; [by left|right; lia].
    + intros i r' H H'. rewrite (Hnew i r' H H'). lia.
  - specialize (Hquiet eq_refl). split; rewrite ?A4, ?K4; [|lia|lia|done| | |by rewrite Hquiet].
    + apply (Wf_since g (arev s + 1)); [done|]. rewrite Hquiet. intros i r Hr. apply (ok_since _ _ _ (wf_rows _ _ _ Hwf i r Hr)).
    + rewrite Hquiet. intros i r r' H H'. simplify_eq. by left.
    + rewrite Hquiet. congruence.
Qed.

(** ** Sequences of operations *)

Definition set_tape (l : list Z) (s : State) : State := set_ssrcs (ssrcs s) l s.

Inductive Op :=
  | OSync (cands : list Cand) (now : Z) (draws : list Z)
  | OReady (room : string) (req now : Z)
  | OSeed (codecs : list JoinCodec) (extmap : list ExtMap)
  | OMarkSeeded
  | OCarry (v : Z)
  | OAddUplink (l : list Z)
  | ORemoveUplink (l : list Z)
  | OPref (t : string) (priority : option Z) (paused : option bool)
  | OForget (room : string)
  | OGates (now : Z).

Definition op (g : Config) (o : Op) (s : State) : option State :=
  match o with
  | OSync cands now draws => fst <$> sync g cands now (set_tape draws s)
  | OReady room req now => Some (ready room req now s).1
  | OSeed codecs extmap => fst <$> seed codecs extmap s
  | OMarkSeeded => Some (mark_seeded s)
  | OCarry v => Some (carry v s)
  | OAddUplink l => Some (add_uplink l s)
  | ORemoveUplink l => Some (remove_uplink l s)
  | OPref t p q => Some (set_pref t p q s).1
  | OForget room => Some (forget_room room s)
  | OGates now => Some (gate_timeouts now s).1
  end.

(** The tables a client can have seen, the newest first, with the state. *)
Fixpoint run (g : Config) (os : list Op) (x : State * list (Z * list MlineEntry)) : option (State * list (Z * list MlineEntry)) :=
  match os with
  | [] => Some x
  | o :: os => let? s := op g o x.1 in run g os (s, snapshot s :: x.2)
  end.

(** Nothing the table says changes; payload types may be added and versions acknowledged. *)
Lemma Next_map g s s' (f : Row -> Row) : Wf g (arev s) s -> acked s <= arev s ->
  (forall r, ids (f r) = ids r /\ unchanged r (f r) /\ (forall rev s, row_ok rev s r -> row_ok rev s (f r))) ->
  rows s' = map f (rows s) -> pts s ⊆ pts s' -> ssrcs s' = ssrcs s -> arev s <= arev s' -> acked s <= acked s' <= arev s' -> Next g s s'.
Proof.
  intros Hwf Hk Hf Er Hp Hs Ha Hk'. assert (map ids (rows s') = map ids (rows s)) as Ei by (rewrite Er, map_map; apply map_ext; intros r; apply Hf).
  assert (forall i r', rows s' !! i = Some r' -> exists r, rows s !! i = Some r /\ r' = f r) as Hl.
  { intros i r'. rewrite Er, list_lookup_fmap. destruct (rows s !! i) as [r|]; [|done]. intros [= <-]. eauto. }
  split; try done.
  - apply (Wf_later g (arev s)); [done|]. apply (Wf_same_ids g (arev s) s); [done|by rewrite Hs| |done].
    intros i r' Hr'. destruct (Hl i r' Hr') as (r & Hr & ->). apply Hf. apply (row_ok_mono _ s); [done|]. apply (wf_rows _ _ _ Hwf i r Hr).
  - exists []. by rewrite app_nil_r.
  - intros i r r' Hr Hr'. destruct (Hl i r' Hr') as (r0 & Hr0 & ->). simplify_eq. left. apply Hf.
  - intros i r' Hr Hr'. destruct (Hl i r' Hr') as (r0 & Hr0 & _). congruence.
  - intros _. rewrite Er, map_map. apply map_ext. intros r. apply Hf.
Qed.

Lemma Next_quiet g s s' : Wf g (arev s) s -> acked s <= arev s ->
  rows s' = rows s -> pts s ⊆ pts s' -> ssrcs s' = ssrcs s -> arev s <= arev s' -> acked s' = acked s -> Next g s s'.
Proof.
  intros Hwf Hk Er Hp Hs Ha Hk'. apply (Next_map g s s' (fun r => r)); try done; [by rewrite map_id|lia].
Qed.

Lemma seed_codecs_rows cs s s' : seed_codecs cs s = Some s' ->
  rows s' = rows s /\ pts s ⊆ pts s' /\ ssrcs s' = ssrcs s /\ arev s' = arev s /\ acked s' = acked s.
Proof.
  revert s. induction cs as [|c cs IH]; intros s; cbn [seed_codecs]; [by intros [= <-]|].
  destruct (join_tuple c) as [t|]; [|done]. set (s1 := match jrtx_pt c with Some r => _ | None => _ end).
  assert (rows s1 = rows s /\ pts s1 = pts s /\ ssrcs s1 = ssrcs s /\ arev s1 = arev s /\ acked s1 = acked s) as (R & P & S & A & K) by (subst s1; by destruct (jrtx_pt c)).
  intros E. apply IH in E as (R' & P' & S' & A' & K'). destruct t as [t|]; [destruct (pts s1 !! t) eqn:Et|]; cbn in *; split_and!; try congruence.
  - by rewrite <- P.
  - etrans; [|exact P']. rewrite <- P. by apply insert_subseteq.
  - by rewrite <- P.
Qed.

Lemma gate_one_rows now x kv : rows (gate_one now x kv).1 = rows x.1 /\ pts (gate_one now x kv).1 = pts x.1 /\ ssrcs (gate_one now x kv).1 = ssrcs x.1
  /\ arev (gate_one now x kv).1 = arev x.1 /\ acked (gate_one now x kv).1 = acked x.1.
Proof. destruct kv as [room [[g t0] l]], x as [s out]. unfold gate_one. by destruct (_ && _). Qed.

Lemma gates_rows now s : rows (gate_timeouts now s).1 = rows s /\ pts (gate_timeouts now s).1 = pts s /\ ssrcs (gate_timeouts now s).1 = ssrcs s
  /\ arev (gate_timeouts now s).1 = arev s /\ acked (gate_timeouts now s).1 = acked s.
Proof.
  unfold gate_timeouts. assert (forall l x, rows (fold_left (gate_one now) l x).1 = rows x.1 /\ pts (fold_left (gate_one now) l x).1 = pts x.1
    /\ ssrcs (fold_left (gate_one now) l x).1 = ssrcs x.1 /\ arev (fold_left (gate_one now) l x).1 = arev x.1 /\ acked (fold_left (gate_one now) l x).1 = acked x.1) as H.
  { induction l as [|kv l IH]; intros x; [done|]. simpl. destruct (IH (gate_one now x kv)) as (-> & -> & -> & -> & ->). apply gate_one_rows. }
  apply (H (map_to_list (gates s)) (s, [])).
Qed.

Lemma activate_keeps a r : ids (activate a r) = ids r /\ unchanged r (activate a r) /\ (forall rev s, row_ok rev s r -> row_ok rev s (activate a r)).
Proof. unfold activate. destruct (_ && _); [|done]. split_and!; [done|done|]. intros rev s []. by split. Qed.

Lemma open_gate_same room s : rows (open_gate room s) = rows s /\ pts (open_gate room s) = pts s /\ ssrcs (open_gate room s) = ssrcs s
  /\ arev (open_gate room s) = arev s /\ acked (open_gate room s) = acked s.
Proof. unfold open_gate. by destruct (gates s !! room) as [[[? ?] ?]|]. Qed.

Lemma ready_next g room req now s : Wf g (arev s) s -> acked s <= arev s -> Next g s (ready room req now s).1.
Proof.
  intros Hwf Hk. unfold ready. cbn [fst]. set (s1 := if is_none (ready_at s !! room) then _ else s).
  assert (rows s1 = rows s /\ pts s1 = pts s /\ ssrcs s1 = ssrcs s /\ arev s1 = arev s /\ acked s1 = acked s) as (R & P & S & A & K) by (subst s1; by destruct (is_none _)).
  destruct (open_gate_same room s1) as (R2 & P2 & S2 & A2 & K2). set (s2 := open_gate room s1) in *.
  set (s3 := if acked s2 <? Z.min (arev s2) req then _ else s2).
  assert (rows s3 = rows s /\ pts s3 = pts s /\ ssrcs s3 = ssrcs s /\ arev s3 = arev s /\ acked s <= acked s3 <= arev s) as (R3 & P3 & S3 & A3 & K3).
  { subst s3. destruct (Z.ltb_spec (acked s2) (Z.min (arev s2) req)); cbn [rows pts ssrcs arev acked set_acked]; split_and!; try congruence; lia. }
  apply (Next_map g s _ (activate (acked s3))); cbn [rows pts ssrcs arev acked set_rows]; rewrite ?R3, ?P3, ?S3, ?A3; try done; try lia. apply activate_keeps.
Qed.

Lemma op_next g o s s' : 0 <= arev s -> Wf g (arev s) s -> acked s <= arev s -> op g o s = Some s' -> Next g s s'.
Proof.
  intros Ha Hwf Hk. destruct o; cbn [op].
  - destruct (sync _ _ _ _) as [[s1 o]|] eqn:E; [|done]. intros [= <-].
    assert (Wf g (arev s) (set_tape draws s)) as W by (destruct Hwf as [? ? ? ? ? ? W]; split; try done; intros i r Hr; by destruct (W i r Hr)).
    apply sync_synced in E; [|done|done]. by destruct (synced_next g cands now (set_tape draws s) s1 o Ha Hk W E).
  - intros [= <-]. by apply ready_next.
  - unfold seed. destruct (seeded s); [intros [= <-]; by apply Next_refl|]. destruct (seed_codecs _ _) as [s1|] eqn:E; [|done].
    apply seed_codecs_rows in E as (R & P & S & A & K). intros [= <-]. cbn in *. apply Next_quiet; destruct extmap; cbn; try done; lia.
  - intros [= <-]. by apply Next_quiet.
  - intros [= <-]. unfold carry. destruct (Z.ltb_spec (arev s) v); [|by apply Next_refl]. apply Next_quiet; try done. cbn. lia.
  - intros [= <-]. by apply Next_quiet.
  - intros [= <-]. by apply Next_quiet.
  - intros [= <-]. by apply Next_quiet.
  - intros [= <-]. by apply Next_quiet.
  - intros [= <-]. destruct (gates_rows now s) as (R & P & S & A & K). apply Next_quiet; rewrite ?R, ?P, ?S, ?A, ?K; try done; lia.
Qed.

(** ** Every reachable table *)

Record Inv (g : Config) (s : State) : Prop := { inv_wf : Wf g (arev s) s; inv_acked : 0 <= acked s <= arev s }.

Lemma Inv_start g : Inv g (new []).
Proof.
  split; [|done]. split; [done|simpl; lia|intros k; apply Nat.le_0_l|apply Nat.le_0_l|constructor|set_solver|done].
Qed.

Lemma op_inv g o s s' : Inv g s -> op g o s = Some s' -> Inv g s' /\ Next g s s'.
Proof.
  intros [W K] E. assert (Next g s s') as N by (eapply op_next; [..|exact E]; [lia|done|lia]). split; [|done].
  pose proof (nx_acked _ _ _ N). split; [apply N|lia].
Qed.

Lemma run_inv g os x x' : Inv g x.1 -> run g os x = Some x' -> Inv g x'.1 /\ exists l, map ids (rows x'.1) = map ids (rows x.1) ++ l.
Proof.
  revert x. induction os as [|o os IH]; intros x Hi; cbn [run]; [intros [= <-]; split; [done|exists []; by rewrite app_nil_r]|].
  destruct (op g o x.1) as [s|] eqn:E; [|done]. destruct (op_inv g o x.1 s Hi E) as [Hi' N]. intros H.
  destruct (IH (s, snapshot s :: x.2) Hi' H) as [Hf [l Hl]]. split; [done|]. destruct (nx_ids _ _ _ N) as [l' Hl']. exists (l' ++ l).
  cbn [fst] in Hl. by rewrite Hl, Hl', app_assoc.
Qed.

(** C29: A row is for life: whatever happens to a table, no row is taken away, and a row keeps its
    m-line number, its kind and its SSRCs; the numbers are consecutive, no SSRC is used
    twice, the limits on rows hold, and what the forwarding threads read of a row is what
    the table says of it. *)
Theorem sub_rows_for_life g os1 os2 s1 h1 s2 h2 :
  run g os1 (new [], []) = Some (s1, h1) -> run g os2 (s1, h1) = Some (s2, h2) ->
  (forall i r, rows s1 !! i = Some r -> exists r', rows s2 !! i = Some r'
     /\ mid r' = mid r /\ r_kind r' = r_kind r /\ class r' = class r /\ ssrc r' = ssrc r /\ rtx_ssrc r' = rtx_ssrc r)
  /\ (forall i r, rows s2 !! i = Some r -> mid r = start g + Z.of_nat i /\ mirrors r)
  /\ NoDup (all_ssrcs (rows s2))
  /\ (length (rows s2) <= limit g)%nat /\ (slot_rows s2 <= slot_budget g)%nat /\ (forall k, full_rows k s2 <= cap k)%nat.
Proof.
  intros H1 H2. apply (run_inv g os1 (new [], [])) in H1 as [I1 _]; [|apply Inv_start].
  apply (run_inv g os2 (s1, h1)) in H2 as [[W _] [l Hl]]; [|done]. cbn [fst] in *. split_and!; try apply W.
  - intros i r Hr. assert (map ids (rows s2) !! i = Some (ids r)) as Hi by (rewrite Hl; apply lookup_app_l_Some; by rewrite list_lookup_fmap, Hr).
    rewrite list_lookup_fmap in Hi. destruct (rows s2 !! i) as [r'|]; [|done]. injection Hi as ? ? ? ? ?. exists r'. by split_and!.
  - intros i r Hr. split; [by apply W|]. apply (wf_rows _ _ _ W i r Hr).
Qed.

Definition demo_ops : list Op :=
  [OSync [cand "p" "a" Audio ClSlot 0; cand "x" "a" Audio ClFull 0; cand "y" "a" Audio ClFull 0] 10 [2; 3; 4]; OReady "a" 1 20;
   OSync [cand "x" "a" Audio ClFull 0] 30 []].
Definition demo : Config := mkConfig Two 4.

Lemma sub_rows_for_life_witness :
  exists s h, run demo (demo_ops ++ [OGates 6000]) (new [], []) = Some (s, h) /\ NoDup (all_ssrcs (rows s)) /\ length (rows s) = 3%nat.
Proof.
  destruct (run demo demo_ops (new [], [])) as [[s1 h1]|] eqn:E1; [|vm_compute in E1; discriminate].
  destruct (run demo [OGates 6000] (s1, h1)) as [[s2 h2]|] eqn:E2; [|vm_compute in E1; injection E1 as <- <-; vm_compute in E2; discriminate].
  exists s2, h2. pose proof (sub_rows_for_life demo demo_ops [OGates 6000] s1 h1 s2 h2 E1 E2) as (_ & _ & H & _).
  vm_compute in E1. injection E1 as <- <-. vm_compute in E2. injection E2 as <- <-. split_and!; [vm_compute; reflexivity|exact H|reflexivity].
Defined.

(** ** What is sent is what was confirmed *)

(** A table the client saw, against the table as it is now: the rows that have not changed
    since are the same. *)
Definition seen (s : State) (v : Z * list MlineEntry) : Prop :=
  v.1 <= arev s
  /\ (forall i r, rows s !! i = Some r -> since r <= v.1 -> v.2 !! i = Some (entry r))
  /\ (v.1 = arev s -> v.2 = map entry (rows s)).

Lemma seen_now s : seen s (snapshot s).
Proof. split_and!; [done| |done]. intros i r Hr _. cbn. by rewrite list_lookup_fmap, Hr. Qed.

Lemma seen_next g s s' v : Next g s s' -> seen s v -> seen s' v.
Proof.
  intros N (H1 & H2 & H3). pose proof (nx_arev _ _ _ N). split_and!; [lia| |].
  - intros i r' Hr' Hs. destruct (rows s !! i) as [r|] eqn:Hr.
    + destruct (nx_old _ _ _ N i r r' Hr Hr') as [[Ee Es]|?]; [|lia]. rewrite Ee. apply H2; [done|lia].
    + pose proof (nx_new _ _ _ N i r' Hr Hr'). lia.
  - intros E. rewrite (nx_same _ _ _ N) by lia. apply H3. lia.
Qed.

Definition History (x : State * list (Z * list MlineEntry)) : Prop :=
  (forall v, v ∈ x.2 -> seen x.1 v) /\ forall v w, v ∈ x.2 -> w ∈ x.2 -> v.1 = w.1 -> v.2 = w.2.

Lemma run_history g os x x' : Inv g x.1 -> History x -> run g os x = Some x' -> Inv g x'.1 /\ History x'.
Proof.
  revert x. induction os as [|o os IH]; intros x Hi Hh; cbn [run]; [by intros [= <-]|].
  destruct (op g o x.1) as [s|] eqn:E; [|done]. destruct (op_inv g o x.1 s Hi E) as [Hi' N]. apply IH; [done|].
  destruct Hh as [Ha Hb]. assert (forall v, v ∈ x.2 -> seen s v) as Hs by (intros v Hv; eapply seen_next; [exact N|auto]).
  assert (forall v, v ∈ x.2 -> v.1 = arev s -> v.2 = map entry (rows s)) as Hc by (intros v Hv; apply Hs; done).
  split; cbn [fst snd].
  - intros v [->|Hv]%elem_of_cons; [apply seen_now|auto].
  - intros v w [->|Hv]%elem_of_cons [->|Hw]%elem_of_cons Ew; [done| |auto|auto].
    + symmetry. apply Hc; [done|]. by rewrite <- Ew.
Qed.

(** C5: Nothing is sent on a row before the client has confirmed what the row now carries: where
    a row is open, every table from the confirmed version on, and so the one the client
    confirmed, has exactly this entry for it: track, room, payload type, SSRC. A version
    number stands for one table only, and no version the client has not been sent is ever
    taken as confirmed. *)
Theorem sub_sends_what_is_confirmed g os s h :
  run g os (new [], []) = Some (s, h) ->
  (forall i r v, rows s !! i = Some r -> is_open s r = true -> v ∈ h -> acked s <= v.1 -> v.2 !! i = Some (entry r))
  /\ (forall v w, v ∈ h -> w ∈ h -> v.1 = w.1 -> v.2 = w.2)
  /\ acked s <= arev s.
Proof.
  intros H. apply (run_history g os (new [], [])) in H as [[W K] [Ha Hb]]; [|apply Inv_start|split; cbn; set_solver]. cbn [fst snd] in *.
  split_and!; [|done|lia]. intros i r v Hr Ho Hv Hle. unfold is_open in Ho. apply Z.leb_le in Ho.
  pose proof (ok_mirror _ _ _ (wf_rows _ _ _ W i r Hr)) as (_ & _ & Hd & _). apply (Ha v Hv); [done|lia].
Qed.

Lemma sub_sends_what_is_confirmed_witness :
  exists s h r es, run demo demo_ops (new [], []) = Some (s, h) /\ rows s !! 1%nat = Some r /\ is_open s r = true /\ h !! 0%nat = Some es
  /\ es.2 !! 1%nat = Some (entry r) /\ map (is_open s) (rows s) = [false; true; false].
Proof.
  destruct (run demo demo_ops (new [], [])) as [[s h]|] eqn:E; [|vm_compute in E; discriminate].
  pose proof (sub_sends_what_is_confirmed demo demo_ops s h E) as (H & _ & _). exists s, h.
  destruct (rows s !! 1%nat) as [r|] eqn:Er; [|vm_compute in E; injection E as <- <-; discriminate].
  destruct (h !! 0%nat) as [es|] eqn:Eh; [|vm_compute in E; injection E as <- <-; discriminate].
  exists r, es. specialize (H 1%nat r es Er).
  assert (is_open s r = true) as Ho by (vm_compute in E; injection E as <- <-; vm_compute in Er; injection Er as <-; reflexivity).
  split; [reflexivity|]. split; [reflexivity|]. split; [exact Ho|]. split; [reflexivity|]. split.
  - apply H; [exact Ho|by eapply list_elem_of_lookup_2|]. vm_compute in E; injection E as <- <-. vm_compute in Eh. injection Eh as <-. vm_compute. discriminate.
  - vm_compute in E; injection E as <- <-. reflexivity.
Defined.

(** ** Who is on the rows *)

Lemma Uniq_same kind_of rs rs' : (forall k, loaded k rs' = loaded k rs) -> Uniq kind_of rs -> Uniq kind_of rs'.
Proof. intros H []. split; intros k; rewrite H; auto. Qed.

Lemma done_rows kind_of g cands now s x0 x1 x2 s3 ch tu : 0 <= arev s -> Wf g (arev s) s -> roomy g -> cands_ok kind_of cands -> Uniq kind_of (rows s) ->
  x0 = unload_where (unwanted cands) (arev s + 1) (s, []) ->
  load_slots g (arev s + 1) now (List.filter (fun c => negb (has_slot (rows x0.1) c)) (List.filter is_slot cands)) x0 = Some (x1, None) ->
  kind_pass g cands Audio (arev s + 1) now (x1, false) = Some x2 ->
  kind_pass g cands Video (arev s + 1) now x2 = Some (s3, ch, tu) ->
  Uniq kind_of (rows s3)
  /\ (forall k, exists T, Chosen cands k T /\ loaded k (rows s3) ≡ₚ map key_of T)
  /\ (forall c, c ∈ cands -> is_slot c = true -> has_slot (rows s3) c = true)
  /\ (forall r, r ∈ rows s3 -> unwanted cands r = false).
Proof.
  intros Ha Hwf Hroom Hok Hu E0 E1 E2 E3. destruct (done_step g cands now s x0 x1 x2 s3 ch tu Ha E0 E1 E2 E3) as (S1 & S2 & S3).
  assert (Wf g (arev s + 1) x1.1) as W1 by (apply (st_wf _ _ _ _ S1), (Wf_later g (arev s)); [lia|done]). pose proof (st_wf _ _ _ _ S2 W1) as W2.
  apply load_slots_spec in E1 as (L1 & L2 & L3 & L4); [|lia]. subst x0. rewrite unload_where_rows in *. cbn [fst] in *.
  destruct (unwanted_emptied cands (arev s + 1) (rows s)) as [U1 U2].
  assert (Uniq kind_of (rows x1.1)) as Hu1 by (apply (Uniq_same kind_of (rows s)); [intros k; by rewrite L1, U1|done]).
  destruct x2 as [x2 tu2]. apply (kind_pass_spec kind_of) in E2 as (O2 & Hu2 & T2 & C2 & P2); [|lia|done..].
  apply (kind_pass_spec kind_of) in E3 as (O3 & Hu3 & T3 & C3 & P3); [|lia|done..]. cbn [fst] in *.
  assert (forall c, has_slot (rows s3) c = has_slot (rows x1.1) c) as Hsl.
  { intros c. by rewrite (has_slot_others Video), O3, <- has_slot_others, (has_slot_others Audio), O2, <- has_slot_others. }
  split_and!; [done| | |].
  - intros k. destruct k; [exists T2|exists T3]; (split; [done|]); [|done].
    by rewrite (loaded_others Audio Video), O3, <- loaded_others.
  - intros c Hc Hs. rewrite Hsl. destruct (has_slot (rows s) c) eqn:Eh.
    + apply L3. rewrite has_slot_emptied; [done|by apply list_elem_of_In|done].
    + apply L2. rewrite list_elem_of_In, !filter_In. split; [by rewrite <- list_elem_of_In|]. rewrite has_slot_emptied; [by rewrite Eh|by apply list_elem_of_In|done].
  - intros r Hr. destruct (class r) eqn:Ec; [unfold unwanted; by rewrite Ec|].
    assert (r ∈ rows x1.1) as Hr1.
    { assert (forall k rs, r ∈ others k rs <-> r ∈ rs) as Ho.
      { intros k rs. unfold others. rewrite !list_elem_of_In, filter_In, slot_not_mine by done. naive_solver. }
      by rewrite <- (Ho Audio), <- O2, Ho, <- (Ho Video), <- O3, Ho. }
    destruct (L4 r Hr1) as [?|(c & Hc & _ & Hk & Ht)]; [auto|]. unfold unwanted. rewrite Ht, Ec. cbn. apply negb_false_iff.
    rewrite list_elem_of_In, !filter_In in Hc. destruct Hc as [[Hc Hs] _]. apply existsb_exists. exists c. split; [done|].
    rewrite Hs, Hk, String.eqb_refl. by rewrite bool_decide_true.
Qed.

Lemma loaded_activate a k rs : loaded k (map (activate a) rs) = loaded k rs.
Proof.
  induction rs as [|r rs IH]; [done|]. cbn [map]. rewrite !loaded_cons, IH. f_equal. unfold activate. by destruct (_ && _).
Qed.

Definition op_ok (kind_of : string -> Kind) (o : Op) : Prop := match o with OSync cands _ _ => cands_ok kind_of cands | _ => True end.

Lemma op_uniq kind_of g o s s' : roomy g -> op_ok kind_of o -> Inv g s -> Uniq kind_of (rows s) -> op g o s = Some s' -> Uniq kind_of (rows s').
Proof.
  intros Hroom Hok [W K] Hu. destruct o as [cands now draws|rm req now|codecs extmap| |v|l|l|t p q|rm|now]; cbn [op op_ok] in *.
  - destruct (sync _ _ _ _) as [[s1 o]|] eqn:E; [|done]. intros [= <-].
    assert (Wf g (arev s) (set_tape draws s)) as W' by (destruct W as [? ? ? ? ? ? W]; split; try done; intros i r Hr; by destruct (W i r Hr)).
    apply sync_synced in E; [|cbn; lia|done]. destruct E as [b _|x0 x1 x2 s3 ch tu E0 E1 E2 E3]; [done|].
    assert (Uniq kind_of (rows s3)) as H3 by (eapply (done_rows kind_of g cands now (set_tape draws s)); [cbn; lia|done..|exact E3]).
    cbv zeta. destruct (_ || tu); done.
  - intros [= <-]. unfold ready. cbn [fst rows set_rows]. eapply Uniq_same; [intros k; apply loaded_activate|].
    destruct (open_gate_same rm (if is_none (ready_at s !! rm) then set_ready_at (<[rm:=now]> (ready_at s)) s else s)) as (R & _).
    destruct (_ <? _); cbn [rows set_acked]; rewrite R; by destruct (is_none _).
  - unfold seed. destruct (seeded s); [by intros [= <-]|]. destruct (seed_codecs _ _) as [s1|] eqn:E; [|done].
    apply seed_codecs_rows in E as (R & _). intros [= <-]. destruct extmap; cbn in *; by rewrite R.
  - by intros [= <-].
  - intros [= <-]. unfold carry. by destruct (_ <? _).
  - by intros [= <-].
  - by intros [= <-].
  - by intros [= <-].
  - by intros [= <-].
  - intros [= <-]. destruct (gates_rows now s) as (R & _). by rewrite R.
Qed.

Lemma run_uniq kind_of g os x x' : roomy g -> Forall (op_ok kind_of) os -> Inv g x.1 -> Uniq kind_of (rows x.1) -> run g os x = Some x' ->
  Inv g x'.1 /\ Uniq kind_of (rows x'.1).
Proof.
  intros Hroom Hok. revert x. induction Hok as [|o os Ho Hok IH]; intros x Hi Hu; cbn [run]; [by intros [= <-]|].
  destruct (op g o x.1) as [s|] eqn:E; [|done]. destruct (op_inv g o x.1 s Hi E) as [Hi' _]. apply IH; [done|]. exact (op_uniq kind_of g o x.1 s Hroom Ho Hi Hu E).
Qed.

(** C6: The table follows the candidates, and it always comes to an end: with enough random
    numbers [sync] returns; it is refused for lack of rows for the slots and then changes
    nothing at all, or afterwards the slot of every room that was asked for is on a row and no
    other slot is, and on the rows of each kind are exactly as many candidates as there is
    room for, each once, none of them paused, and none with a lower rank than one that was
    left out. *)
Theorem sub_assignment_exact kind_of g os s h cands now draws :
  roomy g -> Forall (op_ok kind_of) os -> cands_ok kind_of cands ->
  run g os (new [], []) = Some (s, h) -> rich g (set_tape draws s) ->
  exists s' o, sync g cands now (set_tape draws s) = Some (s', o)
  /\ (mid_limit o = true -> s' = set_tape draws s /\ changes o = [] /\ changed o = false)
  /\ (mid_limit o = false ->
        (forall k, exists T, Chosen cands k T /\ loaded k (rows s') ≡ₚ map key_of T)
        /\ (forall c, c ∈ cands -> is_slot c = true -> has_slot (rows s') c = true)
        /\ (forall r, r ∈ rows s' -> unwanted cands r = false)).
Proof.
  intros Hroom Hos Hok Hrun Hrich. assert (Uniq kind_of (rows (new []))) as H0 by (split; intros []; [constructor|constructor|set_solver|set_solver]).
  destruct (run_uniq kind_of g os (new [], []) (s, h) Hroom Hos (Inv_start g) H0 Hrun) as [[W K] Hu]. cbn [fst] in *.
  assert (Wf g (arev s) (set_tape draws s)) as W' by (destruct W as [? ? ? ? ? ? W]; split; try done; intros i r Hr; by destruct (W i r Hr)).
  destruct (sync_total g cands now (set_tape draws s)) as [[s' o] E]; [cbn; lia|done|]. exists s', o. split; [done|].
  apply sync_synced in E; [|cbn; lia|done]. destruct E as [b _|x0 x1 x2 s3 ch tu E0 E1 E2 E3 s4 moved]; [done|]. split; [done|]. intros _.
  destruct (done_rows kind_of g cands now (set_tape draws s) x0 x1 x2 s3 ch tu) as (_ & A & B & C); [cbn; lia|done..|].
  assert (rows (if moved then set_arev (arev (set_tape draws s) + 1) s4 else s4) = rows s3) as -> by (by destruct moved). done.
Qed.

Definition demo_cands : list Cand := [cand "p" "a" Audio ClSlot 0; cand "x" "a" Audio ClFull 3; cand "y" "b" Audio ClFull 0].

Lemma sub_assignment_exact_witness :
  exists s' o, sync (mkConfig One 4) demo_cands 10 (set_tape (seqZ 2 192) (new [])) = Some (s', o) /\ (mid_limit o = true -> s' = set_tape (seqZ 2 192) (new [])).
Proof.
  destruct (sub_assignment_exact (fun _ => Audio) (mkConfig One 4) [] (new []) [] demo_cands 10 (seqZ 2 192)) as (s' & o & E & H & _).
  - vm_compute. lia.
  - constructor.
  - split; [apply (bool_decide_unpack _); vm_compute; exact I|].
    intros c Hc _. repeat (apply elem_of_cons in Hc as [->|Hc]; [reflexivity|]). by apply elem_of_nil in Hc.
  - reflexivity.
  - unfold rich. apply Nat.leb_le. vm_compute. reflexivity.
  - exists s', o. split; [exact E|]. intros Hm. apply H. exact Hm.
Defined.

End SubThm.
