(* ===== verification/Fan.v ===== *)
(** * Fan-out: from the tables of the subscribers to the packets they are sent

    The world of one SFU as far as media goes: the connections with their m-line tables
    (module [Sub]), the registry of published streams, the slots of the rooms. A stream and a
    slot keep the list of the rows they are sent on; the lists are derived from the tables, by
    the changes each [sync] reports.

    crates/oxsfud/src/ops/media.rs ([apply_changes], [resync_peer], [drop_stream]),
    crates/oxsfud/src/fwd/mod.rs ([row_gate], the targets of [forward]),
    crates/oxsfud/src/ops/mod.rs ([slot_of]). A row is named by its connection and its number
    in the table (the sources compare the pointers of rows; a row lives as long as its
    table). *)

From S2P Require Import Prelude Utf8 Keyexpr Rewriter Rtp Room Tracks Sim SubTable SubInv SubSlots SubAssign SubThm.

Module Fan.
Import Trk Sub SubI SubS SubThm.

Abbreviation RowId := (nat * nat)%type.

(** [PubStream]: what the room is told about it, its tracks, the rows it is sent on. *)
Record Pub := mkPub { info : Trk.Stream; phys : list Sim.Phys; fan : list RowId }.

Record SlotFan := mkSlotFan { speaker : option string; srows : list RowId }.

(** A connection: the settings of its table, its user, the table, the tables it has been sent. *)
Record Conn := mkConn { cfg : Config; cuser : string; table : Sub.State; sent : list (Z * list MlineEntry) }.

Record World := mkWorld {
  conns : gmap nat Conn; streams : gmap string Pub; slots : gmap string (SlotFan * SlotFan); sims : gmap RowId Sim.RowSim }.

Definition set_conns v w := mkWorld v (streams w) (slots w) (sims w).
Definition set_streams v w := mkWorld (conns w) v (slots w) (sims w).
Definition set_slots v w := mkWorld (conns w) (streams w) v (sims w).
Definition set_sims v w := mkWorld (conns w) (streams w) (slots w) v.
Definition set_fan v p := mkPub (info p) (phys p) v.
Definition set_srows v f := mkSlotFan (speaker f) v.

Definition world0 : World := mkWorld ∅ ∅ ∅ ∅.

Definition slot_at (k : Kind) (f : SlotFan * SlotFan) : SlotFan := match k with Audio => f.1 | Video => f.2 end.
Definition on_slot (k : Kind) (h : SlotFan -> SlotFan) (f : SlotFan * SlotFan) : SlotFan * SlotFan :=
  match k with Audio => (h f.1, f.2) | Video => (f.1, h f.2) end.

Definition sim_of (id : RowId) (w : World) : Sim.RowSim := default Sim.create (sims w !! id).

(** ** The lists follow the tables *)

Definition detach (id : RowId) (l : list RowId) : list RowId := filter (fun x => x <> id) l.

(** One change; [k] is the kind of its row. The track a row remembers for feedback is not
    part of the world. *)
Definition apply_change (c : nat) (k : Kind) (now : Z) (d : Change) (w : World) : World :=
  let id := (c, ch_row d) in
  let w :=
    match old d with
    | Some (tid, rid) =>
      match ch_class d with
      | ClFull => w |> set_streams (alter (fun p => set_fan (detach id (fan p)) p) tid (streams w))
      | ClSlot => w |> set_slots (alter (on_slot k (fun f => set_srows (detach id (srows f)) f)) rid (slots w))
      end
    | None => w
    end in
  let w := w |> set_sims (<[id := Sim.set_layer Sim.LAYER_PAUSE (sim_of id w)]> (sims w)) in
  match new_ d with
  | Some (tid, rid) =>
    match ch_class d with
    | ClFull =>
      match streams w !! tid with
      | Some p =>
        let r := sim_of id w in
        w |> set_sims (<[id := r |> Sim.set_target (Z.min (Sim.cap r) (Sim.auto_cap r)) |> Sim.set_pending_since now]> (sims w))
          |> set_streams (<[tid := set_fan (fan p ++ [id]) p]> (streams w))
      | None => w
      end
    | ClSlot => w |> set_slots (alter (on_slot k (fun f => set_srows (srows f ++ [id]) f)) rid (slots w))
    end
  | None => w
  end.

(** The kind of row [i] of connection [c]. *)
Definition kind_of_row (c i : nat) (w : World) : Kind :=
  default Audio (x ← conns w !! c; r_kind <$> rows (table x) !! i).

Definition apply_changes (c : nat) (now : Z) (ds : list Change) (w : World) : World :=
  fold_left (fun w d => apply_change c (kind_of_row c (ch_row d) w) now d w) ds w.

Definition put_table (c : nat) (x : Conn) (s : Sub.State) (w : World) : World :=
  w |> set_conns (<[c := mkConn (cfg x) (cuser x) s (snapshot s :: sent x)]> (conns w)).

(** The part of [resync_peer] under the lock of the table; [draws] are the random numbers.
    [None] when they run out. *)
Definition sync_table (c : nat) (cands : list Cand) (now : Z) (draws : list Z) (w : World) : option (World * SyncOut) :=
  let! x := conns w !! c else Some (w, out_default) in
  let? (s, o) := sync (cfg x) cands now (set_tape draws (table x)) in
  Some (put_table c x s w, o).

Definition resync_peer (c : nat) (cands : list Cand) (now : Z) (draws : list Z) (w : World) : option (World * SyncOut) :=
  let? (w, o) := sync_table c cands now draws w in
  Some (apply_changes c now (changes o) w, o).

(** The other operations on a table. *)
Definition table_op (c : nat) (o : Op) (w : World) : option World :=
  let! x := conns w !! c else Some w in
  let? s := op (cfg x) o (table x) in
  Some (put_table c x s w).

Definition drop_stream (tid : string) (w : World) : World := w |> set_streams (delete tid (streams w)).

(** [gc::leave] of the last room, then [gc::reap]: the rows are given up, the table removed. *)
Definition reap (c : nat) (now : Z) (w : World) : option World :=
  let? (w, _) := resync_peer c [] now [] w in
  Some (w |> set_conns (delete c (conns w))).

(** ** The targets of a packet *)

Definition row_at (id : RowId) (w : World) : option (Conn * Row) :=
  x ← conns w !! id.1; r ← rows (table x) !! id.2; Some (x, r).

Definition gate_open (s : Sub.State) (r : Row) : bool :=
  match d_gate (down r) with Some g => default false (cells s !! g) | None => false end.

Definition row_gate (k : Kind) (s : Sub.State) (r : Row) : option string :=
  if negb (is_open s r) then Some "row_gate"
  else if bool_decide (k = Video) && negb (gate_open s r) then Some "ready_gate"
  else None.

(** What [forward] gathers: the rows, the state of their layers, the counts of drops. *)
Record Out := mkTargets { targets : list RowId; osims : gmap RowId Sim.RowSim; drops : list string }.

Definition full_target (w : World) (p : Pub) (t : nat) (keyframe : bool) (now : Z) (o : Out) (id : RowId) : Out :=
  let! (x, r) := row_at id w else o in
  match row_gate (kind (info p)) (table x) r with
  | Some why => mkTargets (targets o) (osims o) (drops o ++ [why])
  | None =>
    if bool_decide (kind (info p) = Video) && simulcast (info p) then
      let '(m, sent, _) := Sim.pass (phys p) t keyframe now (default Sim.create (osims o !! id)) in
      mkTargets (if sent then targets o ++ [id] else targets o) (<[id := m]> (osims o)) (drops o)
    else mkTargets (targets o ++ [id]) (osims o) (drops o)
  end.

Definition slot_target (w : World) (user : string) (o : Out) (id : RowId) : Out :=
  let! (x, r) := row_at id w else o in
  if String.eqb (cuser x) user then o
  else if negb (is_open (table x) r) then mkTargets (targets o) (osims o) (drops o ++ ["row_gate"])
  else mkTargets (targets o ++ [id]) (osims o) (drops o).

(** A packet of track [t] of stream [tid], from [user], who publishes in [pub_room]. *)
Definition forward (user : string) (pub_room : option string) (tid : string) (t : nat) (keyframe : bool) (now : Z) (w : World) : Out :=
  let none why := mkTargets [] (sims w) why in
  let! p := streams w !! tid else none [] in
  let! rm := pub_room else none ["no_pub_room"] in
  if is_half (info p) then
    let! f := slots w !! rm else none ["prefan_gate"] in
    let f := slot_at (kind (info p)) f in
    if bool_decide (speaker f = Some user) then fold_left (slot_target w user) (srows f) (none []) else none ["prefan_gate"]
  else if negb (String.eqb (room (info p)) rm) then none ["no_pub_room"]
  else fold_left (full_target w p t keyframe now) (fan p) (none []).

(** ** Histories *)

(** Where a row is to be found: in the list of its stream, or of the slot of its room. *)
Inductive Place := PFull (tid : string) | PSlot (rid : string) (k : Kind).
#[export] Instance Place_eq_dec : EqDecision Place. Proof. solve_decision. Defined.

Definition place (cl : Class) (k : Kind) (t : string * string) : Place := match cl with ClFull => PFull t.1 | ClSlot => PSlot t.2 k end.

Definition place_row (r : Row) : option Place := place (class r) (r_kind r) <$> track r.

Definition place_at (w : World) (id : RowId) : option Place := p ← row_at id w; place_row p.2.

Definition list_at (w : World) (pl : Place) : option (list RowId) :=
  match pl with
  | PFull tid => fan <$> streams w !! tid
  | PSlot rid k => (fun f => srows (slot_at k f)) <$> slots w !! rid
  end.

Definition is_sync (o : Op) : bool := match o with OSync _ _ _ => true | _ => false end.

(** What can happen, one thing at a time. The number of a connection and the id of a track are
    new when they are given ([next_id], 64 random bits); a room is opened again only when
    nobody has a row on its slots. *)
Inductive Happens (w : World) : World -> Prop :=
  | h_connect c g u : conns w !! c = None -> Happens w (w |> set_conns (<[c := mkConn g u (new []) []]> (conns w)))
  | h_publish i ph : streams w !! track_id i = None -> (forall id, place_at w id <> Some (PFull (track_id i))) ->
      Happens w (w |> set_streams (<[track_id i := mkPub i ph []]> (streams w)))
  | h_change tid p i ph : streams w !! tid = Some p -> track_id i = tid -> Happens w (w |> set_streams (<[tid := mkPub i ph (fan p)]> (streams w)))
  | h_drop tid : Happens w (drop_stream tid w)
  | h_room rid : slots w !! rid = None -> (forall id k, place_at w id <> Some (PSlot rid k)) ->
      Happens w (w |> set_slots (<[rid := (mkSlotFan None [], mkSlotFan None [])]> (slots w)))
  | h_room_gone rid : Happens w (w |> set_slots (delete rid (slots w)))
  | h_speaker rid k u : Happens w (w |> set_slots (alter (on_slot k (fun f => mkSlotFan u (srows f))) rid (slots w)))
  | h_table c o w' : is_sync o = false -> table_op c o w = Some w' -> Happens w w'
  | h_resync c cands now draws w' o : resync_peer c cands now draws w = Some (w', o) -> Happens w w'
  | h_reap c now w' : reap c now w = Some w' -> Happens w w'
  | h_sims m : Happens w (w |> set_sims m).

Definition Reachable : World -> Prop := rtc Happens world0.

(** ** The invariant *)

(** Every list holds exactly the rows that belong there, each once. *)
Definition Exact (w : World) (P : RowId -> option Place) : Prop :=
  forall pl l, list_at w pl = Some l -> NoDup l /\ forall id, id ∈ l <-> P id = Some pl.

Definition upd_place (P : RowId -> option Place) (id : RowId) (v : option Place) : RowId -> option Place :=
  fun x => if decide (x = id) then v else P x.

Lemma Exact_ext w P Q : (forall id, P id = Q id) -> Exact w P -> Exact w Q.
Proof. intros E H pl l Hl. destruct (H pl l Hl) as [? Hi]. split; [done|]. intros id. by rewrite Hi, E. Qed.

(** A list is replaced. *)
Definition at_place (pl : Place) (h : list RowId -> list RowId) (w w' : World) : Prop :=
  forall q, list_at w' q = if decide (q = pl) then h <$> list_at w q else list_at w q.

Lemma at_full tid h w : at_place (PFull tid) h w (set_streams (alter (fun p => set_fan (h (fan p)) p) tid (streams w)) w).
Proof.
  intros [t|r k]; cbn; [|by case_decide]. destruct (decide (t = tid)) as [->|Hne].
  - rewrite lookup_alter_eq, decide_True by done. by destruct (streams w !! tid).
  - rewrite lookup_alter_ne, decide_False by congruence. done.
Qed.

Lemma at_slot rid k h w : at_place (PSlot rid k) h w (set_slots (alter (on_slot k (fun f => set_srows (h (srows f)) f)) rid (slots w)) w).
Proof.
  intros [t|r k']; cbn; [by case_decide|]. destruct (decide (r = rid)) as [->|Hne].
  - rewrite lookup_alter_eq. destruct (slots w !! rid) as [[]|]; [|by case_decide]. destruct k, k'; case_decide; by simplify_eq/=.
  - rewrite lookup_alter_ne, decide_False by congruence. done.
Qed.

Lemma Exact_detach w w' P id pl : at_place pl (detach id) w w' -> P id = Some pl -> Exact w P -> Exact w' (upd_place P id None).
Proof.
  intros Hat Hid H q l. rewrite Hat. unfold upd_place, detach. case_decide as Eq.
  - subst q. destruct (list_at w pl) as [l0|] eqn:E; [|done]. intros [= <-]. destruct (H pl l0 E) as [Hn Hi]. split; [by apply NoDup_filter|].
    intros x. rewrite list_elem_of_filter, Hi. destruct (decide (x = id)); naive_solver.
  - intros E. destruct (H q l E) as [Hn Hi]. split; [done|]. intros x. rewrite Hi. destruct (decide (x = id)) as [->|]; [|done]. split; congruence.
Qed.

Lemma Exact_attach w w' P id pl : at_place pl (fun l => l ++ [id]) w w' -> P id = None -> Exact w P -> Exact w' (upd_place P id (Some pl)).
Proof.
  intros Hat Hid H q l. rewrite Hat. unfold upd_place. case_decide as Eq.
  - subst q. destruct (list_at w pl) as [l0|] eqn:E; [|done]. intros [= <-]. destruct (H pl l0 E) as [Hn Hi].
    assert (id ∉ l0) by (rewrite Hi; congruence). split; [apply NoDup_app; split_and!; [done|set_solver|apply NoDup_singleton]|].
    intros x. rewrite elem_of_app, list_elem_of_singleton, Hi. destruct (decide (x = id)); naive_solver.
  - intros E. destruct (H q l E) as [Hn Hi]. split; [done|]. intros x. rewrite Hi. destruct (decide (x = id)) as [->|]; [|done]. split; congruence.
Qed.

(** A place without a list is as good as none. *)
Lemma Exact_nowhere w P id v : (forall pl, v = Some pl -> list_at w pl = None) -> P id = None -> Exact w P -> Exact w (upd_place P id v).
Proof.
  intros Hv Hid H q l E. destruct (H q l E) as [Hn Hi]. split; [done|]. intros x. rewrite Hi. unfold upd_place.
  destruct (decide (x = id)) as [->|]; [|done]. split; [congruence|]. intros ->. by rewrite (Hv q eq_refl) in E.
Qed.

Lemma Exact_sims w P m : Exact (set_sims m w) P <-> Exact w P.
Proof. done. Qed.

Lemma apply_change_exact c k now d w P :
  P (c, ch_row d) = place (ch_class d) k <$> old d -> Exact w P ->
  Exact (apply_change c k now d w) (upd_place P (c, ch_row d) (place (ch_class d) k <$> new_ d)).
Proof.
  intros Hid H. unfold apply_change. set (id := (c, ch_row d)) in *.
  match goal with |- context [match old d with Some _ => _ | None => w end] => set (w1 := match old d with Some _ => _ | None => w end) end.
  assert (Exact w1 (upd_place P id None)) as H1.
  { subst w1. destruct (old d) as [[tid rid]|].
    - destruct (ch_class d); cbn in Hid; (eapply Exact_detach; [|exact Hid|exact H]); [apply at_full|apply at_slot].
    - apply (Exact_ext w P); [|done]. intros x. unfold upd_place. by case_decide; subst. }
  clearbody w1. set (w2 := set_sims _ w1). assert (Exact w2 (upd_place P id None)) as H2 by done. clearbody w2. clear H1 w1 H.
  assert (forall v x, upd_place (upd_place P id None) id v x = upd_place P id v x) as Hu by (intros v x; unfold upd_place; by case_decide).
  assert (upd_place P id None id = None) as Hnone by (unfold upd_place; by rewrite decide_True).
  destruct (new_ d) as [[tid rid]|]; [|done]. destruct (ch_class d); cbn.
  - destruct (streams w2 !! tid) as [p|] eqn:E.
    + eapply Exact_ext; [apply Hu|]. eapply (Exact_attach w2); [|done|exact H2].
      intros q. rewrite <- (at_full tid (fun l => l ++ [id]) w2 q). destruct q as [t|]; [|done]. cbn. f_equal.
      destruct (decide (t = tid)) as [->|]; [by rewrite lookup_insert_eq, lookup_alter_eq, E|by rewrite lookup_insert_ne, lookup_alter_ne].
    + eapply Exact_ext; [apply Hu|]. apply Exact_nowhere; [|done|exact H2]. intros pl [= <-]. cbn. by rewrite E.
  - eapply Exact_ext; [apply Hu|]. eapply (Exact_attach w2); [apply at_slot|done|exact H2].
Qed.

Lemma apply_change_conns c k now d w : conns (apply_change c k now d w) = conns w.
Proof. unfold apply_change. repeat case_match; done. Qed.

(** The places when the rows of [c] are [rs] and carry [m], and the others are as [P] says. *)
Definition over (P : RowId -> option Place) (c : nat) (rs : list Row) (m : gmap nat (string * string)) (id : RowId) : option Place :=
  if decide (id.1 = c) then r ← rs !! id.2; place (class r) (r_kind r) <$> m !! id.2 else P id.

Lemma apply_changes_exact P c now rs ds : forall m w,
  (exists x, conns w !! c = Some x /\ rows (table x) = rs) -> fit ds m ->
  (forall d, d ∈ ds -> exists r, rs !! ch_row d = Some r /\ class r = ch_class d) ->
  Exact w (over P c rs m) -> Exact (apply_changes c now ds w) (over P c rs (replay ds m)).
Proof.
  unfold apply_changes, replay. induction ds as [|d ds IH]; intros m w Hx Hf Hc H; [done|]. cbn [fold_left] in *. destruct Hf as [Ho Hf].
  apply IH; [by rewrite apply_change_conns|done|intros; apply Hc; set_solver|]. destruct Hx as (x & Ex & Er).
  destruct (Hc d) as (r & Hr & Hcl); [set_solver|]. assert (kind_of_row c (ch_row d) w = r_kind r) as -> by (unfold kind_of_row; by rewrite Ex; cbn; rewrite Er, Hr).
  eapply Exact_ext; [|apply apply_change_exact; [|exact H]].
  - intros [c' i]. unfold upd_place, over, replay1. cbn. destruct (decide (c' = c)) as [->|]; [|case_decide; congruence].
    destruct (decide (i = ch_row d)) as [->|Hne].
    + rewrite decide_True, Hr by done. cbn. rewrite <- Hcl. destruct (new_ d); cbn; [by rewrite lookup_insert_eq|by rewrite lookup_delete_eq].
    + rewrite decide_False by congruence. destruct (new_ d); [by rewrite lookup_insert_ne|by rewrite lookup_delete_ne].
  - unfold over. cbn. rewrite decide_True, Hr, Ho by done. cbn. by rewrite Hcl.
Qed.

Lemma apply_changes_conns c now ds w : conns (apply_changes c now ds w) = conns w.
Proof. unfold apply_changes. revert w. induction ds as [|d ds IH]; intros w; [done|]. cbn [fold_left]. by rewrite IH, apply_change_conns. Qed.

(** What a [sync] reports is what it did. *)
Lemma sync_reports g cands now s s' o : Inv g s -> sync g cands now s = Some (s', o) ->
  fit (changes o) (tracks_map (rows s)) /\ replay (changes o) (tracks_map (rows s)) = tracks_map (rows s')
  /\ (forall d, d ∈ changes o -> exists r, rows s' !! ch_row d = Some r /\ class r = ch_class d)
  /\ exists l, map ids (rows s') = map ids (rows s) ++ l.
Proof.
  intros [W K] E. apply sync_synced in E; [|lia|done]. destruct E as [b _|x0 x1 x2 s3 ch tu E0 E1 E2 E3 s4 moved].
  { cbn. split_and!; [done|done|set_solver|exists []; by rewrite app_nil_r]. }
  destruct (done_step g cands now s x0 x1 x2 s3 ch tu ltac:(lia) E0 E1 E2 E3) as (S1 & S2 & S3).
  assert (Step g (arev s + 1) (s, []) (s3, ch)) as S by (etrans; [exact S1|]; etrans; [exact S2|exact S3]).
  assert (rows (if moved then set_arev (arev s + 1) s4 else s4) = rows s3) as -> by (by destruct moved).
  destruct (st_replay _ _ _ _ S) as (d & Ed & Hf & Hr & Hc). cbn in Ed. subst d. cbn [fst changes] in *. split_and!; [done..|]. apply (st_ids _ _ _ _ S).
Qed.

Lemma ids_place rs rs' l i r : map ids rs' = map ids rs ++ l -> rs !! i = Some r -> exists r', rs' !! i = Some r' /\ class r' = class r /\ r_kind r' = r_kind r.
Proof.
  intros E Hr. assert (map ids rs' !! i = Some (ids r)) as Hi by (rewrite E; apply lookup_app_l_Some; by rewrite list_lookup_fmap, Hr).
  rewrite list_lookup_fmap in Hi. destruct (rs' !! i) as [r'|]; [|done]. injection Hi as ? ? ? ? ?. exists r'. by split_and!.
Qed.

(** ** Every reachable world *)

Record conn_ok (x : Conn) : Prop := { co_inv : Inv (cfg x) (table x); co_sent : History (table x, sent x) }.

Record WInv (w : World) : Prop := {
  wi_conns : forall c x, conns w !! c = Some x -> conn_ok x;
  wi_exact : Exact w (place_at w) }.

Lemma place_at_tracks w c x i : conns w !! c = Some x ->
  place_at w (c, i) = r ← rows (table x) !! i; place (class r) (r_kind r) <$> tracks_map (rows (table x)) !! i.
Proof. intros E. unfold place_at, row_at. cbn. rewrite E. cbn. rewrite tracks_lookup. by destruct (rows (table x) !! i). Qed.

Lemma conn_op x o s : conn_ok x -> op (cfg x) o (table x) = Some s -> conn_ok (mkConn (cfg x) (cuser x) s (snapshot s :: sent x)).
Proof.
  intros [Hi Hh] E. destruct (run_history (cfg x) [o] (table x, sent x) (s, snapshot s :: sent x)) as [? ?]; [done|done|cbn; by rewrite E|]. by split.
Qed.

Lemma put_conns (w : World) c x' : (forall c x, conns w !! c = Some x -> conn_ok x) -> conn_ok x' ->
  forall d x, <[c := x']> (conns w) !! d = Some x -> conn_ok x.
Proof. intros H Hx d x. destruct (decide (d = c)) as [->|]; [rewrite lookup_insert_eq; by intros [= <-]|rewrite lookup_insert_ne by done; apply H]. Qed.

Lemma place_put w c x s id : place_at (put_table c x s w) id =
  over (place_at w) c (rows s) (tracks_map (rows s)) id.
Proof.
  destruct id as [d i]. unfold over. cbn [fst snd]. case_decide as E.
  - subst d. rewrite (place_at_tracks _ c (mkConn (cfg x) (cuser x) s (snapshot s :: sent x))); [done|]. cbn. by rewrite lookup_insert_eq.
  - unfold place_at, row_at. cbn. by rewrite lookup_insert_ne.
Qed.

Lemma resync_inv c cands now draws w w' o : WInv w -> resync_peer c cands now draws w = Some (w', o) -> WInv w'.
Proof.
  intros [Hc He]. unfold resync_peer, sync_table. destruct (conns w !! c) as [x|] eqn:Ex; [|by intros [= <- <-]].
  destruct (sync _ _ _ _) as [[s o1]|] eqn:E; [|done]. intros [= <- <-].
  assert (Inv (cfg x) (set_tape draws (table x))) as Hi.
  { destruct (co_inv _ (Hc c x Ex)) as [[? ? ? ? ? ? W] ?]. split; [split; try done; intros i r Hr; by destruct (W i r Hr)|done]. }
  destruct (sync_reports _ _ _ _ _ _ Hi E) as (Hf & Hr & Hd & l & Hl). cbn [rows set_tape set_ssrcs] in *. split.
  - rewrite apply_changes_conns. apply put_conns; [done|]. apply (conn_op x (OSync cands now draws)); [by eapply Hc|]. cbn. by rewrite E.
  - apply (Exact_ext _ (over (place_at w) c (rows s) (tracks_map (rows s)))).
    { intros id. rewrite <- (place_put w c x s id). unfold place_at, row_at. by rewrite apply_changes_conns. }
    rewrite <- Hr. apply apply_changes_exact; [|done|done|].
    + eexists. cbn. rewrite lookup_insert_eq. by split.
    + intros pl l0 Hl0. destruct (He pl l0 Hl0) as [Hn Hin]. split; [done|]. intros [d i]. rewrite Hin. unfold over. cbn.
      case_decide as Ed; [|done]. subst d. rewrite (place_at_tracks w c x i Ex), tracks_lookup. destruct (rows (table x) !! i) as [r|] eqn:Er; cbn.
      * destruct (ids_place _ _ _ _ _ Hl Er) as (r' & E' & Ec & Ek). rewrite E'. cbn. by rewrite Ec, Ek.
      * by destruct (rows s !! i).
Qed.

Lemma op_rows g o s s' : is_sync o = false -> op g o s = Some s' -> rows s' = rows s \/ exists a, rows s' = map (activate a) (rows s).
Proof.
  intros Ho. destruct o as [cands now draws|rm req now|codecs extmap| |v|l|l|t p q|rm|now]; [done| | |..]; cbn [op].
  - intros [= <-]. right. unfold ready. cbn [fst]. set (s1 := if is_none (ready_at s !! rm) then _ else s).
    assert (rows s1 = rows s) as R by (subst s1; by destruct (is_none _)). destruct (open_gate_same rm s1) as (R2 & _).
    set (s3 := if acked _ <? _ then _ else _). assert (rows s3 = rows s) as R3 by (subst s3; destruct (_ <? _); cbn [rows set_acked]; congruence).
    exists (acked s3). cbn. by rewrite R3.
  - unfold seed. destruct (seeded s); [intros [= <-]; by left|]. destruct (seed_codecs _ _) as [s1|] eqn:E; [|done].
    apply seed_codecs_rows in E as (R & _). intros [= <-]. left. by destruct extmap.
  - intros [= <-]. by left.
  - intros [= <-]. left. unfold carry. by destruct (_ <? _).
  - intros [= <-]. by left.
  - intros [= <-]. by left.
  - intros [= <-]. by left.
  - intros [= <-]. by left.
  - intros [= <-]. left. apply gates_rows.
Qed.

Lemma activate_place a r : place_row (activate a r) = place_row r.
Proof. unfold activate. by destruct (_ && _). Qed.

Lemma place_put_same w c x s : conns w !! c = Some x -> (forall i, (rows s !! i ≫= place_row) = (rows (table x) !! i ≫= place_row)) ->
  forall id, place_at w id = place_at (put_table c x s w) id.
Proof.
  intros Ex H [d i]. unfold place_at, row_at. cbn. destruct (decide (d = c)) as [->|Hne]; [|by rewrite lookup_insert_ne].
  rewrite Ex, lookup_insert_eq. cbn. specialize (H i). destruct (rows s !! i), (rows (table x) !! i); cbn in *; done.
Qed.

Lemma table_op_inv c o w w' : is_sync o = false -> WInv w -> table_op c o w = Some w' -> WInv w'.
Proof.
  intros Ho [Hc He]. unfold table_op. destruct (conns w !! c) as [x|] eqn:Ex; [|by intros [= <-]].
  destruct (op _ _ _) as [s|] eqn:E; [|done]. intros [= <-]. split.
  - apply put_conns; [done|]. apply (conn_op x o); [by eapply Hc|done].
  - eapply Exact_ext; [apply (place_put_same w c x s Ex)|exact He]. intros i. destruct (op_rows _ _ _ _ Ho E) as [->|[a ->]]; [done|].
    rewrite list_lookup_fmap. destruct (rows (table x) !! i); [|done]. cbn. apply activate_place.
Qed.

(** Without candidates every row is given up, and no random number is drawn. *)
Lemma rehome_nil k rev now l x : fold_left (rehome_one [] k rev now) l x = x.
Proof.
  induction l as [|i l IH]; [done|]. cbn [fold_left]. assert (rehome_one [] k rev now x i = x) as ->; [|done].
  unfold rehome_one. destruct (rows x.1 !! i) as [r|]; [|done]. destruct (negb _); [done|]. by destruct (track r).
Qed.

Definition loaded_kind (k : Kind) (r : Row) : bool := bool_decide (class r = ClFull) && bool_decide (r_kind r = k) && match track r with Some _ => true | None => false end.

Lemma kind_pass_nil g k rev now x tu : exists x', kind_pass g [] k rev now (x, tu) = Some (x', tu) /\ rows x'.1 = map (emptied (loaded_kind k) rev) (rows x.1).
Proof.
  destruct x as [s ch]. unfold kind_pass. rewrite rehome_nil. cbn [desired List.filter fold_left waiting].
  assert (target [] k now (set_waiting (waiting s) s) = []) as -> by (unfold target; by destruct (cap k)).
  match goal with |- context [unload_where ?f rev ?y] => destruct (unload_where f rev y) as [s1 ch1] eqn:E; pose proof (unload_where_rows f rev y) as H end.
  exists (s1, ch1). split; [done|]. rewrite E in H. cbn [fst rows set_waiting] in *. rewrite H. apply map_ext. intros r. unfold emptied, loaded_kind. by destruct (track r).
Qed.

Lemma emptied_all rev r : track (emptied (loaded_kind Video) rev (emptied (loaded_kind Audio) rev (emptied (unwanted []) rev r))) = None.
Proof. destruct r as [m [] [] t cd p rp ss rs [tr|] si la st d]; reflexivity. Qed.

Lemma sync_nil g now s : exists s' o, sync g [] now s = Some (s', o) /\ forall r, r ∈ rows s' -> track r = None.
Proof.
  unfold sync. cbn [fresh_slot_rows List.filter fold_left snd Nat.ltb Nat.leb andb]. set (x0 := unload_where _ _ _). cbn [load_slots].
  destruct (kind_pass_nil g Audio (arev s + 1) now x0 false) as (x1 & -> & R1). destruct (kind_pass_nil g Video (arev s + 1) now x1 false) as ([s2 ch] & -> & R2).
  eexists _, _. split; [reflexivity|]. intros r Hr. assert (r ∈ rows s2) as Hr2 by (by destruct (_ || false)). cbn [fst] in R2.
  rewrite R2, R1 in Hr2. subst x0. rewrite unload_where_rows in Hr2. cbn [fst] in Hr2.
  apply list_elem_of_fmap in Hr2 as (r1 & -> & Hr1). apply list_elem_of_fmap in Hr1 as (r2 & -> & Hr2). apply list_elem_of_fmap in Hr2 as (r3 & -> & _).
  apply emptied_all.
Qed.

Lemma reap_spec c now w : exists w', reap c now w = Some w'
  /\ forall w1 o, resync_peer c [] now [] w = Some (w1, o) -> w' = set_conns (delete c (conns w1)) w1 /\ forall i, place_at w1 (c, i) = None.
Proof.
  unfold reap, resync_peer, sync_table. destruct (conns w !! c) as [x|] eqn:Ex.
  - destruct (sync_nil (cfg x) now (set_tape [] (table x))) as (s & o & -> & H). eexists. split; [done|]. intros w1 o1 [= <- <-]. split; [done|].
    intros i. unfold place_at, row_at. rewrite apply_changes_conns. cbn. rewrite lookup_insert_eq. cbn. destruct (rows s !! i) as [r|] eqn:Er; [|done]. cbn.
    unfold place_row. by rewrite (H r) by (by eapply list_elem_of_lookup_2).
  - eexists. split; [done|]. intros w1 o1 [= <- <-]. split; [done|]. intros i. unfold place_at, row_at. cbn. by rewrite Ex.
Qed.

Lemma reap_inv c now w w' : WInv w -> reap c now w = Some w' -> WInv w'.
Proof.
  intros Hw E. destruct (reap_spec c now w) as (w2 & E2 & H). rewrite E in E2. injection E2 as <-.
  destruct (resync_peer c [] now [] w) as [[w1 o]|] eqn:Er; [|unfold reap in E; by rewrite Er in E].
  destruct (H w1 o eq_refl) as [-> Hn]. destruct (resync_inv _ _ _ _ _ _ _ Hw Er) as [Hc He]. split.
  - cbn. intros d x [_ Hd]%lookup_delete_Some. by eapply Hc.
  - apply (Exact_ext _ (place_at w1)); [|exact He]. intros [d i]. unfold place_at at 2, row_at. cbn.
    destruct (decide (d = c)) as [->|]; [by rewrite lookup_delete_eq, Hn|by rewrite lookup_delete_ne].
Qed.

Lemma happens_inv w w' : WInv w -> Happens w w' -> WInv w'.
Proof.
  intros [Hc He]. destruct 1 as [c g u Hn|i ph Hs Hp|tid p i ph Hs Ei|tid|rid Hs Hp|rid|rid k u|c o w' Ho E|c cands now draws w' o E|c now w' E|m].
  - split.
    + apply put_conns; [done|]. split; [apply Inv_start|split; set_solver].
    + apply (Exact_ext _ (place_at w)); [|exact He]. intros [d i]. unfold place_at, row_at. cbn.
      destruct (decide (d = c)) as [->|]; [by rewrite lookup_insert_eq, Hn|by rewrite lookup_insert_ne].
  - split; [done|]. intros [t|r k] l; [|apply (He (PSlot r k))]. cbn. destruct (decide (t = track_id i)) as [->|].
    + rewrite lookup_insert_eq. intros [= <-]. split; [constructor|]. intros id. split; [set_solver|]. intros H. by destruct (Hp id).
    + rewrite lookup_insert_ne by done. apply (He (PFull t)).
  - split; [done|]. intros [t|r k] l; [|apply (He (PSlot r k))]. cbn. destruct (decide (t = tid)) as [->|].
    + rewrite lookup_insert_eq. intros [= <-]. apply (He (PFull tid)). cbn. by rewrite Hs.
    + rewrite lookup_insert_ne by done. apply (He (PFull t)).
  - split; [done|]. intros [t|r k] l; [|apply (He (PSlot r k))]. cbn. destruct (decide (t = tid)) as [->|].
    + by rewrite lookup_delete_eq.
    + rewrite lookup_delete_ne by done. apply (He (PFull t)).
  - split; [done|]. intros [t|r k] l; [apply (He (PFull t))|]. cbn. destruct (decide (r = rid)) as [->|].
    + rewrite lookup_insert_eq. intros [= <-]. assert (srows (slot_at k (mkSlotFan None [], mkSlotFan None [])) = []) as -> by (by destruct k).
      split; [constructor|]. intros id. split; [set_solver|]. intros H. by destruct (Hp id k).
    + rewrite lookup_insert_ne by done. apply (He (PSlot r k)).
  - split; [done|]. intros [t|r k] l; [apply (He (PFull t))|]. cbn. destruct (decide (r = rid)) as [->|].
    + by rewrite lookup_delete_eq.
    + rewrite lookup_delete_ne by done. apply (He (PSlot r k)).
  - split; [done|]. intros [t|r k'] l; [apply (He (PFull t))|]. intros E. apply (He (PSlot r k')). rewrite <- E. cbn. destruct (decide (r = rid)) as [->|].
    + rewrite lookup_alter_eq. destruct (slots w !! rid) as [[]|]; [|done]. by destruct k, k'.
    + by rewrite lookup_alter_ne.
  - by apply (table_op_inv c o w).
  - by eapply resync_inv.
  - by eapply reap_inv.
  - done.
Qed.

Lemma reachable_inv w : Reachable w -> WInv w.
Proof.
  assert (WInv world0) as H0 by (split; [set_solver|]; intros [t|r k] l; cbn; by rewrite lookup_empty).
  intros H. revert H0. induction H as [|w1 w2 w3 H _ IH]; [done|]. intros Hw. apply IH. by eapply happens_inv.
Qed.

(** ** Who gets a packet *)

Definition gated (w : World) (k : Kind) (id : RowId) : bool :=
  match row_at id w with Some (x, r) => match row_gate k (table x) r with None => true | Some _ => false end | None => false end.

Lemma full_targets w p t kf now l : forall o,
  exists l', targets (fold_left (full_target w p t kf now) l o) = targets o ++ l' /\ l' `sublist_of` List.filter (gated w (kind (info p))) l
  /\ (simulcast (info p) = false \/ kind (info p) = Audio -> l' = List.filter (gated w (kind (info p))) l).
Proof.
  induction l as [|id l IH]; intros o; cbn [fold_left List.filter]; [exists []; by rewrite app_nil_r|].
  destruct (IH (full_target w p t kf now o id)) as (l' & -> & Hs & Hf). unfold full_target.
  assert (gated w (kind (info p)) id = match row_at id w with Some (x, r) => match row_gate (kind (info p)) (table x) r with None => true | Some _ => false end | None => false end) as -> by done.
  destruct (row_at id w) as [[x r]|]; [|by exists l']. destruct (row_gate _ _ _); [by exists l'|].
  destruct (_ && simulcast (info p)) eqn:Eb.
  - destruct (Sim.pass _ _ _ _ _) as [[m sd] pli]. assert (~ (simulcast (info p) = false \/ kind (info p) = Audio)).
    { apply andb_true_iff in Eb as [Ek Es]. apply bool_decide_eq_true in Ek. rewrite Ek, Es. by intros [?|?]. }
    destruct sd; cbn [targets]; [exists (id :: l'); rewrite <- app_assoc|exists l']; (split; [done|]); (split; [by constructor|done]).
  - exists (id :: l'). cbn [targets]. rewrite <- app_assoc. split; [done|]. split; [by constructor|]. intros H. by rewrite (Hf H).
Qed.



Lemma sublist_in {A} (l k : list A) x : l `sublist_of` k -> x ∈ l -> x ∈ k.
Proof. intros H Hx. eapply elem_of_submseteq; [exact Hx|by apply sublist_submseteq]. Qed.

Lemma NoDup_filtered {A} (f : A -> bool) l : NoDup l -> NoDup (List.filter f l).
Proof. intros H. by apply NoDup_ListNoDup, List.NoDup_filter, NoDup_ListNoDup. Qed.

Lemma row_at_lookup w id x r : row_at id w = Some (x, r) <-> conns w !! id.1 = Some x /\ rows (table x) !! id.2 = Some r.
Proof.
  unfold row_at. destruct (conns w !! id.1) as [y|]; cbn; [|naive_solver]. destruct (rows (table y) !! id.2) eqn:E; cbn; [|naive_solver]. naive_solver.
Qed.

(** What the client of a row that is open was sent, and confirmed. *)
Lemma open_confirmed w id x r : WInv w -> row_at id w = Some (x, r) -> is_open (table x) r = true ->
  forall v, v ∈ sent x -> acked (table x) <= v.1 -> v.2 !! id.2 = Some (Sub.entry r).
Proof.
  intros [Hc _] [Ex Er]%row_at_lookup Ho v Hv Hle. destruct (Hc _ _ Ex) as [[W _] [Ha _]].
  pose proof (ok_mirror _ _ _ (wf_rows _ _ _ W _ _ Er)) as (_ & _ & Hd & _). unfold is_open in Ho. apply Z.leb_le in Ho.
  apply (Ha v Hv); cbn [fst]; [done|lia].
Qed.

Lemma place_full w id tid : place_at w id = Some (PFull tid) <->
  exists x r rm, row_at id w = Some (x, r) /\ class r = ClFull /\ track r = Some (tid, rm).
Proof.
  unfold place_at, place_row. split.
  - destruct (row_at id w) as [[x r]|]; [|done]. cbn. destruct (track r) as [[t rm]|] eqn:Et; [|done]. cbn.
    destruct (class r) eqn:Ec; intros H; simplify_eq/=. by exists x, r, rm.
  - intros (x & r & rm & -> & Hc & Ht). cbn. by rewrite Ht, Hc.
Qed.


Lemma full_exact w user rm tid t kf now p :
  WInv w -> streams w !! tid = Some p -> is_half (info p) = false -> room (info p) = rm ->
  let ids := targets (forward user (Some rm) tid t kf now w) in
  NoDup ids
  /\ (forall id, id ∈ ids -> exists x r, row_at id w = Some (x, r) /\ class r = ClFull /\ fst <$> track r = Some tid /\ is_open (table x) r = true
        /\ forall v, v ∈ sent x -> acked (table x) <= v.1 -> exists e, v.2 !! id.2 = Some e /\ m_track_id e = Some tid /\ m_ssrc e = ssrc r)
  /\ (simulcast (info p) = false \/ kind (info p) = Audio -> forall id x r, row_at id w = Some (x, r) -> class r = ClFull -> fst <$> track r = Some tid ->
        row_gate (kind (info p)) (table x) r = None -> id ∈ ids).
Proof.
  intros Hw Hp Hh Hr. destruct (wi_exact w Hw (PFull tid) (fan p)) as [Hn Hi]; [cbn; by rewrite Hp|].
  unfold forward. rewrite Hp, Hh, Hr, String.eqb_refl. cbn [negb].
  destruct (full_targets w p t kf now (fan p) (mkTargets [] (sims w) [])) as (l' & -> & Hs & Hf). cbn [targets app]. split_and!.
  - eapply sublist_NoDup; [|exact Hs]. by apply NoDup_filtered.
  - intros id Hid. apply (sublist_in _ _ _ Hs), list_elem_of_In, filter_In in Hid as [Hid Hg]. apply list_elem_of_In, Hi, place_full in Hid as (x & r & rm' & Hrow & Hc & Ht).
    unfold gated in Hg. rewrite Hrow in Hg. unfold row_gate in Hg. destruct (is_open (table x) r) eqn:Ho; [|done].
    exists x, r. rewrite Ht. split_and!; [done..|]. intros v Hv Hle. exists (Sub.entry r). split; [by eapply open_confirmed|]. cbn. by rewrite Ht.
  - intros Hone id x r Hrow Hc Ht Hg. rewrite (Hf Hone). apply list_elem_of_In, filter_In. split.
    + apply list_elem_of_In, Hi, place_full. destruct (track r) as [[t' rm']|] eqn:Et; [|done]. cbn in Ht. injection Ht as ->. by exists x, r, rm'.
    + unfold gated. by rewrite Hrow, Hg.
Qed.

(** C3: A packet of a stream goes to nobody who has not asked for it and agreed to where it comes:
    as long as the changes of each table are applied in the order they were made, every row
    a packet is sent on is one row, once, that its table has loaded with this stream, and
    every table the client can have confirmed last says so; and a stream of one layer reaches
    every such row that is open. *)
Theorem fan_full_exact w user rm tid t kf now p :
  Reachable w -> streams w !! tid = Some p -> is_half (info p) = false -> room (info p) = rm ->
  let ids := targets (forward user (Some rm) tid t kf now w) in
  NoDup ids
  /\ (forall id, id ∈ ids -> exists x r, row_at id w = Some (x, r) /\ class r = ClFull /\ fst <$> track r = Some tid /\ is_open (table x) r = true
        /\ forall v, v ∈ sent x -> acked (table x) <= v.1 -> exists e, v.2 !! id.2 = Some e /\ m_track_id e = Some tid /\ m_ssrc e = ssrc r)
  /\ (simulcast (info p) = false \/ kind (info p) = Audio -> forall id x r, row_at id w = Some (x, r) -> class r = ClFull -> fst <$> track r = Some tid ->
        row_gate (kind (info p)) (table x) r = None -> id ∈ ids).
Proof. intros Hw%reachable_inv. by apply full_exact. Qed.



(** ** A room with two streams and a subscriber *)

Definition audio_of (tid user : string) (d : Duplex) : Trk.Stream := mkStream tid user Audio None None None false d false "a" true.

(** Bob publishes two streams and talks in room a; Ann has a connection, number 7. *)
Definition demo_room : World :=
  mkWorld {[7%nat := mkConn demo "ann" (new []) []]}
    (<["t3" := mkPub (audio_of "t3" "bob" Half) [] []]> (<["t2" := mkPub (audio_of "t2" "bob" Full) [] []]> {["t1" := mkPub (audio_of "t1" "bob" Full) [] []]}))
    {["a" := (mkSlotFan (Some "bob") [], mkSlotFan None [])]} ∅.

Lemma demo_room_reachable : Reachable demo_room.
Proof.
  assert (forall w id, conns w = ∅ -> place_at w id = None) as Hn by (intros w id E; unfold place_at, row_at; by rewrite E, lookup_empty).
  eapply rtc_l; [apply (h_publish _ (audio_of "t1" "bob" Full) []); [done|intros id; by rewrite Hn]|].
  eapply rtc_l; [apply (h_publish _ (audio_of "t2" "bob" Full) []); [done|intros id; by rewrite Hn]|].
  eapply rtc_l; [apply (h_publish _ (audio_of "t3" "bob" Half) []); [done|intros id; by rewrite Hn]|].
  eapply rtc_l; [apply (h_room _ "a"); [done|intros id k; by rewrite Hn]|].
  eapply rtc_l; [apply (h_speaker _ "a" Audio (Some "bob"))|].
  eapply rtc_l; [apply (h_connect _ 7 demo "ann"); done|].
  match goal with |- rtc Happens ?w demo_room => assert (w = demo_room) as -> by (vm_compute; reflexivity) end. apply rtc_refl.
Qed.

(** Ann gets the slot and [t1], and confirms. *)
Definition demo_hears : option World :=
  let? (w, _) := resync_peer 7 [cand "ptt-a-audio" "a" Audio ClSlot 0; cand "t1" "a" Audio ClFull 0] 10 [2; 3] demo_room in
  table_op 7 (OReady "a" 1 20) w.

Definition demo_heard : World := default world0 demo_hears.

Lemma demo_heard_reachable : Reachable demo_heard.
Proof.
  unfold demo_heard, demo_hears.
  destruct (resync_peer 7 _ 10 [2; 3] demo_room) as [[w o]|] eqn:E; [|vm_compute in E; discriminate].
  destruct (table_op 7 (OReady "a" 1 20) w) as [w'|] eqn:E'.
  - eapply rtc_r; [|by eapply (h_table w 7 (OReady "a" 1 20))]. eapply rtc_r; [apply demo_room_reachable|by eapply h_resync].
  - exfalso. vm_compute in E. injection E as <- <-. vm_compute in E'. discriminate.
Qed.

Lemma fan_full_exact_witness :
  targets (forward "bob" (Some "a") "t1" 0 false 30 demo_heard) = [(7, 1)%nat]
  /\ NoDup (targets (forward "bob" (Some "a") "t1" 0 false 30 demo_heard)).
Proof.
  split; [vm_compute; reflexivity|].
  apply (fan_full_exact demo_heard "bob" "a" "t1" 0 false 30 (mkPub (audio_of "t1" "bob" Full) [] [(7, 1)%nat]) demo_heard_reachable); vm_compute; reflexivity.
Defined.


(** The lists do not follow a table whose changes are applied in another order than they were
    made, and [resync_peer] applies them after the lock of the table is given up: two
    calls for one connection that overlap (a stream comes, and the subscriber pauses it) can
    leave the row in the list of the stream. When the row is loaded with another stream and
    confirmed, it is sent both. *)
Theorem fan_race : exists w1 o1 w2 o2 w3 o3 w4,
  Reachable demo_room
  /\ sync_table 7 [cand "t1" "a" Audio ClFull 0] 10 [2] demo_room = Some (w1, o1)
  /\ sync_table 7 [] 11 [] w1 = Some (w2, o2)
  /\ resync_peer 7 [cand "t2" "a" Audio ClFull 0] 20 [] (apply_changes 7 10 (changes o1) (apply_changes 7 11 (changes o2) w2)) = Some (w3, o3)
  /\ table_op 7 (OReady "a" 3 30) w3 = Some w4
  /\ targets (forward "bob" (Some "a") "t1" 0 false 40 w4) = [(7, 0)%nat]
  /\ targets (forward "bob" (Some "a") "t2" 0 false 40 w4) = [(7, 0)%nat]
  /\ exists x r, row_at (7, 0)%nat w4 = Some (x, r) /\ track r = Some ("t2", "a") /\ is_open (table x) r = true.
Proof.
  do 7 eexists. split; [apply demo_room_reachable|]. split; [vm_compute; reflexivity|]. split; [vm_compute; reflexivity|].
  split; [vm_compute; reflexivity|]. split; [vm_compute; reflexivity|]. split; [vm_compute; reflexivity|]. split; [vm_compute; reflexivity|].
  do 2 eexists. split; [vm_compute; reflexivity|]. split; vm_compute; reflexivity.
Qed.

End Fan.
