(* ===== verification/FanRooms.v ===== *)
(** * Fan-out: who can be sent what

    crates/oxsfud/src/ops/media.rs: [room_streams] and [cands_for], the candidates of a
    connection; and what they mean for the packets: after a connection was synced with its
    candidates, it is sent nothing from outside its rooms and nothing of its own. *)

From S2P Require Import Prelude Utf8 Keyexpr Rewriter Rtp Room Tracks Sim SubTable SubInv SubSlots SubAssign SubThm Fan.

Module FanR.
Import Trk Sub SubI SubS SubA SubThm Fan.






(** ** On the rows is what was asked for *)







(** ** What the lists leave alone *)







(** ** Nobody hears a room from outside *)



(** ** Until the next sync *)























End FanR.
