(* ===== verification/HubView.v ===== *)
(** * What a hub sees of the cluster

    crates/oxhubd/src/bus/view.rs: the nodes and rooms a hub knows from the presence tokens of
    the mesh, the map from rooms to nodes by which it routes requests, and the judgement
    that it is cut off from the others. A token that goes is only noted; after a second of
    quiet the notes are judged together ([settle]).

    Left out of [View]: [last_event], the text of the last event for the admin page. A set or a
    map is visited in no particular order; the sources visit theirs sorted. *)

From S2P Require Import Prelude Placement.

Module View.

Definition SETTLE_MS : Z := 1000.

Record Loc := mkLoc { l_node : string; l_inst : string }.
#[export] Instance Loc_eq_dec : EqDecision Loc. Proof. solve_decision. Defined.

Inductive TokenEv :=
  | NodePut (node inst : string)
  | NodeDel (node inst : string)
  | RoomPut (room node inst : string)
  | RoomDel (room node inst : string).
#[export] Instance TokenEv_eq_dec : EqDecision TokenEv. Proof. solve_decision. Defined.

Record NodeSeen := mkSeen { n_inst : string; live : bool; gone_at : option Z }.

Record View := mkView {
  self_node : string; self_inst : string; self_declared : bool; grace_ms : Z; nodes : gmap string NodeSeen; routing : gmap string Loc;
  seen_other : bool; isolated : option Z; held : gset string; pending : list TokenEv; last_token_at : Z; duplicates : Z; recovered : bool }.

Definition set_nodes x v := mkView (self_node v) (self_inst v) (self_declared v) (grace_ms v) x (routing v) (seen_other v) (isolated v) (held v) (pending v) (last_token_at v) (duplicates v) (recovered v).
Definition set_routing x v := mkView (self_node v) (self_inst v) (self_declared v) (grace_ms v) (nodes v) x (seen_other v) (isolated v) (held v) (pending v) (last_token_at v) (duplicates v) (recovered v).
Definition set_seen_other x v := mkView (self_node v) (self_inst v) (self_declared v) (grace_ms v) (nodes v) (routing v) x (isolated v) (held v) (pending v) (last_token_at v) (duplicates v) (recovered v).
Definition set_isolated x v := mkView (self_node v) (self_inst v) (self_declared v) (grace_ms v) (nodes v) (routing v) (seen_other v) x (held v) (pending v) (last_token_at v) (duplicates v) (recovered v).
Definition set_held x v := mkView (self_node v) (self_inst v) (self_declared v) (grace_ms v) (nodes v) (routing v) (seen_other v) (isolated v) x (pending v) (last_token_at v) (duplicates v) (recovered v).
Definition set_pending x v := mkView (self_node v) (self_inst v) (self_declared v) (grace_ms v) (nodes v) (routing v) (seen_other v) (isolated v) (held v) x (last_token_at v) (duplicates v) (recovered v).
Definition set_last x v := mkView (self_node v) (self_inst v) (self_declared v) (grace_ms v) (nodes v) (routing v) (seen_other v) (isolated v) (held v) (pending v) x (duplicates v) (recovered v).
Definition set_duplicates x v := mkView (self_node v) (self_inst v) (self_declared v) (grace_ms v) (nodes v) (routing v) (seen_other v) (isolated v) (held v) (pending v) (last_token_at v) x (recovered v).
Definition set_recovered x v := mkView (self_node v) (self_inst v) (self_declared v) (grace_ms v) (nodes v) (routing v) (seen_other v) (isolated v) (held v) (pending v) (last_token_at v) (duplicates v) x.

Definition new (node inst : string) (grace : Z) : View :=
  mkView node inst false grace ∅ ∅ false None ∅ [] 0 0 false.

Definition on_token (ev : TokenEv) (now : Z) (v : View) : View :=
  let v := v |> set_last now in
  match ev with
  | NodePut node inst =>
    let v := v |> set_pending (List.filter (fun p => negb (bool_decide (p = NodeDel node inst))) (pending v)) in
    let v :=
      if negb (String.eqb node (self_node v)) then
        let v := v |> set_seen_other true in
        match isolated v with Some _ => v |> set_isolated None |> set_recovered true | None => v end
      else v in
    v |> set_nodes (<[node := mkSeen inst true None]> (nodes v))
  | RoomPut room node inst =>
    let v := v |> set_pending (List.filter (fun p => negb (bool_decide (p = RoomDel room node inst))) (pending v)) in
    let v :=
      match routing v !! room with
      | Some old => if negb (String.eqb (l_node old) node) then v |> set_duplicates (duplicates v + 1) else v
      | None => v
      end in
    v |> set_held (held v ∖ {[room]}) |> set_routing (<[room := mkLoc node inst]> (routing v))
  | del => v |> set_pending (pending v ++ [del])
  end.

Definition settle_due (v : View) (now : Z) : bool :=
  negb (match pending v with [] => true | _ => false end) && (last_token_at v + SETTLE_MS <=? now).

Record Settled := mkSettled { dropped_rooms : list string; released : list string; isolated_now : bool }.

(** Whether the owner of a held room is there. *)
Definition owner_live (v : View) (room : string) : bool :=
  match routing v !! room with
  | Some l => match nodes v !! l_node l with Some n => live n | None => String.eqb (l_node l) (self_node v) end
  | None => false
  end.

Definition release_one (x : View * list string) (room : string) : View * list string :=
  let (v, dropped) := x in
  if owner_live v room then x else (v |> set_routing (delete room (routing v)), dropped ++ [room]).

Definition release_held (v : View) : View * list string := fold_left release_one (elements (held v)) (v |> set_held ∅, []).

(** The first loop over the batch; the flag is [other_node_del]. *)
Definition node_gone (now : Z) (x : View * bool) (ev : TokenEv) : View * bool :=
  let (v, other) := x in
  match ev with
  | NodeDel node inst =>
    match nodes v !! node with
    | Some n =>
      if String.eqb (n_inst n) inst then
        (v |> set_nodes (<[node := mkSeen (n_inst n) false (Some now)]> (nodes v)), other || negb (String.eqb node (self_node v)))
      else x
    | None => x
    end
  | _ => x
  end.

(** The second loop. *)
Definition room_gone (x : View * list string) (ev : TokenEv) : View * list string :=
  let (v, dropped) := x in
  match ev with
  | RoomDel room node inst =>
    if bool_decide (routing v !! room = Some (mkLoc node inst)) then
      if match isolated v with Some _ => true | None => false end && negb (String.eqb node (self_node v)) then (v |> set_held ({[room]} ∪ held v), dropped)
      else (v |> set_routing (delete room (routing v)), dropped ++ [room])
    else x
  | _ => x
  end.

Definition others_live (v : View) : bool :=
  existsb (fun kn => negb (String.eqb kn.1 (self_node v)) && live kn.2) (map_to_list (nodes v)).

Definition settle (now : Z) (v : View) : View * Settled :=
  if match pending v with [] => true | _ => false end && match isolated v with None => true | Some _ => false end && negb (bool_decide (held v = ∅)) then
    if now <? last_token_at v + SETTLE_MS then (v, mkSettled [] [] false)
    else let (v, d) := release_held v in (v, mkSettled d d false)
  else if negb (settle_due v now) then (v, mkSettled [] [] false)
  else
    let batch := pending v in
    let (v, other_node_del) := fold_left (node_gone now) batch (v |> set_pending [], false) in
    let cut := seen_other v && other_node_del && negb (others_live v) && match isolated v with None => true | Some _ => false end in
    let v := if cut then v |> set_isolated (Some now) else v in
    let (v, d) := fold_left room_gone batch (v, []) in
    match isolated v with
    | None => let (v, r) := release_held v in (v, mkSettled (d ++ r) r cut)
    | Some _ => (v, mkSettled d [] cut)
    end.

Definition candidates (now : Z) (v : View) : gset string :=
  {[self_node v]} ∪ dom (filter (fun kn => (live kn.2 || match gone_at kn.2 with Some g => now <? g + grace_ms v | None => false end) = true) (nodes v)).

Definition node_live (node : string) (v : View) : bool :=
  if String.eqb node (self_node v) then self_declared v else match nodes v !! node with Some n => live n | None => false end.

Definition room_node (room : string) (v : View) : option Loc := routing v !! room.

(** [Bus::place] and [Bus::declare_self]. *)
Definition place (room : string) (now : Z) (v : View) : option (string * bool) :=
  let? n := Place.pick (elements (candidates now v)) room in Some (n, node_live n v).

Definition declare_self (v : View) : View :=
  mkView (self_node v) (self_inst v) true (grace_ms v) (nodes v) (routing v) (seen_other v) (isolated v) (held v) (pending v) (last_token_at v) (duplicates v) (recovered v).

(** The tests of the sources. *)
Definition rp (room node : string) := RoomPut room node (node +:+ "-i").
Definition rd (room node : string) := RoomDel room node (node +:+ "-i").
Definition np (node : string) := NodePut node (node +:+ "-h").
Definition nd (node : string) := NodeDel node (node +:+ "-h").
Definition told (evs : list (TokenEv * Z)) (v : View) : View := fold_left (fun v e => on_token e.1 e.2 v) evs v.

Example delete_waits_settle_and_put_cancels :
  let v := told [(np "b", 0); (rp "r1" "b", 0); (rd "r1" "b", 100)] (new "a" "ai" 30000) in
  let '(v1, s1) := settle 500 v in
  let '(v2, s2) := settle 5000 (on_token (rp "r1" "b") 600 v1) in
  let '(v3, s3) := settle 7000 (on_token (rd "r1" "b") 6000 v2) in
  (dropped_rooms s1, room_node "r1" v1, dropped_rooms s2, room_node "r1" v2, dropped_rooms s3)
  = ([], Some (mkLoc "b" "b-i"), [], Some (mkLoc "b" "b-i"), ["r1"]).
Proof. vm_compute. reflexivity. Qed.

Example batch_of_other_deletes_is_isolation_and_holds_rooms :
  let v := told [(np "b", 0); (np "c", 0); (rp "rb" "b", 0); (rp "ra" "a", 0); (rd "rb" "b", 10); (nd "b", 20); (nd "c", 25); (rd "ra" "a", 30)] (new "a" "ai" 30000) in
  let '(v, s) := settle 2000 v in
  (isolated_now s, dropped_rooms s, bool_decide ("rb" ∈ held v), bool_decide ("b" ∈ candidates 2000 v), bool_decide ("b" ∈ candidates 40000 v))
  = (true, ["ra"], true, true, false).
Proof. vm_compute. reflexivity. Qed.

Example held_room_of_absent_owner_drops_after_settle :
  let v := told [(np "a", 0); (np "b", 0); (rp "rb" "b", 0); (rd "rb" "b", 10); (nd "a", 20); (nd "b", 25)] (new "c" "ci" 30000) in
  let '(v, s) := settle 2000 v in
  let '(v, s1) := settle 5500 (on_token (np "a") 5000 v) in
  let '(v, s2) := settle 6100 v in
  (isolated_now s, dropped_rooms s1, dropped_rooms s2, room_node "rb" v) = (true, [], ["rb"], None).
Proof. vm_compute. reflexivity. Qed.

Example solo_node_is_not_isolated :
  let '(_, s) := settle 2000 (told [(rp "ra" "a", 0); (rd "ra" "a", 10)] (new "a" "ai" 30000)) in (isolated_now s, dropped_rooms s) = (false, ["ra"]).
Proof. vm_compute. reflexivity. Qed.

(** ** Taking rooms out of the map *)

Definition del_of (r : string) (l : Loc) : TokenEv := RoomDel r (l_node l) (l_inst l).

(** Rooms go from the map, each for a reason [gone], and the list says which. *)
Record Pruned (gone : string -> Loc -> Prop) (x x' : View * list string) : Prop := {
  pr_keep : forall r l, routing x'.1 !! r = Some l -> routing x.1 !! r = Some l;
  pr_gone : forall r l, routing x.1 !! r = Some l -> routing x'.1 !! r = None -> gone r l;
  pr_list : exists e, x'.2 = x.2 ++ e /\ (forall r, is_Some (routing x.1 !! r) -> routing x'.1 !! r = None -> r ∈ e) /\ forall r, r ∈ e -> routing x'.1 !! r = None;
  pr_same : isolated x'.1 = isolated x.1 /\ pending x'.1 = pending x.1 /\ last_token_at x'.1 = last_token_at x.1 /\ nodes x'.1 = nodes x.1 /\ self_node x'.1 = self_node x.1 }.

Lemma Pruned_same gone v v' d : routing v' = routing v ->
  (isolated v' = isolated v /\ pending v' = pending v /\ last_token_at v' = last_token_at v /\ nodes v' = nodes v /\ self_node v' = self_node v) -> Pruned gone (v, d) (v', d).
Proof.
  intros E Hs. split; cbn; try done; rewrite ?E; [congruence..|]. exists []. rewrite app_nil_r. split_and!; [done| |set_solver].
  intros r [l Hl] Hn. congruence.
Qed.

Lemma Pruned_delete (gone : string -> Loc -> Prop) v d r : (forall l, routing v !! r = Some l -> gone r l) ->
  Pruned gone (v, d) (set_routing (delete r (routing v)) v, d ++ [r]).
Proof.
  intros Hg. split; cbn; try done.
  - intros r' l' [_ H]%lookup_delete_Some. done.
  - intros r' l' H Hn. destruct (decide (r' = r)) as [->|Hne]; [auto|]. rewrite lookup_delete_ne in Hn by done. congruence.
  - exists [r]. split_and!; [done| |].
    + intros r' [l' H] Hn. destruct (decide (r' = r)); [set_solver|]. rewrite lookup_delete_ne in Hn by done. congruence.
    + intros r' ->%list_elem_of_singleton. apply lookup_delete_eq.
Qed.

Lemma Pruned_trans (g g1 g2 : string -> Loc -> Prop) x y z :
  (forall r l, g1 r l -> g r l) -> (forall r l, g2 r l -> g r l) -> Pruned g1 x y -> Pruned g2 y z -> Pruned g x z.
Proof.
  intros H1 H2 [K1 G1 (e1 & E1 & L1 & M1) S1] [K2 G2 (e2 & E2 & L2 & M2) S2].
  assert (forall r, routing y.1 !! r = None -> routing z.1 !! r = None) as Hz.
  { intros r Hy. destruct (routing z.1 !! r) eqn:Ez; [|done]. apply K2 in Ez. congruence. }
  split.
  - auto.
  - intros r l Hr Hn. destruct (routing y.1 !! r) as [l'|] eqn:Ey; [|eauto]. rewrite (K1 r l' Ey) in Hr. injection Hr as ->. eauto.
  - exists (e1 ++ e2). rewrite E2, E1, app_assoc. split; [done|]. split; intros r; rewrite elem_of_app; [|naive_solver].
    intros Hs Hn. destruct (routing y.1 !! r) eqn:Ey; [right; apply L2; eauto|left; auto].
  - destruct S1 as (? & ? & ? & ? & ?), S2 as (? & ? & ? & ? & ?). split_and!; congruence.
Qed.

Lemma Pruned_weaken (g g' : string -> Loc -> Prop) x y : (forall r l, g r l -> g' r l) -> Pruned g x y -> Pruned g' x y.
Proof. intros H [K G L S]. split; eauto. Qed.

Lemma Pruned_fold {A} (f : View * list string -> A -> View * list string) (g : A -> string -> Loc -> Prop) l x :
  (forall x a, a ∈ l -> Pruned (g a) x (f x a)) -> Pruned (fun r t => exists a, a ∈ l /\ g a r t) x (fold_left f l x).
Proof.
  revert x. induction l as [|a l IH]; intros x H; cbn [fold_left]; [destruct x; by apply Pruned_same|].
  eapply (Pruned_trans _ (g a) (fun r t => exists b, b ∈ l /\ g b r t)); [| |apply H; set_solver|apply IH; intros; apply H; set_solver].
  - intros r t Hg. exists a. set_solver.
  - intros r t (b & Hb & Hg). exists b. set_solver.
Qed.

Lemma room_gone_pruned x ev : Pruned (fun r l => ev = del_of r l) x (room_gone x ev).
Proof.
  destruct x as [v d]. unfold room_gone. destruct ev as [n i|n i|r n i|r n i]; try (by apply Pruned_same).
  case_bool_decide as E; [|by apply Pruned_same]. destruct (_ && _); [by apply Pruned_same|]. apply Pruned_delete. intros l El.
  rewrite El in E. by injection E as ->.
Qed.

Lemma rooms_gone_pruned batch x : Pruned (fun r l => del_of r l ∈ batch) x (fold_left room_gone batch x).
Proof.
  eapply Pruned_weaken; [|apply (Pruned_fold room_gone (fun ev r l => ev = del_of r l)); intros; apply room_gone_pruned].
  cbn. by intros r l (a & Ha & ->).
Qed.

Lemma release_pruned v : Pruned (fun r l => r ∈ held v) (v, []) (release_held v).
Proof.
  unfold release_held. eapply (Pruned_trans _ (fun _ _ => False) (fun r l => exists a, a ∈ elements (held v) /\ a = r)); [done| |by apply (Pruned_same _ v (set_held ∅ v))|].
  - cbn. intros r l (a & Ha & <-). by apply elem_of_elements.
  - apply (Pruned_fold release_one (fun a r l => a = r)). intros [u d] r _. unfold release_one. destruct (owner_live u r); [by apply Pruned_same|]. by apply Pruned_delete.
Qed.

Lemma release_held_empty v : held (release_held v).1 = ∅.
Proof.
  unfold release_held. assert (forall l x, held x.1 = ∅ -> held (fold_left release_one l x).1 = ∅) as H; [|by apply H].
  induction l as [|r l IH]; intros [u d] Hu; [done|]. cbn [fold_left]. apply IH. unfold release_one. by destruct (owner_live u r).
Qed.

(** A room that is held while cut off was in the batch. *)
Lemma rooms_gone_held batch : forall x r, r ∈ held (fold_left room_gone batch x).1 ->
  r ∈ held x.1 \/ (isolated x.1 <> None /\ exists l, routing x.1 !! r = Some l /\ del_of r l ∈ batch).
Proof.
  induction batch as [|ev batch IH]; intros x r; cbn [fold_left]; [by left|]. intros [H|(Hi & l & Hl & Hd)]%IH.
  - destruct x as [v d]. unfold room_gone in H. destruct ev as [n i|n i|r' n i|r' n i]; try (by left).
    case_bool_decide as E; [|by left]. destruct (isolated v) eqn:Ei; cbn [andb] in H; [|by left].
    destruct (negb _); [|by left]. cbn in H. apply elem_of_union in H as [->%elem_of_singleton|H]; [|by left].
    right. cbn. rewrite Ei. split; [done|]. exists (mkLoc n i). split; [done|]. set_solver.
  - right. pose proof (room_gone_pruned x ev) as P. destruct (pr_same _ _ _ P) as (E & _). rewrite E in Hi. split; [done|].
    exists l. split; [by eapply (pr_keep _ _ _ P)|set_solver].
Qed.

(** Not cut off, what is in the batch goes. *)
Lemma rooms_gone_all batch : forall x r l, isolated x.1 = None -> del_of r l ∈ batch -> routing (fold_left room_gone batch x).1 !! r <> Some l.
Proof.
  induction batch as [|ev batch IH]; intros x r l Hi; [set_solver|]. cbn [fold_left]. pose proof (room_gone_pruned x ev) as P.
  intros [E|Hd]%elem_of_cons; [|apply IH; [by destruct (pr_same _ _ _ P) as (-> & _)|done]].
  intros Hr. apply (pr_keep _ _ _ (rooms_gone_pruned batch (room_gone x ev))) in Hr. subst ev. destruct x as [v d]. unfold room_gone, del_of in Hr.
  cbn [fst] in Hi. rewrite Hi in Hr. cbn [andb] in Hr. case_bool_decide as E; [cbn in Hr; by rewrite lookup_delete_eq in Hr|]. apply E. cbn in Hr. rewrite Hr. by destruct l.
Qed.

Lemma nodes_gone_same now batch : forall x, let v := (fold_left (node_gone now) batch x).1 in
  routing v = routing x.1 /\ held v = held x.1 /\ isolated v = isolated x.1 /\ pending v = pending x.1 /\ last_token_at v = last_token_at x.1.
Proof.
  induction batch as [|ev batch IH]; intros x; [done|]. cbn [fold_left]. destruct (IH (node_gone now x ev)) as (-> & -> & -> & -> & ->).
  destruct x as [v o], ev; try done. cbn. destruct (nodes v !! node) as [n|]; [|done]. by destruct (String.eqb _ _).
Qed.

(** What a [settle] may do. *)
Record Judged (now : Z) (v v' : View) (s : Settled) : Prop := {
  jd_keep : forall r l, routing v' !! r = Some l -> routing v !! r = Some l;
  jd_gone : forall r l, routing v !! r = Some l -> routing v' !! r = None -> r ∈ held v \/ del_of r l ∈ pending v;
  jd_told : forall r, is_Some (routing v !! r) -> routing v' !! r = None -> r ∈ dropped_rooms s;
  jd_true : forall r, r ∈ dropped_rooms s -> routing v' !! r = None;
  jd_held : forall r, r ∈ held v' -> r ∈ held v \/ exists l, routing v !! r = Some l /\ del_of r l ∈ pending v;
  jd_pending : (pending v' = pending v \/ pending v' = []) /\ (last_token_at v + SETTLE_MS <= now -> pending v' = []);
  jd_connected : isolated v' = None -> isolated v = None /\ (held v = ∅ -> held v' = ∅)
                 /\ (pending v' = pending v \/ forall r l, del_of r l ∈ pending v -> routing v' !! r <> Some l) }.

Lemma Judged_quiet now v : (pending v = [] \/ now < last_token_at v + SETTLE_MS) -> Judged now v v (mkSettled [] [] false).
Proof.
  intros Hp. split; cbn; try done.
  - congruence.
  - intros r [l Hl] Hn. congruence.
  - set_solver.
  - by left.
  - split; [by left|]. destruct Hp; [done|lia].
  - auto.
Qed.

Lemma Judged_release now v v' d : pending v = [] -> isolated v = None -> release_held v = (v', d) -> Judged now v v' (mkSettled d d false).
Proof.
  intros Hp Hi E. pose proof (release_pruned v) as P. pose proof (release_held_empty v) as Hh. rewrite E in P, Hh. cbn [fst] in Hh.
  destruct P as [K G (e & Ee & L & M) (I & Pe & _)]. cbn [fst snd app] in *. subst e. split; cbn [dropped_rooms]; try done.
  - intros r l Hr Hn. left. eauto.
  - intros r. rewrite Hh. set_solver.
  - rewrite Pe, Hp. auto.
  - intros _. rewrite Pe. auto.
Qed.

Lemma settle_judged now v : Judged now v (settle now v).1 (settle now v).2.
Proof.
  unfold settle. destruct (_ && _ && _) eqn:Eh.
  { apply andb_true_iff in Eh as [Eh _]. apply andb_true_iff in Eh as [Ep Ei]. destruct (pending v) eqn:Hp; [|done]. destruct (isolated v) eqn:Hi; [done|].
    destruct (now <? _); [by apply Judged_quiet; left|]. destruct (release_held v) as [v' d] eqn:E. by apply Judged_release. }
  clear Eh. destruct (settle_due v now) eqn:Ed; cbn [negb].
  2:{ cbn [fst snd]. apply Judged_quiet. unfold settle_due in Ed. apply andb_false_iff in Ed as [Ed|Ed]; [left; revert Ed; by destruct (pending v)|right; lia]. }
  destruct (fold_left (node_gone now) (pending v) (set_pending [] v, false)) as [v1 other] eqn:E1.
  pose proof (nodes_gone_same now (pending v) (set_pending [] v, false)) as N. rewrite E1 in N. cbn in N. destruct N as (R1 & H1 & I1 & P1 & L1).
  set (cut := seen_other v1 && other && negb (others_live v1) && _). set (v2 := if cut then set_isolated (Some now) v1 else v1).
  assert (routing v2 = routing v /\ held v2 = held v /\ pending v2 = [] /\ (isolated v2 = None -> isolated v = None)) as (R2 & H2 & P2 & I2).
  { subst v2. destruct cut; cbn; split_and!; congruence. }
  clearbody cut v2. destruct (fold_left room_gone (pending v) (v2, [])) as [v3 d] eqn:E3.
  pose proof (rooms_gone_pruned (pending v) (v2, [])) as P. pose proof (rooms_gone_held (pending v) (v2, [])) as Hh. pose proof (rooms_gone_all (pending v) (v2, [])) as Ha.
  rewrite E3 in P, Hh, Ha. cbn [fst] in Hh, Ha. rewrite R2, H2 in Hh. destruct P as [K G (e & Ee & L & M) (I3 & P3 & _)]. cbn [fst snd app] in *. subst e. rewrite R2 in K, G, L.
  rewrite P2 in P3. destruct (isolated v3) as [t|] eqn:Hi3.
  - split; cbn [fst snd dropped_rooms]; try done.
    + intros r l Hr Hn. right. eauto.
    + intros r Hr. destruct (Hh r Hr) as [?|(_ & ?)]; auto.
    + auto.
    + congruence.
  - destruct (release_held v3) as [v4 d4] eqn:E4. pose proof (release_pruned v3) as Q. pose proof (release_held_empty v3) as Hh4. rewrite E4 in Q, Hh4. cbn [fst] in Hh4.
    destruct Q as [K4 G4 (e & Ee & L4 & M4) (I4 & P4 & _)]. cbn [fst snd app] in *. subst e.
    assert (forall r, routing v3 !! r = None -> routing v4 !! r = None) as Hz.
    { intros r Hy. destruct (routing v4 !! r) eqn:Ez; [|done]. apply K4 in Ez. congruence. }
    split; cbn [fst snd dropped_rooms]; try done.
    + auto.
    + intros r l Hr Hn. destruct (routing v3 !! r) as [l'|] eqn:Er; [|right; eauto]. pose proof (K r l' Er). simplify_eq.
      destruct (Hh r (G4 r _ Er Hn)) as [?|(Hi & _)]; [by left|]. congruence.
    + intros r Hs Hn. rewrite elem_of_app. destruct (routing v3 !! r) eqn:Er; [right; apply L4; eauto|left; auto].
    + intros r [Hr|Hr]%elem_of_app; auto.
    + intros r. rewrite Hh4. set_solver.
    + rewrite P4, P3. auto.
    + intros _. split; [apply I2; congruence|]. split; [done|]. right. intros r l Hd Hr. apply (Ha r l); [congruence|done|auto].
Qed.

(** ** The tokens themselves *)

(** Of every room, where it was last announced, and whether that token still stands. *)
Definition spec_token (ev : TokenEv) (m : gmap string (Loc * bool)) : gmap string (Loc * bool) :=
  match ev with
  | RoomPut r n i => <[r := (mkLoc n i, true)]> m
  | RoomDel r n i => match m !! r with Some (l, _) => if decide (l = mkLoc n i) then <[r := (l, false)]> m else m | None => m end
  | _ => m
  end.

Inductive Act := Token (ev : TokenEv) (now : Z) | Settle (now : Z) | DeclareSelf.

(** The view, the tokens, and whether the hub was ever cut off. *)
Record World := mkWorld { view : View; tokens : gmap string (Loc * bool); was_cut : bool }.

Definition act (a : Act) (w : World) : World :=
  match a with
  | Token ev now => mkWorld (on_token ev now (view w)) (spec_token ev (tokens w)) (was_cut w)
  | Settle now => let v := (settle now (view w)).1 in mkWorld v (tokens w) (was_cut w || match isolated v with Some _ => true | None => false end)
  | DeclareSelf => mkWorld (declare_self (view w)) (tokens w) (was_cut w)
  end.

Definition run (acts : list Act) (w : World) : World := fold_left (fun w a => act a w) acts w.

Definition start (node inst : string) (grace : Z) : World := mkWorld (new node inst grace) ∅ false.

Record Inv (w : World) : Prop := {
  in_stands : forall r l, tokens w !! r = Some (l, true) -> routing (view w) !! r = Some l /\ (del_of r l ∉ pending (view w)) /\ r ∉ held (view w);
  in_routed : forall r l, routing (view w) !! r = Some l -> exists b, tokens w !! r = Some (l, b);
  in_never_cut : was_cut w = false -> isolated (view w) = None /\ held (view w) = ∅
    /\ forall r l, tokens w !! r = Some (l, false) -> routing (view w) !! r = Some l -> del_of r l ∈ pending (view w) }.

Lemma tokens_start node inst grace : Inv (start node inst grace).
Proof. split; cbn; [intros r l H; by rewrite lookup_empty in H..|]. intros _. split_and!; [done..|]. intros r l H. by rewrite lookup_empty in H. Qed.

Lemma Inv_settle now w : Inv w -> Inv (act (Settle now) w).
Proof.
  intros [A B C]. cbn. destruct (settle_judged now (view w)) as [K G _ _ Hh [Hp _] Hc]. set (v' := (settle now (view w)).1) in *.
  split; cbn [view tokens was_cut].
  - intros r l Hm. destruct (A r l Hm) as (Hr & Hd & Hn). split_and!.
    + destruct (routing v' !! r) as [l'|] eqn:E; [apply K in E; congruence|]. by destruct (G r l Hr E).
    + destruct Hp as [->| ->]; set_solver.
    + intros [?|(l' & Hr' & Hd')]%Hh; [done|]. congruence.
  - intros r l Hr. apply B. auto.
  - intros [Hw Hi]%orb_false_iff. destruct (isolated v') eqn:Ei; [done|]. destruct (C Hw) as (_ & He & Hf). destruct (Hc eq_refl) as (_ & Hc1 & Hc2).
    split_and!; [done|auto|]. intros r l Hm Hr. pose proof (Hf r l Hm (K r l Hr)) as Hd. destruct Hc2 as [->|Hc2]; [done|]. by destruct (Hc2 r l Hd).
Qed.

Lemma filter_not_in (P : TokenEv -> bool) l x : x ∈ List.filter P l -> x ∈ l.
Proof. rewrite !list_elem_of_In, filter_In. tauto. Qed.

Lemma Inv_token ev now w : Inv w -> Inv (act (Token ev now) w).
Proof.
  intros [A B C]. destruct ev as [n i|n i|r n i|r n i].
  - assert (forall v, routing (on_token (NodePut n i) now v) = routing v /\ held (on_token (NodePut n i) now v) = held v /\ (isolated v = None -> isolated (on_token (NodePut n i) now v) = None)
       /\ pending (on_token (NodePut n i) now v) = List.filter (fun p => negb (bool_decide (p = NodeDel n i))) (pending v)) as E.
    { intros v. unfold on_token. destruct (negb _); [|done]. cbn. by destruct (isolated v) eqn:?. }
    destruct (E (view w)) as (R & H & I & P). split; cbn [view tokens was_cut act spec_token]; rewrite ?R, ?H, ?P; [|done|].
    + intros r l Hm. destruct (A r l Hm) as (? & Hd & ?). split_and!; [done| |done]. by intros ?%filter_not_in.
    + intros Hw. destruct (C Hw) as (Hi & He & Hf). split_and!; [auto|done|]. intros r l Hm Hr. apply list_elem_of_In, filter_In. split; [apply list_elem_of_In; auto|].
      apply negb_true_iff, bool_decide_eq_false. done.
  - split; cbn; [|done|].
    + intros r l Hm. destruct (A r l Hm) as (? & Hd & ?). split_and!; [done| |done]. intros [?|?%list_elem_of_singleton]%elem_of_app; done.
    + intros Hw. destruct (C Hw) as (Hi & He & Hf). split_and!; [done..|]. set_solver.
  - set (v := view w) in *. assert (routing (on_token (RoomPut r n i) now v) = <[r := mkLoc n i]> (routing v) /\ held (on_token (RoomPut r n i) now v) = held v ∖ {[r]}
       /\ isolated (on_token (RoomPut r n i) now v) = isolated v /\ pending (on_token (RoomPut r n i) now v) = List.filter (fun p => negb (bool_decide (p = RoomDel r n i))) (pending v)) as (R & H & I & P).
    { unfold on_token. cbn. destruct (routing v !! r) as [o|]; [|done]. by destruct (negb _). }
    split; cbn [view tokens was_cut act spec_token]; fold v; rewrite ?R, ?H, ?P, ?I.
    + intros r' l. destruct (decide (r' = r)) as [->|Hne].
      * rewrite lookup_insert_eq. intros [= <-]. rewrite lookup_insert_eq. split_and!; [done| |set_solver].
        intros [_ Hd]%list_elem_of_In%filter_In. by rewrite bool_decide_true in Hd.
      * rewrite !lookup_insert_ne by done. intros Hm. destruct (A r' l Hm) as (? & Hd & ?). split_and!; [done| |set_solver]. by intros ?%filter_not_in.
    + intros r' l. destruct (decide (r' = r)) as [->|Hne]; [rewrite !lookup_insert_eq; intros [= <-]; eauto|]. rewrite !lookup_insert_ne by done. apply B.
    + intros Hw. destruct (C Hw) as (Hi & He & Hf). split_and!; [done|set_solver|]. intros r' l. destruct (decide (r' = r)) as [->|Hne]; [by rewrite lookup_insert_eq|].
      rewrite !lookup_insert_ne by done. intros Hm Hr. apply list_elem_of_In, filter_In. split; [apply list_elem_of_In; auto|].
      apply negb_true_iff, bool_decide_eq_false. unfold del_of. congruence.
  - assert (forall r' l b, spec_token (RoomDel r n i) (tokens w) !! r' = Some (l, b) -> exists b', tokens w !! r' = Some (l, b') /\ (b = b' \/ b = false /\ del_of r' l = RoomDel r n i)) as Hs.
    { intros r' l b. cbn. destruct (tokens w !! r) as [[l0 b0]|] eqn:E; [|eauto]. case_decide as El; [|eauto]. destruct (decide (r' = r)) as [->|Hne].
      - rewrite lookup_insert_eq. intros [= -> <-]. exists b0. split; [done|]. right. by subst l.
      - rewrite lookup_insert_ne by done. eauto. }
    split; cbn [view tokens was_cut act on_token set_pending set_last pending routing held isolated].
    + intros r' l Hm. destruct (Hs _ _ _ Hm) as (b' & Hm' & [<-|[? _]]); [|done]. destruct (A r' l Hm') as (? & Hd & ?). split_and!; [done| |done].
      intros [?|E%list_elem_of_singleton]%elem_of_app; [done|]. unfold del_of in E. injection E as -> ? ?. revert Hm. cbn. rewrite Hm'. rewrite decide_True by (destruct l; cbn in *; congruence).
      by rewrite lookup_insert_eq.
    + intros r' l Hr. destruct (B r' l Hr) as [b Hb]. cbn. destruct (tokens w !! r) as [[l0 b0]|] eqn:E; [|eauto]. case_decide; [|eauto].
      destruct (decide (r' = r)) as [->|]; [rewrite lookup_insert_eq; simplify_eq; eauto|rewrite lookup_insert_ne by done; eauto].
    + intros Hw. destruct (C Hw) as (Hi & He & Hf). split_and!; [done..|]. intros r' l Hm Hr. destruct (Hs _ _ _ Hm) as (b' & Hm' & [<-|[_ ->]]); set_solver.
Qed.

Lemma run_tokens acts w : Inv w -> Inv (run acts w).
Proof.
  unfold run. revert w. induction acts as [|a acts IH]; intros w H; [done|]. cbn [fold_left]. apply IH. destruct a; [by apply Inv_token|by apply Inv_settle|].
  destruct H as [A B C]. by split.
Qed.

(** C27: A hub routes by the tokens: a room whose token stands is always routed to where it was
    last announced, however tokens of other nodes come and go and even while the hub is cut
    off; no room is routed to where it never was; whoever judges after a second of quiet
    leaves nothing unjudged, and reports every room it takes out of the map and no other;
    and a hub that never was cut off then routes exactly the rooms whose token stands. *)
Theorem view_follows_tokens acts node inst grace now :
  let w := run acts (start node inst grace) in
  let '(v', s) := settle now (view w) in
  (forall r l, tokens w !! r = Some (l, true) -> room_node r (view w) = Some l)
  /\ (forall r l, room_node r (view w) = Some l -> exists b, tokens w !! r = Some (l, b))
  /\ (forall r, is_Some (room_node r (view w)) -> room_node r v' = None -> r ∈ dropped_rooms s)
  /\ (forall r, r ∈ dropped_rooms s -> room_node r v' = None)
  /\ (last_token_at (view w) + SETTLE_MS <= now -> pending v' = [])
  /\ (last_token_at (view w) + SETTLE_MS <= now -> was_cut w = false -> isolated v' = None ->
        forall r l, room_node r v' = Some l <-> tokens w !! r = Some (l, true)).
Proof.
  intros w. pose proof (run_tokens acts (start node inst grace) (tokens_start node inst grace)) as Hw. fold w in Hw.
  pose proof (Inv_settle now w Hw) as Hw'. pose proof (settle_judged now (view w)) as J. cbn [act] in Hw'. destruct (settle now (view w)) as [v' s]. cbn [fst snd] in *. unfold room_node.
  split_and!; [apply Hw|apply Hw|apply J|apply J|apply J|]. intros Ht Hc Hi r l. destruct Hw' as [A B C]. cbn [view tokens was_cut] in *. split.
  - intros Hr. destruct (B r l Hr) as [b Hb]. destruct b; [done|]. rewrite Hc, Hi in C. destruct (C eq_refl) as (_ & _ & Hf). pose proof (Hf r l Hb Hr) as Hd.
    rewrite (proj2 (jd_pending _ _ _ _ J) Ht) in Hd. set_solver.
  - intros Hm. by apply A.
Qed.

(** After a hub was cut off, a room that was closed meanwhile stays in the map for good when its
    node comes back: the rooms held back are judged by their node alone, and no token is
    left that could still go. *)
Theorem view_keeps_closed_room :
  let w := run [Token (np "b") 0; Token (rp "r" "b") 0; Token (rd "r" "b") 10; Token (nd "b") 20; Settle 2000; Token (np "b") 5000; Settle 7000] (start "a" "ai" 30000) in
  tokens w !! "r" = Some (mkLoc "b" "b-i", false)
  /\ isolated (view w) = None /\ pending (view w) = [] /\ held (view w) = ∅
  /\ forall nows, room_node "r" (view (run (map Settle nows) w)) = Some (mkLoc "b" "b-i").
Proof.
  intros w. assert (w = mkWorld (mkView "a" "ai" false 30000 {["b" := mkSeen "b-h" true None]} {["r" := mkLoc "b" "b-i"]} true None ∅ [] 5000 0 true) {["r" := (mkLoc "b" "b-i", false)]} true) as ->
    by (vm_compute; reflexivity).
  split_and!; [done..|]. intros nows. induction nows as [|now nows IH]; [done|]. exact IH.
Qed.

End View.
