(* ===== verification/HubConn.v ===== *)
(** * One websocket connection of the hub

    crates/oxsig/src/op.rs ([Op]: the messages, their numbers and lanes) and
    crates/oxhubd/src/ses/conn.rs: the task that writes a connection ([Writer] and the loop of
    [serve]). Replies go out at once; notices wait in four lanes, and of those at most
    [window] are on their way without an acknowledgement. The writer ends with the
    connection; a frame that cannot be written because the socket is gone is not modelled. *)

From S2P Require Import Prelude Frame.

Module Conn.

(** ** The messages *)

Inductive Lane := Recovery | Session | Data | Diagnostic.
Inductive Dir := C2S | S2C | Both.

Inductive Op :=
  | Bind | Resume | Heartbeat | Leave | RoomJoin | RoomLeave | PublishTracks | Ready | SubscribeLayer | TrackSet | IceRestart
  | Affiliation | Message | Task | ParticipantEvent | TrackEvent | TrackState | RoomEvent | ParticipantState | LinkEvent | MlineEvent.
#[export] Instance Op_eq_dec : EqDecision Op. Proof. solve_decision. Defined.

Definition ALL : list Op :=
  [Bind; Resume; Heartbeat; Leave; RoomJoin; RoomLeave; PublishTracks; Ready; SubscribeLayer; TrackSet; IceRestart; Affiliation; Message; Task;
   ParticipantEvent; TrackEvent; TrackState; RoomEvent; ParticipantState; LinkEvent; MlineEvent].

Definition as_u16 (o : Op) : Z :=
  match o with
  | Bind => 0x0101 | Resume => 0x0102 | Heartbeat => 0x0103 | Leave => 0x0104
  | RoomJoin => 0x0201 | RoomLeave => 0x0202
  | PublishTracks => 0x0301 | Ready => 0x0302 | SubscribeLayer => 0x0303 | TrackSet => 0x0304 | IceRestart => 0x0305
  | Affiliation => 0x0401 | Message => 0x0501 | Task => 0x0601
  | ParticipantEvent => 0x0701 | TrackEvent => 0x0702 | TrackState => 0x0703 | RoomEvent => 0x0704 | ParticipantState => 0x0705
  | LinkEvent => 0x0706 | MlineEvent => 0x0707
  end.

Definition from_u16 (v : Z) : option Op := List.find (fun o => as_u16 o =? v) ALL.

Definition dir (o : Op) : Dir :=
  match o with
  | Heartbeat | Leave | Message | Task => Both
  | ParticipantEvent | TrackEvent | TrackState | RoomEvent | ParticipantState | LinkEvent | MlineEvent => S2C
  | _ => C2S
  end.

Definition lane (o : Op) : Lane := match o with Message => Data | Task => Diagnostic | _ => Session end.
Definition lane_no (l : Lane) : nat := match l with Recovery => 0 | Session => 1 | Data => 2 | Diagnostic => 3 end.

Lemma from_as_u16 o : from_u16 (as_u16 o) = Some o.
Proof. by destruct o. Qed.

(** ** The writer *)

Definition T_ACK : Z := 30000.
Definition QUEUE_MAX : nat := 1000.

(** The codes the writer itself leaves with, and any other. *)
Inductive Code := FlowOverflow | FlowTimeout | Other (n : Z).

Inductive Out :=
  | Reply (flags op pid : Z) (body : list byte)
  | Notice (op : Op) (body : list byte)
  | Ack (pid : Z)
  | OLeave (code : Code)
  | Close.

(** What is written. The body of a LEAVE is the text of its code. *)
Inductive Sent :=
  | SReply (flags op pid : Z) (body : list byte)
  | SNotice (op : Op) (pid : Z) (body : list byte)
  | SLeave (code : Code) (pid : Z)
  | SClose.

Record Writer := mkWriter { lanes : list (list (Op * list byte)); inflight : gmap Z Z; next_pid : Z; window : nat }.
Definition set_lanes v w := mkWriter v (inflight w) (next_pid w) (window w).
Definition set_inflight v w := mkWriter (lanes w) v (next_pid w) (window w).
Definition set_next_pid v w := mkWriter (lanes w) (inflight w) v (window w).

(** [clamp(1, 10)] of the setting. *)
Definition new_writer (flow : nat) : Writer := mkWriter [[]; []; []; []] ∅ 1 (Nat.min (Nat.max flow 1) 10).

Definition queued (w : Writer) : nat := sum_list_with length (lanes w).

(** The first lane that has something. *)
Fixpoint pop_lanes (ls : list (list (Op * list byte))) : option ((Op * list byte) * list (list (Op * list byte))) :=
  match ls with
  | [] => None
  | (x :: l) :: ls => Some (x, l :: ls)
  | [] :: ls => let? (x, ls) := pop_lanes ls in Some (x, [] :: ls)
  end.

Definition next (w : Writer) : option ((Op * list byte) * Writer) :=
  if (window w <=? size (inflight w))%nat then None
  else let? (x, ls) := pop_lanes (lanes w) in Some (x, w |> set_lanes ls).

Definition pid (w : Writer) : Z * Writer := (next_pid w, w |> set_next_pid (u32 (next_pid w + 1))).

(** [while let Some(..) = w.next()]: every round takes a notice from the lanes, so as many
    rounds as there are notices are enough. *)
Fixpoint drain (n : nat) (now : Z) (w : Writer) : Writer * list Sent :=
  match n with
  | O => (w, [])
  | S n =>
    match next w with
    | None => (w, [])
    | Some ((op, body), w) =>
      let (p, w) := pid w in
      let w := w |> set_inflight (<[p := now]> (inflight w)) in
      let (w, out) := drain n now w in
      (w, SNotice op p body :: out)
    end
  end.

Definition flush (now : Z) (w : Writer) : Writer * list Sent := drain (queued w) now w.

Definition send_leave (code : Code) (w : Writer) : Writer * list Sent :=
  let (p, w) := pid w in (w, [SLeave code p; SClose]).

Definition overdue (now : Z) (w : Writer) : bool := existsb (fun kv => T_ACK <? now - kv.2) (map_to_list (inflight w)).

(** One turn of the loop; [None] in place of the writer when the loop ends. *)
Definition turn (o : Out) (now : Z) (w : Writer) : option Writer * list Sent :=
  let go w out := let (w, more) := flush now w in (Some w, out ++ more) in
  match o with
  | Reply f op p b => go w [SReply f op p b]
  | Notice op b =>
    let w := w |> set_lanes (alter (fun l => l ++ [(op, b)]) (lane_no (lane op)) (lanes w)) in
    if (QUEUE_MAX <? queued w)%nat then (None, (send_leave FlowOverflow w).2) else go w []
  | Ack p => go (w |> set_inflight (delete p (inflight w))) []
  | OLeave c => (None, (send_leave c w).2)
  | Close => (None, [SClose])
  end.

(** A tick of the half-second clock. *)
Definition tick (now : Z) (w : Writer) : option Writer * list Sent :=
  if overdue now w then turn (OLeave FlowTimeout) now w else (Some w, []).

Inductive Event := Given (o : Out) (now : Z) | Tick (now : Z).

Definition step (e : Event) (w : Writer) : option Writer * list Sent := match e with Given o now => turn o now w | Tick now => tick now w end.

(** What was written, and the writer, if it still runs. *)
Fixpoint run (es : list Event) (w : Writer) : option Writer * list Sent :=
  match es with
  | [] => (Some w, [])
  | e :: es =>
    match step e w with
    | (Some w, out) => let (r, more) := run es w in (r, out ++ more)
    | (None, out) => (None, out)
    end
  end.

(** Everything on the way comes before what waits; a lane never overtakes itself. *)
Example lanes_in_order :
  run [Given (Notice Task [x01]) 1; Given (Notice Message [x02]) 2; Given (Notice RoomEvent [x03]) 3; Given (Notice RoomEvent [x04]) 4; Given (Ack 1) 5] (new_writer 1)
  = (Some (mkWriter [[]; [(RoomEvent, [x04])]; [(Message, [x02])]; []] {[2 := 5]} 3 1), [SNotice Task 1 [x01]; SNotice RoomEvent 2 [x03]]).
Proof. vm_compute. reflexivity. Qed.

(** ** No notice is lost *)

Definition lane_of (i : nat) (w : Writer) : list (Op * list byte) := default [] (lanes w !! i).

Definition in_lane (i : nat) (x : Op * list byte) : bool := (lane_no (lane x.1) =? i)%nat.

(** The notices of a lane that were written. *)
Definition sent_in (i : nat) (out : list Sent) : list (Op * list byte) :=
  omap (fun s => match s with SNotice op _ b => if in_lane i (op, b) then Some (op, b) else None | _ => None end) out.

Definition given_in (i : nat) (es : list Event) : list (Op * list byte) :=
  omap (fun e => match e with Given (Notice op b) _ => if in_lane i (op, b) then Some (op, b) else None | _ => None end) es.

Definition replies_sent (out : list Sent) : list (Z * Z * Z * list byte) := omap (fun s => match s with SReply f o p b => Some (f, o, p, b) | _ => None end) out.
Definition replies_given (es : list Event) : list (Z * Z * Z * list byte) := omap (fun e => match e with Given (Reply f o p b) _ => Some (f, o, p, b) | _ => None end) es.

(** The numbers of the notices written. *)
Definition pids (out : list Sent) : list Z := omap (fun s => match s with SNotice _ p _ => Some p | _ => None end) out.

Fixpoint numbers (n : nat) (p : Z) : list Z := match n with O => [] | S n => p :: numbers n (u32 (p + 1)) end.

Record Wf (w : Writer) : Prop := {
  wf_four : length (lanes w) = 4%nat;
  wf_lane : forall i x, x ∈ lane_of i w -> in_lane i x = true;
  wf_window : (size (inflight w) <= window w <= 10)%nat }.

Lemma pop_spec ls : match pop_lanes ls with
  | Some (x, ls') => exists i l, ls !! i = Some (x :: l) /\ ls' = <[i := l]> ls
  | None => sum_list_with length ls = O
  end.
Proof.
  induction ls as [|[|x l] ls IH]; cbn; [done| |by exists O, l].
  destruct (pop_lanes ls) as [[x ls']|]; [|done]. destruct IH as (i & l & Hl & ->). by exists (S i), l.
Qed.

Lemma sum_insert ls i (x : Op * list byte) l : ls !! i = Some (x :: l) -> sum_list_with length ls = S (sum_list_with length (<[i := l]> ls)).
Proof.
  revert i. induction ls as [|k ls IH]; intros [|i] H; simplify_eq/=; [done|]. rewrite (IH i H). lia.
Qed.

Lemma size_insert_le (m : gmap Z Z) p t : (size (<[p := t]> m) <= S (size m))%nat.
Proof. destruct (m !! p) eqn:E; [rewrite map_size_insert_Some; [lia|eauto]|by rewrite map_size_insert_None]. Qed.

Lemma sent_notice i op p b out : sent_in i (SNotice op p b :: out) = (if in_lane i (op, b) then [(op, b)] else []) ++ sent_in i out.
Proof. unfold sent_in. cbn. by destruct (in_lane i (op, b)). Qed.

(** What the writing of notices does. *)
Record Drained (w w' : Writer) (out : list Sent) : Prop := {
  dr_wf : Wf w';
  dr_lanes : forall i, sent_in i out ++ lane_of i w' = lane_of i w;
  dr_replies : replies_sent out = [];
  dr_pids : exists n, pids out = numbers n (next_pid w) /\ forall k, numbers (n + k) (next_pid w) = numbers n (next_pid w) ++ numbers k (next_pid w');
  dr_queued : (queued w' <= queued w)%nat;
  dr_window : window w' = window w }.

Lemma drained_refl w : Wf w -> Drained w w [].
Proof. intros H. split; try done. by exists O. Qed.

Lemma drain_spec n now : forall w, Wf w -> (queued w <= n)%nat ->
  let (w', out) := drain n now w in Drained w w' out /\ (queued w' = O \/ window w' <= size (inflight w'))%nat.
Proof.
  induction n as [|n IH]; intros w Hw Hn; cbn [drain].
  { split; [by apply drained_refl|left; lia]. }
  unfold next. destruct (Nat.leb_spec (window w) (size (inflight w))) as [Hf|Hf]; [by split; [apply drained_refl|right]|].
  pose proof (pop_spec (lanes w)) as Hp. destruct (pop_lanes (lanes w)) as [[[op b] ls]|]; [|split; [by apply drained_refl|by left]].
  destruct Hp as (i & l & Hi & ->). cbn [pid]. set (w1 := set_inflight _ _).
  assert (queued w = S (queued w1)) as Hq by (by apply (sum_insert _ _ (op, b))).
  assert (forall j, lane_of j w1 = if decide (j = i) then l else lane_of j w) as Hl.
  { intros j. unfold lane_of. subst w1. cbn. destruct (decide (j = i)) as [->|Hne]; [rewrite list_lookup_insert_eq; [done|by eapply lookup_lt_Some]|by rewrite list_lookup_insert_ne]. }
  assert (lane_of i w = (op, b) :: l) as Hli by (unfold lane_of; by rewrite Hi).
  pose proof (wf_lane w Hw i (op, b) ltac:(rewrite Hli; set_solver)) as Hin.
  assert (Wf w1) as Hw1.
  { destruct Hw as [H4 Hx Hwin]. split; subst w1; cbn.
    - by rewrite length_insert.
    - intros j x Hj. apply Hx. fold (lane_of j (set_lanes (<[i:=l]> (lanes w)) w)) in Hj. pose proof (Hl j) as E. unfold lane_of in E, Hj. cbn in E, Hj. rewrite E in Hj.
      case_decide; [subst j; rewrite Hli; set_solver|done].
    - pose proof (size_insert_le (inflight w) (next_pid w) now). lia. }
  specialize (IH w1 Hw1 ltac:(lia)). destruct (drain n now w1) as [w' out]. destruct IH as [[D1 D2 D3 (k & D4 & D5) D6 D7] Hend]. split; [|done].
  split; [done| | | |lia|by rewrite D7].
  - intros j. rewrite sent_notice. specialize (D2 j). rewrite Hl in D2. destruct (in_lane j (op, b)) eqn:Ej.
    + assert (j = i) as -> by (unfold in_lane in *; apply Nat.eqb_eq in Ej, Hin; congruence). rewrite decide_True in D2 by done. cbn [app]. by rewrite D2, Hli.
    + rewrite decide_False in D2; [done|]. intros ->. congruence.
  - done.
  - exists (S k). split; [change (next_pid w :: pids out = numbers (S k) (next_pid w)); by rewrite D4|]. intros m. cbn [numbers Nat.add app]. f_equal. apply D5.
Qed.

Lemma flush_spec now w : Wf w -> let (w', out) := flush now w in Drained w w' out /\ (queued w' = O \/ window w' <= size (inflight w'))%nat.
Proof. intros H. by apply drain_spec. Qed.

Lemma sent_app i a b : sent_in i (a ++ b) = sent_in i a ++ sent_in i b.
Proof. apply omap_app. Qed.

(** One turn of a writer that goes on: what was queued and what came in is written or queued. *)
Record Turned (e : Event) (w w' : Writer) (out : list Sent) : Prop := {
  tu_wf : Wf w';
  tu_lanes : forall i, sent_in i out ++ lane_of i w' = lane_of i w ++ given_in i [e];
  tu_replies : replies_sent out = replies_given [e];
  tu_pids : exists n, pids out = numbers n (next_pid w) /\ forall k, numbers (n + k) (next_pid w) = numbers n (next_pid w) ++ numbers k (next_pid w');
  tu_full : queued w' <> O -> size (inflight w') = window w';
  tu_bound : (queued w' <= QUEUE_MAX)%nat;
  tu_window : window w' = window w }.

Lemma flush_turned e now w w0 pre : Wf w0 -> (forall i, lane_of i w0 = lane_of i w ++ given_in i [e]) -> (queued w0 <= QUEUE_MAX)%nat ->
  next_pid w0 = next_pid w -> window w0 = window w -> (forall i, sent_in i pre = []) -> pids pre = [] -> replies_sent pre = replies_given [e] ->
  Turned e w (flush now w0).1 (pre ++ (flush now w0).2).
Proof.
  intros Hw Hl Hq Hp Hn Hs Hpp Hr. pose proof (flush_spec now w0 Hw) as H. destruct (flush now w0) as [w' out]. destruct H as [[D1 D2 D3 (n & D4 & D5) D6 D7] He]. cbn [fst snd].
  split; [done| | | | |lia|congruence].
  - intros i. rewrite sent_app, Hs, <- Hl. apply D2.
  - unfold replies_sent in *. by rewrite omap_app, D3, app_nil_r.
  - exists n. rewrite <- Hp. split; [|done]. unfold pids in *. by rewrite omap_app, Hpp, D4.
  - intros Hq'. pose proof (wf_window _ D1). destruct He; lia.
Qed.

Lemma lane_push op b i w : length (lanes w) = 4%nat ->
  lane_of i (set_lanes (alter (fun l => l ++ [(op, b)]) (lane_no (lane op)) (lanes w)) w) = lane_of i w ++ (if in_lane i (op, b) then [(op, b)] else []).
Proof.
  intros H4. unfold lane_of, in_lane. cbn. destruct (Nat.eqb_spec (lane_no (lane op)) i) as [<-|Hne].
  - rewrite list_lookup_alter_eq. assert (lane_no (lane op) < length (lanes w))%nat as Hlt by (destruct op; cbn; lia). by apply lookup_lt_is_Some in Hlt as [l ->].
  - by rewrite list_lookup_alter_ne, app_nil_r.
Qed.

Lemma step_turned e w w' out : Wf w -> (queued w <= QUEUE_MAX)%nat -> (queued w <> O -> size (inflight w) = window w) -> step e w = (Some w', out) -> Turned e w w' out.
Proof.
  intros Hw Hq Hf. assert (forall i, lane_of i w = lane_of i w ++ []) as Hnil by (intros; by rewrite app_nil_r). destruct e as [[f o p b|op b|p|c|] now|now]; cbn [step turn].
  - pose proof (flush_turned (Given (Reply f o p b) now) now w w [SReply f o p b] Hw Hnil Hq eq_refl eq_refl ltac:(done) eq_refl eq_refl) as H. destruct (flush now w). by intros [= <- <-].
  - set (w0 := set_lanes _ w). destruct (Nat.ltb_spec QUEUE_MAX (queued w0)) as [|Hq0]; [done|].
    assert (forall i, lane_of i w0 = lane_of i w ++ given_in i [Given (Notice op b) now]) as Hl.
    { intros i. subst w0. rewrite lane_push by apply Hw. f_equal. unfold given_in. cbn. by destruct (in_lane i (op, b)). }
    assert (Wf w0) as Hw0.
    { split; [cbn; by rewrite length_alter, (wf_four w Hw)| |apply Hw]. intros i x. rewrite Hl. intros [Hx|Hx]%elem_of_app; [by apply Hw|].
      unfold given_in in Hx. cbn in Hx. destruct (in_lane i (op, b)) eqn:E; set_solver. }
    pose proof (flush_turned (Given (Notice op b) now) now w w0 [] Hw0 Hl Hq0 eq_refl eq_refl ltac:(done) eq_refl eq_refl) as H. destruct (flush now w0). by intros [= <- <-].
  - set (w0 := set_inflight _ w). assert (Wf w0) as Hw0.
    { destruct Hw as [H4 Hx Hwin]. split; [done..|]. cbn. pose proof (map_subseteq_size _ _ (delete_subseteq (inflight w) p)). lia. }
    pose proof (flush_turned (Given (Ack p) now) now w w0 [] Hw0 Hnil Hq eq_refl eq_refl ltac:(done) eq_refl eq_refl) as H. destruct (flush now w0). by intros [= <- <-].
  - done.
  - done.
  - unfold tick. destruct (overdue now w); [done|]. intros [= <- <-]. split; try done. by exists O.
Qed.

(** A turn that ends the writer writes no notice any more, only a reason and the close. *)
Lemma step_ends e w out : step e w = (None, out) -> (exists pre, out = pre ++ [SClose]) /\ (forall i, sent_in i out = []) /\ replies_sent out = [].
Proof.
  destruct e as [[f o p b|op b|p|c|] now|now]; cbn [step turn].
  - by destruct (flush now w).
  - destruct (_ <? _)%nat; [|by destruct (flush now _)]. intros [= <-]. split_and!; [by exists [SLeave FlowOverflow (next_pid w)]|done|done].
  - by destruct (flush now _).
  - intros [= <-]. split_and!; [by exists [SLeave c (next_pid w)]|done|done].
  - intros [= <-]. split_and!; [by exists []|done|done].
  - unfold tick. destruct (overdue now w); [|done]. intros [= <-]. split_and!; [by exists [SLeave FlowTimeout (next_pid w)]|done|done].
Qed.

Lemma given_cons i e es : given_in i (e :: es) = given_in i [e] ++ given_in i es.
Proof. unfold given_in. change (e :: es) with ([e] ++ es). by rewrite omap_app. Qed.

Lemma replies_cons e es : replies_given (e :: es) = replies_given [e] ++ replies_given es.
Proof. unfold replies_given. change (e :: es) with ([e] ++ es). by rewrite omap_app. Qed.

Lemma replies_app a b : replies_sent (a ++ b) = replies_sent a ++ replies_sent b.
Proof. apply omap_app. Qed.

Lemma run_spec es : forall w r out, Wf w -> (queued w <= QUEUE_MAX)%nat -> (queued w <> O -> size (inflight w) = window w) -> run es w = (r, out) ->
  match r with
  | Some w' => Wf w' /\ (forall i, sent_in i out ++ lane_of i w' = lane_of i w ++ given_in i es) /\ replies_sent out = replies_given es
      /\ (exists n, pids out = numbers n (next_pid w) /\ forall k, numbers (n + k) (next_pid w) = numbers n (next_pid w) ++ numbers k (next_pid w'))
      /\ (queued w' <> O -> size (inflight w') = window w') /\ (queued w' <= QUEUE_MAX)%nat
  | None => (exists pre, out = pre ++ [SClose]) /\ (forall i, sent_in i out `prefix_of` lane_of i w ++ given_in i es) /\ replies_sent out `prefix_of` replies_given es
  end.
Proof.
  induction es as [|e es IH]; intros w r out Hw Hq Hf; cbn [run].
  { intros [= <- <-]. split_and!; [done|by intros; rewrite app_nil_r|done|by exists O|done|done]. }
  destruct (step e w) as [[w1|] out1] eqn:E.
  - destruct (step_turned e w w1 out1 Hw Hq Hf E) as [T1 T2 T3 (n & T4 & T5) T6 T7 T8]. destruct (run es w1) as [r2 out2] eqn:E2. intros [= <- <-].
    specialize (IH w1 r2 out2 T1 T7 T6 E2). destruct r2 as [w2|].
    + destruct IH as (I1 & I2 & I3 & (m & I4 & I5) & I6 & I7). split_and!; [done| | | |done|done].
      * intros i. rewrite sent_app, <- app_assoc, I2, given_cons, !app_assoc. by rewrite T2.
      * by rewrite replies_app, replies_cons, T3, I3.
      * exists (n + m)%nat. unfold pids in *. rewrite omap_app, T4, I4, T5. split; [done|]. intros k. by rewrite <- Nat.add_assoc, T5, I5, app_assoc.
    + destruct IH as ((pre & ->) & I2 & I3). split_and!; [exists (out1 ++ pre); by rewrite app_assoc| |].
      * intros i. rewrite sent_app, given_cons, app_assoc, <- T2, <- app_assoc. apply prefix_app, I2.
      * rewrite replies_app, replies_cons, T3. by apply prefix_app.
  - intros [= <- <-]. destruct (step_ends e w out1 E) as (H1 & H2 & H3). split_and!; [done| |rewrite H3; apply prefix_nil]. intros i. rewrite H2. apply prefix_nil.
Qed.

Lemma new_writer_wf flow : Wf (new_writer flow).
Proof.
  split; cbn; [done| |rewrite map_size_empty; lia]. intros i x. unfold lane_of. cbn. do 4 (destruct i as [|i]; [set_solver|]). set_solver.
Qed.

(** C28: The writer of a connection loses no notice and turns none around: as long as it runs, what
    was given to it for a lane is, in this order, what it has written of the lane and what
    still waits in it, the replies are written as they come, the notices are numbered
    consecutively, never more than the window are without an acknowledgement, something
    waits only where the window is full, and never more than a thousand notices wait; when
    it ends, the last thing it writes is the close, and what it wrote before of every lane is
    the beginning of what it was given. *)
Theorem conn_notices_in_order es flow :
  let (r, out) := run es (new_writer flow) in
  match r with
  | Some w => (forall i, sent_in i out ++ lane_of i w = given_in i es) /\ replies_sent out = replies_given es
      /\ (exists n, pids out = numbers n 1) /\ (size (inflight w) <= window w <= 10)%nat
      /\ (queued w <> O -> size (inflight w) = window w) /\ (queued w <= QUEUE_MAX)%nat
  | None => (exists pre, out = pre ++ [SClose]) /\ (forall i, sent_in i out `prefix_of` given_in i es) /\ replies_sent out `prefix_of` replies_given es
  end.
Proof.
  destruct (run es (new_writer flow)) as [r out] eqn:E. apply run_spec in E; [|apply new_writer_wf|cbn; unfold QUEUE_MAX; lia|done].
  assert (forall i, lane_of i (new_writer flow) = []) as Hn by (intros i; unfold lane_of; cbn; do 4 (destruct i as [|i]; [done|]); done).
  destruct r as [w|].
  - destruct E as (W & L & R & (n & P & _) & F & Q). split_and!; [|done|by exists n|apply W|apply W|done|done]. intros i. by rewrite L, Hn.
  - destruct E as (C & L & R). split_and!; [done| |done]. intros i. specialize (L i). by rewrite Hn in L.
Qed.

(** A client that does not acknowledge is given up: at the first tick more than thirty seconds
    after a notice was written that still has no acknowledgement, the writer leaves with
    FLOW_TIMEOUT and closes. *)
Theorem conn_gives_up now w p t : inflight w !! p = Some t -> T_ACK < now - t -> step (Tick now) w = (None, [SLeave FlowTimeout (next_pid w); SClose]).
Proof.
  intros Hp Ht. cbn [step]. unfold tick. assert (overdue now w = true) as ->; [|done]. apply existsb_exists. exists (p, t).
  rewrite <- list_elem_of_In, elem_of_map_to_list. split; [done|]. cbn. lia.
Qed.

Lemma conn_gives_up_witness :
  let w := mkWriter [[]; []; []; []] {[1 := 5]} 2 1 in
  run [Given (Notice Message []) 5] (new_writer 1) = (Some w, [SNotice Message 1 []]) /\ step (Tick 30006) w = (None, [SLeave FlowTimeout 2; SClose]).
Proof. split; [vm_compute; reflexivity|]. apply (conn_gives_up 30006 (mkWriter [[]; []; []; []] {[1 := 5]} 2 1) 1 5); [reflexivity|unfold T_ACK; lia]. Defined.

End Conn.
