(* ===== verification/HubSes.v ===== *)
(** * The sessions of a hub

    crates/oxhubd/src/ses/mod.rs: binding a connection to a session, evicting the old one of
    the same user, keeping a session for a while after its socket is gone, handing it over to
    another hub, and the rooms each session is in; crates/oxhubd/src/bus/mod.rs ([interest]):
    the subscriptions of the hub, one for each user and each room it has sessions for, counted.

    A session is named by its id; one that is registered no more stays in [heap], because
    requests under way still hold it. The answers of the nodes, the token check and the random
    ids are arguments; a subscription does not fail. A function of the model runs without
    interruption; where the sources wait for the network in between, the parts are functions
    of their own and the end of the file shows what comes of an overlap. *)

From S2P Require Import Prelude.

Module Ses.

(** The codes a session ends a connection with. *)
Inductive Code := DuplicateSession | SessionRevoked | ServerShutdown | OtherCode (n : Z).
Definition num (c : Code) : Z := match c with DuplicateSession => 2010 | SessionRevoked => 2009 | ServerShutdown => 5004 | OtherCode n => n end.

Inductive BindError := InvalidPayload | VersionMismatch | MissingToken | BadToken (c : Z) | QuotaExceeded.

Record SesState := mkSt {
  bound : bool; resumed : bool; live : bool; conn : option nat; dropped_at : option Z;
  servers : gmap string (gset string); epochs : gmap string string; touched : gset string }.

Definition st_default : SesState := mkSt false false false None None ∅ ∅ ∅.

Record Session := mkSes { user : string; st : SesState }.

Record SessionData := mkData { d_user : string; d_servers : gmap string (gset string); d_epochs : gmap string string; d_touched : gset string }.

Record Hub := mkHub {
  heap : gmap string Session; by_sid : gset string; by_user : gmap string string;
  room_subs : gmap string nat; user_subs : gmap string nat; sess_tokens : gset string }.

Definition set_heap v h := mkHub v (by_sid h) (by_user h) (room_subs h) (user_subs h) (sess_tokens h).
Definition set_by_sid v h := mkHub (heap h) v (by_user h) (room_subs h) (user_subs h) (sess_tokens h).
Definition set_by_user v h := mkHub (heap h) (by_sid h) v (room_subs h) (user_subs h) (sess_tokens h).
Definition set_room_subs v h := mkHub (heap h) (by_sid h) (by_user h) v (user_subs h) (sess_tokens h).
Definition set_user_subs v h := mkHub (heap h) (by_sid h) (by_user h) (room_subs h) v (sess_tokens h).
Definition set_sess_tokens v h := mkHub (heap h) (by_sid h) (by_user h) (room_subs h) (user_subs h) v.

Definition hub0 : Hub := mkHub ∅ ∅ ∅ ∅ ∅ ∅.

(** What goes out. *)
Inductive Eff :=
  | ELeave (c : nat) (code : Code)
  | EGone (node sid : string)
  | EBound (c : nat) (sid : string)
  | EBindFail (c : nat) (e : BindError)
  | EEvict (node sid : string)
  | ENotice (c : nat) (sid : string)
  | ENoSocket.

(** ** Interest *)

Definition interest (delta : Z) (name : string) (m : gmap string nat) : gmap string nat :=
  if delta <? 0 then
    match m !! name with
    | Some n => if (n - 1 =? 0)%nat then delete name m else <[name := (n - 1)%nat]> m
    | None => m
    end
  else match m !! name with Some n => <[name := S n]> m | None => <[name := 1%nat]> m end.

Definition interest_room (r : string) (delta : Z) (h : Hub) : Hub := h |> set_room_subs (interest delta r (room_subs h)).
Definition interest_user (u : string) (delta : Z) (h : Hub) : Hub := h |> set_user_subs (interest delta u (user_subs h)).

(** ** Sessions *)

Definition upd (sid : string) (f : SesState -> SesState) (h : Hub) : Hub := h |> set_heap (alter (fun s => mkSes (user s) (f (st s))) sid (heap h)).

Definition session (sid : string) (h : Hub) : option Session := if bool_decide (sid ∈ by_sid h) then heap h !! sid else None.

Definition session_of_user (u : string) (h : Hub) : option (string * Session) :=
  let? sid := by_user h !! u in let? s := session sid h in Some (sid, s).

(** [Session::rooms]: each room as often as it has nodes. *)
Definition rooms (x : SesState) : list string := mjoin (map (fun kv => elements kv.2) (map_to_list (servers x))).

Definition in_room (r : string) (x : SesState) : bool := existsb (fun kv : string * gset string => bool_decide (r ∈ kv.2)) (map_to_list (servers x)).

Definition register (sid : string) (s : Session) (h : Hub) : Hub :=
  h |> interest_user (user s) 1
    |> set_sess_tokens ({[sid]} ∪ sess_tokens h)
    |> set_heap (<[sid := s]> (heap h))
    |> set_by_sid ({[sid]} ∪ by_sid h)
    |> set_by_user (<[user s := sid]> (by_user h)).

Definition unregister (sid : string) (h : Hub) : Hub :=
  if bool_decide (sid ∈ by_sid h) then
    match heap h !! sid with
    | Some s =>
      let h := h |> set_by_sid (by_sid h ∖ {[sid]}) in
      let h := if bool_decide (by_user h !! user s = Some sid) then h |> set_by_user (delete (user s) (by_user h)) else h in
      let h := h |> set_sess_tokens (sess_tokens h ∖ {[sid]}) |> interest_user (user s) (-1) in
      fold_left (fun h r => interest_room r (-1) h) (rooms (st s)) h
    | None => h
    end
  else h.

Definition disposed (x : SesState) : SesState := mkSt false false false None (dropped_at x) ∅ (epochs x) (touched x).

(** The nodes are visited in no particular order. *)
Definition dispose (sid : string) (h : Hub) : Hub * list Eff :=
  match heap h !! sid with
  | Some s => (h |> unregister sid |> upd sid disposed, map (fun n => EGone n sid) (elements (touched (st s))))
  | None => (h, [])
  end.

Definition leave_conn (s : Session) (code : Code) : list Eff := match conn (st s) with Some c => [ELeave c code] | None => [] end.

Definition socket_dropped (sid : string) (c : nat) (code : option Code) (now : Z) (h : Hub) : Hub * list Eff :=
  match session sid h with
  | Some s =>
    if bool_decide (conn (st s) = Some c) then
      let n := match code with Some c => num c | None => 0 end in
      if (n =? 2009) || (n =? 5004) then dispose sid h
      else (h |> upd sid (fun x => mkSt false (resumed x) (live x) None (Some now) (servers x) (epochs x) (touched x)), [])
    else (h, [])
  | None => (h, [])
  end.

Definition client_leave (sid : string) (h : Hub) : Hub * list Eff := dispose sid h.

Definition is_due (win now : Z) (h : Hub) (sid : string) : bool :=
  match heap h !! sid with
  | Some s => negb (bound (st s)) && match dropped_at (st s) with Some d => d + win <=? now | None => false end
  | None => false
  end.

Definition dispose_all (l : list string) (h : Hub) : Hub * list Eff :=
  fold_left (fun x sid => let (h, e) := dispose sid x.1 in (h, x.2 ++ e)) l (h, []).

Definition sweep (win now : Z) (h : Hub) : Hub * list Eff := dispose_all (List.filter (is_due win now h) (elements (by_sid h))) h.

Definition evict_sid (sid : string) (h : Hub) : Hub * list Eff :=
  match session sid h with
  | Some s => let (h, e) := dispose sid h in (h, leave_conn s DuplicateSession ++ e)
  | None => (h, [])
  end.

Definition cut (u : string) (h : Hub) : Hub * list Eff :=
  match session_of_user u h with
  | Some (sid, s) => let (h, e) := dispose sid h in (h, leave_conn s SessionRevoked ++ e)
  | None => (h, [])
  end.

Definition shutdown_all (h : Hub) : list Eff := mjoin (map (fun sid => match session sid h with Some s => leave_conn s ServerShutdown | None => [] end) (elements (by_sid h))).

Definition hand_over (sid : string) (h : Hub) : Hub * option SessionData * list Eff :=
  match session sid h with
  | Some s =>
    let h := h |> upd sid (fun x => mkSt (bound x) (resumed x) (live x) None (dropped_at x) (servers x) (epochs x) (touched x)) in
    (h |> unregister sid, Some (mkData (user s) (servers (st s)) (epochs (st s)) (touched (st s))), leave_conn s DuplicateSession)
  | None => (h, None, [])
  end.

(** ** The rooms of a session *)

Definition add_rooms (l : list string) (h : Hub) : Hub := fold_left (fun h r => interest_room r 1 h) l h.
Definition sub_rooms (l : list string) (h : Hub) : Hub := fold_left (fun h r => interest_room r (-1) h) l h.

Definition set_rooms (sid node : string) (new : gset string) (h : Hub) : Hub :=
  match heap h !! sid with
  | Some s =>
    let old := default ∅ (servers (st s) !! node) in
    h |> upd sid (fun x => mkSt (bound x) (resumed x) (live x) (conn x) (dropped_at x) (<[node := new]> (servers x)) (epochs x) (touched x))
      |> add_rooms (elements (new ∖ old))
      |> sub_rooms (elements (old ∖ new))
  | None => h
  end.

Definition touch (sid node : string) (h : Hub) : Hub :=
  h |> upd sid (fun x => mkSt (bound x) (resumed x) (live x) (conn x) (dropped_at x) (servers x) (epochs x) ({[node]} ∪ touched x)).

(** ROOM_JOIN, up to the call of the node and after its answer: the id of the SFU and the rooms
    it has the user in. *)
Definition join_begin (sid room node : string) (h : Hub) : Hub := h |> interest_room room 1 |> touch sid node.

Definition join_end (sid room node : string) (answer : option (string * gset string)) (h : Hub) : Hub :=
  let h :=
    match answer with
    | Some (sfu, rs) =>
      h |> upd sid (fun x => mkSt (bound x) (resumed x) (live x) (conn x) (dropped_at x) (servers x) (<[node := sfu]> (epochs x)) (touched x))
        |> set_rooms sid node rs
    | None => h
    end in
  h |> interest_room room (-1).

(** ROOM_LEAVE and AFFILIATION. *)
Definition leave_end (sid node : string) (answer : option (gset string)) (h : Hub) : Hub :=
  match answer with Some rs => h |> set_rooms sid node rs | None => h end.

(** RESUME: the nodes that have rooms of the session are asked in turn; the first that does not
    answer ends it. *)
Fixpoint resume_nodes (sid : string) (answers : list (string * option (gset string))) (h : Hub) : Hub * bool :=
  match answers with
  | [] => (h, true)
  | (n, Some rs) :: l => resume_nodes sid l (h |> set_rooms sid n rs)
  | (n, None) :: l => (h, false)
  end.

Definition may_resume (x : SesState) : bool := bound x && live x && resumed x.

Definition room_dropped_one (r : string) (h : Hub) (sid : string) : Hub :=
  match heap h !! sid with
  | Some s =>
    let had := in_room r (st s) in
    let h := h |> upd sid (fun x => mkSt (bound x) (resumed x) (live x) (conn x) (dropped_at x) ((fun rs => rs ∖ {[r]}) <$> servers x) (epochs x) (touched x)) in
    if had then h |> interest_room r (-1) else h
  | None => h
  end.

Definition room_dropped (r : string) (h : Hub) : Hub := fold_left (room_dropped_one r) (elements (by_sid h)) h.

(** ** Notices *)

Definition push_notice (sid : string) (s : Session) : Eff := match conn (st s) with Some c => ENotice c sid | None => ENoSocket end.

Definition deliver_room (r : string) (exclude : list string) (h : Hub) : list Eff :=
  omap (fun sid => let? s := session sid h in
                   if in_room r (st s) && negb (existsb (String.eqb (user s)) exclude) then Some (push_notice sid s) else None) (elements (by_sid h)).

(** [apply_affiliation]: the node is the one whose SFU sent the notice, or has the room;
    [of_epoch] is what the bus knows. *)
Definition affiliation_node (of_epoch : string -> option string) (sfu room : option string) (x : SesState) : option string :=
  let by_epoch := let? e := sfu in fst <$> List.find (fun kv => String.eqb kv.2 e) (map_to_list (epochs x)) in
  match by_epoch with
  | Some n => Some n
  | None =>
    match (let? e := sfu in of_epoch e) with
    | Some n => Some n
    | None => let? r := room in fst <$> List.find (fun kv : string * gset string => bool_decide (r ∈ kv.2)) (map_to_list (servers x))
    end
  end.

Definition apply_affiliation (of_epoch : string -> option string) (sid : string) (sfu room : option string) (rs : gset string) (h : Hub) : Hub :=
  match heap h !! sid with
  | Some s => match affiliation_node of_epoch sfu room (st s) with Some n => h |> set_rooms sid n rs | None => h end
  | None => h
  end.

(** A notice for a user; one about the user's rooms (the SFU, the room, the rooms the user is in)
    sets them first. *)
Definition deliver_user (of_epoch : string -> option string) (u : string) (aff : option (option string * option string * gset string)) (h : Hub) : Hub * list Eff :=
  match session_of_user u h with
  | Some (sid, s) => (match aff with Some (sfu, room, rs) => h |> apply_affiliation of_epoch sid sfu room rs | None => h end, [push_notice sid s])
  | None => (h, [])
  end.

(** ** Admission *)

Definition admit_join (lim now : Z) (g : Z * Z) : (Z * Z) * bool :=
  if lim =? 0 then (g, true)
  else
    let sec := now / 1000 in
    let g := if g.1 =? sec then g else (sec, 0) in
    let g := (g.1, u32 (g.2 + 1)) in
    (g, g.2 <=? lim).

(** ** Binding *)

Record BindReq := mkBind { session_id : option string; token : option string; client_ver : option Z }.

(** The connection takes a session over: [bind] with a [session_id] that is known. *)
Definition take_over (c : nat) (sid : string) (h : Hub) : Hub * list Eff :=
  match heap h !! sid with
  | Some s =>
    (h |> upd sid (fun x => mkSt true true true (Some c) None (servers x) (epochs x) (touched x)),
     (match conn (st s) with Some o => if (o =? c)%nat then [] else [ELeave o DuplicateSession] | None => [] end) ++ [EBound c sid])
  | None => (h, [])
  end.

(** The session of another hub moves here, with its rooms. *)
Definition move_in (sid : string) (d : SessionData) (h : Hub) : Hub :=
  h |> register sid (mkSes (d_user d) (mkSt false false false None None (d_servers d) (d_epochs d) (d_touched d)))
    |> add_rooms (mjoin (map (fun kv => elements kv.2) (map_to_list (d_servers d)))).

(** A new session for a user whose token is good, up to the questions to the other hubs. *)
Definition evict_user (u : string) (h : Hub) : Hub * list Eff :=
  match session_of_user u h with
  | Some (sid, s) => let (h, e) := dispose sid h in (h, leave_conn s DuplicateSession ++ e)
  | None => (h, [])
  end.

Definition bind_register (c : nat) (u sid : string) (h : Hub) : Hub * list Eff :=
  (h |> register sid (mkSes u (mkSt true false true (Some c) None ∅ ∅ ∅)), [EBound c sid]).

(** [max] sessions, or no limit; [deploy] are the users with a session anywhere. *)
Definition over_quota (max : Z) (u : string) (deploy : list string) (h : Hub) : bool :=
  let local := len (List.filter (fun sid => match heap h !! sid with Some s => negb (String.eqb (user s) u) | None => false end) (elements (by_sid h))) in
  let all := len (List.filter (fun v => negb (String.eqb v u)) deploy) in
  (0 <? max) && (max <=? Z.max local all).

(** [req] is [None] when the body of the message is malformed, [fetched] the answer of the hub that has the session, [verify] the check of the token,
    [remote] the sessions of the user on other hubs, [fresh] the new id. *)
Definition bind (verify : string -> Z + string) (max : Z) (deploy : list string) (fetched : option SessionData) (remote : list (string * string)) (fresh : string)
    (c : nat) (req : option BindReq) (h : Hub) : Hub * list Eff :=
  let! req := req else (h, [EBindFail c InvalidPayload]) in
  if negb (default 1 (client_ver req) =? 1) then (h, [EBindFail c VersionMismatch])
  else
    let known :=
      match session_id req with
      | Some sid =>
        if String.eqb sid "" then None
        else match session sid h with
             | Some _ => Some (sid, h)
             | None => match fetched with Some d => Some (sid, h |> move_in sid d) | None => None end
             end
      | None => None
      end in
    match known with
    | Some (sid, h) => take_over c sid h
    | None =>
      match token req with
      | None => (h, [EBindFail c MissingToken])
      | Some t =>
        match verify t with
        | inl code => (h, [EBindFail c (BadToken code)])
        | inr u =>
          if over_quota max u deploy h then (h, [EBindFail c QuotaExceeded])
          else
            let (h, e1) := evict_user u h in
            let (h, e2) := bind_register c u fresh h in
            (h, e1 ++ map (fun ns => EEvict ns.1 ns.2) remote ++ e2)
        end
      end
    end.

(** ** Counting *)

Definition nat_opt (n : nat) : option nat := match n with O => None | S _ => Some n end.

(** The map has these counts; a count of zero has no entry. *)
Definition Counts (m : gmap string nat) (f : string -> nat) : Prop := forall r, m !! r = nat_opt (f r).

Definition b2n (b : bool) : nat := if b then 1%nat else O.

Lemma Counts_ext m f g : (forall r, f r = g r) -> Counts m f -> Counts m g.
Proof. intros E H r. by rewrite H, E. Qed.

Lemma Counts_up m f r : Counts m f -> Counts (interest 1 r m) (fun x => (f x + b2n (bool_decide (x = r)))%nat).
Proof.
  intros H x. unfold interest. cbn. rewrite (H r). destruct (f r) as [|n] eqn:E; cbn [nat_opt]; case_bool_decide as Ex.
  - subst x. by rewrite lookup_insert_eq, E.
  - by rewrite lookup_insert_ne, H, Nat.add_0_r.
  - subst x. rewrite lookup_insert_eq, E. cbn. by rewrite Nat.add_1_r.
  - by rewrite lookup_insert_ne, H, Nat.add_0_r.
Qed.

Lemma Counts_down m f r : Counts m f -> Counts (interest (-1) r m) (fun x => (f x - b2n (bool_decide (x = r)))%nat).
Proof.
  intros H x. unfold interest. cbn. rewrite (H r). destruct (f r) as [|n] eqn:E; cbn [nat_opt]; case_bool_decide as Ex.
  - subst x. by rewrite H, E.
  - by rewrite H, Nat.sub_0_r.
  - subst x. rewrite E. cbn. rewrite Nat.sub_0_r. destruct (Nat.eqb_spec n 0) as [->|Hn]; [by rewrite lookup_delete_eq|]. rewrite lookup_insert_eq. by destruct n.
  - rewrite Nat.sub_0_r. destruct (_ =? 0)%nat; [rewrite lookup_delete_ne by done|rewrite lookup_insert_ne by done]; apply H.
Qed.

Lemma fold_subs delta l : forall h, let h' := fold_left (fun h r => interest_room r delta h) l h in
  h' = set_room_subs (fold_left (fun m r => interest delta r m) l (room_subs h)) h.
Proof. induction l as [|r l IH]; intros h; cbn [fold_left]; [by destruct h|]. by rewrite IH. Qed.

Lemma Counts_add l : forall m f, NoDup l -> Counts m f -> Counts (fold_left (fun m r => interest 1 r m) l m) (fun x => (f x + b2n (bool_decide (x ∈ l)))%nat).
Proof.
  induction l as [|r l IH]; intros m f Hl H; cbn [fold_left].
  - eapply Counts_ext; [|exact H]. intros x. rewrite bool_decide_false by set_solver. cbn. lia.
  - apply NoDup_cons in Hl as [Hr Hl]. eapply Counts_ext; [|apply IH; [done|by apply Counts_up]]. intros x. cbn.
    repeat case_bool_decide; cbn; try lia; exfalso; set_solver.
Qed.

Lemma Counts_sub l : forall m f, NoDup l -> Counts m f -> Counts (fold_left (fun m r => interest (-1) r m) l m) (fun x => (f x - b2n (bool_decide (x ∈ l)))%nat).
Proof.
  induction l as [|r l IH]; intros m f Hl H; cbn [fold_left].
  - eapply Counts_ext; [|exact H]. intros x. rewrite bool_decide_false by set_solver. cbn. lia.
  - apply NoDup_cons in Hl as [Hr Hl]. eapply Counts_ext; [|apply IH; [done|by apply Counts_down]]. intros x. cbn.
    repeat case_bool_decide; cbn; try lia; exfalso; set_solver.
Qed.

(** ** Who is in a room *)

Lemma in_room_spec r x : in_room r x = true <-> exists n a, servers x !! n = Some a /\ r ∈ a.
Proof.
  unfold in_room. rewrite existsb_exists. split.
  - intros ([n a] & Hin & Hr). apply list_elem_of_In, elem_of_map_to_list in Hin. apply bool_decide_eq_true in Hr. eauto.
  - intros (n & a & Hn & Hr). exists (n, a). rewrite <- list_elem_of_In, elem_of_map_to_list, bool_decide_eq_true. done.
Qed.

(** A room is under one node only. *)
Definition one_node (m : gmap string (gset string)) : Prop := forall n n' a a' r, m !! n = Some a -> m !! n' = Some a' -> r ∈ a -> r ∈ a' -> n = n'.

Definition listing (m : gmap string (gset string)) : list string := mjoin (map (fun kv => elements kv.2) (map_to_list m)).

Lemma listing_in m r : r ∈ listing m <-> exists n a, m !! n = Some a /\ r ∈ a.
Proof.
  unfold listing. rewrite list_elem_of_join. split.
  - intros (l & Hr & Hl). apply list_elem_of_fmap in Hl as ([n a] & -> & Hin). apply elem_of_map_to_list in Hin. apply elem_of_elements in Hr. eauto.
  - intros (n & a & Hn & Hr). exists (elements a). rewrite elem_of_elements. split; [done|]. apply list_elem_of_fmap. exists (n, a). by rewrite elem_of_map_to_list.
Qed.

Lemma listing_nodup m : one_node m -> NoDup (listing m).
Proof.
  intros H. unfold listing. pose proof (NoDup_fst_map_to_list m) as Hn. assert (forall n a, (n, a) ∈ map_to_list m -> m !! n = Some a) as Hm by (intros n a; apply elem_of_map_to_list).
  revert Hn Hm. generalize (map_to_list m) as l. induction l as [|[n a] l IH]; intros Hn Hm; cbn; [constructor|]. cbn in Hn. apply NoDup_cons in Hn as [Hx Hn].
  apply NoDup_app. split_and!; [apply NoDup_elements| |apply IH; [done|intros; apply Hm; set_solver]].
  intros r Hr (k & Hk & Hin)%list_elem_of_join. apply list_elem_of_fmap in Hin as ([n' a'] & -> & Hin). cbn in Hk. apply elem_of_elements in Hr, Hk.
  apply Hx. rewrite (H n n' a a' r (Hm n a ltac:(set_solver)) (Hm n' a' ltac:(set_solver)) Hr Hk). apply list_elem_of_fmap. by exists (n', a').
Qed.

Lemma in_listing r x : in_room r x = bool_decide (r ∈ listing (servers x)).
Proof. apply eq_true_iff_eq. by rewrite in_room_spec, bool_decide_eq_true, listing_in. Qed.

Definition here (r : string) (h : Hub) (sid : string) : bool := match heap h !! sid with Some s => in_room r (st s) | None => false end.

Definition members (r : string) (h : Hub) : gset string := filter (fun sid => here r h sid = true) (by_sid h).

(** The sessions other than [sid] in a room. *)
Definition rest (r : string) (sid : string) (h : Hub) : gset string := filter (fun x => here r h x = true) (by_sid h ∖ {[sid]}).

Lemma members_split r sid h : sid ∈ by_sid h -> size (members r h) = (size (rest r sid h) + b2n (here r h sid))%nat.
Proof.
  intros Hs. unfold members, rest. destruct (here r h sid) eqn:E; cbn.
  - replace (filter (fun x => here r h x = true) (by_sid h)) with ({[sid]} ∪ filter (fun x => here r h x = true) (by_sid h ∖ {[sid]})).
    + rewrite size_union by set_solver. rewrite size_singleton. lia.
    + apply set_eq. intros x. rewrite elem_of_union, elem_of_singleton, !elem_of_filter, elem_of_difference, elem_of_singleton. destruct (decide (x = sid)); naive_solver.
  - rewrite Nat.add_0_r. f_equal. apply set_eq. intros x. rewrite !elem_of_filter, elem_of_difference, elem_of_singleton. split; [|naive_solver].
    intros [? ?]. split_and!; try done. congruence.
Qed.

(** ** The books of a hub *)

Section Books.
(** How often a room is counted for joinings under way. *)
Variable off : string -> nat.

Record Inv (h : Hub) : Prop := {
  v_heap : forall sid, sid ∈ by_sid h -> is_Some (heap h !! sid);
  v_user : forall u sid, by_user h !! u = Some sid <-> sid ∈ by_sid h /\ exists s, heap h !! sid = Some s /\ user s = u;
  v_tokens : sess_tokens h = by_sid h;
  v_users : Counts (user_subs h) (fun u => b2n (match by_user h !! u with Some _ => true | None => false end));
  v_one : forall sid s, sid ∈ by_sid h -> heap h !! sid = Some s -> one_node (servers (st s));
  v_rooms : Counts (room_subs h) (fun r => (size (members r h) + off r)%nat) }.

(** Nothing the books are about changes. *)
Lemma upd_lookup sid f h x : heap (upd sid f h) !! x = if decide (x = sid) then (fun s => mkSes (user s) (f (st s))) <$> heap h !! sid else heap h !! x.
Proof. unfold upd. cbn. destruct (decide (x = sid)) as [->|]; [by rewrite lookup_alter_eq|by rewrite lookup_alter_ne]. Qed.

(** A change of one session, with the rooms counted anew. *)
Lemma books_upd sid f h m : Inv h ->
  (forall s, sid ∈ by_sid h -> heap h !! sid = Some s -> one_node (servers (f (st s)))) ->
  Counts m (fun r => (size (members r (upd sid f h)) + off r)%nat) -> Inv (set_room_subs m (upd sid f h)).
Proof.
  intros [A B C D E F] Ho Hm. split; cbn [by_sid by_user sess_tokens user_subs room_subs set_room_subs heap]; try done.
  - intros x Hx. change (is_Some (heap (upd sid f h) !! x)). rewrite upd_lookup. case_decide; [subst x; destruct (A sid Hx) as [s ->]; eauto|auto].
  - intros u x. change (heap (set_room_subs m (upd sid f h))) with (heap (upd sid f h)). change (by_user (upd sid f h)) with (by_user h). change (by_sid (upd sid f h)) with (by_sid h).
    rewrite B, upd_lookup. case_decide as Ex; [|done]. subst x. destruct (heap h !! sid) as [s|]; cbn; naive_solver.
  - intros x s Hx. change (heap (upd sid f h) !! x = Some s -> one_node (servers (st s))). rewrite upd_lookup. case_decide as Ex; [|by apply E]. subst x.
    destruct (heap h !! sid) as [s0|] eqn:Es; [|done]. intros [= <-]. cbn. auto.
Qed.

Lemma here_upd r sid f h x : here r (upd sid f h) x = if decide (x = sid) then match heap h !! sid with Some s => in_room r (f (st s)) | None => false end else here r h x.
Proof. unfold here. rewrite upd_lookup. case_decide; [|done]. subst x. by destruct (heap h !! sid). Qed.

Lemma rest_upd r sid f h : rest r sid (upd sid f h) = rest r sid h.
Proof.
  unfold rest. apply set_eq. intros x. rewrite !elem_of_filter, here_upd. change (by_sid (upd sid f h)) with (by_sid h).
  destruct (decide (x = sid)) as [->|]; [set_solver|done].
Qed.

Lemma set_room_subs_id h : set_room_subs (room_subs h) h = h.
Proof. by destruct h. Qed.

(** The rooms do not change, or the session is not in the books. *)
Lemma Inv_upd_same sid f h : Inv h -> (forall x, servers (f x) = servers x) \/ sid ∉ by_sid h -> Inv (upd sid f h).
Proof.
  intros H Hf. rewrite <- (set_room_subs_id (upd sid f h)). apply books_upd; [done| |].
  - intros s Hs Es. destruct Hf as [->|]; [by eapply (v_one h H)|done].
  - eapply Counts_ext; [|apply (v_rooms h H)]. intros r. assert (members r (upd sid f h) = members r h) as ->; [|done]. unfold members. apply set_eq. intros x. rewrite !elem_of_filter, here_upd. change (by_sid (upd sid f h)) with (by_sid h).
    case_decide as Ex; [|done]. subst x. destruct Hf as [Hf|]; [|naive_solver]. unfold here. destruct (heap h !! sid) as [s|]; [|done]. unfold in_room. by rewrite Hf.
Qed.

Lemma count_difference (a b : gset string) r : bool_decide (r ∈ elements (a ∖ b)) = bool_decide (r ∈ a) && negb (bool_decide (r ∈ b)).
Proof. repeat case_bool_decide; cbn; set_solver. Qed.

(** Rooms a session may be given for a node: none of them is under another node of it. *)
Definition fits (sid node : string) (rs : gset string) (h : Hub) : Prop :=
  sid ∈ by_sid h /\ forall s n a, heap h !! sid = Some s -> servers (st s) !! n = Some a -> n <> node -> a ## rs.

Lemma set_rooms_inv sid node rs h : Inv h -> fits sid node rs h -> Inv (set_rooms sid node rs h).
Proof.
  intros H [Hs Hfit]. unfold set_rooms. destruct (heap h !! sid) as [s|] eqn:Es; [|done]. set (old := default ∅ (servers (st s) !! node)). set (f := fun x => mkSt _ _ _ _ _ (<[node := rs]> (servers x)) _ _).
  unfold sub_rooms, add_rooms. rewrite !fold_subs. cbn [set_room_subs room_subs]. pose proof (v_one h H sid s Hs Es) as H1. apply books_upd; [done| |].
  - intros s' _ Es'. rewrite Es in Es'. injection Es' as <-. intros n n' a a' r. subst f. cbn.
    destruct (decide (n = node)) as [->|Hn], (decide (n' = node)) as [->|Hn']; rewrite ?lookup_insert_eq, ?lookup_insert_ne by done; [done| | |apply H1].
    + intros [= <-] Ha Hr Hr'. pose proof (Hfit s n' a' eq_refl Ha Hn'). set_solver.
    + intros Ha [= <-] Hr Hr'. pose proof (Hfit s n a eq_refl Ha Hn). set_solver.
  - eapply Counts_ext; [|apply Counts_sub; [apply NoDup_elements|apply Counts_add; [apply NoDup_elements|apply (v_rooms h H)]]].
    intros r. cbn. rewrite !count_difference, (members_split r sid h Hs). rewrite (members_split r sid (upd sid f h) Hs), rest_upd, here_upd, decide_True, Es by done. unfold here. rewrite Es.
    assert (in_room r (f (st s)) = bool_decide (r ∈ rs) || in_room r (st s) && negb (bool_decide (r ∈ old))) as ->.
    { apply eq_true_iff_eq. rewrite orb_true_iff, andb_true_iff, negb_true_iff, bool_decide_eq_true, bool_decide_eq_false, !in_room_spec. subst f old. cbn. split.
      - intros (n & a & Hn & Hr). destruct (decide (n = node)) as [->|Hne]; [rewrite lookup_insert_eq in Hn; left; congruence|]. rewrite lookup_insert_ne in Hn by done. right. split; [eauto|].
        destruct (servers (st s) !! node) as [b|] eqn:Eb; [|set_solver]. intros Hb. by destruct (Hne (H1 n node a b r Hn Eb Hr Hb)).
      - intros [Hr|[(n & a & Hn & Hr) Ho]]; [exists node, rs; by rewrite lookup_insert_eq|]. exists n, a. split; [|done]. rewrite lookup_insert_ne; [done|]. intros <-. rewrite Hn in Ho. done. }
    assert (r ∈ old -> in_room r (st s) = true) as Hold.
    { intros Ho. apply in_room_spec. subst old. destruct (servers (st s) !! node) as [b|] eqn:Eb; [eauto|set_solver]. }
    assert (r ∈ rs -> r ∉ old -> in_room r (st s) = false) as Hnew.
    { intros Hr Ho. apply not_true_is_false. intros (n & a & Hn & Ha)%in_room_spec. destruct (decide (n = node)) as [->|Hne]; [subst old; rewrite Hn in Ho; done|].
      pose proof (Hfit s n a eq_refl Hn Hne). set_solver. }
    repeat case_bool_decide; destruct (in_room r (st s)); cbn; try lia; naive_solver.
Qed.

(** A session out of the books. *)
Lemma unregister_books sid h s : sid ∈ by_sid h -> heap h !! sid = Some s -> Inv h ->
  unregister sid h = mkHub (heap h) (by_sid h ∖ {[sid]}) (delete (user s) (by_user h)) (fold_left (fun m r => interest (-1) r m) (listing (servers (st s))) (room_subs h))
    (interest (-1) (user s) (user_subs h)) (sess_tokens h ∖ {[sid]}).
Proof.
  intros Hs Es H. unfold unregister. rewrite bool_decide_true, Es by done. cbn.
  rewrite bool_decide_true by (apply (v_user h H); eauto). cbn. by rewrite fold_subs.
Qed.

Lemma unregister_inv sid h : Inv h -> Inv (unregister sid h) /\ (sid ∈ by_sid h -> by_sid (unregister sid h) = by_sid h ∖ {[sid]}).
Proof.
  intros H. destruct (decide (sid ∈ by_sid h)) as [Hs|Hs]; [|unfold unregister; by rewrite bool_decide_false]. destruct (v_heap h H sid Hs) as [s Es].
  rewrite (unregister_books sid h s) by done. split; [|done]. destruct H as [A B C D E F]. split; cbn [by_sid by_user sess_tokens user_subs room_subs heap].
  - intros x Hx. apply A. set_solver.
  - intros u x. destruct (decide (u = user s)) as [->|Hne].
    + rewrite lookup_delete_eq. split; [done|]. intros [Hx (s' & Es' & Eu)]. assert (by_user h !! user s = Some sid) as E1 by (apply B; eauto).
      assert (by_user h !! user s = Some x) as E2 by (apply B; split; [set_solver|eauto]). rewrite E1 in E2. injection E2 as ->. set_solver.
    + rewrite lookup_delete_ne by done. rewrite B. split; [|set_solver]. intros [Hx (s' & Es' & Eu)]. split; [|eauto]. rewrite elem_of_difference, elem_of_singleton. split; [done|]. congruence.
  - by rewrite C.
  - eapply Counts_ext; [|apply Counts_down, D]. intros u. cbn. case_bool_decide as Eu.
    + subst u. rewrite lookup_delete_eq. by destruct (by_user h !! user s).
    + rewrite lookup_delete_ne by done. by rewrite Nat.sub_0_r.
  - intros x s' Hx. apply E. set_solver.
  - eapply Counts_ext; [|apply Counts_sub; [by apply listing_nodup, (E sid)|exact F]]. intros r. cbn. rewrite (members_split r sid h Hs). unfold here at 1. rewrite Es, in_listing.
    unfold members, rest. cbn. change (here r _) with (here r h). lia.
Qed.

Lemma dispose_inv sid h : Inv h -> Inv (dispose sid h).1.
Proof.
  intros H. unfold dispose. destruct (heap h !! sid) as [s|] eqn:Es; [|done]. cbn [fst]. destruct (unregister_inv sid h H) as [H' Hb]. apply Inv_upd_same; [done|]. right.
  destruct (decide (sid ∈ by_sid h)) as [Hs|Hs]; [rewrite Hb by done; set_solver|]. unfold unregister. by rewrite bool_decide_false.
Qed.

Lemma dispose_all_inv l h : Inv h -> Inv (dispose_all l h).1.
Proof.
  unfold dispose_all. assert (forall x, Inv x.1 -> Inv (fold_left (fun x sid => let (h, e) := dispose sid x.1 in (h, x.2 ++ e)) l x).1) as H; [|intros Hh; by apply (H (h, []))].
  induction l as [|sid l IH]; intros x Hx; [done|]. cbn [fold_left]. apply IH. pose proof (dispose_inv sid x.1 Hx). by destruct (dispose sid x.1).
Qed.

Lemma register_inv sid s h m : Inv h -> sid ∉ by_sid h -> by_user h !! user s = None -> one_node (servers (st s)) ->
  Counts m (fun r => (size (members r h) + off r + b2n (in_room r (st s)))%nat) -> Inv (set_room_subs m (register sid s h)).
Proof.
  intros [A B C D E F] Hs Hu Ho Hm. split; cbn.
  - intros x Hx. destruct (decide (x = sid)) as [->|]; [rewrite lookup_insert_eq; eauto|rewrite lookup_insert_ne by done]. apply A. set_solver.
  - intros u x. destruct (decide (u = user s)) as [->|Hne].
    + rewrite lookup_insert_eq. split.
      * intros [= <-]. split; [set_solver|]. exists s. by rewrite lookup_insert_eq.
      * intros [Hx (s' & Es' & Eu)]. destruct (decide (x = sid)) as [->|Hne]; [done|]. rewrite lookup_insert_ne in Es' by done.
        assert (by_user h !! user s = Some x) as E2 by (apply B; split; [set_solver|eauto]). congruence.
    + rewrite lookup_insert_ne, B by done. split.
      * intros [Hx (s' & Es' & Eu)]. split; [set_solver|]. exists s'. rewrite lookup_insert_ne; [done|]. set_solver.
      * intros [Hx (s' & Es' & Eu)]. destruct (decide (x = sid)) as [->|Hxs]; [rewrite lookup_insert_eq in Es'; congruence|]. rewrite lookup_insert_ne in Es' by done. split; [set_solver|eauto].
  - by rewrite C.
  - eapply Counts_ext; [|apply Counts_up, D]. intros u. cbn. case_bool_decide as Eu.
    + subst u. by rewrite lookup_insert_eq, Hu.
    + rewrite lookup_insert_ne by done. by rewrite Nat.add_0_r.
  - intros x s' Hx. destruct (decide (x = sid)) as [->|]; [rewrite lookup_insert_eq; by intros [= <-]|rewrite lookup_insert_ne by done]. apply E. set_solver.
  - eapply Counts_ext; [|exact Hm]. intros r. rewrite (members_split r sid) by (cbn; set_solver).
    assert (rest r sid (set_room_subs m (register sid s h)) = members r h) as ->.
    { unfold rest, members, here. cbn. apply set_eq. intros x. rewrite !elem_of_filter, elem_of_difference, elem_of_singleton, elem_of_union, elem_of_singleton.
      destruct (decide (x = sid)) as [->|Hne]; [naive_solver|]. rewrite lookup_insert_ne by done. naive_solver. }
    assert (here r (set_room_subs m (register sid s h)) sid = in_room r (st s)) as -> by (unfold here; cbn; by rewrite lookup_insert_eq). lia.
Qed.

Lemma one_node_empty : one_node ∅.
Proof. intros n n' a a' r H. by rewrite lookup_empty in H. Qed.

Lemma evict_user_inv u h : Inv h -> Inv (evict_user u h).1 /\ by_user (evict_user u h).1 !! u = None /\ by_sid (evict_user u h).1 ⊆ by_sid h.
Proof.
  intros H. unfold evict_user, session_of_user. destruct (by_user h !! u) as [sid|] eqn:Eu; [|done]. apply (v_user h H) in Eu as [Hs (s & Es & <-)].
  unfold session. rewrite bool_decide_true, Es by done. pose proof (dispose_inv sid h H) as Hd. unfold dispose in *. rewrite Es in *. cbn [fst] in *. split; [done|].
  rewrite (unregister_books sid h s) by done. cbn. split; [apply lookup_delete_eq|set_solver].
Qed.

Lemma room_dropped_one_inv r h sid : Inv h -> sid ∈ by_sid h -> Inv (room_dropped_one r h sid).
Proof.
  intros H Hs. destruct (v_heap h H sid Hs) as [s Es]. unfold room_dropped_one. rewrite Es. set (f := fun x => mkSt _ _ _ _ _ ((fun rs => rs ∖ {[r]}) <$> servers x) _ _).
  pose proof (v_one h H sid s Hs Es) as H1.
  assert (forall x, in_room x (f (st s)) = in_room x (st s) && negb (bool_decide (x = r))) as Hf.
  { intros x. apply eq_true_iff_eq. rewrite andb_true_iff, negb_true_iff, bool_decide_eq_false, !in_room_spec. subst f. cbn. split.
    - intros (n & a & Hn & Hx). rewrite lookup_fmap in Hn. destruct (servers (st s) !! n) as [b|] eqn:Eb; [|done]. injection Hn as <-. split; [exists n, b; set_solver|set_solver].
    - intros [(n & a & Hn & Hx) Hne]. exists n, (a ∖ {[r]}). rewrite lookup_fmap, Hn. set_solver. }
  assert (one_node (servers (f (st s)))) as Ho.
  { intros n n' a a' x Hn Hn' Hx Hx'. subst f. cbn in Hn, Hn'. rewrite lookup_fmap in Hn, Hn'. destruct (servers (st s) !! n) as [b|] eqn:Eb, (servers (st s) !! n') as [b'|] eqn:Eb'; try done.
    injection Hn as <-. injection Hn' as <-. apply (H1 n n' b b' x); set_solver. }
  assert (forall x, size (members x h) = (size (members x (upd sid f h)) + b2n (in_room r (st s) && bool_decide (x = r)))%nat) as Hc.
  { intros x. rewrite (members_split x sid (upd sid f h) Hs), rest_upd, here_upd, decide_True, Es, Hf by done. rewrite (members_split x sid h Hs). unfold here. rewrite Es.
    case_bool_decide as Ex; [subst x; destruct (in_room r (st s)); cbn; lia|]. destruct (in_room r (st s)), (in_room x (st s)); cbn; lia. }
  assert (forall s' : Session, sid ∈ by_sid h -> heap h !! sid = Some s' -> one_node (servers (f (st s')))) as Ho' by (intros s' _ E'; by rewrite Es in E'; injection E' as <-).
  destruct (in_room r (st s)) eqn:Er.
  - apply books_upd; [done..|]. eapply Counts_ext; [|apply Counts_down, (v_rooms h H)]. intros x. cbv beta. rewrite Hc. cbn [andb]. lia.
  - rewrite <- (set_room_subs_id (upd sid f h)). apply books_upd; [done..|]. eapply Counts_ext; [|apply (v_rooms h H)]. intros x. cbv beta. rewrite Hc. cbn. lia.
Qed.

Lemma room_dropped_inv r h : Inv h -> Inv (room_dropped r h).
Proof.
  intros H. unfold room_dropped. assert (forall l h, Inv h -> (forall x, x ∈ l -> x ∈ by_sid h) -> Inv (fold_left (room_dropped_one r) l h)) as Hf; [|apply Hf; [done|set_solver]].
  induction l as [|sid l IH]; intros h' Hh Hl; [done|]. cbn [fold_left]. apply IH; [apply room_dropped_one_inv; [done|set_solver]|].
  intros x Hx. assert (by_sid (room_dropped_one r h' sid) = by_sid h') as -> by (unfold room_dropped_one; destruct (heap h' !! sid) as [s|]; [by destruct (in_room r (st s))|done]). set_solver.
Qed.

End Books.

Lemma books_start : Inv (fun _ => O) hub0.
Proof. split; cbn; try done; set_solver. Qed.

(** ** What can happen *)

(** A session another hub hands over: its user has none here, its rooms are under one node. *)
Definition good_fetch (fetched : option SessionData) (h : Hub) : Prop :=
  forall d, fetched = Some d -> by_user h !! d_user d = None /\ one_node (d_servers d).

(** One thing at a time; the answer of a node to a joining may come later, but finds the session
    still in the books. [joins] are the rooms of the joinings under way. *)
Inductive Happens : Hub * list string -> Hub * list string -> Prop :=
  | h_bind verify max deploy fetched remote fresh c req h j : fresh ∉ by_sid h -> good_fetch fetched h -> Happens (h, j) ((bind verify max deploy fetched remote fresh c req h).1, j)
  | h_leave sid h j : Happens (h, j) ((client_leave sid h).1, j)
  | h_dropped sid c code now h j : Happens (h, j) ((socket_dropped sid c code now h).1, j)
  | h_sweep win now h j : Happens (h, j) ((sweep win now h).1, j)
  | h_evict sid h j : Happens (h, j) ((evict_sid sid h).1, j)
  | h_cut u h j : Happens (h, j) ((cut u h).1, j)
  | h_hand_over sid h j : Happens (h, j) ((hand_over sid h).1.1, j)
  | h_call sid node h j : Happens (h, j) (touch sid node h, j)
  | h_rooms sid node rs h j : fits sid node rs h -> Happens (h, j) (set_rooms sid node rs h, j)
  | h_join sid room node h j : Happens (h, j) (join_begin sid room node h, room :: j)
  | h_joined sid room node answer h j1 j2 : (forall sfu rs, answer = Some (sfu, rs) -> fits sid node rs h) ->
      Happens (h, j1 ++ room :: j2) (join_end sid room node answer h, j1 ++ j2)
  | h_room_dropped r h j : Happens (h, j) (room_dropped r h, j).

Definition Reachable : Hub * list string -> Prop := rtc Happens (hub0, []).

(** The joinings under way for a room. *)
Definition joining (j : list string) (r : string) : nat := length (filter (fun x => x = r) j).

Lemma session_in sid h s : session sid h = Some s -> sid ∈ by_sid h /\ heap h !! sid = Some s.
Proof. unfold session. by case_bool_decide. Qed.

Lemma add_rooms_subs l h : add_rooms l h = set_room_subs (fold_left (fun m r => interest 1 r m) l (room_subs h)) h.
Proof. apply fold_subs. Qed.

Lemma move_in_inv off sid d h : Inv off h -> sid ∉ by_sid h -> by_user h !! d_user d = None -> one_node (d_servers d) -> Inv off (move_in sid d h).
Proof.
  intros H Hs Hu Ho. unfold move_in. rewrite add_rooms_subs. apply register_inv; [done..|].
  eapply Counts_ext; [|apply Counts_add; [by apply listing_nodup|apply (v_rooms off h H)]]. intros r. cbv beta. f_equal. by rewrite in_listing.
Qed.

Lemma take_over_inv off c sid h : Inv off h -> Inv off (take_over c sid h).1.
Proof. intros H. unfold take_over. destruct (heap h !! sid); [|done]. apply Inv_upd_same; [done|by left]. Qed.

Lemma bind_inv off verify max deploy fetched remote fresh c req h : Inv off h -> fresh ∉ by_sid h -> good_fetch fetched h ->
  Inv off (bind verify max deploy fetched remote fresh c req h).1.
Proof.
  intros H Hf Hg. unfold bind. destruct req as [req|]; [|done]. destruct (negb _); [done|]. set (known := match session_id req with Some sid => _ | None => None end).
  assert (forall sid h', known = Some (sid, h') -> Inv off h') as Hk.
  { intros sid h'. subst known. destruct (session_id req) as [x|]; [|done]. destruct (String.eqb x ""); [done|]. destruct (session x h) eqn:Es; [by intros [= <- <-]|].
    destruct fetched as [d|]; [|done]. intros [= <- <-]. destruct (Hg d eq_refl) as [Hu Ho]. apply move_in_inv; [done| |done..]. intros Hx. unfold session in Es. rewrite bool_decide_true in Es by done.
    destruct (v_heap off h H x Hx). congruence. }
  destruct known as [[sid h']|]; [by apply take_over_inv, (Hk sid)|]. destruct (token req) as [t|]; [|done]. destruct (verify t) as [?|u]; [done|]. destruct (over_quota _ _ _ _); [done|].
  destruct (evict_user_inv off u h H) as (H1 & H2 & H3). destruct (evict_user u h) as [h1 e1]. cbn [fst] in *. unfold bind_register.
  rewrite <- (set_room_subs_id (register _ _ h1)). apply register_inv; [done|set_solver|done|apply one_node_empty|].
  eapply Counts_ext; [|apply (v_rooms off h1 H1)]. intros r. unfold in_room. cbn [servers st]. rewrite map_to_list_empty. cbn. lia.
Qed.

Lemma Inv_off off off' h m : Counts m (fun r => (size (members r h) + off' r)%nat) -> Inv off h -> Inv off' (set_room_subs m h).
Proof. intros Hm [A B C D E F]. by split. Qed.

Lemma joining_app a b r : joining (a ++ b) r = (joining a r + joining b r)%nat.
Proof. unfold joining. by rewrite filter_app, length_app. Qed.

Lemma joining_cons x j r : joining (x :: j) r = (b2n (bool_decide (r = x)) + joining j r)%nat.
Proof.
  unfold joining. destruct (decide (x = r)) as [->|Hne]; [rewrite filter_cons_True, bool_decide_true by done|rewrite filter_cons_False, bool_decide_false by congruence]; done.
Qed.

Lemma join_begin_inv sid room node h j : Inv (joining j) h -> Inv (joining (room :: j)) (join_begin sid room node h).
Proof.
  intros H. unfold join_begin, touch. apply Inv_upd_same; [|by left]. apply (Inv_off (joining j)); [|done].
  eapply Counts_ext; [|apply Counts_up, (v_rooms _ h H)]. intros r. cbv beta. rewrite joining_cons. lia.
Qed.

Lemma join_end_inv sid room node answer h j1 j2 : Inv (joining (j1 ++ room :: j2)) h -> (forall sfu rs, answer = Some (sfu, rs) -> fits sid node rs h) ->
  Inv (joining (j1 ++ j2)) (join_end sid room node answer h).
Proof.
  intros H Hfit. unfold join_end. set (h1 := match answer with Some (sfu, rs) => _ | None => h end).
  assert (Inv (joining (j1 ++ room :: j2)) h1) as H1.
  { subst h1. destruct answer as [[sfu rs]|]; [|done]. destruct (Hfit sfu rs eq_refl) as [Hs Hd]. apply set_rooms_inv; [apply Inv_upd_same; [done|by left]|]. split; [done|].
    intros s n a. rewrite upd_lookup, decide_True by done. destruct (heap h !! sid) as [s0|] eqn:Es; [|done]. intros [= <-]. cbn. intros Hn Hne. exact (Hd s0 n a eq_refl Hn Hne). }
  apply (Inv_off (joining (j1 ++ room :: j2))); [|done]. eapply Counts_ext; [|apply Counts_down, (v_rooms _ h1 H1)]. intros r. cbv beta. rewrite !joining_app, joining_cons.
  case_bool_decide; cbn; lia.
Qed.

Lemma happens_books x y : Inv (joining x.2) x.1 -> Happens x y -> Inv (joining y.2) y.1.
Proof.
  intros H. destruct 1; cbn [fst snd] in *.
  - by apply bind_inv.
  - by apply dispose_inv.
  - unfold socket_dropped. destruct (session sid h); [|done]. case_bool_decide; [|done]. destruct (_ || _); [by apply dispose_inv|]. apply Inv_upd_same; [done|by left].
  - by apply dispose_all_inv.
  - unfold evict_sid. destruct (session sid h); [|done]. pose proof (dispose_inv _ sid h H). by destruct (dispose sid h).
  - unfold cut. destruct (session_of_user u h) as [[sid s]|]; [|done]. pose proof (dispose_inv _ sid h H). by destruct (dispose sid h).
  - unfold hand_over. destruct (session sid h); [|done]. cbn [fst]. apply unregister_inv, Inv_upd_same; [done|by left].
  - apply Inv_upd_same; [done|by left].
  - by apply set_rooms_inv.
  - by apply join_begin_inv.
  - by apply join_end_inv.
  - by apply room_dropped_inv.
Qed.

Lemma reachable_from x y : rtc Happens x y -> Inv (joining x.2) x.1 -> Inv (joining y.2) y.1.
Proof. induction 1 as [|x1 x2 x3 H _ IH]; [done|]. intros Hx. by eapply IH, happens_books. Qed.

Lemma reachable_books h j : Reachable (h, j) -> Inv (joining j) h.
Proof. intros H. exact (reachable_from _ _ H books_start). Qed.

(** A notice for a room reaches every session of the hub that is in the room and not excluded,
    each once, over the connection it has now, and nobody else; and where there is such a
    session, the hub is subscribed to the room. *)
Theorem ses_notices_reach h j r exclude :
  Reachable (h, j) ->
  (forall c sid, ENotice c sid ∈ deliver_room r exclude h
     <-> exists s, session sid h = Some s /\ in_room r (st s) = true /\ (user s ∉ exclude) /\ conn (st s) = Some c)
  /\ NoDup (omap (fun e => match e with ENotice _ sid => Some sid | _ => None end) (deliver_room r exclude h))
  /\ (deliver_room r exclude h <> [] -> is_Some (room_subs h !! r)).
Proof.
  intros H%reachable_books.
  assert (forall s, negb (existsb (String.eqb (user s)) exclude) = true <-> user s ∉ exclude) as Hex.
  { intros s. rewrite negb_true_iff, <- not_true_iff_false, existsb_exists, list_elem_of_In. split; [intros Hn Hi; apply Hn; exists (user s); by rewrite String.eqb_refl|].
    intros Hn (u & Hu & E). apply String.eqb_eq in E. by subst u. }
  assert (forall e, e ∈ deliver_room r exclude h <-> exists sid s, session sid h = Some s /\ in_room r (st s) = true /\ (user s ∉ exclude) /\ e = push_notice sid s) as Hd.
  { intros e. unfold deliver_room. rewrite list_elem_of_omap. split.
    - intros (sid & _ & He). destruct (session sid h) as [s|] eqn:Es; [|done]. destruct (_ && _) eqn:Eb; [|done]. injection He as <-. apply andb_true_iff in Eb as [Hr Hx]. exists sid, s. by rewrite <- Hex.
    - intros (sid & s & Es & Hr & Hx & ->). exists sid. split; [apply elem_of_elements; by eapply session_in|]. apply Hex in Hx. by rewrite Es, Hr, Hx. }
  split_and!.
  - intros c sid. rewrite Hd. unfold push_notice. split.
    + intros (x & s & Es & Hr & Hx & E). destruct (conn (st s)) eqn:Ec; [|done]. injection E as -> ->. by exists s.
    + intros (s & Es & Hr & Hx & Ec). exists sid, s. by rewrite Ec.
  - unfold deliver_room. generalize (NoDup_elements (by_sid h)). generalize (elements (by_sid h)) as l. intros l Hl.
    eapply sublist_NoDup; [exact Hl|]. induction l as [|sid l IH]; [done|]. apply NoDup_cons in Hl as [_ Hl]. cbn. destruct (session sid h) as [s|]; [|by constructor; apply IH].
    destruct (_ && _); [|by constructor; apply IH]. cbn. unfold push_notice. destruct (conn (st s)); constructor; by apply IH.
  - intros Hne. destruct (deliver_room r exclude h) as [|e l] eqn:El; [done|]. destruct (proj1 (Hd e) ltac:(set_solver)) as (sid & s & Es & Hr & _).
    rewrite (v_rooms _ h H r). assert (sid ∈ members r h) as Hm.
    { destruct (session_in _ _ _ Es) as [? E']. unfold members, here. by rewrite elem_of_filter, E'. }
    destruct (size (members r h)) eqn:Ez; [|eauto]. apply size_empty_inv in Ez. set_solver.
Qed.

(** ** How long a session lives *)

Lemma unregister_heap sid h : heap (unregister sid h) = heap h.
Proof.
  unfold unregister. case_bool_decide; [|done]. destruct (heap h !! sid) as [s|] eqn:E; [|done]. rewrite fold_subs. cbn. by destruct (bool_decide _).
Qed.

Lemma unregister_sids sid h : is_Some (heap h !! sid) -> by_sid (unregister sid h) = by_sid h ∖ {[sid]}.
Proof.
  intros [s Es]. unfold unregister. case_bool_decide; [|set_solver]. rewrite Es, fold_subs. cbn. by destruct (bool_decide _).
Qed.

Lemma dispose_session x sid h : session sid (dispose x h).1 = if decide (sid = x) then None else session sid h.
Proof.
  unfold dispose. destruct (heap h !! x) as [s|] eqn:Ex; cbn [fst].
  - unfold session. rewrite upd_lookup. change (by_sid (upd x disposed (unregister x h))) with (by_sid (unregister x h)). rewrite unregister_sids, !unregister_heap by eauto.
    case_decide as E; [subst x; by rewrite bool_decide_false by set_solver|]. repeat case_bool_decide; try done; exfalso; set_solver.
  - case_decide as E; [|done]. subst x. unfold session. by case_bool_decide.
Qed.

Lemma dispose_all_session l : forall x sid, session sid (fold_left (fun x sid => let (h, e) := dispose sid x.1 in (h, x.2 ++ e)) l x).1 = if decide (sid ∈ l) then None else session sid x.1.
Proof.
  induction l as [|y l IH]; intros x sid; cbn [fold_left]; [by rewrite decide_False by set_solver|]. rewrite IH. pose proof (dispose_session y sid x.1) as H. destruct (dispose y x.1) as [h1 e1]. cbn [fst] in *.
  rewrite H. repeat case_decide; try done; exfalso; set_solver.
Qed.

Lemma dispose_all_gone l : forall x sid s n, NoDup l -> sid ∈ l -> heap x.1 !! sid = Some s -> n ∈ touched (st s) ->
  EGone n sid ∈ (fold_left (fun x sid => let (h, e) := dispose sid x.1 in (h, x.2 ++ e)) l x).2.
Proof.
  assert (forall l x e, e ∈ x.2 -> e ∈ (fold_left (fun x sid => let (h, e) := dispose sid x.1 in (h, x.2 ++ e)) l x).2) as Hm.
  { induction l0 as [|y l0 IH]; intros x e He; [done|]. cbn [fold_left]. apply IH. destruct (dispose y x.1). cbn. set_solver. }
  induction l as [|y l IH]; intros x sid s n Hl Hin Es Hn; [set_solver|]. cbn [fold_left]. apply NoDup_cons in Hl as [Hy Hl].
  destruct (decide (sid = y)) as [->|Hne].
  - apply Hm. unfold dispose. rewrite Es. cbn. apply elem_of_app. right. apply list_elem_of_fmap. exists n. split; [done|by apply elem_of_elements].
  - apply IH with s; [done|set_solver| |done]. unfold dispose. destruct (heap x.1 !! y) as [s'|] eqn:Ey; cbn [fst]; [|done]. rewrite upd_lookup, decide_False, unregister_heap by done. done.
Qed.

(** C34: A session outlives its socket for the window and no longer: after the socket is lost, and
    not for a revocation or a shutdown, a sweep within the window leaves the session as it is,
    with its rooms, to be resumed; a sweep after the window ends it and tells every node the
    session has called. *)
Theorem ses_resume_window h j sid s c code t win now :
  Reachable (h, j) -> session sid h = Some s -> conn (st s) = Some c ->
  match code with Some x => num x <> 2009 /\ num x <> 5004 | None => True end ->
  let h1 := (socket_dropped sid c code t h).1 in
  (now < t + win -> exists s', session sid (sweep win now h1).1 = Some s' /\ servers (st s') = servers (st s) /\ user s' = user s)
  /\ (t + win <= now -> session sid (sweep win now h1).1 = None /\ forall n, n ∈ touched (st s) -> EGone n sid ∈ (sweep win now h1).2).
Proof.
  intros _ Es Ec Hcode. unfold socket_dropped. rewrite Es, bool_decide_true by done. set (f := fun x => mkSt false _ _ None (Some t) _ _ _).
  assert ((match code with Some c => num c | None => 0 end =? 2009) || (match code with Some c => num c | None => 0 end =? 5004) = false) as ->.
  { destruct code as [x|]; [|done]. destruct Hcode. apply orb_false_iff. rewrite !Z.eqb_neq. done. }
  cbn [fst]. set (h1 := upd sid f h). destruct (session_in _ _ _ Es) as [Hs Eh]. set (s1 := mkSes (user s) (f (st s))).
  assert (heap h1 !! sid = Some s1) as Eh1 by (subst h1; by rewrite upd_lookup, decide_True, Eh).
  assert (session sid h1 = Some s1) as Es1 by (unfold session; change (by_sid h1) with (by_sid h); by rewrite bool_decide_true).
  assert (is_due win now h1 sid = (t + win <=? now)) as Hdue by (unfold is_due; by rewrite Eh1).
  assert (sid ∈ List.filter (is_due win now h1) (elements (by_sid h1)) <-> t + win <= now) as Hin.
  { rewrite list_elem_of_In, filter_In, <- list_elem_of_In, elem_of_elements, Hdue. change (by_sid h1) with (by_sid h). split; [intros [_ ?]; lia|intros; split; [done|lia]]. }
  unfold sweep, dispose_all. split; intros Ht.
  - exists s1. rewrite dispose_all_session. cbn [fst]. rewrite decide_False by (rewrite Hin; lia). done.
  - rewrite dispose_all_session. cbn [fst]. rewrite decide_True by (by apply Hin). split; [done|]. intros n Hn.
    apply (dispose_all_gone _ (h1, []) sid s1 n); [|by apply Hin|done|done]. apply NoDup_ListNoDup, List.NoDup_filter, NoDup_ListNoDup, NoDup_elements.
Qed.

(** ** Overlaps *)

Definition login (c : nat) (fresh : string) (h : Hub) : Hub :=
  (bind (fun t => inr t) 0 [] None [] fresh c (Some (mkBind None (Some "ann") None)) h).1.

Definition one_session : Hub := touch "s1" "n" (login 1 "s1" hub0).

Lemma one_session_reachable : Reachable (one_session, []).
Proof.
  eapply rtc_l; [apply (h_bind (fun t => inr t) 0 [] None [] "s1" 1 (Some (mkBind None (Some "ann") None))); [set_solver|done]|]. eapply rtc_l; [apply (h_call "s1" "n")|]. apply rtc_refl.
Qed.

Definition in_one_room : Hub := join_end "s1" "r" "n" (Some ("e", {["r"]})) (join_begin "s1" "r" "n" one_session).

Lemma in_one_room_reachable : Reachable (in_one_room, []).
Proof.
  eapply rtc_r; [eapply rtc_r; [apply one_session_reachable|apply (h_join "s1" "r" "n")]|].
  apply (h_joined "s1" "r" "n" (Some ("e", {["r"]})) (join_begin "s1" "r" "n" one_session) [] []). intros sfu rs [= <- <-]. split; [apply (bool_decide_unpack _); vm_compute; exact I|].
  intros s n a Hs Hn Hne. vm_compute in Hs. injection Hs as <-. vm_compute in Hn. discriminate.
Qed.

Lemma ses_notices_reach_witness : deliver_room "r" [] in_one_room = [ENotice 1 "s1"] /\ is_Some (room_subs in_one_room !! "r").
Proof.
  split; [vm_compute; reflexivity|]. apply (ses_notices_reach in_one_room [] "r" [] in_one_room_reachable). vm_compute. discriminate.
Defined.

Lemma ses_resume_window_witness :
  session "s1" (sweep 60000 61000 (socket_dropped "s1" 1 None 1000 in_one_room).1).1 = None
  /\ EGone "n" "s1" ∈ (sweep 60000 61000 (socket_dropped "s1" 1 None 1000 in_one_room).1).2.
Proof.
  destruct (session "s1" in_one_room) as [s|] eqn:Es; [|vm_compute in Es; discriminate].
  assert (conn (st s) = Some 1%nat /\ "n" ∈ touched (st s)) as [Ec Ht].
  { vm_compute in Es. injection Es as <-. split; [reflexivity|]. apply (bool_decide_unpack _). vm_compute. exact I. }
  pose proof (ses_resume_window in_one_room [] "s1" s 1 None 1000 60000 61000 in_one_room_reachable Es Ec I) as [_ H].
  destruct (H ltac:(lia)) as [H1 H2]. split; [exact H1|apply H2; exact Ht].
Defined.

(** When the answer to a joining comes after its session was ended by a second login, the hub
    stays subscribed to the room for good, with nobody in it: nothing is left that would
    take the count down. *)
Theorem ses_join_race :
  let h1 := join_begin "s1" "r" "n" one_session in
  let h2 := login 2 "s2" h1 in
  let h3 := join_end "s1" "r" "n" (Some ("e", {["r"]})) h2 in
  let h4 := (client_leave "s2" h3).1 in
  Reachable (h2, ["r"]) /\ session "s1" h2 = None
  /\ by_sid h4 = ∅ /\ members "r" h4 = ∅ /\ room_subs h4 !! "r" = Some 1%nat.
Proof.
  intros h1 h2 h3 h4. split_and!; try (vm_compute; reflexivity).
  eapply rtc_r; [eapply rtc_r; [apply one_session_reachable|apply (h_join "s1" "r" "n")]|].
  apply (h_bind (fun t => inr t) 0 [] None [] "s2" 2 (Some (mkBind None (Some "ann") None))); [apply (bool_decide_unpack _); vm_compute; exact I|done].
Qed.

(** Two logins of one user that overlap both find no session to evict, and both register: the
    user has two live sessions, of which only the second is found under the user's name, so a
    notice for the user, or the cutting of the user, does not reach the first. *)
Theorem ses_login_race :
  let h1 := (evict_user "ann" (evict_user "ann" hub0).1).1 in
  let h2 := (bind_register 2 "ann" "s2" (bind_register 1 "ann" "s1" h1).1).1 in
  is_Some (session "s1" h2) /\ is_Some (session "s2" h2)
  /\ (deliver_user (fun _ => None) "ann" None h2).2 = [ENotice 2 "s2"] /\ is_Some (session "s1" (cut "ann" h2).1) /\ session "s2" (cut "ann" h2).1 = None.
Proof. split_and!; try (vm_compute; reflexivity); vm_compute; eexists; reflexivity. Qed.

End Ses.
