(* ===== verification/HubSesThm.v ===== *)
(** * The books of a hub under overlapping requests

    crates/oxhubd/src/ses/mod.rs again, with the requests of [HubSes] cut where the sources wait:
    a login evicts the user's session, asks the other hubs and only then registers the new
    one; a session is fetched from another hub and then registered; a node's answer to a
    request comes when it comes, also after the session has ended. What the books of the hub
    say is shown for every interleaving of these parts. *)

From S2P Require Import Prelude HubSes.

Module SesThm.
Import Ses.

(** ** Sums *)

Definition total (f : string -> nat) (x : gset string) : nat := sum_list (f <$> elements x).

Lemma total_ext f g x : (forall y, y ∈ x -> f y = g y) -> total f x = total g x.
Proof.
  intros H. unfold total. f_equal. assert (forall y, y ∈ elements x -> f y = g y) as H' by (intros y Hy; apply H; by apply elem_of_elements).
  revert H'. generalize (elements x) as l. induction l as [|y l IH]; intros Hl; [done|]. cbn. rewrite Hl by set_solver. f_equal. apply IH. set_solver.
Qed.

Lemma total_perm (f : string -> nat) l l' : l ≡ₚ l' -> sum_list (f <$> l) = sum_list (f <$> l').
Proof. induction 1; cbn; lia. Qed.

Lemma total_add f x y : y ∉ x -> total f ({[y]} ∪ x) = (f y + total f x)%nat.
Proof. intros Hy. unfold total. by rewrite (total_perm f _ _ (elements_union_singleton x y Hy)). Qed.

Lemma total_split f x y : y ∈ x -> total f x = (f y + total f (x ∖ {[y]}))%nat.
Proof.
  intros Hy. rewrite <- total_add by set_solver. f_equal. apply set_eq. intros z. destruct (decide (z = y)); set_solver.
Qed.

Lemma total_subset f x y : x ⊆ y -> (total f x <= total f y)%nat.
Proof.
  revert y. induction x as [|a x Ha IH] using set_ind_L; intros y Hs; [unfold total at 1; rewrite elements_empty; cbn; lia|].
  rewrite total_add by done. rewrite (total_split f y a) by set_solver. pose proof (IH (y ∖ {[a]}) ltac:(set_solver)). lia.
Qed.

Lemma total_zero f x : (forall y, y ∈ x -> f y = O) -> total f x = O.
Proof.
  induction x as [|a x Ha IH] using set_ind_L; intros H; [unfold total; by rewrite elements_empty|]. rewrite total_add, IH, H by set_solver. done.
Qed.

(** ** How often a room is on a list *)

Lemma joining_perm l l' r : l ≡ₚ l' -> joining l r = joining l' r.
Proof. intros H. unfold joining. by rewrite H. Qed.

Lemma joining_elements (a : gset string) r : joining (elements a) r = b2n (bool_decide (r ∈ a)).
Proof.
  assert (forall l, NoDup l -> joining l r = b2n (bool_decide (r ∈ l))) as H.
  { induction l as [|y l IH]; intros Hl; [by rewrite bool_decide_false by set_solver|]. apply NoDup_cons in Hl as [Hy Hl]. rewrite joining_cons, IH by done.
    repeat case_bool_decide; cbn; try lia; exfalso; set_solver. }
  rewrite H by apply NoDup_elements. f_equal. apply bool_decide_ext, elem_of_elements.
Qed.

Lemma Counts_add_list l : forall m f, Counts m f -> Counts (fold_left (fun m r => interest 1 r m) l m) (fun x => (f x + joining l x)%nat).
Proof.
  induction l as [|r l IH]; intros m f H; cbn [fold_left]; [eapply Counts_ext; [|exact H]; intros x; unfold joining; cbn; lia|].
  eapply Counts_ext; [|apply IH, Counts_up, H]. intros x. cbv beta. rewrite joining_cons. lia.
Qed.

Lemma Counts_sub_list l : forall m f, Counts m f -> Counts (fold_left (fun m r => interest (-1) r m) l m) (fun x => (f x - joining l x)%nat).
Proof.
  induction l as [|r l IH]; intros m f H; cbn [fold_left]; [eapply Counts_ext; [|exact H]; intros x; unfold joining; cbn; lia|].
  eapply Counts_ext; [|apply IH, Counts_down, H]. intros x. cbv beta. rewrite joining_cons. lia.
Qed.

Definition node_rooms (kv : string * gset string) : list string := elements kv.2.

Lemma rooms_cons kv l r : joining (mjoin (map node_rooms (kv :: l))) r = (joining (node_rooms kv) r + joining (mjoin (map node_rooms l)) r)%nat.
Proof. change (mjoin (map node_rooms (kv :: l))) with (node_rooms kv ++ mjoin (map node_rooms l)). by rewrite joining_app. Qed.

Lemma rooms_perm (l l' : list (string * gset string)) r : l ≡ₚ l' -> joining (mjoin (map node_rooms l)) r = joining (mjoin (map node_rooms l')) r.
Proof. induction 1; rewrite ?rooms_cons; lia. Qed.

(** Under how many nodes a session has a room. *)
Definition nodes_of (r : string) (x : SesState) : nat := joining (rooms x) r.

Lemma nodes_set r x m node rs : servers x = m -> forall y, servers y = <[node := rs]> m ->
  (nodes_of r y + b2n (bool_decide (r ∈ default ∅ (m !! node))) = nodes_of r x + b2n (bool_decide (r ∈ rs)))%nat.
Proof.
  intros Hx y Hy. unfold nodes_of, rooms. rewrite Hx, Hy. fold node_rooms. rewrite <- (insert_delete_eq m node rs).
  rewrite (rooms_perm _ _ r (map_to_list_insert (delete node m) node rs (lookup_delete_eq _ _))). rewrite rooms_cons. unfold node_rooms at 1. cbn [snd]. rewrite joining_elements.
  destruct (m !! node) as [a|] eqn:Ea; cbn [default].
  - rewrite <- (rooms_perm _ _ r (map_to_list_delete m node a Ea)). rewrite rooms_cons. unfold node_rooms at 2. cbn [snd]. rewrite joining_elements. unfold id. lia.
  - rewrite delete_id by done. unfold id. rewrite (bool_decide_false (r ∈ ∅)) by set_solver. cbn. lia.
Qed.

Lemma nodes_drop r z x y : servers y = (fun rs => rs ∖ {[r]}) <$> servers x -> nodes_of z y = if decide (z = r) then O else nodes_of z x.
Proof.
  intros Hy. unfold nodes_of, rooms. rewrite Hy. fold node_rooms. rewrite map_to_list_fmap.
  generalize (map_to_list (servers x)) as l. induction l as [|[n a] l IH]; [by case_decide|]. cbn [fmap list_fmap] in *. rewrite !rooms_cons, IH.
  change (node_rooms (n, a)) with (elements a). change (node_rooms (prod_map _ _ (n, a))) with (elements (a ∖ {[r]})). rewrite !joining_elements. case_decide as Ez; [subst z; by rewrite bool_decide_false by set_solver|]. do 2 f_equal. apply bool_decide_ext. set_solver.
Qed.

Lemma nodes_in_room r x : in_room r x = negb (nodes_of r x =? 0)%nat.
Proof.
  rewrite in_listing. change (listing (servers x)) with (rooms x). unfold nodes_of. induction (rooms x) as [|y l IH]; [by rewrite bool_decide_false by set_solver|].
  rewrite joining_cons. destruct (decide (r = y)) as [->|Hne]; [by rewrite !bool_decide_true by set_solver|]. rewrite (bool_decide_false (r = y)) by done. cbn [b2n Nat.add]. rewrite <- IH. apply bool_decide_ext. set_solver.
Qed.

Lemma nodes_empty r x : servers x = ∅ -> nodes_of r x = O.
Proof. intros H. unfold nodes_of, rooms. by rewrite H, map_to_list_empty. Qed.

(** ** What can happen *)

(** What the history of a hub has left: the joinings under way, the sessions that were handed to
    another hub, the rooms of an answer that came after its session had ended, or that a
    session had under two nodes when they were dropped, and the users a second session of whom
    was registered beside a first. *)
Record Past := mkPast { joins : list string; away : gset string; stray : gset string; twice : gset string }.

Definition past0 : Past := mkPast [] ∅ ∅ ∅.

Definition sessions_of (u : string) (h : Hub) : gset string := filter (fun sid => (user <$> heap h !! sid) = Some u) (by_sid h).

(** A session of user [u] comes. *)
Definition second (u sid : string) (h : Hub) (p : Past) : Past :=
  mkPast (joins p) (away p ∖ {[sid]}) (stray p) (if decide (sessions_of u h = ∅) then twice p else {[u]} ∪ twice p).

Definition late (sid : string) (rs : gset string) (h : Hub) (p : Past) : Past :=
  mkPast (joins p) (away p) (if decide (sid ∈ by_sid h) then stray p else rs ∪ stray p) (twice p).

(** A session of the hub has the room under two nodes. *)
Definition twofold (r : string) (h : Hub) : bool :=
  existsb (fun sid => match heap h !! sid with Some s => (1 <? nodes_of r (st s))%nat | None => false end) (elements (by_sid h)).

Inductive Step : Hub * Past -> Hub * Past -> Prop :=
  (* BIND with a token: [evict_user], the questions to the other hubs, [register] *)
  | s_evict u h p : Step (h, p) ((evict_user u h).1, p)
  | s_register c u sid h p : heap h !! sid = None -> Step (h, p) ((bind_register c u sid h).1, second u sid h p)
  (* BIND with a session id: [resume_session], the answer of the hub that had it, and the taking over *)
  | s_move_in sid d h p : sid ∉ by_sid h -> heap h !! sid = None \/ sid ∈ away p ->
      Step (h, p) (move_in sid d h, second (d_user d) sid h p)
  | s_take_over c sid h p : Step (h, p) ((take_over c sid h).1, p)
  | s_hand_over sid h p : Step (h, p) ((hand_over sid h).1.1, mkPast (joins p) (if decide (sid ∈ by_sid h) then {[sid]} ∪ away p else away p) (stray p) (twice p))
  (* the ends of a session *)
  | s_leave sid h p : Step (h, p) ((client_leave sid h).1, p)
  | s_dropped sid c code now h p : Step (h, p) ((socket_dropped sid c code now h).1, p)
  | s_sweep win now h p : Step (h, p) ((sweep win now h).1, p)
  | s_evict_sid sid h p : Step (h, p) ((evict_sid sid h).1, p)
  | s_cut u h p : Step (h, p) ((cut u h).1, p)
  (* the calls of the nodes and their answers, whether the session still is or not *)
  | s_call sid node h p : Step (h, p) (touch sid node h, p)
  | s_rooms sid node rs h p : sid ∉ away p -> Step (h, p) (set_rooms sid node rs h, late sid rs h p)
  | s_join sid room node h p : Step (h, p) (join_begin sid room node h, mkPast (room :: joins p) (away p) (stray p) (twice p))
  | s_joined sid room node answer h p j1 j2 : joins p = j1 ++ room :: j2 -> (is_Some answer -> sid ∉ away p) ->
      Step (h, p) (join_end sid room node answer h, let p' := match answer with Some a => late sid a.2 h p | None => p end in mkPast (j1 ++ j2) (away p') (stray p') (twice p'))
  | s_room_dropped r h p : Step (h, p) (room_dropped r h, mkPast (joins p) (away p) (if twofold r h then {[r]} ∪ stray p else stray p) (twice p)).

Definition Runs : Hub * Past -> Prop := rtc Step (hub0, past0).

(** ** The invariant *)

Definition occ (r : string) (h : Hub) (sid : string) : nat := match heap h !! sid with Some s => nodes_of r (st s) | None => O end.

(** The sessions whose rooms the hub has to answer for. *)
Definition kept (h : Hub) (p : Past) : gset string := dom (heap h) ∖ away p.

Definition sum (r : string) (h : Hub) (p : Past) : nat := total (occ r h) (kept h p).

Record Books (h : Hub) (p : Past) : Prop := {
  b_heap : by_sid h ⊆ dom (heap h);
  b_here : by_sid h ## away p;
  b_user : forall u sid, by_user h !! u = Some sid -> sid ∈ sessions_of u h;
  b_once : forall u sid, u ∉ twice p -> sid ∈ sessions_of u h -> by_user h !! u = Some sid;
  b_tokens : sess_tokens h = by_sid h;
  b_users : Counts (user_subs h) (fun u => size (sessions_of u h));
  b_rooms : exists extra, Counts (room_subs h) (fun r => (sum r h p + joining (joins p) r + extra r)%nat) /\ forall r, r ∉ stray p -> extra r = O;
  b_ended : forall r sid, r ∉ stray p -> sid ∉ by_sid h -> sid ∉ away p -> occ r h sid = O }.

Lemma books_start' : Books hub0 past0.
Proof.
  split; try done. by exists (fun _ => O).
Qed.

(** *** A change of one session *)

Lemma upd_dom sid f h : dom (heap (upd sid f h)) = dom (heap h).
Proof. unfold upd. cbn. apply dom_alter_L. Qed.

Lemma upd_occ r sid f h x : occ r (upd sid f h) x = if decide (x = sid) then match heap h !! sid with Some s => nodes_of r (f (st s)) | None => O end else occ r h x.
Proof. unfold occ. rewrite upd_lookup. case_decide; [|done]. by destruct (heap h !! sid). Qed.

Lemma upd_sessions u sid f h : sessions_of u (upd sid f h) = sessions_of u h.
Proof.
  unfold sessions_of. apply set_eq. intros x. rewrite !elem_of_filter, upd_lookup. change (by_sid (upd sid f h)) with (by_sid h). case_decide as E; [|done]. subst x. by destruct (heap h !! sid).
Qed.

Lemma sum_upd r sid f h p s : heap h !! sid = Some s -> sid ∉ away p -> (sum r (upd sid f h) p + nodes_of r (st s) = sum r h p + nodes_of r (f (st s)))%nat.
Proof.
  intros Es Ha. unfold sum, kept. rewrite upd_dom. assert (sid ∈ dom (heap h) ∖ away p) as Hk by (rewrite elem_of_difference, elem_of_dom, Es; eauto).
  rewrite !(total_split _ _ sid Hk), upd_occ, decide_True, Es by done. unfold occ at 2. rewrite Es.
  rewrite (total_ext (occ r (upd sid f h)) (occ r h)); [lia|]. intros y Hy. rewrite upd_occ, decide_False; [done|]. set_solver.
Qed.

Lemma sum_upd_away r sid f h p : sid ∈ away p \/ heap h !! sid = None -> sum r (upd sid f h) p = sum r h p.
Proof.
  intros Ha. unfold sum, kept. rewrite upd_dom. apply total_ext. intros y [Hd Hy]%elem_of_difference. rewrite upd_occ, decide_False; [done|]. intros ->.
  destruct Ha as [Ha|Ha]; [done|]. apply elem_of_dom in Hd as [? ?]. congruence.
Qed.

(** Another part of the books changes, the sessions of each user and the ends do not. *)
Lemma books_upd' sid f h p m p' : Books h p -> away p' = away p -> twice p' = twice p -> stray p ⊆ stray p' ->
  (exists extra, Counts m (fun r => (sum r (upd sid f h) p + joining (joins p') r + extra r)%nat) /\ forall r, r ∉ stray p' -> extra r = O) ->
  (forall r s, r ∉ stray p' -> sid ∉ by_sid h -> sid ∉ away p -> heap h !! sid = Some s -> nodes_of r (f (st s)) = O) ->
  Books (set_room_subs m (upd sid f h)) p'.
Proof.
  intros [A B C D E F G H] Ea Et Es Hm Hf. split; rewrite ?Ea, ?Et; try done.
  - change (by_sid h ⊆ dom (heap (upd sid f h))). by rewrite upd_dom.
  - intros u x Hx. change (x ∈ sessions_of u (upd sid f h)). rewrite upd_sessions. auto.
  - intros u x Hu Hx. change (x ∈ sessions_of u (upd sid f h)) in Hx. rewrite upd_sessions in Hx. by apply D.
  - eapply Counts_ext; [|exact F]. intros u. cbv beta. f_equal. symmetry. exact (upd_sessions u sid f h).
  - destruct Hm as (ex & Hm & Hx). exists ex. split; [|done]. eapply Counts_ext; [|exact Hm]. intros r. unfold sum, kept. by rewrite Ea.
  - intros r x Hr Hx Hxa. change (occ r (upd sid f h) x = O). rewrite upd_occ. case_decide as Ex; [|by apply H; set_solver].
    subst x. destruct (heap h !! sid) as [s|] eqn:Eh; [by apply Hf|done].
Qed.

Lemma books_upd_same sid f h p : Books h p -> (forall x, servers (f x) = servers x) \/ sid ∈ away p -> Books (upd sid f h) p.
Proof.
  intros H Hf. rewrite <- (set_room_subs_id (upd sid f h)). assert (forall r x, (forall x, servers (f x) = servers x) -> nodes_of r (f x) = nodes_of r x) as Hn by (intros r x E; unfold nodes_of, rooms; by rewrite E).
  apply (books_upd' sid f h p); try done.
  - destruct (b_rooms h p H) as (ex & Hm & Hx). exists ex. split; [|done]. eapply Counts_ext; [|exact Hm]. intros r. cbv beta. do 2 f_equal.
    destruct (decide (sid ∈ away p)) as [Ha|Ha]; [by rewrite sum_upd_away by (by left)|]. destruct Hf as [Hf|]; [|done].
    destruct (heap h !! sid) as [s|] eqn:Es; [|by rewrite sum_upd_away by (by right)]. pose proof (sum_upd r sid f h p s Es Ha) as Hs. rewrite Hn in Hs by done. lia.
  - intros r s Hr Hs Ha Es. destruct Hf as [Hf|]; [|done]. rewrite Hn by done. pose proof (b_ended h p H r sid Hr Hs Ha) as He. unfold occ in He. by rewrite Es in He.
Qed.

(** *** The rooms of a session *)

Lemma in_difference (a b : gset string) r : bool_decide (r ∈ a ∖ b) = bool_decide (r ∈ a) && negb (bool_decide (r ∈ b)).
Proof. rewrite <- (count_difference (fun _ => O) a b r). apply bool_decide_ext. by rewrite elem_of_elements. Qed.

Lemma late_books sid node rs h p : Books h p -> sid ∉ away p -> Books (set_rooms sid node rs h) (late sid rs h p).
Proof.
  intros H Ha. assert (stray p ⊆ stray (late sid rs h p)) as Hst by (unfold late; cbn; case_decide; set_solver).
  assert (Books h (late sid rs h p)) as Hl.
  { destruct H as [A B C D E F (ex & G1 & G2) I]. split; try done; [exists ex; split; [done|]|]; intros; [apply G2|apply I]; set_solver. }
  unfold set_rooms. destruct (heap h !! sid) as [s|] eqn:Es; [|done]. unfold sub_rooms, add_rooms. rewrite !fold_subs. cbn [set_room_subs room_subs].
  set (old := default ∅ (servers (st s) !! node)). set (f := fun x => mkSt _ _ _ _ _ (<[node := rs]> (servers x)) _ _).
  pose proof (fun r => nodes_set r (st s) _ node rs eq_refl (f (st s)) eq_refl) as Hn. fold old in Hn.
  apply (books_upd' sid f h p); try done.
  - destruct (b_rooms _ _ H) as (ex & Hm & Hx). exists ex. split; [|intros r Hr; apply Hx; set_solver].
    eapply Counts_ext; [|apply Counts_sub_list, Counts_add_list, Hm]. intros r. cbv beta. change (joins (late sid rs h p)) with (joins p). rewrite !joining_elements. specialize (Hn r). pose proof (sum_upd r sid f h p s Es Ha) as Hs.
    assert (nodes_of r (st s) <= sum r h p)%nat as Hle.
    { unfold sum. rewrite (total_split _ _ sid). { unfold occ at 1. rewrite Es. lia. } unfold kept. rewrite elem_of_difference, elem_of_dom, Es. eauto. }
    rewrite !in_difference. destruct (bool_decide (r ∈ rs)), (bool_decide (r ∈ old)); cbn in Hn |- *; lia.
  - intros r s' Hr Hb _ Es'. rewrite Es in Es'. injection Es' as <-. unfold late in Hr. cbn in Hr. rewrite decide_False in Hr by done.
    pose proof (b_ended _ _ H r sid ltac:(set_solver) Hb Ha) as Ho. unfold occ in Ho. rewrite Es in Ho. specialize (Hn r). rewrite (bool_decide_false (r ∈ rs)) in Hn by set_solver. cbn in Hn. lia.
Qed.

(** *** The end of a session *)

Definition put_away (sid : string) (p : Past) : Past := mkPast (joins p) ({[sid]} ∪ away p) (stray p) (twice p).

Lemma sum_away r sid h p s : heap h !! sid = Some s -> sid ∉ away p -> sum r h p = (nodes_of r (st s) + sum r h (put_away sid p))%nat.
Proof.
  intros Es Ha. unfold sum, kept. rewrite (total_split _ _ sid) by (rewrite elem_of_difference, elem_of_dom, Es; eauto). unfold occ at 1. rewrite Es.
  do 2 f_equal. apply set_eq. intros x. cbn. rewrite !elem_of_difference, elem_of_union, elem_of_singleton. tauto.
Qed.

Lemma unregister_eq sid h s : sid ∈ by_sid h -> heap h !! sid = Some s ->
  unregister sid h = mkHub (heap h) (by_sid h ∖ {[sid]}) (if bool_decide (by_user h !! user s = Some sid) then delete (user s) (by_user h) else by_user h)
    (fold_left (fun m r => interest (-1) r m) (rooms (st s)) (room_subs h)) (interest (-1) (user s) (user_subs h)) (sess_tokens h ∖ {[sid]}).
Proof. intros Hs Es. unfold unregister. rewrite bool_decide_true, Es, fold_subs by done. cbn. by destruct (bool_decide _). Qed.

(** Out of the books, and not to be answered for. *)
Lemma unregister_kept sid h p s : Books h p -> sid ∈ by_sid h -> heap h !! sid = Some s -> Books (unregister sid h) (put_away sid p).
Proof.
  intros [A B C D E F G H] Hs Es. rewrite (unregister_eq sid h s Hs Es). assert (sid ∉ away p) as Ha by set_solver.
  assert (forall u m v n t, sessions_of u (mkHub (heap h) (by_sid h ∖ {[sid]}) m v n t) = sessions_of u h ∖ {[sid]}) as Hu.
  { intros. unfold sessions_of. cbn. apply set_eq. intros x. rewrite elem_of_difference, !elem_of_filter, elem_of_difference. tauto. }
  assert (forall u x, x ∈ sessions_of u h -> x = sid -> u = user s) as Hsid by (intros u x Hx ->; apply elem_of_filter in Hx as [Hx _]; rewrite Es in Hx; cbn in Hx; congruence).
  split; cbn [by_sid by_user heap sess_tokens user_subs room_subs put_away away joins stray twice].
  - set_solver.
  - set_solver.
  - intros u x Hx. rewrite Hu. assert (by_user h !! u = Some x /\ x <> sid) as [Hb Hne].
    { case_bool_decide as Eb; [apply lookup_delete_Some in Hx as [Hne Hx]; split; [done|]; intros ->; apply Hne; symmetry; by apply (Hsid u sid (C u sid Hx))|].
      split; [done|]. intros ->. apply Eb. by rewrite <- (Hsid u sid (C u sid Hx) eq_refl). }
    pose proof (C u x Hb). set_solver.
  - intros u x Ht Hx. rewrite Hu in Hx. apply elem_of_difference in Hx as [Hx Hne]. pose proof (D u x Ht Hx) as Hb. case_bool_decide as Eb; [|done].
    rewrite lookup_delete_ne; [done|]. intros <-. rewrite Hb in Eb. set_solver.
  - by rewrite E.
  - eapply Counts_ext; [|apply Counts_down, F]. intros u. cbv beta. rewrite Hu. case_bool_decide as Eu.
    + subst u. assert (sid ∈ sessions_of (user s) h) as Hin by (apply elem_of_filter; by rewrite Es). rewrite size_difference by set_solver. by rewrite size_singleton.
    + replace (sessions_of u h ∖ {[sid]}) with (sessions_of u h); [cbn; lia|]. apply set_eq. intros x. rewrite elem_of_difference, elem_of_singleton. split; [|tauto]. intros Hx. split; [done|]. intros ->. apply Eu. by apply (Hsid u sid).
  - destruct G as (ex & G1 & G2). exists ex. split; [|done]. eapply Counts_ext; [|apply Counts_sub_list, G1]. intros r. cbv beta. rewrite (sum_away r sid h p s Es Ha). unfold nodes_of, sum, kept, occ. cbn. lia.
  - intros r x Hr Hx Hxa. apply H; set_solver.
Qed.

(** A session without rooms may be answered for again. *)
Lemma back_books sid h p s : Books h (put_away sid p) -> sid ∉ away p -> heap h !! sid = Some s -> servers (st s) = ∅ -> Books h p.
Proof.
  intros [A B C D E F (ex & G1 & G2) H] Ha Es Hs. assert (forall r, nodes_of r (st s) = O) as Hn by (intros r; by apply nodes_empty). split; try done.
  - cbn in B. set_solver.
  - exists ex. split; [|done]. eapply Counts_ext; [|exact G1]. intros r. cbv beta. by rewrite (sum_away r sid h p s Es Ha), Hn.
  - intros r x Hr Hx Hxa. destruct (decide (x = sid)) as [->|Hne]; [unfold occ; by rewrite Es, Hn|]. apply H; [done|done|]. cbn. set_solver.
Qed.

Lemma dispose_books sid h p : Books h p -> Books (dispose sid h).1 p.
Proof.
  intros H. unfold dispose. destruct (heap h !! sid) as [s|] eqn:Es; [|done]. cbn [fst]. destruct (decide (sid ∈ by_sid h)) as [Hs|Hs].
  - assert (sid ∉ away p) as Ha by (pose proof (b_here h p H); set_solver). eapply (back_books sid _ p (mkSes (user s) (disposed (st s)))); [|done| |done].
    + apply books_upd_same; [by eapply unregister_kept|]. right. cbn. set_solver.
    + rewrite upd_lookup, decide_True, unregister_heap, Es by done. done.
  - unfold unregister. rewrite bool_decide_false by done. destruct (decide (sid ∈ away p)) as [Ha|Ha]; [apply books_upd_same; [done|by right]|].
    rewrite <- (set_room_subs_id (upd sid disposed h)). apply (books_upd' sid disposed h p); try done.
    destruct (b_rooms h p H) as (ex & G1 & G2). exists (fun r => (ex r + nodes_of r (st s))%nat). split.
    + eapply Counts_ext; [|exact G1]. intros r. cbv beta. pose proof (sum_upd r sid disposed h p s Es Ha) as Hu. rewrite (nodes_empty r (disposed (st s))) in Hu by done. lia.
    + intros r Hr. rewrite (G2 r Hr). pose proof (b_ended h p H r sid Hr Hs Ha) as Ho. unfold occ in Ho. by rewrite Es in Ho.
Qed.

Lemma dispose_all_books l h p : Books h p -> Books (dispose_all l h).1 p.
Proof.
  unfold dispose_all. assert (forall x, Books x.1 p -> Books (fold_left (fun x sid => let (h, e) := dispose sid x.1 in (h, x.2 ++ e)) l x).1 p) as H; [|intros Hh; by apply (H (h, []))].
  induction l as [|sid l IH]; intros x Hx; [done|]. cbn [fold_left]. apply IH. pose proof (dispose_books sid x.1 p Hx). by destruct (dispose sid x.1).
Qed.

(** A session is found and ended, and its connection told. *)
Lemma dispose_told sid s c h p : Books h p -> Books (let (h, e) := dispose sid h in (h, leave_conn s c ++ e)).1 p.
Proof. intros H. pose proof (dispose_books sid h p H). by destruct (dispose sid h). Qed.

(** *** A new session *)

Lemma nat_opt_default n : default O (nat_opt n) = n.
Proof. by destruct n. Qed.

Lemma register_books sid s h p m : Books h p -> sid ∉ by_sid h -> heap h !! sid = None \/ sid ∈ away p ->
  Counts m (fun r => (default O (room_subs h !! r) + nodes_of r (st s))%nat) ->
  Books (set_room_subs m (register sid s h)) (second (user s) sid h p).
Proof.
  intros [A B C D E F G H] Hs Hh Hm. set (h' := set_room_subs m (register sid s h)).
  assert (forall u, sessions_of u h' = if decide (u = user s) then {[sid]} ∪ sessions_of u h else sessions_of u h) as Hu.
  { intros u. unfold sessions_of, h'. cbn. apply set_eq. intros x. rewrite elem_of_filter, elem_of_union, elem_of_singleton.
    destruct (decide (x = sid)) as [->|Hne]; [rewrite lookup_insert_eq; cbn; case_decide; rewrite ?elem_of_union, ?elem_of_singleton, elem_of_filter; naive_solver|].
    rewrite lookup_insert_ne by done. case_decide; rewrite ?elem_of_union, ?elem_of_singleton, !elem_of_filter; naive_solver. }
  assert (forall r, sum r h' (second (user s) sid h p) = (sum r h p + nodes_of r (st s))%nat) as Hsum.
  { intros r. unfold sum, kept, h'. cbn. rewrite dom_insert_L. assert (sid ∉ dom (heap h) ∖ away p) as Hk.
    { rewrite elem_of_difference, elem_of_dom. destruct Hh as [->|Hh]; [intros [[? ?] _]; done|tauto]. }
    replace (({[sid]} ∪ dom (heap h)) ∖ (away p ∖ {[sid]})) with ({[sid]} ∪ (dom (heap h) ∖ away p)).
    - rewrite total_add by done. unfold occ at 1. cbn. rewrite lookup_insert_eq, Nat.add_comm. f_equal. apply total_ext. intros y Hy. unfold occ. cbn. rewrite lookup_insert_ne; [done|]. set_solver.
    - apply set_eq. intros x. rewrite elem_of_union, !elem_of_difference, elem_of_union, !elem_of_singleton. destruct (decide (x = sid)); tauto. }
  split; cbn [by_sid by_user heap sess_tokens user_subs room_subs away joins stray].
  - unfold h'. cbn. rewrite dom_insert_L. set_solver.
  - unfold h'. cbn. set_solver.
  - intros u x. rewrite Hu. unfold h'. cbn. destruct (decide (u = user s)) as [->|Hne]; [rewrite lookup_insert_eq; intros [= <-]; set_solver|]. rewrite lookup_insert_ne by done. apply C.
  - intros u x Ht Hx. unfold h'. cbn. rewrite Hu in Hx. unfold second in Ht. cbn in Ht. destruct (decide (u = user s)) as [->|Hne].
    + rewrite lookup_insert_eq. destruct (decide (sessions_of (user s) h = ∅)) as [He|He]; [|set_solver]. rewrite He in Hx. set_solver.
    + rewrite lookup_insert_ne by done. apply D; [|done]. case_decide; set_solver.
  - unfold h'. cbn. by rewrite E.
  - unfold h'. cbn. eapply Counts_ext; [|apply Counts_up, F]. intros u. cbv beta. rewrite Hu. case_decide as Eu.
    + rewrite bool_decide_true by done. rewrite size_union; [rewrite size_singleton; cbn; lia|]. unfold sessions_of. set_solver.
    + rewrite bool_decide_false by done. cbn. lia.
  - destruct G as (ex & G1 & G2). exists ex. split; [|done]. eapply Counts_ext; [|exact Hm]. intros r. cbv beta. rewrite Hsum, (G1 r), nat_opt_default. cbn [joins second]. lia.
  - intros r x Hr Hx Hxa. unfold h' in *. cbn in Hx, Hxa. assert (x <> sid) as Hne by set_solver. unfold occ. cbn. rewrite lookup_insert_ne by done. apply (H r x); set_solver.
Qed.

(** *** The rooms that are dropped, the joinings *)

Definition more (x : gset string) (p : Past) : Past := mkPast (joins p) (away p) (x ∪ stray p) (twice p).

Lemma more_books x h p : Books h p -> Books h (more x p).
Proof. intros [A B C D E F (ex & G1 & G2) H]. split; try done; [exists ex; split; [done|]|]; cbn; intros; [apply G2|apply H]; set_solver. Qed.

Lemma occ_dropped r h sid z x : occ z (room_dropped_one r h sid) x = if decide (x = sid /\ z = r) then O else occ z h x.
Proof.
  unfold room_dropped_one. destruct (heap h !! sid) as [s|] eqn:Es; [|case_decide as E; [destruct E as [-> _]; unfold occ; by rewrite Es|done]]. set (f := fun x => mkSt _ _ _ _ _ (_ <$> servers x) _ _).
  assert (occ z (upd sid f h) x = if decide (x = sid /\ z = r) then O else occ z h x) as Ho.
  { rewrite upd_occ. destruct (decide (x = sid)) as [->|Hne]; [|by rewrite decide_False by tauto]. rewrite Es, (nodes_drop r z (st s) (f (st s)) eq_refl). unfold occ. rewrite Es. repeat case_decide; tauto. }
  by destruct (in_room r (st s)).
Qed.

Lemma room_dropped_one_books r h p sid : Books h p -> sid ∈ by_sid h -> ((1 < occ r h sid)%nat -> r ∈ stray p) -> Books (room_dropped_one r h sid) p.
Proof.
  intros H Hs Hr. unfold room_dropped_one. destruct (heap h !! sid) as [s|] eqn:Es; [|done]. set (f := fun x => mkSt _ _ _ _ _ (_ <$> servers x) _ _).
  assert (sid ∉ away p) as Ha by (pose proof (b_here h p H); set_solver). destruct (b_rooms h p H) as (ex & G1 & G2).
  assert (occ r h sid = nodes_of r (st s)) as Ho by (unfold occ; by rewrite Es). rewrite Ho in Hr. rewrite nodes_in_room.
  assert (forall z, (sum z (upd sid f h) p + nodes_of z (st s) = sum z h p + (if decide (z = r) then 0 else nodes_of z (st s)))%nat) as Hz.
  { intros z. rewrite (sum_upd z sid f h p s Es Ha). by rewrite (nodes_drop r z (st s) (f (st s)) eq_refl). }
  assert (forall m, (exists extra, Counts m (fun r => (sum r (upd sid f h) p + joining (joins p) r + extra r)%nat) /\ forall r, r ∉ stray p -> extra r = O) -> Books (set_room_subs m (upd sid f h)) p) as Hb.
  { intros m Hm. apply (books_upd' sid f h p); try done. }
  set (ex' := fun z => (ex z + (if decide (z = r) then nodes_of r (st s) - 1 else 0))%nat).
  assert (forall z, z ∉ stray p -> ex' z = O) as Hx.
  { intros z Hz'. subst ex'. cbv beta. rewrite (G2 z Hz'). case_decide as Ez; [|done]. subst z. destruct (decide (1 < nodes_of r (st s))%nat); [tauto|lia]. }
  destruct (Nat.eqb_spec (nodes_of r (st s)) 0) as [En|En]; cbn [negb].
  - rewrite <- (set_room_subs_id (upd sid f h)). apply Hb. exists ex'. split; [|done]. eapply Counts_ext; [|exact G1]. intros z. cbv beta. specialize (Hz z). subst ex'. cbv beta. case_decide; subst; lia.
  - apply Hb. exists ex'. split; [|done]. eapply Counts_ext; [|apply Counts_down, G1]. intros z. cbv beta. specialize (Hz z). subst ex'. cbv beta. case_decide as Ez; [rewrite bool_decide_true by done; subst|rewrite bool_decide_false by done]; cbn [b2n]; lia.
Qed.

Lemma room_dropped_books r h p : Books h p -> Books (room_dropped r h) (mkPast (joins p) (away p) (if twofold r h then {[r]} ∪ stray p else stray p) (twice p)).
Proof.
  intros H. set (p' := mkPast _ _ _ _). assert (Books h p') as H' by (subst p'; destruct (twofold r h); [exact (more_books {[r]} h p H)|destruct p; exact H]).
  assert (forall x, x ∈ by_sid h -> (1 < occ r h x)%nat -> r ∈ stray p') as Ht.
  { intros x Hx Ho. subst p'. cbn. assert (twofold r h = true) as ->; [|set_solver]. apply existsb_exists. exists x. split; [by apply list_elem_of_In, elem_of_elements|].
    unfold occ in Ho. destruct (heap h !! x); [by apply Nat.ltb_lt|lia]. }
  clearbody p'. unfold room_dropped. assert (forall l h, Books h p' -> (forall x, x ∈ l -> x ∈ by_sid h) -> (forall x, x ∈ by_sid h -> (1 < occ r h x)%nat -> r ∈ stray p') -> Books (fold_left (room_dropped_one r) l h) p') as Hf; [|apply Hf; [done|set_solver|done]].
  clear. induction l as [|sid l IH]; intros h Hh Hl Ho; [done|]. cbn [fold_left].
  assert (by_sid (room_dropped_one r h sid) = by_sid h) as Hb by (unfold room_dropped_one; destruct (heap h !! sid) as [s|]; [by destruct (in_room r (st s))|done]).
  apply IH; [apply room_dropped_one_books; [done|set_solver|apply Ho; set_solver]|rewrite Hb; set_solver|]. rewrite Hb. intros x Hx. rewrite occ_dropped. case_decide; [lia|by apply Ho].
Qed.

Lemma subs_books h p m j : Books h p -> (forall f, Counts (room_subs h) (fun r => (f r + joining (joins p) r)%nat) -> (forall r, (sum r h p <= f r)%nat) -> Counts m (fun r => (f r + joining j r)%nat)) ->
  Books (set_room_subs m h) (mkPast j (away p) (stray p) (twice p)).
Proof.
  intros [A B C D E F (ex & G1 & G2) H] Hm. split; try done. exists ex. split; [|done].
  assert (Counts m (fun r => (sum r h p + ex r + joining j r)%nat)) as Hc by (apply Hm; [eapply Counts_ext; [|exact G1]|]; intros r; cbv beta; lia).
  eapply Counts_ext; [|exact Hc]. intros r. change (sum r (set_room_subs m h) _) with (sum r h p). cbn [joins]. lia.
Qed.

Lemma join_begin_books sid room node h p : Books h p -> Books (join_begin sid room node h) (mkPast (room :: joins p) (away p) (stray p) (twice p)).
Proof.
  intros H. unfold join_begin, touch. apply books_upd_same; [|by left]. apply (subs_books h p); [done|]. intros f Hf _.
  eapply Counts_ext; [|apply Counts_up, Hf]. intros r. cbv beta. rewrite joining_cons. lia.
Qed.

Lemma join_done_books room h p j1 j2 : Books h p -> joins p = j1 ++ room :: j2 -> Books (interest_room room (-1) h) (mkPast (j1 ++ j2) (away p) (stray p) (twice p)).
Proof.
  intros H Hj. apply (subs_books h p); [done|]. intros f Hf _. rewrite Hj in Hf.
  eapply Counts_ext; [|apply Counts_down, Hf]. intros r. cbv beta. rewrite !joining_app, joining_cons. case_bool_decide; cbn; lia.
Qed.

(** *** Every step *)

Lemma step_books x y : Books x.1 x.2 -> Step x y -> Books y.1 y.2.
Proof.
  intros H. destruct 1 as [u h p|c u sid h p Hn|sid d h p Hs Hn|c sid h p|sid h p|sid h p|sid c code now h p|win now h p|sid h p|u h p|sid node h p|sid node rs h p Ha|sid room node h p|sid room node answer h p j1 j2 Hj Ha|r h p]; cbn [fst snd] in *.
  - unfold evict_user. destruct (session_of_user u h) as [[sid s]|]; [by apply dispose_told|done].
  - unfold bind_register. cbn [fst]. rewrite <- (set_room_subs_id (register _ _ h)).
    assert (sid ∉ by_sid h) as Hs by (intros Hs%(b_heap h p H); apply elem_of_dom in Hs as [? ?]; congruence).
    destruct (b_rooms h p H) as (ex & G1 & G2). apply (register_books sid (mkSes u (mkSt true false true (Some c) None ∅ ∅ ∅)) h p (room_subs h) H Hs (or_introl Hn)).
    intros r. rewrite (G1 r), nat_opt_default, (nodes_empty r) by done. by rewrite Nat.add_0_r.
  - destruct (b_rooms h p H) as (ex & G1 & G2). unfold move_in. rewrite add_rooms_subs. apply register_books; [done..|].
    eapply Counts_ext; [|apply Counts_add_list, G1]. intros r. cbv beta. by rewrite (G1 r), nat_opt_default.
  - unfold take_over. destruct (heap h !! sid); [|done]. apply books_upd_same; [done|by left].
  - unfold hand_over, session. case_decide as Hs; [|rewrite bool_decide_false by done; by destruct p]. rewrite bool_decide_true by done. destruct (heap h !! sid) as [s|] eqn:Es; [|by pose proof (b_heap h p H sid Hs) as [? ?]%elem_of_dom; congruence].
    cbn [fst]. eapply (unregister_kept sid _ p); [apply books_upd_same; [done|by left]|done|]. rewrite upd_lookup, decide_True, Es by done. done.
  - by apply dispose_books.
  - unfold socket_dropped. destruct (session sid h); [|done]. case_bool_decide; [|done]. destruct (_ || _); [by apply dispose_books|]. apply books_upd_same; [done|by left].
  - by apply dispose_all_books.
  - unfold evict_sid. destruct (session sid h); [by apply dispose_told|done].
  - unfold cut. destruct (session_of_user u h) as [[sid s]|]; [by apply dispose_told|done].
  - apply books_upd_same; [done|by left].
  - by apply late_books.
  - by apply join_begin_books.
  - unfold join_end. destruct answer as [[sfu rs]|]; [|by apply join_done_books]. cbn [snd]. eapply join_done_books; [|exact Hj].
    set (f := fun x => mkSt _ _ _ _ _ _ (<[node := sfu]> (epochs x)) _). change (late sid rs h p) with (late sid rs (upd sid f h) p). apply late_books; [apply books_upd_same; [done|by left]|by apply Ha].
  - by apply room_dropped_books.
Qed.

Lemma runs_books h p : Runs (h, p) -> Books h p.
Proof.
  intros Hr. assert (forall x y, rtc Step x y -> Books x.1 x.2 -> Books y.1 y.2) as H; [|exact (H _ _ Hr books_start')].
  induction 1 as [|x1 x2 x3 H _ IH]; [done|]. intros Hx. by eapply IH, step_books.
Qed.

(** How often a room is held: the sessions of the hub, each as often as it has nodes for the room. *)
Definition held (r : string) (h : Hub) : nat := total (occ r h) (by_sid h).

Lemma held_sum r h p : Books h p -> exists n, sum r h p = (held r h + n)%nat /\ (r ∉ stray p -> n = O).
Proof.
  intros H. assert (by_sid h ⊆ kept h p) as Hk by (unfold kept; pose proof (b_heap h p H); pose proof (b_here h p H); set_solver).
  exists (sum r h p - held r h)%nat. pose proof (total_subset (occ r h) _ _ Hk) as Hle. fold (held r h) in Hle. fold (sum r h p) in Hle. split; [lia|]. intros Hr.
  assert (forall x y : gset string, x ⊆ y -> (forall z, z ∈ y -> z ∉ x -> occ r h z = O) -> total (occ r h) y = total (occ r h) x) as Ht.
  { intros x. induction x as [|a x Ha IH] using set_ind_L; intros y Hs Hz; [rewrite (total_zero _ y) by set_solver; by rewrite total_zero by set_solver|].
    rewrite total_add by done. rewrite (total_split _ y a) by set_solver. f_equal. apply IH; [set_solver|]. intros z Hz1 Hz2. apply Hz; set_solver. }
  unfold sum, held. rewrite (Ht _ _ Hk); [lia|]. intros z Hz1 Hz2. apply (b_ended h p H); [done|done|]. unfold kept in Hz1. set_solver.
Qed.

(** C9: The books of a hub are right under every interleaving of its requests, where a login, a
    resumption, a joining and a leaving are cut at the calls of other hubs and nodes, and an
    answer may come after its session has ended. Whoever is found under a user's name is a
    session of that user here; and every session of a user is, unless two logins of the user
    overlapped or the session came from another hub beside one that was here ([twice]; then
    [ses_login_race]). The hub is subscribed to a user's notices with the number of the user's
    sessions as the count, so exactly while there is one. It is subscribed to a room's notices
    with at least as many counts as sessions hold the room and joinings of it are under way,
    so at least while there is one, and with exactly that count unless an answer that named
    the room came after the end of its session, or the room was dropped while a session had
    it under two nodes ([stray]; then [ses_join_race]). Assumed is that a new session's id is
    new, that a session that is fetched is not here already, and that no node's answer comes
    for a session after it was handed to another hub ([ses_hand_over_race]). *)
Theorem ses_books_exact h p :
  Runs (h, p) ->
  (forall u sid, by_user h !! u = Some sid -> exists s, session sid h = Some s /\ user s = u)
  /\ (forall u sid s, session sid h = Some s -> user s = u -> u ∉ twice p -> by_user h !! u = Some sid)
  /\ (forall u, user_subs h !! u = nat_opt (size (sessions_of u h)))
  /\ (forall r, exists n, room_subs h !! r = nat_opt (held r h + joining (joins p) r + n) /\ (r ∉ stray p -> n = O))
  /\ sess_tokens h = by_sid h.
Proof.
  intros H%runs_books. split_and!; [| |apply (b_users h p H)| |apply (b_tokens h p H)].
  - intros u sid Hu. apply (b_user h p H), elem_of_filter in Hu as [Hu Hs]. unfold session. rewrite bool_decide_true by done. destruct (heap h !! sid) as [s|]; [|done]. exists s. cbn in Hu. split; [done|congruence].
  - intros u sid s Es Hu Ht. apply session_in in Es as [Hs Es]. apply (b_once h p H); [done|]. apply elem_of_filter. rewrite Es. cbn. by rewrite Hu.
  - intros r. destruct (b_rooms h p H) as (ex & G1 & G2). destruct (held_sum r h p H) as (n & Hn & Hz). exists (n + ex r)%nat. split; [rewrite (G1 r), Hn; f_equal; lia|].
    intros Hr. by rewrite (G2 r Hr), (Hz Hr).
Qed.

(** *** Ann's second login overtakes the joining of her first session *)

Definition overtaken : Hub :=
  hub0 |> (fun h => (bind_register 1 "ann" "s1" h).1)
       |> join_begin "s1" "r" "n"
       |> (fun h => (evict_user "ann" h).1)
       |> (fun h => (bind_register 2 "ann" "s2" h).1)
       |> join_begin "s2" "q" "n"
       |> join_end "s1" "r" "n" (Some ("e", {["r"]}))
       |> join_end "s2" "q" "n" (Some ("e", {["q"]})).

Lemma overtaken_runs : Runs (overtaken, mkPast [] ∅ {["r"]} ∅).
Proof.
  unfold overtaken, Runs.
  eapply rtc_l; [apply (s_register 1 "ann" "s1"); reflexivity|]. eapply rtc_l; [apply (s_join "s1" "r" "n")|]. eapply rtc_l; [apply (s_evict "ann")|].
  eapply rtc_l; [apply (s_register 2 "ann" "s2"); vm_compute; reflexivity|]. eapply rtc_l; [apply (s_join "s2" "q" "n")|].
  eapply rtc_l; [apply (s_joined "s1" "r" "n" (Some ("e", {["r"]})) _ _ ["q"] []); [reflexivity|intros _; apply (bool_decide_unpack _); vm_compute; exact I]|].
  eapply rtc_l; [apply (s_joined "s2" "q" "n" (Some ("e", {["q"]})) _ _ [] []); [reflexivity|intros _; apply (bool_decide_unpack _); vm_compute; exact I]|].
  match goal with |- rtc Step ?x ?y => assert (x = y) as -> by (vm_compute; reflexivity) end. apply rtc_refl.
Qed.

(** She is found under her second session; room q is held once and counted once, room r is held
    by nobody and counted once. *)
Lemma ses_books_exact_witness :
  by_user overtaken !! "ann" = Some "s2" /\ user_subs overtaken !! "ann" = Some 1%nat
  /\ held "q" overtaken = 1%nat /\ room_subs overtaken !! "q" = Some 1%nat
  /\ held "r" overtaken = O /\ room_subs overtaken !! "r" = Some 1%nat.
Proof.
  destruct (ses_books_exact overtaken _ overtaken_runs) as (_ & H2 & H3 & H4 & _). split_and!.
  - assert (user <$> session "s2" overtaken = Some "ann") as Hu by (vm_compute; reflexivity). destruct (session "s2" overtaken) as [s|] eqn:Es; [|discriminate Hu].
    injection Hu as Hu. apply (H2 "ann" "s2" s Es Hu). apply not_elem_of_empty.
  - rewrite H3. vm_compute. reflexivity.
  - vm_compute. reflexivity.
  - destruct (H4 "q") as (n & -> & Hn). rewrite Hn by (apply (bool_decide_unpack _); vm_compute; exact I). vm_compute. reflexivity.
  - vm_compute. reflexivity.
  - vm_compute. reflexivity.
Defined.

(** A node's answer that comes after its session was handed to another hub takes the counts of
    the session's rooms down a second time, because [hand_over] leaves the rooms with the
    session it took out of the books: Ann's client moves to another hub while she leaves room
    r; the answer to the leaving then ends the subscription of the hub to room r, though Bob
    is in it. *)
Definition moved : Hub :=
  hub0 |> (fun h => (bind_register 1 "ann" "s1" h).1)
       |> (fun h => (bind_register 2 "bob" "s2" h).1)
       |> set_rooms "s1" "n" {["r"]}
       |> set_rooms "s2" "n" {["r"]}
       |> (fun h => (hand_over "s1" h).1.1).

Theorem ses_hand_over_race :
  let h' := leave_end "s1" "n" (Some ∅) moved in
  Runs (moved, mkPast [] {["s1"]} ∅ ∅)
  /\ held "r" h' = 1%nat /\ deliver_room "r" [] h' = [ENotice 2 "s2"] /\ room_subs moved !! "r" = Some 1%nat /\ room_subs h' !! "r" = None.
Proof.
  intros h'. split; [|split_and!; vm_compute; reflexivity]. unfold Runs.
  eapply rtc_l; [apply (s_register 1 "ann" "s1"); reflexivity|]. eapply rtc_l; [apply (s_register 2 "bob" "s2"); vm_compute; reflexivity|].
  eapply rtc_l; [apply (s_rooms "s1" "n" {["r"]}); apply (bool_decide_unpack _); vm_compute; exact I|].
  eapply rtc_l; [apply (s_rooms "s2" "n" {["r"]}); apply (bool_decide_unpack _); vm_compute; exact I|].
  eapply rtc_l; [apply (s_hand_over "s1")|]. match goal with |- rtc Step ?x ?y => assert (x = y) as -> by (vm_compute; reflexivity) end. apply rtc_refl.
Qed.

End SesThm.
