(* ===== verification/HubToken.v ===== *)
(** * The tokens of a hub

    crates/oxhubd/src/ses/token.rs: issuing the token a client binds with, from an account's
    secret, and checking it; the tokens of operators. Signing and checking of JSON web tokens
    (HS256) come from another crate: [Jwt] says what is relied on. Metadata is JSON of any kind,
    of which only the length matters here. *)

From S2P Require Import Prelude Keyexpr Keyspace Room.

Module Token.
Import Keys.

Inductive Code := TokenInvalid | TokenExpired | InvalidApiKey | InvalidPayload (field : string) | ClaimNotAllowed (field : string) | NotAuthorized.

Inductive Decoded (C : Type) := Good (c : C) | Expired | Bad.
Arguments Good {C} c. Arguments Expired {C}. Arguments Bad {C}.

(** Web tokens with claims [C]: checked with the secret they were signed with a token gives its
    claims back, until it is past its time; with any other secret it is refused. *)
Class Jwt (C T : Type) := {
  exp_of : C -> Z;
  encode : string -> C -> T;
  decode : string -> Z -> T -> Decoded C;
  decode_right : forall s c now, decode s now (encode s c) = if exp_of c <? now then Expired else Good c;
  decode_wrong : forall s s' c now, s <> s' -> decode s' now (encode s c) = Bad }.

Section Accounts.
Context {J T : Type} (json_len : J -> Z).

Record ApiKey := mkKey { key : string; secret : string; participant_types : list Z; hidden_allowed : bool; ops_allowed : bool }.
Record Accounts := mkAccounts { keys : list ApiKey; jwt_secret : option string }.

Record UserClaims := mkUser {
  sub : option string; c_user_id : option string; participant_type : Z; hidden : bool; metadata : option J; permission : option Room.Permission; iat : Z; exp : Z }.

Record OpsClaims := mkOps { iss : string; ops : bool; o_iat : Z; o_exp : Z }.

Record TokenReq := mkReq {
  api_key : string; api_secret : string; user_id : string; r_participant_type : option Z; r_hidden : option bool; r_metadata : option J; r_permission : option Room.Permission }.

Record Identity := mkIdentity { i_user : string; i_type : Z; i_hidden : bool; i_metadata : option J; i_permission : option Room.Permission }.

Context {JU : Jwt UserClaims T} (exp_is : forall c : UserClaims, exp_of c = exp c).

Definition find (a : Accounts) (k : string) : option ApiKey := List.find (fun x => String.eqb (key x) k) (keys a).

(** [now] in seconds. *)
Definition issue (a : Accounts) (req : TokenReq) (ttl max now : Z) : Code + T :=
  let! acc := (let? x := find a (api_key req) in if String.eqb (secret x) (api_secret req) then Some x else None) else inl InvalidApiKey in
  if negb (valid_piece (user_id req)) then inl (InvalidPayload "user_id")
  else
    let pt := default 0 (r_participant_type req) in
    if 2 <? pt then inl (InvalidPayload "participant_type")
    else if negb (bool_decide (pt ∈ participant_types acc)) then inl (ClaimNotAllowed "participant_type")
    else
      let hid := default false (r_hidden req) in
      if hid && negb (hidden_allowed acc) then inl (ClaimNotAllowed "hidden")
      else if match r_metadata req with Some m => (0 <? max) && (max <? u32 (json_len m)) | None => false end then inl (InvalidPayload "metadata")
      else inr (encode (secret acc) (mkUser (Some (user_id req)) None pt hid (r_metadata req) (r_permission req) now (now + ttl))).

Definition secrets (a : Accounts) : list string := map secret (keys a) ++ match jwt_secret a with Some s => [s] | None => [] end.

Definition identity_of (c : UserClaims) : Code + Identity :=
  match (match sub c with Some u => Some u | None => c_user_id c end) with
  | Some u => if valid_piece u then inr (mkIdentity u (participant_type c) (hidden c) (metadata c) (permission c)) else inl TokenInvalid
  | None => inl TokenInvalid
  end.

Fixpoint verify_loop (ss : list string) (expired : bool) (t : T) (now : Z) : Code + Identity :=
  match ss with
  | [] => inl (if expired then TokenExpired else TokenInvalid)
  | s :: ss =>
    match (decode s now t : Decoded UserClaims) with
    | Good c => identity_of c
    | Expired => verify_loop ss true t now
    | Bad => verify_loop ss expired t now
    end
  end.

Definition verify_user (a : Accounts) (t : T) (now : Z) : Code + Identity := verify_loop (secrets a) false t now.

(** ** Tokens that were issued *)

Lemma verify_right s c ss : forall e now, s ∈ ss ->
  verify_loop ss e (encode s c) now = if exp c <? now then inl TokenExpired else identity_of c.
Proof.
  induction ss as [|x ss IH]; intros e now Hin; [set_solver|]. cbn [verify_loop]. destruct (decide (x = s)) as [->|Hne].
  - rewrite decode_right, exp_is. destruct (exp c <? now) eqn:E; [|done]. clear IH Hin. induction ss as [|y ss IH]; [done|]. cbn [verify_loop]. destruct (decide (y = s)) as [->|Hy].
    + by rewrite decode_right, exp_is, E.
    + by rewrite decode_wrong.
  - rewrite decode_wrong by done. apply IH. set_solver.
Qed.

Lemma find_in a k x : find a k = Some x -> x ∈ keys a /\ key x = k.
Proof. unfold find. intros [Hx Hk]%find_some. apply String.eqb_eq in Hk. by rewrite list_elem_of_In. Qed.

Lemma issue_account a req ttl max now t : issue a req ttl max now = inr t -> exists acc, acc ∈ keys a /\ key acc = api_key req /\ secret acc = api_secret req.
Proof.
  unfold issue. destruct (find a (api_key req)) as [acc|] eqn:Ef; [|done]. destruct (String.eqb_spec (secret acc) (api_secret req)) as [Es|]; [|done].
  intros _. exists acc. by destruct (find_in _ _ _ Ef).
Qed.

(** C35: A token a hub issues is worth what the account may give, and as long as it says: every hub
    with the same accounts takes it, to the last second of its time, for the user that was
    asked for with the type, visibility, metadata and permissions that were asked for, and
    afterwards says that it is expired; and the account is the one of the key and the
    secret of the request, may give that type, and hidden only where it is allowed to. *)
Theorem token_honoured a req ttl max now t later :
  issue a req ttl max now = inr t ->
  verify_user a t later =
    (if now + ttl <? later then inl TokenExpired
     else inr (mkIdentity (user_id req) (default 0 (r_participant_type req)) (default false (r_hidden req)) (r_metadata req) (r_permission req)))
  /\ exists acc, acc ∈ keys a /\ key acc = api_key req /\ secret acc = api_secret req /\ default 0 (r_participant_type req) ∈ participant_types acc /\ (default false (r_hidden req) = true -> hidden_allowed acc = true).
Proof.
  unfold issue. destruct (find a (api_key req)) as [acc|] eqn:Ef; [|done]. destruct (String.eqb_spec (secret acc) (api_secret req)) as [Es|]; [|done].
  apply find_in in Ef as [Hacc Hkey]. destruct (valid_piece (user_id req)) eqn:Ev; [|done]. cbn [negb]. destruct (2 <? _); [done|]. case_bool_decide as Ept; [|done]. cbn [negb].
  destruct (_ && negb (hidden_allowed acc)) eqn:Eh; [done|]. destruct (match r_metadata req with Some m => _ | None => false end); [done|]. intros [= <-]. split.
  - unfold verify_user. rewrite verify_right by (apply elem_of_app; left; by apply list_elem_of_fmap_2). cbn. unfold identity_of. cbn. by rewrite Ev.
  - exists acc. split_and!; try done. intros Hh. rewrite Hh in Eh. cbn in Eh. by apply negb_false_iff in Eh.
Qed.

(** ** Operators *)

Context {JO : Jwt OpsClaims T} (ops_exp_is : forall c : OpsClaims, exp_of c = o_exp c).
(** Reading the claims of an operator's token without checking it. *)
Context (peek : T -> option OpsClaims).

Definition sign_ops (a : Accounts) (k : string) (ttl now : Z) : option T :=
  let? acc := find a k in Some (encode (secret acc) (mkOps k true now (now + ttl))).

Definition verify_ops (a : Accounts) (t : T) (now : Z) : Code + string :=
  let! c := peek t else inl TokenInvalid in
  let! acc := find a (iss c) else inl InvalidApiKey in
  match (decode (secret acc) now t : Decoded OpsClaims) with
  | Good d => if negb (ops d) || negb (ops_allowed acc) then inl NotAuthorized else inr (iss c)
  | Expired => inl TokenExpired
  | Bad => inl TokenInvalid
  end.

(** An operator's token works until its time is over, for accounts that may operate. *)
Lemma ops_honoured a k ttl now t later acc : (forall s c, peek (encode s c) = Some c) -> find a k = Some acc -> sign_ops a k ttl now = Some t ->
  verify_ops a t later = if now + ttl <? later then inl TokenExpired else if ops_allowed acc then inr k else inl NotAuthorized.
Proof.
  intros Hp Hf. unfold sign_ops. rewrite Hf. intros [= <-]. unfold verify_ops. rewrite Hp. cbn [iss]. rewrite Hf, decode_right, ops_exp_is. cbn. destruct (_ <? _); [done|]. by destruct (ops_allowed acc).
Qed.

End Accounts.

(** Tokens that show their secret fulfil [Jwt]. *)
Definition open_decode {C} (ex : C -> Z) (s : string) (now : Z) (t : string * C) : Decoded C :=
  if String.eqb t.1 s then if ex t.2 <? now then Expired else Good t.2 else Bad.

Definition open_jwt {C} (ex : C -> Z) : Jwt C (string * C).
Proof.
  refine {| exp_of := ex; encode := pair; decode := open_decode ex |}.
  - intros s c now. unfold open_decode. cbn. by rewrite String.eqb_refl.
  - intros s s' c now Hne. unfold open_decode. cbn. apply String.eqb_neq in Hne. by rewrite Hne.
Defined.

#[export] Instance open_user : Jwt (UserClaims (J := string)) (string * UserClaims (J := string)) := open_jwt exp.

Definition one_account : Accounts := mkAccounts [mkKey "k" "s" [0; 1] false true] None.
Definition ann_req : TokenReq (J := string) := mkReq "k" "s" "u1" (Some 1) None None None.

Lemma token_honoured_witness :
  exists t, issue (fun m => Z.of_nat (String.length m)) one_account ann_req 60 2048 1000 = inr t
  /\ verify_user one_account t 1060 = inr (mkIdentity "u1" 1 false None None) /\ verify_user one_account t 1061 = inl TokenExpired.
Proof.
  exists ("s", mkUser (Some "u1") None 1 false None None 1000 1060). split; [vm_compute; reflexivity|].
  split; [apply (token_honoured (JU := open_user) (fun m => Z.of_nat (String.length m)) (fun c => eq_refl) one_account ann_req 60 2048 1000 _ 1060)|apply (token_honoured (JU := open_user) (fun m => Z.of_nat (String.length m)) (fun c => eq_refl) one_account ann_req 60 2048 1000 _ 1061)]; vm_compute; reflexivity.
Defined.

End Token.
