(* ===== verification/HubSup.v ===== *)
(** * The supervisor of a hub

    crates/oxhubd/src/ops/supervisor.rs: the units of a node (the log, the bus, the SFU
    processes), the loop that starts an SFU unit, waits for its hello, watches it, restarts it
    after a while and gives up on it when it restarts too often, and the requests of the
    administrator to load, stop or kill a unit.

    The loop of a unit is a task: [pc] is the place it waits at, and [resume] takes it from
    there to the next place, with what the outside answered as the event. Instants are in
    milliseconds. The receiving end of the queue never sees it closed, because the task holds
    the sending end too. A line of the log is written when the state changes. *)

From S2P Require Import Prelude.

Module Sup.

Inductive UnitState := Disabled | Inactive | Starting | Running | Stopping | Stopped | Down | Blocked.
#[export] Instance UnitState_eq_dec : EqDecision UnitState.
Proof. solve_decision. Defined.

Inductive Role := RLog | RBus | RSfu.
#[export] Instance Role_eq_dec : EqDecision Role.
Proof. solve_decision. Defined.

Inductive UnitKind := Process | Remote | Inproc.

Inductive Cmd := Load | Stop | Kill.

Inductive Outcome := Exited | Killed | OStopped.

(** The answers of a request. *)
Inductive Refusal := NotRunning | IsDown | AlreadyRunning | LoopGone | NoAnswer | InprocUnit | NoUnit.
Definition Answer : Type := (UnitState * UnitState) + Refusal.

(** A unit of the system file. *)
Record Cfg := mkCfg { id : string; kind : UnitKind; order : Z; role : string; enabled : bool; cmd : list string }.

Record SupCfg := mkSup { backoff_ms : list Z; intensity_max : Z; intensity_window : Z }.

Record UnitRec := mkRec {
  state : UnitState; restarts : Z; next_retry_at : option Z; epoch : option string; build : option string; attempts : list Z }.

(** Where a task waits: not started; for a request; for the end of the pause or a request; for
    the port; for the hello; for the end of a child that gave none; for the node token; for
    the end of the child or a request; for the end of a child told to stop, or killed, by the
    request of that number. [Fin]: it has returned. *)
Inductive Pc := New | Idle | Pause | Port | Hello (child : bool) | Reap | Decl (child : bool) | Up (child : bool) | Term (req : nat) (from : UnitState) | Slay (req : nat) | Fin.

Record Task := mkTask {
  cfg : Cfg; urole : Role; rec : UnitRec; pc : Pc; counted : bool; first : bool; queue : list (nat * Cmd) }.

Record Sup := mkWorld { tasks : list Task; stopping : bool; node_declared : bool; local : option (string * string) }.

(** What is seen from outside; [Spawn] has whether the process could be made, [Gone] is the end
    of a process, seen by the task, [Asked] a request made. *)
Inductive Out :=
  | Line (from to : UnitState)
  | Spawn (ok : bool)
  | Gone
  | Ack (req : nat) (a : Answer)
  | KillChild
  | TermChild
  | DeclareNode
  | Fatal
  | Asked (req : nat).

Definition upd_rec (f : UnitRec -> UnitRec) (t : Task) : Task :=
  mkTask (cfg t) (urole t) (f (rec t)) (pc t) (counted t) (first t) (queue t).
Definition at_pc (p : Pc) (t : Task) : Task := mkTask (cfg t) (urole t) (rec t) p (counted t) (first t) (queue t).
Definition set_counted (b : bool) (t : Task) : Task := mkTask (cfg t) (urole t) (rec t) (pc t) b (first t) (queue t).
Definition set_first (b : bool) (t : Task) : Task := mkTask (cfg t) (urole t) (rec t) (pc t) (counted t) b (queue t).
Definition set_queue (q : list (nat * Cmd)) (t : Task) : Task := mkTask (cfg t) (urole t) (rec t) (pc t) (counted t) (first t) q.
Definition set_attempts (l : list Z) (r : UnitRec) : UnitRec := mkRec (state r) (restarts r) (next_retry_at r) (epoch r) (build r) l.
Definition set_epoch (e : option string) (r : UnitRec) : UnitRec := mkRec (state r) (restarts r) (next_retry_at r) e (build r) (attempts r).

Definition ustate (t : Task) : UnitState := state (rec t).

(** ** The record of a unit *)

Definition set_rec (to : UnitState) (r : UnitRec) : UnitRec :=
  mkRec to (restarts r) (if decide (to = Down) then next_retry_at r else None) (epoch r) (build r) (attempts r).

Definition line (from to : UnitState) : list Out := if decide (from = to) then [] else [Line from to].

Definition set (to : UnitState) (t : Task) : Task * list Out := (upd_rec (set_rec to) t, line (ustate t) to).

Definition backoff (c : SupCfg) (n : Z) : Z :=
  let b := backoff_ms c in
  let i := Z.min n (sat_sub (len b) 1) in
  match b !! Z.to_nat i with Some x => x | None => 1000 end.

Fixpoint drop_old (w now : Z) (l : list Z) : list Z :=
  match l with
  | f :: l' => if w <? sat_sub now f then drop_old w now l' else l
  | [] => []
  end.

Definition note_attempt (c : SupCfg) (now : Z) (counted : bool) (r : UnitRec) : UnitRec * bool :=
  if counted then
    let l := drop_old (intensity_window c) now (attempts r ++ [now]) in
    (set_attempts l r, intensity_max c <? u32 (len l))
  else (r, false).

Definition go_down (c : SupCfg) (now : Z) (t : Task) : Task * list Out :=
  let b := backoff c (restarts (rec t)) in
  let t := t |> upd_rec (fun r => mkRec (state r) (u32 (restarts r + 1)) (next_retry_at r) (epoch r) (build r) (attempts r)) in
  let (t, o) := set Down t in
  (t |> upd_rec (fun r => mkRec (state r) (restarts r) (Some (now + b)) (epoch r) (build r) (attempts r)), o).

(** ** The loop *)

(** The task returns, and with it go the requests nobody answered. *)
Definition finish (t : Task) : Task * list Out := (t |> at_pc Fin |> set_queue [], map (fun q => Ack q.1 (inr NoAnswer)) (queue t)).

(** The top of the loop, for a unit that is not to start at once. *)
Definition park (stopping : bool) (t : Task) : Task * list Out :=
  if stopping then finish t
  else (t |> at_pc (if decide (ustate t = Down) then Pause else Idle), []).

Definition then_park (stopping : bool) (x : Task * list Out) : Task * list Out :=
  let (t, o) := x in let (t, o') := park stopping t in (t, o ++ o').

Definition has_process (t : Task) : bool := match kind (cfg t) with Process => true | _ => false end.

(** From the count of the attempt to the wait for the hello; [spawns] says whether the system
    makes the process. *)
Definition launch (c : SupCfg) (stopping spawns : bool) (now : Z) (t : Task) : Task * list Out :=
  let (r, blocked) := note_attempt c now (counted t) (rec t) in
  let t := t |> upd_rec (fun _ => r) |> set_counted true in
  if blocked then set Blocked t |> then_park stopping
  else if has_process t then
    let ok := match cmd (cfg t) with [] => false | _ => spawns end in
    let made := match cmd (cfg t) with [] => [] | _ => [Spawn spawns] end in
    if ok then (t |> at_pc (Hello true), made)
    else let (t, o) := go_down c now t |> then_park stopping in (t, made ++ o)
  else (t |> at_pc (Hello false), []).

Definition attempt (c : SupCfg) (stopping spawns : bool) (now : Z) (t : Task) : Task * list Out :=
  if first t then (t |> at_pc Port, []) else launch c stopping spawns now t.

Definition then_attempt (c : SupCfg) (stopping spawns : bool) (now : Z) (x : Task * list Out) : Task * list Out :=
  let (t, o) := x in let (t, o') := attempt c stopping spawns now t in (t, o ++ o').

(** The top of the loop. *)
Definition top (c : SupCfg) (stopping spawns : bool) (now : Z) (t : Task) : Task * list Out :=
  match ustate t with
  | Stopped | Blocked | Disabled | Down => park stopping t
  | _ => if stopping then finish t else set Starting t |> then_attempt c stopping spawns now
  end.

(** What the outside answers; every event has its instant and whether a process can be made. *)
Inductive Ev :=
  | EStart
  | ERecv
  | ESleep
  | EPort
  | EHello (answer : option (string * string))
  | EGone
  | EDeclared.

(** The end of [supervise], and what the loop does then. *)
Definition outcome (c : SupCfg) (stopping spawns : bool) (now : Z) (o : Outcome) (t : Task) : Task * list Out :=
  let t := t |> upd_rec (set_epoch None) in
  match o with
  | Exited | Killed =>
    if stopping then let (t, l) := set Stopped t in let (t, l') := finish t in (t, l ++ l')
    else go_down c now t |> then_park stopping
  | OStopped => top c stopping spawns now t
  end.

(** A request taken from the queue. The flag says that the local link goes. *)
Definition serve (c : SupCfg) (stopping spawns : bool) (now : Z) (n : nat) (x : Cmd) (t : Task) : Task * list Out * bool :=
  match pc t, x with
  | Idle, Load => let from := ustate t in let (t, o) := set Starting t in
                  let (t, o) := (t |> set_counted false, o ++ [Ack n (inl (from, Starting))]) |> then_attempt c stopping spawns now in (t, o, false)
  | Idle, Stop | Pause, Stop => let from := ustate t in let (t, o) := set Stopped t in
                 let (t, o) := (t, o ++ [Ack n (inl (from, Stopped))]) |> then_park stopping in (t, o, false)
  | Idle, Kill | Pause, Kill => let (t, o) := (t, [Ack n (inr NotRunning)]) |> then_park stopping in (t, o, false)
  | Pause, Load => let (t, o) := (t, [Ack n (inr IsDown)]) |> then_park stopping in (t, o, false)
  | Up _, Load => (t, [Ack n (inr AlreadyRunning)], false)
  | Up true, Stop => let from := ustate t in let (t, o) := set Stopping t in (t |> at_pc (Term n from), o ++ [TermChild], false)
  | Up false, Stop => let from := ustate t in let (t, o) := set Stopped t in
                      let (t, o') := outcome c stopping spawns now OStopped t in (t, o ++ [Ack n (inl (from, Stopped))] ++ o', true)
  | Up true, Kill => (t |> at_pc (Slay n), [KillChild], false)
  | Up false, Kill => let (t, o) := outcome c stopping spawns now Killed t in (t, Ack n (inl (Running, Down)) :: o, true)
  | _, _ => (t, [], false)
  end.

(** The hello came: the epoch and the build the SFU told. *)
Definition became_running (declared child : bool) (e b : string) (t : Task) : Task * list Out :=
  let t := t |> upd_rec (fun r => mkRec (state r) (restarts r) (next_retry_at r) (Some e) (Some b) (attempts r)) in
  let (t, o) := set Running t in
  if declared then (t |> at_pc (Up child), o) else (t |> at_pc (Decl child), o ++ [DeclareNode]).

(** One task from one wait to the next. The last component is what becomes of the local link:
    [None] when it stays. An event that the task does not wait for does nothing. *)
Definition resume (c : SupCfg) (stopping declared spawns : bool) (now : Z) (e : Ev) (t : Task)
  : Task * list Out * option (option (string * string)) :=
  match pc t, e with
  | New, EStart => if decide (ustate t = Disabled) then (t, [], None)
                   else let (t, o) := top c stopping spawns now t in (t, o, None)
  | Idle, ERecv | Pause, ERecv | Up _, ERecv =>
    match queue t with
    | (n, x) :: q => let '(t, o, gone) := serve c stopping spawns now n x (t |> set_queue q) in (t, o, if gone then Some None else None)
    | [] => (t, [], None)
    end
  | Pause, ESleep =>
    if match next_retry_at (rec t) with Some r => r <=? now | None => true end
    then let (t, o) := set Starting t |> then_attempt c stopping spawns now in (t, o, None)
    else (t, [], None)
  | Port, EPort => let (t, o) := t |> set_first false |> launch c stopping spawns now in (t, o, None)
  | Hello child, EHello (Some (ep, b)) =>
    let (t', o) := became_running declared child ep b t in (t', o, Some (Some (id (cfg t), ep)))
  | Hello true, EHello None => (t |> at_pc Reap, [KillChild], None)
  | Hello false, EHello None => let (t, o) := go_down c now t |> then_park stopping in (t, o, None)
  | Reap, EGone => let (t, o) := go_down c now t |> then_park stopping in (t, Gone :: o, None)
  | Decl child, EDeclared => (t |> at_pc (Up child), [], None)
  | Up true, EGone => let (t, o) := outcome c stopping spawns now Exited t in (t, Gone :: o, Some None)
  | Term n from, EGone => let (t, o) := set Stopped t in
                          let (t, o') := outcome c stopping spawns now OStopped t in (t, Gone :: o ++ [Ack n (inl (from, Stopped))] ++ o', Some None)
  | Slay n, EGone => let (t, o) := outcome c stopping spawns now Killed t in (t, Gone :: Ack n (inl (Running, Down)) :: o, Some None)
  | _, _ => (t, [], None)
  end.

(** ** The supervisor *)

Definition new_unit (r : Role) (u : Cfg) : Task :=
  mkTask u r (mkRec (if enabled u then Inactive else Disabled) 0 None None None []) New true true [].

Definition bus_unit : Cfg := mkCfg "bus" Inproc 0 "bus" true [].

(** [sort_by_key] on the order: stable. *)
Fixpoint insert_unit (u : Cfg) (l : list Cfg) : list Cfg :=
  match l with
  | [] => [u]
  | x :: l' => if order u <=? order x then u :: l else x :: insert_unit u l'
  end.
Definition sort_units (l : list Cfg) : list Cfg := fold_right insert_unit [] l.

Definition new_sup (l : list Cfg) : Sup :=
  mkWorld (map (new_unit RLog) (List.filter (fun u => String.eqb (role u) "log") l)
           ++ [new_unit RBus bus_unit]
           ++ map (new_unit RSfu) (sort_units (List.filter (fun u => negb (String.eqb (role u) "log")) l))) false false None.

Definition set_task (i : nat) (t : Task) (w : Sup) : Sup := mkWorld (<[i := t]> (tasks w)) (stopping w) (node_declared w) (local w).

(** [unit]: the first of that name. *)
Fixpoint find_ix (n : string) (l : list Task) : option (nat * Task) :=
  match l with
  | [] => None
  | t :: l' => if String.eqb (id (cfg t)) n then Some (0%nat, t) else let? (i, t) := find_ix n l' in Some (S i, t)
  end.
Definition unit_ix (n : string) (w : Sup) : option (nat * Task) := find_ix n (tasks w).

Definition down_units (w : Sup) : list string :=
  map (fun t => id (cfg t)) (List.filter (fun t => match ustate t with Running | Disabled => false | _ => true end) (tasks w)).

Definition mark_state (r : Role) (to : UnitState) (w : Sup) : Sup :=
  mkWorld (map (fun t => if decide (urole t = r) then fst (set to t) else t) (tasks w)) (stopping w) (node_declared w) (local w).

(** One step of the task of unit [i]; [start_sfu] starts those of the SFU units only. *)
Definition task_step (c : SupCfg) (spawns : bool) (now : Z) (i : nat) (e : Ev) (w : Sup) : Sup * list Out :=
  match tasks w !! i with
  | Some t =>
    if decide (urole t = RSfu) then
      let '(t', o, l) := resume c (stopping w) (node_declared w) spawns now e t in
      let declared := node_declared w || match pc t, e with Hello _, EHello (Some _) => true | _, _ => false end in
      (mkWorld (<[i := t']> (tasks w)) (stopping w) declared (match l with Some x => x | None => local w end), o)
    else (w, [])
  | None => (w, [])
  end.

Definition cmd_of (which : string) : Cmd := if String.eqb which "load" then Load else if String.eqb which "stop" then Stop else Kill.

(** [request], up to the wait for the answer; [n] is the channel of the answer. *)
Definition request (n : nat) (name which : string) (w : Sup) : Sup * list Out :=
  match unit_ix name w with
  | None => (w, [Asked n; Ack n (inr NoUnit)])
  | Some (i, t) =>
    match urole t with
    | RSfu =>
      match pc t with
      | Fin => (w, [Asked n; Ack n (inr LoopGone)])
      | _ => (set_task i (t |> set_queue (queue t ++ [(n, cmd_of which)])) w, [Asked n])
      end
    | r => if String.eqb which "load" then (w, [Asked n; Ack n (inr InprocUnit)])
           else (w, [Asked n] ++ (if decide (r = RBus) then [Fatal] else [])
                    ++ [Ack n (inl (ustate t, if String.eqb which "kill" then Down else Stopped))])
    end
  end.

(** [stop_all] marks the shutdown and asks one unit after the other to stop, the last first,
    waiting for each answer: the units it asks, and one of its requests. *)
Definition stop_all (w : Sup) : Sup := mkWorld (tasks w) true (node_declared w) (local w).
Definition stop_order (w : Sup) : list string := rev (map (fun t => id (cfg t)) (List.filter (fun t => bool_decide (urole t = RSfu)) (tasks w))).
Definition stop_one (n : nat) (name : string) (w : Sup) : Sup * list Out :=
  match unit_ix name w with
  | Some (_, t) => if decide (ustate t = Running) then request n name "stop" w else (w, [])
  | None => (w, [])
  end.

(** What happens to a supervisor, with the instant; the bus and the log are marked by [main]. *)
Inductive Act :=
  | ATask (spawns : bool) (i : nat) (e : Ev)
  | ARequest (n : nat) (name which : string)
  | AMark (bus : bool) (to : UnitState)
  | AStopAll
  | AStopOne (n : nat) (name : string).

Definition act (c : SupCfg) (now : Z) (a : Act) (w : Sup) : Sup * list Out :=
  match a with
  | ATask sp i e => task_step c sp now i e w
  | ARequest n name which => request n name which w
  | AMark bus to => (mark_state (if bus then RBus else RLog) to w, [])
  | AStopAll => (stop_all w, [])
  | AStopOne n name => stop_one n name w
  end.

(** A run: what came out, with the instant and the unit whose task it came from. *)
Definition acting (a : Act) : option nat := match a with ATask _ i _ => Some i | _ => None end.

Definition Trace : Type := list (Z * option nat * list Out).

Fixpoint run (c : SupCfg) (l : list (Z * Act)) (w : Sup) : Sup * Trace :=
  match l with
  | [] => (w, [])
  | (now, a) :: l =>
    let (w, o) := act c now a w in
    let (w, tr) := run c l w in
    (w, (now, acting a, o) :: tr)
  end.

(** ** What the record says *)

(** A process of the unit exists. *)
Definition alive (t : Task) : bool :=
  match pc t with Hello true | Reap | Decl true | Up true | Term _ _ | Slay _ => true | _ => false end.

(** The place the task waits at, the state of the unit, and the epoch, which it has from the
    hello on until it ends. *)
Definition place_ok (p : Pc) (s : UnitState) (e : bool) (r : bool) : bool :=
  match p, s with
  | New, (Disabled | Inactive) => negb e
  | Idle, (Stopped | Blocked) => negb e
  | Pause, Down => negb e && r
  | (Port | Hello _ | Reap), Starting => negb e
  | (Decl _ | Up _ | Slay _), Running => e
  | Term _ f, Stopping => e && bool_decide (f = Running)
  | Fin, (Stopped | Blocked | Down | Inactive) => negb e
  | _, _ => false
  end.

Definition is_some {A} (o : option A) : bool := match o with Some _ => true | None => false end.

Definition Inv (t : Task) : bool :=
  place_ok (pc t) (ustate t) (is_some (epoch (rec t))) (is_some (next_retry_at (rec t)))
  && counted t
  && match pc t with New | Port => first t | Fin => bool_decide (queue t = []) && (negb (first t) || bool_decide (ustate t = Inactive)) | _ => negb (first t) end
  && match pc t with Reap | Slay _ | Term _ _ => has_process t | Hello c | Decl c | Up c => eqb c (has_process t) | _ => true end.

(** What a piece of output has: processes made, tried, ended; requests answered; loads granted. *)
Definition made (o : list Out) : nat := length (List.filter (fun x => match x with Spawn true => true | _ => false end) o).
Definition tries (o : list Out) : nat := length (List.filter (fun x => match x with Spawn _ => true | _ => false end) o).
Definition ended (o : list Out) : nat := length (List.filter (fun x => match x with Gone => true | _ => false end) o).
Definition acked (o : list Out) : list nat := omap (fun x => match x with Ack n _ => Some n | _ => None end) o.
Definition loads (o : list Out) : nat := length (List.filter (fun x => match x with Ack _ (inl (_, Starting)) => true | _ => false end) o).

(** The requests of a task that wait for an answer. *)
Definition pending (t : Task) : list nat := (match pc t with Term n _ | Slay n => [n] | _ => [] end) ++ map fst (queue t).

(** How often a task may still start its unit after the shutdown began. *)
Definition starts_left (t : Task) : nat := match pc t with Idle | Pause | Port => 1 | _ => 0 end.

Definition nat_of (b : bool) : nat := if b then 1 else 0.

(** How the attempts of a unit go on. *)
Definition att_ok (c : SupCfg) (now : Z) (counted : bool) (a a' : list Z) (n : nat) : Prop :=
  if counted then
    (a' = a /\ n = 0%nat) \/
    (a' = drop_old (intensity_window c) now (a ++ [now]) /\ (n = 0%nat \/ n = 1%nat /\ u32 (len a') <= intensity_max c))
  else a' = a /\ (n <= 1)%nat.

(** What holds where a part of the loop ends, told of the task it began with. *)
Record Post (c : SupCfg) (sg : bool) (now : Z) (t : Task) (live left : nat) (pend : list nat) (x : Task * list Out) : Prop := {
  post_inv : Inv x.1 = true;
  post_cfg : cfg x.1 = cfg t;
  post_role : urole x.1 = urole t;
  post_live : (live + made x.2 = ended x.2 + nat_of (alive x.1))%nat;
  post_acks : acked x.2 ++ pending x.1 ≡ₚ pend;
  post_att : att_ok c now (counted t) (attempts (rec t)) (attempts (rec x.1)) (tries x.2);
  post_left : sg = true -> (tries x.2 + starts_left x.1 <= left)%nat }.

Lemma made_app o o' : made (o ++ o') = (made o + made o')%nat.
Proof. unfold made. by rewrite List.filter_app, length_app. Qed.
Lemma tries_app o o' : tries (o ++ o') = (tries o + tries o')%nat.
Proof. unfold tries. by rewrite List.filter_app, length_app. Qed.
Lemma ended_app o o' : ended (o ++ o') = (ended o + ended o')%nat.
Proof. unfold ended. by rewrite List.filter_app, length_app. Qed.
Lemma loads_app o o' : loads (o ++ o') = (loads o + loads o')%nat.
Proof. unfold loads. by rewrite List.filter_app, length_app. Qed.
Lemma acked_app o o' : acked (o ++ o') = acked o ++ acked o'.
Proof. unfold acked. apply omap_app. Qed.

Lemma line_none f g : made (line f g) = 0%nat /\ tries (line f g) = 0%nat /\ ended (line f g) = 0%nat /\ loads (line f g) = 0%nat /\ acked (line f g) = [].
Proof. unfold line. by case_decide. Qed.

(** Outputs that start nothing, before. *)
Lemma post_pre c sg now t live left pend t' o o' :
  tries o = 0%nat -> made o = 0%nat -> Post c sg now t live left pend (t', o') ->
  Post c sg now t (live + ended o) left (acked o ++ pend) (t', o ++ o').
Proof.
  intros Ht Hm [I C R L A T S]. split; simpl in *; rewrite ?made_app, ?ended_app, ?tries_app, ?acked_app, ?Ht; auto; try lia.
  by rewrite <- (assoc _), A.
Qed.

Lemma post_line c sg now t live left pend t' f g o' :
  Post c sg now t live left pend (t', o') -> Post c sg now t live left pend (t', line f g ++ o').
Proof.
  intros H. destruct (line_none f g) as (Hm & Ht & He & _ & Ha).
  pose proof (post_pre _ _ _ _ _ _ _ _ (line f g) _ Ht Hm H) as P. rewrite He, Ha, Nat.add_0_r in P. done.
Qed.

Lemma acked_noanswer q : acked (map (fun q : nat * Cmd => Ack q.1 (inr NoAnswer)) q) = map fst q.
Proof. induction q as [|[n x] q IH]; [done|]. simpl. f_equal. apply IH. Qed.
Lemma none_noanswer q :
  let o := map (fun q : nat * Cmd => Ack q.1 (inr NoAnswer)) q in made o = 0%nat /\ tries o = 0%nat /\ ended o = 0%nat /\ loads o = 0%nat.
Proof. simpl. induction q as [|[n x] q IH]; [done|]. apply IH. Qed.

(** A unit at rest at the top of the loop. *)
Definition rests (t : Task) : bool :=
  match ustate t with Stopped | Blocked => true | Down => is_some (next_retry_at (rec t)) | _ => false end
  && negb (is_some (epoch (rec t))) && counted t && negb (first t).

Lemma finish_post c sg now t left :
  is_some (epoch (rec t)) = false -> counted t = true ->
  (first t = false /\ (ustate t = Stopped \/ ustate t = Blocked \/ ustate t = Down) \/ ustate t = Inactive) ->
  Post c sg now t 0 left (map fst (queue t)) (finish t).
Proof.
  intros He Hc Hs. destruct (none_noanswer (queue t)) as (Hm & Ht & Hd & _). simpl in *.
  split; simpl; rewrite ?Hm, ?Ht, ?Hd, ?acked_noanswer, ?app_nil_r; auto; try (intros; lia).
  - unfold Inv; simpl. rewrite Hc, He. unfold ustate in *; simpl in *.
    destruct Hs as [[-> [-> | [-> | ->]]] | ->]; try done. by rewrite orb_true_r.
  - rewrite Hc. by left.
  - intros _. unfold starts_left; simpl. lia.
Qed.

Lemma park_post c sg now t left : rests t = true -> Post c sg now t 0 left (map fst (queue t)) (park sg t).
Proof.
  unfold rests, park. rewrite !andb_true_iff, !negb_true_iff. intros [[[Hs He] Hc] Hf].
  destruct sg.
  - apply finish_post; try done. left. destruct (ustate t); naive_solver.
  - split; simpl; auto; try done; [|by case_decide|by case_decide|rewrite Hc; by left].
    unfold Inv, ustate in *; simpl in *. rewrite He, Hc, Hf. case_decide as Hd.
    + rewrite Hd in Hs. by rewrite Hd, Hs.
    + by destruct (state (rec t)).
Qed.

(** The same part, told of a task that differs in what [Post] does not look at. *)
Lemma post_from c sg now t t0 live left pend x :
  cfg t0 = cfg t -> urole t0 = urole t -> counted t0 = counted t -> attempts (rec t0) = attempts (rec t) ->
  Post c sg now t live left pend x -> Post c sg now t0 live left pend x.
Proof. intros Hc Hr Hn Ha [I C R L A T S]. split; auto; congruence. Qed.

Lemma post_park c sg now t0 left pend t o :
  cfg t = cfg t0 -> urole t = urole t0 -> rests t = true -> map fst (queue t) = pend ->
  att_ok c now (counted t0) (attempts (rec t0)) (attempts (rec t)) (tries o) -> made o = 0%nat -> (tries o <= left)%nat ->
  Post c sg now t0 (ended o) left (acked o ++ pend) (then_park sg (t, o)).
Proof.
  intros Hc Hr Hs Hq Ha Hm Hl. simpl. pose proof (park_post c sg now t 0 Hs) as P.
  destruct (park sg t) as [t' o'] eqn:E. destruct P as [I C R L A T S]. simpl in *.
  assert (attempts (rec t') = attempts (rec t) /\ tries o' = 0%nat) as [Ha' Ht'].
  { unfold rests in Hs. rewrite !andb_true_iff in Hs. destruct Hs as [[_ Hct] _].
    unfold park, finish in E. destruct sg; simplify_eq/=; [|done].
    destruct (none_noanswer (queue t)) as (_ & ? & _). done. }
  split; simpl; rewrite ?made_app, ?ended_app, ?tries_app, ?acked_app, ?Ht', ?Hm; try congruence; try lia.
  - rewrite <- Hq, <- (assoc _), A. done.
  - by rewrite Ha', Nat.add_0_r.
  - intros Hg. specialize (S Hg). lia.
Qed.

Lemma go_down_rests c now t :
  is_some (epoch (rec t)) = false -> counted t = true -> first t = false ->
  let x := go_down c now t in
  rests x.1 = true /\ cfg x.1 = cfg t /\ urole x.1 = urole t /\ queue x.1 = queue t /\ attempts (rec x.1) = attempts (rec t) /\ x.2 = line (ustate t) Down.
Proof. intros He Hc Hf. simpl. unfold rests; simpl. by rewrite He, Hc, Hf. Qed.

Lemma down_post c sg now t left o :
  is_some (epoch (rec t)) = false -> counted t = true -> first t = false -> tries o = 0%nat -> made o = 0%nat ->
  Post c sg now t (ended o) left (acked o ++ map fst (queue t)) (let (t', o') := then_park sg (go_down c now t) in (t', o ++ o')).
Proof.
  intros He Hc Hf Ht Hm. destruct (go_down_rests c now t He Hc Hf) as (Hr & Hcf & Hro & Hq & Ha & Ho).
  destruct (go_down c now t) as [t1 o1]. simpl in *. subst o1.
  destruct (line_none (ustate t) Down) as (Lm & Lt & Le & _ & La).
  pose proof (post_park c sg now t left (map fst (queue t)) t1 (line (ustate t) Down)) as P.
  rewrite Le, La, Lt in P. simpl in P. destruct (park sg t1) as [t2 o2].
  apply (post_pre _ _ _ _ 0); try done. apply P; try done; try congruence; [|lia].
  rewrite Hc. by left.
Qed.

Lemma launch_post c sg sp now t :
  ustate t = Starting -> is_some (epoch (rec t)) = false -> first t = false ->
  Post c sg now t 0 1 (map fst (queue t)) (launch c sg sp now t).
Proof.
  intros Hs He Hf. unfold launch. destruct (note_attempt c now (counted t) (rec t)) as [r bl] eqn:En.
  assert (state r = Starting /\ is_some (epoch r) = false) as [Hsr Her].
  { unfold note_attempt in En. destruct (counted t); by simplify_eq/=. }
  assert (att_ok c now (counted t) (attempts (rec t)) (attempts r) 0 /\
          (bl = false -> att_ok c now (counted t) (attempts (rec t)) (attempts r) 1)) as [A0 A1].
  { unfold note_attempt, att_ok in *. destruct (counted t); simplify_eq/=; [|split; [split; [done|lia]|split; [done|lia]]].
    split; [right; split; [done|by left]|]. intros Hb. right. split; [done|]. right. split; [done|]. lia. }
  set (t1 := set_counted true (upd_rec (fun _ => r) t)).
  destruct bl.
  - change (set Blocked t1) with (upd_rec (set_rec Blocked) t1, line (ustate t1) Blocked).
    destruct (line_none (ustate t1) Blocked) as (Lm & Lt & Le & _ & La).
    pose proof (post_park c sg now t 1 (map fst (queue t)) (upd_rec (set_rec Blocked) t1) (line (ustate t1) Blocked)) as P.
    rewrite Le, La, Lt in P. apply P; try done; [|lia]. unfold rests; simpl. by rewrite Her, Hf.
  - specialize (A1 eq_refl). destruct (has_process t1) eqn:Hp.
    + assert (forall o, tries o = 0%nat \/ tries o = 1%nat -> made o = 0%nat -> ended o = 0%nat -> acked o = [] ->
        Post c sg now t 0 1 (map fst (queue t)) (let (t', o') := then_park sg (go_down c now t1) in (t', o ++ o'))) as D.
      { intros o Ht Hm Hd Ha.
        destruct (go_down_rests c now t1) as (Hr & Hcf & Hro & Hq & Hat & Ho); [done..|].
        destruct (go_down c now t1) as [t2 o1]. simpl in *. subst o1.
        destruct (line_none (ustate t1) Down) as (Lm & Lt & Le & _ & La).
        pose proof (post_park c sg now t 1 (map fst (queue t)) t2 (o ++ line (ustate t1) Down)) as P.
        rewrite acked_app, Ha, ended_app, Hd, tries_app, Lt, made_app, Hm, Lm, Nat.add_0_r, Le, La in P. simpl in P.
        destruct (park sg t2) as [t3 o3]. rewrite <- (assoc_L _) in P.
        apply P; try done; [by rewrite Hq| |by destruct Ht as [-> | ->]; lia].
        rewrite Hat. by destruct Ht as [-> | ->]. }
      change (cmd (cfg t1)) with (cmd (cfg t)). destruct (cmd (cfg t)); [apply D; try done; by left|].
      destruct sp; [|apply D; try done; by right].
      split; simpl; auto.
      unfold Inv; simpl. unfold ustate; simpl. rewrite Hsr, Her, Hf. simpl.
      change (has_process (at_pc (Hello true) t1)) with (has_process t1). by rewrite Hp.
    + split; simpl; auto.
      unfold Inv; simpl. unfold ustate; simpl. rewrite Hsr, Her, Hf. simpl.
      change (has_process (at_pc (Hello false) t1)) with (has_process t1). by rewrite Hp.
Qed.

Lemma noop_post c sg now t : Inv t = true -> Post c sg now t (nat_of (alive t)) (starts_left t) (pending t) (t, []).
Proof.
  intros H. split; simpl; auto.
  unfold Inv in H. rewrite !andb_true_iff in H. destruct H as [[[_ ->] _] _]. by left.
Qed.

(** From a wait to another without a start or an end. *)
Lemma move_post c sg now t t' o live left pend :
  Inv t' = true -> cfg t' = cfg t -> urole t' = urole t -> counted t = true -> attempts (rec t') = attempts (rec t) ->
  tries o = 0%nat -> made o = 0%nat -> live = (ended o + nat_of (alive t'))%nat -> (starts_left t' <= left)%nat ->
  acked o ++ pending t' ≡ₚ pend ->
  Post c sg now t live left pend (t', o).
Proof. intros Hi Hc Hr Hn Ha Ht Hm Hl Hs Hp. split; simpl; auto; rewrite ?Hn, ?Ha, ?Ht; try lia. by left. Qed.

Lemma starting_post c sg sp now t t0 o left :
  cfg t = cfg t0 -> urole t = urole t0 -> counted t = counted t0 -> attempts (rec t) = attempts (rec t0) ->
  ustate t = Starting -> is_some (epoch (rec t)) = false -> first t = false -> (1 <= left)%nat ->
  tries o = 0%nat -> made o = 0%nat ->
  Post c sg now t0 (ended o) left (acked o ++ map fst (queue t)) (then_attempt c sg sp now (t, o)).
Proof.
  intros Hc Hr Hn Ha Hs He Hf Hl Ht Hm. simpl. unfold attempt. rewrite Hf.
  pose proof (launch_post c sg sp now t Hs He Hf) as P. destruct (launch c sg sp now t) as [t' o'].
  apply (post_pre _ _ _ _ 0); try done. eapply post_from; [symmetry; eassumption..|].
  destruct P as [I C R L A T S]. split; auto. intros Hg. specialize (S Hg). lia.
Qed.

Lemma outcome_post c sg sp now t t0 oc o left :
  cfg t = cfg t0 -> urole t = urole t0 -> counted t = true -> counted t0 = true -> attempts (rec t) = attempts (rec t0) -> first t = false ->
  (oc = OStopped -> ustate t = Stopped) -> tries o = 0%nat -> made o = 0%nat ->
  Post c sg now t0 (ended o) left (acked o ++ map fst (queue t)) (let (t', o') := outcome c sg sp now oc t in (t', o ++ o')).
Proof.
  intros Hc Hr Hn Hn0 Ha Hf Hs Ht Hm.
  assert (forall x, Post c sg now (upd_rec (set_epoch None) t) 0 left (map fst (queue t)) x ->
    Post c sg now t0 (ended o) left (acked o ++ map fst (queue t)) (let (t', o') := x in (t', o ++ o'))) as Pre.
  { intros [t' o'] P. apply (post_pre _ _ _ _ 0); try done. eapply post_from; [..|exact P]; simpl; congruence. }
  apply Pre. set (t1 := upd_rec (set_epoch None) t) in *.
  assert (Post c sg now t1 0 left (map fst (queue t))
     (if sg then let (t, l) := set Stopped t1 in let (t, l') := finish t in (t, l ++ l') else then_park sg (go_down c now t1))) as X.
  { destruct sg.
    - apply post_line. apply (post_from _ _ _ (upd_rec (set_rec Stopped) t1)); try done.
      apply (finish_post c true now (upd_rec (set_rec Stopped) t1) left); try done. left. split; [done|by left].
    - exact (down_post c false now t1 left [] eq_refl Hn Hf eq_refl eq_refl). }
  unfold outcome. destruct oc; [exact X|exact X|].
  specialize (Hs eq_refl). fold t1. unfold top. change (ustate t1) with (ustate t). rewrite Hs.
  apply (park_post c sg now t1 left). unfold rests; change (ustate t1) with (ustate t). rewrite Hs. simpl. by rewrite Hn, Hf.
Qed.

(** What the invariant says of each place. *)
Lemma inv_place t :
  Inv t = true ->
  counted t = true /\
  match pc t with
  | New => first t = true /\ is_some (epoch (rec t)) = false /\ (ustate t = Disabled \/ ustate t = Inactive)
  | Idle => first t = false /\ is_some (epoch (rec t)) = false /\ (ustate t = Stopped \/ ustate t = Blocked)
  | Pause => first t = false /\ is_some (epoch (rec t)) = false /\ ustate t = Down /\ is_some (next_retry_at (rec t)) = true
  | Port => first t = true /\ is_some (epoch (rec t)) = false /\ ustate t = Starting
  | Hello c => first t = false /\ is_some (epoch (rec t)) = false /\ ustate t = Starting /\ has_process t = c
  | Reap => first t = false /\ is_some (epoch (rec t)) = false /\ ustate t = Starting /\ has_process t = true
  | Decl c | Up c => first t = false /\ is_some (epoch (rec t)) = true /\ ustate t = Running /\ has_process t = c
  | Slay _ => first t = false /\ is_some (epoch (rec t)) = true /\ ustate t = Running /\ has_process t = true
  | Term _ f => first t = false /\ is_some (epoch (rec t)) = true /\ ustate t = Stopping /\ has_process t = true /\ f = Running
  | Fin => queue t = [] /\ is_some (epoch (rec t)) = false /\ (ustate t = Stopped \/ ustate t = Blocked \/ ustate t = Down \/ ustate t = Inactive)
  end.
Proof.
  unfold Inv. rewrite !andb_true_iff. intros [[[P ->] F] C]. split; [done|].
  destruct (pc t), (ustate t); simpl in P; try done;
    rewrite ?andb_true_iff, ?negb_true_iff, ?bool_decide_eq_true, ?eqb_true_iff in *; naive_solver.
Qed.

(** At rest, whatever was answered. *)
Lemma rest_post c sg now t t0 o left pend :
  cfg t = cfg t0 -> urole t = urole t0 -> counted t0 = true -> attempts (rec t) = attempts (rec t0) -> rests t = true ->
  tries o = 0%nat -> made o = 0%nat -> acked o ++ map fst (queue t) = pend ->
  Post c sg now t0 (ended o) left pend (then_park sg (t, o)).
Proof.
  intros Hc Hr Hn Ha Hs Ht Hm <-. apply post_park; try done; [|lia]. rewrite Hn, Ha, Ht. by left.
Qed.

(** A step of a task, told of the task before it; one that does not count its attempt has
    granted a load. *)
Definition Step (c : SupCfg) (sg : bool) (now : Z) (t : Task) (pend : list nat) (x : Task * list Out) : Prop :=
  exists ct, (ct = false -> (1 <= loads x.2)%nat) /\ Post c sg now (set_counted ct t) (nat_of (alive t)) (starts_left t) pend x.

Lemma step_of c sg now t pend x : counted t = true -> Post c sg now t (nat_of (alive t)) (starts_left t) pend x -> Step c sg now t pend x.
Proof. intros Hc P. exists true. split; [done|]. eapply post_from; [..|exact P]; done. Qed.

Lemma serve_idle c sg sp now n x t :
  Inv t = true -> pc t = Idle -> Step c sg now t (n :: map fst (queue t)) (serve c sg sp now n x t).1.
Proof.
  intros HI Hp. pose proof (inv_place t HI) as [Hct Hpl]. rewrite Hp in Hpl. destruct Hpl as (Hf & He & Hs).
  assert (alive t = false /\ starts_left t = 1%nat) as [Hal Hsl] by (unfold alive, starts_left; by rewrite Hp).
  destruct (line_none (ustate t) Starting) as (Lm & Lt & Le & Ll & La).
  destruct (line_none (ustate t) Stopped) as (Mm & Mt & Me & _ & Ma).
  unfold serve. rewrite Hp. destruct x; cbn [set fst snd].
  - exists false. rewrite Hal, Hsl.
    pose proof (starting_post c sg sp now (set_counted false (upd_rec (set_rec Starting) t)) (set_counted false t)
      (line (ustate t) Starting ++ [Ack n (inl (ustate t, Starting))]) 1) as P.
    rewrite acked_app, La, ended_app, Le in P. cbn [queue upd_rec set_counted] in P.
    destruct (then_attempt _ _ _ _ _) as [t' o'] eqn:E. cbn [fst snd]. split.
    + intros _. simpl in E. destruct (attempt _ _ _ _ _) in E. simplify_eq. rewrite !loads_app.
      replace (loads [Ack n (inl (ustate t, Starting))]) with 1%nat by done. lia.
    + apply P; try done; rewrite ?tries_app, ?made_app, ?Lt, ?Lm; done.
  - apply step_of; [done|]. rewrite Hal.
    pose proof (rest_post c sg now (upd_rec (set_rec Stopped) t) t (line (ustate t) Stopped ++ [Ack n (inl (ustate t, Stopped))]) (starts_left t)) as P.
    rewrite ended_app, Me in P. destruct (then_park _ _) as [t' o'].
    apply P; try done; rewrite ?tries_app, ?made_app, ?acked_app, ?Mt, ?Mm, ?Ma; try done. unfold rests; simpl. by rewrite He, Hct, Hf.
  - apply step_of; [done|]. rewrite Hal.
    pose proof (rest_post c sg now t t [Ack n (inr NotRunning)] (starts_left t)) as P.
    destruct (then_park _ _) as [t' o'].
    apply P; try done. unfold rests; simpl. rewrite He, Hct, Hf. by destruct Hs as [-> | ->].
Qed.

Lemma serve_pause c sg sp now n x t :
  Inv t = true -> pc t = Pause -> Step c sg now t (n :: map fst (queue t)) (serve c sg sp now n x t).1.
Proof.
  intros HI Hp. pose proof (inv_place t HI) as [Hct Hpl]. rewrite Hp in Hpl. destruct Hpl as (Hf & He & Hs & Hr).
  assert (alive t = false) as Hal by (unfold alive; by rewrite Hp).
  destruct (line_none (ustate t) Stopped) as (Mm & Mt & Me & _ & Ma).
  assert (rests t = true) as Hrs by (unfold rests; by rewrite Hs, He, Hct, Hf, Hr).
  unfold serve. rewrite Hp. apply step_of; [done|]. rewrite Hal. destruct x; cbn [set fst snd].
  - pose proof (rest_post c sg now t t [Ack n (inr IsDown)] (starts_left t)) as P.
    destruct (then_park _ _) as [t' o']. by apply P.
  - pose proof (rest_post c sg now (upd_rec (set_rec Stopped) t) t (line (ustate t) Stopped ++ [Ack n (inl (ustate t, Stopped))]) (starts_left t)) as P.
    rewrite ended_app, Me in P. destruct (then_park _ _) as [t' o'].
    apply P; try done; rewrite ?tries_app, ?made_app, ?acked_app, ?Mt, ?Mm, ?Ma; try done. unfold rests; simpl. by rewrite He, Hct, Hf.
  - pose proof (rest_post c sg now t t [Ack n (inr NotRunning)] (starts_left t)) as P.
    destruct (then_park _ _) as [t' o']. by apply P.
Qed.

Lemma serve_up c sg sp now n x t b :
  Inv t = true -> pc t = Up b -> Step c sg now t (n :: map fst (queue t)) (serve c sg sp now n x t).1.
Proof.
  intros HI Hp. pose proof (inv_place t HI) as [Hct Hpl]. rewrite Hp in Hpl. destruct Hpl as (Hf & He & Hs & Hb).
  assert (alive t = b /\ starts_left t = 0%nat) as [Hal Hsl] by (unfold alive, starts_left; by rewrite Hp; destruct b).
  destruct (line_none (ustate t) Stopped) as (Mm & Mt & Me & _ & Ma).
  destruct (line_none (ustate t) Stopping) as (Lm & Lt & Le & _ & La).
  unfold serve. rewrite Hp. apply step_of; [done|]. rewrite Hal, Hsl. destruct x; cbn [set fst snd].
  - replace (match b with true | _ => _ end) with (t, [Ack n (inr AlreadyRunning)], false) by (by destruct b). cbn [fst snd].
    apply move_post; try done; rewrite ?Hal, ?Hsl; try done. unfold pending. by rewrite Hp.
  - destruct b; cbn [fst snd].
    + apply move_post; try done; rewrite ?tries_app, ?made_app, ?acked_app, ?ended_app, ?Lt, ?Lm, ?La, ?Le; try done.
      unfold Inv; simpl. rewrite He, Hct, Hf, Hs. simpl. unfold has_process in *; simpl. by rewrite Hb.
    + pose proof (outcome_post c sg sp now (upd_rec (set_rec Stopped) t) t OStopped
        (line (ustate t) Stopped ++ [Ack n (inl (ustate t, Stopped))]) 0) as P.
      rewrite acked_app, Ma, ended_app, Me in P. destruct (outcome _ _ _ _ _ _) as [t' o']. cbn [fst snd]. rewrite (assoc_L _).
      apply P; try done; rewrite ?tries_app, ?made_app, ?Mt, ?Mm; done.
  - destruct b; cbn [fst snd].
    + apply move_post; try done.
      unfold Inv; simpl. rewrite He, Hct, Hf. unfold ustate in *; simpl. rewrite Hs. simpl. unfold has_process in *; simpl. by rewrite Hb.
    + pose proof (outcome_post c sg sp now t t Killed [Ack n (inl (Running, Down))] 0) as P.
      destruct (outcome _ _ _ _ _ _) as [t' o']. by apply P.
Qed.

Lemma step_noop c sg now t : Inv t = true -> Step c sg now t (pending t) (t, []).
Proof. intros H. apply step_of; [by apply inv_place in H as [? _]|]. by apply noop_post. Qed.

Lemma inv_set_queue q t : Inv t = true -> pc t <> Fin -> Inv (set_queue q t) = true.
Proof. unfold Inv; simpl. by destruct (pc t). Qed.

(** An event is no business of a place that does not wait for it. *)
Ltac idle_place := repeat match goal with |- context [if ?b then _ else _] => is_var b; destruct b end; by apply step_noop.

Lemma recv_step c sg dc sp now t :
  Inv t = true -> Step c sg now t (pending t) (resume c sg dc sp now ERecv t).1.
Proof.
  intros HI.
  assert (forall n x q, queue t = (n, x) :: q -> ((exists b, pc t = Up b) \/ pc t = Idle \/ pc t = Pause) ->
    Step c sg now t (pending t) (serve c sg sp now n x (set_queue q t)).1) as D.
  { intros n x q Hq Hp.
    assert (pending t = n :: map fst (queue (set_queue q t))) as -> by (unfold pending; rewrite Hq; by destruct Hp as [[? ->] | [-> | ->]]).
    assert (Inv (set_queue q t) = true) as HI' by (apply inv_set_queue; [done|]; by destruct Hp as [[? ->] | [-> | ->]]).
    assert (Step c sg now (set_queue q t) (n :: map fst (queue (set_queue q t))) (serve c sg sp now n x (set_queue q t)).1 ->
            Step c sg now t (n :: map fst (queue (set_queue q t))) (serve c sg sp now n x (set_queue q t)).1) as Same.
    { intros (ct & Hct & P). exists ct. split; [done|]. by eapply post_from; [..|exact P]. }
    apply Same. destruct Hp as [[b Hp] | [Hp | Hp]]; [by eapply serve_up|by apply serve_idle|by apply serve_pause]. }
  unfold resume. destruct (pc t) as [| | | | | |ch|ch| | |] eqn:Hp; try idle_place; try destruct ch;
    (destruct (queue t) as [|[n x] q] eqn:Hq; [idle_place|]);
    (pose proof (D n x q eq_refl ltac:(eauto)) as D'); destruct (serve _ _ _ _ _ _ _) as [[t' o] g]; exact D'.
Qed.

Lemma start_step c sg dc sp now t :
  Inv t = true -> Step c sg now t (pending t) (resume c sg dc sp now EStart t).1.
Proof.
  intros HI. unfold resume. destruct (pc t) eqn:Hp; try idle_place. case_decide as Hd; [idle_place|].
  pose proof (inv_place t HI) as [Hct Hpl]. rewrite Hp in Hpl. destruct Hpl as (Hf & He & [Hs | Hs]); [done|].
  assert (alive t = false /\ starts_left t = 0%nat /\ pending t = map fst (queue t)) as (Hal & Hsl & Hpe)
    by (unfold alive, starts_left, pending; by rewrite Hp).
  apply step_of; [done|]. rewrite Hal, Hsl, Hpe. unfold top. rewrite Hs. destruct sg.
  - apply (finish_post c true now t 0); try done. by right.
  - simpl. unfold attempt; simpl. rewrite Hf. destruct (line_none (ustate t) Starting) as (Lm & Lt & Le & _ & La).
    split; simpl; rewrite ?app_nil_r, ?Lm, ?Le, ?La, ?Lt; try done; [|rewrite Hct; by left].
    unfold Inv; simpl. by rewrite He, Hct, Hf.
Qed.

Lemma sleep_step c sg dc sp now t :
  Inv t = true -> Step c sg now t (pending t) (resume c sg dc sp now ESleep t).1.
Proof.
  intros HI. unfold resume. destruct (pc t) eqn:Hp; try idle_place.
  pose proof (inv_place t HI) as [Hct Hpl]. rewrite Hp in Hpl. destruct Hpl as (Hf & He & Hs & Hr).
  destruct (match next_retry_at (rec t) with Some r => _ | None => _ end); [|idle_place].
  assert (alive t = false /\ starts_left t = 1%nat /\ pending t = map fst (queue t)) as (Hal & Hsl & Hpe)
    by (unfold alive, starts_left, pending; by rewrite Hp).
  apply step_of; [done|]. rewrite Hal, Hsl, Hpe. destruct (line_none (ustate t) Starting) as (Lm & Lt & Le & _ & La).
  pose proof (starting_post c sg sp now (upd_rec (set_rec Starting) t) t (line (ustate t) Starting) 1) as P.
  rewrite Le, La in P. change (set Starting t) with (upd_rec (set_rec Starting) t, line (ustate t) Starting).
  destruct (then_attempt _ _ _ _ _) as [t' o']. apply P; done.
Qed.

Lemma port_step c sg dc sp now t :
  Inv t = true -> Step c sg now t (pending t) (resume c sg dc sp now EPort t).1.
Proof.
  intros HI. unfold resume. destruct (pc t) eqn:Hp; try idle_place.
  pose proof (inv_place t HI) as [Hct Hpl]. rewrite Hp in Hpl. destruct Hpl as (Hf & He & Hs).
  assert (alive t = false /\ starts_left t = 1%nat /\ pending t = map fst (queue t)) as (Hal & Hsl & Hpe)
    by (unfold alive, starts_left, pending; by rewrite Hp).
  apply step_of; [done|]. rewrite Hal, Hsl, Hpe.
  pose proof (launch_post c sg sp now (set_first false t) Hs He eq_refl) as P.
  destruct (launch _ _ _ _ _) as [t' o']. by eapply post_from; [..|exact P].
Qed.

Lemma hello_step c sg dc sp now a t :
  Inv t = true -> Step c sg now t (pending t) (resume c sg dc sp now (EHello a) t).1.
Proof.
  intros HI. unfold resume. destruct (pc t) as [| | | |b| | | | | |] eqn:Hp; try idle_place; [].
  pose proof (inv_place t HI) as [Hct Hpl]. rewrite Hp in Hpl. destruct Hpl as (Hf & He & Hs & Hb).
  assert (alive t = b /\ starts_left t = 0%nat /\ pending t = map fst (queue t)) as (Hal & Hsl & Hpe)
    by (unfold alive, starts_left, pending; rewrite Hp; by destruct b).
  apply step_of; [done|]. rewrite Hal, Hsl, Hpe. destruct a as [[ep bd]|].
  - replace (match b with true | _ => _ end) with (let (t', o) := became_running dc b ep bd t in (t', o, Some (Some (id (cfg t), ep)))) by (by destruct b).
    unfold became_running, set. set (t1 := upd_rec _ t). destruct (line_none (ustate t1) Running) as (Lm & Lt & Le & _ & La).
    destruct dc; cbn [fst snd]; apply move_post; try done;
      rewrite ?tries_app, ?made_app, ?acked_app, ?ended_app, ?Lt, ?Lm, ?La, ?Le; try done; try (by destruct b);
      unfold Inv; simpl; unfold ustate, has_process in *; simpl; rewrite Hct, Hf, Hb; by destruct b.
  - destruct b; cbn [fst snd].
    + apply move_post; try done. unfold Inv; simpl. rewrite He, Hct, Hf. unfold ustate, has_process in *; simpl. by rewrite Hs, Hb.
    + pose proof (down_post c sg now t 0 [] He Hct Hf eq_refl eq_refl) as P. by destruct (then_park _ _) as [t' o'].
Qed.

Lemma gone_step c sg dc sp now t :
  Inv t = true -> Step c sg now t (pending t) (resume c sg dc sp now EGone t).1.
Proof.
  intros HI. unfold resume. destruct (pc t) as [| | | | | | |b|n f|n|] eqn:Hp; try idle_place;
    pose proof (inv_place t HI) as [Hct Hpl]; rewrite Hp in Hpl.
  - destruct Hpl as (Hf & He & Hs & Hb). apply step_of; [done|]. unfold alive, starts_left, pending. rewrite Hp.
    pose proof (down_post c sg now t 0 [Gone] He Hct Hf eq_refl eq_refl) as P. by destruct (then_park _ _) as [t' o'].
  - destruct b; [|idle_place]. destruct Hpl as (Hf & He & Hs & Hb). apply step_of; [done|]. unfold alive, starts_left, pending. rewrite Hp.
    pose proof (outcome_post c sg sp now t t Exited [Gone] 0) as P. destruct (outcome _ _ _ _ _ _) as [t' o']. by apply P.
  - destruct Hpl as (Hf & He & Hs & Hb & ->). apply step_of; [done|]. unfold alive, starts_left, pending. rewrite Hp.
    destruct (line_none (ustate t) Stopped) as (Mm & Mt & Me & _ & Ma).
    pose proof (outcome_post c sg sp now (upd_rec (set_rec Stopped) t) t OStopped
      (Gone :: line (ustate t) Stopped ++ [Ack n (inl (Running, Stopped))]) 0) as P.
    change (Gone :: line (ustate t) Stopped ++ _) with ([Gone] ++ line (ustate t) Stopped ++ [Ack n (inl (Running, Stopped))]) in P.
    rewrite !acked_app, Ma, !ended_app, Me, !tries_app, Mt, !made_app, Mm in P.
    cbn [set]. destruct (outcome _ _ _ _ _ _) as [t' o']. simpl in *. rewrite <- (assoc_L _) in P. by apply P.
  - destruct Hpl as (Hf & He & Hs & Hb). apply step_of; [done|]. unfold alive, starts_left, pending. rewrite Hp.
    pose proof (outcome_post c sg sp now t t Killed [Gone; Ack n (inl (Running, Down))] 0) as P.
    destruct (outcome _ _ _ _ _ _) as [t' o']. by apply P.
Qed.

Lemma declared_step c sg dc sp now t :
  Inv t = true -> Step c sg now t (pending t) (resume c sg dc sp now EDeclared t).1.
Proof.
  intros HI. unfold resume. destruct (pc t) as [| | | | | |b| | | |] eqn:Hp; try idle_place; [].
  pose proof (inv_place t HI) as [Hct Hpl]. rewrite Hp in Hpl. destruct Hpl as (Hf & He & Hs & Hb).
  apply step_of; [done|]. unfold alive, starts_left, pending. rewrite Hp.
  assert (Inv (at_pc (Up b) t) = true) by (unfold Inv, ustate, has_process in *; simpl; rewrite Hct, He, Hf, Hs, Hb; by destruct b).
  destruct b; by apply move_post.
Qed.

(** Every step of a task, from a task in order. *)
Lemma resume_step c sg dc sp now e t : Inv t = true -> Step c sg now t (pending t) (resume c sg dc sp now e t).1.
Proof.
  intros HI. destruct e; [by apply start_step|by apply recv_step|by apply sleep_step|by apply port_step|by apply hello_step|by apply gone_step|by apply declared_step].
Qed.

End Sup.
