(* ===== verification/HubSupThm.v ===== *)
(** * What the supervisor of a hub promises

    Theorems about [HubSup]: one process of a unit at a time and a state that tells the truth,
    an answer for every request, the limit on restarts, and the shutdown. *)

From S2P Require Import Prelude HubSup.

Module SupThm.
Import Sup.

(** What came out of the task of unit [i]. *)
Definition outs_of (i : nat) (tr : Trace) : list Out :=
  mjoin (map (fun x : Z * option nat * list Out => if decide (x.1.2 = Some i) then x.2 else []) tr).

Definition all_outs (tr : Trace) : list Out := mjoin (map snd tr).

(** The units of the SFU are in order. *)
Definition WInv (w : Sup) : Prop := forall i t, tasks w !! i = Some t -> urole t = RSfu -> Inv t = true.

(** What an action is to unit [i]: a step of its task, a request that joins its queue, or
    nothing. *)
Inductive Effect (c : SupCfg) (sg : bool) (now : Z) (i : nat) (a : Act) (o : list Out) (t t' : Task) : Prop :=
  | eff_step : acting a = Some i -> Step c sg now t (pending t) (t', o) -> Effect c sg now i a o t t'
  | eff_ask n x : acting a = None -> pc t <> Fin -> t' = set_queue (queue t ++ [(n, x)]) t -> Effect c sg now i a o t t'
  | eff_none : acting a <> Some i -> t' = t -> Effect c sg now i a o t t'.

Lemma find_ix_spec n l i t : find_ix n l = Some (i, t) -> l !! i = Some t.
Proof.
  revert i. induction l as [|x l IH]; intros i H; [done|]. simpl in H. case_match; simplify_eq/=; [done|].
  destruct (find_ix n l) as [[j u]|]; simplify_eq/=. by apply IH.
Qed.

Lemma request_effect c sg now a n name which w w' o i t :
  request n name which w = (w', o) -> tasks w !! i = Some t -> acting a = None ->
  exists t', tasks w' !! i = Some t' /\ Effect c sg now i a o t t'.
Proof.
  unfold request, unit_ix. intros H Ht Ha.
  assert (exists t', tasks w !! i = Some t' /\ Effect c sg now i a o t t') as Same
    by (exists t; split; [done|apply eff_none; [by rewrite Ha|done]]).
  destruct (find_ix name (tasks w)) as [[j u]|] eqn:E; [|by simplify_eq].
  apply find_ix_spec in E. destruct (urole u) eqn:Hr; [by case_match; simplify_eq..|].
  assert (pc u <> Fin -> exists t', (<[j := set_queue (queue u ++ [(n, cmd_of which)]) u]> (tasks w)) !! i = Some t' /\ Effect c sg now i a o t t') as D.
  { intros Hu. destruct (decide (i = j)) as [->|Hij].
    - rewrite list_lookup_insert_eq by (by eapply lookup_lt_Some). eexists; split; [done|]. simplify_eq.
      by eapply eff_ask.
    - by rewrite list_lookup_insert_ne by done. }
  destruct (pc u); simplify_eq/=; try done; by apply D.
Qed.

Lemma act_effect c now a w w' o i t :
  WInv w -> act c now a w = (w', o) -> tasks w !! i = Some t -> urole t = RSfu ->
  exists t', tasks w' !! i = Some t' /\ Effect c (stopping w) now i a o t t'.
Proof.
  intros HW H Ht Hr. destruct a as [sp j e|n name which|bus to| |n name]; simpl in H.
  - unfold task_step in H. destruct (tasks w !! j) as [u|] eqn:Hu; simplify_eq; [|exists t; split; [done|by apply eff_none; [naive_solver|]]].
    case_decide as Hru; simplify_eq; [|exists t; split; [done|apply eff_none; [naive_solver|done]]].
    pose proof (resume_step c (stopping w) (node_declared w) sp now e u (HW _ _ Hu Hru)) as S.
    destruct (resume _ _ _ _ _ _ _) as [[u' o'] l]. simplify_eq/=.
    destruct (decide (i = j)) as [->|Hij].
    + rewrite list_lookup_insert_eq by (by eapply lookup_lt_Some). simplify_eq. eexists; split; [done|]. by apply eff_step.
    + rewrite list_lookup_insert_ne by done. exists t; split; [done|apply eff_none; [naive_solver|done]].
  - by eapply request_effect.
  - simplify_eq. simpl. rewrite list_lookup_fmap, Ht. simpl. eexists; split; [done|]. apply eff_none; [done|].
    rewrite decide_False; [done|]. rewrite Hr. by destruct bus.
  - simplify_eq. exists t. split; [done|]. by apply eff_none.
  - unfold stop_one in H. destruct (unit_ix name w) as [[j u]|]; [case_decide|]; simplify_eq;
      [by eapply request_effect|exists t; split; [done|by apply eff_none]..].
Qed.

Lemma step_inv c sg now t p x : Step c sg now t p x -> Inv x.1 = true.
Proof. by intros (? & _ & []). Qed.
Lemma step_role c sg now t p x : Step c sg now t p x -> urole x.1 = urole t.
Proof. by intros (? & _ & []). Qed.
Lemma step_cfg c sg now t p x : Step c sg now t p x -> cfg x.1 = cfg t.
Proof. by intros (? & _ & []). Qed.

Lemma effect_inv c sg now i a o t t' : Inv t = true -> Effect c sg now i a o t t' -> Inv t' = true /\ urole t' = urole t /\ cfg t' = cfg t.
Proof.
  intros HI [Ha S|n x Ha Hp ->|Ha ->]; [|by split; [apply inv_set_queue|]|done].
  split; [by apply (step_inv _ _ _ _ _ _ S)|]. split; [by apply (step_role _ _ _ _ _ _ S)|by apply (step_cfg _ _ _ _ _ _ S)].
Qed.

(** The roles of the units never change. *)
Lemma insert_role i t u l : l !! i = Some t -> urole u = urole t -> map urole (<[i := u]> l) = map urole l.
Proof.
  intros Hl Hr. rewrite <- (list_insert_id l i t Hl) at 2. change (map urole) with (fmap (M:=list) urole).
  by rewrite !list_fmap_insert, Hr.
Qed.

Lemma request_roles n name which w : map urole (tasks (request n name which w).1) = map urole (tasks w).
Proof.
  unfold request, unit_ix. destruct (find_ix _ _) as [[j u]|] eqn:E; [|done]. apply find_ix_spec in E.
  destruct (urole u) eqn:Hr; [by case_match..|]. destruct (pc u); try done; by eapply insert_role.
Qed.

Lemma act_roles c now a w : WInv w -> map urole (tasks (act c now a w).1) = map urole (tasks w).
Proof.
  intros HW. destruct a as [sp j e|n name which|bus to| |n name]; simpl.
  - unfold task_step. destruct (tasks w !! j) as [u|] eqn:Hu; [|done]. case_decide as Hru; [|done].
    pose proof (resume_step c (stopping w) (node_declared w) sp now e u (HW _ _ Hu Hru)) as S.
    destruct (resume _ _ _ _ _ _ _) as [[u' o'] l]. eapply insert_role; [done|]. by apply (step_role _ _ _ _ _ _ S).
  - apply request_roles.
  - rewrite map_map. apply map_ext. intros t. by case_decide.
  - done.
  - unfold stop_one. destruct (unit_ix name w) as [[j u]|]; [case_decide|]; [apply request_roles|done..].
Qed.

Lemma role_back c now a w w' o i t' :
  WInv w -> act c now a w = (w', o) -> tasks w' !! i = Some t' -> exists t, tasks w !! i = Some t /\ urole t = urole t'.
Proof.
  intros HW H Ht. pose proof (act_roles c now a w HW) as R. rewrite H in R. simpl in R.
  assert (map urole (tasks w) !! i = Some (urole t')) as E by (rewrite <- R; by rewrite list_lookup_fmap, Ht).
  rewrite list_lookup_fmap in E. destruct (tasks w !! i) as [t|]; simplify_eq/=. by exists t.
Qed.

(** What an action is to a unit, told from the unit after it. *)
Lemma act_back c now a w w' o i t' :
  WInv w -> act c now a w = (w', o) -> tasks w' !! i = Some t' -> urole t' = RSfu ->
  exists t, tasks w !! i = Some t /\ urole t = RSfu /\ Inv t = true /\ Effect c (stopping w) now i a o t t'.
Proof.
  intros HW H Ht Hr. destruct (role_back _ _ _ _ _ _ _ _ HW H Ht) as (t & Hl & Hrt). rewrite Hr in Hrt.
  destruct (act_effect _ _ _ _ _ _ _ _ HW H Hl Hrt) as (u & Hu & E). simplify_eq. exists t. split_and!; eauto.
Qed.

Lemma act_winv c now a w w' o : WInv w -> act c now a w = (w', o) -> WInv w'.
Proof.
  intros HW H i t' Ht Hr. destruct (act_back _ _ _ _ _ _ _ _ HW H Ht Hr) as (t & _ & _ & HI & E).
  by apply effect_inv in E as [? _].
Qed.

Lemma new_winv l : WInv (new_sup l).
Proof.
  intros i t Ht _. apply list_elem_of_lookup_2 in Ht. unfold new_sup in Ht. simpl in Ht.
  assert (exists r u, t = new_unit r u) as (r & u & ->).
  { rewrite elem_of_app, elem_of_cons in Ht. destruct Ht as [Ht | [Ht | Ht]]; [|by eauto|];
      apply list_elem_of_fmap in Ht as (u & -> & _); eauto. }
  unfold Inv, new_unit, ustate; simpl. by destruct (enabled u).
Qed.

(** Runs are told from their end. *)
Lemma run_snoc c l now a w :
  run c (l ++ [(now, a)]) w =
    let (w1, tr) := run c l w in let (w2, o) := act c now a w1 in (w2, tr ++ [(now, acting a, o)]).
Proof.
  revert w. induction l as [|[m b] l IH]; intros w; simpl; [by destruct (act c now a w)|].
  destruct (act c m b w) as [w1 o1]. rewrite IH. destruct (run c l w1) as [w2 tr]. by destruct (act c now a w2).
Qed.

Lemma run_winv c l w w' tr : WInv w -> run c l w = (w', tr) -> WInv w'.
Proof.
  revert w' tr. induction l as [|[now a] l IH] using rev_ind; intros w' tr HW H; [by simplify_eq/=|].
  rewrite run_snoc in H. destruct (run c l w) as [w1 tr1] eqn:E. destruct (act c now a w1) as [w2 o] eqn:Ea. simplify_eq.
  eapply act_winv; [|done]. by eapply IH.
Qed.

(** A relation of a unit and what came out so far, kept by its steps and by everything else,
    holds at the end of a run. *)
Lemma run_unit_ind c w (P : nat -> Task -> Trace -> list (Z * Act) -> Prop) :
  WInv w ->
  (forall i t, tasks w !! i = Some t -> urole t = RSfu -> P i t [] []) ->
  (forall l now a i w1 tr t o t', run c l w = (w1, tr) -> WInv w1 -> tasks w1 !! i = Some t -> Inv t = true ->
     P i t tr l -> Effect c (stopping w1) now i a o t t' -> P i t' (tr ++ [(now, acting a, o)]) (l ++ [(now, a)])) ->
  forall l w' tr i t, run c l w = (w', tr) -> tasks w' !! i = Some t -> urole t = RSfu -> P i t tr l.
Proof.
  intros HW H0 HS l. induction l as [|[now a] l IH] using rev_ind; intros w' tr i t H Ht Hr; [simplify_eq/=; by apply H0|].
  rewrite run_snoc in H. destruct (run c l w) as [w1 tr1] eqn:E. destruct (act c now a w1) as [w2 o] eqn:Ea. simplify_eq.
  pose proof (run_winv _ _ _ _ _ HW E) as HW1.
  destruct (act_back _ _ _ _ _ _ _ _ HW1 Ea Ht Hr) as (t0 & Hl & Hr0 & HI & Ef).
  eapply HS; eauto.
Qed.

Lemma outs_snoc i tr now a o : outs_of i (tr ++ [(now, a, o)]) = outs_of i tr ++ (if decide (a = Some i) then o else []).
Proof. unfold outs_of. rewrite map_app, join_app. simpl. by rewrite app_nil_r. Qed.

(** C13: A unit of the SFU has at most one process: as many were made as have ended, and one more
    while there is one; there is one only while the unit is told to start, run or stop, a
    running unit has the one it is to have, and the epoch is known exactly from its hello to
    its end. *)
Theorem sup_one_process (c : SupCfg) (units : list Cfg) (l : list (Z * Act)) (w : Sup) (tr : Trace) (i : nat) (t : Task) :
  run c l (new_sup units) = (w, tr) -> tasks w !! i = Some t -> urole t = RSfu ->
  made (outs_of i tr) = (ended (outs_of i tr) + nat_of (alive t))%nat /\
  (alive t = true -> ustate t = Starting \/ ustate t = Running \/ ustate t = Stopping) /\
  (ustate t = Running -> alive t = has_process t) /\
  (is_some (epoch (rec t)) = true <-> ustate t = Running \/ ustate t = Stopping).
Proof.
  intros H Ht Hr.
  assert (made (outs_of i tr) = (ended (outs_of i tr) + nat_of (alive t))%nat /\ Inv t = true) as [Hm HI].
  { revert H Ht Hr. apply (run_unit_ind c (new_sup units) (fun i t tr _ => made (outs_of i tr) = (ended (outs_of i tr) + nat_of (alive t))%nat /\ Inv t = true)).
    - apply new_winv.
    - intros j u Hu Hru. pose proof (new_winv units j u Hu Hru) as HI. split; [|done].
      apply list_elem_of_lookup_2 in Hu. unfold new_sup in Hu; simpl in Hu.
      rewrite elem_of_app, elem_of_cons in Hu. destruct Hu as [Hu | [-> | Hu]]; [|done|]; apply list_elem_of_fmap in Hu as (v & -> & _); done.
    - intros l' now a j w1 tr1 u o u' _ _ _ HI [IH _] E. destruct (effect_inv _ _ _ _ _ _ _ _ HI E) as (HI' & _ & _).
      split; [|done]. rewrite outs_snoc, made_app, ended_app. destruct E as [Ha (ct & _ & S)|n x Ha _ ->|Ha ->].
      + rewrite decide_True by done. pose proof (post_live _ _ _ _ _ _ _ _ S). simpl in *. lia.
      + rewrite decide_False by (by rewrite Ha). unfold alive in *; simpl. change (made []) with 0%nat. change (ended []) with 0%nat. lia.
      + rewrite decide_False by done. change (made []) with 0%nat. change (ended []) with 0%nat. lia. }
  split; [done|]. pose proof (inv_place t HI) as [_ P]. unfold alive.
  destruct (pc t); try destruct child; intuition congruence.
Qed.

(** ** The limit on restarts *)

(** What came out of the task of unit [i] at the instants [p] holds of. *)
Definition within (i : nat) (p : Z -> bool) (tr : Trace) : list Out :=
  mjoin (map (fun x : Z * option nat * list Out => if bool_decide (x.1.2 = Some i) && p x.1.1 then x.2 else []) tr).

Definition between (lo hi x : Z) : bool := (lo <=? x) && (x <=? hi).

Lemma within_snoc i p tr now a o :
  within i p (tr ++ [(now, a, o)]) = within i p tr ++ (if bool_decide (a = Some i) && p now then o else []).
Proof. unfold within. rewrite map_app, join_app. simpl. by rewrite app_nil_r. Qed.

Lemma within_ext i p q tr : (forall x, x ∈ tr -> p x.1.1 = q x.1.1) -> within i p tr = within i q tr.
Proof.
  intros H. unfold within. f_equal. apply map_ext_in. intros x Hx. rewrite H; [done|]. by apply list_elem_of_In.
Qed.

Lemma run_times c l w w' tr x : run c l w = (w', tr) -> x ∈ tr -> x.1.1 ∈ map fst l.
Proof.
  revert w w' tr. induction l as [|[now a] l IH]; intros w w' tr H Hx; simpl in H; [simplify_eq; by apply elem_of_nil in Hx|].
  destruct (act c now a w) as [w1 o]. destruct (run c l w1) as [w2 tr2] eqn:E. simplify_eq. simpl.
  apply elem_of_cons in Hx as [-> | Hx]; [by left|]. right. by eapply IH.
Qed.

Definition count_ge (lo : Z) (a : list Z) : nat := length (List.filter (fun x => lo <=? x) a).

Lemma count_ge_len lo a : (count_ge lo a <= length a)%nat.
Proof. apply filter_length_le. Qed.

Lemma count_ge_app lo a b : count_ge lo (a ++ b) = (count_ge lo a + count_ge lo b)%nat.
Proof. unfold count_ge. by rewrite List.filter_app, length_app. Qed.

(** Nothing young enough is forgotten. *)
Lemma count_ge_drop lo w now a : 0 <= w -> now - w <= lo -> count_ge lo (drop_old w now a) = count_ge lo a.
Proof.
  intros Hw Hl. induction a as [|f a IH]; [done|]. simpl. case_match eqn:E; [|done].
  rewrite IH. unfold count_ge; simpl. rewrite (proj2 (Z.leb_gt lo f)); [done|]. unfold sat_sub in E. lia.
Qed.

Lemma drop_old_length w now a : (length (drop_old w now a) <= length a)%nat.
Proof. induction a as [|f a IH]; [done|]. simpl. case_match; simpl; lia. Qed.

Record Rate (c : SupCfg) (i : nat) (t : Task) (tr : Trace) (l : list (Z * Act)) : Prop := {
  rate_len : (length (attempts (rec t)) <= length l)%nat;
  rate_from : forall now lo, (forall x, x ∈ map fst l -> x <= now) -> now - intensity_window c <= lo ->
    (tries (within i (Z.leb lo) tr) <= loads (within i (Z.leb lo) tr) + count_ge lo (attempts (rec t)))%nat;
  rate_max : forall T, Z.of_nat (tries (within i (between (T - intensity_window c) T) tr)) <=
    intensity_max c + Z.of_nat (loads (within i (between (T - intensity_window c) T) tr)) }.

(** How a step of a unit adds to its attempts. *)
Lemma step_attempts c sg now t p t' o :
  Step c sg now t p (t', o) ->
  (attempts (rec t') = attempts (rec t) /\ (tries o <= loads o)%nat) \/
  (attempts (rec t') = drop_old (intensity_window c) now (attempts (rec t) ++ [now]) /\
   (tries o = 0%nat \/ tries o = 1%nat /\ u32 (len (attempts (rec t'))) <= intensity_max c)).
Proof.
  intros (ct & Hl & P). pose proof (post_att _ _ _ _ _ _ _ _ P) as A. simpl in *. unfold att_ok in A. destruct ct.
  - destruct A as [[-> ->] | A]; [left|by right]. split; [done|lia].
  - destruct A as [-> Hn]. left. split; [done|]. specialize (Hl eq_refl). lia.
Qed.

Lemma times_snoc (l : list (Z * Act)) now a x : x ∈ map fst (l ++ [(now, a)]) <-> x ∈ map fst l \/ x = now.
Proof. rewrite map_app, elem_of_app. simpl. by rewrite list_elem_of_singleton. Qed.

Lemma rate_quiet c i t t' tr l now a o :
  attempts (rec t') = attempts (rec t) -> acting a <> Some i \/ (tries o <= loads o)%nat ->
  Rate c i t tr l -> Rate c i t' (tr ++ [(now, acting a, o)]) (l ++ [(now, a)]).
Proof.
  intros Ha Ho [L F M].
  assert (forall p (n : nat), (tries (within i p tr) <= loads (within i p tr) + n)%nat ->
    (tries (within i p (tr ++ [(now, acting a, o)])) <= loads (within i p (tr ++ [(now, acting a, o)])) + n)%nat) as Add.
  { intros p n Hn. rewrite within_snoc. case_bool_decide as Hi; simpl; [|by rewrite app_nil_r].
    destruct Ho as [?|Ho]; [done|]. destruct (p now); [rewrite tries_app, loads_app; lia|by rewrite app_nil_r]. }
  split; rewrite ?Ha.
  - rewrite length_app. lia.
  - intros m lo Hm Hlo. apply Add, (F m); [|done]. intros x Hx. apply Hm. rewrite times_snoc. by left.
  - intros T. specialize (M T). rewrite within_snoc. case_bool_decide as Hi; simpl; [|by rewrite app_nil_r].
    destruct Ho as [?|Ho]; [done|]. destruct (between _ _ now); [|by rewrite app_nil_r]. rewrite tries_app, loads_app. lia.
Qed.

Lemma rate_counted c i t t' tr l now a o w0 w :
  0 <= intensity_window c -> len l + 1 < 2 ^ 32 -> run c l w0 = (w, tr) -> (forall x, x ∈ map fst l -> x <= now) -> acting a = Some i ->
  attempts (rec t') = drop_old (intensity_window c) now (attempts (rec t) ++ [now]) ->
  (tries o = 0%nat \/ tries o = 1%nat /\ u32 (len (attempts (rec t'))) <= intensity_max c) ->
  Rate c i t tr l -> Rate c i t' (tr ++ [(now, acting a, o)]) (l ++ [(now, a)]).
Proof.
  intros HW Hlen Hrun Hle Ha Hat Ho [L F M].
  assert (length (attempts (rec t')) <= length l + 1)%nat as L'.
  { rewrite Hat. etrans; [apply drop_old_length|]. rewrite length_app. simpl. lia. }
  assert (forall m lo, (forall x, x ∈ map fst (l ++ [(now, a)]) -> x <= m) -> m - intensity_window c <= lo ->
    (tries (within i (Z.leb lo) (tr ++ [(now, acting a, o)])) <=
     loads (within i (Z.leb lo) (tr ++ [(now, acting a, o)])) + count_ge lo (attempts (rec t')))%nat) as F'.
  { intros m lo Hm Hlo.
    assert (now <= m) as Hn by (apply Hm; rewrite times_snoc; by right).
    rewrite Hat, count_ge_drop, count_ge_app by lia. rewrite within_snoc.
    specialize (F m lo ltac:(intros x Hx; apply Hm; rewrite times_snoc; by left) Hlo).
    assert (count_ge lo [now] = nat_of (lo <=? now)) as -> by (unfold count_ge; simpl; by destruct (lo <=? now)).
    rewrite bool_decide_true by done. cbn [andb]. destruct (lo <=? now); [rewrite tries_app, loads_app; simpl|rewrite app_nil_r; lia].
    destruct Ho as [-> | [-> _]]; lia. }
  split.
  - rewrite length_app. simpl. lia.
  - exact F'.
  - intros T. destruct (decide (T < now)) as [HT|HT].
    { rewrite within_snoc. unfold between at 2 4. rewrite (proj2 (Z.leb_gt now T)) by lia. rewrite !andb_false_r, app_nil_r. apply M. }
    assert (within i (between (T - intensity_window c) T) (tr ++ [(now, acting a, o)]) =
            within i (Z.leb (T - intensity_window c)) (tr ++ [(now, acting a, o)])) as E.
    { apply within_ext. intros x Hx. unfold between. rewrite (proj2 (Z.leb_le x.1.1 T)); [by rewrite andb_true_r|].
      apply elem_of_app in Hx as [Hx|Hx]; [|apply list_elem_of_singleton in Hx as ->; simpl; lia].
      specialize (Hle _ (run_times _ _ _ _ _ _ Hrun Hx)). lia. }
    destruct Ho as [Ho | [Ho Hmax]].
    + specialize (M T). rewrite within_snoc. case_match; [|by rewrite app_nil_r]. rewrite tries_app, loads_app, Ho. lia.
    + rewrite E.
      assert (forall x, x ∈ map fst (l ++ [(now, a)]) -> x <= T) as HT'.
      { intros x Hx. rewrite times_snoc in Hx. destruct Hx as [Hx | ->]; [specialize (Hle _ Hx)|]; lia. }
      specialize (F' T (T - intensity_window c) HT' ltac:(lia)).
      pose proof (count_ge_len (T - intensity_window c) (attempts (rec t'))).
      rewrite u32_id in Hmax by (unfold is_u32, len in *; lia). unfold len in Hmax. lia.
Qed.

(** An instant of a run is not before the ones before it. *)
Definition in_order (l : list (Z * Act)) : Prop := StronglySorted Z.le (map fst l).

Lemma in_order_snoc l now a : in_order (l ++ [(now, a)]) -> in_order l /\ forall x, x ∈ map fst l -> x <= now.
Proof.
  unfold in_order. rewrite map_app. intros H. apply StronglySorted_app in H as (Hx & Hl & _). split; [done|].
  intros x Hin. apply Hx; [done|]. simpl. by left.
Qed.

Lemma rate_run c w0 l w tr i t :
  WInv w0 -> (forall j u, tasks w0 !! j = Some u -> attempts (rec u) = []) -> 0 <= intensity_window c -> 0 <= intensity_max c ->
  run c l w0 = (w, tr) -> tasks w !! i = Some t -> urole t = RSfu ->
  in_order l -> len l < 2 ^ 32 -> Rate c i t tr l.
Proof.
  intros HW H0 Hw Hm. revert l w tr i t.
  refine (run_unit_ind c w0 (fun i t tr l => in_order l -> len l < 2 ^ 32 -> Rate c i t tr l) HW _ _).
  - intros i t Ht _ _ _. split; [by rewrite (H0 _ _ Ht)|intros; apply Nat.le_0_l|intros T; change (0 <= intensity_max c + 0); lia].
  - intros l now a i w1 tr t o t' Hrun _ _ _ IH E Ho Hl.
    apply in_order_snoc in Ho as [Ho Hle]. rewrite len_app in Hl. change (len [(now, a)]) with 1 in Hl.
    specialize (IH Ho ltac:(lia)).
    destruct E as [Ha S|n x Ha _ ->|Ha ->]; [|apply (rate_quiet c i t); [done|left; by rewrite Ha|done]|apply (rate_quiet c i t); [done|by left|done]].
    destruct (step_attempts _ _ _ _ _ _ _ S) as [[Hat Hn] | [Hat Hn]]; [apply (rate_quiet c i t); [done|by right|done]|].
    by eapply rate_counted.
Qed.

Lemma new_attempts l j u : tasks (new_sup l) !! j = Some u -> attempts (rec u) = [].
Proof.
  intros H. apply list_elem_of_lookup_2 in H. unfold new_sup in H; simpl in H.
  rewrite elem_of_app, elem_of_cons in H. destruct H as [H | [-> | H]]; [|done|]; by apply list_elem_of_fmap in H as (v & -> & _).
Qed.

(** C12: However a unit fails, in no stretch of time as long as the window does the supervisor try to
    make its process more often than the limit allows, besides once for each load the
    administrator was granted in that stretch. *)
Theorem sup_intensity (c : SupCfg) (units : list Cfg) (l : list (Z * Act)) (w : Sup) (tr : Trace) (i : nat) (t : Task) (T : Z) :
  0 <= intensity_window c -> 0 <= intensity_max c -> in_order l -> len l < 2 ^ 32 ->
  run c l (new_sup units) = (w, tr) -> tasks w !! i = Some t -> urole t = RSfu ->
  let stretch := within i (between (T - intensity_window c) T) tr in
  Z.of_nat (tries stretch) <= intensity_max c + Z.of_nat (loads stretch).
Proof.
  intros Hw Hm Ho Hl H Ht Hr. simpl. eapply rate_max, rate_run; eauto; [apply new_winv|apply new_attempts].
Qed.

(** ** Requests *)

Definition asked (o : list Out) : list nat := omap (fun x => match x with Asked n => Some n | _ => None end) o.

(** The requests made in a run, and the ones that wait. *)
Definition asked_in (tr : Trace) : list nat :=
  mjoin (map (fun x : Z * option nat * list Out => if decide (x.1.2 = None) then asked x.2 else []) tr).
Definition waiting (w : Sup) : list nat := mjoin (map pending (tasks w)).

Lemma waiting_insert l i t u a b :
  l !! i = Some t -> a ++ pending u ≡ₚ pending t ++ b ->
  a ++ mjoin (map pending (<[i := u]> l)) ≡ₚ mjoin (map pending l) ++ b.
Proof.
  intros Hl Hp. pose proof (lookup_lt_Some _ _ _ Hl).
  rewrite insert_take_drop by done. rewrite <- (take_drop_middle l i t Hl) at 3.
  rewrite !map_app, !join_app. simpl.
  set (A := mjoin (map pending (take i l))). set (B := mjoin (map pending (drop (S i) l))).
  transitivity ((A ++ B) ++ (a ++ pending u)); [solve_Permutation|]. rewrite Hp. solve_Permutation.
Qed.

Lemma request_waiting n name which w :
  let x := request n name which w in acked x.2 ++ waiting x.1 ≡ₚ waiting w ++ asked x.2.
Proof.
  simpl. unfold request, unit_ix. destruct (find_ix _ _) as [[j u]|] eqn:E; [|simpl; solve_Permutation].
  apply find_ix_spec in E.
  destruct (urole u) eqn:Hr; [case_match; simpl; solve_Permutation..|].
  pose proof (waiting_insert (tasks w) j u (set_queue (queue u ++ [(n, cmd_of which)]) u) [] [n] E) as Q.
  destruct (pc u) eqn:Hp; try (simpl; solve_Permutation); apply Q; unfold pending; simpl; rewrite map_app, Hp; simpl; solve_Permutation.
Qed.

Lemma act_waiting c now a w w' o :
  WInv w -> act c now a w = (w', o) ->
  acked o ++ waiting w' ≡ₚ waiting w ++ (if decide (acting a = None) then asked o else []).
Proof.
  intros HW H. destruct a as [sp j e|n name which|bus to| |n name]; simpl in H |- *.
  - rewrite app_nil_r. unfold task_step in H. destruct (tasks w !! j) as [u|] eqn:Hu; simplify_eq; [|done].
    case_decide as Hru; simplify_eq; [|done].
    pose proof (resume_step c (stopping w) (node_declared w) sp now e u (HW _ _ Hu Hru)) as (ct & _ & S).
    destruct (resume _ _ _ _ _ _ _) as [[u' o'] l]. simplify_eq/=.
    rewrite <- (app_nil_r (waiting w)). eapply waiting_insert; [done|]. rewrite app_nil_r. apply (post_acks _ _ _ _ _ _ _ _ S).
  - pose proof (request_waiting n name which w) as P. by rewrite H in P.
  - simplify_eq. simpl. unfold waiting; simpl. rewrite app_nil_r, map_map.
    rewrite (map_ext _ pending); [done|]. intros t. by case_decide.
  - simplify_eq. simpl. by rewrite app_nil_r.
  - unfold stop_one in H. destruct (unit_ix name w) as [[j u]|]; [case_decide|]; simplify_eq;
      [|simpl; by rewrite app_nil_r..]. pose proof (request_waiting n name "stop" w) as P. by rewrite H in P.
Qed.

Lemma new_waiting units : waiting (new_sup units) = [].
Proof.
  unfold waiting, new_sup; simpl.
  assert (forall r l, mjoin (map pending (map (new_unit r) l)) = []) as E by (intros r l; induction l; [done|]; by simpl).
  rewrite map_app, join_app. simpl. by rewrite !E.
Qed.

(** Every request is answered once or still waits, and a unit whose loop has ended has left
    none waiting: the answers and the requests that wait are the requests made. *)
Theorem sup_answers (c : SupCfg) (units : list Cfg) (l : list (Z * Act)) (w : Sup) (tr : Trace) :
  run c l (new_sup units) = (w, tr) ->
  acked (all_outs tr) ++ waiting w ≡ₚ asked_in tr /\
  (forall i t, tasks w !! i = Some t -> urole t = RSfu -> pc t = Fin -> pending t = []).
Proof.
  intros H. split; cycle 1.
  { intros i t Ht Hr Hp. pose proof (run_winv _ _ _ _ _ (new_winv units) H i t Ht Hr) as HI.
    apply inv_place in HI as [_ P]. rewrite Hp in P. destruct P as [Hq _]. unfold pending. by rewrite Hp, Hq. }
  revert w tr H. induction l as [|[now a] l IH] using rev_ind; intros w tr H; [simplify_eq/=; by rewrite new_waiting|].
  rewrite run_snoc in H. destruct (run c l (new_sup units)) as [w1 tr1] eqn:E. destruct (act c now a w1) as [w2 o] eqn:Ea. simplify_eq.
  specialize (IH _ _ eq_refl). pose proof (act_waiting _ _ _ _ _ _ (run_winv _ _ _ _ _ (new_winv units) E) Ea) as P.
  unfold all_outs, asked_in in *. rewrite !map_app, !join_app. simpl. rewrite !app_nil_r, acked_app, <- (assoc _), P, (assoc _), IH. done.
Qed.

(** ** The shutdown *)

Lemma act_stopping c now a w : stopping w = true -> stopping (act c now a w).1 = true.
Proof.
  intros H. destruct a; simpl; auto.
  - unfold task_step. repeat case_match; by simplify_eq/=.
  - unfold request. repeat case_match; by simplify_eq/=.
  - unfold stop_one, request. repeat case_match; by simplify_eq/=.
Qed.

Lemma run_stopping c l w w' tr : stopping w = true -> run c l w = (w', tr) -> stopping w' = true.
Proof.
  revert w w' tr. induction l as [|[now a] l IH]; intros w w' tr Hs H; simpl in H; [by simplify_eq|].
  pose proof (act_stopping c now a w Hs) as Hs'. destruct (act c now a w) as [w1 o]. destruct (run c l w1) as [w2 tr2] eqn:E. simplify_eq.
  by eapply IH.
Qed.

(** Once the shutdown has begun a unit is started at most once more, and not at all when it has
    a process. *)
Theorem sup_shutdown_starts (c : SupCfg) (units : list Cfg) (before after : list (Z * Act)) (w w' : Sup) (tr tr' : Trace) (i : nat) (t : Task) :
  run c before (new_sup units) = (w, tr) -> stopping w = true -> run c after w = (w', tr') ->
  tasks w !! i = Some t -> urole t = RSfu ->
  (tries (outs_of i tr') <= 1)%nat /\ (alive t = true -> tries (outs_of i tr') = 0%nat).
Proof.
  intros H Hs H' Ht Hr. pose proof (run_winv _ _ _ _ _ (new_winv units) H) as HW.
  assert (exists t', tasks w' !! i = Some t' /\ urole t' = RSfu) as (t' & Ht' & Hr').
  { clear - HW H' Ht Hr. revert w t tr' HW H' Ht Hr. induction after as [|[now a] l IH]; intros w t tr' HW H' Ht Hr; simpl in H'; [by simplify_eq; eauto|].
    destruct (act c now a w) as [w1 o] eqn:Ea. destruct (run c l w1) as [w2 tr2] eqn:E. simplify_eq.
    destruct (act_effect _ _ _ _ _ _ _ _ HW Ea Ht Hr) as (u & Hu & Ef).
    destruct (effect_inv _ _ _ _ _ _ _ _ (HW _ _ Ht Hr) Ef) as (_ & Hru & _).
    eapply (IH w1 u); eauto; [by eapply act_winv|congruence]. }
  assert (exists t0, tasks w !! i = Some t0 /\ (tries (outs_of i tr') + starts_left t' <= starts_left t0)%nat) as (t0 & H0 & Hn).
  { revert H' Ht' Hr'. apply (run_unit_ind c w (fun i t' tr' _ => exists t0, tasks w !! i = Some t0 /\ (tries (outs_of i tr') + starts_left t' <= starts_left t0)%nat) HW).
    - intros j u Hu _. exists u. split; [done|]. apply Nat.le_refl.
    - intros l now a j w1 tr1 u o u' Hrun _ _ _ (t0 & H0 & IH) E. exists t0. split; [done|].
      rewrite outs_snoc, tries_app. destruct E as [Ha (ct & _ & S)|n x Ha _ ->|Ha ->].
      + rewrite decide_True by done. pose proof (post_left _ _ _ _ _ _ _ _ S (run_stopping _ _ _ _ _ Hs Hrun)). simpl in *.
        unfold starts_left in *. simpl in *. lia.
      + rewrite decide_False by (by rewrite Ha). change (tries []) with 0%nat. unfold starts_left in *; simpl. lia.
      + rewrite decide_False by done. change (tries []) with 0%nat. lia. }
  simplify_eq. unfold starts_left, alive in *. destruct (pc t); split; intros; try done; lia.
Qed.

(** A unit that is down when the shutdown begins is asked nothing, because it does not run; when
    its pause ends its process is made all the same, and it runs once it has said hello. The
    mark of the shutdown is looked at only at the top of the loop. *)
Theorem sup_revived_in_shutdown (c : SupCfg) (w : Sup) (i : nat) (t : Task) (now later : Z) (prog ep bd : string) (args : list string) :
  WInv w -> stopping w = true -> tasks w !! i = Some t -> urole t = RSfu ->
  pc t = Pause -> (forall r, next_retry_at (rec t) = Some r -> r <= now) ->
  kind (cfg t) = Process -> cmd (cfg t) = prog :: args ->
  (note_attempt c now true (rec t)).2 = false ->
  (forall n, unit_ix (id (cfg t)) w = Some (i, t) -> stop_one n (id (cfg t)) w = (w, [])) /\
  exists w1 w2 o t2, task_step c true now i ESleep w = (w1, [Line Down Starting; Spawn true]) /\
    task_step c true later i (EHello (Some (ep, bd))) w1 = (w2, o) /\
    stopping w2 = true /\ tasks w2 !! i = Some t2 /\ ustate t2 = Running /\ local w2 = Some (id (cfg t), ep).
Proof.
  intros HW Hs Ht Hr Hp Hdue Hk Hc Hb. pose proof (inv_place t (HW _ _ Ht Hr)) as [Hct Hpl]. rewrite Hp in Hpl.
  destruct Hpl as (Hf & He & Hst & Hn). split.
  { intros n Hu. unfold stop_one. rewrite Hu, decide_False; [done|]. by rewrite Hst. }
  assert (exists t1, resume c true (node_declared w) true now ESleep t = (t1, [Line Down Starting; Spawn true], None) /\
    pc t1 = Hello true /\ urole t1 = RSfu /\ cfg t1 = cfg t) as (t1 & E1 & Hp1 & Hr1 & Hc1).
  { unfold resume. rewrite Hp. destruct (next_retry_at (rec t)) as [r|] eqn:Er; [|done]. rewrite (proj2 (Z.leb_le r now)) by auto.
    unfold set, then_attempt, attempt. cbn [first upd_rec]. rewrite Hf. unfold launch. cbn [counted upd_rec]. rewrite Hct.
    assert ((note_attempt c now true (rec (upd_rec (set_rec Starting) t))).2 = false) as Hb' by exact Hb.
    destruct (note_attempt c now true (rec (upd_rec (set_rec Starting) t))) as [r1 b1]. simpl in Hb'. subst b1.
    unfold has_process; simpl. rewrite Hk, Hc, Hst. unfold line; simpl. eexists. by split_and!. }
  unfold task_step at 1. rewrite Ht, decide_True, Hs, E1 by done. simpl.
  rewrite Hp, orb_false_r. unfold task_step. cbn [tasks].
  assert (exists t2 o, resume c true (node_declared w) true later (EHello (Some (ep, bd))) t1 = (t2, o, Some (Some (id (cfg t), ep))) /\ ustate t2 = Running) as (t2 & o & E2 & H2).
  { unfold resume. rewrite Hp1, <- Hc1. unfold became_running, set. destruct (node_declared w); eexists _, _; by split. }
  eexists _, _, o, t2. split; [done|]. cbn [tasks stopping node_declared local].
  rewrite list_lookup_insert_eq by (by eapply lookup_lt_Some). rewrite decide_True, E2 by done. split; [done|].
  cbn [tasks stopping local]. rewrite list_lookup_insert_eq by (rewrite length_insert; by eapply lookup_lt_Some). done.
Qed.

(** The loop of a disabled unit is never started, so nobody takes a request for it from the
    queue: it is never answered. *)
Theorem sup_disabled_unanswered (c : SupCfg) (units : list Cfg) (before after : list (Z * Act)) (w w' : Sup) (tr tr' : Trace) (i : nat) (t : Task) (n : nat) :
  run c before (new_sup units) = (w, tr) -> tasks w !! i = Some t -> urole t = RSfu -> ustate t = Disabled ->
  n ∈ pending t -> run c after w = (w', tr') ->
  exists t', tasks w' !! i = Some t' /\ ustate t' = Disabled /\ n ∈ pending t' /\ outs_of i tr' = [].
Proof.
  intros H Ht Hr Hd Hn H'. pose proof (run_winv _ _ _ _ _ (new_winv units) H) as HW. clear H tr before.
  revert w t tr' HW Ht Hr Hd Hn H'. induction after as [|[now a] l IH]; intros w t tr' HW Ht Hr Hd Hn H'; simpl in H'; [by simplify_eq; eauto|].
  destruct (act c now a w) as [w1 o] eqn:Ea. destruct (run c l w1) as [w2 tr2] eqn:E. simplify_eq.
  pose proof (act_winv _ _ _ _ _ _ HW Ea) as HW1.
  pose proof (inv_place t (HW _ _ Ht Hr)) as [_ Hpl].
  assert (pc t = New) as Hp by (destruct (pc t); intuition congruence).
  assert (exists u, tasks w1 !! i = Some u /\ urole u = RSfu /\ ustate u = Disabled /\ n ∈ pending u /\ (acting a = Some i -> o = [])) as (u & Hu & Hru & Hdu & Hnu & Ho).
  { destruct (act_effect _ _ _ _ _ _ _ _ HW Ea Ht Hr) as (u & Hu & Ef). exists u. split; [done|].
    destruct Ef as [Ha S|m x Ha _ ->|Ha ->]; [| |by split_and!].
    - destruct a as [sp j e| | | |]; simpl in Ha; try done. simplify_eq. simpl in Ea. unfold task_step in Ea.
      rewrite Ht, decide_True in Ea by done.
      assert (resume c (stopping w) (node_declared w) sp now e t = (t, [], None)) as Er
        by (unfold resume; rewrite Hp; destruct e; try done; by rewrite decide_True).
      rewrite Er in Ea. simplify_eq/=. rewrite list_lookup_insert_eq in Hu by (by eapply lookup_lt_Some). by simplify_eq.
    - split_and!; try done; [|by rewrite Ha]. unfold pending in *; simpl. rewrite map_app. rewrite Hp in *. simpl in *. set_solver. }
  destruct (IH w1 u tr2 HW1 Hu Hru Hdu Hnu E) as (t' & Ht' & Hd' & Hn' & Ho').
  exists t'. split_and!; try done. unfold outs_of in *. simpl. rewrite Ho'. case_decide as Hi; [|done]. simpl in *. by rewrite (Ho Hi).
Qed.

(** ** Runs *)

Definition cfg1 : Cfg := mkCfg "sfu" Process 1 "sfu" true ["oxsfud"].
Definition cfg2 : Cfg := mkCfg "spare" Process 2 "sfu" false ["oxsfud"].
Definition sup1 : SupCfg := mkSup [200; 500; 1000] 5 60000.

(** The unit runs, its process ends, and the shutdown begins in the pause. *)
Definition run1 : list (Z * Act) :=
  [(0, ATask true 1 EStart); (10, ATask true 1 EPort); (20, ATask true 1 (EHello (Some ("e1", "b"))));
   (21, ATask true 1 EDeclared); (30, ATask true 1 EGone); (35, ARequest 1 "sfu" "load"); (36, ATask true 1 ERecv);
   (37, ARequest 2 "spare" "load"); (40, AStopAll); (41, AStopOne 3 "sfu")].
Definition world1 : Sup := Eval vm_compute in (run sup1 run1 (new_sup [cfg2; cfg1])).1.
Definition trace1 : Trace := Eval vm_compute in (run sup1 run1 (new_sup [cfg2; cfg1])).2.

Lemma run1_eq : run sup1 run1 (new_sup [cfg2; cfg1]) = (world1, trace1).
Proof. vm_compute. reflexivity. Qed.

Definition unit1 : Task := Eval vm_compute in default (new_unit RSfu cfg1) (tasks world1 !! 1%nat).
Definition unit2 : Task := Eval vm_compute in default (new_unit RSfu cfg2) (tasks world1 !! 2%nat).

Lemma sup_one_process_witness :
  made (outs_of 1 trace1) = (ended (outs_of 1 trace1) + nat_of (alive unit1))%nat /\ pc unit1 = Pause.
Proof. split; [|vm_compute; reflexivity]. exact (proj1 (sup_one_process sup1 [cfg2; cfg1] run1 world1 trace1 1 unit1 run1_eq eq_refl eq_refl)). Defined.

Lemma sup_intensity_witness :
  let stretch := within 1 (between (50 - 60000) 50) trace1 in Z.of_nat (tries stretch) <= 5 + Z.of_nat (loads stretch).
Proof.
  assert (in_order run1) as Ho by (unfold in_order; simpl; repeat constructor; lia).
  exact (sup_intensity sup1 [cfg2; cfg1] run1 world1 trace1 1 unit1 50 ltac:(simpl; lia) ltac:(simpl; lia) Ho ltac:(vm_compute; reflexivity) run1_eq eq_refl eq_refl).
Defined.

Lemma sup_answers_witness : acked (all_outs trace1) ++ waiting world1 ≡ₚ asked_in trace1 /\ asked_in trace1 = [1; 2]%nat /\ acked (all_outs trace1) = [1%nat].
Proof. split; [|split; vm_compute; reflexivity]. exact (proj1 (sup_answers sup1 [cfg2; cfg1] run1 world1 trace1 run1_eq)). Defined.

Lemma sup_shutdown_starts_witness :
  exists w' tr', run sup1 [(240, ATask true 1 ESleep); (250, ATask true 1 (EHello None)); (260, ATask true 1 EGone)] world1 = (w', tr') /\
    (tries (outs_of 1 tr') <= 1)%nat.
Proof.
  eexists _, _. split; [apply surjective_pairing|].
  exact (proj1 (sup_shutdown_starts sup1 [cfg2; cfg1] run1 _ world1 _ trace1 _ 1 unit1 run1_eq eq_refl (surjective_pairing _) eq_refl eq_refl)).
Defined.

Lemma sup_revived_in_shutdown_witness :
  exists w1 w2 o t2, task_step sup1 true 240 1 ESleep world1 = (w1, [Line Down Starting; Spawn true]) /\
    task_step sup1 true 250 1 (EHello (Some ("e2", "b"))) w1 = (w2, o) /\
    stopping w2 = true /\ tasks w2 !! 1%nat = Some t2 /\ ustate t2 = Running /\ local w2 = Some ("sfu", "e2").
Proof.
  assert (forall r, next_retry_at (rec unit1) = Some r -> r <= 240) as Hr by (intros r Hr; vm_compute in Hr; injection Hr as <-; lia).
  exact (proj2 (sup_revived_in_shutdown sup1 world1 1 unit1 240 250 "oxsfud" "e2" "b" []
    (run_winv sup1 run1 _ _ _ (new_winv [cfg2; cfg1]) run1_eq) eq_refl eq_refl eq_refl eq_refl Hr eq_refl eq_refl eq_refl)).
Defined.

Lemma sup_disabled_unanswered_witness :
  exists w' tr' t', run sup1 [(50, ATask true 2 EStart); (60, ATask true 2 ERecv)] world1 = (w', tr') /\
    tasks w' !! 2%nat = Some t' /\ ustate t' = Disabled /\ 2%nat ∈ pending t' /\ outs_of 2 tr' = [].
Proof.
  destruct (sup_disabled_unanswered sup1 [cfg2; cfg1] run1 [(50, ATask true 2 EStart); (60, ATask true 2 ERecv)] world1
    _ trace1 _ 2 unit2 2 run1_eq eq_refl eq_refl eq_refl (list_elem_of_here _ _) (surjective_pairing _)) as (t' & H).
  eexists _, _, t'. split; [apply surjective_pairing|exact H].
Defined.

End SupThm.
