(* ===== verification/Media.v ===== *)
(** * Publishing

    crates/oxsfud/src/ops/media.rs: the requests that change what is published (publishing and
    unpublishing tracks, setting them, moving to another room) with their checks in their
    order; crates/oxsfud/src/pub/mod.rs: the registers of streams, the index of the packets
    that come in, and the layers of simulcast that are learnt from the first packet;
    crates/oxsfud/src/gc/mod.rs: what leaving a room does to them.

    A stream is named by its track id and stays in [heap] when it is no longer registered,
    because a task may still hold it. What the JSON library makes of an item of a request is
    the item: its fields read one by one, what is missing, and the whole. The random ids, who
    holds the floor of a room and which SSRCs a table uses are arguments ([Env]). A function of
    the model runs without interruption. The rest of what the sources call appears as an
    effect. *)

From S2P Require Import Prelude Room Tracks.

Module Media.
Import Trk.

Definition PER_REQUEST : Z := 8.
Definition PER_PERSON : Z := 16.

Inductive Failure :=
  | RoomNotFound | NotInRoom | NotAuthorized (denied : list string) | NotPubRoom | TrackLimit (limit current : Z)
  | MissingField (k : string) | InvalidPayload | SsrcCollision | CodecRequired | CodecMismatch (d : string * option string)
  | TrackOpUnsupported | TrackNotFound | FieldConflict | PeerNotFound.

(** What a handler answers; [Panics]: the thread does. *)
Inductive Res (A : Type) := Good (a : A) | Bad (f : Failure) | Panics.
Arguments Good {A} a.
Arguments Bad {A} f.
Arguments Panics {A}.

Inductive PublishState := Created | Intended | Active.
#[export] Instance PublishState_eq_dec : EqDecision PublishState.
Proof. solve_decision. Defined.

(** One uplink SSRC of a stream. *)
Record PubTrack := mkTrack { t_ssrc : Z; t_rtx : option Z; t_rid : option Z }.

Record PubStream := mkPub {
  info : Stream; mid : string; pt : Z; rtx_pt : option Z; ssrc : Z; rtx_ssrc : option Z; pstate : PublishState; phys : list PubTrack }.

Record ExtIds := mkIds { x_mid : Z; x_rid : Z; x_repair_rid : Z; x_twcc : Z; x_audio_level : Z }.
Record ExtReq := mkExtReq { r_twcc : option Z; r_rid : option Z; r_repair_rid : option Z; r_mid : option Z; r_audio_level : option Z }.

(** The index of a transport leads to a stream and the place of the track in it. *)
Record Peer := mkPeer {
  pc_one : bool; joined_rooms : gmap string string; pub_room : option string; ingress : gmap Z (string * nat); ext_ids : ExtIds }.

Record RoomM := mkRoom { media_codecs : MediaCodecs; rstate : Room.RoomState }.

Record World := mkWorld {
  heap : gmap string PubStream; tracks : gset string; ctxs : gmap string (gset string); peers : gmap string Peer; rooms : gmap string RoomM }.

Definition set_heap v w := mkWorld v (tracks w) (ctxs w) (peers w) (rooms w).
Definition set_tracks v w := mkWorld (heap w) v (ctxs w) (peers w) (rooms w).
Definition set_ctxs v w := mkWorld (heap w) (tracks w) v (peers w) (rooms w).
Definition set_peers v w := mkWorld (heap w) (tracks w) (ctxs w) v (rooms w).
Definition set_rooms v w := mkWorld (heap w) (tracks w) (ctxs w) (peers w) v.

Inductive FloorEntry := FRelease | FPubAway | FPubSelect | FLeave | FJoin (floor_request : bool).

Inductive Eff :=
  | ETrackEvent (room : string) (add : bool) (l : list TrackEntry) (version : Z)
  | ETrackState (room tid : string) (muted : bool) (version : Z)
  | EResync (room : string)
  | EFloor (room user : string) (e : FloorEntry)
  | EUplink (user : string) (add : bool) (l : list Z)
  | EPliBurst (tid : string)
  | EActive (tid : string)
  | ELeft (room user : string) (version : Z).

Record Env := mkEnv { holder : string -> option string; down_ssrcs : string -> option (gset Z) }.

(** What is done after another, with the effects in order. *)
Definition andthen (x : World * list Eff) (f : World -> World * list Eff) : World * list Eff :=
  let (w, e) := x in let (w', e') := f w in (w', e ++ e').
Notation "x >>> f" := (andthen x f) (at level 69, left associativity).

(** ** The registers *)

(** The streams of a [PubCtx], by track id. *)
Fixpoint place_id (x : string) (l : list string) : list string :=
  match l with
  | [] => [x]
  | y :: l' => if String.leb x y then x :: l else y :: place_id x l'
  end.
Definition ctx_ids (u : string) (w : World) : list string := foldr place_id [] (elements (default ∅ (ctxs w !! u))).
Definition ctx_streams (u : string) (w : World) : list PubStream := omap (fun t => heap w !! t) (ctx_ids u w).

Definition active (u : string) (w : World) : Z := Z.of_nat (size (default ∅ (ctxs w !! u))).

Definition ctx_find (u tid : string) (w : World) : option PubStream :=
  let? c := ctxs w !! u in if bool_decide (tid ∈ c) then heap w !! tid else None.

Definition by_ssrc (u : string) (x : Z) (w : World) : option PubStream := List.find (fun s => ssrc s =? x) (ctx_streams u w).

(** [Pubs::ctx]: made when it is not there. *)
Definition ensure_ctx (u : string) (w : World) : World :=
  match ctxs w !! u with Some _ => w | None => w |> set_ctxs (<[u := ∅]> (ctxs w)) end.

(** [Sfu::stream]. *)
Definition stream (tid : string) (w : World) : option PubStream := if bool_decide (tid ∈ tracks w) then heap w !! tid else None.

Definition room_streams (r : string) (w : World) : list PubStream :=
  List.filter (fun s => listed (info s) r) (omap (fun t => heap w !! t) (elements (tracks w))).

Definition tid_of (s : PubStream) : string := track_id (info s).

Definition upd (tid : string) (f : PubStream -> PubStream) (w : World) : World := w |> set_heap (alter f tid (heap w)).
Definition upd_info (f : Stream -> Stream) (s : PubStream) : PubStream :=
  mkPub (f (info s)) (mid s) (pt s) (rtx_pt s) (ssrc s) (rtx_ssrc s) (pstate s) (phys s).
Definition with_phys (l : list PubTrack) (s : PubStream) : PubStream :=
  mkPub (info s) (mid s) (pt s) (rtx_pt s) (ssrc s) (rtx_ssrc s) (pstate s) l.
Definition with_pstate (p : PublishState) (s : PubStream) : PubStream :=
  mkPub (info s) (mid s) (pt s) (rtx_pt s) (ssrc s) (rtx_ssrc s) p (phys s).

Definition store_listed (b : bool) (i : Stream) : Stream :=
  mkStream (track_id i) (user i) (kind i) (codec i) (fmtp i) (source i) (simulcast i) (duplex i) (muted i) (room i) b.
Definition store_muted (b : bool) (i : Stream) : Stream :=
  mkStream (track_id i) (user i) (kind i) (codec i) (fmtp i) (source i) (simulcast i) (duplex i) b (room i) (listed_flag i).
Definition store_duplex (d : Duplex) (i : Stream) : Stream :=
  mkStream (track_id i) (user i) (kind i) (codec i) (fmtp i) (source i) (simulcast i) d (muted i) (room i) (listed_flag i).
Definition store_room (r : string) (i : Stream) : Stream :=
  mkStream (track_id i) (user i) (kind i) (codec i) (fmtp i) (source i) (simulcast i) (duplex i) (muted i) r (listed_flag i).

Definition upd_peer (u : string) (f : Peer -> Peer) (w : World) : World := w |> set_peers (alter f u (peers w)).
Definition with_ingress (m : gmap Z (string * nat)) (p : Peer) : Peer := mkPeer (pc_one p) (joined_rooms p) (pub_room p) m (ext_ids p).
Definition with_pub_room (r : option string) (p : Peer) : Peer := mkPeer (pc_one p) (joined_rooms p) r (ingress p) (ext_ids p).
Definition with_rooms (m : gmap string string) (p : Peer) : Peer := mkPeer (pc_one p) m (pub_room p) (ingress p) (ext_ids p).
Definition with_ext (x : ExtIds) (p : Peer) : Peer := mkPeer (pc_one p) (joined_rooms p) (pub_room p) (ingress p) x.

(** ** Notices *)

(** [bump_and_send] of a room that is there. *)
Definition bump (r : string) (f : Z -> Eff) (w : World) : World * list Eff :=
  match rooms w !! r with
  | Some m =>
    let '(st, _, v) := Room.bump_and_send (fun _ => Some Room.Other) (rstate m) in
    (w |> set_rooms (<[r := mkRoom (media_codecs m) st]> (rooms w)), [f v])
  | None => (w, [])
  end.

Definition track_event (r : string) (add : bool) (l : list TrackEntry) (w : World) : World * list Eff := bump r (ETrackEvent r add l) w.

Definition resync_room (r : string) (w : World) : World * list Eff :=
  match rooms w !! r with Some _ => (w, [EResync r]) | None => (w, []) end.

(** [announce_add], of a stream that was learnt; the room is the one it publishes in then. *)
Definition announce_add (tid : string) (w : World) : World * list Eff :=
  match heap w !! tid with
  | Some s =>
    let r := room (info s) in
    match rooms w !! r with
    | Some _ =>
      track_event r true [entry (info s)] w
      >>> (fun w => if decide (pstate s = Active) then (w, []) else (w |> upd tid (with_pstate Active), [EActive tid]))
      >>> resync_room r
    | None => (w, [])
    end
  | None => (w, [])
  end.

Definition release_floor_if_speaker (e : Env) (u r : string) (w : World) : World * list Eff :=
  match rooms w !! r with
  | Some _ => if bool_decide (holder e r = Some u) then (w, [EFloor r u FRelease]) else (w, [])
  | None => (w, [])
  end.

(** ** Who may *)

Definition joined (u r : string) (w : World) : result (Peer * RoomM) Failure :=
  match rooms w !! r with
  | None => Err RoomNotFound
  | Some m =>
    match peers w !! u with
    | None => Err NotInRoom
    | Some p => if bool_decide (is_Some (joined_rooms p !! r)) then Ok (p, m) else Err NotInRoom
    end
  end.

Definition joined_as (u r j : string) (w : World) : result (Peer * RoomM) Failure :=
  match joined u r w with
  | Ok (p, m) => if bool_decide (joined_rooms p !! r = Some j) then Ok (p, m) else Err NotInRoom
  | Err f => Err f
  end.

(** ** Setting a track *)

Definition set_duplex_of (e : Env) (u : string) (pr : option string) (r tid : string) (d : Duplex) (w : World) : World * list Eff * result bool Failure :=
  match heap w !! tid with
  | None => (w, [], Err TrackNotFound)
  | Some s =>
    if decide (duplex (info s) = d) then (w, [], Ok true)
    else if simulcast (info s) then (w, [], Err TrackOpUnsupported)
    else if bool_decide (d = Full) && negb (bool_decide (pr = Some r)) then (w, [], Err NotPubRoom)
    else
      let i := store_listed true (store_muted false (store_duplex d (info s))) in
      let (w, o) :=
        (if decide (d = Full) then release_floor_if_speaker e u (room (info s)) w else (w, []))
        >>> (fun w => (w |> upd tid (upd_info (fun _ => i)), []))
        >>> track_event r true [entry i]
        >>> resync_room r
        >>> (fun w => if bool_decide (d = Full) && bool_decide (kind (info s) = Video) then (w, map (fun _ => EPliBurst tid) (phys s)) else (w, [])) in
      (w, o, Ok false)
  end.

Definition is_some {A} (o : option A) : bool := match o with Some _ => true | None => false end.

Record TrackSetRes := mkSetRes { res_ssrc : Z; res_muted : option bool; res_duplex : option Duplex; res_noop : bool }.

(** TRACK_SET. *)
Definition track_set (e : Env) (u r j : string) (tid : option string) (x : option Z) (mut : option bool) (dup : option Duplex) (w : World)
  : World * list Eff * Res TrackSetRes :=
  match joined_as u r j w with
  | Err f => (w, [], Bad f)
  | Ok (p, _) =>
    if eqb (is_some mut) (is_some dup) then (w, [], Bad FieldConflict)
    else if negb (is_some (ctxs w !! u)) then (w, [], Bad TrackNotFound)
    else
      match tid, x with
      | None, None => (w, [], Bad (MissingField "track_id/ssrc"))
      | _, _ =>
        match (match tid, x with Some t, _ => ctx_find u t w | None, Some x => by_ssrc u x w | None, None => None end) with
        | None => (w, [], Bad TrackNotFound)
        | Some s =>
          match mut with
          | Some m =>
            if is_half (info s) then (w, [], Bad TrackOpUnsupported)
            else if eqb (muted (info s)) m then (w, [], Good (mkSetRes (ssrc s) (Some m) None true))
            else
              let (w, o) :=
                (w |> upd (tid_of s) (upd_info (store_muted m)), [])
                >>> (fun w => if listed_flag (info s) then bump (room (info s)) (ETrackState (room (info s)) (tid_of s) m) w else (w, [])) in
              (w, o, Good (mkSetRes (ssrc s) (Some m) None false))
          | None =>
            let d := default Full dup in
            match set_duplex_of e u (pub_room p) r (tid_of s) d w with
            | (w, o, Ok noop) => (w, o, Good (mkSetRes (ssrc s) None (Some d) noop))
            | (w, o, Err f) => (w, o, Bad f)
            end
          end
        end
      end
  end.

(** ** Publishing *)

Record PublishTrack := mkPT {
  p_kind : Kind; p_ssrc : Z; p_rtx_ssrc : option Z; p_mid : string; p_pt : Z; p_rtx_pt : option Z; p_codec : option string;
  p_fmtp : option string; p_source : option Source; p_simulcast : option bool; p_duplex : option Duplex }.

(** An item of the request: the fields the handler reads alone, the first of the four it needs
    that is missing, and the whole of it. *)
Record Item := mkItem {
  i_kind : option Kind; i_source : option Source; i_duplex : option Duplex; i_mid : option string;
  i_missing : option string; i_body : option PublishTrack }.

Definition same_mid (u : string) (items : list Item) (w : World) : list (option PubStream) :=
  map (fun it => let? m := i_mid it in List.find (fun s => String.eqb (mid s) m) (ctx_streams u w)) items.

Fixpoint again_loop (l : list (Item * option PubStream)) : option (list (string * string)) :=
  match l with
  | [] => Some []
  | (it, None) :: _ => None
  | (it, Some s) :: l =>
    if decide (default Full (i_duplex it) = duplex (info s)) then let? r := again_loop l in Some ((mid s, tid_of s) :: r) else None
  end.

(** A request that was answered before. *)
Definition add_again (u : string) (items : list Item) (w : World) : option (list (string * string)) :=
  let? l := again_loop (zip items (same_mid u items w)) in match l with [] => None | _ => Some l end.

(** The bits an item needs and the permission does not have, each once, in order. *)
Definition denied (p : Room.Permission) (items : list Item) : list string :=
  let l := omap (fun it => let? k := i_kind it in if bit_allows p k (i_source it) then None else Some (bit_name k (i_source it))) items in
  List.filter (fun n => existsb (String.eqb n) l) ["publish_audio"; "publish_screen"; "publish_video"].

Fixpoint parse_items (rid : option Z) (items : list Item) : result (list PublishTrack) Failure :=
  match items with
  | [] => Ok []
  | it :: l =>
    match i_missing it, i_body it with
    | Some k, _ => Err (MissingField k)
    | None, None => Err InvalidPayload
    | None, Some t =>
      if String.eqb (p_mid t) "" then Err (MissingField "mid")
      else if default false (p_simulcast t) && negb (is_some rid) then Err (MissingField "rid_extmap_id")
      else match parse_items rid l with Ok ts => Ok (t :: ts) | Err f => Err f end
    end
  end.

Fixpoint check_codecs (c : MediaCodecs) (ts : list PublishTrack) : Res unit :=
  match ts with
  | [] => Good tt
  | t :: l =>
    match p_kind t with
    | Audio => check_codecs c l
    | Video =>
      match (let? n := p_codec t in canonical_video n) with
      | None => Bad CodecRequired
      | Some n =>
        match matches_room Video (Some n) (p_fmtp t) c with
        | None => Panics
        | Some false => Bad (CodecMismatch (mismatch Video c))
        | Some true => check_codecs c l
        end
      end
    end
  end.

Definition collides (down : gset Z) (t : PublishTrack) : bool :=
  bool_decide (p_ssrc t ∈ down) || match p_rtx_ssrc t with Some r => bool_decide (r ∈ down) | None => false end.

Definition merge_ext (x : ExtReq) (i : ExtIds) : ExtIds :=
  mkIds (default (x_mid i) (r_mid x)) (default (x_rid i) (r_rid x)) (default (x_repair_rid i) (r_repair_rid x))
    (default (x_twcc i) (r_twcc x)) (default (x_audio_level i) (r_audio_level x)).

(** [index_add] and [index_remove]. *)
Definition index_add (u tid : string) (n : nat) (t : PubTrack) (w : World) : World :=
  upd_peer u (fun p =>
    let m := <[t_ssrc t := (tid, n)]> (ingress p) in
    with_ingress (match t_rtx t with Some r => <[r := (tid, n)]> m | None => m end) p) w.
Definition index_remove (u tid : string) (w : World) : World :=
  upd_peer u (fun p => with_ingress (filter (fun kv : Z * (string * nat) => kv.2.1 <> tid) (ingress p)) p) w.

(** The stream of a track that is not published yet. *)
Definition new_stream (tid u r : string) (t : PublishTrack) : PubStream :=
  let d := default Full (p_duplex t) in
  let simul := default false (p_simulcast t) && bool_decide (p_kind t = Video) && bool_decide (d = Full) in
  let c := match p_kind t with Video => let? n := p_codec t in canonical_video n | Audio => p_codec t end in
  mkPub (mkStream tid u (p_kind t) c (p_fmtp t) (p_source t) simul d false r false)
    (p_mid t) (p_pt t) (p_rtx_pt t) (p_ssrc t) (p_rtx_ssrc t) Created [].

Definition opt_list {A} (o : option A) : list A := match o with Some x => [x] | None => [] end.

(** One new track: registered, indexed unless it is simulcast, and listed unless it is that or
    half-duplex. *)
Definition add_stream (u r tid : string) (one : bool) (has_table : bool) (t : PublishTrack) (w : World) : World * list Eff :=
  let s := with_pstate Intended (new_stream tid u r t) in
  let w := w |> set_heap (<[tid := s]> (heap w)) |> set_ctxs (<[u := {[tid]} ∪ default ∅ (ctxs w !! u)]> (ctxs w)) |> set_tracks ({[tid]} ∪ tracks w) in
  let w :=
    if simulcast (info s) then w
    else let k := mkTrack (p_ssrc t) (p_rtx_ssrc t) None in w |> upd tid (with_phys [k]) |> index_add u tid 0 k in
  let o := if one && has_table then [EUplink u true (p_ssrc t :: opt_list (p_rtx_ssrc t))] else [] in
  let w := if negb (is_half (info s)) && negb (simulcast (info s)) then w |> upd tid (upd_info (store_listed true)) else w in
  (w, o).

Record Adding := mkAdding { a_ids : list string; a_added : list (string * string); a_new : list string }.

(** The loop over the tracks; a failure stops it where it is. *)
Fixpoint add_loop (e : Env) (u r : string) (p : Peer) (l : list (PublishTrack * option PubStream)) (a : Adding) (w : World)
  : World * list Eff * Res Adding :=
  match l with
  | [] => (w, [], Good a)
  | (t, Some s) :: l =>
    match set_duplex_of e u (pub_room p) r (tid_of s) (default Full (p_duplex t)) w with
    | (w, o, Err f) => (w, o, Bad f)
    | (w, o, Ok _) =>
      let '(w, o', x) := add_loop e u r p l (mkAdding (a_ids a) (a_added a ++ [(mid s, tid_of s)]) (a_new a)) w in (w, o ++ o', x)
    end
  | (t, None) :: l =>
    match a_ids a with
    | [] => (w, [], Panics)
    | tid :: ids =>
      let (w, o) := add_stream u r tid (pc_one p) (is_some (down_ssrcs e u)) t w in
      let s := new_stream tid u r t in
      let anew := if negb (is_half (info s)) && negb (simulcast (info s)) then a_new a ++ [tid] else a_new a in
      let '(w, o', x) := add_loop e u r p l (mkAdding ids (a_added a ++ [(p_mid t, tid)]) anew) w in (w, o ++ o', x)
    end
  end.

(** The checks of PUBLISH_TRACKS up to the making of the context, and the ones after it. *)
Definition may_publish (token : option Room.Permission) (u r : string) (items : list Item) (p : Peer) (m : RoomM) : option Failure :=
  match denied (Room.permission_for u token (rstate m)) items with
  | [] =>
    if existsb (fun it => bool_decide (default Full (i_duplex it) = Full)) items && negb (bool_decide (pub_room p = Some r)) then Some NotPubRoom
    else None
  | l => Some (NotAuthorized l)
  end.

Definition check_tracks (e : Env) (u : string) (x : ExtReq) (items : list Item) (again : list (option PubStream)) (p : Peer) (m : RoomM) (w : World)
  : Res (list PublishTrack) :=
  let n := Z.of_nat (length items) in
  let fresh := Z.of_nat (length (List.filter (fun o => negb (is_some o)) again)) in
  if PER_REQUEST <? n then Bad (TrackLimit PER_REQUEST n)
  else if PER_PERSON <? active u w + fresh then Bad (TrackLimit PER_PERSON (active u w + fresh))
  else
    match parse_items (r_rid x) items with
    | Err f => Bad f
    | Ok ts =>
      if pc_one p && match down_ssrcs e u with Some d => existsb (collides d) ts | None => false end then Bad SsrcCollision
      else match check_codecs (media_codecs m) ts with Good _ => Good ts | Bad f => Bad f | Panics => Panics end
    end.

(** PUBLISH_TRACKS, adding; [x] is [None] when the number of an extension is malformed. *)
Definition publish (e : Env) (token : option Room.Permission) (ids : list string) (u r j : string) (items : list Item) (x : option ExtReq) (w : World)
  : World * list Eff * Res (list (string * string)) :=
  match add_again u items w with
  | Some l => (w, [], Good l)
  | None =>
    match x with
    | None => (w, [], Bad InvalidPayload)
    | Some x =>
      match joined_as u r j w with
      | Err f => (w, [], Bad f)
      | Ok (p, m) =>
        let again := same_mid u items w in
        match may_publish token u r items p m with
        | Some f => (w, [], Bad f)
        | None =>
          let w := ensure_ctx u w in
          match check_tracks e u x items again p m w with
          | Bad f => (w, [], Bad f)
          | Panics => (w, [], Panics)
          | Good ts =>
            let w := upd_peer u (fun p => with_ext (merge_ext x (ext_ids p)) p) w in
            match add_loop e u r p (zip ts again) (mkAdding ids [] []) w with
            | (w, o, Bad f) => (w, o, Bad f)
            | (w, o, Panics) => (w, o, Panics)
            | (w, o, Good a) =>
              let (w, o) :=
                match a_new a with
                | [] => (w, o)
                | l => (w, o) >>> (fun w => track_event r true (map (fun s => entry (info s)) (omap (fun t => heap w !! t) l)) w) >>> resync_room r
                end in
              (w, o, Good (a_added a))
            end
          end
        end
      end
    end
  end.

(** ** Unpublishing *)

(** The rows of the stream go with it ([Fan.drop_stream]). *)
Definition drop_stream (e : Env) (u tid : string) (w : World) : World * list Eff :=
  match heap w !! tid, peers w !! u with
  | Some s, Some p =>
    let w := w |> set_ctxs (alter (fun c => c ∖ {[tid]}) u (ctxs w)) |> set_tracks (tracks w ∖ {[tid]}) |> index_remove u tid in
    (w, if pc_one p && is_some (down_ssrcs e u) then [EUplink u false (map t_ssrc (phys s) ++ ssrc s :: opt_list (rtx_ssrc s))] else [])
  | _, _ => (w, [])
  end.

(** The entries of what was listed, by room, in the order of the rooms; the streams of a room in
    the order of the request. *)
Definition add_removed (r : string) (x : TrackEntry) (m : gmap string (list TrackEntry)) : gmap string (list TrackEntry) :=
  <[r := default [] (m !! r) ++ [x]]> m.

Definition unpublish_one (e : Env) (u tid : string) (y : World * list Eff * gmap string (list TrackEntry)) : World * list Eff * gmap string (list TrackEntry) :=
  let '(w, o, removed) := y in
  match heap w !! tid with
  | None => y
  | Some s =>
    let '(w, o) :=
      (w, o)
      >>> (fun w => if is_half (info s) then release_floor_if_speaker e u (room (info s)) w else (w, []))
      >>> (fun w => (w |> upd tid (upd_info (store_listed false)), []))
      >>> drop_stream e u tid in
    (w, o, if listed_flag (info s) && negb (String.eqb (room (info s)) "") then add_removed (room (info s)) (entry (info s)) removed else removed)
  end.

(** A [BTreeMap] is walked in the order of its keys. *)
Definition sorted_keys {A} (m : gmap string A) : list string := foldr place_id [] (map fst (map_to_list m)).

Definition announce_removed (m : gmap string (list TrackEntry)) (w : World) : World * list Eff :=
  fold_left (fun x r => x >>> (fun w => match rooms w !! r with
                                        | Some _ => track_event r false (default [] (m !! r)) w >>> resync_room r
                                        | None => (w, []) end)) (sorted_keys m) (w, []).

(** Somebody who has left may still take away what rests without a room. *)
Definition away (u : string) (ids : list string) (w : World) : bool :=
  is_some (ctxs w !! u) && negb (bool_decide (ids = []))
  && forallb (fun t => match ctx_find u t w with Some s => String.eqb (room (info s)) "" | None => false end) ids.

Definition unpublish (e : Env) (u r j : string) (ids : list string) (w : World) : World * list Eff * Res unit :=
  let peer :=
    match joined_as u r j w with
    | Ok (p, _) => Ok p
    | Err f => match peers w !! u with Some p => if away u ids w then Ok p else Err f | None => Err f end
    end in
  match peer with
  | Err f => (w, [], Bad f)
  | Ok _ =>
    if negb (is_some (ctxs w !! u)) then (w, [], Bad TrackNotFound)
    else if forallb (fun t => is_some (ctx_find u t w)) ids then
      let '(w, o, removed) := fold_left (fun y t => unpublish_one e u t y) ids (w, [], ∅) in
      let (w, o) := (w, o) >>> announce_removed removed in
      (w, o, Good tt)
    else (w, [], Bad TrackNotFound)
  end.

(** ** Moving to another room *)

(** One stream in the loop of [move_pub]: what is taken from the old room and brought to the
    new one. *)
Definition move_one (to : option string) (tid : string) (y : World * list TrackEntry * list TrackEntry) : World * list TrackEntry * list TrackEntry :=
  let '(w, from, new) := y in
  match heap w !! tid with
  | None => y
  | Some s =>
    let i := store_room (default "" to) (info s) in
    (w |> upd tid (upd_info (fun _ => i)),
     if listed_flag (info s) && negb (String.eqb (room (info s)) "") then from ++ [entry (info s)] else from,
     if listed_flag (info s) && is_some to then new ++ [entry i] else new)
  end.

Definition in_room (r : string) (x : TrackEntry) : TrackEntry :=
  mkEntry (type_ x) r (e_track_id x) (e_kind x) (e_codec x) (e_fmtp x) (e_user_id x) (e_source x) (e_active x) (e_muted x) (e_simulcast x) (e_scalability x).

Definition some_event (r : string) (add : bool) (l : list TrackEntry) (w : World) : World * list Eff :=
  match l, rooms w !! r with
  | [], _ => (w, [])
  | _, None => (w, [])
  | _, Some _ => track_event r add l w >>> resync_room r
  end.

Definition move_pub (u : string) (to : option string) (token : option Room.Permission) (w : World) : World * list Eff * Res unit :=
  match peers w !! u with
  | None => (w, [], Bad PeerNotFound)
  | Some p =>
    let cur := pub_room p in
    let tids := map tid_of (ctx_streams u w) in
    let check : Res bool :=
      match to with
      | None => Good true
      | Some r =>
        if bool_decide (cur = Some r) then Good false
        else
          match rooms w !! r with
          | None => Bad RoomNotFound
          | Some m =>
            match recheck (media_codecs m) (rstate m) u (map info (ctx_streams u w)) token with
            | None => Panics
            | Some (Err (Trk.CodecMismatch d)) => Bad (CodecMismatch d)
            | Some (Err (Trk.NotAuthorized l)) => Bad (NotAuthorized l)
            | Some (Ok _) => Good true
            end
          end
      end in
    match check with
    | Bad f => (w, [], Bad f)
    | Panics => (w, [], Panics)
    | Good false => (w, [], Good tt)
    | Good true =>
      let o := match cur with Some old => if is_some (rooms w !! old) then [EFloor old u FPubAway] else [] | None => [] end in
      let w := upd_peer u (with_pub_room to) w in
      let '(w, from, new) := fold_left (fun y t => move_one to t y) tids (w, [], []) in
      let (w, o) :=
        (w, o)
        >>> (fun w => match cur with Some old => some_event old false (map (in_room old) from) w | None => (w, []) end)
        >>> (fun w => match to with Some r => (w, [EFloor r u FPubSelect]) >>> some_event r true new | None => (w, []) end) in
      (w, o, Good tt)
    end
  end.

(** AFFILIATION; the room of the request is the one to select, or the one to let go. *)
Definition affiliation (e : Env) (token : option Room.Permission) (u : string) (select deselect : option (string * option string)) (w : World)
  : World * list Eff * Res (option string) :=
  match peers w !! u with
  | None => (w, [], Bad NotInRoom)
  | Some p =>
    let entry_ok (r : string) (j : option string) (k : string) : option Failure :=
      match j with
      | None => Some (MissingField k)
      | Some j => if bool_decide (joined_rooms p !! r = Some j) then None else Some NotInRoom
      end in
    let bad_sel := match select with Some (r, j) => entry_ok r j "pub_select_join_id" | None => None end in
    let bad_de :=
      match deselect with
      | Some (r, None) => Some (MissingField "pub_deselect_join_id")
      | Some (r, Some j) => if is_some (joined_rooms p !! r) then entry_ok r (Some j) "pub_deselect_join_id" else None
      | None => None
      end in
    let now_at w := let? p := peers w !! u in pub_room p in
    match bad_sel, bad_de with
    | Some f, _ => (w, [], Bad f)
    | None, Some f => (w, [], Bad f)
    | None, None =>
      match select, deselect with
      | Some (r, _), _ =>
        match rooms w !! r with
        | Some _ =>
          match move_pub u (Some r) token w with
          | (w, o, Good _) => (w, o, Good (now_at w))
          | (w, o, Bad f) => (w, o, Bad f)
          | (w, o, Panics) => (w, o, Panics)
          end
        | None => (w, [], Good (now_at w))
        end
      | None, Some (r, _) =>
        if bool_decide (pub_room p = Some r) then
          let (w, o) := release_floor_if_speaker e u r w in
          match move_pub u None token w with
          | (w, o', Good _) => (w, o ++ o', Good (now_at w))
          | (w, o', Bad f) => (w, o ++ o', Bad f)
          | (w, o', Panics) => (w, o ++ o', Panics)
          end
        else (w, [], Good (now_at w))
      | None, None => (w, [], Good (now_at w))
      end
    end
  end.

(** ** The first packet of a layer *)

Definition spatial (r : string) : option Z := if String.eqb r "l" then Some 0 else if String.eqb r "h" then Some 1 else None.

Fixpoint find_rid (sp : Z) (n : nat) (l : list PubTrack) : option nat :=
  match l with [] => None | t :: l => if bool_decide (t_rid t = Some sp) then Some n else find_rid sp (S n) l end.

(** [learn]: the extensions of the packet (the layer, the layer it repairs, the m-line) and its
    SSRC; what it belongs to, and whether the stream must be announced. The announcing is a task
    of its own. *)
Definition learn (u : string) (rid rrid mid_ : option string) (x : Z) (w : World) : World * option (string * nat) * option string :=
  match List.find (fun s => simulcast (info s) && match mid_ with Some m => String.eqb m (mid s) | None => true end) (ctx_streams u w) with
  | None => (w, None, None)
  | Some s =>
    match rrid with
    | Some r =>
      match (let? sp := spatial r in find_rid sp 0 (phys s)) with
      | None => (w, None, None)
      | Some n =>
        let l := alter (fun t => mkTrack (t_ssrc t) (Some x) (t_rid t)) n (phys s) in
        let w := w |> upd (tid_of s) (with_phys l) in
        (match l !! n with Some t => index_add u (tid_of s) n t w | None => w end, Some (tid_of s, n), None)
      end
    | None =>
      match (let? r := rid in spatial r) with
      | None => (w, None, None)
      | Some sp =>
        match find_rid sp 0 (phys s) with
        | Some n => (w, Some (tid_of s, n), None)
        | None =>
          let t := mkTrack x None (Some sp) in
          let n := length (phys s) in
          let w := w |> upd (tid_of s) (with_phys (phys s ++ [t])) |> index_add u (tid_of s) n t in
          let first := negb (listed_flag (info s)) && negb (is_half (info s)) in
          (w |> upd (tid_of s) (upd_info (store_listed true)), Some (tid_of s, n), if first then Some (tid_of s) else None)
        end
      end
    end
  end.

(** ** Leaving a room *)

Definition leave_one (e : Env) (u r : string) (last : bool) (tid : string) (y : World * list Eff * list TrackEntry) : World * list Eff * list TrackEntry :=
  let '(w, o, removed) := y in
  match heap w !! tid with
  | None => y
  | Some s =>
    let here := String.eqb (room (info s)) r in
    if here && negb (is_half (info s)) || last then
      let '(w, o) := (w, o) >>> (fun w => (w |> upd tid (upd_info (store_listed false)), [])) >>> drop_stream e u tid in
      (w, o, if listed_flag (info s) && here then removed ++ [entry (info s)] else removed)
    else if here && listed_flag (info s) then
      (w |> upd tid (upd_info (store_room "")), o, removed ++ [entry (info s)])
    else y
  end.

(** [reap], of the peer that is registered for the user. *)
Definition reap (e : Env) (u : string) (w : World) : World * list Eff :=
  let tids := map tid_of (ctx_streams u w) in
  (fold_left (fun x t => x >>> drop_stream e u t) tids (w, []))
  >>> (fun w => (w |> set_peers (delete u (peers w)) |> set_ctxs (delete u (ctxs w)), [])).

(** [leave], by the user's own wish or another's; the room goes on. *)
Definition leave (e : Env) (u r : string) (w : World) : World * list Eff * bool :=
  match rooms w !! r, peers w !! u with
  | Some m, Some p =>
    let o := [EFloor r u FLeave] in
    let p1 := if bool_decide (pub_room p = Some r) then with_pub_room None p else p in
    let w := w |> set_peers (<[u := p1]> (peers w)) in
    match Room.members (rstate m) !! u with
    | None => (w, o, false)
    | Some mem =>
      let p2 := with_rooms (delete r (joined_rooms p1)) p1 in
      let w := w |> set_rooms (<[r := mkRoom (media_codecs m) (Room.remove u (rstate m)).1]> (rooms w)) |> set_peers (<[u := p2]> (peers w)) in
      let last := bool_decide (joined_rooms p2 = ∅) in
      let '(w, o, removed) := fold_left (fun y t => leave_one e u r last t y) (map tid_of (ctx_streams u w)) (w, o, []) in
      let (w, o) :=
        (w, o)
        >>> (fun w => if last then reap e u w else (w, []))
        >>> some_event r false removed
        >>> (fun w => if Room.hidden mem then (w, []) else bump r (ELeft r u) w) in
      (w, o, true)
    end
  | _, _ => (w, [], false)
  end.

(** ** Joining

    A first joining that passes the checks ([Room], [SubTable]): the room is entered in the peer,
    the member in the roster, the floor is told, and unless the user only listens the streams
    move there. *)
Definition join (mem : Room.Member) (r j : string) (one sel : bool) (token : option Room.Permission) (w : World) : World * list Eff :=
  let u := Room.user mem in
  match rooms w !! r with
  | None => (w, [])
  | Some m =>
    let p := default (mkPeer one ∅ None ∅ (mkIds 0 0 0 0 0)) (peers w !! u) in
    let w := w |> set_peers (<[u := with_rooms (<[r := j]> (joined_rooms p)) p]> (peers w)) in
    let '(st, _, _) := Room.join mem false token (rstate m) in
    let w := w |> set_rooms (<[r := mkRoom (media_codecs m) st]> (rooms w)) in
    (w, [EFloor r u (FJoin (Room.floor_request (Room.permission_for u token (rstate m))))])
    >>> (fun w =>
      if sel then let '(w, o, _) := move_pub u (Some r) token w in (w, o)
      else (w, if bool_decide (pub_room p = Some r) then [EFloor r u FPubSelect] else []))
  end.

(** ** Everything that happens to the registers *)

Inductive Op :=
  | OJoin (mem : Room.Member) (r j : string) (one sel : bool) (token : option Room.Permission)
  | OPublish (e : Env) (token : option Room.Permission) (ids : list string) (u r j : string) (items : list Item) (x : option ExtReq)
  | OUnpublish (e : Env) (u r j : string) (ids : list string)
  | OTrackSet (e : Env) (u r j : string) (tid : option string) (x : option Z) (mut : option bool) (dup : option Duplex)
  | OAffiliation (e : Env) (token : option Room.Permission) (u : string) (select deselect : option (string * option string))
  | OLearn (u : string) (rid rrid mid_ : option string) (x : Z)
  | OAnnounce (tid : string)
  | OFirst (u : string) (rid rrid mid_ : option string) (x : Z)
  | OLeave (e : Env) (u r : string).

(** [OFirst] is a first packet whose stream is announced before anything else happens. *)
Definition op (o : Op) (w : World) : World * list Eff :=
  match o with
  | OJoin mem r j one sel token => join mem r j one sel token w
  | OPublish e token ids u r j items x => (publish e token ids u r j items x w).1
  | OUnpublish e u r j ids => (unpublish e u r j ids w).1
  | OTrackSet e u r j tid x mut dup => (track_set e u r j tid x mut dup w).1
  | OAffiliation e token u select deselect => (affiliation e token u select deselect w).1
  | OLearn u rid rrid mid_ x => ((learn u rid rrid mid_ x w).1.1, [])
  | OAnnounce tid => announce_add tid w
  | OFirst u rid rrid mid_ x =>
    let '(w, _, a) := learn u rid rrid mid_ x w in match a with Some tid => announce_add tid w | None => (w, []) end
  | OLeave e u r => (leave e u r w).1
  end.

Definition world0 (l : list (string * MediaCodecs)) : World :=
  mkWorld ∅ ∅ ∅ ∅ (list_to_map (map (fun rc => (rc.1, mkRoom rc.2 (Room.new 0))) l)).

Definition ops (l : list Op) (w : World) : World * list Eff := fold_left (fun x o => x >>> op o) l (w, []).

End Media.
