(* ===== verification/MediaInv.v ===== *)
(** * The registers of the publications agree

    The invariant of [Media], kept by every operation however they are ordered: the register of
    all streams, the ones of the users and the index of the packets that come in. *)

From S2P Require Import Prelude Room Tracks Media.

Module MediaInv.
Import Trk Media.

Definition cset (u : string) (w : World) : gset string := default ∅ (ctxs w !! u).

Record RI (w : World) : Prop := {
  r_key : forall t s, heap w !! t = Some s -> tid_of s = t;
  r_tracks : forall t, t ∈ tracks w -> is_Some (heap w !! t);
  r_ctx : forall u t, t ∈ cset u w <-> t ∈ tracks w /\ exists s, heap w !! t = Some s /\ user (info s) = u;
  r_peer : forall u t, t ∈ cset u w -> is_Some (peers w !! u);
  r_index : forall u p x t n, peers w !! u = Some p -> ingress p !! x = Some (t, n) ->
    t ∈ cset u w /\ exists s, heap w !! t = Some s /\ (n < length (phys s))%nat;
  r_size : forall u, Z.of_nat (size (cset u w)) <= PER_PERSON;
  r_sim : forall t s, heap w !! t = Some s -> simulcast (info s) = true -> duplex (info s) = Full }.

(** A change of a stream that leaves its name, its user and its tracks. *)
Record gentle (f : PubStream -> PubStream) (s : PubStream) : Prop := {
  g_tid : tid_of (f s) = tid_of s;
  g_user : user (info (f s)) = user (info s);
  g_sim : (simulcast (info s) = true -> duplex (info s) = Full) -> simulcast (info (f s)) = true -> duplex (info (f s)) = Full;
  g_phys : (length (phys s) <= length (phys (f s)))%nat }.

Lemma ri_upd t f w : RI w -> (forall s, heap w !! t = Some s -> gentle f s) -> RI (upd t f w).
Proof.
  intros [K T C P I Z S] G. unfold upd. split; simpl; auto.
  - intros t0 s. rewrite lookup_alter_Some. intros [(<- & s' & Hs & ->) | [_ Hs]]; [rewrite (g_tid _ _ (G _ Hs))|]; auto.
  - intros t0 Ht. specialize (T t0 Ht). by rewrite lookup_alter_is_Some.
  - intros u t0. change (cset u (set_heap _ w)) with (cset u w). rewrite C. f_equiv.
    split; intros (s & Hs & Hu); destruct (decide (t = t0)) as [->|Hne].
    + exists (f s). rewrite lookup_alter_eq, Hs. simpl. by rewrite (g_user _ _ (G _ Hs)).
    + exists s. by rewrite lookup_alter_ne.
    + rewrite lookup_alter_eq in Hs. apply fmap_Some in Hs as (s' & Hs & ->). exists s'. by rewrite (g_user _ _ (G _ Hs)) in Hu.
    + exists s. by rewrite lookup_alter_ne in Hs.
  - intros u p x t0 n Hp Hx. destruct (I _ _ _ _ _ Hp Hx) as (Hc & s & Hs & Hn). split; [done|].
    destruct (decide (t = t0)) as [->|Hne].
    + exists (f s). rewrite lookup_alter_eq, Hs. split; [done|]. pose proof (g_phys _ _ (G _ Hs)). lia.
    + exists s. by rewrite lookup_alter_ne.
  - intros t0 s. rewrite lookup_alter_Some. intros [(<- & s' & Hs & ->) | [_ Hs]]; [|by eauto].
    apply (g_sim _ _ (G _ Hs)). by eapply S.
Qed.

Lemma ri_rooms v w : RI w -> RI (set_rooms v w).
Proof. by intros [K T C P I Z S]. Qed.

Lemma ri_peer u f w : RI w -> (forall p, ingress (f p) = ingress p) -> RI (upd_peer u f w).
Proof.
  intros [K T C P I Z S] Hf. unfold upd_peer. split; simpl; auto.
  - intros u0 t Ht. rewrite lookup_alter_is_Some. by eapply P.
  - intros u0 p x t n. rewrite lookup_alter_Some. intros [(<- & p' & Hp & ->) | [_ Hp]]; [rewrite Hf|]; eauto.
Qed.

Lemma ri_bump r f w : RI w -> RI (bump r f w).1.
Proof. intros H. unfold bump. destruct (rooms w !! r); [|done]. by apply ri_rooms. Qed.

Lemma ri_then x f : RI x.1 -> (forall w, RI w -> RI (f w).1) -> RI (x >>> f).1.
Proof. destruct x as [w e]. intros H Hf. simpl in *. specialize (Hf w H). by destruct (f w). Qed.

Lemma ri_resync r w : RI w -> RI (resync_room r w).1.
Proof. unfold resync_room. by destruct (rooms w !! r). Qed.

Lemma ri_release e u r w : RI w -> RI (release_floor_if_speaker e u r w).1.
Proof. unfold release_floor_if_speaker. destruct (rooms w !! r); [|done]. by case_bool_decide. Qed.

(** The changes of the operations. *)
Lemma gentle_pstate p s : gentle (with_pstate p) s.
Proof. by split. Qed.
Lemma gentle_listed b s : gentle (upd_info (store_listed b)) s.
Proof. by split. Qed.
Lemma gentle_muted b s : gentle (upd_info (store_muted b)) s.
Proof. by split. Qed.
Lemma gentle_room r s : gentle (upd_info (store_room r)) s.
Proof. by split. Qed.
Create HintDb media discriminated.
#[local] Hint Resolve ri_bump ri_resync ri_release ri_rooms gentle_pstate gentle_listed gentle_muted gentle_room : media.

Lemma ri_event r b l w : RI w -> RI (track_event r b l w).1.
Proof. apply ri_bump. Qed.
#[local] Hint Resolve ri_event : media.

Lemma ri_some_event r b l w : RI w -> RI (some_event r b l w).1.
Proof.
  intros H. unfold some_event. destruct l; [done|]. destruct (rooms w !! r); [|done]. apply ri_then; auto with media.
Qed.

Lemma ri_announce t w : RI w -> RI (announce_add t w).1.
Proof.
  intros H. unfold announce_add. destruct (heap w !! t) as [s|]; [|done]. destruct (rooms w !! _); [|done].
  repeat apply ri_then; auto with media. intros w' H'. case_decide; [done|]. apply ri_upd; auto with media.
Qed.

Lemma release_world e u r w : (release_floor_if_speaker e u r w).1 = w.
Proof. unfold release_floor_if_speaker. destruct (rooms w !! r); [|done]. by case_bool_decide. Qed.

(** ** What a client sees

    The tracks of each room, as the notices tell them: a client keeps the entries by track. *)
Definition View : Type := string -> gmap string TrackEntry.
Definition put_entries (l : list TrackEntry) (m : gmap string TrackEntry) : gmap string TrackEntry := fold_left (fun m x => <[e_track_id x := x]> m) l m.
Definition del_entries (l : list TrackEntry) (m : gmap string TrackEntry) : gmap string TrackEntry := fold_left (fun m x => delete (e_track_id x) m) l m.
Definition mute_entry (b : bool) (x : TrackEntry) : TrackEntry :=
  mkEntry (type_ x) (e_room_id x) (e_track_id x) (e_kind x) (e_codec x) (e_fmtp x) (e_user_id x) (e_source x) (e_active x) (Some b) (e_simulcast x) (e_scalability x).

Definition in_view (r : string) (f : gmap string TrackEntry -> gmap string TrackEntry) (v : View) : View :=
  fun r' => if decide (r' = r) then f (v r') else v r'.

Definition see (v : View) (e : Eff) : View :=
  match e with
  | ETrackEvent r true l _ => in_view r (put_entries l) v
  | ETrackEvent r false l _ => in_view r (del_entries l) v
  | ETrackState r t b _ => in_view r (alter (mute_entry b) t) v
  | _ => v
  end.
Definition sees (o : list Eff) (v : View) : View := fold_left see o v.

Lemma sees_app o o' v : sees (o ++ o') v = sees o' (sees o v).
Proof. apply fold_left_app. Qed.

(** The effects that are no notice about tracks. *)
Definition silent (o : list Eff) : Prop := forall v, sees o v = v.
Lemma silent_nil : silent [].
Proof. done. Qed.
Lemma silent_app o o' : silent o -> silent o' -> silent (o ++ o').
Proof. intros H H' v. rewrite sees_app, H, H'. done. Qed.

(** ** The parts of the operations *)

Lemma set_duplex_spec e u pr r t d w w' o x :
  set_duplex_of e u pr r t d w = (w', o, x) ->
  (w' = w /\ o = [] /\ (x = Ok true -> exists s, heap w !! t = Some s /\ duplex (info s) = d) /\ x <> Ok false) \/
  exists s v, heap w !! t = Some s /\ duplex (info s) <> d /\ simulcast (info s) = false /\ (d = Full -> pr = Some r) /\
    let i := store_listed true (store_muted false (store_duplex d (info s))) in
    w' = (track_event r true [entry i] (upd t (upd_info (fun _ => i)) w)).1 /\
    (forall m, sees o m = if is_some (rooms w !! r) then see m (ETrackEvent r true [entry i] v) else m).
Proof.
  unfold set_duplex_of. destruct (heap w !! t) as [s|] eqn:Hs; [|intros ?; simplify_eq; left; naive_solver].
  case_decide as Hd; [intros ?; simplify_eq; left; naive_solver|].
  destruct (simulcast (info s)) eqn:Hm; [intros ?; simplify_eq; left; naive_solver|].
  destruct (bool_decide (d = Full) && negb (bool_decide (pr = Some r))) eqn:Hp; [intros ?; simplify_eq; left; naive_solver|].
  set (i := store_listed true (store_muted false (store_duplex d (info s)))).
  assert (exists o0, (if decide (d = Full) then release_floor_if_speaker e u (room (info s)) w else (w, [])) = (w, o0) /\ silent o0) as (o0 & -> & Ho0).
  { destruct (decide (d = Full)); [|by exists []]. unfold release_floor_if_speaker. destruct (rooms w !! _); [destruct (bool_decide (holder _ _ = _))|]; eexists; (split; [reflexivity|by intros v]). }
  assert (d = Full -> pr = Some r) as Hpr.
  { intros ->. rewrite bool_decide_true in Hp by done. by apply negb_false_iff, bool_decide_eq_true in Hp. }
  clear Hp.
  set (pli := fun w => if bool_decide (d = Full) && bool_decide (kind (info s) = Video) then (w, map (fun _ => EPliBurst t) (phys s)) else (w, [])).
  assert (forall w0 o0, exists o1, (w0, o0) >>> pli = (w0, o0 ++ o1) /\ silent o1) as Pli.
  { intros w0 o1. unfold pli. simpl. destruct (_ && _); eexists; (split; [reflexivity|]); intros v; [|done].
    clear. induction (phys s); [done|]. simpl. done. }
  intros H. right. unfold track_event, bump, resync_room in *. simpl in H |- *.
  destruct (rooms w !! r) as [m|] eqn:Hr; simpl in H |- *; (rewrite ?lookup_insert_eq, ?Hr in H; simpl in H).
  - exists s, (Room.seq (rstate m) + 1). destruct (Pli (set_rooms (<[r:=mkRoom (media_codecs m) (Room.bump_and_send (λ _, Some Room.Other) (rstate m)).1.1]> (rooms w)) (upd t (upd_info (λ _, i)) w))
      (((o0 ++ []) ++ [ETrackEvent r true [entry i] (Room.seq (rstate m) + 1)]) ++ [EResync r])) as (o1 & E1 & Ho1).
    simpl in E1. rewrite E1 in H. simplify_eq. split_and!; try done. intros v. rewrite !sees_app, Ho0, Ho1. done.
  - exists s, 0. destruct (Pli (upd t (upd_info (λ _, i)) w) (((o0 ++ []) ++ []) ++ [])) as (o1 & E1 & Ho1).
    simpl in E1. rewrite E1 in H. simplify_eq. split_and!; try done. intros v. rewrite !sees_app, Ho0, Ho1. done.
Qed.

Lemma ri_set_duplex e u pr r t d w : RI w -> RI (set_duplex_of e u pr r t d w).1.1.
Proof.
  intros H. destruct (set_duplex_of e u pr r t d w) as [[w' o] x] eqn:E. simpl.
  apply set_duplex_spec in E as [(-> & _) | (s & v & Hs & _ & Hm & _ & -> & _)]; [done|].
  apply ri_event, ri_upd; [done|]. intros s' Hs'. simplify_eq. split; simpl; try done. by rewrite Hm.
Qed.

(** [drop_stream], less its effect. *)
Definition dropped (u t : string) (w : World) : World :=
  w |> set_ctxs (alter (fun c => c ∖ {[t]}) u (ctxs w)) |> set_tracks (tracks w ∖ {[t]}) |> index_remove u t.

Lemma drop_stream_spec e u t w :
  exists o, drop_stream e u t w = ((if is_some (heap w !! t) && is_some (peers w !! u) then dropped u t w else w), o) /\ silent o.
Proof.
  unfold drop_stream. destruct (heap w !! t) as [s|]; [|by exists []]. destruct (peers w !! u) as [p|]; [|by exists []].
  destruct (_ && is_some (down_ssrcs e u)); eexists; (split; [reflexivity|by intros v]).
Qed.

Definition owns (u : string) (w : World) (t : string) : Prop := forall s, heap w !! t = Some s -> user (info s) = u.

Lemma cset_dropped u' u t w : cset u' (dropped u t w) = if decide (u' = u) then cset u w ∖ {[t]} else cset u' w.
Proof.
  unfold cset, dropped, index_remove, upd_peer; simpl. case_decide as Hu.
  - subst u'. rewrite lookup_alter_eq. destruct (ctxs w !! u); simpl; [done|]. set_solver.
  - by rewrite lookup_alter_ne.
Qed.

Lemma ri_dropped u t w : RI w -> owns u w t -> RI (dropped u t w).
Proof.
  intros [K T C P I Z S] Ho. split; unfold dropped, index_remove, upd_peer in *; simpl; auto.
  - intros t0 Ht. apply T. set_solver.
  - intros u' t0. pose proof (cset_dropped u' u t w) as E. unfold dropped, index_remove, upd_peer in E. simpl in E. rewrite E.
    case_decide as Hu.
    + subst u'. rewrite elem_of_difference, C, elem_of_difference. naive_solver.
    + rewrite C, elem_of_difference, not_elem_of_singleton. split; [|naive_solver]. intros [Ht (s & Hs & Hus)].
      split; [split; [done|]|by eauto]. intros ->. apply Hu. by rewrite <- Hus, (Ho s Hs).
  - intros u' t0 Ht. rewrite lookup_alter_is_Some. pose proof (cset_dropped u' u t w) as E. unfold dropped, index_remove, upd_peer in E. simpl in E.
    rewrite E in Ht. apply (P u' t0). case_decide; [subst|done]. set_solver.
  - intros u' p x t0 n. pose proof (cset_dropped u' u t w) as E. unfold dropped, index_remove, upd_peer in E. simpl in E. rewrite E.
    rewrite lookup_alter_Some. intros [(<- & p' & Hp & ->) | [Hu Hp]] Hx.
    + simpl in Hx. rewrite map_lookup_filter_Some in Hx. destruct Hx as [Hx Hn]. simpl in Hn.
      destruct (I _ _ _ _ _ Hp Hx) as [Hc ?]. rewrite decide_True by done. split; [|done]. set_solver.
    + rewrite decide_False by done. by eapply I.
  - intros u'. pose proof (cset_dropped u' u t w) as E. unfold dropped, index_remove, upd_peer in E. simpl in E. rewrite E.
    case_decide; [|done]. subst u'. specialize (Z u). assert (size (cset u w ∖ {[t]}) <= size (cset u w))%nat by (apply subseteq_size; set_solver). lia.
Qed.

Lemma ri_drop e u t w : RI w -> owns u w t -> RI (drop_stream e u t w).1.
Proof.
  intros H Ho. destruct (drop_stream_spec e u t w) as (o & -> & _). simpl. destruct (_ && _); [by apply ri_dropped|done].
Qed.

Lemma heap_drop e u t w : heap (drop_stream e u t w).1 = heap w.
Proof. destruct (drop_stream_spec e u t w) as (o & -> & _). simpl. by destruct (_ && _). Qed.

Lemma owns_upd u t f w t0 : (forall s, user (info (f s)) = user (info s)) -> owns u w t0 -> owns u (upd t f w) t0.
Proof.
  intros Hf Ho s. unfold upd; simpl. rewrite lookup_alter_Some. intros [(<- & s' & Hs & ->) | [_ Hs]]; [rewrite Hf|]; by apply Ho.
Qed.

(** The streams of a user's context are the user's. *)
Lemma elem_place_id x y l : x ∈ place_id y l <-> x = y \/ x ∈ l.
Proof. induction l as [|z l IH]; simpl; [set_solver|]. case_match; set_solver. Qed.
Lemma elem_sorted x (l : list string) : x ∈ foldr place_id [] l <-> x ∈ l.
Proof. induction l as [|y l IH]; simpl; [done|]. rewrite elem_place_id, IH. set_solver. Qed.
Lemma nodup_place_id y l : y ∉ l -> NoDup l -> NoDup (place_id y l).
Proof.
  intros Hy Hn. induction Hn as [|z l Hz Hn IH]; simpl; [apply NoDup_singleton|].
  case_match; [constructor; [set_solver|by constructor]|]. constructor; [|set_solver]. rewrite elem_place_id. set_solver.
Qed.
Lemma nodup_sorted (l : list string) : NoDup l -> NoDup (foldr place_id [] l).
Proof. intros H. induction H as [|x l Hx Hn IH]; [constructor|]. simpl. apply nodup_place_id; [by rewrite elem_sorted|done]. Qed.

Lemma elem_ctx_ids u t w : t ∈ ctx_ids u w <-> t ∈ cset u w.
Proof. unfold ctx_ids. rewrite elem_sorted, elem_of_elements. done. Qed.

Lemma ctx_streams_spec u w s : RI w -> s ∈ ctx_streams u w <-> tid_of s ∈ cset u w /\ heap w !! tid_of s = Some s.
Proof.
  intros H. unfold ctx_streams. rewrite list_elem_of_omap. split.
  - intros (t & Ht & Hs). rewrite (r_key _ H _ _ Hs). by rewrite elem_ctx_ids in Ht.
  - intros [Ht Hs]. exists (tid_of s). by rewrite elem_ctx_ids.
Qed.

(** The names of the streams of a context are the names in it. *)
Lemma ctx_tids u w : RI w -> map tid_of (ctx_streams u w) = ctx_ids u w.
Proof.
  intros H. unfold ctx_streams.
  assert (forall t, t ∈ ctx_ids u w -> is_Some (heap w !! t)) as Hin.
  { intros t Ht. rewrite elem_ctx_ids, (r_ctx _ H) in Ht. destruct Ht as [_ (s & -> & _)]. done. }
  induction (ctx_ids u w) as [|t l IH]; [done|]. simpl. destruct (Hin t) as [s Hs]; [by left|]. rewrite Hs. simpl.
  f_equal; [by apply (r_key _ H)|]. apply IH. intros t' Ht. apply Hin. by right.
Qed.

Lemma ctx_owns u w t : RI w -> t ∈ cset u w -> owns u w t.
Proof. intros H Ht s Hs. apply (r_ctx _ H) in Ht as [_ (s' & Hs' & Hu)]. congruence. Qed.

(** A part of an operation for the streams [l] of [u]: it keeps the registers in order, and the
    streams with their users. *)
Definition KeepsL (u : string) (l : list string) (w w' : World) : Prop :=
  RI w -> (forall t, t ∈ l -> owns u w t) -> RI w' /\ (forall t, t ∈ l -> owns u w' t).

Lemma keeps_then u l x f w : KeepsL u l w x.1 -> (forall w0, KeepsL u l w0 (f w0).1) -> KeepsL u l w (x >>> f).1.
Proof.
  intros H Hf HI Ho. destruct x as [w1 o]. simpl in *. destruct (H HI Ho) as [H1 H2]. specialize (Hf w1 H1 H2). by destruct (f w1).
Qed.

Lemma keeps_id u l w : KeepsL u l w w.
Proof. by intros. Qed.

Lemma keeps_upd u l t g w :
  (forall s, gentle (upd_info g) s) -> KeepsL u l w (upd t (upd_info g) w).
Proof.
  intros G HI Ho. split; [by apply ri_upd|]. intros t0 Ht. apply owns_upd; [|by apply Ho]. intros s. apply (g_user _ _ (G s)).
Qed.

Lemma keeps_drop e u l t w : t ∈ l -> KeepsL u l w (drop_stream e u t w).1.
Proof.
  intros Hin HI Ho. split; [by apply ri_drop; [|apply Ho]|]. intros t0 Ht s. rewrite heap_drop. by apply Ho.
Qed.

Lemma keeps_trans u l w1 w2 w3 : KeepsL u l w1 w2 -> KeepsL u l w2 w3 -> KeepsL u l w1 w3.
Proof. intros H1 H2 HI Ho. destruct (H1 HI Ho). by apply H2. Qed.

Lemma keeps_bump u l r f w : KeepsL u l w (bump r f w).1.
Proof. intros HI Ho. split; [by apply ri_bump|]. unfold bump. by destruct (rooms w !! r). Qed.

Lemma keeps_resync u l r w : KeepsL u l w (resync_room r w).1.
Proof. unfold resync_room. destruct (rooms w !! r); apply keeps_id. Qed.

Lemma keeps_some_event u l r b k w : KeepsL u l w (some_event r b k w).1.
Proof.
  unfold some_event. destruct k; [apply keeps_id|]. destruct (rooms w !! r); [|apply keeps_id].
  apply keeps_then; [apply keeps_bump|apply keeps_resync].
Qed.

Lemma keeps_unpublish_one e u l t y : t ∈ l -> KeepsL u l y.1.1 (unpublish_one e u t y).1.1.
Proof.
  intros Hin. destruct y as [[w o] m]. unfold unpublish_one. destruct (heap w !! t) as [s|]; [|apply keeps_id].
  match goal with |- context [let '(_, _) := ?x in _] => assert (KeepsL u l w x.1) as R; [|by destruct x] end.
  repeat apply keeps_then; try apply keeps_id.
  - intros w0. destruct (is_half (info s)); [rewrite release_world|]; apply keeps_id.
  - intros w0. apply keeps_upd. intros. apply gentle_listed.
  - intros w0. by apply keeps_drop.
Qed.

Lemma keeps_leave_one e u r last l t y : t ∈ l -> KeepsL u l y.1.1 (leave_one e u r last t y).1.1.
Proof.
  intros Hin. destruct y as [[w o] m]. unfold leave_one. destruct (heap w !! t) as [s|]; [|apply keeps_id].
  case_match; [|case_match; [|apply keeps_id]].
  - match goal with |- context [let '(_, _) := ?x in _] => assert (KeepsL u l w x.1) as R; [|by destruct x] end.
    repeat apply keeps_then; try apply keeps_id.
    + intros w0. apply keeps_upd. intros. apply gentle_listed.
    + intros w0. by apply keeps_drop.
  - apply keeps_upd. intros. apply gentle_room.
Qed.

Lemma keeps_move_one to u l t y : KeepsL u l y.1.1 (move_one to t y).1.1.
Proof.
  destruct y as [[w o] m]. unfold move_one. destruct (heap w !! t) as [s|] eqn:Hs; [|apply keeps_id]. simpl. intros HI Ho. split.
  - apply ri_upd; [done|]. intros s' Hs'. simplify_eq. by split.
  - intros t0 Ht s0. unfold upd; simpl. rewrite lookup_alter_Some. intros [(<- & s' & Hs' & ->) | [_ Hs']]; [simplify_eq; simpl|]; by eapply Ho.
Qed.

Lemma keeps_fold {A} (f : string -> World * A * list TrackEntry -> World * A * list TrackEntry) u l k y :
  (forall t y, t ∈ l -> KeepsL u l y.1.1 (f t y).1.1) -> (forall t, t ∈ k -> t ∈ l) ->
  KeepsL u l y.1.1 (fold_left (fun y t => f t y) k y).1.1.
Proof.
  intros Hf. revert y. induction k as [|t k IH]; intros y Hk; [apply keeps_id|]. simpl.
  eapply keeps_trans; [apply Hf, Hk; by left|]. apply IH. intros. apply Hk. by right.
Qed.

Lemma keeps_fold_map (f : string -> World * list Eff * gmap string (list TrackEntry) -> World * list Eff * gmap string (list TrackEntry)) u l k y :
  (forall t y, t ∈ l -> KeepsL u l y.1.1 (f t y).1.1) -> (forall t, t ∈ k -> t ∈ l) ->
  KeepsL u l y.1.1 (fold_left (fun y t => f t y) k y).1.1.
Proof.
  intros Hf. revert y. induction k as [|t k IH]; intros y Hk; [apply keeps_id|]. simpl.
  eapply keeps_trans; [apply Hf, Hk; by left|]. apply IH. intros. apply Hk. by right.
Qed.

Lemma ri_announce_removed m w : RI w -> RI (announce_removed m w).1.
Proof.
  unfold announce_removed. intros H.
  assert (forall l x, RI x.1 -> RI (fold_left (fun x r => x >>> (fun w => match rooms w !! r with
    | Some _ => track_event r false (default [] (m !! r)) w >>> resync_room r | None => (w, []) end)) l x).1) as F.
  { intros l. induction l as [|r l IH]; intros x Hx; [done|]. simpl. apply IH, ri_then; [done|]. intros w0 H0.
    destruct (rooms w0 !! r); [|done]. apply ri_then; auto with media. }
  by apply F.
Qed.

Lemma ri_unpublish e u r j ids w : RI w -> RI (unpublish e u r j ids w).1.1.
Proof.
  intros H. unfold unpublish. destruct (match joined_as u r j w with Ok _ => _ | Err _ => _ end); [|done].
  destruct (negb _); [done|]. destruct (forallb _ ids) eqn:Hall; [|done].
  assert (forall t, t ∈ ids -> owns u w t) as Ho.
  { intros t Ht. rewrite forallb_forall in Hall. specialize (Hall t ltac:(by apply list_elem_of_In)).
    unfold ctx_find in Hall. destruct (ctxs w !! u) as [c|] eqn:Hc; [|done]. case_bool_decide as Hin; [|done].
    apply ctx_owns; [done|]. unfold cset. by rewrite Hc. }
  pose proof (keeps_fold_map (fun t y => unpublish_one e u t y) u ids ids (w, [], ∅) (fun t y => keeps_unpublish_one e u ids t y) (fun t Ht => Ht)) as F.
  destruct (fold_left _ ids (w, [], ∅)) as [[w1 o1] m]. simpl in F. destruct (F H Ho) as [H1 _].
  pose proof (ri_announce_removed m w1 H1) as H2. simpl. by destruct (announce_removed m w1).
Qed.

Lemma ri_move_pub u to token w : RI w -> RI (move_pub u to token w).1.1.
Proof.
  intros H. unfold move_pub. destruct (peers w !! u) as [p|]; [|done].
  destruct (match to with Some _ => _ | None => _ end) as [[]| |]; try done.
  set (l := map tid_of (ctx_streams u w)). set (w1 := upd_peer u (with_pub_room to) w).
  assert (RI w1) as H1 by (by apply ri_peer).
  assert (forall t, t ∈ l -> owns u w1 t) as Ho.
  { intros t Ht. unfold l in Ht. rewrite (ctx_tids u w H), elem_ctx_ids in Ht. intros s Hs. by apply (ctx_owns u w t H Ht). }
  pose proof (keeps_fold (fun t y => move_one to t y) u l l (w1, [], []) (fun t y _ => keeps_move_one to u l t y) (fun t Ht => Ht)) as F.
  destruct (fold_left _ l (w1, [], [])) as [[w2 from] new]. simpl in F. destruct (F H1 Ho) as [H2 _].
  match goal with |- context [let (_, _) := ?x in _] => assert (RI x.1) as R; [|by destruct x] end.
  repeat apply ri_then; try done.
  - intros w0 H0. destruct (pub_room p); [by apply ri_some_event|done].
  - intros w0 H0. destruct to; [|done]. apply ri_then; [done|]. intros. by apply ri_some_event.
Qed.

Lemma ri_affiliation e token u sel de w : RI w -> RI (affiliation e token u sel de w).1.1.
Proof.
  intros H. unfold affiliation. destruct (peers w !! u) as [p|]; [|done].
  assert (forall to, RI (move_pub u to token w).1.1) as M by (intros; by apply ri_move_pub).
  destruct (match sel with Some _ => _ | None => _ end); [done|]. destruct (match de with Some _ => _ | None => _ end); [done|].
  destruct sel as [[r j]|].
  - destruct (rooms w !! r); [|done]. specialize (M (Some r)). destruct (move_pub _ _ _ _) as [[? ?] []]; done.
  - destruct de as [[r j]|]; [|done]. destruct (bool_decide _); [|done].
    pose proof (release_world e u r w) as E. destruct (release_floor_if_speaker e u r w) as [w1 o1]. simpl in E. subst w1.
    specialize (M None). destruct (move_pub _ _ _ _) as [[? ?] []]; done.
Qed.

Lemma ri_join mem r j one sel token w : RI w -> RI (join mem r j one sel token w).1.
Proof.
  intros H. unfold join. destruct (rooms w !! r) as [m|]; [|done]. simpl.
  set (p := default _ (peers w !! Room.user mem)).
  assert (RI (set_peers (<[Room.user mem := with_rooms (<[r:=j]> (joined_rooms p)) p]> (peers w)) w)) as H1.
  { destruct H as [K T C P I Z S]. split; simpl; auto.
    - intros u t Ht. apply lookup_insert_is_Some. destruct (decide (Room.user mem = u)); [by left|]. right. split; [done|]. by eapply P.
    - intros u p0 x t n. rewrite lookup_insert_Some. intros [[<- <-] | [_ Hp]] Hx; [|by eapply I]. simpl in Hx.
      unfold p in Hx. destruct (peers w !! Room.user mem) eqn:Hp; simpl in Hx; [by eapply I|]. by rewrite lookup_empty in Hx. }
  destruct sel; [|by apply ri_rooms].
  match goal with |- context [move_pub ?u ?to ?tk ?x] => pose proof (ri_move_pub u to tk x (ri_rooms _ _ H1)) as M; destruct (move_pub u to tk x) as [[? ?] ?] end. done.
Qed.

Lemma ri_set_peer u p p' w : RI w -> peers w !! u = Some p -> ingress p' = ingress p -> RI (set_peers (<[u := p']> (peers w)) w).
Proof.
  intros [K T C P I Z S] Hp Hi. split; simpl; auto.
  - intros u0 t Ht. apply lookup_insert_is_Some. destruct (decide (u = u0)); [by left|]. right. split; [done|]. by eapply P.
  - intros u0 p0 x t n. rewrite lookup_insert_Some. intros [[<- <-] | [_ Hp0]] Hx; [|by eapply I]. rewrite Hi in Hx. by eapply I.
Qed.

(** Dropping a list of streams of a user. *)
Lemma fold_drop e u l w0 o0 :
  RI w0 -> is_Some (peers w0 !! u) -> (forall t, t ∈ l -> is_Some (heap w0 !! t) /\ owns u w0 t) ->
  let x := fold_left (fun x t => x >>> drop_stream e u t) l (w0, o0) in
  RI x.1 /\ cset u x.1 = cset u w0 ∖ list_to_set l /\ (forall u', u' <> u -> cset u' x.1 = cset u' w0) /\
  tracks x.1 = tracks w0 ∖ list_to_set l /\ heap x.1 = heap w0 /\ is_Some (peers x.1 !! u) /\ rooms x.1 = rooms w0 /\
  (forall u', u' <> u -> peers x.1 !! u' = peers w0 !! u').
Proof.
  revert w0 o0. induction l as [|t l IH]; intros w0 o0 HI Hp Ho; simpl; [split_and!; try done; set_solver|].
  destruct (drop_stream_spec e u t w0) as (o1 & -> & _).
  destruct (Ho t) as [Hs Hot]; [by left|]. destruct (heap w0 !! t) as [s|] eqn:Hh; [|by destruct Hs]. destruct (peers w0 !! u) as [p|] eqn:Hpu; [|by destruct Hp]. simpl.
  assert (is_Some (peers (dropped u t w0) !! u)) as Hp' by (unfold dropped, index_remove, upd_peer; simpl; by rewrite lookup_alter_eq, Hpu).
  destruct (IH (dropped u t w0) (o0 ++ o1)) as (H1 & H2 & H3 & H4 & H5 & H6 & H7 & H8); [by apply ri_dropped|done|intros; by apply Ho; right|].
  split_and!; auto.
  - rewrite H2, cset_dropped, decide_True by done. set_solver.
  - intros u' Hu. rewrite H3, cset_dropped, decide_False by done. done.
  - rewrite H4. unfold dropped; simpl. set_solver.
  - intros u' Hu. rewrite H8 by done. unfold dropped, index_remove, upd_peer; simpl. by rewrite lookup_alter_ne.
Qed.

Lemma ri_reap e u w : RI w -> is_Some (peers w !! u) -> RI (reap e u w).1.
Proof.
  intros H Hp. unfold reap. rewrite (ctx_tids u w H).
  destruct (fold_drop e u (ctx_ids u w) w []) as (H1 & H2 & H3 & H4 & H5 & _); [done|done| |].
  { intros t Ht. rewrite elem_ctx_ids in Ht. split; [|by apply ctx_owns]. by apply (r_ctx _ H) in Ht as [_ (s & -> & _)]. }
  destruct (fold_left _ _ _) as [w1 o1]. simpl in *.
  assert (cset u w1 = ∅) as He.
  { rewrite H2. apply leibniz_equiv. intros t. rewrite elem_of_difference, elem_of_list_to_set, elem_ctx_ids. set_solver. }
  assert (forall u', cset u' (set_ctxs (delete u (ctxs w1)) (set_peers (delete u (peers w1)) w1)) = cset u' w1) as Hc.
  { intros u'. unfold cset; simpl. destruct (decide (u' = u)) as [->|Hu]; [|by rewrite lookup_delete_ne].
    rewrite lookup_delete_eq. unfold cset in He. by rewrite He. }
  destruct H1 as [K T C P I Z S]. split; simpl; auto.
  - intros u' t. by rewrite Hc.
  - intros u' t. rewrite Hc. intros Ht. rewrite lookup_delete_is_Some. split; [|by eapply P]. intros ->. by rewrite He in Ht.
  - intros u' p x t n. rewrite Hc, lookup_delete_Some. intros [Hu Hp'] Hx. by eapply I.
  - intros u'. by rewrite Hc.
Qed.

(** A drop does not take a peer away. *)
Lemma peers_drop e u t w u' : is_Some (peers w !! u') -> is_Some (peers (drop_stream e u t w).1 !! u').
Proof.
  intros H. destruct (drop_stream_spec e u t w) as (o & -> & _). simpl. destruct (_ && _); [|done].
  unfold dropped, index_remove, upd_peer; simpl. by rewrite lookup_alter_is_Some.
Qed.

Lemma peers_leave_one e u r last t y u' : is_Some (peers y.1.1 !! u') -> is_Some (peers (leave_one e u r last t y).1.1 !! u').
Proof.
  destruct y as [[w o] m]. intros H. unfold leave_one. destruct (heap w !! t); [|done]. destruct (_ || last).
  - simpl. pose proof (peers_drop e u t (upd t (upd_info (store_listed false)) w) u' H) as P. by destruct (drop_stream _ _ _ _).
  - by destruct (_ && _).
Qed.

Lemma ri_leave e u r w : RI w -> RI (leave e u r w).1.1.
Proof.
  intros H. unfold leave. destruct (rooms w !! r) as [m|] eqn:Hr; [|done]. destruct (peers w !! u) as [p|] eqn:Hp; [|done].
  set (p1 := if bool_decide (pub_room p = Some r) then with_pub_room None p else p).
  assert (ingress p1 = ingress p) as Hi1 by (unfold p1; by case_bool_decide).
  pose proof (ri_set_peer u p p1 w H Hp Hi1) as H1. set (w1 := set_peers (<[u:=p1]> (peers w)) w) in *.
  destruct (Room.members (rstate m) !! u) as [mem|]; [|done].
  set (p2 := with_rooms (delete r (joined_rooms p1)) p1). set (last := bool_decide (joined_rooms p2 = ∅)).
  set (w2 := set_peers (<[u:=p2]> (peers w1)) (set_rooms (<[r:=mkRoom (media_codecs m) (Room.remove u (rstate m)).1]> (rooms w1)) w1)).
  assert (RI w2) as H2.
  { apply (ri_set_peer u p1 p2 (set_rooms (<[r:=mkRoom (media_codecs m) (Room.remove u (rstate m)).1]> (rooms w1)) w1)); [by apply ri_rooms|simpl; by rewrite lookup_insert_eq|done]. }
  set (l := map tid_of (ctx_streams u w2)).
  assert (forall t, t ∈ l -> owns u w2 t) as Ho.
  { intros t Ht. unfold l in Ht. rewrite (ctx_tids u w2 H2), elem_ctx_ids in Ht. by apply ctx_owns. }
  pose proof (keeps_fold (fun t y => leave_one e u r last t y) u l l (w2, [EFloor r u FLeave], []) (fun t y => keeps_leave_one e u r last l t y) (fun t Ht => Ht)) as F.
  assert (forall k y, is_Some (peers y.1.1 !! u) -> is_Some (peers (fold_left (fun y t => leave_one e u r last t y) k y).1.1 !! u)) as Pf.
  { intros k. induction k as [|t k IH]; intros y Hy; [done|]. simpl. by apply IH, peers_leave_one. }
  specialize (Pf l (w2, [EFloor r u FLeave], []) ltac:(simpl; by rewrite lookup_insert_eq)).
  change (fold_left (fun y t => leave_one e u r (bool_decide (joined_rooms p2 = ∅)) t y) (map tid_of (ctx_streams u w2)) (w2, [EFloor r u FLeave], []))
    with (fold_left (fun y t => leave_one e u r last t y) l (w2, [EFloor r u FLeave], [])).
  destruct (fold_left _ l _) as [[w3 o3] removed]. simpl in F, Pf. destruct (F H2 Ho) as [H3 _].
  match goal with |- context [let (_, _) := ?x in _] => assert (RI x.1) as R; [|by destruct x] end.
  apply ri_then; [|intros w0 H0; destruct (Room.hidden mem); [done|by apply ri_bump]].
  apply ri_then; [|intros; by apply ri_some_event].
  simpl. destruct last; [|done]. pose proof (ri_reap e u w3 H3 Pf) as R. by destruct (reap e u w3).
Qed.

Lemma ri_index_add u t n k w s : RI w -> t ∈ cset u w -> heap w !! t = Some s -> (n < length (phys s))%nat -> RI (index_add u t n k w).
Proof.
  intros [K T C P I Z S] Ht Hs Hn. unfold index_add, upd_peer. split; simpl; auto.
  - intros u0 t0 Ht0. rewrite lookup_alter_is_Some. by eapply P.
  - intros u0 p x t0 n0. rewrite lookup_alter_Some. intros [(<- & p' & Hp & ->) | [_ Hp]] Hx; [|by eapply I]. simpl in Hx.
    assert (forall m : gmap BinNums.Z (string * nat), (forall x t0 n0, m !! x = Some (t0, n0) -> t0 ∈ cset u w /\ exists s, heap w !! t0 = Some s /\ (n0 < length (phys s))%nat) ->
      forall y x t0 n0, <[y := (t, n)]> m !! x = Some (t0, n0) -> t0 ∈ cset u w /\ exists s, heap w !! t0 = Some s /\ (n0 < length (phys s))%nat) as Add.
    { intros m Hm y x' t' n'. rewrite lookup_insert_Some. intros [[_ E] | [_ E]]; [simplify_eq; eauto|eauto]. }
    assert (forall x t0 n0, ingress p' !! x = Some (t0, n0) -> t0 ∈ cset u w /\ exists s, heap w !! t0 = Some s /\ (n0 < length (phys s))%nat) as B by (intros ???; by apply I).
    destruct (t_rtx k) as [rx|]; eapply Add; try exact Hx; [apply Add, B|apply B].
Qed.

Lemma find_member {A} (f : A -> bool) l x : List.find f l = Some x -> x ∈ l /\ f x = true.
Proof. intros H. apply find_some in H as [Hin Hf]. split; [by apply list_elem_of_In|done]. Qed.

Lemma find_rid_lt sp n l k : find_rid sp n l = Some k -> (k < n + length l)%nat.
Proof. revert n. induction l as [|t l IH]; intros n H; [done|]. simpl in *. case_bool_decide; [simplify_eq; lia|]. apply IH in H. lia. Qed.

Lemma ri_learn u rid rrid m x w : RI w -> RI (learn u rid rrid m x w).1.1.
Proof.
  intros H. unfold learn. destruct (List.find _ (ctx_streams u w)) as [s|] eqn:Hf; [|done].
  apply find_member in Hf as [Hin _]. apply (ctx_streams_spec u w s H) in Hin as [Hc Hs].
  destruct rrid as [rr|].
  - destruct (match spatial rr with Some _ => _ | None => _ end) as [n|] eqn:Hn; [|done].
    set (l := alter _ n (phys s)). simpl.
    assert (RI (upd (tid_of s) (with_phys l) w)) as H1.
    { apply ri_upd; [done|]. intros s' Hs'. simplify_eq. split; try done. simpl. unfold l. by rewrite length_alter. }
    destruct (l !! n) as [t|] eqn:Hl; [|done]. eapply ri_index_add; [done|done| |].
    + unfold upd; simpl. by rewrite lookup_alter_eq, Hs.
    + simpl. by eapply lookup_lt_Some.
  - destruct (match rid with Some _ => _ | None => _ end) as [sp|]; [|done].
    destruct (find_rid sp 0 (phys s)) as [n|]; [done|]. simpl.
    apply ri_upd; [|intros; apply gentle_listed]. eapply ri_index_add.
    + apply ri_upd; [done|]. intros s' Hs'. simplify_eq. split; try done. simpl. rewrite length_app. lia.
    + done.
    + unfold upd; simpl. by rewrite lookup_alter_eq, Hs.
    + simpl. rewrite length_app. simpl. lia.
Qed.

Lemma ri_track_set e u r j tid x mut dup w : RI w -> RI (track_set e u r j tid x mut dup w).1.1.
Proof.
  intros H. unfold track_set. destruct (joined_as u r j w) as [[p m]|]; [|done].
  destruct (eqb _ _); [done|]. destruct (negb _); [done|].
  assert (forall o : option PubStream, RI (match o with
    | None => (w, [], Bad TrackNotFound)
    | Some s => match mut with
      | Some m => if is_half (info s) then (w, [], Bad TrackOpUnsupported)
        else if eqb (muted (info s)) m then (w, [], Good (mkSetRes (ssrc s) (Some m) None true))
        else let (w, o) := (w |> upd (tid_of s) (upd_info (store_muted m)), [])
             >>> (fun w => if listed_flag (info s) then bump (room (info s)) (ETrackState (room (info s)) (tid_of s) m) w else (w, [])) in
             (w, o, Good (mkSetRes (ssrc s) (Some m) None false))
      | None => match set_duplex_of e u (pub_room p) r (tid_of s) (default Full dup) w with
        | (w, o, Ok noop) => (w, o, Good (mkSetRes (ssrc s) None (Some (default Full dup)) noop))
        | (w, o, Err f) => (w, o, Bad f) end end end).1.1) as D.
  { intros [s|]; [|done]. destruct mut as [b|].
    - destruct (is_half (info s)); [done|]. destruct (eqb _ _); [done|].
      match goal with |- context [let (_, _) := ?x in _] => assert (RI x.1) as R; [|by destruct x] end.
      apply ri_then; [apply ri_upd; [done|intros; apply gentle_muted]|]. intros w0 H0. destruct (listed_flag (info s)); [by apply ri_bump|done].
    - pose proof (ri_set_duplex e u (pub_room p) r (tid_of s) (default Full dup) w H) as R.
      destruct (set_duplex_of _ _ _ _ _ _ _) as [[? ?] []]; done. }
  destruct tid, x; try done; apply D.
Qed.

(** A user has a place left. *)
Lemma ri_add_stream u r t one tb pt w :
  RI w -> heap w !! t = None -> is_Some (peers w !! u) -> Z.of_nat (size (cset u w)) < PER_PERSON -> RI (add_stream u r t one tb pt w).1.
Proof.
  intros H Hf Hp Hz. unfold add_stream. set (s := with_pstate Intended (new_stream t u r pt)).
  set (w1 := set_tracks _ _).
  assert (forall u', cset u' w1 = if decide (u' = u) then {[t]} ∪ cset u w else cset u' w) as Hc.
  { intros u'. unfold w1, cset; simpl. case_decide; [subst; by rewrite lookup_insert_eq|by rewrite lookup_insert_ne]. }
  assert (t ∉ tracks w) as Ht by (intros Ht; apply (r_tracks _ H) in Ht; rewrite Hf in Ht; by destruct Ht).
  assert (RI w1) as H1.
  { destruct H as [K T C P I Z S]. split; simpl; auto.
    - intros t0 s0. rewrite lookup_insert_Some. intros [[<- <-] | [_ Hs]]; [done|auto].
    - intros t0 Ht0. apply lookup_insert_is_Some. destruct (decide (t = t0)); [by left|]. right. split; [done|]. apply T. set_solver.
    - intros u' t0. rewrite Hc. destruct (decide (t0 = t)) as [->|Hne].
      + split.
        * intros Hin. split; [set_solver|]. exists s. rewrite lookup_insert_eq. split; [done|].
          case_decide; [by subst|]. apply C in Hin as [? _]. done.
        * intros [_ (s0 & Hs0 & Hu)]. rewrite lookup_insert_eq in Hs0. simplify_eq. simpl. rewrite decide_True by done. set_solver.
      + rewrite lookup_insert_ne by done. transitivity (t0 ∈ cset u' w); [|rewrite C; set_solver]. case_decide; [subst; set_solver|done].
    - intros u' t0. rewrite Hc. intros Hin. case_decide; [by subst|by eapply P].
    - intros u' p x t0 n Hp' Hx. destruct (I _ _ _ _ _ Hp' Hx) as (Hin & s0 & Hs0 & Hn). rewrite Hc. split; [case_decide; [subst; set_solver|done]|].
      exists s0. rewrite lookup_insert_ne; [done|]. intros <-. by rewrite Hf in Hs0.
    - intros u'. rewrite Hc. case_decide; [|apply Z]. rewrite size_union_alt, size_singleton.
      assert (size (cset u w ∖ {[t]}) <= size (cset u w))%nat by (apply subseteq_size; set_solver). lia.
    - intros t0 s0. rewrite lookup_insert_Some. intros [[<- <-] | [_ Hs]] Hm; [|by eapply S]. simpl in Hm |- *.
      apply andb_true_iff in Hm as [_ Hm]. by apply bool_decide_eq_true in Hm. }
  match goal with |- RI ((if _ then upd _ _ ?x else ?x), _).1 => assert (RI x) as H2 end.
  { destruct (simulcast (info s)); [done|]. eapply ri_index_add.
    - apply ri_upd; [done|]. intros s' Hs'. unfold w1 in Hs'. simpl in Hs'. rewrite lookup_insert_eq in Hs'. simplify_eq. split; try done. simpl. lia.
    - unfold upd. change (cset u (set_heap ?h w1)) with (cset u w1). rewrite Hc, decide_True by done. set_solver.
    - unfold upd, w1; simpl. rewrite lookup_alter_eq, lookup_insert_eq. done.
    - simpl. lia. }
  simpl. destruct (_ && _); [|done]. apply ri_upd; [done|]. intros. apply gentle_listed.
Qed.

(** What the loop of publishing needs of the world between two tracks. *)
Record Room4 (u : string) (ids : list string) (n : nat) (w : World) : Prop := {
  f_peer : is_Some (peers w !! u);
  f_nodup : NoDup ids;
  f_fresh : forall t, t ∈ ids -> heap w !! t = None;
  f_size : Z.of_nat (size (cset u w)) + Z.of_nat n <= PER_PERSON }.

Lemma bump_frame r f w : heap (bump r f w).1 = heap w /\ tracks (bump r f w).1 = tracks w /\ ctxs (bump r f w).1 = ctxs w /\ peers (bump r f w).1 = peers w.
Proof. unfold bump. by destruct (rooms w !! r). Qed.

Lemma set_duplex_frame e u pr r t d w :
  let w' := (set_duplex_of e u pr r t d w).1.1 in
  tracks w' = tracks w /\ ctxs w' = ctxs w /\ peers w' = peers w /\ (forall t0, heap w' !! t0 = None <-> heap w !! t0 = None).
Proof.
  simpl. destruct (set_duplex_of e u pr r t d w) as [[w' o] x] eqn:E.
  apply set_duplex_spec in E as [(-> & _) | (s & v & Hs & _ & _ & _ & -> & _)]; [done|]. simpl.
  unfold track_event. destruct (bump_frame r (ETrackEvent r true [entry (store_listed true (store_muted false (store_duplex d (info s))))])
    (upd t (upd_info (fun _ => store_listed true (store_muted false (store_duplex d (info s))))) w)) as (-> & -> & -> & ->).
  split_and!; try done. intros t0. unfold upd; simpl. rewrite lookup_alter_None. done.
Qed.

Lemma add_stream_heap u r t one tb pt w t0 : heap w !! t = None -> t0 <> t -> heap (add_stream u r t one tb pt w).1 !! t0 = heap w !! t0.
Proof.
  intros Hf Hne. unfold add_stream. simpl. destruct (_ && bool_decide (default Full (p_duplex pt) = Full)), (_ && _);
    unfold upd, index_add, upd_peer; simpl; rewrite ?lookup_alter_ne, lookup_insert_ne by done; done.
Qed.

Lemma add_stream_cset u r t one tb pt w u0 :
  cset u0 (add_stream u r t one tb pt w).1 = if decide (u0 = u) then {[t]} ∪ cset u w else cset u0 w.
Proof.
  unfold add_stream. simpl. destruct (_ && bool_decide (default Full (p_duplex pt) = Full)), (_ && _);
    unfold cset; simpl; (case_decide; [subst; by rewrite lookup_insert_eq|by rewrite lookup_insert_ne]).
Qed.

Lemma add_stream_peers u r t one tb pt w u0 : is_Some (peers w !! u0) -> is_Some (peers (add_stream u r t one tb pt w).1 !! u0).
Proof.
  intros H. unfold add_stream. simpl. destruct (_ && bool_decide (default Full (p_duplex pt) = Full)), (_ && _);
    unfold index_add, upd_peer; simpl; try done; by rewrite lookup_alter_is_Some.
Qed.

Definition none_count {A} (l : list (A * option PubStream)) : nat := length (List.filter (fun x => negb (is_some x.2)) l).

Lemma room4_add u r t one tb pt w ids n :
  Room4 u (t :: ids) (S n) w -> Room4 u ids n (add_stream u r t one tb pt w).1.
Proof.
  intros [Fp Fn Ff Fz]. apply NoDup_cons in Fn as [Hn Fn]. split; [by apply add_stream_peers|done| |].
  - intros t0 Ht. rewrite add_stream_heap; [apply Ff; by right|apply Ff; by left|]. intros ->. done.
  - rewrite add_stream_cset, decide_True by done. rewrite size_union_alt, size_singleton.
    assert (size (cset u w ∖ {[t]}) <= size (cset u w))%nat by (apply subseteq_size; set_solver). lia.
Qed.

Lemma room4_duplex e u pr r t d w ids n : Room4 u ids n w -> Room4 u ids n (set_duplex_of e u pr r t d w).1.1.
Proof.
  intros [Fp Fn Ff Fz]. destruct (set_duplex_frame e u pr r t d w) as (_ & Hc & Hp & Hh). split; [by rewrite Hp|done| |].
  - intros t0 Ht. by apply Hh, Ff.
  - unfold cset. by rewrite Hc.
Qed.

Lemma ri_add_loop e u r p l a w : RI w -> Room4 u (a_ids a) (none_count l) w -> RI (add_loop e u r p l a w).1.1.
Proof.
  revert a w. induction l as [|[t [s|]] l IH]; intros a w H F; cbn [add_loop]; [done| |].
  - pose proof (ri_set_duplex e u (pub_room p) r (tid_of s) (default Full (p_duplex t)) w H) as H1.
    pose proof (room4_duplex e u (pub_room p) r (tid_of s) (default Full (p_duplex t)) w _ _ F) as F1.
    destruct (set_duplex_of _ _ _ _ _ _ _) as [[w1 o1] [b|f]]; [|done]. simpl in H1, F1.
    specialize (IH (mkAdding (a_ids a) (a_added a ++ [(mid s, tid_of s)]) (a_new a)) w1 H1 F1).
    by destruct (add_loop _ _ _ _ _ _ _) as [[? ?] ?].
  - destruct (a_ids a) as [|tid ids] eqn:Hids; [done|].
    assert (RI (add_stream u r tid (pc_one p) (is_some (down_ssrcs e u)) t w).1) as H1.
    { destruct F as [Fp Fn Ff Fz]. apply ri_add_stream; [done|apply Ff; by left|done|]. unfold none_count in Fz. simpl in Fz. lia. }
    pose proof (room4_add u r tid (pc_one p) (is_some (down_ssrcs e u)) t w ids (none_count l) F) as F1.
    destruct (add_stream _ _ _ _ _ _ _) as [w1 o1]. simpl in H1, F1.
    match goal with |- context [add_loop e u r p l ?a' w1] => pose proof (IH a' w1 H1 F1) as H2 end.
    by destruct (add_loop _ _ _ _ _ _ _) as [[? ?] ?].
Qed.

(** The random ids of a request are new. *)
Definition fresh_ids (ids : list string) (w : World) : Prop := NoDup ids /\ forall t, t ∈ ids -> heap w !! t = None.

Lemma cset_ensure u u0 w : cset u0 (ensure_ctx u w) = cset u0 w.
Proof.
  unfold ensure_ctx, cset. destruct (ctxs w !! u) eqn:E; [done|]. simpl. destruct (decide (u0 = u)) as [->|Hu]; [by rewrite lookup_insert_eq, E|by rewrite lookup_insert_ne].
Qed.

Lemma ri_ensure u w : RI w -> RI (ensure_ctx u w).
Proof.
  intros [K T C P I Z S]. assert (forall u0, cset u0 (ensure_ctx u w) = cset u0 w) as E by (intros; apply cset_ensure).
  assert (heap (ensure_ctx u w) = heap w /\ tracks (ensure_ctx u w) = tracks w /\ peers (ensure_ctx u w) = peers w) as (Eh & Et & Ep)
    by (unfold ensure_ctx; by destruct (ctxs w !! u)).
  split; rewrite ?Eh, ?Et, ?Ep; auto.
  - intros u0 t. by rewrite E.
  - intros u0 t. rewrite E. apply P.
  - intros u0 p x t n. rewrite E. apply I.
  - intros u0. by rewrite E.
Qed.

Lemma zip_none {A} (ts : list A) (l : list (option PubStream)) :
  (none_count (zip ts l) <= length (List.filter (fun o => negb (is_some o)) l))%nat.
Proof.
  revert l. induction ts as [|t ts IH]; intros [|o l]; unfold none_count in *; simpl; try lia. specialize (IH l). destruct o; simpl; lia.
Qed.

Lemma joined_as_peer u r j w p m : joined_as u r j w = Ok (p, m) -> peers w !! u = Some p /\ rooms w !! r = Some m /\ joined_rooms p !! r = Some j.
Proof.
  unfold joined_as, joined. destruct (rooms w !! r); [|done]. destruct (peers w !! u); [|done].
  case_bool_decide; [|done]. case_bool_decide; [|done]. intros ?; by simplify_eq.
Qed.

(** Where publishing comes to its loop. *)
Lemma check_tracks_size e u x items again p m w ts :
  check_tracks e u x items again p m w = Good ts ->
  Z.of_nat (size (cset u w)) + Z.of_nat (length (List.filter (fun o => negb (is_some o)) again)) <= PER_PERSON.
Proof.
  unfold check_tracks. destruct (PER_REQUEST <? _); [done|]. destruct (PER_PERSON <? _) eqn:E; [done|]. intros _. unfold active in E. unfold cset. lia.
Qed.

Lemma ri_publish e token ids u r j items x w : RI w -> fresh_ids ids w -> RI (publish e token ids u r j items x w).1.1.
Proof.
  intros H [Hn Hf]. unfold publish. destruct (add_again u items w); [done|]. destruct x as [x|]; [|done].
  destruct (joined_as u r j w) as [[p m]|] eqn:Hj; [|done]. apply joined_as_peer in Hj as (Hp & _).
  destruct (may_publish _ _ _ _ _ _); [done|]. pose proof (ri_ensure u w H) as H1.
  destruct (check_tracks _ _ _ _ _ _ _ _) as [ts| |] eqn:Hc; [|done|done]. apply check_tracks_size in Hc.
  set (w2 := upd_peer u _ (ensure_ctx u w)).
  assert (RI w2) as H2 by (by apply ri_peer).
  assert (Room4 u ids (none_count (zip ts (same_mid u items w))) w2) as F.
  { split.
    - unfold w2, upd_peer; simpl. rewrite lookup_alter_is_Some. unfold ensure_ctx. destruct (ctxs w !! u); simpl; by rewrite Hp.
    - done.
    - intros t Ht. unfold w2, upd_peer, ensure_ctx. destruct (ctxs w !! u); simpl; by apply Hf.
    - unfold w2, upd_peer. change (cset u (set_peers _ (ensure_ctx u w))) with (cset u (ensure_ctx u w)).
      pose proof (zip_none ts (same_mid u items w)). lia. }
  pose proof (ri_add_loop e u r p (zip ts (same_mid u items w)) (mkAdding ids [] []) w2 H2 F) as H3.
  destruct (add_loop _ _ _ _ _ _ _) as [[w3 o3] [a| |]]; [|done|done]. simpl in H3.
  match goal with |- context [let (_, _) := ?x in _] => assert (RI x.1) as R; [|by destruct x] end.
  destruct (a_new a); [done|]. repeat apply ri_then; auto with media.
Qed.

Lemma ri_world0 l : RI (world0 l).
Proof. split; simpl; try done; unfold cset; simpl; try set_solver. Qed.

End MediaInv.
