(* ===== verification/MediaSee.v ===== *)
(** * What a room shows of its tracks

    The list a member of a room keeps by the notices, the list of the streams that are listed in
    the room, and that setting a track, its first packet, taking tracks away and moving them
    keep the two alike. *)

From S2P Require Import Prelude Room Tracks Media MediaInv.

Module MediaSee.
Import Trk Media MediaInv.

(** What a room has to show of a track. *)
Definition shown (w : World) (r t : string) : option TrackEntry :=
  match stream t w with Some s => if listed (info s) r then Some (entry (info s)) else None | None => None end.

(** The rooms of a peer. *)
Definition aff_of (p : Peer) : option string * gmap string string := (pub_room p, joined_rooms p).

(** The streams that are listed or full-duplex are where their user publishes, which is a room
    the user is in. *)
Record AI (w : World) : Prop := {
  a_room : forall t s, t ∈ tracks w -> heap w !! t = Some s -> duplex (info s) = Full \/ listed_flag (info s) = true ->
    exists p, peers w !! user (info s) = Some p /\ room (info s) = default "" (pub_room p);
  a_pub : forall u p r, peers w !! u = Some p -> pub_room p = Some r -> is_Some (rooms w !! r) /\ is_Some (joined_rooms p !! r);
  a_empty : rooms w !! "" = None }.

Definition there (w : World) (r : string) : Prop := is_Some (rooms w !! r).

(** What the members see is what there is, but for the tracks [P], of which something is still
    to be told. *)
Definition Vx (P : string -> Prop) (w : World) (v : View) : Prop := forall r t, there w r -> ~ P t -> v r !! t = shown w r t.
Definition V : World -> View -> Prop := Vx (fun _ => False).

Lemma vx_weaken (P Q : string -> Prop) w v : (forall t, P t -> Q t) -> Vx P w v -> Vx Q w v.
Proof. intros H HV r t Hr Hn. apply HV; auto. Qed.

Lemma shown_frame w w' r t : heap w' !! t = heap w !! t -> (t ∈ tracks w' <-> t ∈ tracks w) -> shown w' r t = shown w r t.
Proof. intros Hh Ht. unfold shown, stream. rewrite Hh. by rewrite (bool_decide_ext _ _ Ht). Qed.

Lemma shown_some w r t s : t ∈ tracks w -> heap w !! t = Some s -> shown w r t = if listed (info s) r then Some (entry (info s)) else None.
Proof. intros Ht Hs. unfold shown, stream. by rewrite bool_decide_true, Hs. Qed.

Lemma shown_none w r t : t ∉ tracks w -> shown w r t = None.
Proof. intros Ht. unfold shown, stream. by rewrite bool_decide_false. Qed.

Lemma bump_there r f w r0 : there (bump r f w).1 r0 <-> there w r0.
Proof.
  unfold there, bump. destruct (rooms w !! r) as [m|] eqn:E; [|done]. simpl. rewrite lookup_insert_is_Some'. split; [|by right].
  intros [<- | H]; [by rewrite E|done].
Qed.

Lemma ai_bump r f w : AI w -> AI (bump r f w).1.
Proof.
  intros [R P E]. pose proof (bump_there r f w) as T. unfold there in T. destruct (bump_frame r f w) as (Hh & Ht & _ & Hp).
  split; rewrite ?Hh, ?Ht, ?Hp; auto.
  - intros u p r0 Hp0 Hr0. destruct (P u p r0 Hp0 Hr0). split; [by apply T|done].
  - apply eq_None_not_Some. intros H. apply T in H. rewrite E in H. by destruct H.
Qed.

Lemma vx_bump P r f w v : Vx P w v -> Vx P (bump r f w).1 v.
Proof.
  intros H r0 t Hr Hn. rewrite bump_there in Hr. destruct (bump_frame r f w) as (Hh & Ht & _).
  rewrite (shown_frame w); [by apply H|by rewrite Hh|by rewrite Ht].
Qed.

(** A stream changed: only what is shown of it can differ. *)
Lemma shown_upd w t f s r t0 :
  t ∈ tracks w -> heap w !! t = Some s ->
  shown (upd t f w) r t0 = if decide (t0 = t) then (if listed (info (f s)) r then Some (entry (info (f s))) else None) else shown w r t0.
Proof.
  intros Ht Hs. case_decide as E; [subst t0|].
  - apply shown_some; [done|]. unfold upd; simpl. by rewrite lookup_alter_eq, Hs.
  - apply shown_frame; [|done]. unfold upd; simpl. by rewrite lookup_alter_ne.
Qed.

Lemma track_event_sees r b l w :
  exists n, forall v, sees (track_event r b l w).2 v = if is_some (rooms w !! r) then see v (ETrackEvent r b l n) else v.
Proof. unfold track_event, bump. destruct (rooms w !! r) as [m|]; [|by exists 0]. by exists (Room.seq (rstate m) + 1). Qed.

(** Entries made of a list of tracks. *)
Definition names (g : string -> option TrackEntry) : Prop := forall t x, g t = Some x -> e_track_id x = t.

Lemma put_entries_omap g l m t : names g -> NoDup l ->
  put_entries (omap g l) m !! t = match (if bool_decide (t ∈ l) then g t else None) with Some x => Some x | None => m !! t end.
Proof.
  intros Hg Hn. unfold put_entries. revert m. induction Hn as [|y l Hy Hn IH]; intros m; [done|]. simpl.
  destruct (decide (t = y)) as [->|Hne].
  - rewrite (bool_decide_true (y ∈ y :: l)) by set_solver. destruct (g y) as [x|] eqn:E; simpl; rewrite IH, bool_decide_false by done; [|done].
    rewrite (Hg y x E). by rewrite lookup_insert_eq.
  - rewrite (bool_decide_ext (t ∈ y :: l) (t ∈ l)) by set_solver. destruct (g y) as [x|] eqn:E; simpl; rewrite IH; [|done].
    rewrite (Hg y x E). by rewrite lookup_insert_ne.
Qed.

Lemma del_entries_lookup l m t : del_entries l m !! t = if bool_decide (t ∈ map e_track_id l) then None else m !! t.
Proof.
  unfold del_entries. revert m. induction l as [|x l IH]; intros m; [done|]. simpl. rewrite IH.
  destruct (decide (t ∈ map e_track_id l)) as [H|H]; [rewrite !bool_decide_true by set_solver; done|].
  rewrite (bool_decide_false (t ∈ map e_track_id l)) by done. destruct (decide (t = e_track_id x)) as [->|Hne].
  - rewrite lookup_delete_eq, bool_decide_true; [done|set_solver].
  - rewrite lookup_delete_ne, bool_decide_false by set_solver. done.
Qed.

(** Setting the duplex of a track where it is. *)
Lemma duplex_keeps e u pr r t d w w' o x v s :
  RI w -> AI w -> V w v -> set_duplex_of e u pr r t d w = (w', o, x) -> t ∈ tracks w -> heap w !! t = Some s -> room (info s) = r ->
  (forall p, peers w !! user (info s) = Some p -> pr = pub_room p) -> is_Some (peers w !! user (info s)) ->
  AI w' /\ V w' (sees o v).
Proof.
  intros HI HA HV E Ht Hs Hr Hpr [p Hp]. apply set_duplex_spec in E as [(-> & -> & _) | (s' & n & Hs' & Hd & Hm & Hf & -> & Ho)]; [done|].
  rewrite Hs in Hs'. symmetry in Hs'. simplify_eq. set (i := store_listed true (store_muted false (store_duplex d (info s)))) in *.
  assert (AI (upd t (upd_info (fun _ => i)) w)) as HA1.
  { destruct HA as [R P E]. split; simpl; auto. intros t0 s0 Ht0. unfold upd; simpl. rewrite lookup_alter_Some.
    intros [(<- & s1 & Hs1 & ->) | [_ Hs0]]; [|by eapply R]. rewrite Hs in Hs1. simplify_eq. intros _. simpl. exists p. split; [done|].
    destruct d; [by rewrite <- (Hpr p Hp), Hf|]. destruct (duplex (info s1)) eqn:Hdd; [|done].
    destruct (R t s1 Ht Hs (or_introl Hdd)) as (p' & Hp' & ->). by simplify_eq. }
  split; [by apply ai_bump|]. intros r0 t0 Hr0 _. unfold track_event in *. rewrite bump_there in Hr0.
  rewrite (shown_frame (upd t (upd_info (fun _ => i)) w)); [|by destruct (bump_frame (room (info s)) (ETrackEvent (room (info s)) true [entry i]) (upd t (upd_info (fun _ => i)) w)) as (-> & _)|by destruct (bump_frame (room (info s)) (ETrackEvent (room (info s)) true [entry i]) (upd t (upd_info (fun _ => i)) w)) as (_ & -> & _)].
  rewrite (shown_upd w t _ s) by done. rewrite Ho.
  assert (e_track_id (entry i) = t) as Hid by (by apply (r_key _ HI)).
  assert (forall r', (if is_some (rooms w !! room (info s)) then see v (ETrackEvent (room (info s)) true [entry i] n) else v) r' =
    if decide (r' = room (info s) /\ there w (room (info s))) then <[t := entry i]> (v r') else v r') as Ev.
  { intros r'. unfold see, in_view, put_entries, there. cbn [fold_left]. rewrite Hid.
    destruct (rooms w !! room (info s)); cbn [is_some].
    - destruct (decide (r' = room (info s))); [by rewrite decide_True|by rewrite decide_False by tauto].
    - rewrite decide_False; [done|]. by intros [_ []]. }
  rewrite Ev. destruct (decide (r0 = room (info s))) as [->|Hne].
  - rewrite decide_True by done. case_decide as Et; [subst t0|rewrite lookup_insert_ne by done; apply HV; [done|tauto]].
    rewrite lookup_insert_eq. unfold listed; simpl. by rewrite String.eqb_refl.
  - rewrite decide_False by tauto. rewrite (HV r0 t0) by (done || tauto). case_decide as Et; [subst t0|done].
    rewrite (shown_some w _ _ s) by done. unfold listed; simpl.
    rewrite (proj2 (String.eqb_neq (room (info s)) r0)) by done. by rewrite andb_false_r.
Qed.

(** A stream of a user's context. *)
Definition mine (u : string) (w : World) (s : PubStream) : Prop := tid_of s ∈ cset u w /\ heap w !! tid_of s = Some s.

Lemma mine_facts u w s : RI w -> mine u w s -> tid_of s ∈ tracks w /\ user (info s) = u /\ is_Some (peers w !! u).
Proof.
  intros H [Hc Hs]. pose proof Hc as Hc'. apply (r_ctx _ H) in Hc as [Ht (s' & Hs' & Hu)]. simplify_eq. split_and!; try done. by eapply (r_peer _ H).
Qed.

Lemma ctx_find_mine u t w s : RI w -> ctx_find u t w = Some s -> mine u w s.
Proof.
  intros H. unfold ctx_find. destruct (ctxs w !! u) as [c|] eqn:E; [|done]. case_bool_decide as Hin; [|done]. intros Hs.
  unfold mine. rewrite (r_key _ H _ _ Hs). split; [|done]. unfold cset. by rewrite E.
Qed.

Lemma by_ssrc_mine u x w s : RI w -> by_ssrc u x w = Some s -> mine u w s.
Proof. intros H Hf. apply find_member in Hf as [Hin _]. by apply ctx_streams_spec. Qed.

(** A change that does not touch what is shown. *)
Lemma vx_same P t f w v : (forall s, info (f s) = info s) -> Vx P w v -> Vx P (upd t f w) v.
Proof.
  intros Hf H r t0 Hr Hn. rewrite (H r t0 Hr Hn). unfold shown, stream. simpl. case_bool_decide; [|done].
  destruct (decide (t0 = t)) as [->|Hne]; [|by rewrite lookup_alter_ne]. rewrite lookup_alter_eq. destruct (heap w !! t) as [s|]; simpl; [|done]. by rewrite Hf.
Qed.

Lemma ai_same t f w : (forall s, info (f s) = info s) -> AI w -> AI (upd t f w).
Proof.
  intros Hf [R P E]. split; simpl; auto. intros t0 s0 Ht0. unfold upd; simpl. rewrite lookup_alter_Some.
  intros [(<- & s1 & Hs1 & ->) | [_ Hs0]]; [|by eapply R]. rewrite Hf. by eapply R.
Qed.

Lemma ai_peer u f w : AI w -> (forall p, aff_of (f p) = aff_of p) -> AI (upd_peer u f w).
Proof.
  intros [R P E] Hf. unfold upd_peer. split; simpl; auto.
  - intros t s Ht Hs Hd. destruct (R t s Ht Hs Hd) as (p & Hp & Hr). destruct (decide (user (info s) = u)) as [<-|Hu].
    + exists (f p). rewrite lookup_alter_eq, Hp. split; [done|]. injection (Hf p) as -> _. done.
    + exists p. by rewrite lookup_alter_ne.
  - intros u0 p r. rewrite lookup_alter_Some. intros [(<- & p' & Hp & ->) | [_ Hp]]; [injection (Hf p') as -> ->|]; by eapply P.
Qed.

(** Muting. *)
Lemma mute_keeps u w s m v w' o :
  RI w -> AI w -> V w v -> mine u w s ->
  (w |> upd (tid_of s) (upd_info (store_muted m)), [])
    >>> (fun w => if listed_flag (info s) then bump (room (info s)) (ETrackState (room (info s)) (tid_of s) m) w else (w, [])) = (w', o) ->
  AI w' /\ V w' (sees o v).
Proof.
  intros HI HA HV Hm E. destruct (mine_facts u w s HI Hm) as (Ht & Hu & _). destruct Hm as [Hc Hs].
  set (w1 := upd (tid_of s) (upd_info (store_muted m)) w) in *.
  assert (AI w1) as HA1.
  { destruct HA as [R P Em]. split; simpl; auto. intros t0 s0 Ht0. unfold w1, upd; simpl. rewrite lookup_alter_Some.
    intros [(<- & s1 & Hs1 & ->) | [_ Hs0]]; [|by eapply R]. intros Hd. exact (R _ s1 Ht0 Hs1 Hd). }
  assert (forall r t, shown w1 r t = if decide (t = tid_of s) then mute_entry m <$> shown w r t else shown w r t) as Sh.
  { intros r t. unfold w1. rewrite (shown_upd w _ _ s) by done. case_decide; [subst t|done]. rewrite (shown_some w _ _ s) by done.
    unfold listed; simpl. by destruct (_ && _). }
  simpl in E. destruct (listed_flag (info s)) eqn:Hl; simplify_eq/=.
  - destruct (bump (room (info s)) (ETrackState (room (info s)) (tid_of s) m) w1) as [w2 o2] eqn:Eb. simplify_eq/=.
    pose proof (ai_bump (room (info s)) (ETrackState (room (info s)) (tid_of s) m) w1 HA1) as HA2. rewrite Eb in HA2. split; [done|].
    intros r t Hr _. pose proof (bump_there (room (info s)) (ETrackState (room (info s)) (tid_of s) m) w1 r) as T. rewrite Eb in T. simpl in T.
    destruct (bump_frame (room (info s)) (ETrackState (room (info s)) (tid_of s) m) w1) as (Fh & Ft & _). rewrite Eb in Fh, Ft. simpl in Fh, Ft.
    rewrite (shown_frame w1) by (by rewrite ?Fh, ?Ft). rewrite Sh. apply T in Hr.
    unfold bump in Eb. change (rooms w1) with (rooms w) in Eb. destruct (rooms w !! room (info s)) as [rm|] eqn:Erm; simplify_eq/=.
    + unfold in_view. destruct (decide (r = room (info s))) as [->|Hne].
      * case_decide; [subst t; rewrite lookup_alter_eq|rewrite lookup_alter_ne by done]; rewrite (HV (room (info s)) _) by (done || tauto); done.
      * rewrite (HV r t) by (done || tauto). case_decide; [subst t|done]. rewrite (shown_some w _ _ s) by done. unfold listed.
        rewrite (proj2 (String.eqb_neq (room (info s)) r)) by done. by rewrite andb_false_r.
    + rewrite (HV r t) by (done || tauto). case_decide; [subst t|done]. rewrite (shown_some w _ _ s) by done. unfold listed.
      rewrite (proj2 (String.eqb_neq (room (info s)) r)); [by rewrite andb_false_r|]. intros <-. unfold there in Hr. simpl in Hr. rewrite Erm in Hr. by destruct Hr.
  - split; [done|]. intros r t Hr _. rewrite Sh, (HV r t) by (done || tauto). case_decide; [subst t|done].
    rewrite (shown_some w _ _ s) by done. unfold listed. by rewrite Hl.
Qed.

(** A request about a track names the room the track is in. *)
Definition found (u : string) (tid : option string) (x : option Z) (w : World) : option PubStream :=
  match tid, x with Some t, _ => ctx_find u t w | None, Some x => by_ssrc u x w | None, None => None end.

Lemma track_set_keeps e u r j tid x mut dup w v :
  RI w -> AI w -> V w v -> (dup <> None -> forall s, found u tid x w = Some s -> room (info s) = r) ->
  let y := track_set e u r j tid x mut dup w in AI y.1.1 /\ V y.1.1 (sees y.1.2 v).
Proof.
  intros HI HA HV Hroom. unfold track_set. destruct (joined_as u r j w) as [[p m]|] eqn:Hj; [|done]. apply joined_as_peer in Hj as (Hp & _).
  destruct (eqb (is_some mut) (is_some dup)) eqn:Hx; [done|]. destruct (negb _); [done|].
  assert (forall o : option PubStream, o = found u tid x w -> let y := (match o with
    | None => (w, [], Bad TrackNotFound)
    | Some s => match mut with
      | Some m => if is_half (info s) then (w, [], Bad TrackOpUnsupported)
        else if eqb (muted (info s)) m then (w, [], Good (mkSetRes (ssrc s) (Some m) None true))
        else let (w, o) := (w |> upd (tid_of s) (upd_info (store_muted m)), [])
             >>> (fun w => if listed_flag (info s) then bump (room (info s)) (ETrackState (room (info s)) (tid_of s) m) w else (w, [])) in
             (w, o, Good (mkSetRes (ssrc s) (Some m) None false))
      | None => match set_duplex_of e u (pub_room p) r (tid_of s) (default Full dup) w with
        | (w, o, Ok noop) => (w, o, Good (mkSetRes (ssrc s) None (Some (default Full dup)) noop))
        | (w, o, Err f) => (w, o, Bad f) end end end) in AI y.1.1 /\ V y.1.1 (sees y.1.2 v)) as D.
  { intros [s|] Hf; [|done].
    assert (mine u w s) as Hm.
    { unfold found in Hf. destruct tid; [by eapply ctx_find_mine|]. destruct x; [by eapply by_ssrc_mine|done]. }
    destruct (mine_facts u w s HI Hm) as (Ht & Hu & Hpu). destruct mut as [b|].
    - destruct (is_half (info s)); [done|]. destruct (eqb (muted (info s)) b); [done|].
      match goal with |- context [let (_, _) := ?z in _] => destruct z as [w' o] eqn:E end. simpl. by eapply mute_keeps.
    - destruct dup as [d|]; [|done]. specialize (Hroom ltac:(done) s (eq_sym Hf)).
      destruct (set_duplex_of _ _ _ _ _ _ _) as [[w' o] y] eqn:E.
      assert (AI w' /\ V w' (sees o v)) as K.
      { eapply duplex_keeps; eauto; [apply Hm| |by rewrite Hu]. intros p' Hp'. congruence. }
      by destruct y. }
  destruct tid, x; try done; by apply D.
Qed.

Lemma resync_spec r w : exists o, resync_room r w = (w, o) /\ silent o.
Proof. unfold resync_room. destruct (rooms w !! r); eexists; (split; [reflexivity|by intros v]). Qed.

(** ** The first packet *)

Lemma announce_keeps tid w v s :
  RI w -> AI w -> Vx (fun t => t = tid) w v -> tid ∈ tracks w -> heap w !! tid = Some s -> listed_flag (info s) = true ->
  (forall r, there w r -> r <> room (info s) -> v r !! tid = None) ->
  let y := announce_add tid w in AI y.1 /\ V y.1 (sees y.2 v).
Proof.
  intros HI HA HV Ht Hs Hl Hn. unfold announce_add. rewrite Hs. cbn zeta. remember (room (info s)) as r eqn:Er.
  destruct (rooms w !! r) as [m|] eqn:Hr.
  - set (f := fun w => if decide (pstate s = Active) then (w, []) else (upd tid (with_pstate Active) w, [EActive tid])).
    pose proof (ai_bump r (ETrackEvent r true [entry (info s)]) w HA) as HA1.
    pose proof (vx_bump _ r (ETrackEvent r true [entry (info s)]) w v HV) as HV1.
    pose proof (bump_frame r (ETrackEvent r true [entry (info s)]) w) as (Fh & Ft & _).
    pose proof (bump_there r (ETrackEvent r true [entry (info s)]) w) as T.
    destruct (track_event_sees r true [entry (info s)] w) as [n Hn']. unfold track_event in *. rewrite Hr in Hn'. cbn [is_some] in Hn'.
    destruct (bump r (ETrackEvent r true [entry (info s)]) w) as [w1 o1]. simpl in HA1, HV1, Fh, Ft, T, Hn'.
    assert (V w1 (sees o1 v)) as HV2.
    { intros r0 t Hr0 _. rewrite Hn'. unfold see, in_view, put_entries. cbn [fold_left].
      assert (e_track_id (entry (info s)) = tid) as -> by (by apply (r_key _ HI)).
      assert (forall r', shown w1 r' tid = if decide (r' = r) then Some (entry (info s)) else None) as Sh.
      { intros r'. rewrite (shown_some w1 r' tid s) by (by rewrite ?Ft, ?Fh). unfold listed. rewrite Hl, <- Er. simpl.
        case_decide; [subst; by rewrite String.eqb_refl|]. by rewrite (proj2 (String.eqb_neq r r')). }
      destruct (decide (t = tid)) as [->|Hne].
      - rewrite Sh. case_decide; [by rewrite lookup_insert_eq|]. apply Hn; [by apply T|done].
      - case_decide; [rewrite lookup_insert_ne by done|]; by apply HV1. }
    assert (AI (f w1).1 /\ V (f w1).1 (sees (f w1).2 (sees o1 v))) as [HA3 HV3].
    { unfold f. case_decide; [done|]. simpl. split; [by apply ai_same|by apply vx_same]. }
    destruct (f w1) as [w2 o2] eqn:Ef. simpl in HA3, HV3 |- *. rewrite Ef. unfold andthen.
    destruct (resync_spec r w2) as (o3 & -> & Ho3). simpl. rewrite !sees_app, Ho3. by split.
  - split; [done|]. intros r0 t Hr0 _. destruct (decide (t = tid)) as [->|Hne]; [|by apply HV].
    simpl. rewrite (shown_some w r0 tid s) by done. unfold listed. rewrite Hl, <- Er. simpl.
    rewrite (proj2 (String.eqb_neq r r0)); [apply Hn; [done|]|]; intros E; destruct Hr0 as [? Hr0]; simpl in Hr0; congruence.
Qed.

(** What [learn] does to what is shown: nothing, or the stream is listed. *)
Lemma learn_cases u rid rrid m x w w' n a :
  RI w -> learn u rid rrid m x w = (w', n, a) ->
  (a = None /\ (forall P v, Vx P w v -> Vx P w' v) /\ (AI w -> AI w')) \/
  exists s s', mine u w s /\ a = Some (tid_of s) /\ listed_flag (info s) = false /\ duplex (info s) = Full /\
    heap w' = <[tid_of s := s']> (heap w) /\ info s' = store_listed true (info s) /\ tracks w' = tracks w /\ rooms w' = rooms w /\
    (forall u, aff_of <$> peers w' !! u = aff_of <$> peers w !! u).
Proof.
  intros HI. unfold learn. destruct (List.find _ (ctx_streams u w)) as [s|] eqn:Hf; [|intros ?; simplify_eq; by left].
  apply find_member in Hf as [Hin Hsim]. apply (ctx_streams_spec u w s HI) in Hin. apply andb_true_iff in Hsim as [Hsim _].
  assert (forall t i k w0, (forall P v, Vx P w0 v -> Vx P (index_add u t i k w0) v) /\ (AI w0 -> AI (index_add u t i k w0))) as Ix.
  { intros t i k w0. split; [done|]. intros. by apply ai_peer. }
  destruct rrid as [rr|].
  - destruct (match spatial rr with Some _ => _ | None => _ end) as [i|]; [|intros ?; simplify_eq; by left].
    intros ?; simplify_eq. left. split; [done|]. destruct (alter _ i (phys s) !! i) as [k|].
    + split; [intros P v HV; by apply vx_same|]. intros HA. by apply Ix, ai_same.
    + split; [intros P v HV; by apply vx_same|]. intros HA. by apply ai_same.
  - destruct (match rid with Some _ => _ | None => _ end) as [sp|]; [|intros ?; simplify_eq; by left].
    destruct (find_rid sp 0 (phys s)) as [i|]; [intros ?; simplify_eq; by left|].
    pose proof (r_sim _ HI _ _ (proj2 Hin) Hsim) as Hfull.
    assert (is_half (info s) = false) as Hh by (unfold is_half; rewrite Hfull; by apply bool_decide_false).
    rewrite Hh, andb_true_r. set (k := mkTrack x None (Some sp)). set (w1 := index_add u (tid_of s) (length (phys s)) k (upd (tid_of s) (with_phys (phys s ++ [k])) w)).
    intros E. assert (heap w1 !! tid_of s = Some (with_phys (phys s ++ [k]) s)) as H1 by (unfold w1, index_add, upd_peer, upd; simpl; by rewrite lookup_alter_eq, (proj2 Hin)).
    destruct (listed_flag (info s)) eqn:Hl; cbn [negb] in E; injection E as <- <- <-.
    + left. split; [done|].
      assert (upd (tid_of s) (upd_info (store_listed true)) w1 = w1) as ->.
      { unfold upd. transitivity (set_heap (heap w1) w1); [|by destruct w1]. f_equal. apply map_eq. intros t. destruct (decide (t = tid_of s)) as [->|Hne]; [|by rewrite lookup_alter_ne].
        rewrite lookup_alter_eq, H1. simpl. f_equal. unfold upd_info, with_phys; simpl. f_equal. destruct (info s); simpl in *. by rewrite Hl. }
      split; [intros P v HV; by apply vx_same|]. intros HA. by apply Ix, ai_same.
    + right. exists s, (upd_info (store_listed true) (with_phys (phys s ++ [k]) s)). split_and!; try done.
      * unfold upd at 1. cbn [heap set_heap]. apply map_eq. intros t. destruct (decide (t = tid_of s)) as [->|Hne].
        -- by rewrite lookup_alter_eq, lookup_insert_eq, H1.
        -- rewrite lookup_alter_ne, lookup_insert_ne by done. unfold w1, index_add, upd_peer, upd; simpl. by rewrite lookup_alter_ne.
      * intros u0. unfold w1, index_add, upd_peer, upd; simpl. destruct (decide (u0 = u)) as [->|Hu]; [|by rewrite lookup_alter_ne].
        rewrite lookup_alter_eq. by destruct (peers w !! u).
Qed.

Lemma ai_frame w w' :
  AI w -> (forall t, t ∈ tracks w' -> t ∈ tracks w) -> heap w' = heap w -> (forall r, there w' r <-> there w r) ->
  (forall u, aff_of <$> peers w' !! u = aff_of <$> peers w !! u) -> AI w'.
Proof.
  intros [R P E] Ht Hh Hr Hp. unfold there in Hr. split.
  - intros t s Hts. rewrite Hh. intros Hs Hd. destruct (R t s (Ht _ Hts) Hs Hd) as (p & Hp0 & Hr0). specialize (Hp (user (info s))). rewrite Hp0 in Hp.
    destruct (peers w' !! _) as [p'|]; [|done]. injection Hp as Ea _. exists p'. split; [done|congruence].
  - intros u p r Hp0 Hr0. specialize (Hp u). rewrite Hp0 in Hp. destruct (peers w !! u) as [p'|] eqn:E'; [|done]. injection Hp as Ea Eb.
    destruct (P u p' r E') as [? ?]; [congruence|]. split; [by apply Hr|by rewrite Eb].
  - apply eq_None_not_Some. intros H. apply Hr in H. rewrite E in H. by destruct H.
Qed.

Lemma first_keeps u rid rrid m x w v :
  RI w -> AI w -> V w v -> let y := op (OFirst u rid rrid m x) w in AI y.1 /\ V y.1 (sees y.2 v).
Proof.
  intros HI HA HV. cbn [op]. pose proof (ri_learn u rid rrid m x w HI) as HI1.
  destruct (learn u rid rrid m x w) as [[w1 n] a] eqn:E. simpl in HI1.
  apply (learn_cases _ _ _ _ _ _ _ _ _ HI) in E as [(-> & HV1 & HA1) | (s & s' & Hm & -> & Hl & Hf & Hh & Hi & Ht & Hr & Hp)]; [split; [by apply HA1|by apply HV1]|].
  destruct (mine_facts u w s HI Hm) as (Hts & Hu & _). destruct Hm as [Hc Hs].
  apply (announce_keeps (tid_of s) w1 v s'); try done.
  - assert (AI (set_heap (heap w) w1)) as HA0 by (apply (ai_frame w); [done|simpl; by rewrite Ht|done|intros r; unfold there; simpl; by rewrite Hr|done]).
    destruct HA0 as [R P Em]. split; [|done|done].
    intros t0 s0 Ht0. rewrite Hh, lookup_insert_Some. intros [[<- <-] | [Hne Hs0]] Hd; [|by apply (R t0 s0)].
    rewrite Hi; simpl. by apply (R (tid_of s) s); [|done|left].
  - intros r t Hrt Hne. rewrite (shown_frame w); [apply HV; [unfold there in *; by rewrite <- Hr|tauto]|by rewrite Hh, lookup_insert_ne|by rewrite Ht].
  - by rewrite Ht.
  - by rewrite Hh, lookup_insert_eq.
  - by rewrite Hi.
  - intros r Hrt _. rewrite (HV r) by (unfold there in *; rewrite ?Hr in *; tauto). rewrite (shown_some w _ _ s) by done. unfold listed. by rewrite Hl.
Qed.

(** ** Taking away *)

Lemma rooms_drop e u t w : rooms (drop_stream e u t w).1 = rooms w.
Proof. destruct (drop_stream_spec e u t w) as (o & -> & _). simpl. by destruct (_ && _). Qed.

Lemma tracks_drop e u t w : RI w -> t ∈ cset u w -> tracks (drop_stream e u t w).1 = tracks w ∖ {[t]}.
Proof.
  intros H Hc. destruct (drop_stream_spec e u t w) as (o & -> & _). simpl.
  pose proof (r_peer _ H _ _ Hc) as [p ->]. apply (r_ctx _ H) in Hc as [_ (s & -> & _)]. done.
Qed.

Lemma aff_drop e u t w u0 : aff_of <$> peers (drop_stream e u t w).1 !! u0 = aff_of <$> peers w !! u0.
Proof.
  destruct (drop_stream_spec e u t w) as (o & -> & _). simpl. destruct (_ && _); [|done]. unfold dropped, index_remove, upd_peer; simpl.
  destruct (decide (u0 = u)) as [->|Hu]; [|by rewrite lookup_alter_ne]. rewrite lookup_alter_eq. by destruct (peers w !! u).
Qed.

(** A stream that is taken from the lists and dropped: what is still to be told is its end. *)
Lemma unlist_drop_spec e u t s P w v o0 :
  RI w -> Vx P w v -> mine u w s -> tid_of s = t ->
  let y := (w, o0) >>> (fun w => (w |> upd t (upd_info (store_listed false)), [])) >>> drop_stream e u t in
  RI y.1 /\ Vx (fun t0 => P t0 \/ t0 = t) y.1 v /\ (exists o, y.2 = o0 ++ o /\ silent o) /\
  heap y.1 = alter (upd_info (store_listed false)) t (heap w) /\ tracks y.1 = tracks w ∖ {[t]} /\
  (forall r, there y.1 r <-> there w r) /\ (forall u0, aff_of <$> peers y.1 !! u0 = aff_of <$> peers w !! u0).
Proof.
  intros HI HV Hm Et. destruct (mine_facts u w s HI Hm) as (Hts & Hu & _). destruct Hm as [Hc Hs]. rewrite Et in *.
  simpl. set (w1 := upd t (upd_info (store_listed false)) w).
  assert (RI w1) as HI1 by (apply ri_upd; [done|intros; apply gentle_listed]).
  pose proof (ri_drop e u t w1 HI1 (ctx_owns u w1 t HI1 Hc)) as HI2.
  destruct (drop_stream_spec e u t w1) as (o & E & Ho). pose proof (tracks_drop e u t w1 HI1 Hc) as Tr. pose proof (heap_drop e u t w1) as Hh.
  pose proof (rooms_drop e u t w1) as Rr. pose proof (aff_drop e u t w1) as Pr.
  destruct (drop_stream e u t w1) as [w2 o2]. simpl in *. injection E as _ <-. split_and!; auto.
  - intros r t0 Hr Hn. rewrite (shown_frame w); [apply HV; [unfold there in *; by rewrite Rr in Hr|tauto]| |].
    + rewrite Hh. unfold w1, upd; simpl. rewrite lookup_alter_ne by naive_solver. done.
    + rewrite Tr. unfold w1; simpl. set_solver.
  - exists o2. by rewrite app_nil_r.
  - intros r. unfold there. by rewrite Rr.
Qed.

Lemma ai_unlist_drop w w' t :
  AI w -> heap w' = alter (upd_info (store_listed false)) t (heap w) -> (forall t0, t0 ∈ tracks w' -> t0 ∈ tracks w) -> (forall r, there w' r <-> there w r) ->
  (forall u, aff_of <$> peers w' !! u = aff_of <$> peers w !! u) -> AI w'.
Proof.
  intros HA Hh Ht Hr Hp. apply (ai_frame (upd t (upd_info (store_listed false)) w)); [|done..].
  destruct HA as [R P0 Em]. split; simpl; auto. intros t0 s0 Ht0. unfold upd; simpl. rewrite lookup_alter_Some.
  intros [(<- & s1 & Hs1 & ->) | [_ Hs0]]; [|by eapply R]. simpl. intros [Hd|Hd]; [|done]. apply (R t s1); auto.
Qed.

(** An event that takes tracks away. *)
Lemma remove_event r l w v :
  let y := track_event r false l w >>> resync_room r in
  heap y.1 = heap w /\ tracks y.1 = tracks w /\ peers y.1 = peers w /\ ctxs y.1 = ctxs w /\ (forall r0, there y.1 r0 <-> there w r0) /\
  (forall r0 t, there w r0 -> sees y.2 v r0 !! t = if bool_decide (r0 = r) && bool_decide (t ∈ map e_track_id l) then None else v r0 !! t).
Proof.
  simpl. pose proof (bump_frame r (ETrackEvent r false l) w) as (Fh & Ft & Fc & Fp). pose proof (bump_there r (ETrackEvent r false l) w) as T.
  destruct (track_event_sees r false l w) as [n Hn]. unfold track_event in *.
  destruct (bump r (ETrackEvent r false l) w) as [w1 o1]. simpl in *. destruct (resync_spec r w1) as (o2 & -> & Ho2). simpl. split_and!; auto.
  intros r0 t Hr0. rewrite sees_app, Ho2, Hn. case_bool_decide as E; simpl.
  - subst r0. unfold there in Hr0. destruct (rooms w !! r); [|by destruct Hr0]. simpl. unfold in_view. rewrite decide_True by done. apply del_entries_lookup.
  - destruct (is_some _); [|done]. simpl. unfold in_view. by rewrite decide_False.
Qed.

Lemma announce_removed_spec m w v :
  let y := announce_removed m w in
  heap y.1 = heap w /\ tracks y.1 = tracks w /\ peers y.1 = peers w /\ (forall r0, there y.1 r0 <-> there w r0) /\
  (forall r t, there w r -> sees y.2 v r !! t = if bool_decide (t ∈ map e_track_id (default [] (m !! r))) then None else v r !! t).
Proof.
  unfold announce_removed.
  assert (forall l x, let y := fold_left (fun x r => x >>> (fun w => match rooms w !! r with
      | Some _ => track_event r false (default [] (m !! r)) w >>> resync_room r | None => (w, []) end)) l x in
    heap y.1 = heap x.1 /\ tracks y.1 = tracks x.1 /\ peers y.1 = peers x.1 /\ (forall r0, there y.1 r0 <-> there x.1 r0) /\
    (forall r t, there x.1 r -> sees y.2 v r !! t = if bool_decide (r ∈ l) && bool_decide (t ∈ map e_track_id (default [] (m !! r))) then None else sees x.2 v r !! t)) as F.
  { intros l. induction l as [|r l IH]; intros [w0 o0]; simpl; [by split_and!|].
    destruct (rooms w0 !! r) as [rm|] eqn:Er.
    - destruct (remove_event r (default [] (m !! r)) w0 (sees o0 v)) as (Eh & Et & Ep & _ & Eth & Es). simpl in Eh, Et, Ep, Eth, Es.
      destruct (track_event r false (default [] (m !! r)) w0) as [w1 o1]. simpl in *. destruct (resync_room r w1) as [w2 o2]. simpl in *.
      destruct (IH (w2, o0 ++ (o1 ++ o2))) as (Gh & Gt & Gp & Gth & Gs). simpl in *. split_and!; [congruence..| |].
      + intros r0. by rewrite Gth.
      + intros r0 t Hr0. rewrite Gs by (by apply Eth). rewrite sees_app, Es by done.
        destruct (decide (r0 = r)) as [->|Hne].
        * rewrite (bool_decide_true (r ∈ r :: l)) by set_solver. rewrite (bool_decide_true (r = r)) by done. simpl.
          destruct (bool_decide (t ∈ _)); [by destruct (bool_decide (r ∈ l))|by rewrite andb_false_r].
        * rewrite (bool_decide_false (r0 = r)) by done. simpl. by rewrite (bool_decide_ext (r0 ∈ r :: l) (r0 ∈ l)) by set_solver.
    - rewrite app_nil_r. destruct (IH (w0, o0)) as (Gh & Gt & Gp & Gth & Gs). simpl in *. split_and!; auto.
      intros r0 t Hr0. rewrite Gs by done. destruct (decide (r0 = r)) as [->|Hne]; [by unfold there in Hr0; rewrite Er in Hr0; destruct Hr0|].
      by rewrite (bool_decide_ext (r0 ∈ r :: l) (r0 ∈ l)) by set_solver. }
  destruct (F (sorted_keys m) (w, [])) as (Gh & Gt & Gp & Gth & Gs). simpl in *. split_and!; auto.
  intros r t Hr. rewrite Gs by done. destruct (m !! r) as [l|] eqn:Em; [|simpl; by rewrite andb_false_r].
  rewrite (bool_decide_true (r ∈ sorted_keys m)); [done|]. unfold sorted_keys. rewrite elem_sorted. apply list_elem_of_fmap.
  exists (r, l). split; [done|]. by apply elem_of_map_to_list.
Qed.

(** What holds in the loop of unpublishing, for the tracks [P] that were taken so far. *)
Record Taking (u : string) (rest : list string) (P : string -> Prop) (w : World) (v : View) (m : gmap string (list TrackEntry)) : Prop := {
  k_ri : RI w; k_ai : AI w; k_vx : Vx P w v;
  k_gone : forall t, P t -> t ∉ tracks w;
  k_told : forall r t, there w r -> P t -> v r !! t = None \/ t ∈ map e_track_id (default [] (m !! r));
  k_only : forall r t, t ∈ map e_track_id (default [] (m !! r)) -> P t;
  k_off : forall t s, P t -> heap w !! t = Some s -> listed_flag (info s) = false;
  k_rest : forall t, t ∈ rest -> P t \/ exists s, mine u w s /\ tid_of s = t }.

Lemma mine_of u w s : RI w -> tid_of s ∈ tracks w -> heap w !! tid_of s = Some s -> user (info s) = u -> mine u w s.
Proof. intros H Ht Hs Hu. split; [|done]. apply (r_ctx _ H). eauto. Qed.

(** A track that is named twice: it is gone, and nothing happens to it. *)
Lemma alter_same {K A} `{Countable K} (f : A -> A) (k : K) (m : gmap K A) : (forall x, m !! k = Some x -> f x = x) -> alter f k m = m.
Proof.
  intros Hf. apply map_eq. intros i. destruct (decide (i = k)) as [->|]; [|by rewrite lookup_alter_ne]. rewrite lookup_alter_eq. destruct (m !! k) as [x|]; [|done]. simpl. by rewrite Hf.
Qed.

Lemma dropped_again u t w : RI w -> t ∉ tracks w -> dropped u t w = w.
Proof.
  intros HI Ht. assert (forall u, t ∉ cset u w) as Hc by (intros u0 H; apply (r_ctx _ HI) in H as [? _]; done).
  unfold dropped, index_remove, upd_peer. simpl. rewrite !alter_same.
  - assert (tracks w ∖ {[t]} = tracks w) as -> by set_solver. by destruct w.
  - intros c Hx. specialize (Hc u). unfold cset in Hc. rewrite Hx in Hc. simpl in Hc. set_solver.
  - intros p Hp. destruct p as [one j pr ig x]. unfold with_ingress. simpl. f_equal. apply map_filter_id. intros i [t0 n] Hi Et. simpl in Et. subst t0.
    destruct (r_index _ HI u _ i t n Hp Hi) as [H _]. by apply (Hc u).
Qed.

Lemma taking_again e u t rest P w v m o : Taking u (t :: rest) P w v m -> P t -> exists o', unpublish_one e u t (w, o, m) = (w, o ++ o', m) /\ silent o'.
Proof.
  intros [HI HA HV HG HT HO HF HR] Ht. unfold unpublish_one. destruct (heap w !! t) as [s|] eqn:Hs; [|exists []; by rewrite app_nil_r].
  pose proof (HF t s Ht Hs) as Hl. rewrite Hl. simpl. pose proof (release_world e u (room (info s)) w) as Ew.
  assert (exists o1, (if is_half (info s) then release_floor_if_speaker e u (room (info s)) w else (w, [])) = (w, o1) /\ silent o1) as (o1 & -> & Ho1).
  { destruct (is_half (info s)); [|by exists []]. unfold release_floor_if_speaker in *. destruct (rooms w !! _); [destruct (bool_decide _)|]; eexists; (split; [reflexivity|by intros v0]). }
  assert (upd t (upd_info (store_listed false)) w = w) as Hu.
  { unfold upd. rewrite alter_same; [by destruct w|]. intros x Hx. rewrite Hs in Hx. injection Hx as <-. destruct s as [[] ? ? ? ? ? ? ?]. simpl in Hl. by subst. }
  simpl. rewrite Hu. destruct (drop_stream_spec e u t w) as (o2 & E & Ho2).
  assert ((drop_stream e u t w).1 = w) as Hd. { rewrite E. simpl. destruct (_ && _); [|done]. by apply dropped_again, HG. }
  destruct (drop_stream e u t w) as [w' o']. simpl in *. subst w'. injection E as E ->. exists (o1 ++ o2). split; [|by apply silent_app]. by rewrite app_nil_r, (assoc_L _).
Qed.

Lemma taking_step e u t rest P w v m o :
  Taking u (t :: rest) P w v m -> ~ P t ->
  let y := unpublish_one e u t (w, o, m) in
  Taking u rest (fun t0 => P t0 \/ t0 = t) y.1.1 v y.2 /\ exists o', y.1.2 = o ++ o' /\ silent o'.
Proof.
  intros [HI HA HV HG HT HO HF HR] Hnt. destruct (HR t) as [?|(s & Hm & Et)]; [by left|done|].
  pose proof Hm as [Hc Hs]. rewrite Et in Hc, Hs. destruct (mine_facts u w s HI Hm) as (Hts & Hu & _). rewrite Et in Hts.
  unfold unpublish_one. rewrite Hs.
  assert (exists o1, (w, o) >>> (fun w => if is_half (info s) then release_floor_if_speaker e u (room (info s)) w else (w, [])) = (w, o ++ o1) /\ silent o1) as (o1 & -> & Ho1).
  { simpl. destruct (is_half (info s)); [|by exists []]. pose proof (release_world e u (room (info s)) w) as Ew. unfold release_floor_if_speaker in *.
    destruct (rooms w !! _); [destruct (bool_decide _)|]; eexists; (split; [reflexivity|by intros v0]). }
  destruct (unlist_drop_spec e u t s P w v (o ++ o1) HI HV Hm Et) as (HI' & HV' & (o2 & Eo & Ho2) & Eh & Etr & Th & Af).
  destruct ((w, o ++ o1) >>> _ >>> _) as [w' o']. simpl in *. subst o'. split; [|exists (o1 ++ o2); split; [by rewrite (assoc_L _)|by apply silent_app]].
  assert (AI w') as HA' by (eapply ai_unlist_drop; eauto; rewrite Etr; set_solver).
  assert (t ∉ tracks w') as Hn' by (rewrite Etr; set_solver).
  assert (forall t0, t0 <> t -> heap w' !! t0 = heap w !! t0 /\ (t0 ∈ tracks w' <-> t0 ∈ tracks w)) as Fr.
  { intros t0 Hne. split; [by rewrite Eh, lookup_alter_ne|]. rewrite Etr. set_solver. }
  assert (forall r, there w r -> v r !! t = if listed (info s) r then Some (entry (info s)) else None) as Vt.
  { intros r Hr. rewrite (HV r t Hr) by (intros Hp; by apply (HG t Hp)). by apply shown_some. }
  set (m' := if listed_flag (info s) && negb (String.eqb (room (info s)) "") then add_removed (room (info s)) (entry (info s)) m else m).
  assert (forall r, map e_track_id (default [] (m' !! r)) = map e_track_id (default [] (m !! r)) ++
    (if bool_decide (r = room (info s)) && (listed_flag (info s) && negb (String.eqb (room (info s)) "")) then [t] else [])) as Em.
  { intros r. unfold m', add_removed. destruct (listed_flag (info s) && _); [|by rewrite andb_false_r, app_nil_r].
    rewrite andb_true_r. case_bool_decide as Er; [subst r|by rewrite lookup_insert_ne, app_nil_r].
    rewrite lookup_insert_eq. simpl. rewrite map_app. simpl. f_equal. f_equal. exact Et. }
  split; auto.
  - intros t0 [Hp | ->]; [|done]. specialize (HG t0 Hp). destruct (decide (t0 = t)) as [->|Hne]; [done|]. by rewrite (proj2 (Fr t0 Hne)).
  - intros r t0 Hr Hp. apply Th in Hr. rewrite Em, elem_of_app. destruct (decide (t0 = t)) as [->|Hne].
    + rewrite (Vt r Hr). unfold listed. destruct (listed_flag (info s)); [|by left]. simpl.
      destruct (String.eqb_spec (room (info s)) r) as [->|Hne]; [|by left]. right. right.
      rewrite bool_decide_true by done. destruct (String.eqb_spec r "") as [->|]; [|by left].
      unfold there in Hr. rewrite (a_empty _ HA) in Hr. by destruct Hr.
    + destruct Hp as [Hp|?]; [|done]. destruct (HT r t0 Hr Hp); tauto.
  - intros r t0. rewrite Em, elem_of_app. intros [H|H]; [left; by eapply HO|]. right.
    destruct (bool_decide (r = room (info s)) && _); [by apply list_elem_of_singleton in H|by apply not_elem_of_nil in H].
  - intros t0 s0 [Hp | ->]; rewrite Eh; [|rewrite lookup_alter_eq, Hs; simpl; by intros [= <-]].
    destruct (decide (t0 = t)) as [->|Hne]; [rewrite lookup_alter_eq, Hs; simpl; by intros [= <-]|rewrite lookup_alter_ne by done; by apply HF].
  - intros t0 Ht0. destruct (decide (t0 = t)) as [->|Hne]; [by left; right|]. destruct (HR t0) as [?|(s0 & Hm0 & Et0)]; [by right|by left; left|]. right.
    destruct (mine_facts u w s0 HI Hm0) as (Ht0' & Hu0 & _). destruct Hm0 as [_ Hs0]. rewrite Et0 in *. exists s0. split; [|done].
    destruct (Fr t0 Hne) as [Fh Ft]. apply mine_of; rewrite ?Et0; auto; [by apply Ft|congruence].
Qed.

Lemma taking_fold e u ids : forall P w v m o,
  (forall t, P t \/ ~ P t) -> Taking u ids P w v m ->
  let y := fold_left (fun y t => unpublish_one e u t y) ids (w, o, m) in
  Taking u [] (fun t => P t \/ t ∈ ids) y.1.1 v y.2 /\ exists o', y.1.2 = o ++ o' /\ silent o'.
Proof.
  induction ids as [|t ids IH]; intros P w v m o HP HT.
  - simpl. split; [|exists []; by rewrite app_nil_r]. destruct HT as [HI HA HV HG HT HO HF HR]. split; auto.
    + eapply vx_weaken; [|exact HV]. tauto.
    + intros t [Hp|Ht]; [by apply HG|set_solver].
    + intros r t Hr [Hp|Ht]; [by apply HT|set_solver].
    + intros r t Ht. left. by eapply HO.
    + intros t s [Hp|Ht]; [by apply HF|set_solver].
  - cbn [fold_left]. assert (exists o1, let y := unpublish_one e u t (w, o, m) in Taking u ids (fun t0 => P t0 \/ t0 = t) y.1.1 v y.2 /\ y.1.2 = o ++ o1 /\ silent o1) as (o1 & HT1 & Eo1 & Ho1).
    { destruct (HP t) as [Hp|Hp].
      - destruct (taking_again e u t ids P w v m o HT Hp) as (o1 & Ey & Ho1). rewrite Ey. exists o1. simpl. split; [|done].
        assert (forall t0, P t0 \/ t0 = t <-> P t0) as Eq by (intros t0; split; [intros [Hx|Hx]; [done|by subst t0]|tauto]). destruct HT as [HI HA HV HG HT HO HF HR].
        split; auto; [eapply vx_weaken; [|exact HV]; intros; tauto|..]; setoid_rewrite Eq; auto. intros t0 Ht0. apply HR. by right.
      - destruct (taking_step e u t ids P w v m o HT Hp) as (HT1 & o1 & Eo1 & Ho1). by exists o1. }
    destruct (unpublish_one e u t (w, o, m)) as [[w1 o1'] m1]. simpl in HT1, Eo1. subst o1'.
    destruct (IH (fun t0 => P t0 \/ t0 = t) w1 v m1 (o ++ o1) ltac:(intros t0; destruct (HP t0), (decide (t0 = t)); tauto) HT1) as (HT2 & o2 & Eo2 & Ho2). split.
    + destruct HT2 as [HI HA HV HG HT' HO HF HR].
      assert (forall t0, ((P t0 \/ t0 = t) \/ t0 ∈ ids) <-> (P t0 \/ t0 ∈ t :: ids)) as Eq by (intros; rewrite elem_of_cons; tauto).
      split; auto; [eapply vx_weaken; [|exact HV]; intros; by apply Eq|..]; setoid_rewrite <- Eq; auto.
    + exists (o1 ++ o2). rewrite Eo2. split; [by rewrite (assoc_L _)|by apply silent_app].
Qed.

Lemma unpublish_keeps e u r j ids w v :
  RI w -> AI w -> V w v -> let y := unpublish e u r j ids w in AI y.1.1 /\ V y.1.1 (sees y.1.2 v).
Proof.
  intros HI HA HV. unfold unpublish. destruct (match joined_as u r j w with Ok _ => _ | Err _ => _ end); [|done].
  destruct (negb _); [done|]. destruct (forallb _ ids) eqn:Hall; [|done].
  assert (Taking u ids (fun _ => False) w v ∅) as HT.
  { split; try done.
    - intros r0 t. rewrite lookup_empty. set_solver.
    - intros t Ht. rewrite forallb_forall in Hall. specialize (Hall t ltac:(by apply list_elem_of_In)).
      destruct (ctx_find u t w) as [s|] eqn:Hf; [|done]. right. exists s. split; [by eapply ctx_find_mine|].
      unfold ctx_find in Hf. destruct (ctxs w !! u); [|done]. case_bool_decide; [|done]. by apply (r_key _ HI). }
  destruct (taking_fold e u ids (fun _ => False) w v ∅ [] ltac:(tauto) HT) as (HT1 & o1 & Eo1 & Ho1).
  destruct (fold_left _ ids (w, [], ∅)) as [[w1 o1'] m]. simpl in HT1, Eo1. subst o1'.
  destruct HT1 as [HI1 HA1 HV1 HG HT' HO _ _].
  destruct (announce_removed_spec m w1 v) as (Eh & Et & Ep & Eth & Es). simpl. destruct (announce_removed m w1) as [w2 o2]. simpl in *.
  split; [apply (ai_frame w1); [done|by rewrite Et|done|done|by rewrite Ep]|].
  intros r0 t Hr0 _. apply Eth in Hr0. rewrite sees_app, Ho1, Es by done. rewrite (shown_frame w1) by (by rewrite ?Eh, ?Et).
  case_bool_decide as Hin.
  - symmetry. apply shown_none, HG. by eapply HO.
  - destruct (decide (t ∈ ids)) as [Hd|Hd]; [|apply HV1; [done|tauto]].
    destruct (HT' r0 t Hr0) as [H|H]; [tauto|rewrite H; symmetry; apply shown_none, HG; tauto|done].
Qed.

(** ** Moving *)

Lemma del_entries_omap g l m t : names g ->
  del_entries (omap g l) m !! t = match (if bool_decide (t ∈ l) then g t else None) with Some _ => None | None => m !! t end.
Proof.
  intros Hg. rewrite del_entries_lookup. destruct (if bool_decide (t ∈ l) then g t else None) as [x|] eqn:E.
  - rewrite bool_decide_true; [done|]. case_bool_decide; [|done]. apply list_elem_of_fmap. exists x. split; [by rewrite (Hg t x E)|].
    apply list_elem_of_omap. eauto.
  - rewrite bool_decide_false; [done|]. intros Hin. apply list_elem_of_fmap in Hin as (x & -> & Hx). apply list_elem_of_omap in Hx as (t0 & Ht0 & Hx).
    rewrite (Hg t0 x Hx) in E. by rewrite bool_decide_true, Hx in E.
Qed.

Lemma some_event_spec r b l w v :
  let y := some_event r b l w in
  heap y.1 = heap w /\ tracks y.1 = tracks w /\ peers y.1 = peers w /\ ctxs y.1 = ctxs w /\ (forall r0, there y.1 r0 <-> there w r0) /\
  (forall r0 t, there w r0 -> sees y.2 v r0 !! t = if decide (r0 = r) then (if b then put_entries l else del_entries l) (v r0) !! t else v r0 !! t).
Proof.
  unfold some_event. destruct l as [|x l]; [simpl; split_and!; try done; intros; case_decide; by destruct b|].
  destruct (rooms w !! r) as [rm|] eqn:Er; [|simpl; split_and!; try done; intros r0 t Hr0; case_decide; [subst; unfold there in Hr0; rewrite Er in Hr0; by destruct Hr0|done]].
  simpl. pose proof (bump_frame r (ETrackEvent r b (x :: l)) w) as (Fh & Ft & Fc & Fp). pose proof (bump_there r (ETrackEvent r b (x :: l)) w) as T.
  destruct (track_event_sees r b (x :: l) w) as [n Hn]. rewrite Er in Hn. unfold track_event in *.
  destruct (bump r (ETrackEvent r b (x :: l)) w) as [w1 o1]. simpl in *. destruct (resync_spec r w1) as (o2 & -> & Ho2). simpl. split_and!; auto.
  intros r0 t Hr0. rewrite sees_app, Ho2, Hn. destruct b; simpl; unfold in_view; by case_decide.
Qed.

Definition taken (w : World) (t : string) : option TrackEntry :=
  match heap w !! t with Some s => if listed_flag (info s) && negb (String.eqb (room (info s)) "") then Some (entry (info s)) else None | None => None end.
Definition brought (to : option string) (w : World) (t : string) : option TrackEntry :=
  match heap w !! t with Some s => if listed_flag (info s) && is_some to then Some (entry (store_room (default "" to) (info s))) else None | None => None end.

Lemma move_fold to l : forall w f n, NoDup l ->
  let y := fold_left (fun y t => move_one to t y) l (w, f, n) in
  tracks y.1.1 = tracks w /\ peers y.1.1 = peers w /\ rooms y.1.1 = rooms w /\ ctxs y.1.1 = ctxs w /\
  (forall t, heap y.1.1 !! t = if bool_decide (t ∈ l) then upd_info (store_room (default "" to)) <$> heap w !! t else heap w !! t) /\
  y.1.2 = f ++ omap (taken w) l /\ y.2 = n ++ omap (brought to w) l.
Proof.
  induction l as [|t l IH]; intros w f n Hn; [simpl; split_and!; try done; by rewrite app_nil_r|].
  apply NoDup_cons in Hn as [Ht Hn]. cbn [fold_left].
  destruct (heap w !! t) as [s|] eqn:Hs.
  - set (w1 := upd t (upd_info (store_room (default "" to))) w).
    assert (exists f1 n1, move_one to t (w, f, n) = (w1, f ++ f1, n ++ n1) /\ (f1 = omap (taken w) [t]) /\ (n1 = omap (brought to w) [t])) as (f1 & n1 & -> & Hf1 & Hn1).
    { unfold move_one. rewrite Hs. exists (omap (taken w) [t]), (omap (brought to w) [t]). split; [|done]. simpl. unfold taken, brought. rewrite Hs.
      assert (upd t (upd_info (fun _ => store_room (default "" to) (info s))) w = w1) as ->.
      { unfold w1, upd. f_equal. apply map_eq. intros t0. destruct (decide (t0 = t)) as [->|Hne]; [|by rewrite !lookup_alter_ne]. by rewrite !lookup_alter_eq, Hs. }
      f_equal; [f_equal|]; case_match; simpl; by rewrite ?app_nil_r. }
    destruct (IH w1 (f ++ f1) (n ++ n1) Hn) as (E1 & E2 & E3 & E4 & E5 & E6 & E7). split_and!; auto.
    + intros t0. rewrite E5. unfold w1, upd; simpl. destruct (decide (t0 = t)) as [->|Hne].
      * rewrite bool_decide_false by done. rewrite (bool_decide_true (t ∈ t :: l)) by set_solver. by rewrite lookup_alter_eq.
      * rewrite lookup_alter_ne by done. by rewrite (bool_decide_ext (t0 ∈ t :: l) (t0 ∈ l)) by set_solver.
    + rewrite E6, Hf1, <- (assoc_L _). f_equal. change (t :: l) with ([t] ++ l). rewrite omap_app. f_equal.
      apply list_omap_ext. apply Forall_Forall2_diag, Forall_forall. intros t0 Ht0. unfold taken, w1, upd; simpl. rewrite lookup_alter_ne; [done|]. set_solver.
    + rewrite E7, Hn1, <- (assoc_L _). f_equal. change (t :: l) with ([t] ++ l). rewrite omap_app. f_equal.
      apply list_omap_ext. apply Forall_Forall2_diag, Forall_forall. intros t0 Ht0. unfold brought, w1, upd; simpl. rewrite lookup_alter_ne; [done|]. set_solver.
  - assert (move_one to t (w, f, n) = (w, f, n)) as -> by (unfold move_one; by rewrite Hs).
    destruct (IH w f n Hn) as (E1 & E2 & E3 & E4 & E5 & E6 & E7). split_and!; auto.
    + intros t0. rewrite E5. destruct (decide (t0 = t)) as [->|Hne].
      * rewrite bool_decide_false by done. by rewrite (bool_decide_true (t ∈ t :: l)), Hs by set_solver.
      * by rewrite (bool_decide_ext (t0 ∈ t :: l) (t0 ∈ l)) by set_solver.
    + rewrite E6. simpl. unfold taken at 2. by rewrite Hs.
    + rewrite E7. simpl. unfold brought at 2. by rewrite Hs.
Qed.

Lemma names_taken w : RI w -> names (taken w).
Proof. intros H t x. unfold taken. destruct (heap w !! t) as [s|] eqn:E; [|done]. case_match; [|done]. intros ?; simplify_eq. by apply (r_key _ H). Qed.
Lemma names_brought to w : RI w -> names (brought to w).
Proof. intros H t x. unfold brought. destruct (heap w !! t) as [s|] eqn:E; [|done]. case_match; [|done]. intros ?; simplify_eq. by apply (r_key _ H). Qed.

(** The streams [l] of [u] after the moving: told of what is shown. *)
Lemma moved_shown to (l : list string) w w' r t :
  tracks w' = tracks w -> (forall t, heap w' !! t = if bool_decide (t ∈ l) then upd_info (store_room (default "" to)) <$> heap w !! t else heap w !! t) ->
  (forall t, t ∈ l -> t ∈ tracks w /\ is_Some (heap w !! t)) -> r <> "" ->
  shown w' r t = if bool_decide (t ∈ l) then (if decide (to = Some r) then brought to w t else None) else shown w r t.
Proof.
  intros Ht Hh Hl Hr. case_bool_decide as Hin.
  - destruct (Hl t Hin) as [Htr [s Hs]]. rewrite (shown_some w' r t (upd_info (store_room (default "" to)) s)); [|by rewrite Ht|by rewrite Hh, bool_decide_true, Hs].
    unfold brought. rewrite Hs. unfold listed; simpl. destruct (listed_flag (info s)); simpl; [|by case_decide].
    destruct to as [r'|]; simpl; [|by destruct r]. destruct (String.eqb_spec r' r) as [->|Hne]; [by rewrite decide_True|]. rewrite decide_False; [done|congruence].
  - apply shown_frame; [by rewrite Hh, bool_decide_false|by rewrite Ht].
Qed.

(** What the members see before: the listed streams of a user are where the user publishes. *)
Lemma before_shown u w p r t :
  RI w -> AI w -> peers w !! u = Some p -> t ∈ cset u w -> there w r ->
  shown w r t = if decide (pub_room p = Some r) then taken w t else None.
Proof.
  intros HI HA Hp Hc Hr. pose proof Hc as Hc'. apply (r_ctx _ HI) in Hc' as [Ht (s & Hs & Hu)].
  assert (r <> "") as Hne by (intros ->; destruct Hr as [? Hr]; by rewrite (a_empty _ HA) in Hr).
  rewrite (shown_some w r t s) by done. unfold taken. rewrite Hs. unfold listed. destruct (listed_flag (info s)) eqn:Hl; simpl; [|by case_decide].
  destruct (a_room _ HA t s Ht Hs (or_intror Hl)) as (p' & Hp' & Hrm). rewrite Hu, Hp in Hp'. injection Hp' as <-. rewrite Hrm.
  destruct (pub_room p) as [r'|] eqn:Epr; simpl; [|by destruct r].
  destruct (String.eqb_spec r' r) as [->|Hn]; [|rewrite decide_False; [done|congruence]].
  rewrite decide_True by done. by rewrite (proj2 (String.eqb_neq r "")).
Qed.

Lemma move_keeps u to token w v :
  RI w -> AI w -> V w v -> (forall r, to = Some r -> there w r /\ exists p, peers w !! u = Some p /\ is_Some (joined_rooms p !! r)) ->
  let y := move_pub u to token w in AI y.1.1 /\ V y.1.1 (sees y.1.2 v).
Proof.
  intros HI HA HV Hto. unfold move_pub. destruct (peers w !! u) as [p|] eqn:Hp; [|done].
  destruct (match to with Some _ => _ | None => _ end) as [[]| |] eqn:Hck; try done.
  assert (to <> None -> pub_room p <> to) as Hdiff.
  { intros Hn E. destruct to as [r|]; [|done]. rewrite bool_decide_true in Hck by done. done. }
  clear Hck. rewrite (ctx_tids u w HI). set (l := ctx_ids u w). set (w1 := upd_peer u (with_pub_room to) w).
  assert (NoDup l) as Hnd by (unfold l, ctx_ids; apply nodup_sorted, NoDup_elements).
  destruct (move_fold to l w1 [] [] Hnd) as (E1 & E2 & E3 & E4 & E5 & E6 & E7).
  destruct (fold_left _ l (w1, [], [])) as [[w2 from] new]. simpl in E1, E2, E3, E4, E5, E6, E7. subst from new.
  change (omap (taken w1) l) with (omap (taken w) l). change (omap (brought to w1) l) with (omap (brought to w) l).
  assert (forall t, t ∈ l -> t ∈ tracks w /\ is_Some (heap w !! t)) as Hl.
  { intros t Ht. unfold l in Ht. rewrite elem_ctx_ids, (r_ctx _ HI) in Ht. destruct Ht as [? (s & ? & _)]. eauto. }
  assert (AI w2) as HA2.
  { destruct HA as [R P Em]. split; [|intros u0 p0 r0; rewrite E2, E3; unfold w1, upd_peer; simpl; rewrite lookup_alter_Some; intros [(<- & p' & Hp' & ->) | [_ Hp0]]; [simpl; intros Hr0; destruct (Hto r0 Hr0) as [? (p1 & Hp1 & ?)]; split; [done|congruence]|by eapply P]|by rewrite E3].
    intros t s. rewrite E1, E5. change (heap w1) with (heap w). change (tracks w1) with (tracks w). intros Ht Hs Hd. rewrite E2. unfold w1, upd_peer; simpl. case_bool_decide as Hin.
    - apply fmap_Some in Hs as (s0 & Hs0 & ->). simpl. unfold l in Hin. rewrite elem_ctx_ids, (r_ctx _ HI) in Hin. destruct Hin as [_ (s1 & Hs1 & Hu)].
      rewrite Hs0 in Hs1. injection Hs1 as <-. rewrite Hu, lookup_alter_eq, Hp. eexists; by split.
    - destruct (R t s Ht Hs Hd) as (p0 & Hp0 & Hr0). exists p0. split; [|done]. rewrite lookup_alter_ne; [done|]. intros Hu. apply Hin. unfold l.
      rewrite elem_ctx_ids, (r_ctx _ HI). eauto. }
  set (o0 := match pub_room p with Some old => if is_some (rooms w !! old) then [EFloor old u FPubAway] else [] | None => [] end).
  assert (silent o0) as Ho0 by (unfold o0; destruct (pub_room p); [destruct (is_some _)|]; by intros ?).
  set (ev1 := fun w' => match pub_room p with Some old => some_event old false (map (in_room old) (omap (taken w) l)) w' | None => (w', []) end).
  set (ev2 := fun w' => match to with Some r => (w', [EFloor r u FPubSelect]) >>> some_event r true (omap (brought to w) l) | None => (w', []) end).
  assert (let y := ev1 w2 in heap y.1 = heap w2 /\ tracks y.1 = tracks w2 /\ peers y.1 = peers w2 /\ (forall r0, there y.1 r0 <-> there w2 r0) /\
    (forall r0 t, there w2 r0 -> sees y.2 v r0 !! t = if bool_decide (t ∈ l) then None else v r0 !! t)) as Ev1.
  { assert (forall r0 t, there w2 r0 -> t ∈ l -> v r0 !! t = if decide (pub_room p = Some r0) then taken w t else None) as Vl.
    { intros r0 t Hr0 Hin. unfold there in Hr0. rewrite E3 in Hr0. rewrite (HV r0 t) by (done || tauto). apply (before_shown u); try done. by apply elem_ctx_ids. }
    unfold ev1. destruct (pub_room p) as [old|] eqn:Epr.
    - destruct (some_event_spec old false (map (in_room old) (omap (taken w) l)) w2 v) as (F1 & F2 & F3 & F4 & F5 & F6). split_and!; auto.
      intros r0 t Hr0. rewrite F6 by done.
      assert (del_entries (map (in_room old) (omap (taken w) l)) (v r0) !! t = del_entries (omap (taken w) l) (v r0) !! t) as ->
        by (rewrite !del_entries_lookup, map_map; done).
      rewrite (del_entries_omap (taken w)) by (by apply names_taken). destruct (bool_decide (t ∈ l)) eqn:Hin.
      + apply bool_decide_eq_true in Hin. rewrite (Vl r0 t Hr0 Hin). destruct (decide (r0 = old)) as [->|Hne]; [rewrite decide_True by done; by destruct (taken w t)|].
        by rewrite decide_False by congruence.
      + by destruct (decide (r0 = old)).
    - split_and!; try done. intros r0 t Hr0. simpl. case_bool_decide as Hin; [|done]. by rewrite (Vl r0 t Hr0 Hin). }
  assert (let y := ((w2, o0) >>> ev1 >>> ev2) in AI y.1 /\ V y.1 (sees y.2 v)) as Goal; [|by destruct ((w2, o0) >>> ev1 >>> ev2)].
  simpl. destruct (ev1 w2) as [w3 o3]. simpl in Ev1. destruct Ev1 as (F1 & F2 & F3 & F4 & F5).
  assert (forall r0, there w3 r0 <-> there w r0) as Th3 by (intros r0; rewrite F4; unfold there; by rewrite E3).
  assert (AI w3) as HA3 by (apply (ai_frame w2); [done|by rewrite F2|done|done|by rewrite F3]).
  assert (forall r0, there w r0 -> r0 <> "") as Hne by (intros r0 [? Hr0] ->; by rewrite (a_empty _ HA) in Hr0).
  assert (forall w4 r0 t, heap w4 = heap w2 -> tracks w4 = tracks w2 -> there w r0 ->
    shown w4 r0 t = if bool_decide (t ∈ l) then (if decide (to = Some r0) then brought to w t else None) else shown w r0 t) as Sh.
  { intros w4 r0 t Hh Ht Hr0. apply moved_shown; [by rewrite Ht, E1|intros t0; by rewrite Hh, E5|done|by apply Hne]. }
  unfold ev2. destruct to as [r|].
  - simpl. destruct (some_event_spec r true (omap (brought (Some r) w) l) w3 (sees (o0 ++ o3) v)) as (G1 & G2 & G3 & G4 & G5 & G6).
    destruct (some_event r true (omap (brought (Some r) w) l) w3) as [w4 o4]. simpl in *.
    split; [apply (ai_frame w3); [done|by rewrite G2|done|done|by rewrite G3]|].
    intros r0 t Hr0 _. apply G5 in Hr0. rewrite sees_app. change (sees (EFloor r u FPubSelect :: o4) ?x) with (sees o4 x). rewrite G6 by done.
    apply F4 in Hr0 as Hr2. apply Th3 in Hr0. rewrite (Sh w4) by (congruence || done). rewrite put_entries_omap by (done || by apply names_brought).
    rewrite sees_app, Ho0, !F5 by done. case_bool_decide as Hin.
    + destruct (decide (r0 = r)) as [->|Hn]; [rewrite decide_True by done; by destruct (brought _ _ _)|by rewrite decide_False by congruence].
    + case_decide; apply HV; done || tauto.
  - simpl. split; [done|]. intros r0 t Hr0 _. rewrite app_nil_r, sees_app, Ho0. apply F4 in Hr0 as Hr2. rewrite F5 by done. apply Th3 in Hr0. rewrite (Sh w3) by done.
    case_bool_decide; [done|]. apply HV; done || tauto.
Qed.

End MediaSee.
