(* ===== verification/MediaKeep.v ===== *)
(** * Leaving, joining and publishing keep what a room shows

    The operations that end in another of [MediaSee]'s, or loop over the tracks of a user. *)

From S2P Require Import Prelude Room Tracks Media MediaInv MediaSee.

Module MediaKeep.
Import Trk Media MediaInv MediaSee.

(** ** Leaving *)

(** What holds in the loop of leaving room [r]: [pr] is where the user [u] published before, [pp]
    the peer of the user from now on, [P] the tracks that were taken from the room so far. *)
Record Leaving (u r : string) (last : bool) (pr : option string) (pp : Peer) (rest : list string) (P : string -> Prop) (w : World) (v : View) (removed : list TrackEntry) : Prop := {
  l_ri : RI w;
  l_others : forall t s, t ∈ tracks w -> heap w !! t = Some s -> user (info s) <> u -> duplex (info s) = Full \/ listed_flag (info s) = true ->
    exists p, peers w !! user (info s) = Some p /\ room (info s) = default "" (pub_room p);
  l_pub : forall u p r, peers w !! u = Some p -> pub_room p = Some r -> is_Some (rooms w !! r) /\ is_Some (joined_rooms p !! r);
  l_empty : rooms w !! "" = None;
  l_peer : aff_of <$> peers w !! u = Some (aff_of pp);
  l_vx : Vx P w v;
  l_gone : forall t, P t -> forall r0, there w r0 -> shown w r0 t = None;
  l_told : forall r0 t, there w r0 -> P t -> v r0 !! t = None \/ r0 = r /\ t ∈ map e_track_id removed;
  l_only : forall t, t ∈ map e_track_id removed -> P t;
  l_rest : forall t, t ∈ rest -> ~ P t /\ exists s, mine u w s /\ tid_of s = t /\ (duplex (info s) = Full \/ listed_flag (info s) = true -> room (info s) = default "" pr);
  l_done : forall t s, t ∈ tracks w -> heap w !! t = Some s -> user (info s) = u -> t ∉ rest ->
    last = false /\ (duplex (info s) = Full \/ listed_flag (info s) = true -> room (info s) = default "" (pub_room pp)) }.

Lemma leaving_drop e u r last pr pp t s rest P w v removed o :
  Leaving u r last pr pp (t :: rest) P w v removed -> t ∉ rest -> mine u w s -> tid_of s = t -> ~ P t ->
  (duplex (info s) = Full \/ listed_flag (info s) = true -> room (info s) = default "" pr) ->
  (last = true -> pr = None \/ pr = Some r) -> String.eqb (room (info s)) r && negb (is_half (info s)) || last = true ->
  let y := (w, o) >>> (fun w => (w |> upd t (upd_info (store_listed false)), [])) >>> drop_stream e u t in
  Leaving u r last pr pp rest (fun t0 => P t0 \/ t0 = t) y.1 v
    (if listed_flag (info s) && String.eqb (room (info s)) r then removed ++ [entry (info s)] else removed) /\
  exists o', y.2 = o ++ o' /\ silent o'.
Proof.
  intros [HI HO HP HE HQ HV HG HT HN HR HD] Hnt Hm Et Hnp Hat Hlast Hcase.
  destruct (mine_facts u w s HI Hm) as (Hts & Hu & _). pose proof Hm as [Hc Hs]. rewrite Et in Hts, Hs, Hc.
  destruct (unlist_drop_spec e u t s P w v o HI HV Hm Et) as (HI' & HV' & (o2 & Eo & Ho2) & Eh & Etr & Th & Af).
  destruct ((w, o) >>> _ >>> _) as [w' o']. simpl in *. subst o'. split; [|by exists o2].
  assert (t ∉ tracks w') as Hn' by (rewrite Etr; set_solver).
  assert (forall t0, t0 <> t -> heap w' !! t0 = heap w !! t0 /\ (t0 ∈ tracks w' <-> t0 ∈ tracks w)) as Fr.
  { intros t0 Hne. split; [by rewrite Eh, lookup_alter_ne|]. rewrite Etr. set_solver. }
  assert (forall t0, t0 ∈ tracks w' -> t0 <> t /\ t0 ∈ tracks w) as In' by (intros t0; rewrite Etr; set_solver).
  assert (forall x, aff_of <$> peers w' !! x = aff_of <$> peers w !! x) as Af' by done.
  split; auto.
  - intros t0 s0 Ht0 Hs0 Hu0 Hd0. destruct (In' t0 Ht0) as [Hne Ht0']. rewrite (proj1 (Fr t0 Hne)) in Hs0.
    destruct (HO t0 s0 Ht0' Hs0 Hu0 Hd0) as (p & Hp & Hrm). specialize (Af (user (info s0))). rewrite Hp in Af.
    destruct (peers w' !! _) as [p'|]; [|done]. injection Af as Ea _. exists p'. split; [done|congruence].
  - intros u0 p r0 Hp0 Hr0. specialize (Af u0). rewrite Hp0 in Af. destruct (peers w !! u0) as [p'|] eqn:E'; [|done]. injection Af as Ea Eb.
    destruct (HP u0 p' r0 E') as [? ?]; [congruence|]. split; [by apply Th|by rewrite Eb].
  - apply eq_None_not_Some. intros H. apply Th in H. unfold there in H. rewrite HE in H. by destruct H.
  - by rewrite Af'.
  - intros t0 Hp r0 Hr0. destruct (decide (t0 = t)) as [->|Hne]; [by apply shown_none|]. destruct Hp as [Hp|?]; [|done].
    rewrite (shown_frame w) by (by destruct (Fr t0 Hne)). apply HG; [done|by apply Th].
  - intros r0 t0 Hr0 Hp. apply Th in Hr0. destruct (decide (t0 = t)) as [->|Hne].
    + rewrite (HV r0 t Hr0 Hnp), (shown_some w r0 t s) by done. unfold listed. destruct (listed_flag (info s)) eqn:Hl; [|by left]. simpl.
      destruct (String.eqb_spec (room (info s)) r0) as [Er0|]; [|by left]. right.
      assert (r0 = r) as ->.
      { destruct (String.eqb_spec (room (info s)) r) as [E|E]; [congruence|]. simpl in Hcase. subst last.
        assert (r0 <> "") as Hne by (intros ->; destruct Hr0 as [? Hr0]; by rewrite HE in Hr0).
        destruct (Hlast eq_refl) as [-> | ->]; specialize (Hat (or_intror eq_refl)); simpl in Hat; congruence. }
      split; [done|]. rewrite (proj2 (String.eqb_eq (room (info s)) r)) by done. rewrite map_app, elem_of_app. right. simpl. apply list_elem_of_singleton. by rewrite <- Et.
    + destruct Hp as [Hp|?]; [|done]. destruct (HT r0 t0 Hr0 Hp) as [?|[-> Hin]]; [by left|]. right. split; [done|]. case_match; [|done].
      rewrite map_app, elem_of_app. by left.
  - intros t0. case_match; [|intros Hin; left; by apply HN]. rewrite map_app, elem_of_app. intros [Hin|Hin]; [left; by apply HN|].
    right. simpl in Hin. apply list_elem_of_singleton in Hin. rewrite Hin. exact Et.
  - intros t0 Ht0. assert (t0 <> t) as Hne by (intros ->; done). destruct (HR t0) as (Hnp0 & s0 & Hm0 & Et0 & Hat0); [by right|].
    split; [tauto|]. exists s0. destruct (mine_facts u w s0 HI Hm0) as (Ht0' & Hu0 & _). destruct Hm0 as [_ Hs0]. rewrite Et0 in *.
    split; [|done]. destruct (Fr t0 Hne) as [Fh Ft]. apply mine_of; rewrite ?Et0; auto; [by apply Ft|congruence].
  - intros t0 s0 Ht0 Hs0 Hu0 Hr0. destruct (In' t0 Ht0) as [Hne Ht0']. rewrite (proj1 (Fr t0 Hne)) in Hs0.
    apply (HD t0 s0); try done. intros Hin. apply elem_of_cons in Hin as [?|?]; done.
Qed.

Lemma leaving_rest u r pr pp t s rest P w v removed :
  Leaving u r false pr pp (t :: rest) P w v removed -> t ∉ rest -> mine u w s -> tid_of s = t -> ~ P t ->
  (duplex (info s) = Full \/ listed_flag (info s) = true -> room (info s) = default "" pr) ->
  there w r -> (pr = Some r -> pub_room pp = None) -> room (info s) = r -> is_half (info s) = true -> listed_flag (info s) = true ->
  Leaving u r false pr pp rest (fun t0 => P t0 \/ t0 = t) (upd t (upd_info (store_room "")) w) v (removed ++ [entry (info s)]).
Proof.
  intros [HI HO HP HE HQ HV HG HT HN HR HD] Hnt Hm Et Hnp Hat Hr Hpp Hroom Hh Hl.
  destruct (mine_facts u w s HI Hm) as (Hts & Hu & _). pose proof Hm as [Hc Hs]. rewrite Et in Hts, Hs, Hc.
  set (w' := upd t (upd_info (store_room "")) w).
  assert (forall t0, t0 <> t -> heap w' !! t0 = heap w !! t0) as Fr by (intros t0 Hne; unfold w', upd; simpl; by rewrite lookup_alter_ne).
  assert (heap w' !! t = Some (upd_info (store_room "") s)) as Ht' by (unfold w', upd; simpl; by rewrite lookup_alter_eq, Hs).
  assert (RI w') as HI' by (apply ri_upd; [done|intros; apply gentle_room]).
  assert (forall r0, there w r0 -> r0 <> "") as Hne0 by (intros r0 [? Hr0] ->; by rewrite HE in Hr0).
  assert (pr = Some r) as Hpr.
  { specialize (Hat (or_intror Hl)). destruct pr as [x|]; simpl in Hat; [congruence|]. destruct (Hne0 r Hr). congruence. }
  assert (forall r0, there w r0 -> shown w' r0 t = None) as Sn.
  { intros r0 Hr0. rewrite (shown_some w' r0 t _ Hts Ht'). unfold listed; simpl. rewrite Hl. simpl. specialize (Hne0 r0 Hr0). by destruct r0. }
  split; auto.
  - intros t0 s0 Ht0 Hs0 Hu0 Hd0. destruct (decide (t0 = t)) as [->|Hne]; [rewrite Ht' in Hs0; simplify_eq; done|].
    rewrite Fr in Hs0 by done. by apply (HO t0 s0).
  - intros r0 t0 Hr0 Hn. rewrite (shown_frame w); [apply HV; [done|tauto]|apply Fr; tauto|done].
  - intros t0 Hp r0 Hr0. destruct (decide (t0 = t)) as [->|Hne]; [by apply Sn|]. destruct Hp as [Hp|?]; [|done].
    rewrite (shown_frame w) by (done || by apply Fr). by apply HG.
  - intros r0 t0 Hr0 Hp. rewrite map_app, elem_of_app. simpl. rewrite list_elem_of_singleton. destruct (decide (t0 = t)) as [->|Hne].
    + rewrite (HV r0 t Hr0 Hnp), (shown_some w r0 t s) by done. unfold listed. rewrite Hl. simpl.
      destruct (String.eqb_spec (room (info s)) r0) as [Er0|]; [|by left]. right. split; [congruence|]. right. by rewrite <- Et.
    + destruct Hp as [Hp|?]; [|done]. destruct (HT r0 t0 Hr0 Hp) as [?|[-> Hin]]; [by left|]. right. tauto.
  - intros t0. rewrite map_app, elem_of_app. simpl. rewrite list_elem_of_singleton. intros [Hin|Hin]; [left; by apply HN|]. right. rewrite Hin. exact Et.
  - intros t0 Ht0. assert (t0 <> t) as Hne by (intros ->; done). destruct (HR t0) as (Hnp0 & s0 & Hm0 & Et0 & Hat0); [by right|].
    split; [tauto|]. exists s0. split; [|done]. destruct Hm0 as [Hc0 Hs0]. split; [done|]. rewrite Et0 in *. by rewrite Fr.
  - intros t0 s0 Ht0 Hs0 Hu0 Hr0. destruct (decide (t0 = t)) as [->|Hne].
    + rewrite Ht' in Hs0. simplify_eq. simpl. split; [done|]. intros _. by rewrite (Hpp eq_refl).
    + rewrite Fr in Hs0 by done. apply (HD t0 s0); try done. intros Hin. apply elem_of_cons in Hin as [?|?]; done.
Qed.

Lemma leaving_step e u r last pr pp t rest P w v removed o :
  Leaving u r last pr pp (t :: rest) P w v removed -> t ∉ rest -> there w r ->
  (last = true -> pr = None \/ pr = Some r) -> pub_room pp = (if decide (pr = Some r) then None else pr) ->
  let y := leave_one e u r last t (w, o, removed) in
  exists P', Leaving u r last pr pp rest P' y.1.1 v y.2 /\ there y.1.1 r /\ exists o', y.1.2 = o ++ o' /\ silent o'.
Proof.
  intros HL Hnt Hr Hlast Hpp. destruct (l_rest _ _ _ _ _ _ _ _ _ _ HL t) as (Hnp & s & Hm & Et & Hat); [by left|].
  pose proof Hm as [_ Hs]. rewrite Et in Hs. unfold leave_one. rewrite Hs.
  destruct (String.eqb (room (info s)) r && negb (is_half (info s)) || last) eqn:Hc.
  - destruct (leaving_drop e u r last pr pp t s rest P w v removed o HL Hnt Hm Et Hnp Hat Hlast Hc) as (HL' & o' & Eo & Ho).
    pose proof (unlist_drop_spec e u t s P w v o (l_ri _ _ _ _ _ _ _ _ _ _ HL) (l_vx _ _ _ _ _ _ _ _ _ _ HL) Hm Et) as (_ & _ & _ & _ & _ & Th & _).
    destruct ((w, o) >>> _ >>> _) as [w' o1]. simpl in *. eexists. split; [exact HL'|]. split; [by apply Th|by exists o'].
  - apply orb_false_iff in Hc as [Hc ->]. destruct (String.eqb (room (info s)) r && listed_flag (info s)) eqn:Hd.
    + apply andb_true_iff in Hd as [Hh Hl]. apply String.eqb_eq in Hh. rewrite Hh, String.eqb_refl in Hc. simpl in Hc. apply negb_false_iff in Hc.
      eexists. split; [|split; [done|exists []; by rewrite app_nil_r]]. simpl. apply leaving_rest; try done.
      intros ->. rewrite Hpp. by rewrite decide_True.
    + exists P. split; [|split; [done|exists []; by rewrite app_nil_r]]. destruct HL as [HI HO HP HE HQ HV HG HT HN HR HD]. split; auto.
      * intros t0 Ht0. apply HR. by right.
      * intros t0 s0 Ht0 Hs0 Hu0 Hn0. destruct (decide (t0 = t)) as [->|Hne].
        -- simpl in Hs0. rewrite Hs in Hs0. injection Hs0 as <-. split; [done|]. intros Hfl. rewrite (Hat Hfl), Hpp.
           assert (room (info s) <> r) as Hne.
           { intros E. rewrite E, String.eqb_refl in Hc, Hd. simpl in Hc, Hd. destruct Hfl as [Hf|Hf]; [|congruence]. apply negb_false_iff in Hc. unfold is_half in Hc. by rewrite Hf in Hc. }
           rewrite decide_False; [done|]. intros E. apply Hne. rewrite (Hat Hfl), E. done.
        -- apply (HD t0 s0); try done. intros Hin. apply elem_of_cons in Hin as [?|?]; done.
Qed.

Lemma leaving_fold e u r last pr pp rest : forall P w v removed o,
  Leaving u r last pr pp rest P w v removed -> NoDup rest -> there w r ->
  (last = true -> pr = None \/ pr = Some r) -> pub_room pp = (if decide (pr = Some r) then None else pr) ->
  let y := fold_left (fun y t => leave_one e u r last t y) rest (w, o, removed) in
  exists P', Leaving u r last pr pp [] P' y.1.1 v y.2 /\ there y.1.1 r /\ exists o', y.1.2 = o ++ o' /\ silent o'.
Proof.
  induction rest as [|t rest IH]; intros P w v removed o HL Hn Hr Hlast Hpp; [exists P; split; [done|]; split; [done|exists []; by rewrite app_nil_r]|].
  apply NoDup_cons in Hn as [Hnt Hn]. cbn [fold_left].
  destruct (leaving_step e u r last pr pp t rest P w v removed o HL Hnt Hr Hlast Hpp) as (P1 & HL1 & Hr1 & o1 & Eo1 & Ho1).
  destruct (leave_one e u r last t (w, o, removed)) as [[w1 o1'] m1]. simpl in HL1, Hr1, Eo1. subst o1'.
  destruct (IH P1 w1 v m1 (o ++ o1) HL1 Hn Hr1 Hlast Hpp) as (P2 & HL2 & Hr2 & o2 & Eo2 & Ho2).
  exists P2. split; [done|]. split; [done|]. exists (o1 ++ o2). rewrite Eo2. split; [by rewrite (assoc_L _)|by apply silent_app].
Qed.

(** After the loop: the peer goes with the last room. *)
Lemma leaving_end e u r last pr pp P w v removed :
  Leaving u r last pr pp [] P w v removed ->
  let y := (if last then reap e u w else (w, [])) in
  AI y.1 /\ Vx P y.1 v /\ silent y.2 /\ (forall t r0, shown y.1 r0 t = shown w r0 t) /\ (forall r0, there y.1 r0 <-> there w r0).
Proof.
  intros [HI HO HP HE HQ HV HG HT HN HR HD]. destruct last.
  - assert (cset u w = ∅) as Hc.
    { apply leibniz_equiv. intros t. split; [|set_solver]. intros Ht. apply (r_ctx _ HI) in Ht as [Ht (s & Hs & Hu)].
      destruct (HD t s Ht Hs Hu) as [? _]; [set_solver|done]. }
    unfold reap. rewrite (ctx_tids u w HI). assert (ctx_ids u w = []) as ->.
    { destruct (ctx_ids u w) as [|t l] eqn:E; [done|]. assert (t ∈ cset u w) as Ht by (rewrite <- elem_ctx_ids, E; by left). by rewrite Hc in Ht. }
    simpl. split_and!; try done. split; simpl; try done.
    + intros t s Ht Hs Hd. assert (user (info s) <> u) as Hu.
      { intros Hu. destruct (HD t s Ht Hs Hu) as [? _]; [set_solver|done]. }
      destruct (HO t s Ht Hs Hu Hd) as (p & Hp & Hrm). exists p. by rewrite lookup_delete_ne.
    + intros u0 p r0. rewrite lookup_delete_Some. intros [_ Hp]. by eapply HP.
  - simpl. split_and!; try done. split; try done. intros t s Ht Hs Hd. destruct (decide (user (info s) = u)) as [Hu|Hu]; [|by apply (HO t s)].
    destruct (HD t s Ht Hs Hu) as [_ Hrm]; [set_solver|]. rewrite Hu. destruct (peers w !! u) as [p|]; [|done]. injection HQ as Ea _. exists p.
    split; [done|]. rewrite Ea. by apply Hrm.
Qed.

Definition in_roster (u r : string) (w : World) : Prop := exists m, rooms w !! r = Some m /\ is_Some (Room.members (rstate m) !! u).

Lemma leave_keeps e u r w v :
  RI w -> AI w -> V w v -> in_roster u r w -> let y := leave e u r w in AI y.1.1 /\ V y.1.1 (sees y.1.2 v).
Proof.
  intros HI HA HV (m & Hr & mem & Hmem). unfold leave. rewrite Hr. destruct (peers w !! u) as [p|] eqn:Hp; [|done]. rewrite Hmem.
  set (p1 := if bool_decide (pub_room p = Some r) then with_pub_room None p else p).
  set (p2 := with_rooms (delete r (joined_rooms p1)) p1).
  set (w1 := set_peers (<[u:=p1]> (peers w)) w).
  set (w2 := set_peers (<[u:=p2]> (peers w1)) (set_rooms (<[r:=mkRoom (media_codecs m) (Room.remove u (rstate m)).1]> (rooms w1)) w1)).
  assert (ingress p1 = ingress p /\ joined_rooms p1 = joined_rooms p /\ pub_room p1 = if decide (pub_room p = Some r) then None else pub_room p) as (Hi1 & Hj1 & Hpr1).
  { unfold p1. destruct (decide (pub_room p = Some r)); [rewrite bool_decide_true by done|rewrite bool_decide_false by done]; by split_and!. }
  assert (RI w1) as HI1 by (by apply (ri_set_peer u p)).
  assert (RI w2) as HI2 by (apply (ri_set_peer u p1 p2 (set_rooms (<[r:=mkRoom (media_codecs m) (Room.remove u (rstate m)).1]> (rooms w1)) w1)); [by apply ri_rooms|simpl; by rewrite lookup_insert_eq|done]).
  assert (forall r0, there w2 r0 <-> there w r0) as Th.
  { intros r0. unfold there, w2, w1; simpl. rewrite lookup_insert_is_Some'. split; [intros [<- | ?]; [by rewrite Hr|done]|by right]. }
  assert (there w r) as Hrt by (by exists m).
  assert (forall u0, u0 <> u -> peers w2 !! u0 = peers w !! u0) as Hpo by (intros u0 Hu; unfold w2, w1; simpl; by rewrite !lookup_insert_ne).
  set (last := bool_decide (joined_rooms p2 = ∅)).
  assert (Leaving u r last (pub_room p) p2 (ctx_ids u w2) (fun _ => False) w2 v []) as HL.
  { split; try done.
    - intros t s Ht Hs Hu Hd. destruct (a_room _ HA t s Ht Hs Hd) as (p' & Hp' & Hrm). exists p'. split; [by rewrite Hpo|done].
    - intros u0 p0 r0 Hp0 Hr0. destruct (decide (u0 = u)) as [->|Hu].
      + unfold w2 in Hp0. simpl in Hp0. rewrite lookup_insert_eq in Hp0. injection Hp0 as <-. simpl in Hr0. rewrite Hpr1 in Hr0. case_decide as Hd; [done|].
        destruct (a_pub _ HA u p r0 Hp Hr0) as [? ?]. split; [by apply Th|]. simpl. rewrite Hj1, lookup_delete_ne by congruence. done.
      + rewrite Hpo in Hp0 by done. destruct (a_pub _ HA u0 p0 r0 Hp0 Hr0) as [? ?]. split; [by apply Th|done].
    - apply eq_None_not_Some. intros H. apply Th in H. unfold there in H. rewrite (a_empty _ HA) in H. by destruct H.
    - unfold w2; simpl. by rewrite lookup_insert_eq.
    - intros r0 t Hr0 Hn. rewrite (shown_frame w) by done. apply HV; [by apply Th|done].
    - intros t Ht. by apply not_elem_of_nil in Ht.
    - intros t Ht. split; [tauto|]. rewrite elem_ctx_ids, (r_ctx _ HI2) in Ht. destruct Ht as [Ht (s & Hs & Hu)].
      assert (tid_of s = t) as Et by (by apply (r_key _ HI2)). exists s. split; [apply mine_of; by rewrite ?Et|]. split; [done|].
      intros Hd. destruct (a_room _ HA t s Ht Hs Hd) as (p' & Hp' & Hrm). rewrite Hu in Hp'. congruence.
    - intros t s Ht Hs Hu Hn. destruct Hn. rewrite elem_ctx_ids, (r_ctx _ HI2). eauto. }
  assert (NoDup (ctx_ids u w2)) as Hnd by (unfold ctx_ids; apply nodup_sorted, NoDup_elements).
  assert (last = true -> pub_room p = None \/ pub_room p = Some r) as Hlast.
  { intros Hl. apply bool_decide_eq_true in Hl. destruct (pub_room p) as [r0|] eqn:E; [|by left]. right. f_equal.
    destruct (a_pub _ HA u p r0 Hp E) as [_ [j Hj]]. destruct (decide (r0 = r)); [done|]. simpl in Hl. rewrite Hj1 in Hl.
    assert (delete r (joined_rooms p) !! r0 = Some j) as Hd by (by rewrite lookup_delete_ne). by rewrite Hl in Hd. }
  destruct (leaving_fold e u r last (pub_room p) p2 (ctx_ids u w2) (fun _ => False) w2 v [] [EFloor r u FLeave] HL Hnd) as (P & HL' & Hr' & o' & Eo & Ho);
    [by apply Th|done|by simpl|].
  rewrite (ctx_tids u w2 HI2). fold last.
  destruct (fold_left _ (ctx_ids u w2) _) as [[w3 o3] removed]. simpl in HL', Hr', Eo. subst o3.
  destruct (leaving_end e u r last (pub_room p) p2 P w3 v removed HL') as (HA4 & HV4 & Hs4 & Sh4 & Th4).
  destruct HL' as [_ _ _ _ _ _ HG HT HN _ _].
  match goal with |- context [let (_, _) := ?x in _] => assert (AI x.1 /\ V x.1 (sees x.2 v)) as R; [|by destruct x] end.
  unfold andthen. destruct (if last then reap e u w3 else (w3, [])) as [w4 o4]. simpl in HA4, HV4, Hs4, Sh4, Th4.
  assert (silent ((EFloor r u FLeave :: o') ++ o4)) as Hs5 by (apply silent_app; [intros v0; apply Ho|done]).
  destruct (some_event_spec r false removed w4 v) as (G1 & G2 & G3 & G4 & G5 & G6).
  destruct (some_event r false removed w4) as [w5 o5]. simpl in G1, G2, G3, G4, G5, G6.
  assert (AI w5) as HA5 by (apply (ai_frame w4); [done|by rewrite G2|done|done|by rewrite G3]).
  assert (V w5 (sees (((EFloor r u FLeave :: o') ++ o4) ++ o5) v)) as HV5.
  { intros r0 t Hr0 _. apply G5 in Hr0. rewrite sees_app, Hs5, G6 by done. rewrite (shown_frame w4) by (by rewrite ?G1, ?G2).
    rewrite del_entries_lookup. apply Th4 in Hr0 as Hr3.
    destruct (decide (t ∈ map e_track_id removed)) as [Hin|Hin].
    - rewrite Sh4, (HG t (HN t Hin) r0 Hr3). rewrite bool_decide_true by done. destruct (decide (r0 = r)) as [Er|Er]; [done|].
      destruct (HT r0 t Hr3 (HN t Hin)) as [?|[? _]]; done.
    - rewrite bool_decide_false by done. transitivity (v r0 !! t); [by destruct (decide (r0 = r))|].
      destruct (v r0 !! t) as [x|] eqn:Ev.
      + rewrite <- Ev. apply HV4; [done|]. intros HPt. destruct (HT r0 t Hr3 HPt) as [?|[_ ?]]; [congruence|done].
      + rewrite Sh4. destruct (shown w3 r0 t) as [x|] eqn:Es; [|done]. exfalso.
        assert (~ P t) as HnP by (intros HPt; by rewrite (HG t HPt r0 Hr3) in Es). specialize (HV4 r0 t Hr0 HnP). rewrite Sh4 in HV4. congruence. }
  destruct (Room.hidden mem); [simpl in *; by rewrite app_nil_r|].
  pose proof (ai_bump r (ELeft r u) w5 HA5) as HA6. pose proof (vx_bump _ r (ELeft r u) w5 _ HV5) as HV6.
  assert (silent (bump r (ELeft r u) w5).2) as Hs6 by (unfold bump; destruct (rooms w5 !! r); by intros ?).
  destruct (bump r (ELeft r u) w5) as [w6 o6]. simpl in *. split; [done|]. by rewrite sees_app, Hs6.
Qed.

(** ** Joining and selecting *)

Lemma affiliation_keeps e token u sel de w v :
  RI w -> AI w -> V w v -> let y := affiliation e token u sel de w in AI y.1.1 /\ V y.1.1 (sees y.1.2 v).
Proof.
  intros HI HA HV. unfold affiliation. destruct (peers w !! u) as [p|] eqn:Hp; [|done].
  destruct (match sel with Some _ => _ | None => _ end) eqn:Hsel; [done|]. destruct (match de with Some _ => _ | None => _ end); [done|].
  destruct sel as [[r j]|].
  - destruct (rooms w !! r) as [m|] eqn:Hr; [|done].
    assert (AI (move_pub u (Some r) token w).1.1 /\ V (move_pub u (Some r) token w).1.1 (sees (move_pub u (Some r) token w).1.2 v)) as M.
    { apply move_keeps; try done. intros r0 [= <-]. split; [by exists m|]. exists p. split; [done|]. destruct j as [j|]; [|done]. case_bool_decide as Hj; [|done]. by rewrite Hj. }
    destruct (move_pub u (Some r) token w) as [[? ?] []]; done.
  - destruct de as [[r j]|]; [|done]. destruct (bool_decide (pub_room p = Some r)); [|done].
    assert (exists o, release_floor_if_speaker e u r w = (w, o) /\ silent o) as (o & -> & Ho).
    { unfold release_floor_if_speaker. destruct (rooms w !! r); [destruct (bool_decide _)|]; eexists; (split; [reflexivity|by intros ?]). }
    assert (AI (move_pub u None token w).1.1 /\ V (move_pub u None token w).1.1 (sees (move_pub u None token w).1.2 v)) as M by (by apply move_keeps).
    destruct (move_pub u None token w) as [[? ?] []]; simpl in *; by rewrite sees_app, Ho.
Qed.

Lemma join_keeps mem r j one sel token w v :
  RI w -> AI w -> V w v -> let y := join mem r j one sel token w in AI y.1 /\ V y.1 (sees y.2 v).
Proof.
  intros HI HA HV. pose proof (ri_join mem r j one false token w HI) as HI1. unfold join in *. destruct (rooms w !! r) as [m|] eqn:Hr; [|done]. simpl in *.
  set (p := default _ (peers w !! Room.user mem)) in *.
  match goal with |- context [if sel then _ else (?x, _)] => set (w1 := x) in * end.
  assert (forall r0, there w1 r0 <-> there w r0) as Th.
  { intros r0. unfold there, w1; simpl. rewrite lookup_insert_is_Some'. split; [intros [<- | ?]; [by rewrite Hr|done]|by right]. }
  assert (AI w1) as HA1.
  { destruct HA as [R P E]. split.
    - intros t s Ht Hs Hd. destruct (R t s Ht Hs Hd) as (p0 & Hp0 & Hrm). unfold w1; simpl. destruct (decide (user (info s) = Room.user mem)) as [Hu|Hu].
      + rewrite Hu, lookup_insert_eq. eexists; split; [done|]. simpl. unfold p. rewrite <- Hu, Hp0. done.
      + exists p0. by rewrite lookup_insert_ne.
    - intros u0 p0 r0 Hp0 Hr0. unfold w1 in Hp0. simpl in Hp0. rewrite lookup_insert_Some in Hp0. destruct Hp0 as [[<- <-] | [_ Hp0]].
      + simpl in *. unfold p in *. destruct (peers w !! Room.user mem) as [p1|] eqn:E1; simpl in *; [|done].
        destruct (P _ p1 r0 E1 Hr0) as [? ?]. split; [by apply Th|]. rewrite lookup_insert_is_Some'. by right.
      + destruct (P u0 p0 r0 Hp0 Hr0) as [? ?]. split; [by apply Th|done].
    - apply eq_None_not_Some. intros H. apply Th in H. unfold there in H. rewrite E in H. by destruct H. }
  assert (V w1 v) as HV1.
  { intros r0 t Hr0 Hn. rewrite (shown_frame w) by done. apply HV; [by apply Th|done]. }
  destruct sel; [|simpl; split; [done|]; by destruct (bool_decide _)].
  assert (AI (move_pub (Room.user mem) (Some r) token w1).1.1 /\ V (move_pub (Room.user mem) (Some r) token w1).1.1 (sees (move_pub (Room.user mem) (Some r) token w1).1.2 v)) as M.
  { apply move_keeps; try done. intros r0 [= <-]. split; [apply Th; by exists m|]. unfold w1; simpl. rewrite lookup_insert_eq. eexists; split; [done|]. simpl. by rewrite lookup_insert_eq. }
  by destruct (move_pub _ _ _ _) as [[? ?] ?].
Qed.

(** ** Publishing *)

Lemma add_stream_spec u r t one tb pt w :
  heap w !! t = None ->
  exists s, let y := add_stream u r t one tb pt w in let i := info (new_stream t u r pt) in
    heap y.1 = <[t := s]> (heap w) /\ info s = store_listed (negb (is_half i) && negb (simulcast i)) i /\
    tracks y.1 = {[t]} ∪ tracks w /\ rooms y.1 = rooms w /\ (forall u0, aff_of <$> peers y.1 !! u0 = aff_of <$> peers w !! u0) /\ silent y.2.
Proof.
  intros Hf. unfold add_stream. cbn zeta. set (s0 := with_pstate Intended (new_stream t u r pt)).
  change (info s0) with (info (new_stream t u r pt)).
  set (w0 := set_tracks _ _).
  assert (heap w0 = <[t := s0]> (heap w)) as H0 by done.
  assert (exists s1, let w1 := (if simulcast (info (new_stream t u r pt)) then w0 else index_add u t 0 (mkTrack (p_ssrc pt) (p_rtx_ssrc pt) None) (upd t (with_phys [mkTrack (p_ssrc pt) (p_rtx_ssrc pt) None]) w0)) in
    heap w1 = <[t := s1]> (heap w) /\ info s1 = info (new_stream t u r pt) /\ tracks w1 = {[t]} ∪ tracks w /\ rooms w1 = rooms w /\
    (forall u0, aff_of <$> peers w1 !! u0 = aff_of <$> peers w !! u0)) as (s1 & H1).
  { destruct (simulcast _); [by exists s0|]. exists (with_phys [mkTrack (p_ssrc pt) (p_rtx_ssrc pt) None] s0). simpl. split_and!; try done.
    - by rewrite alter_insert_eq.
    - intros u0. unfold index_add, upd_peer, upd; simpl. destruct (decide (u0 = u)) as [->|Hu]; [|by rewrite lookup_alter_ne]. rewrite lookup_alter_eq. by destruct (peers w !! u). }
  destruct (if simulcast _ then _ else _) as [h1 t1 c1 p1 r1]. simpl in H1. destruct H1 as (Eh & Ei & Et & Er & Ep).
  assert (silent (if one && tb then [EUplink u true (p_ssrc pt :: opt_list (p_rtx_ssrc pt))] else [])) as So by (destruct (one && tb); by intros ?).
  destruct (negb (is_half _) && negb (simulcast _)) eqn:El; simpl.
  - exists (upd_info (store_listed true) s1). simpl. rewrite Eh. split_and!; try done; [by rewrite alter_insert_eq|by rewrite Ei].
  - exists s1. by split_and!.
Qed.

(** What holds in the loop of publishing: [new] is what is still to be told. *)
Record Adds (u r : string) (p : Peer) (ids : list string) (l : list (PublishTrack * option PubStream)) (new : list string) (w : World) (v : View) : Prop := {
  d_ri : RI w; d_room : Room4 u ids (none_count l) w; d_ai : AI w; d_ids : (none_count l <= length ids)%nat;
  d_vx : Vx (fun t => t ∈ new) w v;
  d_new : forall t, t ∈ new -> exists s, t ∈ tracks w /\ heap w !! t = Some s /\ listed_flag (info s) = true /\ room (info s) = r;
  d_quiet : forall t r0, t ∈ new -> there w r0 -> v r0 !! t = None;
  d_nodup : NoDup new;
  d_peer : aff_of <$> peers w !! u = Some (aff_of p);
  d_old : forall t s, (t, Some s) ∈ l -> exists s', heap w !! tid_of s = Some s' /\ duplex (info s') = default Full (p_duplex t);
  d_full : forall t, (t, None) ∈ l -> default Full (p_duplex t) = Full -> pub_room p = Some r }.

Definition goes_live (tid u r : string) (t : PublishTrack) : bool :=
  let i := info (new_stream tid u r t) in negb (is_half i) && negb (simulcast i).

Lemma adds_step u r p tid ids t l new one tb w v :
  Adds u r p (tid :: ids) ((t, None) :: l) new w v ->
  let y := add_stream u r tid one tb t w in
  Adds u r p ids l (if goes_live tid u r t then new ++ [tid] else new) y.1 v /\ silent y.2.
Proof.
  intros [HI HF HA HL HV HN HQ HD HP HO HB].
  assert (heap w !! tid = None) as Hf by (apply (f_fresh _ _ _ _ HF); by left).
  assert (RI (add_stream u r tid one tb t w).1) as HI'.
  { destruct HF as [Fp Fn Ff Fz]. apply ri_add_stream; try done. unfold none_count in Fz. simpl in Fz. lia. }
  pose proof (room4_add u r tid one tb t w ids (none_count l) HF) as HF'.
  destruct (add_stream_spec u r tid one tb t w Hf) as (s & Eh & Ei & Et & Er & Ep & Es).
  destruct (add_stream u r tid one tb t w) as [w' o]. simpl in *. split; [|done].
  assert (tid ∉ tracks w) as Hnt by (intros H; apply (r_tracks _ HI) in H; rewrite Hf in H; by destruct H).
  assert (tid ∉ new) as Hnn by (intros H; destruct (HN tid H) as (s0 & H0 & _); done).
  assert (forall t0, t0 <> tid -> heap w' !! t0 = heap w !! t0 /\ (t0 ∈ tracks w' <-> t0 ∈ tracks w)) as Fr.
  { intros t0 Hne. split; [by rewrite Eh, lookup_insert_ne|]. rewrite Et. set_solver. }
  assert (forall r0, there w' r0 <-> there w r0) as Th by (intros r0; unfold there; by rewrite Er).
  assert (heap w' !! tid = Some s) as Hs by (by rewrite Eh, lookup_insert_eq).
  assert (listed_flag (info s) = goes_live tid u r t /\ room (info s) = r /\ user (info s) = u /\ duplex (info s) = default Full (p_duplex t)) as (Hl & Hrm & Hu & Hdx) by (by rewrite Ei).
  assert (forall r0, there w r0 -> v r0 !! tid = None) as Hvn by (intros r0 Hr0; rewrite (HV r0 tid Hr0 Hnn); by apply shown_none).
  split; auto.
  - destruct HA as [R P E]. split; [|intros u0 p0 r0 Hp0 Hr0; rewrite Er; specialize (Ep u0); rewrite Hp0 in Ep; destruct (peers w !! u0) as [p1|] eqn:E1; [|done]; injection Ep as Ea Eb; rewrite Eb; apply (P u0 p1); [done|congruence]|by rewrite Er].
    intros t0 s0 Ht0 Hs0 Hd0. destruct (decide (t0 = tid)) as [->|Hne].
    + rewrite Hs in Hs0. injection Hs0 as <-. rewrite Hu. specialize (Ep u). rewrite HP in Ep. destruct (peers w' !! u) as [p1|]; [|done]. injection Ep as Ea _. exists p1. split; [done|].
      rewrite Hrm, Ea, (HB t); [done|by left|]. rewrite <- Hdx. destruct Hd0 as [?|Hd0]; [done|]. rewrite Hl in Hd0. unfold goes_live in Hd0.
      apply andb_true_iff in Hd0 as [Hd0 _]. apply negb_true_iff in Hd0. unfold is_half in Hd0. apply bool_decide_eq_false in Hd0. rewrite Hdx. simpl in Hd0. by destruct (default Full (p_duplex t)).
    + destruct (Fr t0 Hne) as [Fh Ft]. rewrite Fh in Hs0. apply Ft in Ht0. destruct (R t0 s0 Ht0 Hs0 Hd0) as (p0 & Hp0 & Hr0). specialize (Ep (user (info s0))). rewrite Hp0 in Ep.
      destruct (peers w' !! user (info s0)) as [p1|]; [|done]. injection Ep as Ea _. exists p1. split; [done|congruence].
  - unfold none_count in *. simpl in HL. lia.
  - intros r0 t0 Hr0 Hn. apply Th in Hr0. destruct (decide (t0 = tid)) as [->|Hne].
    + rewrite (Hvn r0 Hr0). rewrite (shown_some w' r0 tid s); [|rewrite Et; set_solver|done]. unfold listed. rewrite Hl.
      destruct (goes_live tid u r t); [|done]. destruct Hn. set_solver.
    + rewrite (shown_frame w) by (by destruct (Fr t0 Hne)). apply HV; [done|]. intros Hin. apply Hn. case_match; [|done]. set_solver.
  - intros t0 Ht0. assert (t0 ∈ new \/ t0 = tid /\ goes_live tid u r t = true) as [Hin | [-> Hg]] by (destruct (goes_live tid u r t); set_solver).
    + destruct (HN t0 Hin) as (s0 & H1 & H2 & H3 & H4). assert (t0 <> tid) as Hne by (intros ->; done). exists s0. destruct (Fr t0 Hne) as [-> ->]. done.
    + exists s. split_and!; try done; [rewrite Et; set_solver|by rewrite Hl].
  - intros t0 r0 Ht0 Hr0. apply Th in Hr0. assert (t0 ∈ new \/ t0 = tid) as [Hin | ->] by (destruct (goes_live tid u r t); set_solver); [by apply HQ|by apply Hvn].
  - destruct (goes_live tid u r t); [|done]. apply NoDup_app. split_and!; [done|set_solver|apply NoDup_singleton].
  - by rewrite Ep.
  - intros t0 s0 Hin. destruct (HO t0 s0) as (s1 & H1 & H2); [by right|]. exists s1. split; [|done]. rewrite Eh, lookup_insert_ne; [done|]. intros E. rewrite <- E, Hf in H1. done.
  - intros t0 Hin. apply HB. by right.
Qed.

Lemma adds_loop e u r p l : forall a w v,
  Adds u r p (a_ids a) l (a_new a) w v ->
  exists w' o a', add_loop e u r p l a w = (w', o, Good a') /\ Adds u r p (a_ids a') [] (a_new a') w' v /\ silent o.
Proof.
  induction l as [|[t [s|]] l IH]; intros a w v H; cbn [add_loop].
  - exists w, [], a. done.
  - destruct (d_old _ _ _ _ _ _ _ _ H t s) as (s' & Hs' & Hd); [by left|].
    assert (set_duplex_of e u (pub_room p) r (tid_of s) (default Full (p_duplex t)) w = (w, [], Ok true)) as ->.
    { unfold set_duplex_of. rewrite Hs'. by rewrite decide_True. }
    destruct (IH (mkAdding (a_ids a) (a_added a ++ [(mid s, tid_of s)]) (a_new a)) w v) as (w' & o & a' & E & H' & Ho).
    { destruct H as [HI HF HA HL HV HN HQ HD HP HO HB]. split; auto; intros; [eapply HO|eapply HB]; try done; by right. }
    rewrite E. exists w', o, a'. done.
  - pose proof (d_ids _ _ _ _ _ _ _ _ H) as HL. destruct (a_ids a) as [|tid ids] eqn:Hids; [unfold none_count in HL; simpl in HL; lia|].
    destruct (adds_step u r p tid ids t l (a_new a) (pc_one p) (is_some (down_ssrcs e u)) w v H) as (H1 & Ho1).
    destruct (add_stream _ _ _ _ _ _ _) as [w1 o1]. simpl in H1, Ho1.
    destruct (IH (mkAdding ids (a_added a ++ [(p_mid t, tid)]) (if goes_live tid u r t then a_new a ++ [tid] else a_new a)) w1 v H1) as (w' & o & a' & E & H' & Ho).
    unfold goes_live in E. cbn zeta in E. cbn zeta. rewrite E. exists w', (o1 ++ o), a'. split; [done|]. split; [done|by apply silent_app].
Qed.

(** What is told when the tracks are in. *)
Lemma adds_end u r p ids new w v :
  Adds u r p ids [] new w v ->
  let y := track_event r true (map (fun s => entry (info s)) (omap (fun t => heap w !! t) new)) w in AI y.1 /\ V y.1 (sees y.2 v).
Proof.
  intros [HI HF HA HL HV HN HQ HD HP HO HB]. set (g := fun t => (fun s => entry (info s)) <$> heap w !! t).
  assert (map (fun s => entry (info s)) (omap (fun t => heap w !! t) new) = omap g new) as ->.
  { clear. induction new as [|t l IH]; [done|]. simpl. unfold g at 1. destruct (heap w !! t); simpl; [f_equal|]; exact IH. }
  assert (names g) as Hg.
  { intros t x. unfold g. destruct (heap w !! t) as [s|] eqn:E; [|done]. simpl. intros [= <-]. by apply (r_key _ HI). }
  destruct (track_event_sees r true (omap g new) w) as (n & Ev). unfold track_event in *. split; [by apply ai_bump|].
  intros r0 t Hr0 _. apply bump_there in Hr0. destruct (bump_frame r (ETrackEvent r true (omap g new)) w) as (Fh & Ft & _).
  rewrite (shown_frame w) by (by rewrite ?Fh, ?Ft). rewrite Ev. clear Ev Fh Ft.
  destruct (decide (t ∈ new)) as [Hin|Hin].
  - destruct (HN t Hin) as (s & Ht & Hs & Hl & Hrm). rewrite (shown_some w r0 t s) by done. unfold listed. rewrite Hl, Hrm. simpl.
    destruct (decide (r0 = r)) as [->|Hne].
    + destruct Hr0 as [m Em]. rewrite Em. simpl. unfold in_view. rewrite decide_True by done. rewrite put_entries_omap, bool_decide_true by done.
      unfold g. rewrite Hs, String.eqb_refl. done.
    + rewrite (proj2 (String.eqb_neq r r0)) by done. destruct (is_some _); [|by apply HQ]. simpl. unfold in_view. rewrite decide_False by done. by apply HQ.
  - rewrite <- (HV r0 t Hr0 Hin). destruct (is_some _); [|done]. simpl. unfold in_view. case_decide; [|done].
    rewrite put_entries_omap, bool_decide_false by done. done.
Qed.

Lemma parse_items_bodies rid items ts : parse_items rid items = Ok ts -> Forall2 (fun it t => i_body it = Some t) items ts.
Proof.
  revert ts. induction items as [|it items IH]; intros ts; simpl; [intros [= <-]; constructor|].
  destruct (i_missing it); [done|]. destruct (i_body it) as [t|] eqn:E; [|done]. destruct (String.eqb _ _); [done|]. destruct (_ && _); [done|].
  destruct (parse_items rid items) as [ts'|]; [|done]. intros [= <-]. constructor; auto.
Qed.

Lemma check_tracks_bodies e u x items again p m w ts :
  check_tracks e u x items again p m w = Good ts -> Forall2 (fun it t => i_body it = Some t) items ts.
Proof.
  unfold check_tracks. destruct (_ <? _); [done|]. destruct (_ <? _); [done|]. destruct (parse_items _ _) as [ts'|] eqn:E; [|done].
  destruct (_ && _); [done|]. destruct (check_codecs _ _); try done. intros [= <-]. by eapply parse_items_bodies.
Qed.

Lemma zip_bodies {A B C} (R : A -> B -> Prop) items ts (l : list C) t o :
  Forall2 R items ts -> (t, o) ∈ zip ts l -> exists it, it ∈ items /\ R it t /\ (it, o) ∈ zip items l.
Proof.
  intros H. revert l. induction H as [|it t0 items ts Hr H IH]; intros [|c l]; simpl; try (by intros ?%elem_of_nil).
  rewrite elem_of_cons. intros [[= -> ->] | Hin]; [exists it; split_and!; [left|done|left]|].
  destruct (IH l Hin) as (it' & ? & ? & ?). exists it'. split_and!; [by right|done|by right].
Qed.

(** A request that publishes: its random ids are new and enough, the fields read alone are those
    of the whole, and what is published already keeps its duplex. *)
Record pub_ok (ids : list string) (u : string) (items : list Item) (w : World) : Prop := {
  po_fresh : fresh_ids ids w; po_ids : (length items <= length ids)%nat;
  po_alike : forall it t, it ∈ items -> i_body it = Some t -> i_duplex it = p_duplex t;
  po_old : forall it s, (it, Some s) ∈ zip items (same_mid u items w) -> default Full (i_duplex it) = duplex (info s) }.

Lemma same_mid_mine u items w it s : RI w -> (it, Some s) ∈ zip items (same_mid u items w) -> mine u w s.
Proof.
  intros H Hin. apply ctx_streams_spec; [done|]. unfold same_mid in Hin. apply elem_of_zip_r in Hin. apply list_elem_of_In, in_map_iff in Hin as (it' & Hf & _).
  destruct (i_mid it'); [|done]. simpl in Hf. by apply find_member in Hf as [? _].
Qed.

Lemma publish_keeps e token ids u r j items x w v :
  RI w -> AI w -> V w v -> pub_ok ids u items w -> let y := publish e token ids u r j items x w in AI y.1.1 /\ V y.1.1 (sees y.1.2 v).
Proof.
  intros HI HA HV [[Hn Hf] Hlen Hal Hold]. unfold publish. destruct (add_again u items w); [done|]. destruct x as [x|]; [|done].
  destruct (joined_as u r j w) as [[p m]|] eqn:Hj; [|done]. apply joined_as_peer in Hj as (Hp & Hr & _).
  destruct (may_publish _ _ _ _ _ _) eqn:Hmay; [done|]. pose proof (ri_ensure u w HI) as H1.
  assert (heap (ensure_ctx u w) = heap w /\ tracks (ensure_ctx u w) = tracks w /\ peers (ensure_ctx u w) = peers w /\ rooms (ensure_ctx u w) = rooms w) as (Eh & Et & Ep & Er)
    by (unfold ensure_ctx; by destruct (ctxs w !! u)).
  assert (AI (ensure_ctx u w)) as HA1 by (destruct HA as [R P E]; split; rewrite ?Eh, ?Et, ?Ep, ?Er; auto).
  assert (V (ensure_ctx u w) v) as HV1.
  { intros r0 t Hr0 Hn0. rewrite (shown_frame w) by (by rewrite ?Eh, ?Et). apply HV; [unfold there in *; by rewrite <- Er|done]. }
  destruct (check_tracks _ _ _ _ _ _ _ _) as [ts| |] eqn:Hc; [|done|done]. pose proof (check_tracks_bodies _ _ _ _ _ _ _ _ _ Hc) as Hb. apply check_tracks_size in Hc.
  set (w2 := upd_peer u _ (ensure_ctx u w)). set (l := zip ts (same_mid u items w)).
  assert (Adds u r p ids l [] w2 v) as HD.
  { pose proof (zip_none ts (same_mid u items w)) as Hz. fold l in Hz. split.
    - by apply ri_peer.
    - split; [|done| |].
      + unfold w2, upd_peer; simpl. rewrite lookup_alter_is_Some. by rewrite Ep, Hp.
      + intros t Ht. change (heap w2) with (heap (ensure_ctx u w)). rewrite Eh. by apply Hf.
      + change (cset u w2) with (cset u (ensure_ctx u w)). lia.
    - by apply ai_peer.
    - apply Forall2_length in Hb. unfold l, none_count. etrans; [apply List.filter_length_le|]. rewrite length_zip_with. lia.
    - intros r0 t Hr0 _. apply HV1; [done|tauto].
    - intros t Ht. by apply elem_of_nil in Ht.
    - intros t r0 Ht. by apply elem_of_nil in Ht.
    - constructor.
    - unfold w2, upd_peer; simpl. rewrite lookup_alter_eq, Ep, Hp. done.
    - intros t s Hin. destruct (zip_bodies _ _ _ _ _ _ Hb Hin) as (it & Hit & Hbd & Hz'). exists s.
      change (heap w2) with (heap (ensure_ctx u w)). rewrite Eh. split; [by apply (same_mid_mine u items w it s HI Hz')|].
      rewrite <- (Hold it s Hz'). by rewrite (Hal it t Hit Hbd).
    - intros t Hin Hfull. destruct (zip_bodies _ _ _ _ _ _ Hb Hin) as (it & Hit & Hbd & _). unfold may_publish in Hmay. destruct (denied _ _); [|done].
      assert (existsb (fun it => bool_decide (default Full (i_duplex it) = Full)) items = true) as Hex.
      { apply existsb_exists. exists it. split; [by apply list_elem_of_In|]. apply bool_decide_true. by rewrite (Hal it t Hit Hbd). }
      rewrite Hex in Hmay. simpl in Hmay. case_bool_decide; done. }
  destruct (adds_loop e u r p l (mkAdding ids [] []) w2 v HD) as (w3 & o3 & a & -> & HD3 & Ho3).
  match goal with |- context [let (_, _) := ?x in _] => assert (AI x.1 /\ V x.1 (sees x.2 v)) as R; [|by destruct x] end.
  pose proof (adds_end u r p (a_ids a) (a_new a) w3 v HD3) as HE.
  destruct (a_new a) as [|t0 l0] eqn:En.
  - simpl. rewrite Ho3. destruct HD3 as [_ _ HA3 _ HV3 _ _ _ _ _ _]. split; [done|]. eapply vx_weaken; [|done]. intros t Ht. by apply elem_of_nil in Ht.
  - unfold andthen. destruct (track_event _ _ _ _) as [w4 o4]. simpl in HE. destruct (resync_spec r w4) as (o5 & -> & Ho5). simpl.
    rewrite !sees_app, Ho3, Ho5. done.
Qed.

End MediaKeep.
