(* ===== verification/MediaThm.v ===== *)
(** * The tracks of a room, as its members see them

    A member of a room keeps the tracks by the notices TRACK_EVENT and TRACK_STATE. Here: that
    this list is always the list of the streams listed in the room, through every operation of
    [Media] that is not overtaken by another and satisfies [op_ok], and that the registers agree
    whatever happens. At the end, two ways the list is left wrong. *)

From S2P Require Import Prelude Room Tracks Media MediaInv MediaSee MediaKeep.

Module MediaThm.
Import Trk Media MediaInv MediaSee MediaKeep.

(** ** Sequences of operations *)

(** What an operation relies on to be told in full. *)
Definition op_ok (o : Op) (w : World) : Prop :=
  match o with
  | OJoin _ _ _ _ _ _ => True
  | OPublish _ _ ids u _ _ items _ => pub_ok ids u items w
  | OUnpublish _ _ _ _ _ => True
  | OTrackSet _ u r _ tid x _ dup => dup <> None -> forall s, found u tid x w = Some s -> room (info s) = r
  | OAffiliation _ _ _ _ _ => True
  | OLearn u rid rrid m x => (learn u rid rrid m x w).2 = None
  | OAnnounce _ => False
  | OFirst _ _ _ _ _ => True
  | OLeave _ u r => in_roster u r w
  end.

(** What an operation relies on for the registers. *)
Definition ids_ok (o : Op) (w : World) : Prop := match o with OPublish _ _ ids _ _ _ _ _ => fresh_ids ids w | _ => True end.

Fixpoint ops_ok (ok : Op -> World -> Prop) (l : list Op) (w : World) : Prop :=
  match l with [] => True | o :: l => ok o w /\ ops_ok ok l (op o w).1 end.

Lemma ops_cons o l w : ops (o :: l) w = ((ops l (op o w).1).1, (op o w).2 ++ (ops l (op o w).1).2).
Proof.
  assert (forall l w o, fold_left (fun x o => x >>> op o) l (w, o) = ((ops l w).1, o ++ (ops l w).2)) as F.
  { clear. unfold ops. induction l as [|x l IH]; intros w o; [simpl; by rewrite app_nil_r|]. simpl. destruct (op x w) as [w' o']. simpl.
    rewrite IH, (IH w' o'). simpl. by rewrite app_assoc. }
  unfold ops. simpl. destruct (op o w) as [w' o']. simpl. apply F.
Qed.

Lemma ri_op o w : RI w -> ids_ok o w -> RI (op o w).1.
Proof.
  intros HI Hok. destruct o; simpl in *.
  - by apply ri_join.
  - by apply ri_publish.
  - by apply ri_unpublish.
  - by apply ri_track_set.
  - by apply ri_affiliation.
  - by apply ri_learn.
  - by apply ri_announce.
  - pose proof (ri_learn u rid rrid mid_ x w HI) as H. destruct (learn _ _ _ _ _ _) as [[w' ?] [t|]]; [by apply ri_announce|done].
  - by apply ri_leave.
Qed.

Lemma op_keeps o w v : RI w -> AI w -> V w v -> op_ok o w -> AI (op o w).1 /\ V (op o w).1 (sees (op o w).2 v).
Proof.
  intros HI HA HV Hok. destruct o; simpl in *.
  - by apply join_keeps.
  - by apply publish_keeps.
  - by apply unpublish_keeps.
  - by apply track_set_keeps.
  - by apply affiliation_keeps.
  - pose proof (first_keeps u rid rrid mid_ x w v HI HA HV) as H. unfold op in H. destruct (learn u rid rrid mid_ x w) as [[w' q] a]. simpl in *. subst a. exact H.
  - done.
  - by apply first_keeps.
  - by apply leave_keeps.
Qed.

Lemma op_ok_ids o w : op_ok o w -> ids_ok o w.
Proof. destruct o; simpl; try done. by intros [? _ _ _]. Qed.

Lemma ops_keep l : forall w v, RI w -> AI w -> V w v -> ops_ok op_ok l w ->
  RI (ops l w).1 /\ AI (ops l w).1 /\ V (ops l w).1 (sees (ops l w).2 v).
Proof.
  induction l as [|o l IH]; intros w v HI HA HV; [done|]. cbn [ops_ok]. intros [Ho Hl]. rewrite ops_cons. simpl.
  destruct (op_keeps o w v HI HA HV Ho) as [HA1 HV1]. rewrite sees_app. apply IH; try done. apply ri_op; [done|by apply op_ok_ids].
Qed.

Lemma ri_ops l : forall w, RI w -> ops_ok ids_ok l w -> RI (ops l w).1.
Proof. induction l as [|o l IH]; intros w HI; [done|]. cbn [ops_ok]. intros [Ho Hl]. rewrite ops_cons. simpl. apply IH; [by apply ri_op|done]. Qed.

(** What somebody who comes in is told of the room: its streams, by track. *)
Definition room_list (r : string) (w : World) : gmap string TrackEntry := list_to_map (map (fun s => (tid_of s, entry (info s))) (room_streams r w)).

Lemma room_list_shown w r t : RI w -> room_list r w !! t = shown w r t.
Proof.
  intros HI. unfold room_list, shown, stream, room_streams.
  assert (forall l : list string, NoDup l -> (list_to_map (map (fun s => (tid_of s, entry (info s))) (List.filter (fun s => listed (info s) r) (omap (fun t => heap w !! t) l))) : gmap string TrackEntry) !! t
    = match (if bool_decide (t ∈ l) then heap w !! t else None) with Some s => if listed (info s) r then Some (entry (info s)) else None | None => None end) as F.
  { induction 1 as [|y l Hy Hn IH]; [done|]. simpl. destruct (decide (t = y)) as [->|Hne].
    - rewrite (bool_decide_true (y ∈ y :: l)) by set_solver. rewrite bool_decide_false in IH by done. destruct (heap w !! y) as [s|] eqn:E; [|exact IH]. simpl.
      destruct (listed (info s) r); [|exact IH]. simpl. rewrite (r_key _ HI _ _ E : tid_of s = y). by rewrite lookup_insert_eq.
    - rewrite (bool_decide_ext (t ∈ y :: l) (t ∈ l)) by set_solver. destruct (heap w !! y) as [s|] eqn:E; [|exact IH]. simpl.
      destruct (listed (info s) r); [|exact IH]. simpl. rewrite (r_key _ HI _ _ E : tid_of s = y). rewrite lookup_insert_ne by done. exact IH. }
  rewrite F by apply NoDup_elements. by rewrite (bool_decide_ext _ _ (elem_of_elements (tracks w) t)).
Qed.

Definition unseen : View := fun _ => ∅.

Lemma ai_world0 l : rooms (world0 l) !! "" = None -> AI (world0 l).
Proof. intros H. split; try done. Qed.

(** C10: What the members of a room have put together from the notices is the
    list of the streams that are listed in that room, which is what somebody who comes in is
    told, after every sequence of joinings, publications, takings away, settings, moves, first
    packets and leavings that are served one after the other (the announcing of a simulcast
    track before anything else happens) and in which each satisfies [op_ok]: a publication has
    new random ids, and enough, its items read alike alone and as a whole, and an item that is
    published already keeps its duplex; a setting of the duplex names the room the stream is
    in; who leaves a room is in its roster. Sequences these conditions leave out do break it:
    [publish_refused] (a publication stops at a published item that is to change its duplex),
    [duplex_told_elsewhere] (the duplex is set through another room) and [announced_when_gone]
    (the announcing is overtaken) show how. *)
Theorem media_tracks_converge (l0 : list (string * MediaCodecs)) (l : list Op) :
  rooms (world0 l0) !! "" = None -> ops_ok op_ok l (world0 l0) ->
  let w := (ops l (world0 l0)).1 in
  forall r, is_Some (rooms w !! r) -> sees (ops l (world0 l0)).2 unseen r = room_list r w.
Proof.
  intros He Hok w r Hr. assert (V (world0 l0) unseen) as HV by (intros r0 t _ _; by rewrite shown_none by (simpl; set_solver)).
  destruct (ops_keep l (world0 l0) unseen (ri_world0 l0) (ai_world0 l0 He) HV Hok) as (HI & HA & HV').
  apply map_eq. intros t. rewrite room_list_shown by done. apply HV'; [done|tauto].
Qed.

(** C11: Whatever happens, in any order, even an announcement that comes late:
    every registered stream is in the register of one user, who has a peer and at most sixteen
    of them, and the index of a user's packets leads to a stream of that user and to a track the
    stream has. *)
Theorem media_registers_agree (l0 : list (string * MediaCodecs)) (l : list Op) :
  ops_ok ids_ok l (world0 l0) ->
  let w := (ops l (world0 l0)).1 in
  (forall t, t ∈ tracks w -> exists s, stream t w = Some s /\ tid_of s = t /\ ctx_find (user (info s)) t w = Some s /\ is_Some (peers w !! user (info s))) /\
  (forall u t s, ctx_find u t w = Some s -> stream t w = Some s /\ user (info s) = u) /\
  (forall u p x t n, peers w !! u = Some p -> ingress p !! x = Some (t, n) -> exists s, ctx_find u t w = Some s /\ (n < length (phys s))%nat) /\
  (forall u, active u w <= PER_PERSON).
Proof.
  intros Hok w. assert (RI w) as HI by (apply ri_ops; [apply ri_world0|done]).
  assert (forall u t s, t ∈ cset u w -> heap w !! t = Some s -> ctx_find u t w = Some s) as F.
  { intros u t s. unfold cset, ctx_find. destruct (ctxs w !! u); simpl; [|by intros ?%elem_of_empty]. intros. by rewrite bool_decide_true. }
  split_and!.
  - intros t Ht. destruct (r_tracks _ HI t Ht) as [s Hs]. assert (t ∈ cset (user (info s)) w) as Hc by (apply (r_ctx _ HI); eauto).
    exists s. unfold stream. rewrite bool_decide_true by done. split_and!; [done|by apply (r_key _ HI)|by apply F|by apply (r_peer _ HI _ t)].
  - intros u t s Hf. assert (t ∈ cset u w /\ heap w !! t = Some s) as [Hc Hs].
    { unfold ctx_find in Hf. unfold cset. destruct (ctxs w !! u); [|done]. by case_bool_decide. }
    apply (r_ctx _ HI) in Hc as (Ht & s' & Hs' & Hu). simplify_eq. unfold stream. by rewrite bool_decide_true.
  - intros u p x t n Hp Hx. destruct (r_index _ HI u p x t n Hp Hx) as (Hc & s & Hs & Hn). exists s. split; [by apply F|done].
  - intros u. apply (r_size _ HI).
Qed.

(** A half-duplex track that rests in another room and is made full-duplex
    by a request about the room its user publishes in: the members of that room are told of it,
    but it stays where it was and is none of the room's. *)
Theorem duplex_told_elsewhere (e : Env) (u r tid : string) (w : World) (s : PubStream) (v : View) :
  heap w !! tid = Some s -> tid_of s = tid -> duplex (info s) = Half -> simulcast (info s) = false -> room (info s) <> r -> is_Some (rooms w !! r) ->
  exists w' o x, set_duplex_of e u (Some r) r tid Full w = (w', o, Ok false) /\ sees o v r !! tid = Some x /\ shown w' r tid = None.
Proof.
  intros Hs Ht Hd Hm Hr [m Hrm]. destruct (set_duplex_of e u (Some r) r tid Full w) as [[w' o] x] eqn:E.
  assert (x = Ok false) as ->.
  { unfold set_duplex_of in E. rewrite Hs in E. rewrite decide_False in E by (by rewrite Hd). rewrite Hm in E. rewrite !bool_decide_true in E by done. simpl in E.
    destruct (_ >>> _) as [w2 o2] in E. by simplify_eq. }
  apply set_duplex_spec in E as [(_ & _ & _ & []) | (s' & n & Hs' & _ & _ & _ & -> & Ho)]; [done|].
  rewrite Hs in Hs'. injection Hs' as <-. eexists _, o, _. split; [done|]. rewrite Ho, Hrm. simpl. unfold in_view, put_entries. rewrite decide_True by done. simpl.
  split; [rewrite (Ht : track_id (info s) = tid); apply lookup_insert_eq|].
  destruct (bump_frame r (ETrackEvent r true [entry (store_listed true (store_muted false (store_duplex Full (info s))))]) (upd tid (upd_info (fun _ => store_listed true (store_muted false (store_duplex Full (info s))))) w)) as (Fh & Ft & _).
  unfold shown, stream, track_event. rewrite Fh, Ft. simpl. case_bool_decide; [|done]. rewrite lookup_alter_eq, Hs. simpl. unfold listed. simpl.
  by rewrite (proj2 (String.eqb_neq (room (info s)) r)).
Qed.

(** ** Concrete runs *)

Definition env0 : Env := mkEnv (fun _ => None) (fun _ => None).
Definition rooms0 : list (string * MediaCodecs) := [("A", mkCodecs (Some "opus") (Some "VP8")); ("B", mkCodecs (Some "opus") (Some "VP8"))].
Definition member0 (u : string) : Room.Member := Room.mkMember u None true 0 false None Room.ALL.
Definition ext0 : option ExtReq := Some (mkExtReq (Some 3) (Some 10) (Some 11) (Some 9) None).
Definition mic (m : string) (x : Z) (d : option Duplex) : Item :=
  mkItem (Some Audio) None d (Some m) None (Some (mkPT Audio x None m 111 None (Some "opus") None None None d)).
Definition cam (m : string) (x : Z) (d : option Duplex) : Item :=
  mkItem (Some Video) (Some Camera) d (Some m) None (Some (mkPT Video x None m 96 (Some 97) (Some "VP8") None (Some Camera) (Some true) d)).

(** Alice joins, publishes a microphone and a camera in layers, whose first packet comes in; she
    mutes the microphone, moves to the other room with her tracks, takes the microphone away
    and leaves the first room. *)
Definition run_a : list Op :=
  [OJoin (member0 "alice") "A" "j1" true true None; OPublish env0 None ["t1"; "t2"] "alice" "A" "j1" [mic "0" 11 None; cam "1" 21 None] ext0;
   OFirst "alice" (Some "h") None (Some "1") 22; OTrackSet env0 "alice" "A" "j1" (Some "t1") None (Some true) None].
Definition run_b : list Op :=
  [OJoin (member0 "alice") "B" "j2" true true None; OUnpublish env0 "alice" "B" "j2" ["t1"]; OLeave env0 "alice" "A"].

Lemma roster_true u r w : match rooms w !! r with Some m => is_some (Room.members (rstate m) !! u) | None => false end = true -> in_roster u r w.
Proof. unfold in_roster. destruct (rooms w !! r) as [m|]; [|done]. intros H. exists m. split; [done|]. by destruct (Room.members (rstate m) !! u). Qed.

Lemma run_ok : ops_ok op_ok (run_a ++ run_b) (world0 rooms0).
Proof.
  cbn [app run_a run_b ops_ok op_ok]. repeat match goal with |- _ /\ _ => split | |- True => exact I end.
  - assert (same_mid "alice" [mic "0" 11 None; cam "1" 21 None] (op (OJoin (member0 "alice") "A" "j1" true true None) (world0 rooms0)).1 = [None; None]) as E by (vm_compute; reflexivity).
    split; [split; [repeat (constructor; [set_solver|]); constructor|]|simpl; lia| |].
    + intros t Ht. assert (t = "t1" \/ t = "t2") as [-> | ->] by set_solver; vm_compute; reflexivity.
    + intros it t Hit. assert (it = mic "0" 11 None \/ it = cam "1" 21 None) as [-> | ->] by set_solver; by intros [= <-].
    + rewrite E. intros it s Hin. apply elem_of_zip_r in Hin. set_solver.
  - by intros [].
  - apply roster_true. vm_compute. reflexivity.
Qed.

Lemma media_tracks_converge_witness :
  let y := ops (run_a ++ run_b) (world0 rooms0) in
  sees y.2 unseen "A" = room_list "A" y.1 /\ sees y.2 unseen "B" = room_list "B" y.1 /\ size (room_list "B" y.1) = 1%nat.
Proof.
  split; [|split; [|vm_compute; reflexivity]];
    (apply (media_tracks_converge rooms0 (run_a ++ run_b)); [vm_compute; reflexivity|exact run_ok|vm_compute; eexists; reflexivity]).
Defined.

(** A run in which the announcement of a camera comes after the camera was taken away. *)
Definition run_late : list Op :=
  [OJoin (member0 "alice") "A" "j1" true true None; OPublish env0 None ["t1"; "t2"] "alice" "A" "j1" [mic "0" 11 None; cam "1" 21 None] ext0;
   OLearn "alice" (Some "h") None (Some "1") 22; OUnpublish env0 "alice" "A" "j1" ["t2"]; OAnnounce "t2"].

Lemma run_late_ids : ops_ok ids_ok run_late (world0 rooms0).
Proof.
  cbn [run_late ops_ok]. split_and!; try done. cbn [ids_ok]. split; [repeat (constructor; [set_solver|]); constructor|].
  intros t Ht. assert (t = "t1" \/ t = "t2") as [-> | ->] by set_solver; vm_compute; reflexivity.
Qed.

Lemma media_registers_agree_witness :
  let w := (ops run_late (world0 rooms0)).1 in
  active "alice" w <= PER_PERSON /\ active "alice" w = 1 /\ forall t, t ∈ tracks w -> exists s, stream t w = Some s /\ is_Some (peers w !! user (info s)).
Proof.
  destruct (media_registers_agree rooms0 run_late run_late_ids) as (H1 & _ & _ & H4). split_and!; [apply H4|vm_compute; reflexivity|].
  intros t Ht. destruct (H1 t Ht) as (s & Hs & _ & _ & Hp). exists s. split; [exact Hs|exact Hp].
Defined.

(** The announcing of a simulcast track is a task of its own: when the track is
    taken away before the task runs, the members of the room are told that it is gone and then
    that it is there, and keep it. *)
Theorem announced_when_gone :
  let y := ops run_late (world0 rooms0) in
  ("t2" ∉ tracks y.1) /\ room_list "A" y.1 !! "t2" = None /\ is_Some (sees y.2 unseen "A" !! "t2").
Proof.
  split_and!; [|vm_compute; reflexivity|vm_compute; eexists; reflexivity].
  intros H. assert (bool_decide ("t2" ∈ tracks (ops run_late (world0 rooms0)).1) = true) as E by (by apply bool_decide_true). vm_compute in E. done.
Qed.

(** A half-duplex microphone in a room where its user does not publish. *)
Definition run_half : list Op :=
  [OJoin (member0 "alice") "A" "j1" true true None; OJoin (member0 "alice") "B" "j2" true false None;
   OPublish env0 None ["t1"] "alice" "B" "j2" [mic "0" 11 (Some Half)] ext0].
Definition world_half : World := Eval vm_compute in (ops run_half (world0 rooms0)).1.

Lemma duplex_told_elsewhere_witness :
  exists w' o x, set_duplex_of env0 "alice" (Some "A") "A" "t1" Full world_half = (w', o, Ok false) /\ sees o unseen "A" !! "t1" = Some x /\ shown w' "A" "t1" = None.
Proof.
  eapply (duplex_told_elsewhere env0 "alice" "A" "t1" world_half);
    [vm_compute; reflexivity|reflexivity|reflexivity|reflexivity|done|vm_compute; eexists; reflexivity].
Defined.

End MediaThm.
