(* ===== verification/MediaErr.v ===== *)
(** * A refused publication

    crates/oxsfud/src/ops/media.rs, [publish]: what a PUBLISH_TRACKS that is refused leaves behind.
    The checks come before the loop over the tracks, but the loop itself can fail, at a track
    that is published already and whose duplex cannot be set, and then returns where it is:
    the tracks before it stay published and their notice is never sent. *)

From S2P Require Import Prelude Room Tracks Media MediaInv MediaSee MediaKeep MediaThm.

Module MediaErr.
Import Trk Media MediaInv MediaSee MediaKeep MediaThm.

(** The effects say nothing about a track. *)
Definition mum (t : string) (o : list Eff) : Prop := forall v r, sees o v r !! t = v r !! t.

Lemma mum_silent t o : silent o -> mum t o.
Proof. intros H v r. by rewrite H. Qed.

Lemma mum_app t o o' : mum t o -> mum t o' -> mum t (o ++ o').
Proof. intros H H' v r. by rewrite sees_app, H', H. Qed.

(** Setting a track is nothing to another one. *)
Lemma set_duplex_other e u pr r t d w w' o x t0 : RI w -> set_duplex_of e u pr r t d w = (w', o, x) -> t0 <> t -> heap w' !! t0 = heap w !! t0 /\ mum t0 o.
Proof.
  intros HI E Hne. apply set_duplex_spec in E as [(-> & -> & _) | (s & v & Hs & _ & _ & _ & -> & Ho)]; [done|]. split.
  - unfold track_event. destruct (bump_frame r (ETrackEvent r true [entry (store_listed true (store_muted false (store_duplex d (info s))))]) (upd t (upd_info (fun _ => store_listed true (store_muted false (store_duplex d (info s))))) w)) as (-> & _).
    unfold upd; simpl. by rewrite lookup_alter_ne.
  - intros m r'. rewrite Ho. destruct (is_some _); [|done]. simpl. unfold in_view, put_entries. case_decide; [|done]. simpl. rewrite lookup_insert_ne; [done|].
    rewrite (r_key _ HI _ _ Hs : track_id (info s) = t). done.
Qed.

(** Whether a track is simulcast is never set. *)
Lemma set_duplex_simulcast e u pr r t d w t0 : (fun s => simulcast (info s)) <$> heap (set_duplex_of e u pr r t d w).1.1 !! t0 = (fun s => simulcast (info s)) <$> heap w !! t0.
Proof.
  destruct (set_duplex_of e u pr r t d w) as [[w' o] x] eqn:E. simpl. apply set_duplex_spec in E as [(-> & _) | (s & v & Hs & _ & _ & _ & -> & _)]; [done|].
  unfold track_event. destruct (bump_frame r (ETrackEvent r true [entry (store_listed true (store_muted false (store_duplex d (info s))))]) (upd t (upd_info (fun _ => store_listed true (store_muted false (store_duplex d (info s))))) w)) as (-> & _).
  unfold upd; simpl. destruct (decide (t0 = t)) as [->|]; [rewrite lookup_alter_eq, Hs; done|by rewrite lookup_alter_ne].
Qed.

Lemma set_duplex_refused e u pr r t d w w' o f s : set_duplex_of e u pr r t d w = (w', o, Err f) -> heap w !! t = Some s -> (d = Full -> pr = Some r) ->
  w' = w /\ o = [] /\ f = TrackOpUnsupported /\ simulcast (info s) = true /\ duplex (info s) <> d.
Proof.
  intros E Hs Hd. unfold set_duplex_of in E. rewrite Hs in E. case_decide; [done|]. destruct (simulcast (info s)); [by simplify_eq|].
  assert (bool_decide (d = Full) && negb (bool_decide (pr = Some r)) = false) as Hb.
  { destruct d; [|done]. rewrite (bool_decide_true (pr = _)) by auto. done. }
  rewrite Hb in E. by destruct (_ >>> _) in E.
Qed.

(** What the loop has registered when it stops. *)
Record Stopped (u r : string) (l : list (PublishTrack * option PubStream)) (ids : list string) (w w' : World) (o : list Eff) (n : nat) : Prop := {
  x_tracks : tracks w' = list_to_set (take n ids) ∪ tracks w;
  x_new : forall t, t ∈ take n ids -> exists pt s, heap w' !! t = Some s /\ t ∈ cset u w' /\ info s = store_listed (goes_live t u r pt) (info (new_stream t u r pt));
  x_mum : forall t, t ∈ ids -> mum t o;
  x_ctx : cset u w ⊆ cset u w';
  x_other : forall t, t ∉ ids -> (forall pt s, (pt, Some s) ∈ l -> tid_of s <> t) -> heap w' !! t = heap w !! t /\ mum t o }.

Definition stop_at (l : list (PublishTrack * option PubStream)) (w : World) : Prop :=
  exists t s, (t, Some s) ∈ l /\ default Full (p_duplex t) = Half /\ (fun s => simulcast (info s)) <$> heap w !! tid_of s = Some true.

(** The tracks of the request that are published already are where they were found. *)
Definition found_in (ids : list string) (l : list (PublishTrack * option PubStream)) (w : World) : Prop :=
  forall t s, (t, Some s) ∈ l -> is_Some (heap w !! tid_of s) /\ tid_of s ∉ ids.

Lemma add_loop_stops e u r p l : forall a w w' o f,
  RI w -> Room4 u (a_ids a) (none_count l) w -> found_in (a_ids a) l w -> (forall t o, (t, o) ∈ l -> default Full (p_duplex t) = Full -> pub_room p = Some r) ->
  add_loop e u r p l a w = (w', o, Bad f) -> f = TrackOpUnsupported /\ stop_at l w /\ exists n, Stopped u r l (a_ids a) w w' o n.
Proof.
  induction l as [|[t [s|]] l IH]; intros a w w' o f HI HF Hin Hfull; cbn [add_loop]; [done| |].
  - destruct (Hin t s) as [[s0 Hs] Hni]; [by left|]. destruct (set_duplex_of _ _ _ _ _ _ _) as [[w1 o1] [b|f1]] eqn:E.
    + pose proof (set_duplex_frame e u (pub_room p) r (tid_of s) (default Full (p_duplex t)) w) as Hfr. pose proof (ri_set_duplex e u (pub_room p) r (tid_of s) (default Full (p_duplex t)) w HI) as HI1.
      pose proof (set_duplex_simulcast e u (pub_room p) r (tid_of s) (default Full (p_duplex t)) w) as Hsim. rewrite E in Hfr, HI1, Hsim. simpl in Hfr, HI1, Hsim. destruct Hfr as (Ft & Fc & Fp & Fh).
      destruct (add_loop _ _ _ _ _ _ _) as [[w2 o2] [|f2|]] eqn:E2; try done. intros [= <- <- <-].
      apply IH in E2 as (-> & Hst & n & [X1 X2 X4 X5 X6]); simpl in *; [|done| | |].
      * split; [done|]. split; [destruct Hst as (t' & s' & Hl & Hd' & Hs'); exists t', s'; split_and!; [by right|done|by rewrite <- Hsim]|]. exists n. split; [by rewrite X1, Ft|done| |unfold cset in *; by rewrite Fc in X5|].
        -- intros t0 Ht0. apply mum_app; [|by apply X4]. eapply (set_duplex_other _ _ _ _ _ _ w); [done|exact E|]. intros ->. done.
        -- intros t0 Ht0 Hl. destruct (set_duplex_other _ _ _ _ _ _ w _ _ _ t0 HI E) as [<- Hm]; [intros ->; by apply (Hl t s); [left|]|]. destruct (X6 t0 Ht0) as [X7 X8]; [intros pt s' Hp; apply (Hl pt s'); by right|].
           split; [done|by apply mum_app].
      * destruct HF as [F1 F2 F3 F4]. split; [by rewrite Fp|done|intros t0 Ht0; apply Fh; auto|]. unfold cset in *. by rewrite Fc.
      * intros t' s' Hl. destruct (Hin t' s') as [Hx Hy]; [by right|]. split; [|done]. destruct (heap w1 !! tid_of s') eqn:En; [eauto|]. apply Fh in En. rewrite En in Hx. by destruct Hx.
      * intros t' o' Hl. apply (Hfull t' o'). by right.
    + intros [= <- <- <-]. eapply set_duplex_refused in E as (-> & -> & -> & Hsim & Hdx); [|exact Hs|intros; eapply Hfull; [by left|done]]. split; [done|].
      rewrite (r_sim _ HI _ _ Hs Hsim) in Hdx. split; [exists t, s; split_and!; [by left|by destruct (default Full (p_duplex t))|by rewrite Hs, <- Hsim]|]. exists O. destruct HF as [F1 F2 F3 F4]. split; rewrite ?take_0; [set_solver|set_solver|done..].
  - destruct (a_ids a) as [|tid ids] eqn:Hids; [done|]. assert (heap w !! tid = None) as Hf by (apply (f_fresh _ _ _ _ HF); by left).
    destruct (add_stream_spec u r tid (pc_one p) (is_some (down_ssrcs e u)) t w Hf) as (s & Eh & Ei & Et & Er & Ep & Es). pose proof (add_stream_cset u r tid (pc_one p) (is_some (down_ssrcs e u)) t w u) as Ec.
    pose proof (room4_add u r tid (pc_one p) (is_some (down_ssrcs e u)) t w ids (none_count l) HF) as HF'.
    assert (RI (add_stream u r tid (pc_one p) (is_some (down_ssrcs e u)) t w).1) as HI'.
    { destruct HF as [Fp Fn Ff Fz]. apply ri_add_stream; try done. unfold none_count in Fz. simpl in Fz. lia. }
    destruct (add_stream _ _ _ _ _ _ _) as [w1 o1]. simpl in *. rewrite decide_True in Ec by done. pose proof (f_nodup _ _ _ _ HF) as [Hni Hnd]%NoDup_cons.
    destruct (add_loop _ _ _ _ _ _ _) as [[w2 o2] [|f2|]] eqn:E2; try done. intros [= <- <- <-].
    apply IH in E2 as (-> & Hst & n & [X1 X2 X4 X5 X6]); simpl in *; [|done|done| |].
    + assert (forall pt s', (pt, Some s') ∈ l -> tid_of s' <> tid /\ heap w1 !! tid_of s' = heap w !! tid_of s') as Hl.
      { intros pt s' Hp. destruct (Hin pt s') as [_ Hy]; [by right|]. assert (tid_of s' <> tid) as Hne by (intros Heq; apply Hy; rewrite Heq; left). split; [done|]. by rewrite Eh, lookup_insert_ne. }
      destruct (X6 tid Hni) as [X7 X8]; [intros pt s' Hp; by apply (Hl pt s')|]. rewrite Eh, lookup_insert_eq in X7.
      split; [done|]. split; [destruct Hst as (t' & s' & Hp & Hd' & Hs'); exists t', s'; split_and!; [by right|done|by rewrite <- (proj2 (Hl t' s' Hp))]|]. exists (S n). split; simpl.
      * rewrite X1, Et. set_solver.
      * intros t0 [->|Ht0]%elem_of_cons; [|by apply X2]. exists t, s. split; [done|]. split; [apply X5; rewrite Ec; set_solver|exact Ei].
      * intros t0 [->|Ht0]%elem_of_cons; (apply mum_app; [by apply mum_silent|]); [done|by apply X4].
      * rewrite Ec in X5. set_solver.
      * intros t0 Ht0 Hp. apply not_elem_of_cons in Ht0 as [Hne Ht0]. destruct (X6 t0 Ht0) as [X9 X10]; [intros pt s' Hps; apply (Hp pt s'); by right|].
        split; [by rewrite X9, Eh, lookup_insert_ne|]. apply mum_app; [by apply mum_silent|done].
    + intros t' s' Hp. destruct (Hin t' s') as [Hx Hy]; [by right|]. split; [|set_solver]. rewrite Eh, lookup_insert_ne; [done|]. intros Heq. apply Hy. rewrite Heq. left.
    + intros t' o' Hp. apply (Hfull t' o'). by right.
Qed.

(** What is read of an item alone is what the whole of it says, as both are read from one JSON object. *)
Definition alike (items : list Item) : Prop := forall it t, it ∈ items -> i_body it = Some t -> i_duplex it = p_duplex t.

(** Nothing is published, changed or told. *)
Definition untouched (w w' : World) (o : list Eff) : Prop := heap w' = heap w /\ tracks w' = tracks w /\ rooms w' = rooms w /\ o = [].

Lemma ensure_same u w : heap (ensure_ctx u w) = heap w /\ tracks (ensure_ctx u w) = tracks w /\ peers (ensure_ctx u w) = peers w /\ rooms (ensure_ctx u w) = rooms w /\ forall u0, cset u0 (ensure_ctx u w) = cset u0 w.
Proof.
  unfold ensure_ctx. destruct (ctxs w !! u) eqn:E; [done|]. split_and!; try done. intros u0. unfold cset; simpl. destruct (decide (u0 = u)) as [->|]; [by rewrite lookup_insert_eq, E|by rewrite lookup_insert_ne].
Qed.

Lemma publish_stops e token ids u r j items x w w' o f :
  RI w -> fresh_ids ids w -> alike items -> publish e token ids u r j items x w = (w', o, Bad f) ->
  untouched w w' o
  \/ f = TrackOpUnsupported /\ (exists it s, (it, Some s) ∈ zip items (same_mid u items w) /\ simulcast (info s) = true /\ default Full (i_duplex it) = Half)
     /\ exists l n, Stopped u r l ids w w' o n.
Proof.
  intros HI [Hn Hf] Hal. unfold publish. destruct (add_again u items w); [done|]. destruct x as [x|]; [|by intros [= <- <- <-]; left].
  destruct (joined_as u r j w) as [[p m]|] eqn:Hj; [|by intros [= <- <- <-]; left]. apply joined_as_peer in Hj as (Hp & _).
  destruct (may_publish _ _ _ _ _ _) eqn:Hmay; [by intros [= <- <- <-]; left|]. pose proof (ri_ensure u w HI) as H1. destruct (ensure_same u w) as (Eh & Et & Ep & Er & Ec).
  destruct (check_tracks _ _ _ _ _ _ _ _) as [ts| |] eqn:Hc; [|by intros [= <- <- <-]; left|done]. pose proof (check_tracks_bodies _ _ _ _ _ _ _ _ _ Hc) as Hb. apply check_tracks_size in Hc.
  set (w2 := upd_peer u _ (ensure_ctx u w)). set (l := zip ts (same_mid u items w)).
  assert (RI w2) as H2 by (by apply ri_peer).
  assert (Room4 u ids (none_count l) w2) as F.
  { split; [|done| |].
    - unfold w2, upd_peer; simpl. rewrite lookup_alter_is_Some, Ep. by rewrite Hp.
    - intros t Ht. change (heap w2) with (heap (ensure_ctx u w)). rewrite Eh. auto.
    - change (cset u w2) with (cset u (ensure_ctx u w)). pose proof (zip_none ts (same_mid u items w)). subst l. lia. }
  assert (forall t s, (t, Some s) ∈ l -> heap w !! tid_of s = Some s) as Hold.
  { intros t s Hin. apply (zip_bodies _ items _ _ _ _ Hb) in Hin as (it & _ & _ & Hz). by destruct (same_mid_mine u items w it s HI Hz). }
  destruct (add_loop _ _ _ _ _ _ _) as [[w3 o3] [a|f3|]] eqn:E; [by destruct (match a_new a with [] => _ | _ :: _ => _ end)| |done]. intros [= <- <- <-]. right.
  apply add_loop_stops in E as (-> & (t & s & Hin & Hd & Hsim) & n & HS); [|done|done| |].
  - simpl in HS. split; [done|]. split.
    + pose proof (Hold t s Hin) as Hs. change (heap w2) with (heap (ensure_ctx u w)) in Hsim. rewrite Eh, Hs in Hsim. injection Hsim as Hsim. apply (zip_bodies _ items _ _ _ _ Hb) in Hin as (it & Hit & Hbd & Hz). exists it, s. by rewrite (Hal it t Hit Hbd).
    + exists l, n. destruct HS as [X1 X2 X4 X5 X6]. change (heap w2) with (heap (ensure_ctx u w)) in X6. change (tracks w2) with (tracks (ensure_ctx u w)) in X1. change (cset u w2) with (cset u (ensure_ctx u w)) in X5.
      rewrite Et in X1. rewrite Ec in X5. rewrite Eh in X6. by split.
  - intros t s Hin. change (heap w2) with (heap (ensure_ctx u w)). rewrite Eh, (Hold t s Hin). split; [eauto|]. intros Hi. apply Hf in Hi. by rewrite (Hold t s Hin) in Hi.
  - intros t o Hin Hd. apply (zip_bodies _ items _ _ _ _ Hb) in Hin as (it & Hit & Hbd & _). unfold may_publish in Hmay. destruct (denied _ _); [|done].
    assert (existsb (fun it => bool_decide (default Full (i_duplex it) = Full)) items = true) as Hex.
    { apply existsb_exists. exists it. split; [by apply list_elem_of_In|]. rewrite (Hal it t Hit Hbd). by apply bool_decide_eq_true. }
    rewrite Hex in Hmay. simpl in Hmay. destruct (bool_decide (pub_room p = Some r)) eqn:Hpr; [by apply bool_decide_eq_true in Hpr|done].
Qed.

(** C40: A PUBLISH_TRACKS that is refused has published nothing and told nobody
    anything, whatever the reason, but for one: the request names, as half-duplex, a simulcast
    track that is published already. Then the loop over the tracks stops there with
    [TrackOpUnsupported], and the tracks before it stay: exactly the first [n] of the new ids
    are registered, under the user and in the room of the request, a full-duplex one that is
    not simulcast is listed, so is shown to whoever comes in; and no notice of the request says
    anything about them, so the members of the room are not told. Assumed is that the random
    ids are new and that an item reads alike alone and as a whole. *)
Theorem publish_refused (l0 : list (string * MediaCodecs)) (l : list Op) e token ids u r j items x w' o f :
  let w := (ops l (world0 l0)).1 in
  ops_ok ids_ok l (world0 l0) -> fresh_ids ids w -> alike items -> publish e token ids u r j items x w = (w', o, Bad f) ->
  untouched w w' o
  \/ f = TrackOpUnsupported /\ (exists it s, (it, Some s) ∈ zip items (same_mid u items w) /\ simulcast (info s) = true /\ default Full (i_duplex it) = Half)
     /\ exists n, tracks w' = list_to_set (take n ids) ∪ tracks w
        /\ forall t, t ∈ take n ids ->
             (exists s, ctx_find u t w' = Some s /\ user (info s) = u /\ room (info s) = r /\ listed_flag (info s) = negb (is_half (info s)) && negb (simulcast (info s))
                /\ shown w' r t = if listed_flag (info s) then Some (entry (info s)) else None)
             /\ forall v r', sees o v r' !! t = v r' !! t.
Proof.
  intros w Hl Hf Hal E. assert (RI w) as HI by (apply ri_ops; [apply ri_world0|done]).
  pose proof (publish_stops e token ids u r j items x w w' o f HI Hf Hal E) as [Hu|(-> & Hst & l' & n & [X1 X2 X4 X5 X6])]; [by left|]. right. split_and!; [done..|].
  exists n. split; [done|]. intros t Ht. split; [|apply X4; rewrite <- (take_drop n ids); apply elem_of_app; by left].
  destruct (X2 t Ht) as (pt & s & Hs & Hc & Hi). exists s. assert (t ∈ tracks w') as Htr by (rewrite X1; set_solver).
  assert (ctx_find u t w' = Some s) as Hcf.
  { unfold cset in Hc. unfold ctx_find. destruct (ctxs w' !! u) as [c|]; simpl in Hc; [|by apply not_elem_of_empty in Hc]. by rewrite bool_decide_true. }
  rewrite (shown_some w' r t s Htr Hs). unfold listed. rewrite Hi. simpl. rewrite String.eqb_refl, andb_true_r. by split_and!.
Qed.

(** A camera in layers is published; the next request names a microphone and that camera, as half-duplex. *)
Definition run_camera : list Op :=
  [OJoin (member0 "alice") "A" "j1" true true None; OPublish env0 None ["t1"] "alice" "A" "j1" [cam "1" 21 None] ext0].

Lemma run_camera_ids : ops_ok ids_ok run_camera (world0 rooms0).
Proof.
  cbn [run_camera ops_ok]. split_and!; try done. cbn [ids_ok]. split; [apply NoDup_singleton|]. intros t ->%list_elem_of_singleton. vm_compute. reflexivity.
Qed.

(** The microphone is listed in the room, and nobody is told. *)
Lemma publish_refused_witness :
  let w := (ops run_camera (world0 rooms0)).1 in
  exists w' o, publish env0 None ["t2"] "alice" "A" "j1" [mic "0" 11 None; cam "1" 21 (Some Half)] ext0 w = (w', o, Bad TrackOpUnsupported)
  /\ is_Some (shown w' "A" "t2") /\ sees o unseen "A" !! "t2" = None.
Proof.
  intros w. destruct (publish env0 None ["t2"] "alice" "A" "j1" [mic "0" 11 None; cam "1" 21 (Some Half)] ext0 w) as [[w' o] x] eqn:E.
  assert (x = Bad TrackOpUnsupported /\ bool_decide ("t2" ∈ tracks w') = true /\ is_Some (shown w' "A" "t2")) as (-> & Ht & Hs).
  { vm_compute in E. injection E as <- <- <-. split; [reflexivity|]. split; [vm_compute; reflexivity|]. vm_compute. eexists. reflexivity. }
  exists w', o. split; [reflexivity|]. split; [exact Hs|]. apply bool_decide_eq_true in Ht.
  assert (fresh_ids ["t2"] w) as Hf by (split; [apply NoDup_singleton|]; intros t ->%list_elem_of_singleton; vm_compute; reflexivity).
  assert (alike [mic "0" 11 None; cam "1" 21 (Some Half)]) as Hal by (intros it t Hit; apply elem_of_cons in Hit as [->|Hit%list_elem_of_singleton]; [|subst it]; by intros [= <-]).
  destruct (publish_refused rooms0 run_camera env0 None ["t2"] "alice" "A" "j1" _ ext0 w' o _ run_camera_ids Hf Hal E) as [(_ & H & _)|(_ & _ & n & Hn & H)].
  - exfalso. rewrite H in Ht. assert (bool_decide ("t2" ∈ tracks w) = true) as Hb by (by apply bool_decide_true). vm_compute in Hb. discriminate.
  - apply (H "t2"). destruct n as [|n]; [|left]. exfalso. rewrite Hn in Ht. simpl in Ht. assert ("t2" ∈ tracks w) as Hb by set_solver. apply (bool_decide_eq_true_2 _) in Hb. vm_compute in Hb. discriminate.
Defined.

End MediaErr.
