(* ===== verification/Link.v ===== *)
(** * Connections of the clients

    crates/oxsfud/src/link: the framing of packets on TCP (tcp.rs, with the sending side of
    fwd/rt.rs), the credentials of a transport and their restart (creds.rs), and the state of a
    transport: its paths and whether they are alive (mod.rs). What the operating system answers
    to a write is an argument. *)

From S2P Require Import Prelude Stun.

(** ** RFC 4571 framing *)

Module Tcp.

Definition SEND_BUF : Z := 65536.
Definition IDENTIFY_MS : Z := 10000.

(** [next_frame]: frames of length 0 are skipped. A round takes two bytes at least, so the length
    of the buffer is fuel enough. *)
Fixpoint next_loop (fuel : nat) (buf : list byte) : option (list byte) * list byte :=
  match fuel with
  | O => (None, buf)
  | S fuel =>
    if len buf <? 2 then (None, buf)
    else
      let n := Z.to_nat (from_be (take 2 buf)) in
      if (length buf <? 2 + n)%nat then (None, buf)
      else
        let f := take n (drop 2 buf) in
        let rest := drop (2 + n) buf in
        if (n =? 0)%nat then next_loop fuel rest else (Some f, rest)
  end.
Definition next_frame (buf : list byte) : option (list byte) * list byte := next_loop (length buf) buf.

Definition push (buf data : list byte) : list byte := buf ++ data.

(** The loop of the receiver over what has come in. *)
Fixpoint frames_loop (fuel : nat) (buf : list byte) : list (list byte) * list byte :=
  match fuel with
  | O => ([], buf)
  | S fuel =>
    match next_frame buf with
    | (Some f, rest) => let (fs, r) := frames_loop fuel rest in (f :: fs, r)
    | (None, rest) => ([], rest)
    end
  end.
Definition frames_in (buf : list byte) : list (list byte) * list byte := frames_loop (S (length buf)) buf.

Definition frame (payload : list byte) : option (list byte) :=
  if 65535 <? len payload then None else Some (be 2 (len payload) ++ payload).

(** What a write answers: so many bytes were taken, not now, or an error. *)
Inductive Wr := WOk (n : nat) | WBlock | WErr.

Record TcpOut := mkOut { pending : list byte; open_ : bool }.

(** The loop of [send]; the answers of the system are in order, and where they end the next is
    [WBlock]. What is left, what went out, and whether there was no error. *)
Fixpoint write_loop (os : list Wr) (pend : list byte) : list byte * list byte * bool :=
  match pend with
  | [] => ([], [], true)
  | _ =>
    match os with
    | WOk (S n) :: os => let '(pend', out, ok) := write_loop os (drop (S n) pend) in (pend', take (S n) pend ++ out, ok)
    | WOk O :: _ | WBlock :: _ | [] => (pend, [], true)
    | WErr :: _ => (pend, [], false)
    end
  end.

Definition send (payload : list byte) (os : list Wr) (t : TcpOut) : TcpOut * list byte * bool :=
  let! f := frame payload else (t, [], false) in
  if SEND_BUF <? len (pending t) + len f then (t, [], false)
  else
    let '(pend, out, ok) := write_loop os (pending t ++ f) in
    (mkOut pend (if ok then open_ t else false), out, ok).

(** *** What arrives *)

(** The frame at the start of the buffer, of any length. *)
Definition cut (buf : list byte) : option (list byte * list byte) :=
  if len buf <? 2 then None
  else
    let n := Z.to_nat (from_be (take 2 buf)) in
    if (length buf <? 2 + n)%nat then None else Some (take n (drop 2 buf), drop (2 + n) buf).

Fixpoint drain (fuel : nat) (buf : list byte) : list (list byte) * list byte :=
  match fuel with
  | O => ([], buf)
  | S fuel =>
    match cut buf with
    | None => ([], buf)
    | Some (f, rest) => let (fs, r) := drain fuel rest in (f :: fs, r)
    end
  end.

Definition solid (l : list (list byte)) : list (list byte) := List.filter (fun f => negb (bool_decide (f = []))) l.

Lemma cut_shorter b f r : cut b = Some (f, r) -> (length r + 2 <= length b)%nat.
Proof.
  unfold cut. destruct (len b <? 2) eqn:E; [done|]. destruct (length b <? _)%nat eqn:E2; [done|]. intros [= <- <-].
  rewrite length_drop. apply Nat.ltb_ge in E2. lia.
Qed.

Lemma next_loop_cut fuel b : (length b <= fuel)%nat ->
  next_loop fuel b = match cut b with None => (None, b) | Some ([], r) => next_loop (length r) r | Some (f, r) => (Some f, r) end.
Proof.
  assert (forall n m b, (length b <= n)%nat -> (length b <= m)%nat -> next_loop n b = next_loop m b) as F.
  { induction n as [|n IH]; intros m b0 Hn Hm.
    - destruct b0; [|simpl in Hn; lia]. by destruct m.
    - destruct m as [|m]; [destruct b0; [done|simpl in Hm; lia]|]. cbn [next_loop]. destruct (len b0 <? 2) eqn:E; [done|].
      destruct (length b0 <? _)%nat eqn:E2; [done|]. destruct (_ =? 0)%nat; [|done]. apply IH; rewrite length_drop; apply Nat.ltb_ge in E2; lia. }
  intros H. destruct fuel as [|fuel]; [destruct b; [done|simpl in H; lia]|]. cbn [next_loop]. unfold cut. destruct (len b <? 2) eqn:E; [done|].
  set (n := Z.to_nat _). destruct (length b <? 2 + n)%nat eqn:E2; [done|]. apply Nat.ltb_ge in E2.
  destruct (n =? 0)%nat eqn:E3.
  - apply Nat.eqb_eq in E3. rewrite E3. simpl. apply F; [rewrite length_drop; lia|done].
  - apply Nat.eqb_neq in E3. destruct (take n (drop 2 b)) eqn:Et; [|done]. apply (f_equal length) in Et. rewrite length_take, length_drop in Et. simpl in Et. lia.
Qed.

Lemma drain_fuel n : forall m b, (length b <= n)%nat -> (length b <= m)%nat -> drain n b = drain m b.
Proof.
  induction n as [|n IH]; intros m b Hn Hm.
  - destruct b; [|simpl in Hn; lia]. by destruct m.
  - destruct m as [|m]; [destruct b; [done|simpl in Hm; lia]|]. cbn [drain]. destruct (cut b) as [[f r]|] eqn:E; [|done].
    apply cut_shorter in E. rewrite (IH m r) by lia. done.
Qed.

Definition drained (b : list byte) : list (list byte) * list byte := drain (length b) b.

Lemma drained_cut b : drained b = match cut b with None => ([], b) | Some (f, r) => let (fs, q) := drained r in (f :: fs, q) end.
Proof.
  unfold drained at 1. destruct b as [|x b]; [done|]. cbn [length drain]. destruct (cut (x :: b)) as [[f r]|] eqn:E; [|done].
  apply cut_shorter in E. simpl in E. unfold drained. rewrite (drain_fuel (length b) (length r) r) by lia. done.
Qed.

Lemma frames_drained fuel : forall b, (length b < fuel)%nat -> frames_loop fuel b = (solid (drained b).1, (drained b).2).
Proof.
  assert (forall n b, (length b <= n)%nat -> next_frame b = match solid (drained b).1 with f :: _ => (Some f, (next_frame b).2) | [] => (None, (drained b).2) end /\
    forall f, (next_frame b).1 = Some f -> solid (drained b).1 = f :: solid (drained (next_frame b).2).1 /\ (drained b).2 = (drained (next_frame b).2).2 /\ (length (next_frame b).2 < length b)%nat) as N.
  { induction n as [|n IH]; intros b Hn.
    - destruct b; [|simpl in Hn; lia]. done.
    - unfold next_frame. rewrite next_loop_cut by done. rewrite drained_cut. destruct (cut b) as [[f r]|] eqn:E; [|done]. apply cut_shorter in E.
      destruct f as [|y f].
      + destruct (drained r) as [fs q] eqn:Ed. destruct (IH r ltac:(lia)) as (I1 & I2). unfold next_frame in I1, I2. rewrite Ed in I1, I2. cbn [fst snd] in *.
        unfold solid in *. simpl. split; [exact I1|]. intros f0 Hf. destruct (I2 f0 Hf) as (J1 & J2 & J3). split_and!; [done|done|lia].
      + destruct (drained r) as [fs q] eqn:Ed. simpl. split; [done|]. intros f0 [= <-]. rewrite Ed. split_and!; [done|done|lia]. }
  induction fuel as [|fuel IH]; intros b Hb; [lia|]. cbn [frames_loop]. destruct (N (length b) b ltac:(lia)) as (N1 & N2).
  destruct (next_frame b) as [[f|] r] eqn:E; cbn [fst snd] in *.
  - destruct (N2 f eq_refl) as (J1 & J2 & J3). rewrite IH by lia. by rewrite J1, J2.
  - destruct (solid (drained b).1); [|done]. by injection N1 as ->.
Qed.

Lemma cut_grow a b f r : cut a = Some (f, r) -> cut (a ++ b) = Some (f, r ++ b).
Proof.
  unfold cut. destruct (len a <? 2) eqn:E; [done|]. destruct (length a <? _)%nat eqn:E2; [done|]. intros [= <- <-]. zbool. apply Nat.ltb_ge in E2.
  rewrite len_app. destruct (len a + len b <? 2) eqn:E3; [zbool; pose proof (len_nonneg b); lia|]. rewrite take_app_le by (unfold len in E; lia).
  set (n := Z.to_nat _) in *. rewrite length_app. destruct (_ <? 2 + n)%nat eqn:E4; [apply Nat.ltb_lt in E4; lia|].
  rewrite !drop_app_le by lia. rewrite take_app_le by (rewrite length_drop; lia). done.
Qed.

(** However the bytes are cut into pieces, the same frames come out. *)
Lemma drained_app a b : drained (a ++ b) = ((drained a).1 ++ (drained ((drained a).2 ++ b)).1, (drained ((drained a).2 ++ b)).2).
Proof.
  remember (length a) as n eqn:Hn. revert a Hn. induction n as [n IH] using lt_wf_ind. intros a ->.
  rewrite (drained_cut a). destruct (cut a) as [[f r]|] eqn:E; [|simpl; apply surjective_pairing].
  rewrite (drained_cut (a ++ b)), (cut_grow a b f r E). apply cut_shorter in E. rewrite (IH (length r) ltac:(lia) r eq_refl).
  destruct (drained r) as [fs q]. done.
Qed.

Lemma drained_idem a : drained (drained a).2 = ([], (drained a).2).
Proof. pose proof (drained_app a []) as H. rewrite !app_nil_r in H. destruct (drained a) as [fs r]. simpl in *. destruct (drained r) as [gs q]. simpl in *.
  injection H as H ->. rewrite <- (app_nil_r fs) in H at 1. by apply app_inv_head in H as <-. Qed.

Definition fr (p : list byte) : list byte := be 2 (len p) ++ p.

Lemma cut_fr p b : len p <= 65535 -> cut (fr p ++ b) = Some (p, b).
Proof.
  intros H. unfold cut, fr. rewrite <- app_assoc. rewrite !len_app. unfold len at 1. rewrite length_be. pose proof (len_nonneg p). pose proof (len_nonneg b).
  destruct (_ <? 2) eqn:E; [zbool; lia|]. rewrite (take_app_length' (be 2 (len p))) by (by rewrite length_be). rewrite from_be_be_u16 by ulia. rewrite len_nat.
  destruct (_ <? _)%nat eqn:E2; [apply Nat.ltb_lt in E2; rewrite !length_app, length_be in E2; lia|].
  rewrite (drop_app_length' (be 2 (len p))) by (by rewrite length_be). rewrite take_app_len. rewrite <- drop_drop.
  rewrite (drop_app_length' (be 2 (len p))) by (by rewrite length_be). by rewrite drop_app_len.
Qed.

Lemma cut_part p a b : len p <= 65535 -> fr p = a ++ b -> b <> [] -> cut a = None.
Proof.
  intros H E Hb. destruct (cut a) as [[f r]|] eqn:Ec; [|done]. exfalso. apply (cut_grow a b) in Ec. rewrite <- E in Ec.
  pose proof (cut_fr p [] H) as Ef. rewrite app_nil_r in Ef. rewrite Ef in Ec. injection Ec as _ Ec. destruct r; by destruct b.
Qed.

(** A first part of a sequence of frames: the whole ones come out. *)
Lemma drained_prefix ps : Forall (fun p => len p <= 65535) ps -> forall bs, bs `prefix_of` concat (map fr ps) ->
  (drained bs).1 `prefix_of` ps /\ (bs = concat (map fr ps) -> drained bs = (ps, [])).
Proof.
  induction 1 as [|p ps Hp Hps IH]; intros bs.
  - simpl. intros [k E]. destruct bs; [|done]. by split.
  - cbn [map concat]. intros [k E]. rewrite drained_cut. destruct (decide (length (fr p) <= length bs)%nat) as [Hl|Hl].
    + assert (bs = fr p ++ drop (length (fr p)) bs) as Eb.
      { rewrite <- (take_drop (length (fr p)) bs) at 1. f_equal. apply (f_equal (take (length (fr p)))) in E. rewrite take_app_length, take_app_le in E by done. done. }
      set (b' := drop _ _) in *. rewrite Eb, cut_fr by done. rewrite Eb, <- app_assoc in E. apply app_inv_head in E.
      destruct (IH b') as [I1 I2]; [by exists k|]. destruct (drained b') as [fs q]. cbn [fst snd] in *. split; [by apply prefix_cons|].
      intros H. apply app_inv_head in H. specialize (I2 H). by simplify_eq.
    + apply app_eq_inv in E as [(x & E1 & E2) | (x & E1 & E2)].
      * assert (x <> []) as Hx by (intros ->; rewrite app_nil_r in E1; apply Hl; by rewrite E1).
        rewrite (cut_part p bs x Hp E1 Hx). cbn [fst]. split; [apply prefix_nil|]. intros H. exfalso. apply Hl. rewrite H, length_app. lia.
      * exfalso. apply Hl. rewrite E1, length_app. lia.
Qed.

Lemma solid_prefix l k : l `prefix_of` k -> solid l `prefix_of` solid k.
Proof. intros [x ->]. unfold solid. rewrite List.filter_app. by exists (List.filter (fun f => negb (bool_decide (f = []))) x). Qed.

(** The bytes as the receiver reads them, piece by piece. *)
Fixpoint receive (chunks : list (list byte)) (buf : list byte) : list (list byte) :=
  match chunks with
  | [] => []
  | c :: chunks => let (fs, r) := frames_in (push buf c) in fs ++ receive chunks r
  end.

Lemma receive_drained chunks : forall buf, drained buf = ([], buf) -> receive chunks buf = solid (drained (buf ++ concat chunks)).1.
Proof.
  induction chunks as [|c chunks IH]; intros buf H; simpl; [by rewrite app_nil_r, H|].
  unfold frames_in, push. rewrite frames_drained by lia. rewrite IH by apply drained_idem. rewrite app_assoc, (drained_app (buf ++ c)). simpl.
  unfold solid. by rewrite List.filter_app.
Qed.

(** Payloads sent one after the other: the connection, the bytes that went out, and the payloads
    that were taken. *)
Definition takes (p : list byte) (t : TcpOut) : bool := match frame p with Some f => negb (SEND_BUF <? len (pending t) + len f) | None => false end.

Fixpoint sends (l : list (list byte * list Wr)) (t : TcpOut) : TcpOut * list byte * list (list byte) :=
  match l with
  | [] => (t, [], [])
  | (p, os) :: l =>
    let '(t1, out, _) := send p os t in
    let '(t2, outs, taken) := sends l t1 in
    (t2, out ++ outs, (if takes p t then [p] else []) ++ taken)
  end.

Lemma write_loop_bytes os : forall p p' out ok, write_loop os p = (p', out, ok) -> p = out ++ p'.
Proof.
  induction os as [|w os IH]; intros p p' out ok; [destruct p; cbn [write_loop]; by intros [= <- <- _]|].
  destruct p as [|x p]; [by intros [= <- <- _]|]. cbn [write_loop]. destruct w as [[|n]| |]; try (by intros [= <- <- _]).
  destruct (write_loop os (drop (S n) (x :: p))) as [[q o] k] eqn:E. intros [= <- <- _]. simpl in *. f_equal. rewrite <- app_assoc, <- (IH _ _ _ _ E). by rewrite take_drop.
Qed.

Lemma tcp_send_spec p os t t' out ok : send p os t = (t', out, ok) -> len (pending t) <= SEND_BUF ->
  pending t ++ (if takes p t then fr p else []) = out ++ pending t' /\ (takes p t = true -> len p <= 65535) /\ (ok = true -> takes p t = true) /\ len (pending t') <= SEND_BUF.
Proof.
  unfold send, takes, frame. destruct (65535 <? len p) eqn:E; zbool; [intros [= <- <- <-]; by rewrite app_nil_r|].
  fold (fr p). destruct (SEND_BUF <? _) eqn:E2; zbool; [intros [= <- <- <-]; by rewrite app_nil_r|]. simpl.
  destruct (write_loop os (pending t ++ fr p)) as [[q o] k] eqn:Ew. apply write_loop_bytes in Ew. intros [= <- <- <-] _. simpl. split_and!; try done.
  apply (f_equal len) in Ew. rewrite !len_app in Ew. pose proof (len_nonneg o). lia.
Qed.

Lemma sends_spec l : forall t t' out taken, sends l t = (t', out, taken) -> len (pending t) <= SEND_BUF ->
  pending t ++ concat (map fr taken) = out ++ pending t' /\ Forall (fun p => len p <= 65535) taken /\ len (pending t') <= SEND_BUF.
Proof.
  induction l as [|[p os] l IH]; intros t t' out taken; cbn [sends]; [intros [= <- <- <-] H; rewrite app_nil_r; by repeat constructor|].
  destruct (send p os t) as [[t1 o1] k] eqn:Es. destruct (sends l t1) as [[t2 o2] tk] eqn:Er. intros [= <- <- <-] H.
  destruct (tcp_send_spec _ _ _ _ _ _ Es H) as (B1 & B2 & _ & B3). destruct (IH _ _ _ _ Er B3) as (C1 & C2 & C3). split_and!; [|destruct (takes p t); [constructor; auto|done]|done].
  rewrite map_app, concat_app, app_assoc. replace (concat (map fr (if takes p t then [p] else []))) with (if takes p t then fr p else []) by (destruct (takes p t); [cbn [map concat]; by rewrite app_nil_r|done]).
  by rewrite B1, <- !app_assoc, C1.
Qed.

(** C24: Packets cross a TCP connection whole and in order: however the system
    cuts the writes short and the bytes arrive in pieces, what comes out at the other end is a
    first part of the packets that were taken (the empty ones left out), all of them once
    everything has gone out, and no more than the limit waits to be written. *)
Theorem tcp_delivers (l : list (list byte * list Wr)) (chunks : list (list byte)) (t : TcpOut) (wire : list byte) (taken : list (list byte)) :
  sends l (mkOut [] true) = (t, wire, taken) -> concat chunks `prefix_of` wire ->
  receive chunks [] `prefix_of` solid taken /\ (concat chunks = wire -> pending t = [] -> receive chunks [] = solid taken) /\ len (pending t) <= SEND_BUF.
Proof.
  intros E Hp. destruct (sends_spec _ _ _ _ _ E) as (C1 & C2 & C3); [done|]. simpl in C1. rewrite receive_drained by done. rewrite app_nil_l.
  destruct (drained_prefix taken C2 (concat chunks)) as [D1 D2]; [rewrite C1; etrans; [exact Hp|by exists (pending t)]|].
  split_and!; [by apply solid_prefix| |done]. intros Hw Hq. rewrite Hq, app_nil_r in C1. rewrite D2 by congruence. done.
Qed.

Lemma tcp_delivers_witness :
  let '(t, wire, taken) := sends [([x01; x02], [WOk 3; WBlock]); ([], []); ([x03], [WOk 2; WOk 4])] (mkOut [] true) in
  receive [[x00]; [x02; x01; x02; x00; x00]; [x00]; [x01; x03]] [] = solid taken /\ solid taken = [[x01; x02]; [x03]].
Proof.
  destruct (sends _ _) as [[t wire] taken] eqn:E. pose proof (tcp_delivers _ [[x00]; [x02; x01; x02; x00; x00]; [x00]; [x01; x03]] t wire taken E) as H.
  vm_compute in E. injection E as <- <- <-. split; [|reflexivity]. apply H; reflexivity.
Defined.

End Tcp.

(** ** Credentials *)

Module Creds.

Record Cred := mkCred { ufrag : string; pwd : string }.
Record Creds := mkCreds { active : Cred; pending : option Cred }.

Inductive Checked := Current | Promoted (retired : string).

(** [Creds::new]; the random credential is an argument. *)
Definition new (c : Cred) : Creds := mkCreds c None.

(** The name of the credential that was still waiting. *)
Definition restart (next : Cred) (c : Creds) : Creds * option string := (mkCreds (active c) (Some next), ufrag <$> pending c).

Definition pwd_of (u : string) (c : Creds) : option string :=
  if String.eqb (ufrag (active c)) u then Some (pwd (active c))
  else let? p := pending c in if String.eqb (ufrag p) u then Some (pwd p) else None.

Definition checked (u : string) (c : Creds) : Creds * Checked :=
  match pending c with
  | Some p => if String.eqb (ufrag p) u then (mkCreds p None, Promoted (ufrag (active c))) else (c, Current)
  | None => (c, Current)
  end.

Definition ufrags (c : Creds) : list string := ufrag (active c) :: match pending c with Some p => [ufrag p] | None => [] end.

Definition use_ufrag (c : Creds) : string := match pending c with Some p => ufrag p | None => ufrag (active c) end.

Lemma pwd_of_ufrags u c : is_Some (pwd_of u c) <-> u ∈ ufrags c.
Proof.
  unfold pwd_of, ufrags. destruct (String.eqb_spec (ufrag (active c)) u) as [<-|Hn]; [split; [left|by eexists]|].
  destruct (pending c) as [p|]; [destruct (String.eqb_spec (ufrag p) u) as [<-|Hp]|].
  - split; [|by eexists]. intros _. right. left.
  - split; [by intros []|]. set_solver.
  - split; [by intros []|]. set_solver.
Qed.

End Creds.

(** ** Transports *)

Module Link.
Import Creds.

Definition UDP_PAIR_EXPIRE_MS : Z := 30000.

Inductive PathKey := Udp (a : Stun.SocketAddr) | TcpId (id : Z).
#[export] Instance SocketAddr_eq_dec : EqDecision Stun.SocketAddr.
Proof. solve_decision. Defined.
#[export] Instance PathKey_eq_dec : EqDecision PathKey.
Proof. solve_decision. Defined.

Inductive PeerState := Alive | Suspect.
#[export] Instance PeerState_eq_dec : EqDecision PeerState.
Proof. solve_decision. Defined.

Record Pair := mkPair { key : PathKey; last_ms : Z }.

(** What the connection part of a transport keeps. *)
Record Transport := mkTr {
  creds : Creds; path : option PathKey; pairs : list Pair; state : PeerState; suspect_since : Z; state_since : Z; worker : nat }.

Definition new_transport (c : Cred) (w : nat) (now : Z) : Transport := mkTr (new c) None [] Alive 0 now w.

Definition set_creds v t := mkTr v (path t) (pairs t) (state t) (suspect_since t) (state_since t) (worker t).
Definition set_path v t := mkTr (creds t) v (pairs t) (state t) (suspect_since t) (state_since t) (worker t).
Definition set_pairs v t := mkTr (creds t) (path t) v (state t) (suspect_since t) (state_since t) (worker t).

(** The state before, when it changes. *)
Definition set_state (s : PeerState) (now : Z) (t : Transport) : Transport * option PeerState :=
  if decide (state t = s) then (t, None)
  else
    let since := match s with Suspect => if suspect_since t =? 0 then now else suspect_since t | Alive => 0 end in
    (mkTr (creds t) (path t) (pairs t) s since now (worker t), Some (state t)).

Fixpoint touch (k : PathKey) (now : Z) (l : list Pair) : list Pair :=
  match l with
  | [] => [mkPair k now]
  | p :: l => if decide (key p = k) then mkPair k now :: l else p :: touch k now l
  end.
Definition touch_pair (k : PathKey) (now : Z) (t : Transport) : Transport := set_pairs (touch k now (pairs t)) t.

Definition path_alive (now : Z) (tcp_open : Z -> bool) (t : Transport) : bool :=
  match path t with
  | None => true
  | Some (TcpId id) => tcp_open id
  | Some (Udp a) =>
    match List.find (fun p => bool_decide (key p = Udp a)) (pairs t) with
    | Some p => sat_sub now (last_ms p) <=? UDP_PAIR_EXPIRE_MS
    | None => false
    end
  end.

Definition send_ok (now : Z) (tcp_open : Z -> bool) (t : Transport) : option PathKey :=
  let? p := path t in if path_alive now tcp_open t then Some p else None.

Definition control_path (now : Z) (tcp_open : Z -> bool) (t : Transport) : option PathKey :=
  match path t with
  | Some _ => send_ok now tcp_open t
  | None =>
    let? p := last (pairs t) in
    let alive := match key p with Udp _ => sat_sub now (last_ms p) <=? UDP_PAIR_EXPIRE_MS | TcpId id => tcp_open id end in
    if alive then Some (key p) else None
  end.

(** One transport in [liveness] of ops/timers.rs: whether its user is told that it is suspect. *)
Definition liveness (now : Z) (tcp_open : Z -> bool) (t : Transport) : Transport * bool :=
  if bool_decide (path t = None) || bool_decide (state t = Suspect) || path_alive now tcp_open t then (t, false)
  else let (t, from) := set_state Suspect now t in (t, bool_decide (from = Some Alive)).

End Link.
