(* ===== verification/Demux.v ===== *)
(** * The receiving thread

    crates/oxsfud/src/fwd/rt.rs: the datagrams and the TCP connections that come in, the index
    of transports by credential and by address, the commands of the other threads, and what a
    transport sends by itself. crates/oxsfud/src/ops/rooms.rs and ops/media.rs: the making of
    transports and the restart of their credentials; gc/mod.rs: their end.

    A transport is named by its id; the ones that ended stay, because threads may hold them. The
    answers of the system and of the workers' queues are arguments ([Env]). A call of [datagram]
    is one step; what another thread does to a transport is a step, and each command it then
    pushes is another. *)

From S2P Require Import Prelude Stun Link.

Module Demux.
Import Creds Link.

Definition CTL_RING : nat := 4096.
Definition MAX_DATAGRAM : Z := 2048.

#[export] Instance byte_countable : Countable byte.
Proof. refine (inj_countable Byte.to_N Byte.of_N _). intros b. apply Byte.of_to_N. Defined.
#[export] Instance SocketAddr_countable : Countable Stun.SocketAddr.
Proof.
  refine (inj_countable' (fun a => match a with Stun.V4 i p => inl (i, p) | Stun.V6 o p => inr (o, p) end)
    (fun x => match x with inl (i, p) => Stun.V4 i p | inr (o, p) => Stun.V6 o p end) _). by intros [].
Defined.
#[export] Instance PathKey_countable : Countable PathKey.
Proof.
  refine (inj_countable' (fun k => match k with Udp a => inl a | TcpId i => inr i end)
    (fun x => match x with inl a => Udp a | inr i => TcpId i end) _). by intros [].
Defined.

Inductive RecvCmd := Register (u : string) (tr : Z) | Unregister (tr : Z) | DropUfrag (u : string).

(** A command a thread has still to push, and the transport it is about. *)
Record Owed := mkOwed { thread : Z; about : Z; cmd : RecvCmd }.

Record TcpIn := mkIn { de : list byte; opened : Z; c_tr : option Z }.

Record Rt := mkRt {
  trs : gmap Z Transport; closed : gset Z; by_ufrag : gmap string Z; by_addr : gmap PathKey Z;
  conns : gmap Z TcpIn; tcp : gmap Z Tcp.TcpOut; next_tok : Z; recv_cmds : list RecvCmd; owed : list Owed }.

Definition set_trs v w := mkRt v (closed w) (by_ufrag w) (by_addr w) (conns w) (tcp w) (next_tok w) (recv_cmds w) (owed w).
Definition set_closed v w := mkRt (trs w) v (by_ufrag w) (by_addr w) (conns w) (tcp w) (next_tok w) (recv_cmds w) (owed w).
Definition set_by_ufrag v w := mkRt (trs w) (closed w) v (by_addr w) (conns w) (tcp w) (next_tok w) (recv_cmds w) (owed w).
Definition set_by_addr v w := mkRt (trs w) (closed w) (by_ufrag w) v (conns w) (tcp w) (next_tok w) (recv_cmds w) (owed w).
Definition set_conns v w := mkRt (trs w) (closed w) (by_ufrag w) (by_addr w) v (tcp w) (next_tok w) (recv_cmds w) (owed w).
Definition set_tcp v w := mkRt (trs w) (closed w) (by_ufrag w) (by_addr w) (conns w) v (next_tok w) (recv_cmds w) (owed w).
Definition set_next_tok v w := mkRt (trs w) (closed w) (by_ufrag w) (by_addr w) (conns w) (tcp w) v (recv_cmds w) (owed w).
Definition set_cmds v w := mkRt (trs w) (closed w) (by_ufrag w) (by_addr w) (conns w) (tcp w) (next_tok w) v (owed w).
Definition set_owed v w := mkRt (trs w) (closed w) (by_ufrag w) (by_addr w) (conns w) (tcp w) (next_tok w) (recv_cmds w) v.

Definition rt0 : Rt := mkRt ∅ ∅ ∅ ∅ ∅ ∅ 16 [] [].

Inductive Ev :=
  | EDrop (why : string)
  | EDtls (tr : Z) (data : list byte)
  | EIn (worker : nat) (tr : Z) (data : list byte) (at_us : Z)
  | ESent (key : PathKey) (data : list byte)
  | EPromoted (tr : Z) (ufrag : string)
  | EAlive (tr : Z) (path_changed : bool).

Inductive Sent := SOk | SWouldBlock | SErr.

(** The clocks, what the socket and the connection answer, and whether the queue of a worker
    takes a packet. *)
Record Env := mkEnv { now : Z; at_us : Z; udp_os : list Sent; wr : list Tcp.Wr; takes : nat -> bool }.

(** ** Sending *)

Definition tcp_open (w : Rt) (id : Z) : bool := match tcp w !! id with Some t => Tcp.open_ t | None => false end.

(** At most three attempts; where the answers end the next is [SWouldBlock]. *)
Fixpoint udp_send (n : nat) (os : list Sent) : bool :=
  match n with
  | O => false
  | S n => match os with SOk :: _ => true | SErr :: _ => false | SWouldBlock :: os => udp_send n os | [] => false end
  end.

Definition send_on (e : Env) (k : PathKey) (data : list byte) (w : Rt) : Rt * bool :=
  match k with
  | Udp _ => (w, udp_send 3 (udp_os e))
  | TcpId id =>
    match tcp w !! id with
    | Some t => let '(t, _, ok) := Tcp.send data (wr e) t in (w |> set_tcp (<[id := t]> (tcp w)), ok)
    | None => (w, false)
    end
  end.

Definition reply (e : Env) (k : PathKey) (data : list byte) (w : Rt) : Rt * list Ev :=
  let (w, ok) := send_on e k data w in (w, [if ok then ESent k data else EDrop "send_fail"]).

(** What a transport sends by itself (its handshake). *)
Definition control_send (e : Env) (id : Z) (data : list byte) (w : Rt) : Rt * list Ev :=
  match trs w !! id with
  | Some t => match control_path (now e) (tcp_open w) t with Some k => reply e k data w | None => (w, []) end
  | None => (w, [])
  end.

(** ** Receiving *)

Section Receive.
Context (hmac : list byte -> list byte -> list byte) (crc32 : list byte -> Z) (local : Stun.SocketAddr) (workers : nat).

(** A checked binding request: the pair is alive, the address leads to the transport, a
    waiting credential replaces the other, and a nominated path is taken. *)
Definition accept (e : Env) (k : PathKey) (b : Stun.Binding) (id : Z) (t : Transport) (w : Rt) : Rt * list Ev :=
  let t := touch_pair k (now e) t in
  let (c, ch) := checked (Stun.local_ufrag b) (creds t) in
  let t := set_creds c t in
  let w := w |> set_by_addr (<[k := id]> (by_addr w)) in
  let (w, o) := match ch with
                | Promoted retired => (w |> set_by_ufrag (delete retired (by_ufrag w)), [EPromoted id (Stun.local_ufrag b)])
                | Current => (w, [])
                end in
  let (t, o') :=
    if Stun.use_candidate b then
      let changed := negb (bool_decide (path t = Some k)) in
      let (t, from) := set_state Alive (now e) (set_path (Some k) t) in
      (t, if bool_decide (from = Some Suspect) || changed then [EAlive id changed] else [])
    else (t, []) in
  (w |> set_trs (<[id := t]> (trs w)), o ++ o').

Definition stun_in (e : Env) (k : PathKey) (data : list byte) (w : Rt) : Rt * list Ev * option Z :=
  let bad := (w, [EDrop "stun_unverified"], None) in
  match Stun.parse data with
  | Err _ => bad
  | Ok b =>
    let! id := by_ufrag w !! Stun.local_ufrag b else bad in
    let! t := trs w !! id else bad in
    let! pwd := pwd_of (Stun.local_ufrag b) (creds t) else bad in
    if Stun.verify hmac data b pwd then
      let (w, o) := accept e k b id t w in
      let from := match k with Udp a => a | TcpId _ => local end in
      let (w, o') := reply e k (Stun.success hmac crc32 (Stun.txid b) from pwd) w in
      (w, o ++ o', Some id)
    else bad
  end.

(** What kind of packet the first byte says it is. *)
Definition datagram (e : Env) (k : PathKey) (data : list byte) (known : option Z) (w : Rt) : Rt * list Ev * option Z :=
  match data with
  | [] => (w, [], None)
  | x :: _ =>
    let b0 := bz x in
    if b0 <=? 3 then stun_in e k data w
    else if (20 <=? b0) && (b0 <=? 63) then
      match (match by_addr w !! k with Some id => Some id | None => known end) with
      | Some id => (w, [EDtls id data], Some id)
      | None => (w, [EDrop "rtp_unknown_path"], None)
      end
    else if (128 <=? b0) && (b0 <=? 191) then
      match by_addr w !! k with
      | None => (w, [EDrop "rtp_unknown_path"], None)
      | Some id =>
        if MAX_DATAGRAM <? len data then (w, [EDrop "oversize"], Some id)
        else
          let wk := match trs w !! id with Some t => worker t | None => 0%nat end in
          let o := if (wk <? workers)%nat then if takes e wk then [EIn wk id data (at_us e)] else [EDrop "ingress_queue_full"] else [] in
          (w, o, Some id)
      end
    else (w, [EDrop "demux_unknown"], None)
  end.

(** A call of [datagram], as it is in the log: the world before, the path, the bytes and what
    came of it. *)
Record Entry := mkEntry { e_rt : Rt; e_key : PathKey; e_data : list byte; e_out : list Ev }.

Definition tcp_closed (id : Z) (w : Rt) : Rt := w |> set_tcp (delete id (tcp w)) |> set_by_addr (delete (TcpId id) (by_addr w)).

(** The frames of a connection, one after the other. *)
Fixpoint tcp_frames (env : nat -> Env) (id : Z) (fs : list (list byte)) (tr : option Z) (w : Rt) : Rt * list Entry * option Z :=
  match fs with
  | [] => (w, [], tr)
  | f :: fs =>
    if MAX_DATAGRAM <? len f then
      let '(w1, l, tr) := tcp_frames (fun n => env (S n)) id fs tr w in (w1, mkEntry w (TcpId id) f [EDrop "oversize"] :: l, tr)
    else
      let '(w1, o, r) := datagram (env O) (TcpId id) f tr w in
      let '(w2, l, tr) := tcp_frames (fun n => env (S n)) id fs (match r with Some _ => r | None => tr end) w1 in
      (w2, mkEntry w (TcpId id) f o :: l, tr)
  end.

(** A readable connection: what was read, and whether it is at its end. *)
Definition tcp_read (env : nat -> Env) (id : Z) (chunks : list (list byte)) (fin : bool) (w : Rt) : Rt * list Entry :=
  match conns w !! id with
  | None => (w, [])
  | Some c =>
    let (fs, rest) := Tcp.frames_in (Tcp.push (de c) (concat chunks)) in
    let '(w, l, tr) := tcp_frames env id fs (c_tr c) w in
    let w := w |> set_conns (<[id := mkIn rest (opened c) tr]> (conns w)) in
    (if fin then w |> set_conns (delete id (conns w)) |> tcp_closed id else w, l)
  end.

(** A new connection; [ok] when the socket could be set up. *)
Definition tcp_accept (now : Z) (ok : bool) (w : Rt) : Rt :=
  let id := next_tok w in
  let w := w |> set_next_tok (id + 1) in
  if ok then w |> set_tcp (<[id := Tcp.mkOut [] true]> (tcp w)) |> set_conns (<[id := mkIn [] now None]> (conns w)) else w.

(** The connections that did not say in time who they are. *)
Definition is_stale (now : Z) (c : TcpIn) : bool := bool_decide (c_tr c = None) && (Tcp.IDENTIFY_MS <? now - opened c).
Definition tcp_stale (now : Z) (w : Rt) : Rt :=
  foldr (fun id w => match conns w !! id with
                     | Some c => w |> set_conns (delete id (conns w)) |> tcp_closed id
                     | None => w end) w
    (map fst (List.filter (fun ic => is_stale now ic.2) (map_to_list (conns w)))).

(** ** Commands *)

(** The ring is full: the command is lost. *)
Definition push_cmd (c : RecvCmd) (w : Rt) : Rt := if (length (recv_cmds w) <? CTL_RING)%nat then w |> set_cmds (recv_cmds w ++ [c]) else w.

Definition index_cmd (c : RecvCmd) (m : gmap string Z) : gmap string Z :=
  match c with
  | Register u tr => <[u := tr]> m
  | DropUfrag u => delete u m
  | Unregister tr => filter (fun kv : string * Z => kv.2 <> tr) m
  end.

Definition pop_cmd (w : Rt) : Rt :=
  match recv_cmds w with
  | [] => w
  | c :: cs =>
    let w := w |> set_cmds cs |> set_by_ufrag (index_cmd c (by_ufrag w)) in
    match c with Unregister tr => w |> set_by_addr (filter (fun kv : PathKey * Z => kv.2 <> tr) (by_addr w)) | _ => w end
  end.

(** ** The other threads *)

(** A thread changes a transport and then pushes its commands, one after the other; others may
    run in between. *)
Definition owe (th id : Z) (cs : list RecvCmd) (w : Rt) : Rt := w |> set_owed (owed w ++ map (mkOwed th id) cs).

(** The first of the commands the thread has still to push. *)
Fixpoint take_owed (th : Z) (l : list Owed) : option (RecvCmd * list Owed) :=
  match l with
  | [] => None
  | x :: l => if thread x =? th then Some (cmd x, l) else let? (c, l) := take_owed th l in Some (c, x :: l)
  end.

Definition push_next (th : Z) (w : Rt) : Rt :=
  match take_owed th (owed w) with
  | Some (c, l) => w |> set_owed l |> push_cmd c
  | None => w
  end.

Definition new_tr (th id : Z) (c : Cred) (wk : nat) (now : Z) (w : Rt) : Rt :=
  w |> set_trs (<[id := new_transport c wk now]> (trs w)) |> owe th id [Register (ufrag c) id].

(** One transport in [ice_restart]: the credential is set under its lock, what is pushed then is
    owed. *)
Definition ice_restart (th id : Z) (next : Cred) (w : Rt) : Rt :=
  match trs w !! id with
  | Some t =>
    let (c, old) := restart next (creds t) in
    w |> set_trs (<[id := set_creds c t]> (trs w))
      |> owe th id (match old with Some o => [DropUfrag o] | None => [] end ++ [Register (ufrag next) id])
  | None => w
  end.

(** One transport in [reap]. *)
Definition reap_tr (th id : Z) (w : Rt) : Rt := w |> set_closed ({[id]} ∪ closed w) |> owe th id [Unregister id].

(** One transport in the check of every second. *)
Definition liveness_tr (id : Z) (now : Z) (w : Rt) : Rt * bool :=
  match trs w !! id with
  | Some t => let (t, told) := liveness now (tcp_open w) t in (w |> set_trs (<[id := t]> (trs w)), told)
  | None => (w, false)
  end.

Inductive Op :=
  | OUdp (e : Env) (a : Stun.SocketAddr) (data : list byte)
  | OAccept (now : Z) (ok : bool)
  | ORead (env : nat -> Env) (id : Z) (chunks : list (list byte)) (fin : bool)
  | OStale (now : Z)
  | OPop
  | OControl (e : Env) (id : Z) (data : list byte)
  | ONew (th id : Z) (c : Cred) (wk : nat) (now : Z)
  | ORestart (th id : Z) (next : Cred)
  | OReap (th id : Z)
  | OPush (th : Z)
  | OLiveness (id : Z) (now : Z).

Definition step (o : Op) (w : Rt) : Rt * list Entry :=
  match o with
  | OUdp e a data => let '(w', out, _) := datagram e (Udp a) data None w in (w', [mkEntry w (Udp a) data out])
  | OAccept now ok => (tcp_accept now ok w, [])
  | ORead env id chunks fin => tcp_read env id chunks fin w
  | OStale now => (tcp_stale now w, [])
  | OPop => (pop_cmd w, [])
  | OControl e id data => ((control_send e id data w).1, [])
  | ONew th id c wk now => (new_tr th id c wk now w, [])
  | ORestart th id next => (ice_restart th id next w, [])
  | OReap th id => (reap_tr th id w, [])
  | OPush th => (push_next th w, [])
  | OLiveness id now => ((liveness_tr id now w).1, [])
  end.

Fixpoint run (l : list Op) (w : Rt) : Rt * list Entry :=
  match l with [] => (w, []) | o :: l => let (w, e) := step o w in let (w, e') := run l w in (w, e ++ e') end.

End Receive.
End Demux.
