(* ===== verification/DemuxThm.v ===== *)
(** * What the receiving thread promises

    Nothing reaches a transport but over a path on which somebody who knows its password has
    spoken, and a credential that was handed out leads to its transport. *)

From S2P Require Import Prelude Stun Link Demux.

Module DemuxThm.
Import Creds Link Demux.

Section Thm.
Context (hmac : list byte -> list byte -> list byte) (crc32 : list byte -> Z) (local : Stun.SocketAddr) (workers : nat).
Implicit Types (w : Rt) (log : list Entry).
#[local] Abbreviation datagram := (datagram hmac crc32 local workers).
#[local] Abbreviation run := (run hmac crc32 local workers).
#[local] Abbreviation step := (step hmac crc32 local workers).

(** The password behind the name of a credential. *)
Definition password w (u : string) : option string := let? id := by_ufrag w !! u in let? t := trs w !! id in pwd_of u (creds t).

(** The bytes are a binding request that the check of [Stun] accepts, for this transport. *)
Definition passed w (data : list byte) (id : Z) : Prop :=
  exists b, Stun.check hmac data (password w) = Ok b /\ by_ufrag w !! Stun.local_ufrag b = Some id.

Definition good log (k : PathKey) (id : Z) : Prop := exists y, y ∈ log /\ e_key y = k /\ passed (e_rt y) (e_data y) id.

Definition delivered (ev : Ev) : option Z := match ev with EDtls id _ => Some id | EIn _ id _ _ => Some id | _ => None end.

Definition fair_out log (k : PathKey) (o : list Ev) : Prop := forall ev id, ev ∈ o -> delivered ev = Some id -> good log k id.
Definition fair log : Prop := forall l1 x l2, log = l1 ++ x :: l2 -> fair_out l1 (e_key x) (e_out x).

Definition vouched log w : Prop :=
  (forall k id, by_addr w !! k = Some id -> good log k id) /\
  (forall i c id, conns w !! i = Some c -> c_tr c = Some id -> good log (TcpId i) id).

Lemma good_mono log log' k id : good log k id -> good (log ++ log') k id.
Proof. intros (y & Hy & H). exists y. split; [apply elem_of_app; by left|done]. Qed.

Lemma fair_snoc log x : fair log -> fair_out log (e_key x) (e_out x) -> fair (log ++ [x]).
Proof.
  intros F H l1 y l2 E. destruct l2 as [|z l2 _] using rev_ind.
  - apply app_inj_tail in E as [-> ->]. done.
  - rewrite app_comm_cons, app_assoc in E. apply app_inj_tail in E as [-> ->]. by eapply F.
Qed.

Lemma send_on_frame e k data w : let w' := (send_on e k data w).1 in by_addr w' = by_addr w /\ conns w' = conns w /\ by_ufrag w' = by_ufrag w /\ trs w' = trs w /\
  recv_cmds w' = recv_cmds w /\ closed w' = closed w /\ owed w' = owed w.
Proof. unfold send_on. destruct k as [a|id]; [done|]. destruct (tcp w !! id); [|done]. by destruct (Tcp.send data (wr e) t) as [[? ?] ?]. Qed.

(** A checked request, and everything else. *)
Lemma stun_in_spec e k data w w' o r : stun_in hmac crc32 local e k data w = (w', o, r) ->
  (r = None /\ w' = w \/ exists id, r = Some id /\ passed w data id /\ by_addr w' = <[k := id]> (by_addr w) /\ conns w' = conns w) /\ (forall ev, ev ∈ o -> delivered ev = None).
Proof.
  unfold stun_in. destruct (Stun.parse data) as [b|] eqn:Hp; [|intros [= <- <- <-]; split; [by left|]; set_solver].
  destruct (by_ufrag w !! Stun.local_ufrag b) as [id|] eqn:Hu; [|intros [= <- <- <-]; split; [by left|]; set_solver].
  destruct (trs w !! id) as [t|] eqn:Ht; [|intros [= <- <- <-]; split; [by left|]; set_solver].
  destruct (pwd_of _ _) as [pwd|] eqn:Hw; [|intros [= <- <- <-]; split; [by left|]; set_solver].
  destruct (Stun.verify hmac data b pwd) eqn:Hv; [|intros [= <- <- <-]; split; [by left|]; set_solver].
  assert (passed w data id) as P.
  { exists b. unfold Stun.check, password. rewrite Hp, Hu, Ht, Hw, Hv. done. }
  destruct (accept e k b id t w) as [w1 o1] eqn:Ea. unfold reply. set (msg := Stun.success _ _ _ _ _).
  destruct (send_on_frame e k msg w1) as (Fa & Fc & _). destruct (send_on e k msg w1) as [w2 ok]. intros [= <- <- <-]. simpl in Fa, Fc. rewrite Fa, Fc.
  assert (by_addr w1 = <[k := id]> (by_addr w) /\ conns w1 = conns w /\ forall ev, ev ∈ o1 -> delivered ev = None) as (A1 & A2 & A3).
  { revert Ea. unfold accept. destruct (checked _ _) as [c ch]. destruct (match ch with Current => _ | Promoted _ => _ end) as [w3 o3] eqn:E3.
    destruct (if Stun.use_candidate b then _ else _) as [t4 o4] eqn:E4. intros [= <- <-]. simpl.
    assert (by_addr w3 = <[k := id]> (by_addr w) /\ conns w3 = conns w /\ forall ev, ev ∈ o3 -> delivered ev = None) as (-> & -> & O3).
    { destruct ch; injection E3 as <- <-; split_and!; try done; set_solver. }
    split_and!; try done. intros ev. rewrite elem_of_app. intros [?|H]; [by apply O3|]. revert E4. destruct (Stun.use_candidate b); [|intros [= _ <-]; set_solver].
    destruct (set_state _ _ _) as [t5 from]. destruct (_ || _); intros [= _ <-]; set_solver. }
  split; [right; by exists id|]. intros ev. rewrite elem_of_app. intros [?|H]; [by apply A3|]. destruct ok; set_solver.
Qed.

Lemma vouched_mono log log' w w' : vouched log w -> (forall k id, by_addr w' !! k = Some id -> by_addr w !! k = Some id) ->
  (forall i c id, conns w' !! i = Some c -> c_tr c = Some id -> exists c', conns w !! i = Some c' /\ c_tr c' = Some id) -> vouched (log ++ log') w'.
Proof.
  intros [V1 V2] HA HC. split.
  - intros k id Hk. apply good_mono, V1; auto.
  - intros i c id Hi Hc. destruct (HC i c id Hi Hc) as (c' & H1 & H2). apply good_mono. by eapply V2.
Qed.

Lemma datagram_vouched e k data known w w' o r log :
  datagram e k data known w = (w', o, r) -> vouched log w -> (forall id, known = Some id -> good log k id) ->
  fair_out log k o /\ vouched (log ++ [mkEntry w k data o]) w' /\ (forall id, r = Some id -> good (log ++ [mkEntry w k data o]) k id) /\ conns w' = conns w.
Proof.
  intros E HV HK. unfold Demux.datagram in E. destruct data as [|x data].
  { injection E as <- <- <-. split_and!; try done; [intros ev id; set_solver|apply (vouched_mono _ _ w); eauto]. }
  set (d := x :: data) in *. cbv zeta in E.
  assert (forall id, by_addr w !! k = Some id -> good log k id) as HB by (intros id; apply HV).
  destruct (bz x <=? 3).
  { apply stun_in_spec in E as [[(-> & ->) | (id & -> & P & EA & EC)] HO].
    - split_and!; try done; [intros ev id Hev; by rewrite HO|apply (vouched_mono _ _ w); eauto].
    - assert (good (log ++ [mkEntry w k d o]) k id) as G by (eexists; split_and!; [apply elem_of_app; right; by apply list_elem_of_singleton|done|done]).
      split_and!; try done; [intros ev i Hev; by rewrite HO| |by intros ? [= <-]]. destruct HV as [V1 V2]. split.
      + intros k0 id0. rewrite EA, lookup_insert_Some. intros [[<- <-] | [_ H]]; [done|]. apply good_mono; auto.
      + intros i c id0. rewrite EC. intros. apply good_mono. by eapply V2. }
  assert (vouched (log ++ [mkEntry w k d o]) w) as HV' by (apply (vouched_mono _ _ w); eauto).
  destruct ((20 <=? bz x) && _).
  { destruct (match by_addr w !! k with Some id => Some id | None => known end) as [id|] eqn:Hd.
    - assert (good log k id) as G by (destruct (by_addr w !! k); [apply HB|apply HK]; congruence). injection E as <- <- <-.
      split_and!; try done; [|intros i [= <-]; by apply good_mono]. intros ev i. rewrite list_elem_of_singleton. by intros -> [= <-].
    - injection E as <- <- <-. split_and!; try done. intros ev i. rewrite list_elem_of_singleton. by intros ->. }
  destruct ((128 <=? bz x) && _).
  { destruct (by_addr w !! k) as [id|] eqn:Hk; [|injection E as <- <- <-; split_and!; try done; intros ev i; rewrite list_elem_of_singleton; by intros ->].
    assert (good log k id) as G by (by apply HB).
    destruct (MAX_DATAGRAM <? len d).
    { injection E as <- <- <-. split_and!; try done; [intros ev i; rewrite list_elem_of_singleton; by intros ->|]. intros i [= <-]. by apply good_mono. }
    injection E as <- <- <-. split_and!; try done; [|intros i [= <-]; by apply good_mono].
    intros ev i. destruct (_ <? workers)%nat; [|by intros ?%elem_of_nil]. destruct (takes e _); rewrite list_elem_of_singleton; by intros -> [= <-]. }
  injection E as <- <- <-. split_and!; try done. intros ev i. rewrite list_elem_of_singleton. by intros ->.
Qed.

Lemma tcp_frames_vouched id fs : forall env tr w w' l tr' log,
  tcp_frames hmac crc32 local workers env id fs tr w = (w', l, tr') -> fair log -> vouched log w -> (forall i, tr = Some i -> good log (TcpId id) i) ->
  fair (log ++ l) /\ vouched (log ++ l) w' /\ (forall i, tr' = Some i -> good (log ++ l) (TcpId id) i) /\ conns w' = conns w.
Proof.
  induction fs as [|f fs IH]; intros env tr w w' l tr' log; cbn [tcp_frames].
  { intros [= <- <- <-] F V K. rewrite app_nil_r. done. }
  destruct (MAX_DATAGRAM <? len f).
  - destruct (tcp_frames _ _ _ _ _ _ _ _ _) as [[w1 l1] tr1] eqn:E. intros [= <- <- <-] F V K.
    set (x := mkEntry w (TcpId id) f [EDrop "oversize"]). replace (log ++ x :: l1) with ((log ++ [x]) ++ l1) by (by rewrite <- app_assoc).
    apply (IH _ _ _ _ _ _ _ E).
    + apply fair_snoc; [done|]. intros ev i. set_solver.
    + apply (vouched_mono _ _ w); eauto.
    + intros i Hi. apply good_mono; auto.
  - destruct (datagram (env O) (TcpId id) f tr w) as [[w1 o] r] eqn:Ed. destruct (tcp_frames _ _ _ _ _ _ _ _ w1) as [[w2 l1] tr1] eqn:E. intros [= <- <- <-] F V K.
    destruct (datagram_vouched _ _ _ _ _ _ _ _ log Ed V K) as (D1 & D2 & D3 & D4).
    set (x := mkEntry w (TcpId id) f o) in *. replace (log ++ x :: l1) with ((log ++ [x]) ++ l1) by (by rewrite <- app_assoc). rewrite <- D4.
    apply (IH _ _ _ _ _ _ _ E); [by apply fair_snoc|done|]. intros i. destruct r as [j|]; [intros [= <-]; by apply D3|]. intros Hi. apply good_mono; auto.
Qed.

Lemma foldr_stale l : forall w,
  let w' := foldr (fun id w => match conns w !! id with Some c => w |> set_conns (delete id (conns w)) |> tcp_closed id | None => w end) w l in
  (forall k id, by_addr w' !! k = Some id -> by_addr w !! k = Some id) /\ (forall i c, conns w' !! i = Some c -> conns w !! i = Some c) /\
  by_ufrag w' = by_ufrag w /\ trs w' = trs w /\ recv_cmds w' = recv_cmds w /\ closed w' = closed w /\ owed w' = owed w.
Proof.
  induction l as [|i l IH]; intros w; [done|]. cbn [foldr]. destruct (IH w) as (I1 & I2 & I3). set (w1 := foldr _ w l) in *. cbv zeta in *.
  destruct (conns w1 !! i) as [c|]; [|done]. simpl. split_and!; try apply I3.
  - intros k id. rewrite lookup_delete_Some. intros [_ H]. by apply I1.
  - intros j c0. rewrite lookup_delete_Some. intros [_ H]. by apply I2.
Qed.

Lemma push_cmd_frame c w : let w' := push_cmd c w in by_addr w' = by_addr w /\ conns w' = conns w /\ by_ufrag w' = by_ufrag w /\ trs w' = trs w /\ closed w' = closed w.
Proof. unfold push_cmd. by destruct (_ <? _)%nat. Qed.

(** The operations that take in no datagram. *)
Definition quiet (w w' : Rt) : Prop :=
  (forall k id, by_addr w' !! k = Some id -> by_addr w !! k = Some id) /\
  (forall i c id, conns w' !! i = Some c -> c_tr c = Some id -> exists c', conns w !! i = Some c' /\ c_tr c' = Some id).

Lemma quiet_same w w' : by_addr w' = by_addr w -> conns w' = conns w -> quiet w w'.
Proof. intros Ha Hc. split; rewrite ?Ha, ?Hc; eauto. Qed.

Lemma step_vouched o w w' l log : step o w = (w', l) -> fair log -> vouched log w -> fair (log ++ l) /\ vouched (log ++ l) w'.
Proof.
  intros E F V. assert (l = [] -> quiet w w' -> fair (log ++ l) /\ vouched (log ++ l) w') as Q.
  { intros -> [Q1 Q2]. rewrite app_nil_r. split; [done|]. rewrite <- (app_nil_r log). by eapply vouched_mono. }
  destruct o; cbn [Demux.step] in E.
  - destruct (datagram e (Udp a) data None w) as [[w1 o] r] eqn:Ed. injection E as <- <-.
    destruct (datagram_vouched _ _ _ _ _ _ _ _ log Ed V) as (D1 & D2 & D3 & D4); [done|]. split; [by apply fair_snoc|done].
  - injection E as <- <-. apply Q; [done|]. unfold tcp_accept. destruct ok; [|by apply quiet_same]. split; [done|].
    intros i c id. simpl. rewrite lookup_insert_Some. intros [[<- <-] | [_ H]]; [done|eauto].
  - unfold tcp_read in E. destruct (conns w !! id) as [c|] eqn:Hc; [|injection E as <- <-; apply Q; [done|by apply quiet_same]].
    destruct (Tcp.frames_in _) as [fs rest]. destruct (tcp_frames _ _ _ _ _ _ _ _ _) as [[w1 l1] tr] eqn:Et. injection E as <- <-.
    destruct (tcp_frames_vouched id fs _ _ _ _ _ _ log Et F V) as (D1 & D2 & D3 & D4); [intros i Hi; by apply (proj2 V id c i)|].
    split; [done|]. destruct D2 as [V1 V2].
    assert (vouched (log ++ l1) (set_conns (<[id := mkIn rest (opened c) tr]> (conns w1)) w1)) as V'.
    { split; [done|]. intros i c0 j. simpl. rewrite lookup_insert_Some. intros [[<- <-] | [_ H]]; [by apply D3|by apply V2]. }
    destruct fin; [|done]. destruct V' as [V1' V2']. unfold tcp_closed. split; simpl.
    + intros k j. rewrite lookup_delete_Some. intros [_ H]. by apply V1'.
    + intros i c0 j. rewrite lookup_delete_Some. intros [Hne H]. simpl in V2'. by apply (V2' i c0 j).
  - injection E as <- <-. apply Q; [done|]. unfold tcp_stale. destruct (foldr_stale (map fst (List.filter (fun ic => is_stale now0 ic.2) (map_to_list (conns w)))) w) as (S1 & S2 & _).
    split; [done|]. intros i c id Hi Hc. exists c. eauto.
  - injection E as <- <-. apply Q; [done|]. unfold pop_cmd. destruct (recv_cmds w) as [|c cs]; [by apply quiet_same|].
    destruct c; [by apply quiet_same| |by apply quiet_same]. split; [|simpl; eauto]. intros k id. simpl. rewrite map_lookup_filter_Some. by intros [? _].
  - injection E as <- <-. apply Q; [done|]. unfold control_send. destruct (trs w !! id); [|by apply quiet_same]. destruct (control_path _ _ _) as [k|]; [|by apply quiet_same].
    unfold reply. destruct (send_on_frame e k data w) as (S1 & S2 & _). destruct (send_on e k data w). by apply quiet_same.
  - injection E as <- <-. apply Q; [done|]. by apply quiet_same.
  - injection E as <- <-. apply Q; [done|]. unfold ice_restart. destruct (trs w !! id) as [t|]; [|by apply quiet_same]. by apply quiet_same.
  - injection E as <- <-. apply Q; [done|]. by apply quiet_same.
  - injection E as <- <-. apply Q; [done|]. unfold push_next. destruct (take_owed th (owed w)) as [[c l]|]; [|by apply quiet_same].
    destruct (push_cmd_frame c (set_owed l w)) as (S1 & S2 & _). by apply quiet_same.
  - injection E as <- <-. apply Q; [done|]. unfold liveness_tr. destruct (trs w !! id); [|by apply quiet_same]. destruct (liveness _ _ _). by apply quiet_same.
Qed.

Lemma run_vouched l : forall w w' es log, run l w = (w', es) -> fair log -> vouched log w -> fair (log ++ es) /\ vouched (log ++ es) w'.
Proof.
  induction l as [|o l IH]; intros w w' es log; cbn [Demux.run]; [intros [= <- <-]; by rewrite app_nil_r|].
  destruct (step o w) as [w1 e1] eqn:E1. destruct (run l w1) as [w2 e2] eqn:E2. intros [= <- <-] F V.
  destruct (step_vouched _ _ _ _ log E1 F V) as [F1 V1]. rewrite app_assoc. by apply (IH w1).
Qed.

(** ** The index of credentials *)

(** The index when the commands [q] have been carried out. *)
Definition after (q : list RecvCmd) w : gmap string Z := fold_left (fun m c => index_cmd c m) q (by_ufrag w).

Definition live w (id : Z) (t : Transport) : Prop := trs w !! id = Some t /\ id ∉ closed w.

(** For the commands [q] that are to come. *)
Record Ix (q : list RecvCmd) w : Prop := {
  x_settled : forall u id, after q w !! u = Some id <-> exists t, live w id t /\ u ∈ ufrags (creds t);
  x_unique : forall i j t t' u, trs w !! i = Some t -> trs w !! j = Some t' -> u ∈ ufrags (creds t) -> u ∈ ufrags (creds t') -> i = j;
  x_two : forall i t, trs w !! i = Some t -> NoDup (ufrags (creds t));
  x_once : forall l1 u j l2, q = l1 ++ Register u j :: l2 -> by_ufrag w !! u = None /\ forall j', Register u j' ∉ l2;
  x_order : forall i t p l1 j l2, trs w !! i = Some t -> pending (creds t) = Some p ->
    q = l1 ++ Register (ufrag (active (creds t))) j :: l2 -> exists j', Register (ufrag p) j' ∈ l2;
  x_gone : forall id, id ∈ closed w -> (forall u, by_ufrag w !! u = Some id -> Unregister id ∈ q) /\
    (forall k, by_addr w !! k = Some id -> Unregister id ∈ q) /\
    (forall l1 u l2, q = l1 ++ Register u id :: l2 -> Unregister id ∈ l2);
  x_own : forall u i k t, Register u i ∈ q -> trs w !! k = Some t -> u ∈ ufrags (creds t) -> k = i }.

Lemma snoc_split {A} (l l1 l2 : list A) c x : l ++ [c] = l1 ++ x :: l2 -> (l2 = [] /\ x = c /\ l1 = l) \/ exists l3, l2 = l3 ++ [c] /\ l = l1 ++ x :: l3.
Proof.
  destruct l2 as [|y l2 _] using rev_ind; intros E.
  - apply app_inj_tail in E as [-> ->]. by left.
  - rewrite app_comm_cons, app_assoc in E. apply app_inj_tail in E as [-> ->]. right. by exists l2.
Qed.

Lemma after_push c q w w' : by_ufrag w' = by_ufrag w -> after (q ++ [c]) w' = index_cmd c (after q w).
Proof. intros H. unfold after. by rewrite fold_left_app, H. Qed.

(** A credential nobody has or had. *)
Definition fresh_ufrag (u : string) (q : list RecvCmd) w : Prop :=
  (forall i t, trs w !! i = Some t -> u ∉ ufrags (creds t)) /\ by_ufrag w !! u = None /\ (forall j, Register u j ∉ q) /\ DropUfrag u ∉ q.

(** What changes neither credentials nor queue. *)
Lemma ix_same q w w' : Ix q w -> (forall i, creds <$> trs w' !! i = creds <$> trs w !! i) -> closed w' = closed w -> by_ufrag w' = by_ufrag w ->
  (forall k id, by_addr w' !! k = Some id -> by_addr w !! k = Some id \/ exists u, by_ufrag w !! u = Some id) -> Ix q w'.
Proof.
  intros [S U T O R G X] HT HC HB HA.
  assert (forall i t, trs w' !! i = Some t -> exists t', trs w !! i = Some t' /\ creds t' = creds t) as F.
  { intros i t Hi. specialize (HT i). rewrite Hi in HT. symmetry in HT. apply fmap_Some in HT as (t' & ? & ?). by exists t'. }
  assert (forall i t, trs w !! i = Some t -> exists t', trs w' !! i = Some t' /\ creds t' = creds t) as F'.
  { intros i t Hi. specialize (HT i). rewrite Hi in HT. apply fmap_Some in HT as (t' & ? & ?). by exists t'. }
  split; rewrite ?HC, ?HB.
  - intros u id. unfold after. rewrite HB. fold (after q w). rewrite S. unfold live. rewrite HC. split; intros (t & (Ht & Hc) & Hu).
    + destruct (F' _ _ Ht) as (t' & ? & E). exists t'. by rewrite E.
    + destruct (F _ _ Ht) as (t' & ? & E). exists t'. by rewrite E.
  - intros i j t t' u Hi Hj Hu Hu'. destruct (F _ _ Hi) as (a & Ha & Ea), (F _ _ Hj) as (b & Hb & Eb). rewrite <- Ea in Hu. rewrite <- Eb in Hu'. by eapply U.
  - intros i t Hi. destruct (F _ _ Hi) as (a & Ha & <-). by eapply T.
  - done.
  - intros i t p l1 j l2 Hi. destruct (F _ _ Hi) as (a & Ha & <-). by eapply R.
  - intros id Hid. destruct (G id Hid) as (G1 & G2 & G3). split_and!; [done| |done]. intros k Hk. destruct (HA k id Hk) as [H | [u H]]; eauto.
  - intros u i k t Hq Hk. destruct (F _ _ Hk) as (a & Ha & <-). by eapply X.
Qed.

Lemma ix_new id c wk now q w : Ix q w -> trs w !! id = None -> id ∉ closed w -> fresh_ufrag (ufrag c) q w ->
  Ix (q ++ [Register (ufrag c) id]) (set_trs (<[id := new_transport c wk now]> (trs w)) w).
Proof.
  intros [S U T O R G X] Hid Hcl (Fu & Fb & Fq & _). set (w1 := set_trs _ w).
  assert (forall i t, trs w1 !! i = Some t -> i = id /\ t = new_transport c wk now \/ i <> id /\ trs w !! i = Some t) as F.
  { intros i t. unfold w1; simpl. rewrite lookup_insert_Some. intros [[<- <-] | [? ?]]; [by left|by right]. }
  split; cbn [by_ufrag by_addr closed w1 set_trs].
  - intros u i. rewrite (after_push _ q w) by done. cbn [index_cmd]. rewrite lookup_insert_Some, S. split.
    + intros [[<- <-] | [Hne (t & [Ht Hc] & Hu)]].
      * exists (new_transport c wk now). split; [split; [apply lookup_insert_eq|done]|left].
      * exists t. split; [split; [|done]|done]. simpl. rewrite lookup_insert_ne; [done|]. intros <-. congruence.
    + intros (t & [Ht Hc] & Hu). apply F in Ht as [[-> ->] | [Hne Ht]].
      * left. split; [|done]. simpl in Hu. set_solver.
      * right. split; [|by exists t]. intros <-. by apply (Fu i t).
  - intros i j t t' u Hi Hj Hu Hu'. apply F in Hi as [[-> ->] | [Hi1 Hi]], Hj as [[-> ->] | [Hj1 Hj]]; try done; [| |by eapply U].
    + assert (u = ufrag c) as -> by (simpl in Hu; set_solver). by destruct (Fu _ _ Hj).
    + assert (u = ufrag c) as -> by (simpl in Hu'; set_solver). by destruct (Fu _ _ Hi).
  - intros i t Hi. apply F in Hi as [[-> ->] | [_ Hi]]; [apply NoDup_singleton|by eapply T].
  - intros l1 u j l2 E. apply snoc_split in E as [(-> & [= -> ->] & _) | (l3 & -> & E)]; [split; [done|intros ?; apply not_elem_of_nil]|].
    destruct (O _ _ _ _ E) as [O1 O2]. split; [done|]. intros j'. rewrite elem_of_app, list_elem_of_singleton. intros [H | [= -> ->]]; [by apply (O2 j')|].
    apply (Fq j). rewrite E, elem_of_app. right. left.
  - intros i t p l1 j l2 Hi Hp E. apply F in Hi as [[-> ->] | [Hne Hi]]; [done|].
    apply snoc_split in E as [(-> & [= E1 ->] & _) | (l3 & -> & E)].
    + destruct (Fu _ _ Hi). unfold ufrags. rewrite E1. left.
    + destruct (R _ _ _ _ _ _ Hi Hp E) as (j' & ?). exists j'. rewrite elem_of_app. by left.
  - intros i Hi. destruct (G i Hi) as (G1 & G2 & G3). split_and!.
    + intros u Hu. rewrite elem_of_app. left. by eapply G1.
    + intros k Hk. rewrite elem_of_app. left. by eapply G2.
    + intros l1 u l2 E. apply snoc_split in E as [(-> & [= _ ->] & _) | (l3 & -> & E)]; [done|]. rewrite elem_of_app. left. by eapply G3.
  - intros u i k t. rewrite elem_of_app, list_elem_of_singleton. intros Hq Hk Hu. apply F in Hk as [[-> ->] | [Hne Hk]].
    + destruct Hq as [Hq|[= _ ->]]; [|done]. simpl in Hu. assert (u = ufrag c) as -> by set_solver. by destruct (Fq i).
    + destruct Hq as [Hq|[= -> ->]]; [by eapply X|]. by destruct (Fu _ _ Hk).
Qed.

Lemma ix_reap id q w : Ix q w -> Ix (q ++ [Unregister id]) (set_closed ({[id]} ∪ closed w) w).
Proof.
  intros [S U T O R G X]. set (w1 := set_closed _ w).
  split; cbn [by_ufrag by_addr closed trs set_closed w1].
  - intros u i. rewrite (after_push _ q w) by done. cbn [index_cmd]. rewrite map_lookup_filter_Some, S. unfold live; simpl. split.
    + intros [(t & [Ht Hc] & Hu) Hne]. exists t. split_and!; try done. set_solver.
    + intros (t & [Ht Hc] & Hu). split; [exists t; split_and!; try done; set_solver|]. set_solver.
  - done.
  - done.
  - intros l1 u j l2 E. apply snoc_split in E as [(-> & [=] & _) | (l3 & -> & E)]. destruct (O _ _ _ _ E) as [O1 O2]. split; [done|].
    intros j'. rewrite elem_of_app, list_elem_of_singleton. intros [H | [=]]. by apply (O2 j').
  - intros i t p l1 j l2 Hi Hp E. apply snoc_split in E as [(-> & [=] & _) | (l3 & -> & E)]. destruct (R _ _ _ _ _ _ Hi Hp E) as (j' & ?). exists j'. rewrite elem_of_app. by left.
  - intros i Hi. destruct (decide (i = id)) as [->|Hne].
    + split_and!; intros; try (rewrite elem_of_app; right; by left). apply snoc_split in H as [(-> & [=] & _) | (l3 & -> & E)]. rewrite elem_of_app; right; by left.
    + destruct (G i ltac:(set_solver)) as (G1 & G2 & G3). split_and!.
      * intros u Hu. rewrite elem_of_app. left. by eapply G1.
      * intros k Hk. rewrite elem_of_app. left. by eapply G2.
      * intros l1 u l2 E. apply snoc_split in E as [(-> & [=] & _) | (l3 & -> & E)]. rewrite elem_of_app. left. by eapply G3.
  - intros u i k t. rewrite elem_of_app, list_elem_of_singleton. intros [Hq|[=]]. by apply X.
Qed.

Lemma ix_pop c cs q w : Ix (c :: q) w -> recv_cmds w = c :: cs -> Ix q (pop_cmd w).
Proof.
  intros HI Q. unfold pop_cmd. rewrite Q. destruct HI as [S U T O R G X].
  set (w1 := set_by_ufrag _ _). set (w2 := match c with Register _ _ => _ | _ => _ end).
  assert (after q w2 = after (c :: q) w) as ES by (unfold after, w2, w1; by destruct c).
  assert (trs w2 = trs w /\ closed w2 = closed w /\ by_ufrag w2 = index_cmd c (by_ufrag w)) as (E1 & E2 & E4) by (unfold w2, w1; by destruct c).
  split; rewrite ?E1, ?E2, ?E4.
  - intros u i. rewrite ES, S. unfold live. by rewrite E1, E2.
  - done.
  - done.
  - intros l1 u j l2 E. destruct (O (c :: l1) u j l2) as [O1 O2]; [by rewrite E|]. split; [|done]. destruct c as [v i|i|v]; simpl.
    + rewrite lookup_insert_ne; [done|]. intros ->. destruct (O [] u i q eq_refl) as [_ O3]. apply (O3 j). rewrite E, elem_of_app. right; left.
    + apply map_lookup_filter_None. by left.
    + rewrite lookup_delete_None. by right.
  - intros i t p l1 j l2 Hi Hp E. apply (R i t p (c :: l1) j l2); try done. by rewrite E.
  - intros i Hi. destruct (G i Hi) as (G1 & G2 & G3). split_and!.
    + intros u. destruct c as [v i'|i'|v]; simpl.
      * rewrite lookup_insert_Some. intros [[<- <-] | [_ H]]; [by apply (G3 [] v)|]. specialize (G1 u H). by apply elem_of_cons in G1 as [[=] | ?].
      * rewrite map_lookup_filter_Some. intros [H Hne]. specialize (G1 u H). by apply elem_of_cons in G1 as [[= ->] | ?].
      * rewrite lookup_delete_Some. intros [_ H]. specialize (G1 u H). by apply elem_of_cons in G1 as [[=] | ?].
    + intros k. destruct c as [v i'|i'|v]; simpl.
      * intros H. specialize (G2 k H). by apply elem_of_cons in G2 as [[=] | ?].
      * rewrite map_lookup_filter_Some. intros [H Hne]. specialize (G2 k H). by apply elem_of_cons in G2 as [[= ->] | ?].
      * intros H. specialize (G2 k H). by apply elem_of_cons in G2 as [[=] | ?].
    + intros l1 u l2 E. apply (G3 (c :: l1) u). by rewrite E.
  - intros u i k t Hq. apply X. by right.
Qed.

Lemma restart_split (l D l1 l2 : list RecvCmd) c u j : (forall v i, Register v i ∉ D) -> l ++ D ++ [c] = l1 ++ Register u j :: l2 ->
  (c = Register u j /\ l2 = []) \/ exists l4, l = l1 ++ Register u j :: l4 /\ l2 = l4 ++ D ++ [c].
Proof.
  intros HD. rewrite app_assoc. intros E. apply snoc_split in E as [(-> & <- & _) | (l3 & -> & E)]; [by left|]. right.
  revert l3 E. induction D as [|d D IH] using rev_ind; intros l3 E.
  - rewrite app_nil_r in E. by exists l3.
  - rewrite app_assoc in E. apply snoc_split in E as [(-> & <- & _) | (l5 & -> & E)].
    + destruct (HD u j). rewrite elem_of_app. right; left.
    + destruct (IH (fun v i H => HD v i ltac:(rewrite elem_of_app; by left)) l5 E) as (l4 & -> & E4). exists l4. split; [done|].
      rewrite !app_assoc in E4. apply app_inj_tail in E4 as [-> _]. by rewrite <- !app_assoc.
Qed.

Lemma ix_restart id next t q w : Ix q w -> trs w !! id = Some t -> id ∉ closed w -> fresh_ufrag (ufrag next) q w ->
  Ix (q ++ match pending (creds t) with Some o => [DropUfrag (ufrag o)] | None => [] end ++ [Register (ufrag next) id])
    (set_trs (<[id := set_creds (mkCreds (active (creds t)) (Some next)) t]> (trs w)) w).
Proof.
  intros HI Ht Hcl (Fu & Fb & Fq & _). pose proof HI as [S U T O R G X].
  set (t' := set_creds (mkCreds (active (creds t)) (Some next)) t). set (D := match pending (creds t) with Some o => [DropUfrag (ufrag o)] | None => [] end).
  assert (forall v i, Register v i ∉ D) as HD by (unfold D; intros v i; destruct (pending (creds t)); set_solver).
  set (w' := set_trs _ w).
  assert (after (q ++ D ++ [Register (ufrag next) id]) w' = <[ufrag next := id]> (match pending (creds t) with Some o => delete (ufrag o) (after q w) | None => after q w end)) as ES.
  { unfold after, w', D. simpl. rewrite !fold_left_app. by destruct (pending (creds t)). }
  assert (forall i x, trs w' !! i = Some x -> i = id /\ x = t' \/ i <> id /\ trs w !! i = Some x) as F.
  { intros i x. unfold w'; simpl. rewrite lookup_insert_Some. intros [[<- <-] | [? ?]]; [by left|by right]. }
  assert (forall u, u ∈ ufrags (creds t') -> u = ufrag next \/ u = ufrag (active (creds t))) as Fn by (unfold ufrags, t'; simpl; set_solver).
  assert (ufrag (active (creds t)) ∈ ufrags (creds t)) as Ha by (unfold ufrags; left).
  assert (ufrag (active (creds t)) <> ufrag next) as Hne by (intros E; apply (Fu _ _ Ht); by rewrite <- E).
  split.
  - intros u i. rewrite ES, lookup_insert_Some. split.
    + intros [[<- <-] | [Hn Hs]]; [exists t'; split; [split; [apply lookup_insert_eq|done]|unfold ufrags, t'; simpl; set_solver]|].
      assert (after q w !! u = Some i /\ (forall o, pending (creds t) = Some o -> u <> ufrag o)) as [Hs' Hp'].
      { destruct (pending (creds t)) as [o|]; [rewrite lookup_delete_Some in Hs; destruct Hs as [Hs1 Hs2]; split; [done|]; intros ? [= <-]; done|by split]. }
      apply S in Hs' as (x & [Hx Hc] & Hu). destruct (decide (i = id)) as [->|Hi].
      * assert (x = t) as -> by congruence. exists t'. split; [split; [apply lookup_insert_eq|done]|]. unfold ufrags in *. simpl.
        destruct (pending (creds t)) as [o|]; [specialize (Hp' o eq_refl)|]; set_solver.
      * exists x. split; [split; [|done]|done]. unfold w'; simpl. by rewrite lookup_insert_ne.
    + intros (x & [Hx Hc] & Hu). apply F in Hx as [[-> ->] | [Hi Hx]].
      * apply Fn in Hu as [->| ->]; [by left|]. right. split; [done|].
        assert (after q w !! ufrag (active (creds t)) = Some id) as Hs by (apply S; by exists t). destruct (pending (creds t)) as [o|] eqn:Ho; [|done].
        rewrite lookup_delete_ne; [done|]. pose proof (T _ _ Ht) as Hnd. unfold ufrags in Hnd. rewrite Ho in Hnd. apply NoDup_cons in Hnd as [Hnd _]. set_solver.
      * right. split; [intros <-; by apply (Fu _ _ Hx)|]. assert (after q w !! u = Some i) as Hs by (apply S; by exists x). destruct (pending (creds t)) as [o|] eqn:Ho; [|done].
        rewrite lookup_delete_ne; [done|]. intros <-. apply Hi. eapply (U i id x t); try done. unfold ufrags. rewrite Ho. set_solver.
  - intros i j x y u Hi Hj Hu Hu'. apply F in Hi as [[-> ->] | [Hi1 Hi]], Hj as [[-> ->] | [Hj1 Hj]]; try done; [| |by eapply U].
    + apply Fn in Hu as [->| ->]; [by destruct (Fu _ _ Hj)|]. by eapply (U id j t y).
    + apply Fn in Hu' as [->| ->]; [by destruct (Fu _ _ Hi)|]. by eapply (U i id x t).
  - intros i x Hi. apply F in Hi as [[-> ->] | [_ Hi]]; [|by eapply T]. unfold ufrags, t'; simpl. apply NoDup_cons. split; [set_solver|apply NoDup_singleton].
  - intros l1 u j l2 E. apply (restart_split _ _ _ _ _ _ _ HD) in E as [[[= <- <-] ->] | (l4 & E & ->)]; [split; [done|intros ?; apply not_elem_of_nil]|].
    destruct (O _ _ _ _ E) as [O1 O2]. split; [done|]. intros j'. rewrite !elem_of_app, list_elem_of_singleton. intros [H | [H | [= -> ->]]]; [by apply (O2 j')|by apply (HD u j')|].
    apply (Fq j). rewrite E, elem_of_app. right; left.
  - intros i x p l1 j l2 Hi Hp E. apply (restart_split _ _ _ _ _ _ _ HD) in E as [[[= E1 _] ->] | (l4 & E & ->)].
    + apply F in Hi as [[-> ->] | [_ Hi]]; [by destruct Hne|]. destruct (Fu _ _ Hi). unfold ufrags. rewrite E1. left.
    + apply F in Hi as [[-> ->] | [_ Hi]].
      * injection Hp as <-. exists id. rewrite !elem_of_app. right; right; left.
      * destruct (R _ _ _ _ _ _ Hi Hp E) as (j' & ?). exists j'. rewrite elem_of_app. by left.
  - intros i Hi. destruct (G i Hi) as (G1 & G2 & G3). split_and!.
    + intros u Hu. rewrite elem_of_app. left. by eapply G1.
    + intros k Hk. rewrite elem_of_app. left. by eapply G2.
    + intros l1 u l2 E. apply (restart_split _ _ _ _ _ _ _ HD) in E as [[[= _ <-] ->] | (l4 & E & ->)]; [done|]. rewrite elem_of_app. left. by eapply G3.
  - intros u i k x. rewrite !elem_of_app, list_elem_of_singleton. intros Hq Hk Hu.
    assert (Register u i ∈ q \/ u = ufrag next /\ i = id) as [Hq'|[-> ->]] by (destruct Hq as [?|[Hx|[= -> ->]]]; [by left|by destruct (HD u i)|by right]).
    + apply F in Hk as [[-> ->] | [_ Hk]]; [|by eapply X]. apply Fn in Hu as [->| ->]; [by destruct (Fq i)|]. by apply (X _ _ _ _ Hq' Ht).
    + apply F in Hk as [[-> _] | [_ Hk]]; [done|]. by destruct (Fu _ _ Hk).
Qed.

Lemma index_delete a l : (forall j, Register a j ∉ l) -> forall m, fold_left (fun m c => index_cmd c m) l (delete a m) = delete a (fold_left (fun m c => index_cmd c m) l m).
Proof.
  induction l as [|c l IH]; intros Ha m; [done|]. simpl. rewrite <- IH by (intros j H; apply (Ha j); by right). f_equal. destruct c as [u i|i|u]; simpl.
  - rewrite delete_insert_ne; [done|]. intros ->. apply (Ha i). left.
  - by rewrite map_filter_delete.
  - apply delete_delete.
Qed.

(** The waiting credential takes the place of the other. *)
Lemma ix_promote id t p t' q w : Ix q w -> trs w !! id = Some t -> pending (creds t) = Some p -> by_ufrag w !! ufrag p = Some id -> creds t' = mkCreds p None ->
  Ix q (set_trs (<[id := t']> (trs w)) (set_by_ufrag (delete (ufrag (active (creds t))) (by_ufrag w)) w)).
Proof.
  intros [S U T O R G X] Ht Hp Hb Hc'. set (a := ufrag (active (creds t))). set (w' := set_trs _ _).
  assert (forall j, Register a j ∉ q) as N.
  { intros j H. apply list_elem_of_split in H as (l1 & l2 & E). destruct (R _ _ _ _ _ _ Ht Hp E) as (j' & H'). apply list_elem_of_split in H' as (l3 & l4 & ->).
    destruct (O (l1 ++ Register a j :: l3) (ufrag p) j' l4) as [O1 _]; [by rewrite E, <- app_assoc|]. congruence. }
  assert (after q w' = delete a (after q w)) as ES by (by apply index_delete).
  assert (forall i x, trs w' !! i = Some x -> i = id /\ x = t' \/ i <> id /\ trs w !! i = Some x) as F.
  { intros i x. unfold w'; simpl. rewrite lookup_insert_Some. intros [[<- <-] | [? ?]]; [by left|by right]. }
  assert (ufrags (creds t) = [a; ufrag p]) as Eu by (unfold ufrags; by rewrite Hp).
  assert (ufrags (creds t') = [ufrag p]) as Eu' by (unfold ufrags; by rewrite Hc').
  assert (a <> ufrag p) as Hne by (pose proof (T _ _ Ht) as Hnd; rewrite Eu in Hnd; apply NoDup_cons in Hnd as [Hnd _]; set_solver).
  split.
  - intros u i. rewrite ES, lookup_delete_Some, S. split.
    + intros [Hu (x & [Hx Hc] & Hin)]. destruct (decide (i = id)) as [->|Hi].
      * exists t'. split; [split; [apply lookup_insert_eq|done]|]. assert (x = t) as -> by congruence. rewrite Eu in Hin. rewrite Eu'. set_solver.
      * exists x. split; [split; [|done]|done]. unfold w'; simpl. by rewrite lookup_insert_ne.
    + intros (x & [Hx Hc] & Hin). apply F in Hx as [[-> ->] | [Hi Hx]].
      * rewrite Eu' in Hin. assert (u = ufrag p) as -> by set_solver. split; [done|]. exists t. split; [done|]. rewrite Eu. set_solver.
      * split; [|by exists x]. intros <-. apply Hi. eapply (U i id x t); try done. rewrite Eu. set_solver.
  - assert (forall i x u, trs w' !! i = Some x -> u ∈ ufrags (creds x) -> exists y, trs w !! i = Some y /\ u ∈ ufrags (creds y)) as K.
    { intros i x u Hx Hu. apply F in Hx as [[-> ->] | [_ Hx]]; [|by exists x]. exists t. split; [done|]. rewrite Eu' in Hu. rewrite Eu. set_solver. }
    intros i j x y u Hi Hj Hu Hu'. destruct (K _ _ _ Hi Hu) as (x' & ? & ?), (K _ _ _ Hj Hu') as (y' & ? & ?). by eapply U.
  - intros i x Hi. apply F in Hi as [[-> ->] | [_ Hi]]; [rewrite Eu'; apply NoDup_singleton|by eapply T].
  - intros l1 u j l2 E. destruct (O _ _ _ _ E) as [O1 O2]. split; [|done]. unfold w'; simpl. apply lookup_delete_None. by right.
  - intros i x p0 l1 j l2 Hi Hq E. apply F in Hi as [[-> ->] | [_ Hi]]; [by rewrite Hc' in Hq|]. by eapply R.
  - intros i Hi. destruct (G i Hi) as (G1 & G2 & G3). split_and!; [|done|done]. intros u. unfold w'; simpl. rewrite lookup_delete_Some. intros [_ H]. by eapply G1.
  - intros u i k x Hq Hk Hu. apply F in Hk as [[-> ->] | [_ Hk]]; [|by eapply X]. apply (X _ _ _ _ Hq Ht). rewrite Eu' in Hu. rewrite Eu. set_solver.
Qed.

Lemma creds_state s n t : creds (set_state s n t).1 = creds t.
Proof. unfold set_state. by destruct (decide _). Qed.

Lemma creds_insert id t t' w i : trs w !! id = Some t -> creds t' = creds t -> creds <$> <[id := t']> (trs w) !! i = creds <$> trs w !! i.
Proof. intros Ht E. destruct (decide (i = id)) as [->|H]; [by rewrite lookup_insert_eq, Ht; simpl; rewrite E|by rewrite lookup_insert_ne]. Qed.

Lemma ix_accept e k b id t q w : Ix q w -> by_ufrag w !! Stun.local_ufrag b = Some id -> trs w !! id = Some t -> Ix q (accept e k b id t w).1.
Proof.
  intros HI Hb Ht. unfold accept. destruct (checked (Stun.local_ufrag b) (creds (touch_pair k (now e) t))) as [c ch] eqn:Ec.
  change (creds (touch_pair k (now e) t)) with (creds t) in Ec. set (w0 := set_by_addr _ w). cbv zeta.
  destruct (if Stun.use_candidate b then _ else _) as [t4 o4] eqn:E4.
  assert (creds t4 = c) as Hc4.
  { destruct (Stun.use_candidate b); [|by injection E4 as <- _]. pose proof (creds_state Alive (now e) (set_path (Some k) (set_creds c (touch_pair k (now e) t)))) as H.
    destruct (set_state _ _ _) as [t5 from]. injection E4 as <- _. exact H. }
  assert (forall k0 i, by_addr w0 !! k0 = Some i -> by_addr w !! k0 = Some i \/ exists u, by_ufrag w !! u = Some i) as HA.
  { intros k0 i. unfold w0; simpl. rewrite lookup_insert_Some. intros [[_ <-] | [_ H]]; eauto. }
  unfold checked in Ec. destruct (pending (creds t)) as [p|] eqn:Hp; [destruct (String.eqb_spec (ufrag p) (Stun.local_ufrag b)) as [Eu|]|]; injection Ec as <- <-; cbn [fst].
  2,3: apply (ix_same q w); try done; intros i; exact (creds_insert id t t4 w i Ht Hc4).
  pose proof (ix_promote id t p t4 q w HI Ht Hp ltac:(by rewrite Eu) Hc4) as HP.
  apply (ix_same q _ _ HP); try done. intros k0 i H. destruct (HA k0 i H) as [?|H']; [by left|].
  unfold w0 in H; simpl in H. apply lookup_insert_Some in H as [[_ <-] | [_ H]]; [|by left]. right. exists (ufrag p). simpl.
  rewrite lookup_delete_ne; [by rewrite Eu|]. pose proof (x_two _ _ HI _ _ Ht) as Hnd. unfold ufrags in Hnd. rewrite Hp in Hnd. apply NoDup_cons in Hnd as [Hnd _]. set_solver.
Qed.

Lemma ix_reply e k data q w : Ix q w -> Ix q (reply e k data w).1.
Proof.
  intros HI. unfold reply. destruct (send_on_frame e k data w) as (A & _ & B & C & D & E & _). destruct (send_on e k data w) as [w' ok]. simpl in *.
  apply (ix_same q w); try done; [by rewrite C|]. intros k0 id. rewrite A. by left.
Qed.

Lemma ix_datagram e k data known q w : Ix q w -> Ix q (datagram e k data known w).1.1.
Proof.
  intros HI. unfold Demux.datagram. destruct data as [|x data]; [done|]. set (d := x :: data). cbv zeta. destruct (bz x <=? 3).
  - unfold stun_in. destruct (Stun.parse d) as [b|]; [|done]. destruct (by_ufrag w !! _) as [id|] eqn:Hb; [|done]. destruct (trs w !! id) as [t|] eqn:Ht; [|done].
    destruct (pwd_of _ _); [|done]. destruct (Stun.verify _ _ _ _); [|done]. pose proof (ix_accept e k b id t q w HI Hb Ht) as H1.
    destruct (accept e k b id t w) as [w1 o1]. match goal with |- context [reply e k ?m w1] => pose proof (ix_reply e k m q w1 H1) as H2; destruct (reply e k m w1) as [w2 o2] end. exact H2.
  - destruct (_ && _); [by destruct (match by_addr w !! k with Some _ => _ | None => _ end)|]. destruct (_ && _); [|done]. destruct (by_addr w !! k); [|done]. by destruct (_ <? _).
Qed.

Lemma ix_frames id fs q : forall env tr w, Ix q w -> Ix q (tcp_frames hmac crc32 local workers env id fs tr w).1.1.
Proof.
  induction fs as [|f fs IH]; intros env tr w HI; cbn [tcp_frames]; [done|]. destruct (MAX_DATAGRAM <? len f).
  - specialize (IH (fun n => env (S n)) tr w HI). by destruct (tcp_frames _ _ _ _ _ _ _ _ _) as [[? ?] ?].
  - pose proof (ix_datagram (env O) (TcpId id) f tr q w HI) as H1. destruct (datagram (env O) (TcpId id) f tr w) as [[w1 o] r]. simpl in H1.
    specialize (IH (fun n => env (S n)) (match r with Some _ => r | None => tr end) w1 H1). by destruct (tcp_frames _ _ _ _ _ _ _ _ _) as [[? ?] ?].
Qed.

(** *** Commands that can change places *)

Definition indep (a b : RecvCmd) : Prop :=
  match a, b with
  | Register u i, Register v j => u <> v /\ i <> j
  | Register u _, DropUfrag v | DropUfrag v, Register u _ => u <> v
  | Register _ i, Unregister j | Unregister j, Register _ i => i <> j
  | _, _ => True
  end.

Lemma indep_sym a b : indep a b -> indep b a.
Proof. destruct a, b; simpl; try done. by intros [? ?]. Qed.

Lemma index_swap a b m : indep a b -> index_cmd b (index_cmd a m) = index_cmd a (index_cmd b m).
Proof.
  destruct a as [u i|i|u], b as [v j|j|v]; simpl; intros H.
  - by rewrite insert_insert_ne by (intros ->; tauto).
  - rewrite map_filter_insert_True; [done|]. simpl. congruence.
  - by rewrite delete_insert_ne by congruence.
  - rewrite map_filter_insert_True; [done|]. simpl. congruence.
  - rewrite !map_filter_filter. apply map_filter_ext. simpl. naive_solver.
  - by rewrite map_filter_delete.
  - by rewrite delete_insert_ne by congruence.
  - by rewrite map_filter_delete.
  - apply delete_delete.
Qed.

Lemma split_swap {A} (x c a b : A) : forall l1 m1 m2 l2, l1 ++ b :: a :: l2 = m1 ++ c :: m2 ->
  (c = b /\ m1 = l1 /\ m2 = a :: l2) \/ (c = a /\ m1 = l1 ++ [b] /\ m2 = l2) \/ (exists m, m1 = l1 ++ b :: a :: m /\ l2 = m ++ c :: m2) \/ exists m, l1 = m1 ++ c :: m /\ m2 = m ++ b :: a :: l2.
Proof.
  induction l1 as [|y l1 IH]; intros m1 m2 l2 E; simpl in *.
  - destruct m1 as [|z m1]; simpl in E; injection E as -> E; [by left|]. destruct m1 as [|z' m1]; simpl in E; injection E as -> E; [right; left; by subst|]. right. right. left. by exists m1.
  - destruct m1 as [|z m1]; simpl in E; injection E as -> E; [right; right; right; by exists l1|].
    destruct (IH m1 m2 l2 E) as [(-> & -> & ->)|[(-> & -> & ->)|[(m & -> & ->)|(m & -> & ->)]]]; [by left|by right; left|right; right; left; by exists m|right; right; right; by exists m].
Qed.

Lemma ix_swap l1 a b l2 w : Ix (l1 ++ a :: b :: l2) w -> indep a b -> Ix (l1 ++ b :: a :: l2) w.
Proof.
  intros [S U T O R G X] H. assert (forall c, c ∈ l1 ++ b :: a :: l2 <-> c ∈ l1 ++ a :: b :: l2) as Hin by (intros c; set_solver). split.
  - intros u id. rewrite <- S. unfold after. rewrite !fold_left_app. simpl. by rewrite (index_swap a b).
  - done.
  - done.
  - intros m1 u j m2 E. apply (split_swap a) in E as [(<- & -> & ->)|[(<- & -> & ->)|[(m & -> & ->)|(m & -> & ->)]]].
    + destruct (O (l1 ++ [a]) u j l2) as [O1 O2]; [by rewrite <- app_assoc|]. split; [done|]. intros j'. rewrite elem_of_cons. intros [<-|?]; [|by apply (O2 j')]. by destruct H.
    + destruct (O l1 u j (b :: l2) eq_refl) as [O1 O2]. split; [done|]. intros j' Hj. apply (O2 j'). by right.
    + destruct (O (l1 ++ a :: b :: m) u j m2) as [O1 O2]; [by rewrite <- app_assoc|]. done.
    + destruct (O m1 u j (m ++ a :: b :: l2)) as [O1 O2]; [by rewrite <- app_assoc|]. split; [done|]. intros j' Hj. apply (O2 j'). set_solver.
  - intros i t p m1 j m2 Hi Hp E. apply (split_swap a) in E as [(<- & -> & ->)|[(<- & -> & ->)|[(m & -> & ->)|(m & -> & ->)]]].
    + destruct (R i t p (l1 ++ [a]) j l2 Hi Hp) as (j' & Hj); [by rewrite <- app_assoc|]. exists j'. by right.
    + destruct (R i t p l1 j (b :: l2) Hi Hp eq_refl) as (j' & Hj). exists j'. apply elem_of_cons in Hj as [<-|Hj]; [|done]. exfalso. destruct H as [_ H]. apply H.
      transitivity i; [symmetry; eapply (X _ j i t); [|done|unfold ufrags; left]|eapply (X _ j' i t); [|done|unfold ufrags; rewrite Hp; right; left]]; set_solver.
    + apply (R i t p (l1 ++ a :: b :: m) j m2 Hi Hp). by rewrite <- app_assoc.
    + destruct (R i t p m1 j (m ++ a :: b :: l2) Hi Hp) as (j' & Hj); [by rewrite <- app_assoc|]. exists j'. set_solver.
  - intros id Hid. destruct (G id Hid) as (G1 & G2 & G3). split_and!; [intros u Hu; apply Hin; by eapply G1|intros k Hk; apply Hin; by eapply G2|].
    intros m1 u m2 E. apply (split_swap a) in E as [(<- & -> & ->)|[(<- & -> & ->)|[(m & -> & ->)|(m & -> & ->)]]].
    + right. apply (G3 (l1 ++ [a]) u). by rewrite <- app_assoc.
    + specialize (G3 l1 u (b :: l2) eq_refl). apply elem_of_cons in G3 as [<-|?]; [by destruct H|done].
    + apply (G3 (l1 ++ a :: b :: m) u). by rewrite <- app_assoc.
    + specialize (G3 m1 u (m ++ a :: b :: l2)). rewrite <- app_assoc in G3. specialize (G3 eq_refl). set_solver.
  - intros u i k t Hq. apply X. by apply Hin.
Qed.

Lemma ix_forward p : forall r c q w, Ix (r ++ p ++ c :: q) w -> (forall a, a ∈ p -> indep a c) -> Ix (r ++ c :: p ++ q) w.
Proof.
  induction p as [|a p IH] using rev_ind; intros r c q w H Hp; [done|]. rewrite <- app_assoc in H. simpl in H. rewrite app_assoc in H. apply ix_swap in H; [|apply Hp; set_solver].
  rewrite <- app_assoc in H. rewrite <- app_assoc. apply (IH r c (a :: q)); [done|]. intros x Hx. apply Hp. set_solver.
Qed.

(** *** What the threads owe *)

Definition to_come w : list RecvCmd := recv_cmds w ++ map cmd (owed w).

(** The index when the commands in the ring and those still to be pushed have been carried out. *)
Definition settled w : gmap string Z := after (to_come w) w.

Definition own_cmd (x : Owed) : Prop := match cmd x with Register _ j => j = about x | Unregister j => j = about x | DropUfrag _ => True end.

Record Ow w : Prop := {
  w_one : forall x y, x ∈ owed w -> y ∈ owed w -> thread x <> thread y -> about x <> about y;
  w_indep : forall x y, x ∈ owed w -> y ∈ owed w -> about x <> about y -> indep (cmd x) (cmd y);
  w_own : forall x, x ∈ owed w -> own_cmd x }.

(** Nobody has a command about the transport still to push. *)
Definition idle (id : Z) w : Prop := forall x, x ∈ owed w -> about x <> id.

Lemma ow_owe th id cs w w' : Ow w -> idle id w -> owed w' = owed w ++ map (mkOwed th id) cs ->
  (forall c, c ∈ cs -> own_cmd (mkOwed th id c)) -> (forall c y, c ∈ cs -> y ∈ owed w -> indep c (cmd y)) -> Ow w'.
Proof.
  intros [O1 O2 O3] Hi E Hown Hind. assert (forall x, x ∈ owed w' -> x ∈ owed w \/ exists c, c ∈ cs /\ x = mkOwed th id c) as F.
  { intros x. rewrite E, elem_of_app, list_elem_of_fmap. naive_solver. }
  split.
  - intros x y Hx Hy Ht. apply F in Hx as [Hx|(c & Hc & ->)], Hy as [Hy|(d & Hd & ->)]; simpl in *; [by apply O1|by apply Hi|intros Ha; by apply (Hi y)|done].
  - intros x y Hx Hy Ha. apply F in Hx as [Hx|(c & Hc & ->)], Hy as [Hy|(d & Hd & ->)]; simpl in *; [by apply O2|apply indep_sym; auto|auto|done].
  - intros x Hx. apply F in Hx as [Hx|(c & Hc & ->)]; auto.
Qed.

Lemma take_owed_spec th l : forall c l', take_owed th l = Some (c, l') ->
  exists p x q, l = p ++ x :: q /\ l' = p ++ q /\ thread x = th /\ cmd x = c /\ forall y, y ∈ p -> thread y <> th.
Proof.
  induction l as [|x l IH]; intros c l'; simpl; [done|]. destruct (Z.eqb_spec (thread x) th) as [Ht|Ht].
  - intros [= <- <-]. exists [], x, l. split_and!; try done. set_solver.
  - destruct (take_owed th l) as [[c0 l0]|]; [|done]. intros [= <- <-]. destruct (IH c0 l0 eq_refl) as (p & y & q & -> & -> & ? & ? & Hp). exists (x :: p), y, q. split_and!; try done.
    intros z. rewrite elem_of_cons. intros [->|?]; auto.
Qed.

Definition Good w : Prop := Ix (to_come w) w /\ Ow w.

Lemma good_same w w' : Good w -> recv_cmds w' = recv_cmds w -> owed w' = owed w -> (Ix (to_come w) w -> Ix (to_come w) w') -> Good w'.
Proof. intros [H [O1 O2 O3]] Hq Ho Hi. split; [unfold to_come; rewrite Hq, Ho; auto|]. by split; rewrite Ho. Qed.

Lemma good_push th w : Good w -> (length (recv_cmds w) < CTL_RING)%nat -> Good (push_next th w).
Proof.
  intros [H [O1 O2 O3]] Hl. unfold push_next. destruct (take_owed th (owed w)) as [[c l]|] eqn:E; [|by split; [|split]].
  apply take_owed_spec in E as (p & x & q & El & -> & Ht & <- & Hp). unfold push_cmd. simpl. apply Nat.ltb_lt in Hl. rewrite Hl.
  assert (forall y, y ∈ p ++ q -> y ∈ owed w) as Hin by (rewrite El; set_solver). split.
  - unfold to_come. simpl. apply (ix_same _ w); try done; [|by left]. rewrite <- app_assoc. simpl. rewrite map_app. apply ix_forward.
    + unfold to_come in H. rewrite El, map_app in H. exact H.
    + intros a (y & -> & Hy)%list_elem_of_fmap. apply O2; [rewrite El; set_solver|rewrite El; set_solver|]. apply O1; [rewrite El; set_solver|rewrite El; set_solver|]. rewrite Ht. by apply Hp.
  - split; simpl; [intros a b Ha Hb; apply O1; auto|intros a b Ha Hb; apply O2; auto|intros a Ha; apply O3; auto].
Qed.

(** What an operation relies on: new names, no other command about its transport still to be
    pushed, and room in the ring of commands. *)
Definition op_ok (o : Op) w : Prop :=
  match o with
  | ONew th id c _ _ => trs w !! id = None /\ (id ∉ closed w) /\ fresh_ufrag (ufrag c) (to_come w) w /\ idle id w
  | ORestart th id next => is_Some (trs w !! id) /\ (id ∉ closed w) /\ fresh_ufrag (ufrag next) (to_come w) w /\ idle id w
  | OReap th id => idle id w
  | OPush th => (length (recv_cmds w) < CTL_RING)%nat
  | _ => True
  end.

Fixpoint ops_ok (l : list Op) w : Prop := match l with [] => True | o :: l => op_ok o w /\ ops_ok l (step o w).1 end.

Lemma fresh_indep u id w : Ow w -> fresh_ufrag u (to_come w) w -> idle id w -> forall y, y ∈ owed w -> indep (Register u id) (cmd y).
Proof.
  intros [_ _ O3] (_ & _ & F1 & F2) Hi y Hy. assert (cmd y ∈ to_come w) as Hq by (apply elem_of_app; right; apply list_elem_of_fmap; by exists y).
  pose proof (O3 y Hy) as Ho. unfold own_cmd in Ho. pose proof (Hi y Hy). destruct (cmd y) as [v j|j|v]; simpl.
  - split; [|congruence]. intros ->. by apply (F1 j).
  - congruence.
  - intros ->. by apply F2.
Qed.

Lemma to_come_owe th id cs w w' : recv_cmds w' = recv_cmds w -> owed w' = owed w ++ map (mkOwed th id) cs -> to_come w' = to_come w ++ cs.
Proof. intros Hq Ho. unfold to_come. rewrite Hq, Ho, map_app, map_map, app_assoc. f_equal. simpl. apply map_id. Qed.

Lemma good_new th id c wk now w : Good w -> op_ok (ONew th id c wk now) w -> Good (new_tr th id c wk now w).
Proof.
  intros [H HO] (Hid & Hcl & Hf & Hi). split.
  - rewrite (to_come_owe th id [Register (ufrag c) id] w) by done. apply (ix_same _ (set_trs (<[id := new_transport c wk now]> (trs w)) w)); try done; [by apply ix_new|by left].
  - apply (ow_owe th id [Register (ufrag c) id] w); try done; [intros d ->%list_elem_of_singleton; done|]. intros d y ->%list_elem_of_singleton. by apply fresh_indep.
Qed.

Lemma good_reap th id w : Good w -> idle id w -> Good (reap_tr th id w).
Proof.
  intros [H HO] Hi. split.
  - rewrite (to_come_owe th id [Unregister id] w) by done. apply (ix_same _ (set_closed ({[id]} ∪ closed w) w)); try done; [by apply ix_reap|by left].
  - apply (ow_owe th id [Unregister id] w); try done; [intros d ->%list_elem_of_singleton; done|]. intros d y ->%list_elem_of_singleton Hy. pose proof (w_own w HO y Hy) as Ho. unfold own_cmd in Ho.
    pose proof (Hi y Hy). destruct (cmd y); simpl; try done. congruence.
Qed.

Lemma good_restart th id next w : Good w -> op_ok (ORestart th id next) w -> Good (ice_restart th id next w).
Proof.
  intros [H HO] ([t Ht] & Hcl & Hf & Hi). unfold ice_restart. rewrite Ht. simpl.
  set (cs := match ufrag <$> pending (creds t) with Some o => [DropUfrag o] | None => [] end ++ [Register (ufrag next) id]). split.
  - rewrite (to_come_owe th id cs w) by done. apply (ix_same _ (set_trs (<[id := set_creds (mkCreds (active (creds t)) (Some next)) t]> (trs w)) w)); try done; [|by left].
    pose proof (ix_restart id next t (to_come w) w H Ht Hcl Hf) as HR. subst cs. by destruct (pending (creds t)).
  - assert (forall c, c ∈ cs -> c = Register (ufrag next) id \/ exists o, pending (creds t) = Some o /\ c = DropUfrag (ufrag o)) as Hc.
    { intros c. subst cs. rewrite elem_of_app, list_elem_of_singleton. destruct (pending (creds t)) as [o|]; simpl; [rewrite list_elem_of_singleton|rewrite elem_of_nil]; naive_solver. }
    apply (ow_owe th id cs w); try done.
    + intros c [->|(o & _ & ->)]%Hc; done.
    + intros c y [->|(o & Ho & ->)]%Hc Hy; [by apply (fresh_indep _ _ w)|]. pose proof (w_own w HO y Hy) as Hy'. unfold own_cmd in Hy'. destruct (cmd y) as [v j|j|v] eqn:Ey; simpl; try done.
      intros ->. apply (Hi y Hy). rewrite <- Hy'. symmetry. apply (x_own _ _ H (ufrag o) j id t); [|done|unfold ufrags; rewrite Ho; right; left].
      apply elem_of_app. right. apply list_elem_of_fmap. by exists y.
Qed.

(** The receiving thread pushes nothing. *)
Definition same_cmds w w' : Prop := recv_cmds w' = recv_cmds w /\ owed w' = owed w.

Lemma cmds_reply e k data w : same_cmds w (reply e k data w).1.
Proof. unfold reply. destruct (send_on_frame e k data w) as (_ & _ & _ & _ & H1 & _ & H2). by destruct (send_on e k data w). Qed.

Lemma cmds_accept e k b id t w : same_cmds w (accept e k b id t w).1.
Proof.
  unfold accept. destruct (checked _ _) as [c ch]. destruct (if Stun.use_candidate b then _ else _) as [t4 o4]. by destruct ch.
Qed.

Lemma cmds_datagram e k data known w : same_cmds w (datagram e k data known w).1.1.
Proof.
  unfold Demux.datagram. destruct data as [|x data]; [done|]. set (d := x :: data). cbv zeta. destruct (bz x <=? 3).
  - unfold stun_in. destruct (Stun.parse d) as [b|]; [|done]. destruct (by_ufrag w !! _) as [id|]; [|done]. destruct (trs w !! id) as [t|]; [|done].
    destruct (pwd_of _ _); [|done]. destruct (Stun.verify _ _ _ _); [|done]. pose proof (cmds_accept e k b id t w) as [A1 A2]. destruct (accept e k b id t w) as [w1 o1].
    match goal with |- context [reply e k ?m w1] => pose proof (cmds_reply e k m w1) as [B1 B2]; destruct (reply e k m w1) as [w2 o2] end. simpl in *. split; simpl; congruence.
  - destruct (_ && _); [by destruct (match by_addr w !! k with Some _ => _ | None => _ end)|]. destruct (_ && _); [|done]. destruct (by_addr w !! k); [|done]. by destruct (_ <? _).
Qed.

Lemma cmds_frames id fs : forall env tr w, same_cmds w (tcp_frames hmac crc32 local workers env id fs tr w).1.1.
Proof.
  induction fs as [|f fs IH]; intros env tr w; cbn [tcp_frames]; [done|]. destruct (MAX_DATAGRAM <? len f).
  - specialize (IH (fun n => env (S n)) tr w). by destruct (tcp_frames _ _ _ _ _ _ _ _ _) as [[? ?] ?].
  - pose proof (cmds_datagram (env O) (TcpId id) f tr w) as [A1 A2]. destruct (datagram (env O) (TcpId id) f tr w) as [[w1 o] r]. simpl in A1, A2.
    specialize (IH (fun n => env (S n)) (match r with Some _ => r | None => tr end) w1) as [B1 B2]. destruct (tcp_frames _ _ _ _ _ _ _ _ _) as [[? ?] ?]. simpl in *. split; simpl; congruence.
Qed.

Lemma good_pop w : Good w -> Good (pop_cmd w).
Proof.
  intros [H HO]. destruct (recv_cmds w) as [|c cs] eqn:Q; [unfold pop_cmd; by rewrite Q|].
  assert (to_come w = c :: cs ++ map cmd (owed w)) as E by (unfold to_come; by rewrite Q). rewrite E in H. pose proof (ix_pop c cs _ w H Q) as HP.
  assert (recv_cmds (pop_cmd w) = cs /\ owed (pop_cmd w) = owed w) as [E1 E2] by (unfold pop_cmd; rewrite Q; by destruct c).
  split; [unfold to_come; by rewrite E1, E2|]. destruct HO as [O1 O2 O3]. by split; rewrite E2.
Qed.

Lemma good_step o w : Good w -> op_ok o w -> Good (step o w).1.
Proof.
  intros HG Hok. destruct o; cbn [Demux.step op_ok] in *.
  - destruct (cmds_datagram e (Udp a) data None w) as [E1 E2]. pose proof (ix_datagram e (Udp a) data None (to_come w) w) as H. destruct (datagram e (Udp a) data None w) as [[? ?] ?]. by apply (good_same w).
  - apply (good_same w); [done|simpl; unfold tcp_accept; by destruct ok..|]. simpl. unfold tcp_accept. intros HI. destruct ok; apply (ix_same _ w); try done; by left.
  - unfold tcp_read. destruct (conns w !! id) as [c|]; [|done]. destruct (Tcp.frames_in _) as [fs rest].
    destruct (cmds_frames id fs env (c_tr c) w) as [E1 E2]. pose proof (ix_frames id fs (to_come w) env (c_tr c) w) as H. destruct (tcp_frames _ _ _ _ _ _ _ _ _) as [[w1 l1] tr]. simpl in E1, E2, H.
    apply (good_same w); [done|by destruct fin..|]. intros HI. specialize (H HI). destruct fin; simpl; apply (ix_same _ w1); try done; [|by left]. intros k i. simpl. rewrite lookup_delete_Some. intros [_ ?]. by left.
  - simpl. unfold tcp_stale. destruct (foldr_stale (map fst (List.filter (fun ic => is_stale now0 ic.2) (map_to_list (conns w)))) w) as (S1 & _ & S3 & S4 & S5 & S6 & S7).
    apply (good_same w); try done. intros HI. apply (ix_same _ w); try done; [by rewrite S4|]. intros k id H. left. by apply S1.
  - by apply good_pop.
  - simpl. unfold control_send. destruct (trs w !! id); [|done]. destruct (control_path _ _ _) as [k|]; [|done]. destruct (cmds_reply e k data w) as [E1 E2]. apply (good_same w); try done. apply ix_reply.
  - by apply (good_new th id c wk now0 w).
  - by apply (good_restart th id next w).
  - by apply good_reap.
  - by apply good_push.
  - simpl. unfold liveness_tr. destruct (trs w !! id) as [t|] eqn:Ht; [|done].
    assert (creds (liveness now0 (tcp_open w) t).1 = creds t) as E.
    { unfold liveness. destruct (_ || _); [done|]. pose proof (creds_state Suspect now0 t) as H. by destruct (set_state Suspect now0 t). }
    destruct (liveness now0 (tcp_open w) t) as [t' told]. simpl in *. apply (good_same w); try done. intros HI. apply (ix_same _ w); try done; [intros i; by apply (creds_insert id t)|by left].
Qed.

Lemma good_rt0 : Good rt0.
Proof.
  split; [|split; simpl; set_solver]. split; simpl; try done; try (intros l1 *; by destruct l1); try (intros * H; by destruct l1); try set_solver. intros u id. unfold after. simpl. split; [done|]. intros (t & [H _] & _). done.
Qed.

Lemma good_run l : forall w, Good w -> ops_ok l w -> Good (run l w).1.
Proof.
  induction l as [|o l IH]; intros w HI; cbn [ops_ok Demux.run]; [done|]. intros [Ho Hl]. pose proof (good_step o w HI Ho) as H1.
  destruct (step o w) as [w1 e1]. simpl in *. specialize (IH w1 H1 Hl). by destruct (run l w1).
Qed.

Hypothesis hmac_20 : forall k m, length (hmac k m) = 20%nat.

(** C15: Only who knows the password is heard: whatever arrives on the sockets and
    however the other threads change the index meanwhile, a packet of media or of the handshake
    is handed to a transport only when, on the same path before it, a binding request came in
    that carried the HMAC of its own bytes under a password the transport had then. *)
Theorem demux_authentic (l : list Op) (w : Rt) (log l1 l2 : list Entry) (x : Entry) (ev : Ev) (id : Z) :
  run l rt0 = (w, log) -> log = l1 ++ x :: l2 -> ev ∈ e_out x -> delivered ev = Some id ->
  exists y b t pwd, y ∈ l1 /\ e_key y = e_key x /\ trs (e_rt y) !! id = Some t /\ pwd_of (Stun.local_ufrag b) (creds t) = Some pwd /\
    take 20 (drop (Stun.mi_offset b + 4) (e_data y)) = hmac (sb pwd) (Stun.covered (e_data y) (Stun.mi_offset b)).
Proof.
  intros E -> Hev Hid. destruct (run_vouched l rt0 w (l1 ++ x :: l2) [] E) as [F _].
  { intros k y m H. by destruct k. }
  { by split; intros *. }
  destruct (F l1 x l2 eq_refl ev id Hev Hid) as (y & Hy & Hk & b & Hc & Hb).
  destruct (Stun.stun_check_authentic hmac hmac_20 _ _ _ Hc) as (pwd & Hp & _ & Hm). unfold password in Hp. rewrite Hb in Hp.
  destruct (trs (e_rt y) !! id) as [t|] eqn:Ht; [|done]. by exists y, b, t, pwd.
Qed.

(** C16: The index of credentials is what it stands for. A thread that makes,
    restarts or ends a transport changes it first and pushes its commands later, one by one,
    while packets come in, commands are carried out and other threads do the same to other
    transports. At every moment, once the commands in the ring and those still to be pushed
    are carried out, a name leads to a transport exactly when the transport has not ended and
    has a credential of that name, used or waiting; and an ended transport whose end has been
    carried out gets no more media. Assumed ([op_ok]) is that the ring of 4096 commands is
    never full, for a command that finds it full is lost without a word; that ids and names
    are new; that a transport is not restarted after its end; and that nobody restarts or ends
    a transport while another thread has a command about it still to push
    ([demux_restart_race] shows what comes of it). *)
Theorem demux_index_exact (l : list Op) :
  ops_ok l rt0 ->
  let w := (run l rt0).1 in
  (forall u id, settled w !! u = Some id <-> exists t, trs w !! id = Some t /\ (id ∉ closed w) /\ u ∈ ufrags (creds t)) /\
  (forall id k, id ∈ closed w -> (Unregister id ∉ to_come w) -> by_addr w !! k <> Some id).
Proof.
  intros Hok w. destruct (good_run l rt0 good_rt0 Hok) as [[S _ _ _ _ G _] _]. split.
  - intros u id. split; [intros H; apply S in H as (t & [? ?] & ?); by exists t|]. intros (t & ? & ? & ?). apply S. by exists t.
  - intros id k Hid Hn Hk. apply Hn. by apply (G id Hid) in Hk.
Qed.

End Thm.

(** ** Concrete runs *)

Definition env1 : Env := mkEnv 1000 1000000 [SOk] [] (fun _ => true).
Definition addr1 : Stun.SocketAddr := Stun.V4 2130706433 5000.
Definition bind1 (u p : string) : list byte := Stun.request Stun.key_mac (fun _ => 0) u "cli" p (replicate 12 x07) true.
Definition rtp1 : list byte := [x80; x6f; x00; x01].

(** A transport is made, its client checks the path and sends a packet. *)
Definition run1 : list Op := [ONew 9 1 (mkCred "srv1" "pw1") 0 500; OPush 9; OPop; OUdp env1 addr1 (bind1 "srv1" "pw1"); OUdp env1 addr1 rtp1].
Definition end1 : Rt * list Entry := run Stun.key_mac (fun _ => 0) (Stun.V4 0 0) 1 run1 rt0.
Definition no_entry : Entry := mkEntry rt0 (TcpId 0) [] [].
Definition first1 : Entry := Eval vm_compute in nth 0 end1.2 no_entry.
Definition second1 : Entry := Eval vm_compute in nth 1 end1.2 no_entry.

Lemma log1 : end1.2 = [first1; second1].
Proof. vm_compute. reflexivity. Qed.

Lemma demux_authentic_witness :
  exists y b t pwd, y = first1 /\ trs (e_rt y) !! 1 = Some t /\ pwd_of (Stun.local_ufrag b) (creds t) = Some pwd /\
    take 20 (drop (Stun.mi_offset b + 4) (e_data y)) = Stun.key_mac (sb pwd) (Stun.covered (e_data y) (Stun.mi_offset b)).
Proof.
  destruct (demux_authentic Stun.key_mac (fun _ => 0) (Stun.V4 0 0) 1 Stun.key_mac_20 run1 end1.1 end1.2 [first1] [] second1 (EIn 0 1 rtp1 1000000) 1)
    as (y & b & t & pwd & H1 & H2 & H3); [apply surjective_pairing|exact log1|left|reflexivity|].
  exists y, b, t, pwd. split; [by apply list_elem_of_singleton|exact H3].
Defined.

(** A credential is renewed before it was used, by a thread that is slow to say so; meanwhile
    another makes a transport. The client uses the new credential. *)
Definition run2 : list Op :=
  [ONew 9 1 (mkCred "srv1" "pw1") 0 500; OPush 9; OPop; ORestart 9 1 (mkCred "srv2" "pw2"); ONew 8 2 (mkCred "srv3" "pw3") 0 600; OPush 8; OPush 9; OPop; OPop;
   OUdp env1 addr1 (bind1 "srv2" "pw2")].
Definition end2 : Rt := Eval vm_compute in (run Stun.key_mac (fun _ => 0) (Stun.V4 0 0) 1 run2 rt0).1.

Lemma fresh_of u q w : forallb (fun kt => negb (existsb (String.eqb u) (ufrags (creds kt.2)))) (map_to_list (trs w)) = true -> by_ufrag w !! u = None ->
  forallb (fun c => match c with Register v _ => negb (String.eqb u v) | DropUfrag v => negb (String.eqb u v) | Unregister _ => true end) q = true -> fresh_ufrag u q w.
Proof.
  rewrite !forallb_forall. intros H1 H2 H3. split_and!; [|done| |].
  - intros i t Ht Hu. specialize (H1 (i, t) ltac:(by apply list_elem_of_In, elem_of_map_to_list)). apply negb_true_iff in H1. cbn [snd] in H1.
    assert (existsb (String.eqb u) (ufrags (creds t)) = true) as Hx by (apply existsb_exists; exists u; split; [by apply list_elem_of_In|apply String.eqb_refl]). congruence.
  - intros j Hj. apply list_elem_of_In, H3 in Hj. by rewrite String.eqb_refl in Hj.
  - intros Hj. apply list_elem_of_In, H3 in Hj. by rewrite String.eqb_refl in Hj.
Qed.

Lemma idle_of id w : forallb (fun x => negb (about x =? id)) (owed w) = true -> idle id w.
Proof. rewrite forallb_forall. intros H x Hx E. apply list_elem_of_In, H in Hx. apply negb_true_iff in Hx. lia. Qed.

Ltac now_fresh := apply fresh_of; vm_compute; reflexivity.
Ltac now_idle := apply idle_of; vm_compute; reflexivity.
Ltac now_room := apply Nat.ltb_lt; vm_compute; reflexivity.

Lemma run2_ok : ops_ok Stun.key_mac (fun _ => 0) (Stun.V4 0 0) 1 run2 rt0.
Proof.
  cbn [ops_ok run2 op_ok]. repeat match goal with |- _ /\ _ => split | |- True => exact I | |- _ ∉ _ => apply (bool_decide_unpack _); vm_compute; exact I
    | |- is_Some _ => vm_compute; eexists; reflexivity | |- _ !! _ = None => vm_compute; reflexivity | |- idle _ _ => now_idle | |- (_ < CTL_RING)%nat => now_room | |- fresh_ufrag _ _ _ => now_fresh end.
Qed.

Lemma demux_index_exact_witness :
  settled end2 !! "srv2" = Some 1 /\ settled end2 !! "srv1" = None /\ exists t, trs end2 !! 1 = Some t /\ "srv2" ∈ ufrags (creds t).
Proof.
  assert (settled end2 !! "srv2" = Some 1) as Hs by (vm_compute; reflexivity). split; [exact Hs|]. split; [vm_compute; reflexivity|].
  destruct (demux_index_exact Stun.key_mac (fun _ => 0) (Stun.V4 0 0) 1 run2 run2_ok) as [H _].
  assert ((run Stun.key_mac (fun _ => 0) (Stun.V4 0 0) 1 run2 rt0).1 = end2) as E by (vm_compute; reflexivity). rewrite E in H.
  apply H in Hs as (t & Ht & _ & Hu). exists t. split; [exact Ht|exact Hu].
Defined.

(** Nobody waits for the commands of another thread: when a transport is ended between the
    setting of its new credential and the pushing of it, the name is registered after the
    transport was taken out, and stays; with it a client is led to the transport again, and its
    media is handed to a transport that has ended. *)
Definition run3 : list Op :=
  [ONew 9 1 (mkCred "srv1" "pw1") 0 500; OPush 9; OPop; ORestart 9 1 (mkCred "srv2" "pw2"); OReap 8 1; OPush 8; OPush 9; OPop; OPop;
   OUdp env1 addr1 (bind1 "srv2" "pw2"); OUdp env1 addr1 rtp1].

Theorem demux_restart_race :
  let (w, log) := run Stun.key_mac (fun _ => 0) (Stun.V4 0 0) 1 run3 rt0 in
  1 ∈ closed w /\ to_come w = [] /\ settled w !! "srv2" = Some 1 /\ by_addr w !! Udp addr1 = Some 1 /\ EIn 0 1 rtp1 1000000 ∈ concat (map e_out log).
Proof.
  destruct (run Stun.key_mac (fun _ => 0) (Stun.V4 0 0) 1 run3 rt0) as [w log] eqn:E. vm_compute in E. injection E as <- <-.
  split; [apply (bool_decide_unpack _); vm_compute; exact I|]. split_and!; try (vm_compute; reflexivity). apply list_elem_of_In. vm_compute. tauto.
Qed.

End DemuxThm.
