(* ===== verification/Worker.v ===== *)
(** * The media workers

    crates/oxsfud/src/fwd/rt.rs and fwd/mod.rs: the queues of a worker with their limit in
    packets, the going to sleep of a worker and its waking, step by step for any number of
    threads; the choosing of a worker for a transport and the counts that go with it
    (rt.rs, gc/mod.rs); the record of the time a packet took.

    A step of a thread is one access to something shared; the fences and the orderings of the
    source make them happen one after the other. A queue of the crate crossbeam is a list with a
    capacity. *)

From S2P Require Import Prelude.

Module Worker.

Definition RECV_RING : nat := 4096.
Definition WORKER_RING : nat := 1024.
Definition CTL_RING : nat := 4096.

(** What can be in a queue, as far as it counts: the targets of a packet, the numbers to send
    again, the rows of a frame. *)
Inductive Ctl := Rtcp | Rtx (seqs : list Z) | Frames (rows : list Z).
Inductive Item := In | Out (targets : list Z) | ICtl (c : Ctl).

Definition ctl_packets (c : Ctl) : Z := match c with Rtcp => 1 | Rtx seqs => Z.max (len seqs) 1 | Frames rows => Z.max (len rows) 1 end.
Definition packets (it : Item) : Z := match it with In => 1 | Out ts => Z.max (len ts) 1 | ICtl c => ctl_packets c end.

(** Where a thread is in [push], and the worker in [worker_loop]. *)
Inductive PPc := PIdle | PPush (from : nat) (it : Item) | PUndo (n : Z) | PCheck | PUnpark.
Inductive WPc := WScan (k : nat) | WProc (k : nat) (n : Z) | WEnd | WSleep | WEmpty (k : nat) | WPark | WWake.

(** [token] is what [unpark] leaves for [park]. *)
Record St := mkSt {
  inbox : list (list Item); caps : list nat; queued : Z; sleeping : bool; token : bool; threads : list PPc; wpc : WPc; idle : Z; did : Z }.

Definition set_inbox v s := mkSt v (caps s) (queued s) (sleeping s) (token s) (threads s) (wpc s) (idle s) (did s).
Definition set_queued v s := mkSt (inbox s) (caps s) v (sleeping s) (token s) (threads s) (wpc s) (idle s) (did s).
Definition set_sleeping v s := mkSt (inbox s) (caps s) (queued s) v (token s) (threads s) (wpc s) (idle s) (did s).
Definition set_token v s := mkSt (inbox s) (caps s) (queued s) (sleeping s) v (threads s) (wpc s) (idle s) (did s).
Definition set_threads v s := mkSt (inbox s) (caps s) (queued s) (sleeping s) (token s) v (wpc s) (idle s) (did s).
Definition set_wpc v s := mkSt (inbox s) (caps s) (queued s) (sleeping s) (token s) (threads s) v (idle s) (did s).
Definition set_counts i d s := mkSt (inbox s) (caps s) (queued s) (sleeping s) (token s) (threads s) (wpc s) i d.

(** The worker of [n] workers, with [m] threads that push. *)
Definition ring_cap (n k : nat) : nat := if (k =? 0)%nat then RECV_RING else if (k =? n + 1)%nat then CTL_RING else WORKER_RING.
Definition st0 (n m : nat) : St := mkSt (replicate (n + 2) []) (map (ring_cap n) (seq 0 (n + 2))) 0 false false (replicate m PIdle) (WScan 0) 0 0.

Inductive Label := LCall (i from : nat) (it : Item) | LGo (i : nat) | LWork | LTimeout.

Definition goto (i : nat) (pc : PPc) (s : St) : St := set_threads (<[i := pc]> (threads s)) s.

Section Step.
Context (queue_limit : Z).

(** [push], up to the decision about the limit. *)
Definition call (i from : nat) (it : Item) (s : St) : option St :=
  match threads s !! i, inbox s !! from with
  | Some PIdle, Some _ =>
    let n := packets it in
    Some (s |> set_queued (queued s + n) |> goto i (if queue_limit <? queued s + n then PUndo n else PPush from it))
  | _, _ => None
  end.

Definition go (i : nat) (s : St) : option St :=
  match threads s !! i with
  | Some (PPush from it) =>
    match inbox s !! from, caps s !! from with
    | Some r, Some c =>
      if (length r <? c)%nat then Some (s |> set_inbox (<[from := r ++ [it]]> (inbox s)) |> goto i PCheck)
      else Some (s |> goto i (PUndo (packets it)))
    | _, _ => None
    end
  | Some (PUndo n) => Some (s |> set_queued (queued s - n) |> goto i PIdle)
  | Some PCheck => Some (s |> goto i (if sleeping s then PUnpark else PIdle))
  | Some PUnpark => Some (s |> set_token true |> goto i PIdle)
  | _ => None
  end.

Definition work (s : St) : option St :=
  match wpc s with
  | WScan k =>
    match inbox s !! k with
    | Some (it :: r) => Some (s |> set_inbox (<[k := r]> (inbox s)) |> set_wpc (WProc k (packets it)))
    | Some [] => Some (s |> set_wpc (WScan (S k)))
    | None => Some (s |> set_wpc WEnd)
    end
  | WProc k n => Some (s |> set_queued (queued s - n) |> set_counts (idle s) (did s + 1) |> set_wpc (WScan k))
  | WEnd =>
    if 0 <? did s then Some (s |> set_counts 0 0 |> set_wpc (WScan 0))
    else if idle s + 1 <? 64 then Some (s |> set_counts (idle s + 1) 0 |> set_wpc (WScan 0))
    else Some (s |> set_counts (idle s + 1) 0 |> set_wpc WSleep)
  | WSleep => Some (s |> set_sleeping true |> set_wpc (WEmpty 0))
  | WEmpty k =>
    match inbox s !! k with
    | Some [] => Some (s |> set_wpc (WEmpty (S k)))
    | Some (_ :: _) => Some (s |> set_wpc WWake)
    | None => Some (s |> set_wpc WPark)
    end
  | WPark => if token s then Some (s |> set_token false |> set_wpc WWake) else None
  | WWake => Some (s |> set_sleeping false |> set_counts 0 0 |> set_wpc (WScan 0))
  end.

Definition timeout (s : St) : option St := match wpc s with WPark => Some (s |> set_wpc WWake) | _ => None end.

Definition step (l : Label) (s : St) : option St :=
  match l with LCall i from it => call i from it s | LGo i => go i s | LWork => work s | LTimeout => timeout s end.

Fixpoint run (ls : list Label) (s : St) : option St := match ls with [] => Some s | l :: ls => let? s := step l s in run ls s end.

(** ** Sums *)

Fixpoint sumz {A} (f : A -> Z) (l : list A) : Z := match l with [] => 0 | x :: l => f x + sumz f l end.

Lemma sumz_insert {A} (f : A -> Z) l : forall i x y, l !! i = Some x -> sumz f (<[i := y]> l) = sumz f l - f x + f y.
Proof. induction l as [|z l IH]; intros [|i] x y; simpl; try done; [intros [= ->]; lia|]. intros H. rewrite (IH i x y H). lia. Qed.

Lemma sumz_app {A} (f : A -> Z) l k : sumz f (l ++ k) = sumz f l + sumz f k.
Proof. induction l as [|x l IH]; simpl; lia. Qed.

Lemma sumz_nonneg {A} (f : A -> Z) l : (forall x, 0 <= f x) -> 0 <= sumz f l.
Proof. intros H. induction l as [|x l IH]; simpl; [lia|]. specialize (H x). lia. Qed.

Lemma packets_pos it : 1 <= packets it.
Proof. destruct it as [|ts|[|l|l]]; simpl; lia. Qed.

(** What a thread has counted and not yet taken back, and what of it will be queued. *)
Definition owes (p : PPc) : Z := match p with PPush _ it => packets it | PUndo n => n | _ => 0 end.
Definition brings (p : PPc) : Z := match p with PPush _ it => packets it | _ => 0 end.
Definition held (w : WPc) : Z := match w with WProc _ n => n | _ => 0 end.
Definition load (s : St) : Z := sumz (sumz packets) (inbox s) + held (wpc s).

Definition waking (s : St) : Prop := token s = true \/ exists i, threads s !! i = Some PCheck \/ threads s !! i = Some PUnpark.

(** The queues the sleeping worker has found empty. *)
Definition seen (w : WPc) : option nat := match w with WEmpty k => Some k | _ => None end.

Record Inv (s : St) : Prop := {
  i_queued : queued s = load s + sumz owes (threads s);
  i_limit : load s + sumz brings (threads s) <= Z.max queue_limit 0;
  i_undo : forall i n, threads s !! i = Some (PUndo n) -> 0 <= n;
  i_held : forall k n, wpc s = WProc k n -> 0 <= n;
  i_awake : forall k, wpc s = WEmpty k -> sleeping s = true /\ forall j it r, (j < k)%nat -> inbox s !! j = Some (it :: r) -> waking s;
  i_park : wpc s = WPark -> sleeping s = true /\ forall j it r, inbox s !! j = Some (it :: r) -> waking s }.

Lemma load_nonneg s : (forall n k, wpc s = WProc k n -> 0 <= n) -> 0 <= load s.
Proof.
  intros H. unfold load. assert (0 <= sumz (sumz packets) (inbox s)) by (apply sumz_nonneg; intros l; apply sumz_nonneg; intros y; pose proof (packets_pos y); lia).
  destruct (wpc s); simpl in *; try lia. specialize (H n k eq_refl). lia.
Qed.

Lemma owes_ge s : (forall i n, threads s !! i = Some (PUndo n) -> 0 <= n) -> sumz brings (threads s) <= sumz owes (threads s).
Proof.
  assert (forall l, (forall (i : nat) n, l !! i = Some (PUndo n) -> 0 <= n) -> sumz brings l <= sumz owes l) as F; [|apply F].
  induction l as [|p l IH]; intros H; simpl; [lia|]. assert (sumz brings l <= sumz owes l) by (apply IH; intros i; apply (H (S i))).
  destruct p; simpl; try lia. specialize (H 0%nat n eq_refl). lia.
Qed.

Lemma waking_goto i pc s s' : token s' = token s -> threads s' = <[i := pc]> (threads s) -> threads s !! i <> Some PCheck -> threads s !! i <> Some PUnpark -> waking s -> waking s'.
Proof.
  intros Ht Hs H1 H2 [H | (j & H)]; [left; congruence|]. right. exists j. rewrite Hs. rewrite list_lookup_insert_ne; [done|]. intros ->. by destruct H.
Qed.

Lemma call_inv i from it s s' : Inv s -> call i from it s = Some s' -> Inv s'.
Proof.
  intros [Q L U Hd A P]. unfold call. destruct (threads s !! i) as [pc|] eqn:Hi; [|done]. destruct pc; try done. destruct (inbox s !! from) as [r|]; [|done]. intros [= <-].
  pose proof (packets_pos it). pose proof (owes_ge s U) as Hg. set (pc := if queue_limit <? _ then _ else _).
  assert (owes pc = packets it) as Ho by (unfold pc; by destruct (_ <? _)).
  split; unfold load in *; simpl.
  - rewrite (sumz_insert owes _ _ _ pc Hi). simpl. lia.
  - rewrite (sumz_insert brings _ _ _ pc Hi). simpl. unfold pc. destruct (queue_limit <? _) eqn:E; simpl; zbool; lia.
  - intros j n. rewrite list_lookup_insert_Some. intros [(-> & Hp & _) | [_ H0]]; [|by eapply U]. unfold pc in Hp. destruct (_ <? _); [|done]. injection Hp as <-. lia.
  - done.
  - intros k Hk. destruct (A k Hk) as [A1 A2]. split; [done|]. intros j x l Hj Hl. apply (waking_goto i pc s); try done; [congruence..|by eapply A2].
  - intros Hk. destruct (P Hk) as [A1 A2]. split; [done|]. intros j x l Hl. apply (waking_goto i pc s); try done; [congruence..|by eapply A2].
Qed.

Lemma go_inv i s s' : Inv s -> go i s = Some s' -> Inv s'.
Proof.
  intros [Q L U Hd A P]. unfold go. destruct (threads s !! i) as [pc|] eqn:Hi; [|done].
  assert (forall j, (i < length (threads s))%nat -> <[i := j]> (threads s) !! i = Some j) as Hin by (intros j H; by apply list_lookup_insert_eq).
  pose proof (lookup_lt_Some _ _ _ Hi) as Hlt.
  destruct pc as [|from it|n| |]; [done| | | |].
  - destruct (inbox s !! from) as [r|] eqn:Hr; [|done]. destruct (caps s !! from) as [c|]; [|done]. pose proof (packets_pos it).
    destruct (length r <? c)%nat; intros [= <-]; split; unfold load in *; simpl.
    + rewrite (sumz_insert owes _ _ _ PCheck Hi), (sumz_insert _ _ _ _ (r ++ [it]) Hr), sumz_app. simpl. lia.
    + rewrite (sumz_insert brings _ _ _ PCheck Hi), (sumz_insert _ _ _ _ (r ++ [it]) Hr), sumz_app. simpl. lia.
    + intros j n. rewrite list_lookup_insert_Some. intros [(_ & [=] & _) | [_ ?]]. by eapply U.
    + done.
    + intros k Hk. destruct (A k Hk) as [A1 A2]. split; [done|]. intros j x l Hj Hl. right. exists i. left. by apply Hin.
    + intros Hk. destruct (P Hk) as [A1 A2]. split; [done|]. intros j x l Hl. right. exists i. left. by apply Hin.
    + rewrite (sumz_insert owes _ _ _ (PUndo (packets it)) Hi). simpl. lia.
    + rewrite (sumz_insert brings _ _ _ (PUndo (packets it)) Hi). simpl. lia.
    + intros j n. rewrite list_lookup_insert_Some. intros [(_ & [= <-] & _) | [_ ?]]; [lia|]. by eapply U.
    + done.
    + intros k Hk. destruct (A k Hk) as [A1 A2]. split; [done|]. intros j x l Hj Hl. eapply (waking_goto i _ s); try done; [congruence..|by eapply A2].
    + intros Hk. destruct (P Hk) as [A1 A2]. split; [done|]. intros j x l Hl. eapply (waking_goto i _ s); try done; [congruence..|by eapply A2].
  - intros [= <-]. split; unfold load in *; simpl.
    + rewrite (sumz_insert owes _ _ _ PIdle Hi). simpl. lia.
    + rewrite (sumz_insert brings _ _ _ PIdle Hi). simpl. lia.
    + intros j m. rewrite list_lookup_insert_Some. intros [(_ & [=] & _) | [_ ?]]. by eapply U.
    + done.
    + intros k Hk. destruct (A k Hk) as [A1 A2]. split; [done|]. intros j x l Hj Hl. eapply (waking_goto i _ s); try done; [congruence..|by eapply A2].
    + intros Hk. destruct (P Hk) as [A1 A2]. split; [done|]. intros j x l Hl. eapply (waking_goto i _ s); try done; [congruence..|by eapply A2].
  - intros [= <-]. set (pc := if sleeping s then PUnpark else PIdle). split; unfold load in *; simpl.
    + rewrite (sumz_insert owes _ _ _ pc Hi). unfold pc. destruct (sleeping s); simpl; lia.
    + rewrite (sumz_insert brings _ _ _ pc Hi). unfold pc. destruct (sleeping s); simpl; lia.
    + intros j m. rewrite list_lookup_insert_Some. intros [(_ & H & _) | [_ ?]]; [unfold pc in H; by destruct (sleeping s)|]. by eapply U.
    + done.
    + intros k Hk. destruct (A k Hk) as [A1 A2]. split; [done|]. intros j x l Hj Hl. right. exists i. right. unfold pc. rewrite A1. by apply Hin.
    + intros Hk. destruct (P Hk) as [A1 A2]. split; [done|]. intros j x l Hl. right. exists i. right. unfold pc. rewrite A1. by apply Hin.
  - intros [= <-]. split; unfold load in *; simpl.
    + rewrite (sumz_insert owes _ _ _ PIdle Hi). simpl. lia.
    + rewrite (sumz_insert brings _ _ _ PIdle Hi). simpl. lia.
    + intros j m. rewrite list_lookup_insert_Some. intros [(_ & [=] & _) | [_ ?]]. by eapply U.
    + done.
    + intros k Hk. destruct (A k Hk) as [A1 A2]. split; [done|]. intros. by left.
    + intros Hk. destruct (P Hk) as [A1 A2]. split; [done|]. intros. by left.
Qed.

Lemma work_inv s s' : Inv s -> work s = Some s' -> Inv s'.
Proof.
  intros [Q L U Hd A P]. unfold work. destruct (wpc s) as [k|k n| | |k| |] eqn:Hw.
  - destruct (inbox s !! k) as [[|it r]|] eqn:Hr; intros [= <-]; split; unfold load in *; simpl in *; try rewrite Hw in *; try done; simpl in *; try lia.
    + rewrite (sumz_insert _ _ _ _ r Hr). simpl. lia.
    + rewrite (sumz_insert _ _ _ _ r Hr). simpl. lia.
    + intros k0 n [= _ <-]. pose proof (packets_pos it). lia.
  - specialize (Hd k n eq_refl). intros [= <-]; split; unfold load in *; simpl in *; try rewrite Hw in *; try done; simpl in *; lia.
  - destruct (0 <? did s); [|destruct (idle s + 1 <? 64)]; intros [= <-]; split; unfold load in *; simpl in *; try rewrite Hw in *; done.
  - intros [= <-]; split; unfold load in *; simpl in *; try rewrite Hw in *; try done; simpl in *. intros k [= <-]. split; [done|]. intros. lia.
  - destruct (A k eq_refl) as [A1 A2]. destruct (inbox s !! k) as [[|it r]|] eqn:Hr; intros [= <-]; split; unfold load in *; simpl in *; try rewrite Hw in *; try done.
    + intros k0 [= <-]. split; [done|]. intros j it r Hj Hl. destruct (decide (j = k)) as [->|Hne]; [congruence|]. apply (A2 j it r); [lia|done].
    + intros _. split; [done|]. intros j it r Hl. apply (A2 j it r); [|done]. apply lookup_lt_Some in Hl. apply lookup_ge_None in Hr. lia.
  - destruct (token s); [|done]. intros [= <-]; split; unfold load in *; simpl in *; try rewrite Hw in *; done.
  - intros [= <-]; split; unfold load in *; simpl in *; try rewrite Hw in *; done.
Qed.

Lemma q_step_inv l s s' : Inv s -> step l s = Some s' -> Inv s'.
Proof.
  intros HI. destruct l as [i from it|i| |]; simpl; [by apply call_inv|by apply go_inv|by apply work_inv|].
  unfold timeout. destruct (wpc s) eqn:Hw; try done. intros [= <-]. destruct HI as [Q L U Hd A P]. split; unfold load in *; simpl in *; rewrite Hw in *; done.
Qed.

Lemma q_run_inv ls : forall s s', Inv s -> run ls s = Some s' -> Inv s'.
Proof.
  induction ls as [|l ls IH]; intros s s' HI; simpl; [by intros [= <-]|]. destruct (step l s) as [s1|] eqn:E; [|done]. intros H. apply (IH s1); [by apply (q_step_inv l s)|done].
Qed.

Lemma inv_st0 n m : Inv (st0 n m).
Proof.
  assert (forall (f : PPc -> Z) k, f PIdle = 0 -> sumz f (replicate k PIdle) = 0) as F by (intros f k H; induction k; simpl; lia).
  assert (forall k, sumz (sumz packets) (replicate k []) = 0) as F' by (induction k; simpl; lia).
  split; unfold load, st0; cbn [inbox threads queued wpc held]; rewrite ?F, ?F' by done; try done; try lia.
  intros i x H. apply lookup_replicate in H as [? _]. done.
Qed.

(** C19: The queues of a worker never hold more packets than the limit, however the
    threads that push are interleaved with each other and with the worker, and the counter is
    what is queued or being processed plus what the threads in the middle of a push have
    counted: when none of them is, nothing has leaked. *)
Theorem worker_queue_bounded (n m : nat) (ls : list Label) (s : St) :
  0 <= queue_limit -> run ls (st0 n m) = Some s ->
  load s <= queue_limit /\ queued s = load s + sumz owes (threads s) /\ (Forall (eq PIdle) (threads s) -> queued s = load s).
Proof.
  intros Hq Hr. destruct (q_run_inv _ _ _ (inv_st0 n m) Hr) as [Q L U Hd A P].
  assert (0 <= sumz brings (threads s)) by (apply sumz_nonneg; intros p; destruct p; simpl; try lia; pose proof (packets_pos it); lia).
  split_and!; [lia|done|]. intros F. rewrite Q. assert (sumz owes (threads s) = 0) as ->; [|lia]. clear -F. induction F as [|p l <- F IH]; simpl; [done|exact IH].
Qed.

(** C20: A worker does not sleep on packets: when it has gone to sleep and there is
    something in one of its queues, the thread that put it there has woken it or does so with
    its next steps, without the help of the time limit of the sleep. *)
Theorem worker_wakes (n m : nat) (ls : list Label) (s : St) (j : nat) (it : Item) (r : list Item) :
  run ls (st0 n m) = Some s -> wpc s = WPark -> inbox s !! j = Some (it :: r) ->
  exists i k s', (k <= 2)%nat /\ run (replicate k (LGo i)) s = Some s' /\ token s' = true /\ wpc s' = WPark /\ inbox s' = inbox s /\
    exists s'', run [LWork; LWork] s' = Some s'' /\ wpc s'' = WScan 0.
Proof.
  intros Hr Hw Hj. destruct (q_run_inv _ _ _ (inv_st0 n m) Hr) as [_ _ _ _ _ P]. destruct (P Hw) as [Hs K].
  assert (forall s', token s' = true -> wpc s' = WPark -> exists s'', run [LWork; LWork] s' = Some s'' /\ wpc s'' = WScan 0) as F.
  { intros s' Ht Hw'. simpl. unfold work at 1. rewrite Hw', Ht. simpl. eexists. split; [done|]. done. }
  destruct (K j it r Hj) as [Ht | (i & [Hi|Hi])].
  - exists 0%nat, 0%nat, s. split_and!; try done; [lia|by apply F].
  - pose proof (lookup_lt_Some _ _ _ Hi) as Hlt. exists i, 2%nat. simpl. unfold go at 1. rewrite Hi, Hs. unfold go. simpl. rewrite list_lookup_insert_eq by done.
    eexists. split_and!; try done. by apply F.
  - exists i, 1%nat. simpl. unfold go at 1. rewrite Hi. eexists. split_and!; try done; [lia|by apply F].
Qed.

End Step.

(** Two threads push, one of them too much, and the worker goes to sleep between the push and the
    waking of the other. *)
Definition asleep : list Label := flat_map (fun _ => [LWork; LWork; LWork; LWork; LWork]) (seq 0 64).
Definition busy : list Label := asleep ++ [LWork; LCall 0 0 In; LCall 1 2 (Out [7; 8; 9]); LWork; LWork; LWork; LWork; LGo 0].
Definition busy_end : St := Eval vm_compute in default (st0 1 2) (run 2 busy (st0 1 2)).

Lemma worker_queue_bounded_witness : load busy_end <= 2 /\ queued busy_end = 4 /\ threads busy_end = [PCheck; PUndo 3].
Proof.
  destruct (worker_queue_bounded 2 1 2 busy busy_end ltac:(lia) ltac:(vm_compute; reflexivity)) as (H1 & H2 & _). split; [exact H1|]. split; [rewrite H2; vm_compute; reflexivity|reflexivity].
Defined.

Lemma worker_wakes_witness :
  wpc busy_end = WPark /\ exists i k s', (k <= 2)%nat /\ run 2 (replicate k (LGo i)) busy_end = Some s' /\ token s' = true.
Proof.
  split; [reflexivity|]. destruct (worker_wakes 2 1 2 busy busy_end 0 In [] ltac:(vm_compute; reflexivity) ltac:(reflexivity) ltac:(reflexivity)) as (i & k & s' & H1 & H2 & H3 & _).
  exists i, k, s'. split; [exact H1|]. split; [exact H2|exact H3].
Defined.

(** ** Which worker *)

Record Counts := mkCounts { pubs : Z; subs : Z }.

Definition count (publish : bool) (w : Counts) : Z := if publish then pubs w else subs w.
Definition set_count (publish : bool) (v : Z) (w : Counts) : Counts := if publish then mkCounts v (subs w) else mkCounts (pubs w) v.

(** [min_by_key]: the first of the least. *)
Fixpoint least (publish : bool) (l : list Counts) (i best : nat) (v : Z) : nat :=
  match l with
  | [] => best
  | w :: l => if count publish w <? v then least publish l (S i) i (count publish w) else least publish l (S i) best v
  end.

Definition pick_worker (publish : bool) (l : list Counts) : list Counts * nat :=
  let w := match l with [] => 0%nat | c :: l => least publish l 1 0 (count publish c) end in
  (alter (fun c => set_count publish (count publish c + 1) c) w l, w).

Definition release_worker (w : nat) (publish : bool) (l : list Counts) : list Counts :=
  alter (fun c => set_count publish (sat_sub (count publish c) 1) c) w l.

(** The end of [reap]: the first transport of a peer is the one that publishes. *)
Fixpoint release_from (first : bool) (ws : list nat) (l : list Counts) : list Counts :=
  match ws with [] => l | w :: ws => release_from false ws (release_worker w first l) end.
Definition reap_workers (ws : list nat) (l : list Counts) : list Counts := release_from true ws l.

(** [evict]: leaving the last room reaps the peer, and then it is reaped. *)
Definition evict_workers (rooms : nat) (ws : list nat) (l : list Counts) : list Counts :=
  let l := match rooms with O => l | S _ => reap_workers ws l end in reap_workers ws l.

Lemma least_spec publish l : forall i best v pre,
  length pre = i -> (best < i)%nat -> (count publish <$> pre !! best) = Some v -> (forall j c, pre !! j = Some c -> v <= count publish c) ->
  exists c, (pre ++ l) !! least publish l i best v = Some c /\ forall j d, (pre ++ l) !! j = Some d -> count publish c <= count publish d.
Proof.
  induction l as [|w l IH]; intros i best v pre Hi Hb Hv Hle; simpl.
  - rewrite app_nil_r. destruct (pre !! best) as [c|] eqn:E; [|done]. injection Hv as <-. exists c. done.
  - replace (pre ++ w :: l) with ((pre ++ [w]) ++ l) by (by rewrite <- app_assoc). destruct (count publish w <? v) eqn:E; zbool.
    + apply IH; [rewrite length_app; simpl; lia|lia| |].
      * rewrite lookup_app_r by lia. rewrite Hi, Nat.sub_diag. done.
      * intros j c. rewrite lookup_app_Some. intros [H | [H1 H2]]; [specialize (Hle _ _ H); lia|]. apply list_lookup_singleton_Some in H2 as [_ <-]. lia.
    + apply IH; [rewrite length_app; simpl; lia|lia| |].
      * by rewrite lookup_app_l by lia.
      * intros j c. rewrite lookup_app_Some. intros [H | [H1 H2]]; [by eapply Hle|]. apply list_lookup_singleton_Some in H2 as [_ <-]. lia.
Qed.

Lemma pick_least publish l : l <> [] ->
  exists c, l !! (pick_worker publish l).2 = Some c /\ forall j d, l !! j = Some d -> count publish c <= count publish d.
Proof.
  intros H. destruct l as [|c l]; [done|]. simpl. apply (least_spec publish l 1 0 (count publish c) [c]); try done; [lia|].
  intros [|j] d; [by intros [= <-]|done].
Qed.

Lemma alter_Some {A} (f : A -> A) (l : list A) i j x : alter f i l !! j = Some x -> (j = i /\ exists y, l !! j = Some y /\ x = f y) \/ (j <> i /\ l !! j = Some x).
Proof.
  destruct (decide (j = i)) as [->|H]; [rewrite list_lookup_alter_eq|rewrite list_lookup_alter_ne by done; by right].
  intros (y & Hy & ->)%fmap_Some. left. split; [done|by exists y].
Qed.

(** The transports there are, by worker and side. *)
Definition on (w : nat) (publish : bool) (ts : list (nat * bool)) : Z := sumz (fun t => if decide (t = (w, publish)) then 1 else 0) ts.

Definition exact (ts : list (nat * bool)) (l : list Counts) : Prop := forall w c publish, l !! w = Some c -> count publish c = on w publish ts.

Lemma pick_exact publish ts l : exact ts l -> exact (((pick_worker publish l).2, publish) :: ts) (pick_worker publish l).1.
Proof.
  intros H w c p. unfold pick_worker. cbn [fst snd]. set (k := match l with [] => _ | _ => _ end). intros Ha.
  unfold on. cbn [sumz]. fold (on w p ts). apply alter_Some in Ha as [(-> & c' & Hc & ->) | [Hne Hc]].
  - destruct (decide (publish = p)) as [->|Hp].
    + rewrite decide_True by done. rewrite <- (H _ c' p Hc). destruct p; simpl; lia.
    + rewrite decide_False by congruence. rewrite <- (H _ c' p Hc). by destruct p, publish.
  - rewrite decide_False by congruence. by rewrite <- (H w c p Hc).
Qed.

Lemma release_exact w publish ts l : exact ((w, publish) :: ts) l -> exact ts (release_worker w publish l).
Proof.
  assert (forall v p ts, 0 <= on v p ts) as N by (intros v p ts0; apply sumz_nonneg; intros x; destruct (decide _); lia).
  intros H v c p. unfold release_worker. intros Ha. apply alter_Some in Ha as [(-> & c' & Hc & ->) | [Hne Hc]].
  - specialize (H _ c' p Hc) as E. unfold on in E. cbn [sumz] in E. fold (on w p ts) in E. specialize (N w p ts).
    destruct (decide (publish = p)) as [->|Hp].
    + rewrite decide_True in E by done. unfold sat_sub. destruct p; simpl in *; lia.
    + rewrite decide_False in E by congruence. destruct p, publish; simpl in *; try done; lia.
  - specialize (H v c p Hc). unfold on in H. cbn [sumz] in H. rewrite decide_False in H by congruence. rewrite H. done.
Qed.

(** A peer that is evicted from its rooms is released twice: leaving the last
    room reaps it and the eviction reaps it again, so a worker that serves two of its side is
    counted as serving none while the other one is still there, and gets the next ones. *)
Theorem worker_released_twice (w : nat) (rooms : nat) (l : list Counts) (ts : list (nat * bool)) (c : Counts) :
  exact ((w, true) :: ts) l -> l !! w = Some c -> (0 < rooms)%nat ->
  exists c', evict_workers rooms [w] l !! w = Some c' /\ pubs c' = sat_sub (on w true ts) 1 /\ (0 < on w true ts -> ~ exact ts (evict_workers rooms [w] l)).
Proof.
  intros H Hw Hr. destruct rooms as [|rooms]; [lia|]. unfold evict_workers, reap_workers. cbn [release_from].
  pose proof (release_exact w true ts l H) as H1. assert (exists c1, release_worker w true l !! w = Some c1) as (c1 & Hc1).
  { unfold release_worker. rewrite list_lookup_alter_eq, Hw. by eexists. }
  exists (set_count true (sat_sub (pubs c1) 1) c1). specialize (H1 w c1 true Hc1) as E1. simpl in E1.
  assert (release_worker w true (release_worker w true l) !! w = Some (set_count true (sat_sub (pubs c1) 1) c1)) as E2.
  { unfold release_worker at 1. by rewrite list_lookup_alter_eq, Hc1. }
  split_and!; [done|simpl; by rewrite E1|]. intros Hp He. specialize (He w _ true E2). simpl in He. rewrite E1 in He. unfold sat_sub in He. lia.
Qed.

Lemma worker_released_twice_witness :
  exists c', evict_workers 1 [0%nat] [mkCounts 2 0; mkCounts 2 0] !! 0%nat = Some c' /\ pubs c' = 0 /\
    ~ exact [(0%nat, true); (1%nat, true); (1%nat, true)] (evict_workers 1 [0%nat] [mkCounts 2 0; mkCounts 2 0]).
Proof.
  destruct (worker_released_twice 0 1 [mkCounts 2 0; mkCounts 2 0] [(0%nat, true); (1%nat, true); (1%nat, true)] (mkCounts 2 0)) as (c' & H1 & H2 & H3);
    [|reflexivity|lia|exists c'; split; [exact H1|split; [rewrite H2; reflexivity|apply H3; vm_compute; reflexivity]]].
  intros w c p. destruct w as [|[|w]]; simpl; [| |done]; intros [= <-]; by destruct p.
Defined.

(** ** The time a packet took *)

Definition TRANSIT_EDGES : list Z := [1000; 5000; 10000; 50000; 100000; 500000; 1000000].

Record Transit := mkTransit { buckets : list Z; t_count : Z; sum_us : Z }.

Definition bucket (us : Z) : nat := default 7%nat (position (fun e => us <=? e) TRANSIT_EDGES).
Definition record_transit (us : Z) (t : Transit) : Transit := mkTransit (alter (fun x => u64 (x + 1)) (bucket us) (buckets t)) (u64 (t_count t + 1)) (u64 (sum_us t + us)).

End Worker.
