(* ===== verification/Config.v ===== *)
(** * Configuration

    crates/common/src/policy.rs: the policy with its defaults, ranges and rules between keys;
    system.rs: the system file, its check and what of it is written to the log at the start;
    args.rs: the arguments of the command line. The reading of TOML is third-party code: a policy
    or a system is what it makes of a file. Of the messages of the checks the model keeps what
    names the failed check. *)

From stdpp Require Import pretty.
From Stdlib Require Import Ascii.
From S2P Require Import Prelude Keyexpr Keyspace.

(** [to_string] of a number. *)
Definition num (z : Z) : string := pretty z.
Definition yes_no (b : bool) : string := if b then "true" else "false".

(** [join]. *)
Fixpoint join_with (sep : string) (l : list string) : string :=
  match l with [] => "" | [s] => s | s :: l => s +:+ sep +:+ join_with sep l end.

Module Policy.

Inductive LoggingLevel := Trace | Debug | Info | Warn | Error.
#[export] Instance LoggingLevel_eq_dec : EqDecision LoggingLevel.
Proof. solve_decision. Defined.

Definition as_str (l : LoggingLevel) : string :=
  match l with Trace => "trace" | Debug => "debug" | Info => "info" | Warn => "warn" | Error => "error" end.
Definition parse_level (s : string) : option LoggingLevel :=
  if String.eqb s "trace" then Some Trace else if String.eqb s "debug" then Some Debug else if String.eqb s "info" then Some Info
  else if String.eqb s "warn" then Some Warn else if String.eqb s "error" then Some Error else None.
Definition rank (l : LoggingLevel) : Z := match l with Trace => 0 | Debug => 1 | Info => 2 | Warn => 3 | Error => 4 end.

Record Logging := mkLogging {
  level : LoggingLevel; rotate_max_bytes : Z; retention_days : Z; line_max_bytes : Z; queue_max_lines : Z; spool_max_bytes : Z;
  socket_rcvbuf_bytes : Z; stat_interval_ms : Z }.
Definition logging_default : Logging := mkLogging Info 268435456 14 1024 8192 67108864 4194304 5000.

Inductive MediaBwemode := Twcc.
#[export] Instance MediaBwemode_eq_dec : EqDecision MediaBwemode.
Proof. solve_decision. Defined.
Inductive MediaAutolayer := Off | V1 | V2.
#[export] Instance MediaAutolayer_eq_dec : EqDecision MediaAutolayer.
Proof. solve_decision. Defined.
Definition layer_str (a : MediaAutolayer) : string := match a with Off => "off" | V1 => "v1" | V2 => "v2" end.

Record MediaP := mkMedia {
  bwe_mode : MediaBwemode; slot_mid_reserve : Z; auto_layer : MediaAutolayer; max_bitrate_bps : Z; pli_throttle_high_ms : Z; pli_throttle_low_ms : Z }.
Definition media_default : MediaP := mkMedia Twcc 40 Off 2000000 1000 500.

Record FloorP := mkFloorP { queue_max : Z; t2_stop_talking_secs : Z }.
Definition floor_default : FloorP := mkFloorP 10 30.

Record HubP := mkHub {
  token_ttl_secs : Z; heartbeat_interval_ms : Z; heartbeat_timeout_ms : Z; resume_window_ms : Z; ws_flow_window : Z; room_unused_ttl_secs : Z;
  room_departure_ttl_secs : Z; room_default_capacity : Z; metadata_max_bytes : Z; join_admit_per_sec : Z; join_retry_after_ms : Z; allowed_origins : list string }.
Definition hub_default : HubP := mkHub 3600 10000 30000 60000 8 0 0 1000 2048 0 5000 ["*"].

Record QuotaP := mkQuota { max_sessions : Z; max_rooms : Z }.
Record HookP := mkHook { retry_backoff_ms : list Z; retry_max : Z; hook_queue_max : Z }.
Definition hook_default : HookP := mkHook [1000; 2000; 4000; 8000; 16000] 5 10000.

Record Policy := mkPolicy { logging : Logging; media : MediaP; floor : FloorP; hub : HubP; quota : QuotaP; hook : HookP }.
Definition policy_default : Policy := mkPolicy logging_default media_default floor_default hub_default (mkQuota 0 0) hook_default.

(** [(a..=b).contains]. *)
Definition within (a b x : Z) : bool := (a <=? x) && (x <=? b).

(** The checks in their order; the first that fails is the error. *)
Definition rules (p : Policy) : list (bool * string) :=
  let h := hub p in let l := logging p in let m := media p in
  [(token_ttl_secs h <? 60, "hub.token_ttl_secs");
   (negb (within 1000 60000 (heartbeat_interval_ms h)), "hub.heartbeat_interval_ms");
   (heartbeat_timeout_ms h <? 2000, "hub.heartbeat_timeout_ms");
   (resume_window_ms h <? 52000, "hub.resume_window_ms");
   (negb (within 1 10 (ws_flow_window h)), "hub.ws_flow_window");
   (room_default_capacity h <? 1, "hub.room_default_capacity");
   (metadata_max_bytes h <? 256, "hub.metadata_max_bytes");
   (join_retry_after_ms h <? 100, "hub.join_retry_after_ms");
   (rotate_max_bytes l <? 1048576, "logging.rotate_max_bytes");
   (negb (within 256 2047 (line_max_bytes l)), "logging.line_max_bytes");
   (queue_max_lines l <? 256, "logging.queue_max_lines");
   (spool_max_bytes l <? 1048576, "logging.spool_max_bytes");
   (socket_rcvbuf_bytes l <? 65536, "logging.socket_rcvbuf_bytes");
   (negb (within 200 60000 (stat_interval_ms l)), "logging.stat_interval_ms");
   (128 <? slot_mid_reserve m, "media.slot_mid_reserve");
   (negb (within 100000 5000000 (max_bitrate_bps m)), "media.max_bitrate_bps");
   (negb (within 300 10000 (pli_throttle_high_ms m)), "media.pli_throttle_high_ms");
   (negb (within 300 10000 (pli_throttle_low_ms m)), "media.pli_throttle_low_ms");
   (queue_max (floor p) <? 1, "floor.queue_max");
   (negb (within 5 600 (t2_stop_talking_secs (floor p))), "floor.t2_stop_talking_secs");
   (hook_queue_max (hook p) <? 1, "hook.queue_max");
   (heartbeat_timeout_ms h <? u32 (2 * heartbeat_interval_ms h), "hb-timeout");
   (bool_decide (auto_layer m = V2) && negb (bool_decide (bwe_mode m = Twcc)), "v2-twcc");
   (max_bitrate_bps m <? 1900000, "bitrate-layers");
   (len (retry_backoff_ms (hook p)) <? retry_max (hook p), "hook-retry")].

Definition validate (p : Policy) : result unit string :=
  match List.find fst (rules p) with Some (_, k) => Err k | None => Ok tt end.

(** [parse]; [from_str] is the reader of TOML. *)
Definition parse (from_str : string -> result Policy string) (text : string) : result Policy string :=
  match from_str text with
  | Err e => Err e
  | Ok p => match validate p with Ok _ => Ok p | Err e => Err e end
  end.

Definition logging_fields (l : Logging) : list (string * string) :=
  [("logging.level", as_str (level l)); ("logging.rotate_max_bytes", num (rotate_max_bytes l)); ("logging.retention_days", num (retention_days l));
   ("logging.line_max_bytes", num (line_max_bytes l)); ("logging.queue_max_lines", num (queue_max_lines l)); ("logging.spool_max_bytes", num (spool_max_bytes l));
   ("logging.socket_rcvbuf_bytes", num (socket_rcvbuf_bytes l)); ("logging.stat_interval_ms", num (stat_interval_ms l))].

Definition media_fields (m : MediaP) : list (string * string) :=
  [("media.bwe_mode", "twcc"); ("media.slot_mid_reserve", num (slot_mid_reserve m)); ("media.auto_layer", layer_str (auto_layer m));
   ("media.max_bitrate_bps", num (max_bitrate_bps m)); ("media.pli_throttle_high_ms", num (pli_throttle_high_ms m)); ("media.pli_throttle_low_ms", num (pli_throttle_low_ms m))].

Definition banner_fields_sfu (p : Policy) : list (string * string) :=
  [("hub.room_unused_ttl_secs", num (room_unused_ttl_secs (hub p))); ("hub.room_departure_ttl_secs", num (room_departure_ttl_secs (hub p)));
   ("hub.room_default_capacity", num (room_default_capacity (hub p)))]
  ++ logging_fields (logging p) ++ media_fields (media p)
  ++ [("floor.queue_max", num (queue_max (floor p))); ("floor.t2_stop_talking_secs", num (t2_stop_talking_secs (floor p)))].

Definition banner_fields_hub (p : Policy) : list (string * string) :=
  let h := hub p in
  logging_fields (logging p)
  ++ [("hub.token_ttl_secs", num (token_ttl_secs h)); ("hub.heartbeat_interval_ms", num (heartbeat_interval_ms h)); ("hub.heartbeat_timeout_ms", num (heartbeat_timeout_ms h));
      ("hub.resume_window_ms", num (resume_window_ms h)); ("hub.ws_flow_window", num (ws_flow_window h)); ("hub.room_unused_ttl_secs", num (room_unused_ttl_secs h));
      ("hub.room_departure_ttl_secs", num (room_departure_ttl_secs h)); ("hub.room_default_capacity", num (room_default_capacity h));
      ("hub.metadata_max_bytes", num (metadata_max_bytes h)); ("hub.join_admit_per_sec", num (join_admit_per_sec h)); ("hub.join_retry_after_ms", num (join_retry_after_ms h));
      ("hub.allowed_origins", join_with "," (allowed_origins h)); ("quota.max_sessions", num (max_sessions (quota p))); ("quota.max_rooms", num (max_rooms (quota p)));
      ("hook.retry_backoff_ms", join_with "," (map num (retry_backoff_ms (hook p)))); ("hook.retry_max", num (retry_max (hook p))); ("hook.queue_max", num (hook_queue_max (hook p)))].

(** The ranges and rules as the policy states them, with what the types leave possible. *)
Record valid (p : Policy) : Prop := {
  v_ttl : 60 <= token_ttl_secs (hub p);
  v_interval : 1000 <= heartbeat_interval_ms (hub p) <= 60000;
  v_timeout : 2 * heartbeat_interval_ms (hub p) <= heartbeat_timeout_ms (hub p);
  v_resume : 52000 <= resume_window_ms (hub p);
  v_window : 1 <= ws_flow_window (hub p) <= 10;
  v_capacity : 1 <= room_default_capacity (hub p);
  v_meta : 256 <= metadata_max_bytes (hub p);
  v_retry : 100 <= join_retry_after_ms (hub p);
  v_rotate : 1048576 <= rotate_max_bytes (logging p);
  v_line : 256 <= line_max_bytes (logging p) <= 2047;
  v_lines : 256 <= queue_max_lines (logging p);
  v_spool : 1048576 <= spool_max_bytes (logging p);
  v_rcvbuf : 65536 <= socket_rcvbuf_bytes (logging p);
  v_stat : 200 <= stat_interval_ms (logging p) <= 60000;
  v_slots : slot_mid_reserve (media p) <= 128;
  v_bitrate : 1900000 <= max_bitrate_bps (media p) <= 5000000;
  v_high : 300 <= pli_throttle_high_ms (media p) <= 10000;
  v_low : 300 <= pli_throttle_low_ms (media p) <= 10000;
  v_floor : 1 <= queue_max (floor p);
  v_t2 : 5 <= t2_stop_talking_secs (floor p) <= 600;
  v_hook : 1 <= hook_queue_max (hook p);
  v_backoff : retry_max (hook p) <= len (retry_backoff_ms (hook p)) }.

Lemma validate_all p : validate p = Ok tt <-> Forall (fun r => r.1 = false) (rules p).
Proof.
  unfold validate. induction (rules p) as [|[b k] l IH]; [split; [constructor|done]|]. cbn [List.find fst]. rewrite Forall_cons. destruct b; [split; [done|by intros [[=] _]]|].
  rewrite IH. simpl. tauto.
Qed.

Lemma within_iff a b x : negb (within a b x) = false <-> a <= x <= b.
Proof. unfold within. rewrite negb_false_iff, andb_true_iff, !Z.leb_le. done. Qed.

(** A policy passes the check exactly when every key is in its range and
    the rules between keys hold; the product in the rule of the heartbeat does not overflow. *)
Theorem policy_valid_iff (p : Policy) : validate p = Ok tt <-> valid p.
Proof.
  rewrite validate_all. unfold rules. rewrite !Forall_cons, Forall_nil. cbn [fst]. rewrite !within_iff, !Z.ltb_ge.
  assert (bool_decide (auto_layer (media p) = V2) && negb (bool_decide (bwe_mode (media p) = Twcc)) = false) as -> by (destruct (bwe_mode (media p)); by rewrite andb_false_r).
  assert (1000 <= heartbeat_interval_ms (hub p) <= 60000 -> u32 (2 * heartbeat_interval_ms (hub p)) = 2 * heartbeat_interval_ms (hub p)) as Hu by (intros; apply u32_id; ulia).
  split.
  - intros H. repeat match type of H with _ /\ _ => destruct H as [? H] end. rewrite Hu in * by done. split; done || lia.
  - intros []. rewrite Hu by done. split_and!; done || lia.
Qed.

Lemma default_valid : validate policy_default = Ok tt.
Proof. reflexivity. Qed.

End Policy.

Module Sys.

Inductive UnitKind := Process | Remote | Inproc.
#[export] Instance UnitKind_eq_dec : EqDecision UnitKind.
Proof. solve_decision. Defined.
Definition kind_str (k : UnitKind) : string := match k with Process => "process" | Remote => "remote" | Inproc => "inproc" end.

Record UnitC := mkUnit { id : string; kind : UnitKind; order : Z; role : string; addr : option string; cmd : list string; enabled : bool }.
Record ApiKey := mkKey {
  key : string; secret : string; name : option string; participant_types : list Z; hidden_allowed : bool; ops_allowed : bool; hook_allowed : bool }.
Record Tls := mkTls { t_cert : string; t_key : string }.
Record HubSection := mkHubS {
  listen : string; base_path : string; log_dir : option string; log_socket : option string; tls : option Tls; jwt_secret : option string; api_keys : list ApiKey }.
Record BusC := mkBus { b_listen : list string; advertise : list string; connect : list string; namespace : string }.
Record SupervisorC := mkSupC { backoff_ms : list Z; intensity_max : Z; intensity_window_secs : Z; hello_timeout_ms : Z; node_grace_secs : Z }.
Definition supervisor_default : SupervisorC := mkSupC [200; 500; 1000; 2000; 5000] 5 60 10000 30.
Record Webhook := mkHookC { url : string; h_secret : string }.

(** [hook] is [None] when the section is missing. *)
Record System := mkSystem { hubs : HubSection; units : list UnitC; bus : BusC; supervisor : SupervisorC; hook : option (list Webhook) }.

Inductive Bad := BadNamespace | DuplicateUnit (id : string) | NoCommand (id : string).

Fixpoint check_units (seen : gset string) (l : list UnitC) : option Bad :=
  match l with
  | [] => None
  | u :: l =>
    if bool_decide (id u ∈ seen) then Some (DuplicateUnit (id u))
    else if bool_decide (kind u = Process) && bool_decide (cmd u = []) then Some (NoCommand (id u))
    else check_units ({[id u]} ∪ seen) l
  end.

Definition validate (s : System) : option Bad := if negb (Keys.valid_piece (namespace (bus s))) then Some BadNamespace else check_units ∅ (units s).

Definition first_sfu_unit (s : System) : option UnitC := List.find (fun u => String.eqb (role u) "sfu") (units s).

Definition opt (o : option string) : string := default "-" o.
Definition or_dash (sep : string) (l : list string) : string := match l with [] => "-" | _ => join_with sep l end.

Definition key_fields (i : Z) (k : ApiKey) : list (string * string) :=
  let p := "hub.auth.api_keys[" +:+ num i +:+ "]" in
  [(p +:+ ".key", key k); (p +:+ ".secret", "***"); (p +:+ ".name", opt (name k)); (p +:+ ".participant_types", join_with "," (map num (participant_types k)));
   (p +:+ ".hidden_allowed", yes_no (hidden_allowed k)); (p +:+ ".ops_allowed", yes_no (ops_allowed k)); (p +:+ ".hook_allowed", yes_no (hook_allowed k))].

Definition unit_fields (i : Z) (u : UnitC) : list (string * string) :=
  let p := "unit[" +:+ num i +:+ "]" in
  [(p +:+ ".id", id u); (p +:+ ".kind", kind_str (kind u)); (p +:+ ".order", num (order u)); (p +:+ ".role", role u); (p +:+ ".addr", opt (addr u));
   (p +:+ ".cmd", or_dash " " (cmd u)); (p +:+ ".enabled", yes_no (enabled u))].

Definition hook_fields (i : Z) (w : Webhook) : list (string * string) :=
  [("hook.webhooks[" +:+ num i +:+ "].url", url w); ("hook.webhooks[" +:+ num i +:+ "].secret", "***")].

(** [iter().enumerate()], each with its fields. *)
Fixpoint each {A} (f : Z -> A -> list (string * string)) (i : Z) (l : list A) : list (string * string) :=
  match l with [] => [] | x :: l => f i x ++ each f (i + 1) l end.

Definition banner_fields (s : System) : list (string * string) :=
  let h := hubs s in let b := bus s in let v := supervisor s in
  [("hub.listen", listen h); ("hub.base_path", base_path h); ("hub.log_dir", opt (log_dir h)); ("hub.log_socket", opt (log_socket h));
   ("hub.tls.cert", opt (t_cert <$> tls h)); ("hub.tls.key", opt (t_key <$> tls h));
   ("hub.auth.jwt_secret", match jwt_secret h with Some _ => "***" | None => "-" end)]
  ++ each key_fields 0 (api_keys h) ++ each unit_fields 0 (units s)
  ++ [("bus.listen", join_with "," (b_listen b)); ("bus.advertise", or_dash "," (advertise b)); ("bus.connect", or_dash "," (connect b)); ("bus.namespace", namespace b);
      ("supervisor.backoff_ms", join_with "," (map num (backoff_ms v))); ("supervisor.intensity_max", num (intensity_max v));
      ("supervisor.intensity_window_secs", num (intensity_window_secs v)); ("supervisor.hello_timeout_ms", num (hello_timeout_ms v)); ("supervisor.node_grace_secs", num (node_grace_secs v))]
  ++ match hook s with
     | Some (w :: l) => each hook_fields 0 (w :: l)
     | _ => [("hook.webhooks", "-")]
     end.

(** What is left of a configuration when every secret is replaced. *)
Definition mask_key (k : ApiKey) : ApiKey := mkKey (key k) "" (name k) (participant_types k) (hidden_allowed k) (ops_allowed k) (hook_allowed k).
Definition mask_hub (h : HubSection) : HubSection :=
  mkHubS (listen h) (base_path h) (log_dir h) (log_socket h) (tls h) ((fun _ => "") <$> jwt_secret h) (map mask_key (api_keys h)).
Definition mask (s : System) : System := mkSystem (mask_hub (hubs s)) (units s) (bus s) (supervisor s) (map (fun w => mkHookC (url w) "") <$> hook s).

Lemma each_map {A} (f : Z -> A -> list (string * string)) g l : (forall i x, f i (g x) = f i x) -> forall i, each f i (map g l) = each f i l.
Proof. intros H. induction l as [|x l IH]; intros i; simpl; [done|]. by rewrite H, IH. Qed.

(** The log shows no secret: what is written at the start is the same for two
    configurations that differ in the secrets only. *)
Theorem banner_hides_secrets (s s' : System) : mask s = mask s' -> banner_fields s = banner_fields s'.
Proof.
  assert (forall s, banner_fields (mask s) = banner_fields s) as F; [|intros H; rewrite <- (F s), <- (F s'); by rewrite H].
  clear. intros [h us b v k]. unfold banner_fields, mask, mask_hub; cbn [hubs units bus supervisor hook listen base_path log_dir log_socket tls jwt_secret api_keys].
  rewrite (each_map key_fields mask_key) by done. f_equal; [by destruct (jwt_secret h)|]. do 3 f_equal. destruct k as [[|w l]|]; [done| |done]. exact (each_map hook_fields (fun w => mkHookC (url w) "") (w :: l) (fun _ _ => eq_refl) 0).
Qed.

Definition sys1 (jwt k h : string) : System :=
  mkSystem (mkHubS "0.0.0.0:1974" "/media" None None None (Some jwt) [mkKey "k1" k None [0] false true false]) [] (mkBus [] [] [] "ox") supervisor_default (Some [mkHookC "https://x" h]).

Lemma banner_hides_secrets_witness : banner_fields (sys1 "s1" "s2" "s3") = banner_fields (sys1 "t1" "t2" "t3").
Proof. apply (banner_hides_secrets (sys1 "s1" "s2" "s3") (sys1 "t1" "t2" "t3")). reflexivity. Defined.

(** A configuration that passes has units that can be told apart and started. *)
Lemma check_units_ok l : forall seen, check_units seen l = None <->
  NoDup (map id l) /\ (forall u, u ∈ l -> id u ∉ seen) /\ (forall u, u ∈ l -> kind u = Process -> cmd u <> []).
Proof.
  induction l as [|u l IH]; intros seen; simpl; [split; [intros _; split_and!; [constructor|set_solver|set_solver]|done]|].
  rewrite NoDup_cons. case_bool_decide as H1; [split; [done|intros (_ & Hu & _); destruct (Hu u); [left|done]]|].
  destruct (bool_decide (kind u = Process) && bool_decide (cmd u = [])) eqn:E.
  - zbool. split; [done|]. intros (_ & _ & Hu). by destruct (Hu u (list_elem_of_here _ _)).
  - rewrite IH. assert (kind u = Process -> cmd u <> []) as Hc.
    { intros Hk Hn. rewrite Hk, Hn in E. done. }
    split.
    + intros (A & B & D). split_and!.
      * intros Hm. apply list_elem_of_In, in_map_iff in Hm as (u' & Eu & Hin). apply list_elem_of_In in Hin. specialize (B u' Hin). set_solver.
      * done.
      * intros x. rewrite elem_of_cons. intros [->|Hx]; [done|]. specialize (B x Hx). set_solver.
      * intros x. rewrite elem_of_cons. intros [->|Hx]; auto.
    + intros ((A & A') & B & D). split_and!; [done| |].
      * intros x Hx. specialize (B x (list_elem_of_further _ _ _ Hx)). assert (id x <> id u); [|set_solver]. intros Ex. apply A. rewrite <- Ex. apply list_elem_of_In, in_map, list_elem_of_In, Hx.
      * intros x Hx. apply D. by right.
Qed.

End Sys.

(** ** Arguments *)

Module Args.

Record Args := mkArgs { values : gmap string string; flags : list string; known : list string }.

Inductive ArgError := Unexpected (x : string) | Unknown (name : string) | NeedsValue (name : string).

(** [strip_prefix("--")]. *)
Definition strip_dashes (x : string) : option string := match x with String a (String b r) => if Ascii.eqb a "-"%char && Ascii.eqb b "-"%char then Some r else None | _ => None end.

Definition mem (x : string) (l : list string) : bool := existsb (String.eqb x) l.

(** The loop takes one or two words in a round. *)
Fixpoint parse_loop (known fl : list string) (l : list string) (a : Args) : result Args ArgError :=
  match l with
  | [] => Ok a
  | x :: l =>
    let! nm := strip_dashes x else Err (Unexpected x) in
    let (name, inline) := match Kx.cut "="%char nm with Some (n, v) => (n, Some v) | None => (nm, None) end in
    if mem name fl then parse_loop known fl l (mkArgs (values a) (flags a ++ [name]) (Args.known a))
    else if negb (mem name known) then Err (Unknown name)
    else
      match inline, l with
      | Some v, _ => parse_loop known fl l (mkArgs (<[name := v]> (values a)) (flags a) (Args.known a))
      | None, v :: l => parse_loop known fl l (mkArgs (<[name := v]> (values a)) (flags a) (Args.known a))
      | None, [] => Err (NeedsValue name)
      end
  end.

Definition parse (l known fl : list string) : result Args ArgError := parse_loop known fl l (mkArgs ∅ [] known).

Definition get (name : string) (a : Args) : option string := values a !! name.
Definition flag (name : string) (a : Args) : bool := existsb (String.eqb name) (flags a).
Definition banner_fields (a : Args) : list (string * string) := map (fun k => (k, default "-" (get k a))) (known a).

(** A command line: values and flags in any order, a value given in the same word or in the next. *)
Inductive Word := WValue (name v : string) (inline : bool) | WFlag (name : string).
Definition words (w : Word) : list string :=
  match w with
  | WValue n v true => ["--" +:+ n +:+ "=" +:+ v]
  | WValue n v false => ["--" +:+ n; v]
  | WFlag n => ["--" +:+ n]
  end.
Definition plain (s : string) : bool := negb (Kx.contains "="%char s).

Definition fits (known fl : list string) (w : Word) : bool :=
  match w with WValue n _ _ => plain n && mem n known && negb (mem n fl) | WFlag n => plain n && mem n fl end.

Definition put (a : Args) (w : Word) : Args :=
  match w with WValue n v _ => mkArgs (<[n := v]> (values a)) (flags a) (known a) | WFlag n => mkArgs (values a) (flags a ++ [n]) (known a) end.

Lemma plain_cut n : plain n = true -> Kx.cut "="%char n = None.
Proof.
  unfold plain. rewrite negb_true_iff. induction n as [|x n IH]; [done|]. intros [Hx H]%orb_false_iff. rewrite Ascii.eqb_sym in Hx. cbn [Kx.cut]. by rewrite Hx, (IH H).
Qed.

Lemma plain_cut_value n v : plain n = true -> Kx.cut "="%char (n +:+ "=" +:+ v) = Some (n, v).
Proof.
  unfold plain. rewrite negb_true_iff. induction n as [|x n IH]; [done|]. intros [Hx H]%orb_false_iff. change (String x n +:+ "=" +:+ v) with (String x (n +:+ "=" +:+ v)).
  rewrite Ascii.eqb_sym in Hx. cbn [Kx.cut]. by rewrite Hx, (IH H).
Qed.

Lemma arg_strip_ok s : strip_dashes ("--" +:+ s) = Some s.
Proof. reflexivity. Qed.

(** A command line of known names is taken as it is meant: every value is
    kept under its name, the last one when a name comes twice, whether it is in the same word or
    in the next, and every flag is set. *)
Theorem args_parse_exact (known_ fl : list string) (ws : list Word) :
  forallb (fits known_ fl) ws = true -> parse (flat_map words ws) known_ fl = Ok (fold_left put ws (mkArgs ∅ [] known_)).
Proof.
  unfold parse. generalize (mkArgs ∅ [] known_). induction ws as [|w ws IH]; intros a; [done|]. cbn [forallb flat_map fold_left]. intros [Hw Hws]%andb_true_iff.
  destruct w as [n v [|]|n]; cbn [words fits] in *.
  - apply andb_true_iff in Hw as [[Hp Hk]%andb_true_iff Hf]. cbn [app parse_loop]. rewrite arg_strip_ok.
    rewrite (plain_cut_value n v Hp), (proj1 (negb_true_iff _) Hf), Hk. by apply IH.
  - apply andb_true_iff in Hw as [[Hp Hk]%andb_true_iff Hf]. cbn [app parse_loop]. rewrite arg_strip_ok.
    rewrite (plain_cut n Hp), (proj1 (negb_true_iff _) Hf), Hk. by apply IH.
  - apply andb_true_iff in Hw as [Hp Hf]. cbn [app parse_loop]. rewrite arg_strip_ok. rewrite (plain_cut n Hp), Hf. by apply IH.
Qed.

Lemma args_parse_exact_witness :
  parse ["--id"; "n1"; "--udp-port=20000"; "--version"] ["id"; "udp-port"; "build"] ["version"]
  = Ok (mkArgs (<["udp-port" := "20000"]> {[ "id" := "n1" ]}) ["version"] ["id"; "udp-port"; "build"]).
Proof. exact (args_parse_exact ["id"; "udp-port"; "build"] ["version"] [WValue "id" "n1" false; WValue "udp-port" "20000" true; WFlag "version"] eq_refl). Defined.

End Args.
