(* ===== verification/Uplink.v ===== *)
(** * RTCP of a transport

    crates/oxsfud/src/rtcp/mod.rs, the runtime part: the requests for key frames and their
    throttle ([request_pli]), the reports a worker sends to a publisher on its tick
    ([uplink]), and what the server does with the RTCP a client sends ([on_rtcp], [on_sr],
    [on_rr]). The packets themselves are in [Rtcp], the receiver statistics in [RtcpCore],
    the transport-wide window in [TwccRecv], the upstream NACKs and the answers to a
    subscriber's NACK in [Publish].

    A published track is known by its [src_key], which no two tracks share. What a function
    hands to [send_rtcp] or [emit] is an output; whether the path of the transport is open
    is not part of it. *)

From S2P Require Import Prelude Rewriter Rtp Rtcp RtcpCore TwccRecv Publish.

Module Uplink.

Definition RR_MS : Z := 1000.
Definition TWCC_MS : Z := 100.
Definition REMB_MS : Z := 1000.
Definition SENT_KEEP : nat := Z.to_nat 32768.

(** ** Key frame requests *)

Record PliState := mkPli { last_ms : Z; pending : bool; psent : Z }.
Definition pli_default : PliState := mkPli 0 false 0.

(** A published track, as far as RTCP reads and writes it. *)
Record Track := mkTrack {
  ssrc : Z; src_key : Z; video : bool; rid : option Z;
  recv : Recv.RecvStats; nack : Pub.NackUp; pli : PliState }.

Definition set_pli p t := mkTrack (ssrc t) (src_key t) (video t) (rid t) (recv t) (nack t) p.
Definition set_nack n t := mkTrack (ssrc t) (src_key t) (video t) (rid t) (recv t) n (pli t).
Definition set_recv r t := mkTrack (ssrc t) (src_key t) (video t) (rid t) r (nack t) (pli t).

(** The policy of the node, as far as this file reads it. *)
Record Policy := mkPolicy { pli_throttle_high_ms : Z; pli_throttle_low_ms : Z; max_bitrate_bps : Z }.

Inductive Out :=
  | SendRtcp (data : list byte)                     (** [send_rtcp] on the transport at hand *)
  | EmitPli (t : Z) (at_ms : Z) (data : list byte)  (** [emit] to the publisher of track [t] *)
  | EmitSr (row : Z) (data : list byte)             (** [emit] to the subscriber of a row *)
  | SendRtx (row : Z) (data : list byte)            (** [send_built] on a row *)
  | OnTwcc (body : list byte)                       (** [sim::on_twcc] *)
  | DropCount (name : string).                      (** [drop_count] *)

Section Policy.
Context (pol : Policy).

Definition throttle_ms (t : Track) : Z :=
  if bool_decide (rid t = Some 0) then pli_throttle_low_ms pol else pli_throttle_high_ms pol.

(** [now] is the clock read inside; the weak pointer to the transport of a track that is
    still published can be upgraded. *)
Definition request_pli (infra : bool) (now : Z) (t : Track) : Track * list Out :=
  if negb (video t) then (t, [])
  else
    let p := pli t in
    if (last_ms p =? 0) || (throttle_ms t <=? sat_sub now (last_ms p)) then
      (set_pli (mkPli now false (u64 (psent p + 1))) t, [EmitPli (src_key t) now (Rtcp.build_pli (ssrc t))])
    else if infra then (set_pli (mkPli (last_ms p) true (psent p)) t, [])
    else (t, [DropCount "pli_throttled"]).

(** The clearing of the request in [release_media], when the track loses the slot. *)
Definition unbind (t : Track) : Track := set_pli (mkPli (last_ms (pli t)) false (psent (pli t))) t.

(** ** The tick of a worker, for a transport that publishes *)

Definition due (slot now every : Z) : Z * bool := if slot <=? now then (now + every, true) else (slot, false).

Record SrInfo := mkSr { ntp : Z; srtp : Z; at_us : Z }.
Record Sent := mkSent { seq : Z; sat_us : Z; size : Z; probe : bool }.

Record ConnRtcp := mkConn {
  twcc_rx : Twcc.TwccRecv; next_rr : Z; next_twcc : Z; next_remb : Z; sr : gmap Z SrInfo; csent : list Sent }.

Definition conn_default : ConnRtcp := mkConn Twcc.default 0 0 0 ∅ [].
Definition set_twcc x c := mkConn x (next_rr c) (next_twcc c) (next_remb c) (sr c) (csent c).
Definition set_next_rr x c := mkConn (twcc_rx c) x (next_twcc c) (next_remb c) (sr c) (csent c).
Definition set_next_twcc x c := mkConn (twcc_rx c) (next_rr c) x (next_remb c) (sr c) (csent c).
Definition set_next_remb x c := mkConn (twcc_rx c) (next_rr c) (next_twcc c) x (sr c) (csent c).
Definition set_sr x c := mkConn (twcc_rx c) (next_rr c) (next_twcc c) (next_remb c) x (csent c).
Definition set_csent x c := mkConn (twcc_rx c) (next_rr c) (next_twcc c) (next_remb c) (sr c) x.

Definition twcc_in (seq at_us : Z) (c : ConnRtcp) : ConnRtcp := set_twcc (Twcc.record seq at_us (twcc_rx c)) c.

(** The packets sent, the last [SENT_KEEP] of them. *)
Definition sent_twcc (seq size now_us : Z) (probe : bool) (c : ConnRtcp) : ConnRtcp :=
  let l := csent c ++ [mkSent seq now_us size probe] in
  set_csent (drop (length l - SENT_KEEP) l) c.

(** The tracks of an ingress map under their own number, by it; a track is also there under
    the number of its retransmissions. *)
Definition by_ssrc (a b : Track) : Prop := ssrc a <= ssrc b.
#[global] Instance by_ssrc_dec : RelDecision by_ssrc.
Proof. intros a b. unfold by_ssrc. apply _. Defined.
Definition uplink_tracks (ingress : list (Z * Track)) : list Track :=
  merge_sort by_ssrc (omap (fun kt => if kt.1 =? ssrc kt.2 then Some kt.2 else None) ingress).

(** The first loop of [uplink] for one track: upstream NACKs, and the key frame requests that
    were put off. [now] is the time of the tick, [r1] and [r2] what the clock says in the two
    calls of [request_pli]. *)
Definition nack_track (now r1 r2 : Z) (t : Track) : Track * list Out :=
  if negb (video t) then (t, [])
  else
    let '(n, (seqs, gave_up)) := Pub.due now (nack t) in
    let t := set_nack n t in
    let o1 := match seqs with [] => [] | _ => [SendRtcp (Rtcp.build_nack (ssrc t) seqs)] end in
    let (t, o2) := if gave_up then request_pli true r1 t else (t, []) in
    let flush := pending (pli t) && (throttle_ms t <=? sat_sub now (last_ms (pli t))) in
    let (t, o3) := if flush then request_pli true r2 t else (t, []) in
    (t, o1 ++ o2 ++ o3).

(** The receiver report of one track; [mono_us] is the monotonic clock. *)
Definition rr_track (mono_us : Z) (srs : gmap Z SrInfo) (t : Track) : Track * list Out :=
  let (s, r) := Recv.report (recv t) in
  let t := set_recv s t in
  let! r := r else (t, []) in
  let (lsr, dlsr) :=
    match srs !! ssrc t with
    | Some x => (Z.land (Z.shiftr (ntp x) 16) 0xffffffff, Z.max 1 (u32 (u64 (sat_sub mono_us (at_us x) * 65536) / 1000000)))
    | None => (0, 0)
    end in
  (t, [SendRtcp (Rtcp.build_rr (ssrc t) r lsr dlsr)]).

(** The loop that sends the transport-wide feedback until nothing is pending. *)
Fixpoint drain (fuel : nat) (media_ssrc : Z) (x : Twcc.TwccRecv) : Twcc.TwccRecv * list Out :=
  match fuel with
  | O => (x, [])
  | S fuel =>
    let (x, fb) := if Twcc.pending x then Twcc.build x else (x, None) in
    match fb with
    | Some f => let (x, o) := drain fuel media_ssrc x in (x, SendRtcp (Rtcp.build_twcc media_ssrc f) :: o)
    | None => (x, [])
    end
  end.

(** One feedback moves the window on by one number at least. *)
Definition drain_fuel (x : Twcc.TwccRecv) : nat :=
  match Twcc.window_start x, Twcc.last_key (Twcc.arrivals x) with
  | Some w, Some l => S (Z.to_nat (l - w + 1))
  | _, _ => 1
  end.

Fixpoint each_track (f : Track -> Track * list Out) (l : list Track) : list Track * list Out :=
  match l with
  | [] => ([], [])
  | t :: l => let (t, o) := f t in let (l, o') := each_track f l in (t :: l, o ++ o')
  end.

(** [uplink]; [clk] gives the clock readings for a track, [twcc_ext] is the number of the
    header extension the client negotiated. *)
Definition uplink (now mono_us : Z) (clk : Track -> Z * Z) (twcc_ext : Z) (ups : list Track) (c : ConnRtcp) : list Track * ConnRtcp * list Out :=
  let (ups, o1) := each_track (fun t => nack_track now (clk t).1 (clk t).2 t) ups in
  let (nx, fire) := due (next_rr c) now RR_MS in
  let c := set_next_rr nx c in
  let (ups, o2) := if fire then each_track (rr_track mono_us (sr c)) ups else (ups, []) in
  let (nx, fire) := due (next_remb c) now REMB_MS in
  let c := set_next_remb nx c in
  let o3 := if fire then [SendRtcp (Rtcp.build_remb (max_bitrate_bps pol) (map ssrc ups))] else [] in
  let (nx, fire) := if negb (twcc_ext =? 0) then due (next_twcc c) now TWCC_MS else (next_twcc c, false) in
  let c := set_next_twcc nx c in
  let (x, o4) := if fire then drain (drain_fuel (twcc_rx c)) (match ups with t :: _ => ssrc t | [] => 0 end) (twcc_rx c) else (twcc_rx c, []) in
  (ups, set_twcc x c, o1 ++ o2 ++ o3 ++ o4).

(** *** What the tick does for one transport *)

Definition KEEPALIVE_MS : Z := 20000.
Definition TICK_SIM_MS : Z := 1000.
Definition TICK_PROBE_US : Z := 20000.

Record Timers := mkTimers { next_keepalive : Z; next_sim : Z; next_probe_us : Z }.

(** The empty frame on every TCP path, the reports above, the choice of the layers and the
    padding of a probe. *)
Inductive Act := Keepalive | Uplinks | SimTick | SimProbe.

Definition tick_tr (closed ready publishes auto_layer_on : bool) (now now_us : Z) (t : Timers) : Timers * list Act :=
  if closed then (t, [])
  else
    let (nk, fire) := due (next_keepalive t) now KEEPALIVE_MS in
    let t := mkTimers nk (next_sim t) (next_probe_us t) in
    let o1 := if fire then [Keepalive] else [] in
    if negb ready then (t, o1)
    else
      let o2 := if publishes then [Uplinks] else [] in
      if negb auto_layer_on then (t, o1 ++ o2)
      else
        let (ns, fire) := due (next_sim t) now TICK_SIM_MS in
        let o3 := if fire then [SimTick] else [] in
        let (np, fire) := due (next_probe_us t) now_us TICK_PROBE_US in
        let o4 := if fire then [SimProbe] else [] in
        (mkTimers (next_keepalive t) ns np, o1 ++ o2 ++ o3 ++ o4).

(** The paths [keepalive] sends on: the TCP connections among the pairs. *)
Definition keepalive_paths (pairs : list (option Z)) : list Z := omap (fun p => p) pairs.

Definition forget_user (u : string) (m : Pub.Budget) : Pub.Budget := delete u m.

(** ** What a client sends *)

(** A row of a subscriber ([DownRow]); [src_track] is the track it carries. *)
Record Down := mkDown {
  dssrc : Z; rtx_ssrc : option Z; audio : bool; user : string; mid : list byte; rtx_pt : Z; rtx_gate_until_new : bool;
  rw : Rw.Rewriter; ext : Rtp.ExtTable; src_track : option Z; sent : Z; bytes : Z;
  nacks : Z; rr_loss : Z; rr_at : Z; rtx_seq : Z }.

Definition set_nacks x d := mkDown (dssrc d) (rtx_ssrc d) (audio d) (user d) (mid d) (rtx_pt d) (rtx_gate_until_new d) (rw d) (ext d) (src_track d) (sent d) (bytes d) x (rr_loss d) (rr_at d) (rtx_seq d).
Definition set_rr l a d := mkDown (dssrc d) (rtx_ssrc d) (audio d) (user d) (mid d) (rtx_pt d) (rtx_gate_until_new d) (rw d) (ext d) (src_track d) (sent d) (bytes d) (nacks d) l a (rtx_seq d).
Definition set_rtx_seq x d := mkDown (dssrc d) (rtx_ssrc d) (audio d) (user d) (mid d) (rtx_pt d) (rtx_gate_until_new d) (rw d) (ext d) (src_track d) (sent d) (bytes d) (nacks d) (rr_loss d) (rr_at d) x.

(** The node as one transport sees it: the published tracks by [src_key] with their caches,
    the rows, the rows that carry a track ([rows_of_source]), and of the transport its ingress
    map, its table, its RTCP state and its counters. *)
Record World := mkWorld {
  tracks : gmap Z Track; caches : gmap Z Pub.Cache; rows : gmap Z Down; fan : gmap Z (list Z); budget : Pub.Budget;
  ingress : gmap Z Z; table : option (list Z); rtc : ConnRtcp; twcc_seq : Z; nack_in : Z; pli_in : Z }.

Definition set_tracks x w := mkWorld x (caches w) (rows w) (fan w) (budget w) (ingress w) (table w) (rtc w) (twcc_seq w) (nack_in w) (pli_in w).
Definition set_rows x w := mkWorld (tracks w) (caches w) x (fan w) (budget w) (ingress w) (table w) (rtc w) (twcc_seq w) (nack_in w) (pli_in w).
Definition set_budget x w := mkWorld (tracks w) (caches w) (rows w) (fan w) x (ingress w) (table w) (rtc w) (twcc_seq w) (nack_in w) (pli_in w).
Definition set_rtc x w := mkWorld (tracks w) (caches w) (rows w) (fan w) (budget w) (ingress w) (table w) x (twcc_seq w) (nack_in w) (pli_in w).
Definition set_twcc_seq x w := mkWorld (tracks w) (caches w) (rows w) (fan w) (budget w) (ingress w) (table w) (rtc w) x (nack_in w) (pli_in w).
Definition set_nack_in x w := mkWorld (tracks w) (caches w) (rows w) (fan w) (budget w) (ingress w) (table w) (rtc w) (twcc_seq w) x (pli_in w).
Definition set_pli_in x w := mkWorld (tracks w) (caches w) (rows w) (fan w) (budget w) (ingress w) (table w) (rtc w) (twcc_seq w) (nack_in w) x.

(** [Table::row_by_ssrc]: the row, and whether the number is the one of its retransmissions. *)
Fixpoint find_row (rows : gmap Z Down) (x : Z) (ids : list Z) : option (Z * Down * bool) :=
  match ids with
  | [] => None
  | i :: ids =>
    let! d := rows !! i else find_row rows x ids in
    if dssrc d =? x then Some (i, d, false)
    else if bool_decide (rtx_ssrc d = Some x) then Some (i, d, true)
    else find_row rows x ids
  end.
Definition row_by_ssrc (w : World) (x : Z) : option (Z * Down * bool) := let? ids := table w in find_row (rows w) x ids.

(** [send_rtx] on row [i], and [send_built] for each packet: it takes the next transport-wide
    number and notes the packet as sent. [now] and [mono_us] are the clocks, [sealed] the
    length of a packet once it is encrypted. *)
Fixpoint send_rtx (now mono_us : Z) (sealed : list byte -> Z) (i ssrc : Z) (seqs : list Z) (w : World) : World * list Out :=
  match seqs with
  | [] => (w, [])
  | q :: seqs =>
    let! d := rows w !! i else (w, []) in
    let view := Pub.mkRow (user d) (rtx_pt d) (rtx_ssrc d) (rtx_gate_until_new d) (rw d) (k ← src_track d; caches w !! k) (ext d)
                  (Rtp.mkInput (mid d) None mono_us (Some (twcc_seq w))) in
    let '(b, rs, x) := Pub.rtx_one view ssrc now q (budget w, rtx_seq d) in
    let w := w |> set_budget b |> set_rows (<[i := set_rtx_seq rs d]> (rows w)) in
    let (w, o) :=
      match x with
      | Ok pk => (w |> set_twcc_seq (u16 (twcc_seq w + 1)) |> set_rtc (sent_twcc (twcc_seq w) (sealed pk) mono_us false (rtc w)), [SendRtx i pk])
      | Err Pub.RtxGate => (w, [DropCount "rtx_gate"])
      | Err Pub.RtxCacheMiss => (w, [DropCount "rtx_cache_miss"])
      | Err Pub.RtxBudget => (w, [DropCount "rtx_budget"])
      | Err Pub.Unparsable => (w, [])
      end in
    let (w, o') := send_rtx now mono_us sealed i ssrc seqs w in
    (w, o ++ o')
  end.

(** The sender report of a publisher: kept for the reports the server sends back, and passed
    on to the rows that carry the track with the timestamp they are on. *)
Definition translate (k : Z) (x : SrInfo) (rtp : Z) (w : World) (i : Z) : list Out :=
  let! d := rows w !! i else [] in
  if bool_decide (Rw.src (rw d) = Some k) then
    [EmitSr i (Rtcp.build_sr (dssrc d) (ntp x) (Rw.translate_sr_ts rtp (rw d)) (u32 (sent d)) (u32 (bytes d)))]
  else [].

Definition on_sr (mono_us : Z) (body : list byte) (w : World) : World * list Out :=
  let! x := Rtcp.be32 body 0 else (w, []) in
  let own := k ← ingress w !! x; t ← tracks w !! k; if ssrc t =? x then Some k else None in
  let! k := own else (w, [DropCount "rtcp_unresolved"]) in
  let! hi := Rtcp.be32 body 4 else (w, []) in
  let! lo := Rtcp.be32 body 8 else (w, []) in
  let! rtp := Rtcp.be32 body 12 else (w, []) in
  let info := mkSr (Z.lor (Z.shiftl hi 32) lo) rtp mono_us in
  let w := set_rtc (set_sr (<[x := info]> (sr (rtc w))) (rtc w)) w in
  (w, concat (map (translate k info rtp w) (default [] (fan w !! k)))).

(** The report blocks of a subscriber; [n] of them from byte [o] on. *)
Fixpoint on_rr_loop (n o : nat) (now : Z) (body : list byte) (w : World) : World :=
  match n with
  | O => w
  | S n =>
    let! x := Rtcp.be32 body o else w in
    let w :=
      match row_by_ssrc w x with
      | Some (i, d, false) => set_rows (<[i := set_rr (bz (nth (o + 4) body x00)) now d]> (rows w)) w
      | _ => w
      end in
    on_rr_loop n (o + 24) now body w
  end.
Definition on_rr (now : Z) (body : list byte) (w : World) : World := on_rr_loop ((length body - 4) / 24) 4 now body w.

(** One packet of a compound; [now] and [mono_us] are the clocks. *)
Definition on_packet (now mono_us : Z) (sealed : list byte -> Z) (p : Rtcp.Packet) (w : World) : World * list Out :=
  let unresolved := (w, [DropCount "rtcp_unresolved"]) in
  let pt := Rtcp.ptype p in
  let fmt := Rtcp.fmt p in
  if pt =? 200 then on_sr mono_us (Rtcp.body p) w
  else if pt =? 201 then match table w with None => unresolved | Some _ => (on_rr now (Rtcp.body p) w, []) end
  else if (pt =? 205) && (fmt =? 1) then
    let! (media_ssrc, seqs) := Rtcp.parse_nack (Rtcp.body p) else (w, []) in
    match row_by_ssrc w media_ssrc with
    | Some (i, d, _) =>
      let w := w |> set_rows (<[i := set_nacks (u64 (nacks d + len seqs)) d]> (rows w)) |> set_nack_in (u64 (nack_in w + 1)) in
      if audio d then (w, [DropCount "nack_audio"])
      else match rtx_ssrc d with None => (w, []) | Some x => send_rtx now mono_us sealed i x seqs w end
    | None => unresolved
    end
  else if (pt =? 205) && (fmt =? 15) then
    match table w with Some _ => (w, [OnTwcc (Rtcp.body p)]) | None => unresolved end
  else if (pt =? 206) && ((fmt =? 1) || (fmt =? 4)) then
    let! ms := Rtcp.be32 (Rtcp.body p) (if fmt =? 4 then 8 else 4) else (w, []) in
    match row_by_ssrc w ms with
    | Some (i, d, _) =>
      let w := set_pli_in (u64 (pli_in w + 1)) w in
      let! k := src_track d else (w, []) in
      let! t := tracks w !! k else (w, []) in
      let (t, o) := request_pli false now t in
      (set_tracks (<[k := t]> (tracks w)) w, o)
    | None => unresolved
    end
  else (w, []).

Fixpoint on_packets (now mono_us : Z) (sealed : list byte -> Z) (ps : list Rtcp.Packet) (w : World) : World * list Out :=
  match ps with
  | [] => (w, [])
  | p :: ps => let (w, o) := on_packet now mono_us sealed p w in let (w, o') := on_packets now mono_us sealed ps w in (w, o ++ o')
  end.

Definition on_rtcp (now mono_us : Z) (sealed : list byte -> Z) (plain : list byte) (w : World) : World * list Out :=
  on_packets now mono_us sealed (Rtcp.split plain) w.

(** ** Key frames are asked for when they are needed, and not more often than that *)

(** What happens to a track: a key frame is asked for, by the server ([infra]) or by a
    subscriber; the worker ticks; a packet arrives; the track loses the slot. *)
Inductive Ev :=
  | Ask (infra : bool) (now : Z)
  | Tick (now r1 r2 : Z)
  | Arrive (seq now : Z)
  | Unbind.

Definition step (e : Ev) (t : Track) : Track * list Out :=
  match e with
  | Ask infra now => request_pli infra now t
  | Tick now r1 r2 => nack_track now r1 r2 t
  | Arrive seq now => (set_nack (Pub.on_packet seq now (nack t)) t, [])
  | Unbind => (unbind t, [])
  end.

Fixpoint run (es : list Ev) (t : Track) : Track * list Out :=
  match es with
  | [] => (t, [])
  | e :: es => let (t, o) := step e t in let (t, o') := run es t in (t, o ++ o')
  end.

(** The clock does not go back; [c] is what it said last. *)
Fixpoint clock (c : Z) (es : list Ev) : Prop :=
  match es with
  | [] => True
  | Ask _ now :: es => c <= now /\ clock now es
  | Tick now r1 r2 :: es => c <= now /\ now <= r1 /\ r1 <= r2 /\ clock r2 es
  | Arrive _ now :: es => c <= now /\ clock now es
  | Unbind :: es => clock c es
  end.

(** The last reading. *)
Definition reading (c : Z) (e : Ev) : Z := match e with Ask _ now => now | Tick _ _ r2 => r2 | Arrive _ now => now | Unbind => c end.

Definition plis (o : list Out) : list Z := omap (fun x => match x with EmitPli _ at_ms _ => Some at_ms | _ => None end) o.

Lemma plis_app o o' : plis (o ++ o') = plis o ++ plis o'.
Proof. apply omap_app. Qed.

(** How a step moves the requests of a track whose last one was at [last_ms] at most [c]:
    the requests it sends keep the distance, the last of them is noted. *)
Record moved (u : bool) (t t' : Track) (c c' : Z) (l : list Z) : Prop := {
  mv_gap : throttle_ms t' = throttle_ms t;
  mv_video : video t' = video t;
  mv_last : last_ms (pli t') = List.last l (last_ms (pli t));
  mv_le : c <= c' /\ last_ms (pli t') <= c';
  mv_one : forall x, x ∈ l -> c <= x /\ x <= c' /\ (last_ms (pli t) = 0 \/ last_ms (pli t) + throttle_ms t <= x);
  mv_sorted : StronglySorted (fun a b => a + throttle_ms t <= b) l;
  mv_keep : u = false -> l = [] -> pending (pli t) = true -> pending (pli t') = true }.

Lemma moved_refl t t' c c' : throttle_ms t' = throttle_ms t -> video t' = video t -> pli t' = pli t -> last_ms (pli t) <= c -> c <= c' -> moved false t t' c c' [].
Proof. intros H1 H2 H3 H4 H5. split; [done|done|by rewrite H3|rewrite H3; lia| | |by rewrite H3]; [set_solver|constructor]. Qed.

Lemma moved_trans u1 u2 t t1 t2 c c1 c2 l1 l2 : 0 < c -> moved u1 t t1 c c1 l1 -> moved u2 t1 t2 c1 c2 l2 -> moved (u1 || u2) t t2 c c2 (l1 ++ l2).
Proof.
  intros Hc [A1 A2 A3 A4 A5 A6 A7] [B1 B2 B3 B4 B5 B6 B7]. split.
  - congruence.
  - congruence.
  - rewrite B3, A3. destruct l2 as [|y l2] using rev_ind; [by rewrite app_nil_r|]. by rewrite app_assoc, !last_last.
  - lia.
  - intros x [Hx|Hx]%elem_of_app; [specialize (A5 x Hx); lia|]. destruct (B5 x Hx) as (H1 & H2 & H3). split; [lia|]. split; [lia|].
    destruct l1 as [|y l1] using rev_ind; [by rewrite A3, A1 in H3|]. rewrite A3, last_last, A1 in H3.
    destruct (A5 y ltac:(set_solver)) as (E1 & E2 & E3). destruct H3 as [H3|H3]; [lia|]. destruct E3 as [E3|E3]; [by left|].
    destruct (Z.le_gt_cases 0 (throttle_ms t)); [right; lia|right; lia].
  - rewrite A1 in *. apply StronglySorted_app_2; [|done|done]. intros x y Hx Hy. destruct (B5 y Hy) as (H1 & H2 & H3). destruct (A5 x Hx) as (E1 & E2 & _).
    destruct l1 as [|z l1] using rev_ind; [set_solver|]. rewrite A3, last_last in H3. destruct (A5 z ltac:(set_solver)) as (F1 & F2 & _).
    destruct H3 as [H3|H3]; [lia|]. apply elem_of_app in Hx as [Hx| ->%list_elem_of_singleton]; [|done].
    apply StronglySorted_app in A6 as (Hs & _ & _). specialize (Hs x z Hx ltac:(set_solver)). cbn in Hs. lia.
  - intros [-> ->]%orb_false_iff [-> ->]%app_eq_nil Hp. auto.
Qed.

Lemma request_moved infra t c now : 0 < c -> last_ms (pli t) <= c -> c <= now ->
  moved false t (request_pli infra now t).1 c now (plis (request_pli infra now t).2).
Proof.
  intros Hc Hl Hn. unfold request_pli. destruct (video t) eqn:Ev; cbn [negb]; [|by apply moved_refl].
  destruct ((last_ms (pli t) =? 0) || _) eqn:E.
  - apply orb_true_iff in E. rewrite Z.eqb_eq, Z.leb_le in E. cbn. split; cbn; [done|done|done|lia| |repeat constructor|done].
    intros x ->%list_elem_of_singleton. split; [lia|]. split; [lia|]. unfold sat_sub in E. lia.
  - destruct infra; cbn; [|by apply moved_refl]. split; cbn; [done|done|done|lia|set_solver|constructor|done].
Qed.

Lemma nack_track_moved t c now r1 r2 : 0 < c -> last_ms (pli t) <= c -> c <= now -> now <= r1 -> r1 <= r2 ->
  moved false t (nack_track now r1 r2 t).1 c r2 (plis (nack_track now r1 r2 t).2).
Proof.
  intros Hc Hl H1 H2 H3. unfold nack_track. destruct (video t) eqn:Ev; cbn [negb]; [|apply moved_refl; (done || lia)].
  destruct (Pub.due now (nack t)) as [n [seqs gave_up]]. set (t0 := set_nack n t).
  destruct (if gave_up then request_pli true r1 t0 else (t0, [])) as [t1 o1] eqn:E1.
  assert (M1 : moved false t t1 c r1 (plis o1)).
  { destruct gave_up; [|injection E1 as <- <-; apply moved_refl; (done || lia)].
    pose proof (request_moved true t0 c r1 Hc Hl ltac:(lia)) as M. rewrite E1 in M. destruct M as [A1 A2 A3 A4 A5 A6 A7]. by split. }
  destruct (if pending (pli t1) && _ then request_pli true r2 t1 else (t1, [])) as [t2 o2] eqn:E2.
  assert (M2 : moved false t1 t2 r1 r2 (plis o2)).
  { destruct M1 as [_ _ _ [M11 M12] _ _ _]. destruct (pending (pli t1) && _); [|injection E2 as <- <-; apply moved_refl; (done || lia)].
    pose proof (request_moved true t1 r1 r2 ltac:(lia) M12 ltac:(lia)) as M. by rewrite E2 in M. }
  cbn [fst snd]. rewrite !plis_app. replace (plis (match seqs with [] => [] | _ => _ end)) with (@nil Z) by (by destruct seqs).
  exact (moved_trans false false _ _ _ _ _ _ _ _ Hc M1 M2).
Qed.

Definition unbound (e : Ev) : bool := match e with Unbind => true | _ => false end.

Lemma step_moved e t c : 0 < c -> last_ms (pli t) <= c -> clock c [e] -> moved (unbound e) t (step e t).1 c (reading c e) (plis (step e t).2).
Proof.
  intros Hc Hl Hk. destruct e as [infra now|now r1 r2|sq now|]; cbn in Hk |- *.
  - destruct Hk. by apply request_moved.
  - destruct Hk as (? & ? & ? & _). by apply nack_track_moved.
  - apply moved_refl; (done || lia).
  - split; cbn; [done|done|done|lia|set_solver|constructor|done].
Qed.

Lemma clock_cons c e es : clock c (e :: es) <-> clock c [e] /\ clock (reading c e) es.
Proof. destruct e; cbn; tauto. Qed.

Lemma clock_app_l es es' : forall c, clock c (es ++ es') -> clock c es.
Proof. induction es as [|e es IH]; intros c; [done|]. cbn [app]. rewrite (clock_cons c e es), (clock_cons c e (es ++ es')). intros [? ?]. auto. Qed.

Lemma run_moved es : forall t c, 0 < c -> last_ms (pli t) <= c -> clock c es ->
  exists c', moved (existsb unbound es) t (run es t).1 c c' (plis (run es t).2) /\ forall es', clock c (es ++ es') -> clock c' es'.
Proof.
  induction es as [|e es IH]; intros t c Hc Hl Hk.
  { exists c. split; [apply moved_refl; (done || lia)|done]. }
  apply clock_cons in Hk as [Hk1 Hk2]. pose proof (step_moved e t c Hc Hl Hk1) as M. cbn [run].
  destruct (step e t) as [t1 o1]. cbn [fst snd] in M. pose proof (mv_le _ _ _ _ _ _ M) as [M1 M2].
  destruct (IH t1 (reading c e) ltac:(lia) M2 Hk2) as (c' & M' & K). destruct (run es t1) as [t2 o2]. cbn [fst snd] in *.
  exists c'. split.
  - rewrite plis_app. exact (moved_trans _ _ _ _ _ _ _ _ _ _ Hc M M').
  - intros es' [_ H]%clock_cons. auto.
Qed.

(** Whatever asks for key frames of a track, and however often, the publisher gets the
    requests at the distance of the throttle or more. *)
Theorem pli_spaced es t : pli t = pli_default -> clock 1 es ->
  StronglySorted (fun a b => a + throttle_ms t <= b) (plis (run es t).2).
Proof.
  intros Hp Hk. destruct (run_moved es t 1 ltac:(lia) ltac:(by rewrite Hp) Hk) as (c' & M & _). apply M.
Qed.

Lemma request_fires infra now t : video t = true -> last_ms (pli t) + throttle_ms t <= now -> plis (request_pli infra now t).2 = [now].
Proof.
  intros Hv Hl. unfold request_pli. rewrite Hv. cbn [negb]. rewrite (proj2 (Z.leb_le (throttle_ms t) (sat_sub now _))) by (unfold sat_sub; lia).
  by rewrite orb_true_r.
Qed.

Lemma tick_fires t n r1 r2 : video t = true -> pending (pli t) = true -> last_ms (pli t) + throttle_ms t <= n -> n <= r1 -> r1 <= r2 ->
  exists x, x ∈ plis (nack_track n r1 r2 t).2 /\ n <= x <= r2.
Proof.
  intros Hv Hp Hl H1 H2. unfold nack_track. rewrite Hv. cbn [negb]. destruct (Pub.due n (nack t)) as [k [seqs gave_up]].
  set (t0 := set_nack k t). destruct gave_up.
  - pose proof (request_fires true r1 t0 Hv ltac:(cbn; change (throttle_ms t0) with (throttle_ms t); lia)) as F.
    destruct (request_pli true r1 t0) as [t1 o1]. destruct (if _ && _ then _ else _) as [t2 o2]. cbn [snd] in *. exists r1. rewrite !plis_app, F. split; [set_solver|lia].
  - rewrite (proj2 (Z.leb_le _ (sat_sub n _))) by (cbn; change (throttle_ms t0) with (throttle_ms t); unfold sat_sub; lia). cbn [t0 set_nack pli]. rewrite Hp. cbn [andb].
    pose proof (request_fires true r2 t0 Hv ltac:(cbn; change (throttle_ms t0) with (throttle_ms t); lia)) as F. fold t0.
    destruct (request_pli true r2 t0) as [t2 o2]. cbn [snd] in *. exists r2. rewrite !plis_app, F. split; [set_solver|lia].
Qed.

Lemma pli_run_app es es' t : run (es ++ es') t = let (t1, o1) := run es t in let (t2, o2) := run es' t1 in (t2, o1 ++ o2).
Proof.
  revert t. induction es as [|e es IH]; intros t; cbn [app run].
  - by destruct (run es' t).
  - destruct (step e t) as [t1 o1]. rewrite IH. destruct (run es t1) as [t2 o2]. destruct (run es' t2) as [t3 o3]. by rewrite app_assoc.
Qed.

(** What an infrastructure request leaves behind when it is not sent. *)
Lemma request_noted now t : video t = true -> plis (request_pli true now t).2 = [] -> pending (pli (request_pli true now t).1) = true.
Proof. intros Hv. unfold request_pli. rewrite Hv. cbn [negb]. by destruct (_ || _). Qed.
Lemma request_now infra now t x : x ∈ plis (request_pli infra now t).2 -> x = now.
Proof. unfold request_pli. destruct (video t), infra; cbn [negb]; [destruct (_ || _)..| |]; cbn; set_solver. Qed.

(** C18: A key frame the server needs is asked for: unless the track loses the slot in between,
    the publisher has a request by the first tick after the throttle, whatever else is asked
    for and arrives in the meantime. *)
Theorem pli_answered es t c now n r1 r2 : video t = true -> last_ms (pli t) <= c -> 0 < c ->
  clock c (Ask true now :: es ++ [Tick n r1 r2]) -> existsb unbound es = false -> now + throttle_ms t <= n ->
  exists x, x ∈ plis (run (Ask true now :: es ++ [Tick n r1 r2]) t).2 /\ now <= x <= r2.
Proof.
  intros Hv Hl Hc Hk Hu Hn. destruct Hk as [Hk Hk2]. cbn [run step].
  pose proof (request_moved true t c now Hc Hl Hk) as M. pose proof (request_noted now t Hv) as Hp. pose proof (request_now true now t) as Hx.
  destruct (request_pli true now t) as [t1 o1]. cbn [fst snd] in *. rewrite pli_run_app.
  pose proof (mv_le _ _ _ _ _ _ M) as [_ Hl1]. destruct (run_moved es t1 now ltac:(lia) Hl1 (clock_app_l _ _ _ Hk2)) as (c' & M' & K).
  specialize (K _ Hk2). destruct K as (K1 & K2 & K3 & _). pose proof (mv_le _ _ _ _ _ _ M') as [M1 _].
  assert (Hvt : forall u t' d l, moved u t t' c d l -> video t' = true) by (intros; erewrite mv_video by done; done).
  destruct (plis o1) as [|x l] eqn:E1.
  2:{ specialize (Hx x ltac:(set_solver)) as ->. exists now. split; [|lia]. destruct (run es t1), (run _ _). cbn [snd]. rewrite !plis_app, E1. set_solver. }
  assert (Hl2 : last_ms (pli t1) = last_ms (pli t)) by (by rewrite (mv_last _ _ _ _ _ _ M)).
  pose proof (moved_trans _ _ _ _ _ _ _ _ _ _ Hc M M') as M''. pose proof (mv_keep _ _ _ _ _ _ M' Hu) as Hkeep.
  pose proof (mv_last _ _ _ _ _ _ M') as Hlast. pose proof (mv_one _ _ _ _ _ _ M') as Hone.
  destruct (run es t1) as [t2 o2]. cbn [fst snd run step] in *. destruct (plis o2) as [|x l] eqn:E2.
  - destruct (tick_fires t2 n r1 r2) as (x & X1 & X2); [eauto|auto|rewrite (mv_gap _ _ _ _ _ _ M''), Hlast; cbn; lia|done|done|].
    exists x. split; [|lia]. destruct (nack_track n r1 r2 t2) as [t3 o3]. cbn [snd] in *. rewrite !plis_app. set_solver.
  - destruct (Hone x ltac:(set_solver)) as (? & ? & _). exists x. split; [|lia]. destruct (nack_track n r1 r2 t2) as [t3 o3]. cbn [snd]. rewrite !plis_app, E2. set_solver.
Qed.
(** ** Transport-wide feedback *)

Definition enough (fuel : nat) (x : Twcc.TwccRecv) : Prop :=
  (0 < fuel)%nat /\ forall w l, Twcc.window_start x = Some w -> Twcc.last_key (Twcc.arrivals x) = Some l -> l - w + 1 < Z.of_nat fuel.

Lemma drain_fuel_enough x : enough (drain_fuel x) x.
Proof.
  unfold enough, drain_fuel. destruct (Twcc.window_start x) as [w|], (Twcc.last_key (Twcc.arrivals x)) as [l|]; split; try lia; try done.
  intros ? ? [= <-] [= <-]. lia.
Qed.

(** The feedback [f] covers packet [k]; it was built when the window began at [w]. *)
Definition covers (k : Z) (f : Rtcp.Feedback) : Prop := exists w, Rtcp.base_seq f = u16 w /\ w <= k < w + len (Rtcp.symbols f).

Lemma feedback_drain_spec m fuel : forall x, Twcc.inv x -> enough fuel x ->
  let (x', o) := drain fuel m x in
  Twcc.pending x' = false /\ (exists n, x' = Nat.iter n (fun t => (Twcc.build t).1) x) /\
  forall w k, Twcc.window_start x = Some w -> w <= k -> is_Some (Twcc.arrivals x !! k) -> exists f, SendRtcp (Rtcp.build_twcc m f) ∈ o /\ covers k f.
Proof.
  induction fuel as [|fuel IH]; intros x Hi Hf.
  { destruct Hf. lia. }
  cbn [drain]. destruct (Twcc.pending x) eqn:Hp.
  2:{ split; [done|]. split; [by exists O|]. intros w k Hw Hk Ha. exfalso. revert Hp. unfold Twcc.pending. rewrite Hw.
      pose proof (Twcc.first_from_spec w (Twcc.arrivals x)) as F. destruct (Twcc.first_from _ _); [done|]. specialize (F k Ha). lia. }
  unfold Twcc.pending in Hp. destruct (Twcc.window_start x) as [w|] eqn:Hw; [|done]. destruct (Twcc.first_from w _) as [[k tk]|] eqn:Hk; [|done].
  destruct (Twcc.build_progress x w k tk Hi Hw Hk) as (x1 & f & Hb & Hlt & Hw1).
  pose proof (Twcc.inv_build x Hi) as Hi1. destruct (Twcc.build_keeps x) as [Ha1 _]. rewrite Hb in Hi1, Ha1 |- *. cbn [fst] in *.
  pose proof (Twcc.first_from_spec w (Twcc.arrivals x)) as F. rewrite Hk in F. destruct F as (F1 & F2 & F3).
  assert (Hf1 : enough fuel x1).
  { destruct Hf as [_ Hf]. pose proof (Twcc.last_key_spec (Twcc.arrivals x)) as Hl. destruct (Twcc.last_key (Twcc.arrivals x)) as [l|] eqn:El; [|by rewrite Hl in F1].
    specialize (Hf w l Hw eq_refl). destruct Hl as [_ Hl]. specialize (Hl k ltac:(eauto)). split; [lia|]. rewrite Ha1, Hw1. intros ? ? [= <-] E.
    rewrite El in E. injection E as <-. lia. }
  specialize (IH x1 Hi1 Hf1). destruct (drain fuel m x1) as [x' o]. destruct IH as (I1 & (n & ->) & I3). split; [done|]. split.
  { exists (S n). by rewrite Nat.iter_succ_r, Hb. }
  intros w0 j [= <-] Hj Haj. destruct (Twcc.build_some _ _ _ Hb) as (w0 & ? & ? & ? & G1 & _ & _ & _ & _ & G2 & _). rewrite Hw in G1. injection G1 as <-.
  destruct (Z.lt_ge_cases j (w + len (Rtcp.symbols f))) as [Hj1|Hj1].
  - exists f. split; [set_solver|]. exists w. split; [by rewrite G2|lia].
  - destruct (I3 _ j Hw1 Hj1 ltac:(by rewrite Ha1)) as (g & G & Hg). exists g. split; [set_solver|done].
Qed.

(** C21: The feedback of a tick is complete, and the loop that sends it ends: when it is due, every
    packet that was noted and not reported yet is covered by a feedback sent in this tick, and
    none is left, whatever sequence numbers and arrival times the publisher used. *)
Theorem uplink_feedback_complete now mono clk ext ups c ops : twcc_rx c = Twcc.run ops -> ext <> 0 -> next_twcc c <= now ->
  let '(ups', c', o) := uplink now mono clk ext ups c in
  Twcc.pending (twcc_rx c') = false /\ next_twcc c' = now + TWCC_MS /\ (exists ops', twcc_rx c' = Twcc.run ops') /\
  forall w k, Twcc.window_start (twcc_rx c) = Some w -> w <= k -> is_Some (Twcc.arrivals (twcc_rx c) !! k) ->
    exists m f, SendRtcp (Rtcp.build_twcc m f) ∈ o /\ covers k f.
Proof.
  intros Hc He Hd. unfold uplink. destruct (each_track _ ups) as [u1 o1]. destruct (due (next_rr c) now RR_MS) as [n1 f1].
  destruct (if f1 then _ else _) as [u2 o2]. destruct (due (next_remb _) now REMB_MS) as [n2 f2].
  rewrite (proj2 (Z.eqb_neq ext 0) He). cbn [negb]. unfold due. cbn [set_next_remb set_next_rr next_twcc twcc_rx set_next_twcc].
  rewrite (proj2 (Z.leb_le _ _) Hd). cbn [set_next_remb set_next_rr next_twcc twcc_rx set_next_twcc].
  match goal with |- context [drain ?f ?m ?x] => pose proof (feedback_drain_spec m f x) as D; destruct (drain f m x) as [x' o4] eqn:E; set (ms := m) in * end.
  cbn [set_twcc twcc_rx next_twcc] in *. rewrite Hc in *. destruct (D (Twcc.inv_run ops) (drain_fuel_enough _)) as (D1 & (n & ->) & D3).
  split; [done|]. split; [done|]. split.
  - clear. exists (ops ++ repeat Twcc.Build n). unfold Twcc.run. rewrite fold_left_app. generalize (fold_left Twcc.step ops Twcc.default).
    induction n as [|n IH]; intros x; [done|]. rewrite Nat.iter_succ_r, IH. done.
  - intros w k Hw Hk Ha. destruct (D3 w k Hw Hk Ha) as (f & F1 & F2). exists ms, f. split; [set_solver|done].
Qed.
(** ** A client reaches its own rows and tracks only *)

Definition in_table (w : World) (i : Z) : Prop := exists ids, table w = Some ids /\ i ∈ ids.
Definition source (w : World) (k : Z) : Prop := exists i d, in_table w i /\ rows w !! i = Some d /\ src_track d = Some k.
Definition own_user (w : World) (u : string) : Prop := exists i d, in_table w i /\ rows w !! i = Some d /\ user d = u.

(** What RTCP from the client may make the server send, and to whom. *)
Definition allowed (w : World) (o : Out) : Prop :=
  match o with
  | SendRtcp _ => False
  | EmitPli k _ _ => source w k
  | EmitSr i _ => exists x k l, ingress w !! x = Some k /\ fan w !! k = Some l /\ i ∈ l
  | SendRtx i _ => in_table w i
  | OnTwcc _ => is_Some (table w)
  | DropCount _ => True
  end.

(** The parts of a row that RTCP does not write. *)
Definition fixed_row (d : Down) := (dssrc d, rtx_ssrc d, audio d, user d, mid d, rtx_pt d, rtx_gate_until_new d, rw d, ext d, src_track d, sent d, bytes d).
Definition fixed_track (t : Track) := (ssrc t, src_key t, video t, rid t, recv t, nack t).

Record confined (w w' : World) : Prop := {
  cf_same : table w' = table w /\ ingress w' = ingress w /\ fan w' = fan w /\ caches w' = caches w;
  cf_rows : forall i, fixed_row <$> rows w' !! i = fixed_row <$> rows w !! i;
  cf_other : forall i, ~ in_table w i -> rows w' !! i = rows w !! i;
  cf_tracks : forall k, fixed_track <$> tracks w' !! k = fixed_track <$> tracks w !! k;
  cf_pli : forall k, ~ source w k -> tracks w' !! k = tracks w !! k;
  cf_budget : forall u, ~ own_user w u -> budget w' !! u = budget w !! u }.

#[local] Instance confined_refl : Reflexive confined.
Proof. by intros w. Qed.

Lemma confined_row w w' i d : confined w w' -> rows w' !! i = Some d -> exists d0, rows w !! i = Some d0 /\ fixed_row d0 = fixed_row d.
Proof. intros C H. pose proof (cf_rows _ _ C i) as E. rewrite H in E. destruct (rows w !! i) as [d0|]; [|done]. apply (inj Some) in E. eauto. Qed.

Lemma confined_in_table w w' i : confined w w' -> in_table w' i <-> in_table w i.
Proof. intros C. unfold in_table. by destruct (cf_same _ _ C) as (-> & _). Qed.

Lemma confined_source w w' k : confined w w' -> source w' k -> source w k.
Proof.
  intros C (i & d & H1 & H2 & H3). destruct (confined_row _ _ _ _ C H2) as (d0 & E1 & E2). exists i, d0.
  split; [by apply (confined_in_table _ _ _ C)|]. split; [done|]. rewrite <- H3. unfold fixed_row in E2. congruence.
Qed.

Lemma confined_user w w' u : confined w w' -> own_user w' u -> own_user w u.
Proof.
  intros C (i & d & H1 & H2 & H3). destruct (confined_row _ _ _ _ C H2) as (d0 & E1 & E2). exists i, d0.
  split; [by apply (confined_in_table _ _ _ C)|]. split; [done|]. rewrite <- H3. unfold fixed_row in E2. congruence.
Qed.

#[local] Instance confined_trans : Transitive confined.
Proof.
  intros w w1 w2 A B. split.
  - destruct (cf_same _ _ A) as (<- & <- & <- & <-). apply B.
  - intros i. by rewrite (cf_rows _ _ B), (cf_rows _ _ A).
  - intros i Hi. rewrite (cf_other _ _ B) by (by rewrite confined_in_table). by apply A.
  - intros k. by rewrite (cf_tracks _ _ B), (cf_tracks _ _ A).
  - intros k Hk. rewrite (cf_pli _ _ B) by eauto using confined_source. by apply A.
  - intros u Hu. rewrite (cf_budget _ _ B) by eauto using confined_user. by apply A.
Qed.

Lemma allowed_back w w' o : confined w w' -> allowed w' o -> allowed w o.
Proof.
  intros C. destruct o; cbn; [done|by apply confined_source| |by apply (confined_in_table _ _ _ C)| |done].
  - by destruct (cf_same _ _ C) as (_ & -> & -> & _).
  - by destruct (cf_same _ _ C) as (-> & _).
Qed.

(** A step of a handler: it stays in bounds. *)
Definition safe (w : World) (x : World * list Out) : Prop := confined w x.1 /\ Forall (allowed w) x.2.

Lemma safe_seq w w1 o1 x : safe w (w1, o1) -> safe w1 x -> safe w (x.1, o1 ++ x.2).
Proof.
  intros [A1 A2] [B1 B2]. split; cbn in *; [by etrans|]. apply Forall_app. split; [done|]. eapply Forall_impl; [done|]. intros o. by apply allowed_back.
Qed.

Lemma find_row_spec rows x ids i d b : find_row rows x ids = Some (i, d, b) -> i ∈ ids /\ rows !! i = Some d.
Proof.
  induction ids as [|j ids IH]; cbn; [done|]. destruct (rows !! j) as [e|] eqn:E; [|intros H; destruct (IH H); set_solver].
  destruct (dssrc e =? x); [intros [= <- <- <-]; set_solver|]. destruct (bool_decide _); [intros [= <- <- <-]; set_solver|]. intros H; destruct (IH H); set_solver.
Qed.

Lemma row_by_ssrc_spec w x i d b : row_by_ssrc w x = Some (i, d, b) -> in_table w i /\ rows w !! i = Some d.
Proof. unfold row_by_ssrc, in_table. destruct (table w) as [ids|]; [|done]. intros H%find_row_spec. naive_solver. Qed.

(** Writing a row of the table, without its fixed parts. *)
Lemma confined_set_row w i d d' : in_table w i -> rows w !! i = Some d -> fixed_row d' = fixed_row d -> confined w (set_rows (<[i := d']> (rows w)) w).
Proof.
  intros Hi Hd Hf. split; cbn; try done.
  - intros j. destruct (decide (i = j)) as [<-|]; [by rewrite lookup_insert_eq, Hd; cbn; rewrite Hf|by rewrite lookup_insert_ne].
  - intros j Hj. rewrite lookup_insert_ne; [done|]. by intros <-.
Qed.

Lemma budget_other u v now m : u <> v -> (Pub.budget_ok u now m).1 !! v = m !! v.
Proof. intros H. unfold Pub.budget_ok. destruct (Pub.RTX_BUDGET <=? _); cbn; by rewrite lookup_insert_ne. Qed.

Lemma rtx_one_budget r x now q s v : Pub.user r <> v -> (Pub.rtx_one r x now q s).1.1 !! v = s.1 !! v.
Proof.
  intros H. destruct s as [m rs]. unfold Pub.rtx_one. destruct (Pub.gate r); [done|]. destruct (Rw.unmap_nack _ _); [|done]. destruct (Pub.track r); [|done].
  destruct (Pub.get _ _); [|done]. pose proof (budget_other (Pub.user r) v now m H) as B. destruct (Pub.budget_ok _ _ _) as [m' ok]. cbn in B.
  destruct ok; cbn [negb]; [|done]. by destruct (Rtp.parse_rtp _).
Qed.


Lemma confined_rest w w' : table w' = table w -> ingress w' = ingress w -> fan w' = fan w -> caches w' = caches w ->
  rows w' = rows w -> tracks w' = tracks w -> budget w' = budget w -> confined w w'.
Proof. intros H1 H2 H3 H4 H5 H6 H7. split; rewrite ?H5, ?H6, ?H7; done. Qed.

Lemma send_rtx_safe now mono sealed i x seqs : forall w, in_table w i -> safe w (send_rtx now mono sealed i x seqs w).
Proof.
  induction seqs as [|q seqs IH]; intros w Hi; cbn [send_rtx]; [done|]. destruct (rows w !! i) as [d|] eqn:Hd; [|done].
  set (view := Pub.mkRow _ _ _ _ _ _ _ _). pose proof (rtx_one_budget view x now q (budget w, rtx_seq d)) as Hb.
  destruct (Pub.rtx_one view x now q (budget w, rtx_seq d)) as [[b rs] r]. cbn [fst] in Hb.
  assert (C1 : confined w (set_rows (<[i := set_rtx_seq rs d]> (rows w)) (set_budget b w))).
  { destruct (confined_set_row w i d (set_rtx_seq rs d) Hi Hd eq_refl) as [A1 A2 A3 A4 A5 _]. split; try done.
    intros u Hu. apply Hb. cbn. intros <-. apply Hu. exists i, d. done. }
  match goal with |- safe w (let (w0, o) := ?m in _) => assert (safe w m) as C2; [|destruct m as [w1 o1]] end.
  { destruct r as [pk|[]]; (split; cbn [fst snd]; [|repeat constructor; (done || eauto)]); try done.
    etrans; [exact C1|]. by apply confined_rest. }
  assert (Hi1 : in_table w1 i) by (by apply (confined_in_table _ _ _ (proj1 C2))).
  specialize (IH w1 Hi1). pose proof (safe_seq _ _ _ _ C2 IH) as S. by destruct (send_rtx now mono sealed i x seqs w1).
Qed.

Lemma on_sr_safe mono body w : safe w (on_sr mono body w).
Proof.
  unfold on_sr. destruct (Rtcp.be32 body 0) as [x|]; [|done]. destruct (ingress w !! x) as [k|] eqn:Ek; cbn [mbind option_bind]; [|by repeat constructor].
  destruct (tracks w !! k) as [t|]; cbn [mbind option_bind]; [|by repeat constructor]. destruct (ssrc t =? x); [|by repeat constructor].
  destruct (Rtcp.be32 body 4) as [hi|]; [|done]. destruct (Rtcp.be32 body 8) as [lo|]; [|done]. destruct (Rtcp.be32 body 12) as [rtp|]; [|done].
  set (info := mkSr _ _ _). set (w' := set_rtc _ w). assert (C : confined w w') by (by apply confined_rest). split; cbn [fst snd]; [done|].
  apply Forall_concat, Forall_map, Forall_forall. intros i Hi. cbn. unfold translate. change (rows w') with (rows w). destruct (rows w !! i) as [d|]; [|done].
  destruct (bool_decide _); [|done]. apply Forall_singleton. change (fan w') with (fan w) in Hi. destruct (fan w !! k) as [l|] eqn:El; [|set_solver]. exists x, k, l. done.
Qed.

Lemma on_rr_safe now body w : confined w (on_rr now body w).
Proof.
  assert (forall n w o, confined w (on_rr_loop n o now body w)) as F; [|apply F]. clear w.
  induction n as [|n IH]; intros w o; cbn [on_rr_loop]; [reflexivity|]. destruct (Rtcp.be32 body o) as [x|]; [|reflexivity].
  destruct (row_by_ssrc w x) as [[[i d] b]|] eqn:E; [|apply IH]. destruct b; [apply IH|].
  apply row_by_ssrc_spec in E as [Hi Hd]. etrans; [|apply IH]. by eapply confined_set_row.
Qed.

Lemma request_allowed infra now t w : source w (src_key t) -> Forall (allowed w) (request_pli infra now t).2.
Proof. intros H. unfold request_pli. destruct (video t), infra; cbn [negb]; [destruct (_ || _)..| |]; by repeat constructor. Qed.

Lemma request_fixed infra now t : fixed_track (request_pli infra now t).1 = fixed_track t.
Proof. unfold request_pli. destruct (video t), infra; cbn [negb]; [destruct (_ || _)..| |]; done. Qed.

(** The tracks are registered under their keys. *)
Definition keyed (w : World) : Prop := forall k t, tracks w !! k = Some t -> src_key t = k.

Lemma keyed_confined w w' : confined w w' -> keyed w -> keyed w'.
Proof.
  intros C K k t Ht. pose proof (cf_tracks _ _ C k) as E. rewrite Ht in E. destruct (tracks w !! k) as [t0|] eqn:E0; [|done].
  rewrite <- (K k t0 E0). apply (inj Some) in E. unfold fixed_track in E. congruence.
Qed.

Lemma pli_safe infra now k t w : keyed w -> source w k -> tracks w !! k = Some t ->
  safe w (set_tracks (<[k := (request_pli infra now t).1]> (tracks w)) w, (request_pli infra now t).2).
Proof.
  intros K Hs Ht. split; cbn [fst snd]; [|apply request_allowed; by rewrite (K k t Ht)]. split; cbn; try done.
  - intros j. destruct (decide (k = j)) as [<-|]; [by rewrite lookup_insert_eq, Ht; cbn; rewrite request_fixed|by rewrite lookup_insert_ne].
  - intros j Hj. rewrite lookup_insert_ne; [done|]. by intros <-.
Qed.

Lemma on_packet_safe now mono sealed p w : keyed w -> safe w (on_packet now mono sealed p w).
Proof.
  intros K. assert (U : safe w (w, [DropCount "rtcp_unresolved"])) by (split; [done|by repeat constructor]). unfold on_packet.
  destruct (Rtcp.ptype p =? 200); [apply on_sr_safe|]. destruct (Rtcp.ptype p =? 201); [destruct (table w); [split; [apply on_rr_safe|done]|done]|].
  destruct (_ && (Rtcp.fmt p =? 1)).
  { destruct (Rtcp.parse_nack _) as [[ms seqs]|]; [|done]. destruct (row_by_ssrc w ms) as [[[i d] b]|] eqn:E; [|done].
    apply row_by_ssrc_spec in E as [Hi Hd]. match goal with |- context [set_nack_in ?n ?w0] => set (w1 := set_nack_in n w0) end.
    assert (C : confined w w1) by (etrans; [by eapply (confined_set_row w i d (set_nacks _ d))|by apply confined_rest]).
    destruct (audio d); [split; [done|by repeat constructor]|]. destruct (rtx_ssrc d) as [x|]; [|done].
    pose proof (send_rtx_safe now mono sealed i x seqs w1 Hi) as S. destruct (send_rtx _ _ _ _ _ _ w1) as [w2 o2].
    exact (safe_seq w w1 [] _ (conj C (Forall_nil_2 _)) S). }
  destruct (_ && (Rtcp.fmt p =? 15)).
  { destruct (table w) eqn:Et; [|done]. split; [done|]. repeat constructor. cbn. by rewrite Et. }
  destruct (_ && (_ || _)); [|done]. destruct (Rtcp.be32 _ _) as [ms|]; [|done]. destruct (row_by_ssrc w ms) as [[[i d] b]|] eqn:E; [|done].
  apply row_by_ssrc_spec in E as [Hi Hd]. set (w1 := set_pli_in _ w). assert (C : confined w w1) by (by apply confined_rest).
  destruct (src_track d) as [k|] eqn:Ek; [|done]. destruct (tracks w1 !! k) as [t|] eqn:Et; [|done].
  assert (Hs : source w1 k) by (by exists i, d).
  pose proof (pli_safe false now k t w1 (keyed_confined _ _ C K) Hs Et) as S. destruct (request_pli false now t) as [t' o]. cbn [fst snd] in S.
  exact (safe_seq w w1 [] _ (conj C (Forall_nil_2 _)) S).
Qed.

(** C17: What a client sends as RTCP, whatever the bytes, reaches only what is its own: it changes
    the reports and the retransmissions of the rows of its own table, the key frame requests
    of the tracks those rows carry and the budget of their user; it makes the server send
    retransmissions on its own rows, key frame requests to the publishers of what it watches,
    and sender reports to those who watch its own tracks, and nothing else. *)
Theorem rtcp_confined now mono sealed plain w : keyed w ->
  confined w (on_rtcp now mono sealed plain w).1 /\ Forall (allowed w) (on_rtcp now mono sealed plain w).2.
Proof.
  unfold on_rtcp. change (keyed w -> safe w (on_packets now mono sealed (Rtcp.split plain) w)). generalize (Rtcp.split plain) as ps. intros ps. revert w.
  induction ps as [|p ps IH]; intros w K; cbn [on_packets]; [done|]. pose proof (on_packet_safe now mono sealed p w K) as S.
  destruct (on_packet now mono sealed p w) as [w1 o1]. specialize (IH w1 (keyed_confined _ _ (proj1 S) K)). pose proof (safe_seq _ _ _ _ S IH) as S'.
  by destruct (on_packets now mono sealed ps w1).
Qed.
End Policy.

(** ** Concrete cases *)

Definition a_policy : Policy := mkPolicy 1000 500 3000000.
Definition a_track : Track := mkTrack 77 5 true (Some 1) (Recv.new 90000) Pub.nack_default pli_default.
Definition asks : list Ev := [Ask true 10; Ask false 500; Ask true 600; Tick 1009 1009 1009; Tick 1100 1100 1101; Ask false 3000].

Lemma pli_spaced_witness : plis (run a_policy asks a_track).2 = [10; 1101; 3000] /\
  StronglySorted (fun a b => a + 1000 <= b) (plis (run a_policy asks a_track).2).
Proof. split; [vm_compute; reflexivity|]. apply (pli_spaced a_policy asks a_track); [reflexivity|cbn; lia]. Defined.

Definition asked_before : Track := (request_pli a_policy false 10 a_track).1.

Lemma pli_answered_witness :
  exists x, x ∈ plis (run a_policy (Ask true 600 :: [Ask false 700] ++ [Tick 1600 1601 1602]) asked_before).2 /\ 600 <= x <= 1602.
Proof.
  apply (pli_answered a_policy [Ask false 700] asked_before 10 600 1600 1601 1602); [reflexivity|cbn; lia|lia|cbn; lia|reflexivity|vm_compute; discriminate].
Defined.

Definition noted : list Twcc.Op := [Twcc.Rec 10 1000000; Twcc.Rec 12 1040000].
Definition noting : ConnRtcp := set_twcc (Twcc.run noted) conn_default.

Lemma uplink_feedback_complete_witness :
  exists m f, SendRtcp (Rtcp.build_twcc m f) ∈ (uplink a_policy 5000 0 (fun _ => (5000, 5000)) 3 [a_track] noting).2 /\ covers 12 f.
Proof.
  pose proof (uplink_feedback_complete a_policy 5000 0 (fun _ => (5000, 5000)) 3 [a_track] noting noted eq_refl ltac:(lia) ltac:(cbn; lia)) as H.
  destruct (uplink a_policy 5000 0 _ 3 [a_track] noting) as [[u c] o]. destruct H as (_ & _ & _ & H).
  apply (H 10 12); [vm_compute; reflexivity|lia|vm_compute; eauto].
Defined.

Definition a_down : Down := mkDown 9 None false "u" [] 0 false (Rw.new 90000) (Rtp.mkTable None None None None) (Some 5) 0 0 0 0 0 0.
Definition a_world : World := mkWorld {[5 := a_track]} ∅ {[1 := a_down; 2 := a_down]} ∅ ∅ ∅ (Some [1]) conn_default 0 0 0.

Lemma rtcp_confined_witness :
  (on_rtcp a_policy 100 0 len (Rtcp.build_pli 9) a_world).2 = [EmitPli 5 100 (Rtcp.build_pli 77)] /\
  Forall (allowed a_world) (on_rtcp a_policy 100 0 len (Rtcp.build_pli 9) a_world).2.
Proof.
  split; [vm_compute; reflexivity|]. apply (rtcp_confined a_policy 100 0 len (Rtcp.build_pli 9) a_world).
  intros k t. unfold a_world. cbn [tracks]. rewrite lookup_singleton_Some. intros [<- <-]. reflexivity.
Defined.

End Uplink.
