(* ===== verification/AutoLayer.v ===== *)
(** * The automatic choice of a layer

    crates/oxsfud/src/sim/core.rs (the estimate of the bandwidth: [Aimd], [Trendline]) and the
    part of sim/mod.rs that moves the limit of the layers of a subscriber ([ConnSim], [tick],
    [on_twcc], [probe]). What a row does with the limit is in [Sim].

    The sources compute in [f64]; the model computes with the binary64 arithmetic of
    [SpecFloat], which rounds as the hardware does, so a decision of the model is the one of
    the code. Only [powf] is a parameter: its rounding is not specified. *)

From Stdlib Require Import Floats.SpecFloat.
From S2P Require Import Prelude Rtcp Sim.

(** ** Double precision *)
Module F64.

Abbreviation f64 := spec_float.
Definition of_Z (z : Z) : f64 := binary_normalize 53 1024 z 0 false.
Definition add : f64 -> f64 -> f64 := SFadd 53 1024.
Definition sub : f64 -> f64 -> f64 := SFsub 53 1024.
Definition mul : f64 -> f64 -> f64 := SFmul 53 1024.
Definition div : f64 -> f64 -> f64 := SFdiv 53 1024.
Definition sqrt : f64 -> f64 := SFsqrt 53 1024.
Definition lt (x y : f64) : bool := SFltb x y.
Definition le (x y : f64) : bool := SFleb x y.
Definition inf : f64 := S754_infinity false.
Definition zero : f64 := S754_zero false.

(** A decimal literal, [n / d]: the double nearest to it. *)
Definition lit (n d : Z) : f64 := div (of_Z n) (of_Z d).

(** [f64::max], [f64::min]: the other argument where one is NaN. *)
Definition max (x y : f64) : f64 := match x, y with S754_nan, _ => y | _, S754_nan => x | _, _ => if lt x y then y else x end.
Definition min (x y : f64) : f64 := match x, y with S754_nan, _ => y | _, S754_nan => x | _, _ => if lt y x then y else x end.
Definition clamp (lo hi x : f64) : f64 := let x := if lt x lo then lo else x in if lt hi x then hi else x.

(** The integer below a finite number, and above. *)
Definition floor_Z (s : bool) (m : positive) (e : Z) : Z := let z := cond_Zopp s (Zpos m) in if 0 <=? e then z * 2 ^ e else z / 2 ^ (- e).
Definition floor (x : f64) : f64 := match x with S754_finite s m e => binary_normalize 53 1024 (floor_Z s m e) 0 s | _ => x end.
Definition ceil (x : f64) : f64 := match x with S754_finite s m e => binary_normalize 53 1024 (- floor_Z (negb s) m e) 0 s | _ => x end.

(** [as u64]: toward zero, saturating, NaN as 0. *)
Definition as_u64 (x : f64) : Z :=
  match x with
  | S754_zero _ | S754_nan => 0
  | S754_infinity s => if s then 0 else 2 ^ 64 - 1
  | S754_finite s m e => if s then 0 else Z.min (2 ^ 64 - 1) (floor_Z false m e)
  end.

(** [Iterator::sum] begins with minus zero. *)
Definition sum (l : list f64) : f64 := fold_left add l (S754_zero true).

End F64.

(** ** Additive increase, multiplicative decrease *)
Module Aimd.
Import F64.

Definition FLOOR_BPS : f64 := of_Z 30000.
Definition BETA : f64 := lit 85 100.
Definition PACKET_BYTES : f64 := of_Z 1200.
Definition FPS : f64 := of_Z 30.

Inductive Usage := Normal | Overuse | Underuse.
#[global] Instance Usage_eq_dec : EqDecision Usage.
Proof. solve_decision. Defined.

Definition parse (s : string) : option Usage :=
  if bool_decide (s = "normal") then Some Normal
  else if bool_decide (s = "overuse") then Some Overuse
  else if bool_decide (s = "underuse") then Some Underuse
  else None.

Record LinkCapacity := mkLink { estimate_kbps : option f64; deviation_kbps : f64 }.
Definition link_new : LinkCapacity := mkLink None (lit 4 10).
Definition reset (l : LinkCapacity) : LinkCapacity := mkLink None (deviation_kbps l).
Definition deviation_bps (e : f64) (l : LinkCapacity) : f64 := mul (sqrt (mul (deviation_kbps l) e)) (of_Z 1000).
Definition upper_bps (l : LinkCapacity) : f64 :=
  match estimate_kbps l with Some e => add (mul e (of_Z 1000)) (mul (of_Z 3) (deviation_bps e l)) | None => inf end.
Definition lower_bps (l : LinkCapacity) : f64 :=
  match estimate_kbps l with Some e => max (sub (mul e (of_Z 1000)) (mul (of_Z 3) (deviation_bps e l))) zero | None => zero end.
Definition on_overuse (acked_bps : f64) (l : LinkCapacity) : LinkCapacity :=
  let alpha := lit 5 100 in
  let keep := sub (of_Z 1) alpha in
  let sample := div acked_bps (of_Z 1000) in
  let est := match estimate_kbps l with None => sample | Some e => add (mul keep e) (mul alpha sample) end in
  let norm := max est (of_Z 1) in
  let err := sub est sample in
  mkLink (Some est) (clamp (lit 4 10) (lit 25 10) (add (mul keep (deviation_kbps l)) (div (mul (mul alpha err) err) norm))).

Inductive State := Hold | Increase | Decrease.

Record Aimd := mkAimd {
  current_bps : f64; state : State; link : LinkCapacity; last_change_ms : option Z; rtt_ms : Z; min_bps : f64; max_bps : f64 }.

Definition new (start_bps rtt : Z) : Aimd := mkAimd (of_Z start_bps) Hold link_new None rtt FLOOR_BPS inf.
Definition bps (a : Aimd) : Z := as_u64 (current_bps a).
Definition near (a : Aimd) : bool := bool_decide (is_Some (estimate_kbps (link a))).
Definition set_estimate (b now_ms : Z) (a : Aimd) : Aimd :=
  mkAimd (of_Z b) (state a) (link a) (Some now_ms) (rtt_ms a) (min_bps a) (max_bps a).

Definition near_max_rate (a : Aimd) : f64 :=
  let frame_bits := div (current_bps a) FPS in
  let packet_bits := mul PACKET_BYTES (of_Z 8) in
  let packets := max (ceil (div frame_bits packet_bits)) (of_Z 1) in
  let avg_packet_bits := div frame_bits packets in
  let response_s := div (mul (of_Z 2) (add (of_Z (rtt_ms a)) (of_Z 100))) (of_Z 1000) in
  max (div avg_packet_bits response_s) (of_Z 4000).

Section Powf.
(** [powf x y] is [x.powf(y)]. *)
Context (powf : f64 -> f64 -> f64).

Definition update (now_ms : Z) (usage : Usage) (acked_bps : Z) (a : Aimd) : Aimd * Z :=
  let acked := of_Z acked_bps in
  let (st, lc) :=
    match usage with
    | Normal => match state a with Hold => (Increase, Some now_ms) | st => (st, last_change_ms a) end
    | Overuse => (Decrease, last_change_ms a)
    | Underuse => (Hold, last_change_ms a)
    end in
  let cur := current_bps a in
  let '(new, st, l, lc) :=
    match st with
    | Hold => (cur, Hold, link a, lc)
    | Increase =>
      let l := if lt (upper_bps (link a)) acked then reset (link a) else link a in
      let elapsed_s := match lc with Some t => div (of_Z (sat_sub now_ms t)) (of_Z 1000) | None => zero end in
      let new :=
        if bool_decide (is_Some (estimate_kbps l)) then add cur (mul (near_max_rate a) elapsed_s)
        else add cur (max (mul cur (sub (powf (lit 108 100) (min elapsed_s (of_Z 1))) (of_Z 1))) (of_Z 1000)) in
      (new, Increase, l, Some now_ms)
    | Decrease =>
      let dec := mul acked BETA in
      let dec := if lt (of_Z 5000) dec then sub dec (of_Z 5000) else dec in
      let dec := if lt cur dec then match estimate_kbps (link a) with Some e => mul (mul BETA e) (of_Z 1000) | None => dec end else dec in
      let new := if lt dec cur then dec else cur in
      let l := if lt acked (lower_bps (link a)) then reset (link a) else link a in
      (new, Hold, on_overuse acked l, Some now_ms)
    end in
  let cap := add (mul (lit 15 10) acked) (of_Z 10000) in
  let new := if lt cur new && lt cap new then max cur cap else new in
  let a := mkAimd (floor (clamp (min_bps a) (max_bps a) new)) st l lc (rtt_ms a) (min_bps a) (max_bps a) in
  (a, bps a).

End Powf.

(** The cases the sources test; one half of a second is the square root. *)
Example first_increase_is_1000 :
  let powf x y := if SFeqb y zero then of_Z 1 else sqrt x in
  let (a, r1) := update powf 0 Normal 300000 (new 300000 200) in
  (r1, (update powf 500 Normal 300000 a).2) = (301000, 312808).
Proof. vm_compute. reflexivity. Qed.

Example decrease_from_acked : let (a, r) := update (fun x _ => x) 0 Overuse 900000 (new 1000000 200) in (r, near a) = (760000, true).
Proof. vm_compute. reflexivity. Qed.

End Aimd.

(** ** The trend of the delay *)
Module Trend.
Import F64 Aimd.

Definition TREND_WINDOW : nat := 20.

Record Trendline := mkTrend {
  first_arrival_ms : option f64; acc_delay : f64; smoothed : f64; samples : list (f64 * f64); threshold : f64;
  last_update_ms : option f64; overuse_ms : f64; overuse_count : Z; prev_trend : f64; usage : option Usage }.

Definition new : Trendline := mkTrend None zero zero [] (lit 125 10) None zero 0 zero (Some Normal).

(** The slope of the samples, when they vary. *)
Definition slope (l : list (f64 * f64)) (old : f64) : f64 :=
  let n := of_Z (len l) in
  let mx := div (sum (map fst l)) n in
  let my := div (sum (map snd l)) n in
  let num := sum (map (fun s => mul (sub s.1 mx) (sub s.2 my)) l) in
  let den := sum (map (fun s => mul (sub s.1 mx) (sub s.1 mx)) l) in
  if negb (SFeqb den zero) then div num den else old.

Definition update (recv_delta_ms send_delta_ms arrival_ms : f64) (t : Trendline) : Trendline * Usage :=
  let delta := sub recv_delta_ms send_delta_ms in
  let first := default arrival_ms (first_arrival_ms t) in
  let acc := add (acc_delay t) delta in
  let sm := add (mul (lit 9 10) (smoothed t)) (mul (lit 1 10) acc) in
  let l := samples t ++ [(sub arrival_ms first, sm)] in
  let l := if (TREND_WINDOW <? length l)%nat then drop 1 l else l in
  let trend := if (length l =? TREND_WINDOW)%nat then slope l (prev_trend t) else prev_trend t in
  let modified := mul (mul (of_Z (Z.min (len l) 60)) trend) (of_Z 4) in
  let '(om, oc, us) :=
    if lt (threshold t) modified then
      let om := add (overuse_ms t) (max send_delta_ms zero) in
      let oc := u32 (overuse_count t + 1) in
      if lt (of_Z 10) om && (1 <? oc) && le (prev_trend t) trend then (zero, 0, Overuse)
      else (om, oc, default Normal (usage t))
    else if lt modified (SFopp (threshold t)) then (zero, 0, Underuse)
    else (zero, 0, Normal) in
  let dt := match last_update_ms t with Some x => min (sub arrival_ms x) (of_Z 100) | None => zero end in
  let off := sub (SFabs modified) (threshold t) in
  let k := if lt (SFabs modified) (threshold t) then lit 39 1000 else lit 87 10000 in
  let th := if lt off (of_Z 15) then clamp (of_Z 6) (of_Z 600) (add (threshold t) (mul (mul k off) dt)) else threshold t in
  (mkTrend (Some first) acc sm l th (Some arrival_ms) om oc trend (Some us), us).

End Trend.

(** ** The limit of the layers of a subscriber *)
Module Auto.
Import F64 Aimd.

Definition H_BPS : Z := 1650000.
Definition L_BPS : Z := 250000.
Definition HEADROOM : f64 := lit 12 10.
Definition DEMOTE_LOSS : f64 := lit 8 100.
Definition CLEAN_LOSS : f64 := lit 2 100.
Definition DEMOTE_NACK_PER_S : f64 := of_Z 20.
Definition DEMOTE_TICKS : Z := 2.
Definition BACKOFF_MS : Z := 15000.
Definition BACKOFF_MAX_MS : Z := 60000.
Definition COLLAPSE_MS : Z := 5000.
Definition GRACE_MS : Z := 10000.
Definition LOSS_FRESH_MS : Z := 6000.
Definition PROBE_RUN_MS : Z := 2500.
Definition PROBE_JUDGE_MS : Z := 4000.
Definition PROBE_GAIN : f64 := lit 135 100.
Definition PROBE_MAX_BPS : f64 := of_Z 3000000.
Definition V2_STALE_MS : Z := 1000.
Definition START_BPS : Z := 300000.
Definition DECREASE_GAP_MS : Z := 300.
Definition PAD_BYTES : Z := 224.
Definition BURST_US : Z := 5000.
Definition SIM_MS : Z := 1000.
Definition PROBE_US : Z := 20000.

Inductive Mode := Off | V1 | V2.
#[global] Instance Mode_eq_dec : EqDecision Mode.
Proof. solve_decision. Defined.

Definition layer_name (l : Z) : string := if l =? 0 then "l" else if l =? 1 then "h" else "pause".

Record Probe := mkProbe { started : Z; rate : f64; bytes_acked : Z; first_at : option Z; last_at : option Z }.

Record ConnSim := mkSim {
  level : Z; bad : Z; last_demote : Z; last_promote : Z; backoff : Z; prev_nacks : gmap Z Z; prev_drops : gmap Z Z;
  aimd : Aimd; trend : Trend.Trendline; fb_at : Z; last_decrease : Z; acked : list (Z * Z);
  group : option (Z * Z * Z * Z); probe : option Probe }.

Definition sim_default : ConnSim := mkSim 1 0 0 0 BACKOFF_MS ∅ ∅ (new START_BPS 200) Trend.new 0 0 [] None None.

Definition set_bad x s := mkSim (level s) x (last_demote s) (last_promote s) (backoff s) (prev_nacks s) (prev_drops s) (aimd s) (trend s) (fb_at s) (last_decrease s) (acked s) (group s) (probe s).
Definition set_prev n d s := mkSim (level s) (bad s) (last_demote s) (last_promote s) (backoff s) n d (aimd s) (trend s) (fb_at s) (last_decrease s) (acked s) (group s) (probe s).
Definition demoted now b s := mkSim 0 0 now (last_promote s) b (prev_nacks s) (prev_drops s) (aimd s) (trend s) (fb_at s) (last_decrease s) (acked s) (group s) (probe s).
Definition promoted now s := mkSim 1 (bad s) (last_demote s) now (backoff s) (prev_nacks s) (prev_drops s) (aimd s) (trend s) (fb_at s) (last_decrease s) (acked s) (group s) (probe s).
Definition set_last_demote x s := mkSim (level s) (bad s) x (last_promote s) (backoff s) (prev_nacks s) (prev_drops s) (aimd s) (trend s) (fb_at s) (last_decrease s) (acked s) (group s) (probe s).
Definition set_probe x s := mkSim (level s) (bad s) (last_demote s) (last_promote s) (backoff s) (prev_nacks s) (prev_drops s) (aimd s) (trend s) (fb_at s) (last_decrease s) (acked s) (group s) x.
Definition set_aimd x s := mkSim (level s) (bad s) (last_demote s) (last_promote s) (backoff s) (prev_nacks s) (prev_drops s) x (trend s) (fb_at s) (last_decrease s) (acked s) (group s) (probe s).
Definition set_trend x s := mkSim (level s) (bad s) (last_demote s) (last_promote s) (backoff s) (prev_nacks s) (prev_drops s) (aimd s) x (fb_at s) (last_decrease s) (acked s) (group s) (probe s).
Definition set_fb_at x s := mkSim (level s) (bad s) (last_demote s) (last_promote s) (backoff s) (prev_nacks s) (prev_drops s) (aimd s) (trend s) x (last_decrease s) (acked s) (group s) (probe s).
Definition set_last_decrease x s := mkSim (level s) (bad s) (last_demote s) (last_promote s) (backoff s) (prev_nacks s) (prev_drops s) (aimd s) (trend s) (fb_at s) x (acked s) (group s) (probe s).
Definition set_acked x s := mkSim (level s) (bad s) (last_demote s) (last_promote s) (backoff s) (prev_nacks s) (prev_drops s) (aimd s) (trend s) (fb_at s) (last_decrease s) x (group s) (probe s).
Definition set_group x s := mkSim (level s) (bad s) (last_demote s) (last_promote s) (backoff s) (prev_nacks s) (prev_drops s) (aimd s) (trend s) (fb_at s) (last_decrease s) (acked s) x (probe s).

(** A row of the subscriber that carries a simulcast video ([sim_rows]): its address, what
    the client reported about it, its counters, the machine of [Sim] and the tracks of the
    stream. *)
Record Row := mkRow {
  key : Z; rr_at : Z; rr_loss : Z; nacks : Z; drops : Z; row : Sim.RowSim; stream : Sim.Stream }.

(** The growth of a counter since it was looked at last, and the memory of it. *)
Definition grown (k total : Z) (prev : gmap Z Z) : gmap Z Z * Z := (<[k := total]> prev, sat_sub total (default total (prev !! k))).
Definition nack_per_s (k total : Z) (prev : gmap Z Z) : gmap Z Z * f64 :=
  let (prev, d) := grown k total prev in (prev, div (mul (of_Z d) (of_Z 1000)) (of_Z SIM_MS)).

(** What the loop over the rows gathers. *)
Record Seen := mkSeen { loss : f64; nack_rate : f64; dropped : Z; pn : gmap Z Z; pd : gmap Z Z }.
Definition look (now : Z) (x : Seen) (r : Row) : Seen :=
  let loss := if sat_sub now (rr_at r) <=? LOSS_FRESH_MS then max (loss x) (div (of_Z (rr_loss r)) (of_Z 256)) else loss x in
  let (pn, rate) := nack_per_s (key r) (nacks r) (pn x) in
  let (pd, d) := grown (key r) (drops r) (pd x) in
  mkSeen loss (add (nack_rate x) rate) (u64 (dropped x + d)) pn pd.

(** The judgement of one tick, from the rows and the estimate. *)
Record Verdict := mkVerdict { v2 : bool; short : bool; vbad : bool; clean : bool; demand_h : f64; est : f64 }.
Definition judge (m : Mode) (now n_rows : Z) (x : Seen) (s : ConnSim) : Verdict :=
  let v2 := bool_decide (m = V2) && (sat_sub now (fb_at s) <=? V2_STALE_MS) in
  let n := of_Z n_rows in
  let demand_h := mul (mul n (of_Z H_BPS)) HEADROOM in
  let demand_now := mul (mul n (of_Z (if level s =? 1 then H_BPS else L_BPS))) HEADROOM in
  let est := of_Z (bps (aimd s)) in
  let in_grace := sat_sub now (last_promote s) <? GRACE_MS in
  let short := v2 && negb in_grace && (level s =? 1) && lt est demand_now in
  let bad := short || le DEMOTE_LOSS (loss x) || lt DEMOTE_NACK_PER_S (nack_rate x) || (0 <? dropped x) in
  mkVerdict v2 short bad (le (loss x) CLEAN_LOSS) demand_h est.

(** The level moves down, up, or a probe is started. *)
Definition move (now : Z) (v : Verdict) (s : ConnSim) : ConnSim * option Z :=
  let s := set_bad (if vbad v then u32 (bad s + 1) else 0) s in
  if (level s =? 1) && (DEMOTE_TICKS <=? bad s) then
    let b := if (sat_sub now (last_promote s) <? COLLAPSE_MS) && negb (short v) then Z.min (u64 (backoff s * 2)) BACKOFF_MAX_MS else backoff s in
    (demoted now b s, Some 0)
  else if (level s =? 0) && negb (vbad v) && clean v && (backoff s <=? sat_sub now (last_demote s)) then
    let usage_ok := negb (bool_decide (Trend.usage (trend s) = Some Overuse)) in
    if negb (v2 v) || (usage_ok && le (demand_h v) (est v)) then (promoted now s, Some 1)
    else if v2 v && bool_decide (probe s = None) then
      (set_probe (Some (mkProbe now (min (mul (demand_h v) PROBE_GAIN) PROBE_MAX_BPS) 0 None None)) s, None)
    else (s, None)
  else (s, None).

(** The end of a probe: the rate measured becomes the estimate, or there is no promotion for
    another while. *)
Definition end_probe (now : Z) (v : Verdict) (s : ConnSim) : ConnSim :=
  match probe s with
  | Some p =>
    if PROBE_JUDGE_MS <=? sat_sub now (started p) then
      let measured :=
        match first_at p, last_at p with
        | Some a, Some b => if a <? b then Some (as_u64 (div (mul (mul (of_Z (bytes_acked p)) (of_Z 8)) (of_Z 1000000)) (of_Z (b - a)))) else None
        | _, _ => None
        end in
      let s := set_probe None s in
      match measured with
      | Some x => if le (demand_h v) (of_Z x) then set_aimd (set_estimate x now (aimd s)) s else set_last_demote now s
      | None => set_last_demote now s
      end
    else s
  | None => s
  end.

(** [tick]: the state, the rows with the new limit, the key frames asked for, and the change
    of the level that is logged. *)
Definition tick (m : Mode) (now : Z) (rows : list Row) (s : ConnSim) : ConnSim * list (Sim.RowSim * list nat) * option Z :=
  let same := map (fun r => (row r, [])) rows in
  if bool_decide (m = Off) then (s, same, None)
  else match rows with
  | [] => (s, same, None)
  | _ =>
    let x := fold_left (look now) rows (mkSeen zero zero 0 (prev_nacks s) (prev_drops s)) in
    let s := set_prev (pn x) (pd x) s in
    let v := judge m now (len rows) x s in
    let (s, changed) := move now v s in
    let s := end_probe now v s in
    (s, map (fun r => Sim.retarget (stream r) now (Sim.set_auto_cap (level s) (row r))) rows, changed)
  end.

(** *** What the transport-wide feedback of a subscriber does *)

(** A packet that was sent: its number, when, how long, and whether it was padding of a probe. *)
Record Sent := mkSent { sseq : Z; sat_us : Z; ssize : Z; sprobe : bool }.

(** The packets by number; the last one under a number counts. *)
Definition by_seq (l : list Sent) : gmap Z Sent := fold_left (fun m x => <[sseq x := x]> m) l ∅.

(** One packet of the feedback that was sent by us: it counts as delivered, and for a probe
    that runs; packets sent within [BURST_US] are one group, and the delay between groups goes
    into the trend. *)
Definition arrived (now at_us : Z) (x : Sent) (st : ConnSim * Usage) : ConnSim * Usage :=
  let (s, us) := st in
  let s := set_acked (acked s ++ [(now, ssize x)]) s in
  let s :=
    match probe s with
    | Some p =>
      if sprobe x then
        set_probe (Some (mkProbe (started p) (rate p) (u64 (bytes_acked p + ssize x)) (Some (default at_us (first_at p))) (Some at_us))) s
      else s
    | None => s
    end in
  match group s with
  | None => (set_group (Some (sat_us x, at_us, sat_us x, at_us)) s, us)
  | Some (send0, recv0, ps, pr) =>
    if sat_us x - send0 <=? BURST_US then (set_group (Some (send0, recv0, sat_us x, at_us)) s, us)
    else
      let recv_d := div (of_Z (at_us - pr)) (of_Z 1000) in
      let send_d := div (of_Z (sat_us x - ps)) (of_Z 1000) in
      let (t, us) := Trend.update recv_d send_d (div (of_Z at_us) (of_Z 1000)) (trend s) in
      (set_group (Some (sat_us x, at_us, sat_us x, at_us)) (set_trend t s), us)
  end.

Fixpoint arrivals_loop (now : Z) (sent : gmap Z Sent) (base : Z) (k : Z) (l : list (option Z)) (st : ConnSim * Usage) : ConnSim * Usage :=
  match l with
  | [] => st
  | a :: l =>
    let st := match a, sent !! u16 (base + k) with Some at_us, Some x => arrived now at_us x st | _, _ => st end in
    arrivals_loop now sent base (k + 1) l st
  end.

(** The loop at the front of the queue of delivered packets. *)
Fixpoint expire (now : Z) (l : list (Z * Z)) : list (Z * Z) :=
  match l with
  | (t, b) :: l' => if 1000 <? sat_sub now t then expire now l' else l
  | [] => []
  end.

Section Powf.
Context (powf : f64 -> f64 -> f64).

Definition on_twcc (m : Mode) (now : Z) (sent : list Sent) (body : list byte) (s : ConnSim) : ConnSim :=
  let! (base, arrivals) := Rtcp.parse_twcc body else s in
  if negb (bool_decide (m = V2)) then s
  else
    let s := set_fb_at now s in
    let (s, usage) := arrivals_loop now (by_seq sent) base 0 arrivals (s, default Normal (Trend.usage (trend s))) in
    let s := set_acked (expire now (acked s)) s in
    let acked_bps := u64 (fold_left (fun a x => a + x.2) (acked s) 0 * 8) in
    if bool_decide (usage = Overuse) && (sat_sub now (last_decrease s) <? DECREASE_GAP_MS) then s
    else
      let s := if bool_decide (usage = Overuse) then set_last_decrease now s else s in
      set_aimd (update powf now usage acked_bps (aimd s)).1 s.

End Powf.

(** *** The padding of a probe *)

(** The number of packets of one round, of [n_rows] rows, and their payload: the number of the
    last packet, then padding whose last byte counts it. *)
Definition probe_active (now : Z) (s : ConnSim) : option Probe :=
  match probe s with Some p => if sat_sub now (started p) <? PROBE_RUN_MS then Some p else None | None => None end.
Definition probe_packets (p : Probe) (n_rows : Z) : Z :=
  let extra := max (sub (rate p) (mul (of_Z L_BPS) (of_Z n_rows))) zero in
  let bytes := as_u64 (div (mul extra (div (of_Z PROBE_US) (of_Z 1000000))) (of_Z 8)) in
  bytes / (PAD_BYTES + 2) + 1.
Definition probe_payload (osn : Z) : list byte := be 2 osn ++ repeat x00 (Z.to_nat (PAD_BYTES - 1)) ++ [zb PAD_BYTES].

(** What [probe] reads of the first row: the stream of its retransmissions, and the number and
    time of the last packet sent on it. *)
Record ProbeRow := mkProbeRow { rtx_ssrc : option Z; rtx_pt : Z; last_out : option (Z * Z); rtx_seq : Z }.

(** A packet as [send_built] gets it. *)
Record Built := mkBuilt { b_pt : Z; b_seq : Z; b_ts : Z; b_ssrc : Z; b_payload : list byte }.

(** One round of a probe: the row with the numbers taken, and the packets. *)
Definition probe_round (now : Z) (rows : list ProbeRow) (s : ConnSim) : list ProbeRow * list Built :=
  let! p := probe_active now s else (rows, []) in
  match rows with
  | [] => (rows, [])
  | r :: rest =>
    let! x := rtx_ssrc r else (rows, []) in
    if rtx_pt r =? 0 then (rows, [])
    else
      let n := Z.to_nat (probe_packets p (len rows)) in
      let! (osn, ts) := last_out r else (rows, []) in
      (mkProbeRow (rtx_ssrc r) (rtx_pt r) (last_out r) (u16 (rtx_seq r + Z.of_nat n)) :: rest,
       map (fun i => mkBuilt (rtx_pt r) (u16 (rtx_seq r + Z.of_nat i)) ts x (probe_payload osn)) (seq 0 n))
  end.

Example probe_of_one_row :
  let s := set_probe (Some (mkProbe 1000 PROBE_MAX_BPS 0 None None)) sim_default in
  let (rows, out) := probe_round 1500 [mkProbeRow (Some 7) 97 (Some (513, 9)) 65534] s in
  (length out, b_seq <$> out !! 2%nat, rtx_seq <$> head rows) = (31%nat, Some 0, Some 29).
Proof. vm_compute. reflexivity. Qed.

(** ** The level is not moved in a hurry *)

(** What happens to a subscriber: the tick of its worker, with the rows as they are then, and
    feedback. *)
Inductive Ev := Tick (now : Z) (rows : list Row) | Fb (now : Z) (sent : list Sent) (body : list byte).
Definition time (e : Ev) : Z := match e with Tick now _ => now | Fb now _ _ => now end.

Section Run.
Context (powf : f64 -> f64 -> f64) (m : Mode).

(** The state, and the changes of the level with their times. *)
Definition step (e : Ev) (s : ConnSim) : ConnSim * list (Z * Z) :=
  match e with
  | Tick now rows => let '(s, _, changed) := tick m now rows s in (s, match changed with Some l => [(now, l)] | None => [] end)
  | Fb now sent body => (on_twcc powf m now sent body s, [])
  end.

Fixpoint run (es : list Ev) (s : ConnSim) : ConnSim * list (Z * Z) :=
  match es with
  | [] => (s, [])
  | e :: es => let (s, o) := step e s in let (s, o') := run es s in (s, o ++ o')
  end.

(** The clock does not go back. *)
Fixpoint clock (c : Z) (es : list Ev) : Prop := match es with [] => True | e :: es => c <= time e /\ clock (time e) es end.

(** The parts the machine of the level is made of. *)
Record machine (s : ConnSim) (c since : Z) : Prop := {
  mc_level : level s = 0 \/ level s = 1 /\ bad s <= 1;
  mc_bad : 0 <= bad s;
  mc_backoff : BACKOFF_MS <= backoff s <= BACKOFF_MAX_MS;
  mc_demote : since <= last_demote s \/ level s = 1;
  mc_times : last_demote s <= c /\ last_promote s <= c }.

Definition same_machine (s s' : ConnSim) : Prop :=
  level s' = level s /\ bad s' = bad s /\ backoff s' = backoff s /\ last_demote s' = last_demote s /\ last_promote s' = last_promote s.

Lemma same_trans a b c : same_machine a b -> same_machine b c -> same_machine a c.
Proof. unfold same_machine. intuition congruence. Qed.

Lemma arrived_same now at_us x st : same_machine st.1 (arrived now at_us x st).1.
Proof.
  destruct st as [s us]. unfold arrived, same_machine. destruct (probe _) as [p|]; [destruct (sprobe x)|]; cbn [set_acked set_probe group fst]; destruct (group s) as [[[[a b] c] d]|]; try done;
    (destruct (_ <=? BURST_US); [done|]; destruct (Trend.update _ _ _ _); done).
Qed.

Lemma arrivals_same now sent base l : forall k st, same_machine st.1 (arrivals_loop now sent base k l st).1.
Proof.
  induction l as [|a l IH]; intros k st; cbn [arrivals_loop]; [done|]. eapply same_trans; [|apply IH].
  destruct a as [t|]; [|done]. destruct (sent !! u16 (base + k)) as [x|]; [apply arrived_same|done].
Qed.

Lemma on_twcc_same now sent body s : same_machine s (on_twcc powf m now sent body s).
Proof.
  unfold on_twcc. destruct (Rtcp.parse_twcc body) as [[base arr]|]; [|done]. destruct (negb _); [done|].
  pose proof (arrivals_same now (by_seq sent) base arr 0 (set_fb_at now s, default Normal (Trend.usage (trend (set_fb_at now s))))) as H.
  destruct (arrivals_loop _ _ _ _ _ _) as [s1 us]. destruct H as (A1 & A2 & A3 & A4 & A5). cbn [fst] in *.
  destruct (_ && _); [done|]. by destruct (bool_decide _).
Qed.

Lemma machine_same s s' c c' since : same_machine s s' -> c <= c' -> machine s c since -> machine s' c' since.
Proof. intros (E1 & E2 & E3 & E4 & E5) Hc [H1 H2 H3 H4 H5]. split; rewrite ?E1, ?E2, ?E3, ?E4, ?E5; (done || lia). Qed.

Lemma machine_later s c c' since : c <= c' -> machine s c since -> machine s c' since.
Proof. intros Hc. by apply machine_same. Qed.

(** [move] keeps the machine and the distance. *)
Lemma move_spec now v s since c : machine s c since -> c <= now ->
  let (s', ch) := move now v s in
  match ch with
  | None => machine s' now since /\ level s' = level s
  | Some l => l = 1 - level s /\ level s' = l /\ machine s' now now /\ (l = 1 -> since + BACKOFF_MS <= now)
  end.
Proof.
  intros [H1 H2 H3 H4 H5] Hc. unfold move. cbv zeta. set (b := if vbad v then u32 (bad s + 1) else 0).
  assert (Hb : 0 <= b) by (unfold b; destruct (vbad v); [apply u32_range|lia]).
  assert (Hlim : Z.min (u64 (backoff s * 2)) BACKOFF_MAX_MS = Z.min (backoff s * 2) BACKOFF_MAX_MS).
  { unfold BACKOFF_MS, BACKOFF_MAX_MS in *. rewrite u64_id; [done|ulia]. }
  cbn [set_bad level bad last_demote last_promote backoff trend probe]. destruct ((level s =? 1) && (DEMOTE_TICKS <=? b)) eqn:E1.
  - apply andb_true_iff in E1 as [E1 _]. apply Z.eqb_eq in E1. split; [lia|]. split; [done|]. split; [|done]. split; cbn; [by left|lia| |left; lia|lia].
    rewrite Hlim. unfold BACKOFF_MS, BACKOFF_MAX_MS in *. destruct (_ && _); lia.
  - destruct ((level s =? 0) && negb (vbad v) && clean v && _) eqn:E2.
    + apply andb_true_iff in E2 as [E2 Ew]. apply andb_true_iff in E2 as [E2 _]. apply andb_true_iff in E2 as [E0 Ev]. apply Z.eqb_eq in E0. apply Z.leb_le in Ew.
      assert (b = 0) as Eb by (unfold b; by destruct (vbad v)).
      destruct (negb (v2 v) || _).
      * cbn. rewrite E0. split; [done|]. split; [done|]. split; [|intros _; unfold sat_sub in Ew; unfold BACKOFF_MS in *; lia].
        split; cbn; [right; lia|lia|done|by right|lia].
      * destruct (v2 v && bool_decide (probe s = None)); (split; [|done]); (split; cbn; [by left|lia|done|destruct H4; [by left|lia]|lia]).
    + split; [|done]. split; cbn; [|lia|done|destruct H4; [by left|by right]|lia]. destruct H1 as [H1|[H1 H1']]; [by left|]. right. split; [done|].
      rewrite H1 in E1. cbn in E1. apply Z.leb_gt in E1. unfold DEMOTE_TICKS in E1. lia.
Qed.

Lemma end_probe_spec now v s since : machine s now since -> since <= now -> machine (end_probe now v s) now since /\ level (end_probe now v s) = level s.
Proof.
  intros [H1 H2 H3 H4 H5] Hs. unfold end_probe. destruct (probe s) as [p|]; [|done]. destruct (PROBE_JUDGE_MS <=? _); [|done].
  match goal with |- context [match ?x with Some _ => _ | None => set_last_demote _ _ end] => destruct x as [y|] end; [destruct (le _ _)|];
    (split; [|done]); (split; cbn; [done|done|done| |lia]); [done|left; lia|left; lia].
Qed.

(** A tick, for the machine. *)
Lemma tick_spec now rows s since c : machine s c since -> c <= now -> since <= c ->
  let '(s', _, ch) := tick m now rows s in
  match ch with
  | None => machine s' now since /\ level s' = level s
  | Some l => l = 1 - level s /\ level s' = l /\ machine s' now now /\ (l = 1 -> since + BACKOFF_MS <= now)
  end.
Proof.
  intros Hm Hc Hs. unfold tick. destruct (bool_decide _); [split; [by eapply machine_later|done]|]. destruct rows as [|r rows]; [split; [by eapply machine_later|done]|].
  set (x := fold_left _ _ _). set (s1 := set_prev _ _ s). set (v := judge _ _ _ _ _).
  assert (M1 : machine s1 c since) by (destruct Hm; by split). pose proof (move_spec now v s1 since c M1 Hc) as H. destruct (move now v s1) as [s2 ch].
  destruct ch as [l|].
  - destruct H as (A1 & A2 & A3 & A4). destruct (end_probe_spec now v s2 now A3 ltac:(lia)) as [B1 B2]. split; [done|]. by rewrite B2.
  - destruct H as (A1 & A2). destruct (end_probe_spec now v s2 since A1 ltac:(lia)) as [B1 B2]. by rewrite B2.
Qed.

(** The changes of the level, when it is [l] since [since]: they alternate, and up it goes
    only when it was down for the backoff. *)
Fixpoint paced (l since : Z) (o : list (Z * Z)) : Prop :=
  match o with
  | [] => True
  | (t, x) :: o => x = 1 - l /\ since <= t /\ (x = 1 -> since + BACKOFF_MS <= t) /\ paced x t o
  end.

Lemma auto_run_spec es : forall s c since, machine s c since -> since <= c -> clock c es ->
  paced (level s) since (run es s).2 /\ exists c' since', machine (run es s).1 c' since' /\ since' <= c' /\ forall es', clock c (es ++ es') -> clock c' es'.
Proof.
  induction es as [|e es IH]; intros s c since Hm Hs Hk.
  { split; [done|]. exists c, since. done. }
  destruct Hk as [Hk1 Hk2]. cbn [run]. destruct e as [now rows|now sent body]; cbn [step time] in *.
  - pose proof (tick_spec now rows s since c Hm Hk1 Hs) as T. destruct (tick m now rows s) as [[s1 rs] ch]. destruct ch as [l|].
    + destruct T as (A1 & A2 & A3 & A4). destruct (IH s1 now now A3 ltac:(lia) Hk2) as (B1 & c' & since' & B2 & B3 & B4).
      destruct (run es s1) as [s2 o2]. cbn in *. rewrite A2 in B1. split; [split; [done|]; split; [lia|done]|]. exists c', since'. split; [done|]. split; [done|]. intros es' [_ H]. auto.
    + destruct T as (A1 & A2). destruct (IH s1 now since A1 ltac:(lia) Hk2) as (B1 & c' & since' & B2 & B3 & B4).
      destruct (run es s1) as [s2 o2]. cbn in *. rewrite A2 in B1. split; [done|]. exists c', since'. split; [done|]. split; [done|]. intros es' [_ H]. auto.
  - pose proof (on_twcc_same now sent body s) as E. pose proof (machine_same _ _ _ now since E Hk1 Hm) as M1.
    destruct (IH _ now since M1 ltac:(lia) Hk2) as (B1 & c' & since' & B2 & B3 & B4). destruct (run es _) as [s2 o2]. cbn in *.
    destruct E as [-> _] in B1. split; [done|]. exists c', since'. split; [done|]. split; [done|]. intros es' [_ H]. auto.
Qed.

Lemma machine_default : machine sim_default 0 0.
Proof. split; cbn; [by right|lia|unfold BACKOFF_MS, BACKOFF_MAX_MS; lia|by right|lia]. Qed.

(** C32: The limit of a subscriber does not flap: whatever losses, feedback and bandwidth are
    reported, the level goes down and up in turn, it stays down for fifteen seconds at least
    each time, and the backoff that says how long is never above a minute. *)
Theorem auto_level_paced es : clock 0 es ->
  paced 1 0 (run es sim_default).2 /\ BACKOFF_MS <= backoff (run es sim_default).1 <= BACKOFF_MAX_MS.
Proof.
  intros Hk. destruct (auto_run_spec es sim_default 0 0 machine_default ltac:(lia) Hk) as (H & c' & since' & M & _). split; [done|apply M].
Qed.

(** *** Losses bring the level down, and a calm minute brings it up again *)

Definition q (l : Z) : f64 := div (of_Z l) (of_Z 256).
Definition bytes_range : list Z := map Z.of_nat (seq 0 256).

Lemma in_bytes l : is_u8 l -> In l bytes_range.
Proof. intros H. apply in_map_iff. exists (Z.to_nat l). split; [ulia|]. apply in_seq. ulia. Qed.

Definition quotients : list (Z * f64) := map (fun a => (a, q a)) bytes_range.

Lemma q_order_table : (let l := quotients in forallb (fun x => forallb (fun y => Bool.eqb (lt x.2 y.2) (x.1 <? y.1)) l) l) = true.
Proof. vm_compute. reflexivity. Qed.
Lemma q_number_table : forallb (fun a => match q a with S754_nan => false | _ => true end) bytes_range = true.
Proof. vm_compute. reflexivity. Qed.
Lemma q_bad_table : forallb (fun a => Bool.eqb (le DEMOTE_LOSS (q a)) (21 <=? a) && Bool.eqb (le (q a) CLEAN_LOSS) (a <=? 5)) bytes_range = true.
Proof. vm_compute. reflexivity. Qed.

Lemma q_max a b : is_u8 a -> is_u8 b -> max (q a) (q b) = q (Z.max a b).
Proof.
  intros Ha%in_bytes Hb%in_bytes. assert (L : lt (q a) (q b) = (a <? b)).
  { pose proof q_order_table as T. cbv zeta in T. rewrite forallb_forall in T. specialize (T (a, q a) ltac:(by apply (in_map (fun a => (a, q a))))).
    cbv beta in T. rewrite forallb_forall in T. specialize (T (b, q b) ltac:(by apply (in_map (fun a => (a, q a))))). by apply Bool.eqb_prop in T. }
  pose proof q_number_table as N. rewrite forallb_forall in N. pose proof (N a Ha) as Na. pose proof (N b Hb) as Nb.
  assert (max (q a) (q b) = if lt (q a) (q b) then q b else q a) as -> by (unfold max; destruct (q a), (q b); done).
  rewrite L. destruct (Z.ltb_spec a b); [by rewrite Z.max_r by lia|by rewrite Z.max_l by lia].
Qed.

Lemma q_bad a : is_u8 a -> le DEMOTE_LOSS (q a) = (21 <=? a) /\ le (q a) CLEAN_LOSS = (a <=? 5).
Proof.
  intros Ha%in_bytes. pose proof q_bad_table as T. rewrite forallb_forall in T. specialize (T a Ha). apply andb_true_iff in T as [T1 T2].
  by apply Bool.eqb_prop in T1, T2.
Qed.

Definition fresh (now : Z) (r : Row) : bool := sat_sub now (rr_at r) <=? LOSS_FRESH_MS.
Definition worst (now : Z) (rows : list Row) (a : Z) : Z := fold_left (fun a r => if fresh now r then Z.max a (rr_loss r) else a) rows a.
Definition loss_bytes (rows : list Row) : Prop := forall r, r ∈ rows -> is_u8 (rr_loss r).

(** The loss a tick sees is the worst of the fresh reports, over 256. *)
Lemma look_loss now rows : forall x a, loss_bytes rows -> is_u8 a -> loss x = q a ->
  loss (fold_left (look now) rows x) = q (worst now rows a) /\ is_u8 (worst now rows a).
Proof.
  induction rows as [|r rows IH]; intros x a Hr Ha Hx; [done|]. pose proof (Hr r ltac:(set_solver)) as Hb. cbn [fold_left worst].
  apply (IH _ (if fresh now r then Z.max a (rr_loss r) else a)); [intros r' ?; apply Hr; set_solver|destruct (fresh now r); [ulia|done]|].
  unfold look. destruct (nack_per_s _ _ _), (grown _ _ (pd x)). cbn [loss]. fold (fresh now r). rewrite Hx. destruct (fresh now r); [|done]. by apply q_max.
Qed.

Lemma worst_ge now rows : forall a, a <= worst now rows a /\ forall r, r ∈ rows -> fresh now r = true -> rr_loss r <= worst now rows a.
Proof.
  induction rows as [|r rows IH]; intros a; [split; [done|set_solver]|]. cbn [worst fold_left]. destruct (IH (if fresh now r then Z.max a (rr_loss r) else a)) as [I1 I2].
  unfold worst in *. split; [destruct (fresh now r); lia|]. intros r' [->|H]%elem_of_cons E; [rewrite E in *; lia|by apply I2].
Qed.

Lemma worst_le now rows b : forall a, a <= b -> (forall r, r ∈ rows -> fresh now r = true -> rr_loss r <= b) -> worst now rows a <= b.
Proof.
  induction rows as [|r rows IH]; intros a Ha H; [done|]. cbn [worst fold_left]. apply IH; [|intros r' ?; apply H; set_solver].
  specialize (H r ltac:(set_solver)). destruct (fresh now r); [specialize (H eq_refl); lia|done].
Qed.

(** A row reports a loss of 21 of 256 packets or more, and lately. *)
Definition lossy (now : Z) (rows : list Row) : Prop := exists r, r ∈ rows /\ fresh now r = true /\ 21 <= rr_loss r.

Definition gather (now : Z) (rows : list Row) (s : ConnSim) : Seen := fold_left (look now) rows (mkSeen zero zero 0 (prev_nacks s) (prev_drops s)).

Lemma lossy_bad now rows s s' n : loss_bytes rows -> lossy now rows -> vbad (judge m now n (gather now rows s) s') = true.
Proof.
  intros Hb (r & H1 & H2 & H3). unfold judge. cbn [vbad].
  destruct (look_loss now rows (mkSeen zero zero 0 (prev_nacks s) (prev_drops s)) 0 Hb ltac:(ulia) ltac:(reflexivity)) as [E1 E2]. fold (gather now rows s) in E1.
  rewrite E1, (proj1 (q_bad _ E2)). destruct (worst_ge now rows 0) as [_ W]. specialize (W r H1 H2).
  rewrite (proj2 (Z.leb_le 21 (worst now rows 0))) by lia. by rewrite orb_true_r.
Qed.

Lemma end_probe_keeps now v s : level (end_probe now v s) = level s /\ bad (end_probe now v s) = bad s.
Proof.
  unfold end_probe. destruct (probe s) as [p|]; [|done]. destruct (PROBE_JUDGE_MS <=? _); [|done].
  match goal with |- context [match ?x with Some _ => _ | None => set_last_demote _ _ end] => destruct x as [y|] end; [destruct (le _ _)|]; done.
Qed.

Lemma lossy_tick now rows s c since : m <> Off -> machine s c since -> loss_bytes rows -> lossy now rows ->
  let s' := (tick m now rows s).1.1 in level s' = 0 \/ (level s = 1 /\ bad s = 0 /\ level s' = 1 /\ bad s' = 1).
Proof.
  intros Ho Hm Hb Hl. unfold tick. rewrite bool_decide_eq_false_2 by done. destruct rows as [|r rows]; [destruct Hl; set_solver|].
  set (l := r :: rows) in *. fold (gather now l s). set (s1 := set_prev _ _ s). pose proof (lossy_bad now l s s1 (len l) Hb Hl) as V. set (v := judge _ _ _ _ _) in *.
  destruct (move now v s1) as [s2 ch] eqn:E. cbn [fst]. destruct (end_probe_keeps now v s2) as [-> ->]. revert E. unfold move. rewrite V. cbn [set_bad level bad].
  destruct Hm as [[H1|[H1 H2]] H3 _ _ _]; cbn [s1 set_prev level bad]; rewrite H1; cbn [Z.eqb negb andb].
  - intros [= <- _]. by left.
  - rewrite u32_id by ulia. destruct (Z.leb_spec DEMOTE_TICKS (bad s + 1)) as [D|D]; unfold DEMOTE_TICKS in D; intros [= <- _]; [by left|]. right. cbn. lia.
Qed.

Definition is_fb (e : Ev) : bool := match e with Fb _ _ _ => true | _ => false end.

Lemma fbs_same es : forall s, forallb is_fb es = true -> same_machine s (run es s).1.
Proof.
  induction es as [|e es IH]; intros s H; [done|]. cbn in H. apply andb_true_iff in H as [He H]. destruct e as [|now sent body]; [done|]. cbn [run step].
  specialize (IH (on_twcc powf m now sent body s) H). destruct (run es _) as [s2 o]. cbn in *. eapply same_trans; [apply on_twcc_same|done].
Qed.

Lemma auto_run_app es es' s : run (es ++ es') s = let (s1, o1) := run es s in let (s2, o2) := run es' s1 in (s2, o1 ++ o2).
Proof.
  revert s. induction es as [|e es IH]; intros s; cbn [app run].
  - by destruct (run es' s).
  - destruct (step e s) as [s1 o1]. rewrite IH. destruct (run es s1) as [s2 o2]. destruct (run es' s2) as [s3 o3]. by rewrite app_assoc.
Qed.

Lemma clock_app es es' c : clock c (es ++ es') -> clock c es.
Proof. revert c. induction es as [|e es IH]; intros c; cbn; [done|]. intros [? ?]. auto. Qed.

(** Losses bring a subscriber down: after two ticks in a row that see a row with eight percent
    loss or more, with any feedback in between, the level is the low one, whatever came
    before. *)
Theorem auto_losses_demote es fbs n1 n2 rows1 rows2 : m <> Off -> clock 0 (es ++ Tick n1 rows1 :: fbs ++ [Tick n2 rows2]) ->
  forallb is_fb fbs = true -> loss_bytes rows1 -> loss_bytes rows2 -> lossy n1 rows1 -> lossy n2 rows2 ->
  level (run (es ++ Tick n1 rows1 :: fbs ++ [Tick n2 rows2]) sim_default).1 = 0.
Proof.
  intros Ho Hk Hf Hb1 Hb2 Hl1 Hl2. destruct (auto_run_spec es sim_default 0 0 machine_default ltac:(lia) (clock_app _ _ _ Hk)) as (_ & c & since & M & Hs & K).
  specialize (K _ Hk). destruct K as [Kn K]. rewrite auto_run_app. destruct (run es sim_default) as [s o]. cbn [fst run step] in *.
  pose proof (lossy_tick n1 rows1 s c since Ho M Hb1 Hl1) as L1. pose proof (tick_spec n1 rows1 s since c M Kn Hs) as T.
  destruct (tick m n1 rows1 s) as [[s1 rs] ch]. cbn [fst time] in *.
  assert (M1 : exists since', machine s1 n1 since' /\ since' <= n1) by (destruct ch; [exists n1|exists since]; split; (tauto || lia)).
  destruct M1 as (since' & M1 & Hs1). rewrite auto_run_app. pose proof (fbs_same fbs s1 Hf) as S. destruct (auto_run_spec fbs s1 n1 since' M1 Hs1 (clock_app _ _ _ K)) as (_ & c2 & since2 & M2 & _).
  destruct (run fbs s1) as [s2 o2]. cbn [fst run step] in *. pose proof (lossy_tick n2 rows2 s2 c2 since2 Ho M2 Hb2 Hl2) as L2.
  destruct (tick m n2 rows2 s2) as [[s3 rs3] ch3]. cbn [fst] in *. destruct S as (S1 & S2 & _). destruct L2 as [L2|L2]; [done|]. destruct L1 as [L1|L1]; lia.
Qed.

(** No row reports a loss above five of 256, and no counter of NACKs or drops has grown since
    the last tick. *)
Definition quiet (pn pd : gmap Z Z) (r : Row) : Prop := nacks r <= default (nacks r) (pn !! key r) /\ drops r <= default (drops r) (pd !! key r).
Record calm (now : Z) (rows : list Row) (s : ConnSim) : Prop := {
  cm_loss : forall r, r ∈ rows -> fresh now r = true -> rr_loss r <= 5;
  cm_keys : NoDup (map key rows);
  cm_quiet : forall r, r ∈ rows -> quiet (prev_nacks s) (prev_drops s) r }.

Lemma look_quiet now rows : forall x, NoDup (map key rows) -> (forall r, r ∈ rows -> quiet (pn x) (pd x) r) -> nack_rate x = zero -> dropped x = 0 ->
  nack_rate (fold_left (look now) rows x) = zero /\ dropped (fold_left (look now) rows x) = 0.
Proof.
  induction rows as [|r rows IH]; intros x Hn Hq Hz Hd; [done|]. cbn in Hn. apply NoDup_cons in Hn as [Hk Hn]. destruct (Hq r ltac:(set_solver)) as [Q1 Q2]. cbn [fold_left].
  assert (Z1 : sat_sub (nacks r) (default (nacks r) (pn x !! key r)) = 0) by (unfold sat_sub; lia).
  assert (Z2 : sat_sub (drops r) (default (drops r) (pd x !! key r)) = 0) by (unfold sat_sub; lia).
  apply IH; [done| |unfold look, nack_per_s, grown; cbn [nack_rate]; rewrite Z1, Hz; reflexivity|unfold look, nack_per_s, grown; cbn [dropped]; rewrite Z2, Hd; reflexivity].
  intros r' Hr'. destruct (Hq r' ltac:(set_solver)) as [R1 R2]. assert (key r <> key r') by (intros E; apply Hk; rewrite E; by apply list_elem_of_In, in_map, list_elem_of_In).
  unfold look, nack_per_s, grown, quiet. cbn [pn pd]. by rewrite !lookup_insert_ne.
Qed.

(** C33: With nothing but calm reports the level of version 1 comes back: at the first tick a
    minute after it went down, and with it the target of every row. *)
Theorem auto_recovers es now rows : m = V1 -> clock 0 (es ++ [Tick now rows]) -> rows <> [] -> loss_bytes rows ->
  let s := (run es sim_default).1 in
  calm now rows s -> level s = 0 -> last_demote s + BACKOFF_MAX_MS <= now ->
  let '(s', rs, changed) := tick m now rows s in
  level s' = 1 /\ changed = Some 1 /\
  Forall2 (fun r x => Sim.auto_cap x.1 = 1 /\ Sim.target x.1 = Z.min (Sim.cap (row r)) 1) rows rs.
Proof.
  intros Hm Hk Hne Hb s Hc Hl Hd. destruct (auto_run_spec es sim_default 0 0 machine_default ltac:(lia) (clock_app _ _ _ Hk)) as (_ & c & since & M & _ & _).
  fold s in M. unfold tick. rewrite Hm. cbn [bool_decide decide decide_rel]. rewrite bool_decide_eq_false_2 by done. destruct rows as [|r rows]; [done|].
  set (l := r :: rows) in *. fold (gather now l s). set (s1 := set_prev _ _ s).
  destruct Hc as [C1 C2 C3]. destruct (look_quiet now l (mkSeen zero zero 0 (prev_nacks s) (prev_drops s)) C2 C3 eq_refl eq_refl) as [Q1 Q2].
  destruct (look_loss now l (mkSeen zero zero 0 (prev_nacks s) (prev_drops s)) 0 Hb ltac:(ulia) ltac:(reflexivity)) as [E1 E2].
  fold (gather now l s) in Q1, Q2, E1. pose proof (worst_le now l 5 0 ltac:(lia) C1) as W. destruct (q_bad _ E2) as [B1 B2].
  assert (V : exists d e, judge V1 now (len l) (gather now l s) s1 = mkVerdict false false false true d e).
  { unfold judge. rewrite Q1, Q2, E1, B1, B2. rewrite (proj2 (Z.leb_gt 21 _)), (proj2 (Z.leb_le _ 5)) by lia. eexists _, _. reflexivity. }
  destruct V as (d & e & ->). unfold move. cbn [vbad clean v2 short set_bad level bad last_demote last_promote backoff s1 set_prev]. rewrite Hl. cbn [Z.eqb andb negb].
  destruct (mc_backoff _ _ _ M) as [_ M2]. rewrite (proj2 (Z.leb_le (backoff s) _)) by (unfold sat_sub; lia). cbn [orb].
  match goal with |- context [end_probe ?n ?v ?x] => destruct (end_probe_keeps n v x) as [Ee _]; rewrite Ee end. cbn [promoted level].
  split; [done|]. split; [done|]. clear. induction l as [|x l IH]; constructor; [|done]. unfold Sim.retarget. cbn [Sim.set_auto_cap Sim.target Sim.cap Sim.auto_cap].
  destruct (Z.eqb_spec (Sim.target (row x)) (Z.min (Sim.cap (row x)) 1)); done.
Qed.
End Run.

(** ** Concrete cases *)

Definition a_row (at_ms l : Z) : Row := mkRow 1 at_ms l 0 0 Sim.create [].
Definition losses : list Ev := [Tick 101000 [a_row 100900 40]; Tick 102000 [a_row 101900 40]].
Definition no_pow (x y : f64) : f64 := x.

Lemma auto_level_paced_witness : (run no_pow V1 (losses ++ [Tick 117000 [a_row 116900 0]]) sim_default).2 = [(102000, 0); (117000, 1)] /\
  paced 1 0 (run no_pow V1 (losses ++ [Tick 117000 [a_row 116900 0]]) sim_default).2.
Proof. split; [vm_compute; reflexivity|]. apply (auto_level_paced no_pow V1). cbn. lia. Defined.

Lemma auto_losses_demote_witness : level (run no_pow V1 ([] ++ Tick 1000 [a_row 900 40] :: [] ++ [Tick 2000 [a_row 1900 21]]) sim_default).1 = 0.
Proof.
  apply (auto_losses_demote no_pow V1 [] [] 1000 2000 [a_row 900 40] [a_row 1900 21]); [done|cbn; lia|done| | | |].
  1,2: intros r ->%list_elem_of_singleton; vm_compute; split; congruence.
  1,2: eexists; split; [apply list_elem_of_singleton; reflexivity|]; split; [reflexivity|vm_compute; congruence].
Defined.

Lemma auto_recovers_witness :
  let '(s', rs, changed) := tick V1 162000 [a_row 161900 3] (run no_pow V1 losses sim_default).1 in level s' = 1.
Proof.
  pose proof (auto_recovers no_pow V1 losses 162000 [a_row 161900 3] eq_refl ltac:(cbn; lia) ltac:(done)) as H. cbv zeta in H.
  destruct (tick V1 162000 [a_row 161900 3] (run no_pow V1 losses sim_default).1) as [[s' rs] ch].
  apply H; [intros r ->%list_elem_of_singleton; vm_compute; split; congruence| |vm_compute; reflexivity|vm_compute; congruence].
  split; [intros r ->%list_elem_of_singleton _; vm_compute; congruence|cbn; apply NoDup_singleton|intros r ->%list_elem_of_singleton; vm_compute; split; congruence].
Defined.

End Auto.
