(* ===== verification/Stall.v ===== *)
(** * Noticing that a subscriber gets nothing

    crates/oxsfud/src/ops/timers.rs: every five seconds [stall] looks at each row of each
    member of each room; a row that could have carried packets for a whole window and sent none
    makes the server tell the member to start over ([sync_required]). Also [home_lost],
    which picks the peers that are given up.

    What a tick reads of the node is a snapshot ([Snap]): the rooms, the peers with their
    tables, the streams. The registers behind it are those of [Room], [SubTable], [Media] and
    [FloorExec]. *)

From S2P Require Import Prelude.

Module Stall.

Definition STALL_MS : Z := 5000.
Definition STALL_COOL_MS : Z := 30000.
Definition LAYER_PAUSE : Z := 255.

(** A row ([DownRow]); [key] is its address. *)
Record RowV := mkRow {
  key : Z; tid : string; rid : string; since : Z; acked : Z; paused : bool; slot : bool; video : bool;
  gate : option bool; sent : Z; layer : Z; target : Z }.

Record StreamV := mkStream { suser : string; svideo : bool; half : bool; sroom : string; simulcast : bool; first_rtp_ms : Z }.

(** One of the two slots of a room. *)
Record SlotV := mkSlot { speaker : option string; last_rtp_us : Z }.

Record RoomV := mkRoom { id : string; users : list string; audio_slot : SlotV; video_slot : SlotV; granted_at : option Z }.
Definition slot_of (r : RoomV) (v : bool) : SlotV := if v then video_slot r else audio_slot r.

(** [loaded] is [None] where the peer has no table. *)
Record PeerV := mkPeer { alive : bool; loaded : option (list RowV); ready_at : gmap string Z; pub_room : option string }.

(** [now] is the wall clock, [mono] the clock of the floor. *)
Record Snap := mkSnap {
  now : Z; mono : Z; rooms : list RoomV; peers : gmap string PeerV; streams : gmap string StreamV; pubs : gmap string (list StreamV) }.

Definition mono_to_wall (s : Snap) (t : Z) : Z := t + sat_sub (now s) (mono s).

Definition is_open (r : RowV) : bool := since r <=? acked r.

(** [row_gate]. *)
Definition row_gate (st : StreamV) (r : RowV) : bool := negb (is_open r) || (svideo st && negb (default false (gate r))).

(** Since when the row could have carried packets, if it can. *)
Definition eligible_from (s : Snap) (room : RoomV) (r : RowV) (user : string) (ready : Z) : option Z :=
  if negb (is_open r) || paused r then None
  else if slot r then
    let? sp := speaker (slot_of room (video r)) in
    if bool_decide (sp = user) then None
    else
      let? l := pubs s !! sp in
      if negb (existsb (fun st => Bool.eqb (svideo st) (video r) && half st && bool_decide (sroom st = id room)) l) then None
      else Some (Z.max ready (match granted_at room with Some g => mono_to_wall s g | None => 0 end))
  else
    let? st := streams s !! tid r in
    if half st then None
    else
      let? p := peers s !! suser st in
      let? pr := pub_room p in
      if negb (bool_decide (sroom st = pr)) || row_gate st r then None
      else if video r then
        if simulcast st && (layer r =? LAYER_PAUSE) && (target r =? LAYER_PAUSE) then None
        else if first_rtp_ms st =? 0 then None
        else Some (Z.max ready (first_rtp_ms st))
      else Some ready.

(** A row that is looked at: of a member of a room whose transport is alive and who has said
    that it is ready. *)
Record Visit := mkVisit { room : RoomV; user : string; ready : Z; row : RowV }.

Definition visits_of (s : Snap) (room : RoomV) (u : string) : list Visit :=
  let! p := peers s !! u else [] in
  if negb (alive p) then []
  else
    let! l := loaded p else [] in
    let! ready := ready_at p !! id room else [] in
    omap (fun r => if bool_decide (rid r = id room) then Some (mkVisit room u ready r) else None) l.

Definition visits (s : Snap) : list Visit := concat (map (fun room => concat (map (visits_of s room) (users room))) (rooms s)).

(** The windows of the rows: the count of packets sent when the window began, and when that
    was; and when each member of a room was told last. The source keeps the latter in the room
    ([stall_cool]); the rooms of the snapshots go by their names here, so a run is one in which
    no room is closed and made again under its name. *)
Record State := mkState { win : gmap Z (Z * Z); cool : gmap (string * string) Z }.
Definition initial : State := mkState ∅ ∅.

(** A member that is told: the room, the member, the time. *)
Abbreviation Notice := (string * string * Z)%type.

Definition sync_required (rm u : string) (t : Z) (c : gmap (string * string) Z) : gmap (string * string) Z * list Notice :=
  let last := default 0 (c !! (rm, u)) in
  if negb (last =? 0) && (sat_sub t last <? STALL_COOL_MS) then (c, []) else (<[(rm, u) := t]> c, [(rm, u, t)]).

(** Whether the one who holds the slot has sent anything since [ws]. *)
Definition speaker_spoke (s : Snap) (v : Visit) (ws : Z) : bool :=
  negb (slot (row v)) ||
  (let lr := last_rtp_us (slot_of (room v) (video (row v))) / 1000 in (0 <? lr) && (ws <? mono_to_wall s lr)).

Definition stall_row (s : Snap) (st : State) (v : Visit) : State * list Notice :=
  let r := row v in
  match eligible_from s (room v) r (user v) (ready v) with
  | None => (mkState (delete (key r) (win st)) (cool st), [])
  | Some start =>
    let (s0, ws) := default (sent r, now s) (win st !! key r) in
    let fresh := <[key r := (sent r, now s)]> (win st) in
    if ws <? start then (mkState fresh (cool st), [])
    else if sat_sub (now s) ws <? STALL_MS then (mkState (<[key r := (s0, ws)]> (win st)) (cool st), [])
    else
      let (c, o) := if (sent r =? s0) && speaker_spoke s v ws then sync_required (id (room v)) (user v) (now s) (cool st) else (cool st, []) in
      (mkState fresh c, o)
  end.

Fixpoint stall_rows (s : Snap) (l : list Visit) (st : State) : State * list Notice :=
  match l with
  | [] => (st, [])
  | v :: l => let (st, o) := stall_row s st v in let (st, o') := stall_rows s l st in (st, o ++ o')
  end.

Definition keys (l : list Visit) : gset Z := list_to_set (map (fun v => key (row v)) l).

Definition stall (s : Snap) (st : State) : State * list Notice :=
  let (st, o) := stall_rows s (visits s) st in
  (mkState (filter (fun kv => kv.1 ∈ keys (visits s)) (win st)) (cool st), o).

Fixpoint run (l : list Snap) (st : State) : State * list Notice :=
  match l with
  | [] => (st, [])
  | s :: l => let (st, o) := stall s st in let (st, o') := run l st in (st, o ++ o')
  end.

(** ** Peers that are given up *)

(** [home_lost]: the peers whose home, the hub that joined them, has been gone for
    [node_grace_ms]; [home] is empty where no hub joined the peer, and [home_alive] is what the
    bus knows of it: whether it lives, and since when. A node that is cut off from the bus gives
    up nobody. *)
Definition home_lost (isolated : bool) (t grace : Z) (home_alive : string -> string -> option (bool * Z)) (ps : list (string * (string * string))) : list string :=
  if isolated then []
  else omap (fun p =>
    let '(u, (node, inst)) := p in
    if bool_decide (node = "") then None
    else match home_alive node inst with
         | Some (false, at_ms) => if grace <=? sat_sub t at_ms then Some u else None
         | _ => None
         end) ps.

(** ** A member is not told too often *)

Definition told (rm u : string) (o : list Notice) : list Z := omap (fun n => if bool_decide (n.1 = (rm, u)) then Some n.2 else None) o.

Lemma told_app rm u o o' : told rm u (o ++ o') = told rm u o ++ told rm u o'.
Proof. apply omap_app. Qed.

Definition last_told (rm u : string) (st : State) : Z := default 0 (cool st !! (rm, u)).

Lemma sync_spec rm u t c : let (c', o) := sync_required rm u t c in
  (c' = c /\ o = [] /\ t < default 0 (c !! (rm, u)) + STALL_COOL_MS /\ default 0 (c !! (rm, u)) <> 0) \/
  (c' = <[(rm, u) := t]> c /\ o = [(rm, u, t)] /\ (default 0 (c !! (rm, u)) = 0 \/ default 0 (c !! (rm, u)) + STALL_COOL_MS <= t)).
Proof.
  unfold sync_required. set (last := default 0 _). destruct (Z.eqb_spec last 0); cbn [negb andb]; [right; auto|].
  destruct (Z.ltb_spec (sat_sub t last) STALL_COOL_MS); [left|right]; unfold sat_sub in *; (split; [done|]; split; [done|]); unfold STALL_COOL_MS in *; lia.
Qed.

(** What looking at rows does to the memory of one member: the notices it gets keep the
    distance, and the last one is noted. *)
Record kept (rm u : string) (st st' : State) (c c' : Z) (l : list Z) : Prop := {
  kp_last : last_told rm u st' = List.last l (last_told rm u st);
  kp_le : c <= c';
  kp_one : forall x, x ∈ l -> c <= x /\ x <= c' /\ (last_told rm u st = 0 \/ last_told rm u st + STALL_COOL_MS <= x);
  kp_sorted : StronglySorted (fun a b => a + STALL_COOL_MS <= b) l }.

Lemma kept_refl rm u st st' c c' : cool st' = cool st -> c <= c' -> kept rm u st st' c c' [].
Proof. intros H Hc. split; [unfold last_told; by rewrite H|done|set_solver|constructor]. Qed.

Lemma kept_trans rm u st st1 st2 c c1 c2 l1 l2 : 0 < c -> kept rm u st st1 c c1 l1 -> kept rm u st1 st2 c1 c2 l2 -> kept rm u st st2 c c2 (l1 ++ l2).
Proof.
  intros Hc [A1 A2 A3 A4] [B1 B2 B3 B4]. destruct l1 as [|y l1 _] using rev_ind.
  { cbn in *. rewrite A1 in *. split; [done|lia| |done]. intros x Hx. specialize (B3 x Hx). lia. }
  rewrite last_last in A1. destruct (A3 y ltac:(set_solver)) as (Y1 & Y2 & Y3). rewrite A1 in *. split; unfold STALL_COOL_MS in *.
  - rewrite B1. destruct l2 as [|z l2 _] using rev_ind; [by rewrite app_nil_r, last_last|]. by rewrite app_assoc, !last_last.
  - lia.
  - intros x [Hx|Hx]%elem_of_app; [specialize (A3 x Hx); lia|specialize (B3 x Hx); lia].
  - apply StronglySorted_app_2; [|done|done]. intros x z Hx Hz. specialize (B3 z Hz).
    apply elem_of_app in Hx as [Hx| ->%list_elem_of_singleton]; [|lia]. apply StronglySorted_app in A4 as (A4 & _ & _). specialize (A4 x y Hx ltac:(set_solver)). cbn in A4. lia.
Qed.

Lemma stall_row_kept rm u s st v : 0 < now s -> kept rm u st (stall_row s st v).1 (now s) (now s) (told rm u (stall_row s st v).2).
Proof.
  intros Hn. unfold stall_row. destruct (eligible_from _ _ _ _ _) as [start|]; [|apply kept_refl; done].
  destruct (default _ _) as [s0 ws]. destruct (ws <? start); [apply kept_refl; done|]. destruct (_ <? STALL_MS); [apply kept_refl; done|].
  destruct (_ && _); [|apply kept_refl; done]. pose proof (sync_spec (id (room v)) (user v) (now s) (cool st)) as H.
  destruct (sync_required _ _ _ _) as [c o]. cbn [fst snd]. destruct H as [(-> & -> & _)|(-> & -> & H)]; [apply kept_refl; done|].
  cbn [told omap list_omap fst snd]. destruct (bool_decide_reflect ((id (room v), user v) = (rm, u))) as [E|E].
  - injection E as <- <-. split; cbn; [unfold last_told; cbn; by rewrite lookup_insert_eq|lia| |repeat constructor].
    intros x ->%list_elem_of_singleton. done.
  - split; cbn; [unfold last_told; cbn; by rewrite lookup_insert_ne|lia|set_solver|constructor].
Qed.

Lemma stall_rows_kept rm u s l : 0 < now s -> forall st, kept rm u st (stall_rows s l st).1 (now s) (now s) (told rm u (stall_rows s l st).2).
Proof.
  intros Hn. induction l as [|v l IH]; intros st; cbn [stall_rows]; [apply kept_refl; done|]. pose proof (stall_row_kept rm u s st v Hn) as K.
  destruct (stall_row s st v) as [st1 o1]. specialize (IH st1). destruct (stall_rows s l st1) as [st2 o2]. cbn [fst snd] in *. rewrite told_app. by eapply kept_trans.
Qed.

Lemma stall_kept rm u s st c : 0 < c -> c <= now s -> kept rm u st (stall s st).1 c (now s) (told rm u (stall s st).2).
Proof.
  intros Hc Hn. unfold stall. pose proof (stall_rows_kept rm u s (visits s) ltac:(lia) st) as K. destruct (stall_rows s (visits s) st) as [st1 o]. cbn [fst snd] in *.
  destruct K as [K1 K2 K3 K4]. split; [done|lia| |done]. intros x Hx. specialize (K3 x Hx). lia.
Qed.

Fixpoint clock (c : Z) (l : list Snap) : Prop := match l with [] => True | s :: l => c <= now s /\ clock (now s) l end.

Lemma run_kept rm u l : forall st c, 0 < c -> clock c l ->
  exists c', kept rm u st (run l st).1 c c' (told rm u (run l st).2) /\ forall l', clock c (l ++ l') -> clock c' l'.
Proof.
  induction l as [|s l IH]; intros st c Hc Hk; [exists c; split; [apply kept_refl; (done || lia)|done]|]. destruct Hk as [Hk1 Hk2]. cbn [run].
  pose proof (stall_kept rm u s st c Hc Hk1) as K. destruct (stall s st) as [st1 o1]. cbn [fst snd] in K. destruct (IH st1 (now s) ltac:(lia) Hk2) as (c' & K' & Hc').
  destruct (run l st1) as [st2 o2]. cbn [fst snd] in *. exists c'. split; [rewrite told_app; by eapply kept_trans|]. intros l' [_ H]. auto.
Qed.

(** A member of a room is told to start over once in thirty seconds at most, however many of
    its rows stand still. *)
Theorem stall_spaced l rm u : clock 1 l -> StronglySorted (fun a b => a + STALL_COOL_MS <= b) (told rm u (run l initial).2).
Proof. intros Hk. destruct (run_kept rm u l initial 1 ltac:(lia) Hk) as (c' & K & _). apply K. Qed.

(** ** Who is told, and why *)

Definition elig (s : Snap) (v : Visit) : option Z := eligible_from s (room v) (row v) (user v) (ready v).

(** What looking at a row does to its window, and whether its member is to be told. *)
Definition row_step (s : Snap) (v : Visit) (w : option (Z * Z)) : option (Z * Z) * bool :=
  let r := row v in
  match elig s v with
  | None => (None, false)
  | Some start =>
    let (s0, ws) := default (sent r, now s) w in
    if ws <? start then (Some (sent r, now s), false)
    else if sat_sub (now s) ws <? STALL_MS then (Some (s0, ws), false)
    else (Some (sent r, now s), (sent r =? s0) && speaker_spoke s v ws)
  end.

Lemma stall_row_step s st v : let '(w, tell) := row_step s v (win st !! key (row v)) in
  (forall k, win (stall_row s st v).1 !! k = if decide (k = key (row v)) then w else win st !! k) /\
  (if tell then (cool (stall_row s st v).1, (stall_row s st v).2) = sync_required (id (room v)) (user v) (now s) (cool st)
   else cool (stall_row s st v).1 = cool st /\ (stall_row s st v).2 = []).
Proof.
  unfold row_step, stall_row, elig. destruct (eligible_from _ _ _ _ _) as [start|].
  2:{ split; [|done]. intros k. cbn. case_decide as E; [by rewrite E, lookup_delete_eq|by rewrite lookup_delete_ne]. }
  assert (I : forall w c k, win (mkState (<[key (row v) := w]> (win st)) c) !! k = if decide (k = key (row v)) then Some w else win st !! k).
  { intros w c k. cbn. case_decide as E; [by rewrite E, lookup_insert_eq|by rewrite lookup_insert_ne]. }
  destruct (default _ _) as [s0 ws]. destruct (ws <? start); [split; [apply I|done]|]. destruct (_ <? STALL_MS); [split; [apply I|done]|].
  destruct (_ && _); [|split; [apply I|done]]. destruct (sync_required _ _ _ _) as [c o]. split; [apply I|done].
Qed.

Definition vkey (v : Visit) : Z := key (row v).

(** Looking at rows that are all different changes each window by itself. *)
Lemma stall_rows_win s l : NoDup (map vkey l) -> forall st,
  (forall v, v ∈ l -> win (stall_rows s l st).1 !! vkey v = (row_step s v (win st !! vkey v)).1) /\
  (forall k, k ∉ map vkey l -> win (stall_rows s l st).1 !! k = win st !! k).
Proof.
  induction l as [|v l IH]; intros Hn st; cbn [stall_rows]; [split; [set_solver|done]|]. cbn in Hn. apply NoDup_cons in Hn as [Hv Hn].
  pose proof (stall_row_step s st v) as S. destruct (row_step s v (win st !! key (row v))) as [w tell] eqn:Ew. destruct S as [S _].
  destruct (stall_row s st v) as [st1 o1]. cbn [fst] in S. destruct (IH Hn st1) as [I1 I2]. destruct (stall_rows s l st1) as [st2 o2]. cbn [fst] in *. split.
  - intros v' [->|Hv']%elem_of_cons.
    + rewrite I2, S by done. unfold vkey. rewrite decide_True by done. by rewrite Ew.
    + rewrite I1, S by done. rewrite decide_False; [done|]. intros E. apply Hv. apply list_elem_of_In, in_map_iff. exists v'. split; [done|by apply list_elem_of_In].
  - intros k Hk. cbn in Hk. rewrite I2 by set_solver. rewrite S, decide_False; [done|]. intros ->. apply Hk. set_solver.
Qed.

Lemma stall_rows_tells s l : NoDup (map vkey l) -> forall st n, n ∈ (stall_rows s l st).2 ->
  exists v, v ∈ l /\ n = (id (room v), user v, now s) /\ (row_step s v (win st !! vkey v)).2 = true.
Proof.
  induction l as [|v l IH]; intros Hn st n; cbn [stall_rows]; [set_solver|]. cbn in Hn. apply NoDup_cons in Hn as [Hv Hn].
  pose proof (stall_row_step s st v) as S. destruct (row_step s v (win st !! key (row v))) as [w tell] eqn:Ew. destruct S as [S1 S2].
  destruct (stall_row s st v) as [st1 o1]. cbn [fst snd] in *. specialize (IH Hn st1 n). destruct (stall_rows s l st1) as [st2 o2]. cbn [snd] in *.
  intros [H|H]%elem_of_app.
  - exists v. destruct tell; [|destruct S2 as [_ ->]; set_solver]. pose proof (sync_spec (id (room v)) (user v) (now s) (cool st)) as Y. rewrite <- S2 in Y.
    split; [set_solver|]. unfold vkey. rewrite Ew. split; [|done]. destruct Y as [(_ & -> & _)|(_ & -> & _)]; set_solver.
  - destruct (IH H) as (v' & V1 & V2 & V3). exists v'. split; [set_solver|]. split; [done|]. rewrite S1, decide_False in V3; [done|].
    intros E. apply Hv. apply list_elem_of_In, in_map_iff. exists v'. split; [done|by apply list_elem_of_In].
Qed.

Lemma stall_rows_recent s l v : 0 < now s -> NoDup (map vkey l) -> v ∈ l -> forall st, (row_step s v (win st !! vkey v)).2 = true ->
  now s < last_told (id (room v)) (user v) (stall_rows s l st).1 + STALL_COOL_MS /\ last_told (id (room v)) (user v) (stall_rows s l st).1 <> 0.
Proof.
  intros Hp. induction l as [|v' l IH]; intros Hn Hin st Ht; [set_solver|]. cbn in Hn. apply NoDup_cons in Hn as [Hv Hn]. cbn [stall_rows].
  pose proof (stall_row_step s st v') as S. destruct (row_step s v' (win st !! key (row v'))) as [w tell] eqn:Ew. destruct S as [S1 S2].
  apply elem_of_cons in Hin as [->|Hin].
  - unfold vkey in Ht. rewrite Ew in Ht. cbn in Ht. rewrite Ht in S2. destruct (stall_row s st v') as [st1 o1]. cbn [fst snd] in *.
    pose proof (sync_spec (id (room v')) (user v') (now s) (cool st)) as Y. rewrite <- S2 in Y.
    assert (R : now s < last_told (id (room v')) (user v') st1 + STALL_COOL_MS /\ last_told (id (room v')) (user v') st1 <> 0).
    { unfold last_told, STALL_COOL_MS in *. destruct Y as [(-> & _ & Y)|(-> & _ & Y)]; [lia|]. rewrite lookup_insert_eq. cbn. lia. }
    pose proof (stall_rows_kept (id (room v')) (user v') s l Hp st1) as K. destruct (stall_rows s l st1) as [st2 o2]. cbn [fst snd] in *.
    rewrite (kp_last _ _ _ _ _ _ _ K). destruct (told _ _ o2) as [|y t _] eqn:Et using rev_ind; [done|]. rewrite last_last.
    destruct (kp_one _ _ _ _ _ _ _ K y ltac:(set_solver)) as (? & ? & _). unfold STALL_COOL_MS. lia.
  - destruct (stall_row s st v') as [st1 o1]. cbn [fst snd] in *. specialize (IH Hn Hin st1). rewrite S1 in IH.
    rewrite decide_False in IH; [|intros E; apply Hv; apply list_elem_of_In, in_map_iff; exists v; split; [done|by apply list_elem_of_In]].
    specialize (IH Ht). by destruct (stall_rows s l st1).
Qed.

(** Rows are told apart by their addresses. *)
Definition distinct (s : Snap) : Prop := NoDup (map vkey (visits s)).

Lemma stall_win s st : distinct s ->
  (forall v, v ∈ visits s -> win (stall s st).1 !! vkey v = (row_step s v (win st !! vkey v)).1) /\
  (forall k, is_Some (win (stall s st).1 !! k) -> exists v, v ∈ visits s /\ vkey v = k).
Proof.
  intros Hn. unfold stall. destruct (stall_rows_win s (visits s) Hn st) as [W _]. destruct (stall_rows s (visits s) st) as [st1 o]. cbn [fst win] in *. split.
  - intros v Hv. rewrite <- (W v Hv). destruct (win st1 !! vkey v) as [x|] eqn:E.
    + apply map_lookup_filter_Some. split; [done|]. cbn. unfold keys. apply elem_of_list_to_set, list_elem_of_In, in_map_iff. exists v. split; [done|by apply list_elem_of_In].
    + apply map_lookup_filter_None. by left.
  - intros k [x [_ H]%map_lookup_filter_Some]. cbn in H. unfold keys in H. apply elem_of_list_to_set, list_elem_of_In, in_map_iff in H as (v & <- & H). exists v. split; [by apply list_elem_of_In|done].
Qed.

(** The row could carry packets at this tick, since [ws] at least. *)
Definition carrying (k ws : Z) (s : Snap) : Prop := exists v start, v ∈ visits s /\ vkey v = k /\ elig s v = Some start /\ start <= ws.

(** The window of a row began at an earlier tick, and the row could carry packets at every
    tick since. *)
Definition window (l : list Snap) (k x ws : Z) : Prop := exists l1 s0 l2, l = l1 ++ s0 :: l2 /\ now s0 = ws /\
  (exists v0 start, v0 ∈ visits s0 /\ vkey v0 = k /\ sent (row v0) = x /\ elig s0 v0 = Some start) /\ Forall (carrying k ws) l2.

Lemma stall_run_snoc l s st : run (l ++ [s]) st = let (st1, o1) := run l st in let (st2, o2) := stall s st1 in (st2, o1 ++ o2).
Proof.
  revert st. induction l as [|s' l IH]; intros st; cbn [app run]; [destruct (stall s st) as [st1 o]; by rewrite app_nil_r|].
  destruct (stall s' st) as [st1 o1]. rewrite IH. destruct (run l st1) as [st2 o2]. destruct (stall s st2) as [st3 o3]. by rewrite app_assoc.
Qed.

Lemma run_windows l k x ws : Forall distinct l -> win (run l initial).1 !! k = Some (x, ws) -> window l k x ws.
Proof.
  revert k x ws. induction l as [|s l IH] using rev_ind; intros k x ws Hd; [done|]. apply Forall_app in Hd as [Hd Hs]. rewrite Forall_singleton in Hs.
  specialize (fun k x ws => IH k x ws Hd). rewrite stall_run_snoc. destruct (run l initial) as [st o]. destruct (stall_win s st Hs) as [W1 W2]. destruct (stall s st) as [st' o']. cbn [fst] in *.
  intros H. destruct (W2 k ltac:(eauto)) as (v & Hv & <-). rewrite (W1 v Hv) in H. unfold row_step in H. destruct (elig s v) as [start|] eqn:Ee; [|done].
  assert (Fresh : window (l ++ [s]) (vkey v) (sent (row v)) (now s)).
  { exists l, s, []. split; [done|]. split; [done|]. split; [|done]. exists v, start. done. }
  destruct (win st !! vkey v) as [[x0 ws0]|] eqn:Ew; cbn [from_option Datatypes.id] in H.
  - destruct (Z.ltb_spec ws0 start); cbn [fst] in H; [by injection H as <- <-|]. destruct (_ <? STALL_MS); cbn [fst] in H; [|by injection H as <- <-]. injection H as <- <-.
    destruct (IH _ _ _ Ew) as (l1 & s0 & l2 & -> & B1 & B2 & B3). exists l1, s0, (l2 ++ [s]). split; [by rewrite <- app_assoc|]. split; [done|]. split; [done|].
    apply Forall_app. split; [done|]. apply Forall_singleton. by exists v, start.
  - destruct (now s <? start); cbn [fst] in H; [by injection H as <- <-|]. destruct (_ <? STALL_MS); cbn [fst] in H; by injection H as <- <-.
Qed.

(** C22: Nobody is told without a cause: when a member is told to start over, one of its rows has
    sent nothing for five seconds or more, at every look in between it was loaded, ready, open
    and not paused, of a stream that was published into the room, and where the row is a slot
    the speaker has sent packets in that time. *)
Theorem stall_justified l s rm u t : Forall distinct (l ++ [s]) -> (rm, u, t) ∈ (stall s (run l initial).1).2 ->
  t = now s /\ exists v start ws, v ∈ visits s /\ id (room v) = rm /\ user v = u /\
    window l (vkey v) (sent (row v)) ws /\ elig s v = Some start /\ start <= ws /\ ws + STALL_MS <= now s /\ speaker_spoke s v ws = true.
Proof.
  intros Hd H. apply Forall_app in Hd as [Hd Hs]. rewrite Forall_singleton in Hs. pose proof (fun k x ws => run_windows l k x ws Hd) as W.
  destruct (run l initial) as [st o]. cbn [fst] in *. unfold stall in H. pose proof (stall_rows_tells s (visits s) Hs st (rm, u, t)) as T.
  destruct (stall_rows s (visits s) st) as [st1 o1]. cbn [snd] in *. destruct (T H) as (v & V1 & [= -> -> ->] & V3). split; [done|]. unfold row_step in V3.
  destruct (elig s v) as [start|] eqn:Ee; [|done]. destruct (win st !! vkey v) as [[x ws]|] eqn:Ew; cbn [from_option Datatypes.id] in V3.
  - destruct (Z.ltb_spec ws start); [done|]. destruct (Z.ltb_spec (sat_sub (now s) ws) STALL_MS); [done|]. cbn [snd] in V3. apply andb_true_iff in V3 as [V3 V4].
    apply Z.eqb_eq in V3. subst x. exists v, start, ws. specialize (W _ _ _ Ew). unfold sat_sub, STALL_MS in *. repeat split; (done || lia).
  - destruct (now s <? start); [done|]. rewrite (proj2 (Z.ltb_lt _ STALL_MS)) in V3; [done|]. unfold sat_sub, STALL_MS. lia.
Qed.

(** A row stands still: it could carry packets since [t0], and its count is [x]. *)
Definition standing (rm u : string) (k x t0 : Z) (s : Snap) : Prop := exists v start, v ∈ visits s /\ id (room v) = rm /\ user v = u /\ vkey v = k /\
  sent (row v) = x /\ elig s v = Some start /\ start <= t0 /\ speaker_spoke s v t0 = true.

Lemma spoke_earlier s v a b : a <= b -> speaker_spoke s v b = true -> speaker_spoke s v a = true.
Proof.
  intros H. unfold speaker_spoke. destruct (slot (row v)); [|done]. cbn [negb orb]. rewrite !andb_true_iff, !Z.ltb_lt. lia.
Qed.

(** Looking at a standing row at [t1], when the window began at [ws]: its member is told, or
    the window begins anew with the count of now. *)
Lemma standing_step s v w x0 ws t0 start : elig s v = Some start -> start <= ws -> ws <= t0 -> w = Some (x0, ws) -> ws + STALL_MS <= now s ->
  speaker_spoke s v t0 = true -> row_step s v w = (Some (sent (row v), now s), sent (row v) =? x0).
Proof.
  intros He H1 H2 -> H3 Hs. unfold row_step. rewrite He. cbn [from_option Datatypes.id]. rewrite (proj2 (Z.ltb_ge ws start)) by done.
  rewrite (proj2 (Z.ltb_ge (sat_sub (now s) ws) STALL_MS)) by (unfold sat_sub; lia). by rewrite (spoke_earlier s v ws t0), andb_true_r.
Qed.

Lemma run_last_told l rm u : clock 1 l -> last_told rm u (run l initial).1 <> 0 -> last_told rm u (run l initial).1 ∈ told rm u (run l initial).2.
Proof.
  intros Hk. destruct (run_kept rm u l initial 1 ltac:(lia) Hk) as (c' & K & _). rewrite (kp_last _ _ _ _ _ _ _ K). change (last_told rm u initial) with 0.
  destruct (told rm u _) as [|y t _] using rev_ind; [done|]. rewrite last_last. set_solver.
Qed.

Lemma stall_recent s st v c : 0 < c -> c <= now s -> distinct s -> v ∈ visits s -> (row_step s v (win st !! vkey v)).2 = true ->
  now s < last_told (id (room v)) (user v) (stall s st).1 + STALL_COOL_MS /\ last_told (id (room v)) (user v) (stall s st).1 <> 0.
Proof.
  intros Hc Hn Hd Hv Ht. pose proof (stall_rows_recent s (visits s) v ltac:(lia) Hd Hv st Ht) as R. unfold stall. by destruct (stall_rows s (visits s) st).
Qed.

(** The last reading of the clock. *)
Lemma clock_snoc l s : clock 1 (l ++ [s]) -> clock 1 l /\ 1 <= now s /\ forall s', s' ∈ l -> now s' <= now s.
Proof.
  generalize 1 at 1 2 3. induction l as [|s' l IH]; intros c; cbn [app clock]; [intros [? _]; split; [done|]; split; [lia|set_solver]|].
  intros [H1 H2]. destruct (IH _ H2) as (I1 & I2 & I3). split; [done|]. split; [lia|]. intros x [->|H]%elem_of_cons; [lia|auto].
Qed.

(** After a tick that looks at a row which can carry packets, its window is open. *)
Lemma run_until_window l s v start : Forall distinct (l ++ [s]) -> clock 1 (l ++ [s]) -> v ∈ visits s -> elig s v = Some start ->
  exists x ws, win (run (l ++ [s]) initial).1 !! vkey v = Some (x, ws) /\ ws <= now s.
Proof.
  intros Hd Hk Hv He. assert (exists x ws, win (run (l ++ [s]) initial).1 !! vkey v = Some (x, ws)) as (x & ws & H).
  { apply Forall_app in Hd as [_ Hs]. rewrite Forall_singleton in Hs. rewrite stall_run_snoc. destruct (run l initial) as [st o]. destruct (stall_win s st Hs) as [W _].
    destruct (stall s st) as [st' o']. cbn [fst] in *. rewrite (W v Hv). unfold row_step. rewrite He. destruct (default _ _) as [x ws].
    destruct (ws <? start); [eauto|]. destruct (_ <? STALL_MS); eauto. }
  exists x, ws. split; [done|]. destruct (run_windows _ _ _ _ Hd H) as (l1 & s' & l2 & E & <- & _). assert (Hin : s' ∈ l ++ [s]) by (rewrite E; set_solver).
  apply elem_of_app in Hin as [Hin| ->%list_elem_of_singleton]; [|lia]. destruct (clock_snoc l s Hk) as (_ & _ & C). auto.
Qed.

(** C23: A row that stands still is found out: when at three looks, five seconds and more apart, a
    row could carry packets and its count is the same, and the speaker did speak where it is a
    slot, then its member has been told by the last of them, within the thirty seconds before
    the second or after. *)
Theorem stall_found l s0 s1 s2 rm u k x : Forall distinct (l ++ [s0; s1; s2]) -> clock 1 (l ++ [s0; s1; s2]) ->
  now s0 + STALL_MS <= now s1 -> now s1 + STALL_MS <= now s2 ->
  (exists v start, v ∈ visits s0 /\ vkey v = k /\ sent (row v) = x /\ elig s0 v = Some start) ->
  standing rm u k x (now s0) s1 -> standing rm u k x (now s1) s2 ->
  exists t, t ∈ told rm u (run (l ++ [s0; s1; s2]) initial).2 /\ now s1 - STALL_COOL_MS < t.
Proof.
  intros Hd Hk H01 H12 (v0 & a0 & V0 & V0k & V0x & V0e) (v1 & a1 & V1 & <- & <- & V1k & V1x & V1e & V1s & V1p) (v2 & a2 & V2 & V2r & V2u & V2k & V2x & V2e & V2s & V2p).
  replace (l ++ [s0; s1; s2]) with (((l ++ [s0]) ++ [s1]) ++ [s2]) in * by (by rewrite <- !app_assoc).
  pose proof (run_last_told _ (id (room v1)) (user v1) Hk) as L. set (o := told _ _ _) in *. clearbody o. rewrite stall_run_snoc in L.
  apply Forall_app in Hd as [Hd Hd2]. rewrite Forall_singleton in Hd2. apply clock_snoc in Hk as [Hk Hk2].
  pose proof Hd as Hd'. apply Forall_app in Hd' as [Hd' Hd1]. rewrite Forall_singleton in Hd1. pose proof Hk as Hk'. apply clock_snoc in Hk' as [Hk' Hk1].
  rewrite stall_run_snoc in L. destruct (run_until_window l s0 v0 a0 Hd' Hk' V0 V0e) as (x0 & ws & W0 & W1). rewrite V0k in W0.
  destruct (run (l ++ [s0]) initial) as [st0 o0]. cbn [fst] in *. destruct (stall_win s1 st0 Hd1) as [Y1 _]. specialize (Y1 v1 V1). rewrite V1k in Y1.
  destruct Hk1 as [Hp1 _]. destruct Hk2 as [Hp2 Hmono]. specialize (Hmono s1 ltac:(set_solver)).
  destruct (stall s1 st0) as [st1 o1]. cbn [fst] in *. destruct (stall_win s2 st1 Hd2) as [Y2 _]. specialize (Y2 v2 V2). rewrite V2k in Y2.
  pose proof (stall_recent s2 st1 v2 1 ltac:(lia) Hp2 Hd2 V2) as R2. rewrite V2k, V2r, V2u in R2.
  destruct (stall s2 st1) as [st2 o2]. cbn [fst snd] in *.
  assert (Fresh1 : (row_step s1 v1 (win st0 !! k)).1 = Some (x, now s1) -> exists t, t ∈ o /\ now s1 - STALL_COOL_MS < t).
  { intros F. rewrite F in Y1. pose proof (standing_step s2 v2 (win st1 !! k) x (now s1) (now s1) a2 V2e V2s ltac:(lia) Y1 H12 V2p) as S.
    rewrite S, V2x, Z.eqb_refl in R2. destruct (R2 eq_refl) as [Q1 Q2]. eexists. split; [apply L, Q2|lia]. }
  destruct (Z.lt_ge_cases ws a1) as [Hw|Hw].
  - apply Fresh1. unfold row_step. rewrite V1e, W0. cbn [from_option Datatypes.id]. by rewrite (proj2 (Z.ltb_lt ws a1) Hw), V1x.
  - pose proof (standing_step s1 v1 (win st0 !! k) x0 ws (now s0) a1 V1e Hw W1 W0 ltac:(lia) V1p) as S. rewrite S, V1x in Fresh1. by apply Fresh1.
Qed.

(** ** Concrete cases *)

Definition a_row (x : Z) : RowV := mkRow 1 "t" "r" 0 0 false false false None x 0 0.
Definition a_snap (t x : Z) : Snap :=
  mkSnap t t [mkRoom "r" ["u"] (mkSlot None 0) (mkSlot None 0) None]
    {["u" := mkPeer true (Some [a_row x]) {["r" := 100]} None; "p" := mkPeer true None ∅ (Some "r")]}
    {["t" := mkStream "p" false false "r" false 0]} ∅.
Definition a_visit (x : Z) : Visit := mkVisit (mkRoom "r" ["u"] (mkSlot None 0) (mkSlot None 0) None) "u" 100 (a_row x).

Lemma a_snap_visits t x : visits (a_snap t x) = [a_visit x].
Proof. reflexivity. Qed.
Lemma a_snap_distinct t x : distinct (a_snap t x).
Proof. unfold distinct. rewrite a_snap_visits. apply NoDup_singleton. Qed.
Lemma a_snap_standing t x t0 : 100 <= t0 -> standing "r" "u" 1 x t0 (a_snap t x).
Proof. intros H. exists (a_visit x), 100. rewrite a_snap_visits. split; [set_solver|]. done. Qed.

Lemma stall_spaced_witness : told "r" "u" (run [a_snap 1000 7; a_snap 6000 7; a_snap 11000 7; a_snap 36000 7] initial).2 = [6000; 36000] /\
  StronglySorted (fun a b => a + STALL_COOL_MS <= b) (told "r" "u" (run [a_snap 1000 7; a_snap 6000 7; a_snap 11000 7; a_snap 36000 7] initial).2).
Proof. split; [vm_compute; reflexivity|]. apply stall_spaced. cbn. lia. Defined.

Lemma stall_justified_witness : exists ws, ws + STALL_MS <= 6000 /\ window [a_snap 1000 7] 1 7 ws.
Proof.
  destruct (stall_justified [a_snap 1000 7] (a_snap 6000 7) "r" "u" 6000) as (_ & v & start & ws & V & _ & _ & W & _ & _ & H & _).
  - repeat (apply Forall_cons; split; [apply a_snap_distinct|]). apply Forall_nil_2.
  - vm_compute. left.
  - rewrite a_snap_visits in V. apply list_elem_of_singleton in V as ->. exists ws. split; [exact H|exact W].
Defined.

Lemma stall_found_witness : exists t, t ∈ told "r" "u" (run ([] ++ [a_snap 1000 7; a_snap 6000 7; a_snap 11000 7]) initial).2 /\ 6000 - STALL_COOL_MS < t.
Proof.
  apply (stall_found [] (a_snap 1000 7) (a_snap 6000 7) (a_snap 11000 7) "r" "u" 1 7).
  - repeat (apply Forall_cons; split; [apply a_snap_distinct|]). apply Forall_nil_2.
  - cbn. lia.
  - vm_compute. congruence.
  - vm_compute. congruence.
  - exists (a_visit 7), 100. rewrite a_snap_visits. split; [set_solver|done].
  - apply a_snap_standing. cbn. lia.
  - apply a_snap_standing. cbn. lia.
Defined.

End Stall.
