(* ===== verification/HubHttp.v ===== *)
(** * The HTTP surface of the hub

    crates/oxhubd/src/ops/http.rs (the routes, who may do what, status numbers, cross-origin
    rules), the operations of ops/admin.rs that change something, and the creation of a room
    (room/mod.rs). [route] is the table of [router], with axum's matching of a path piece by
    piece; [handle] runs the handler, [serve] both. A handler returns the response and what it
    does: an [Act] is something handed out or changed, at this hub or at another node. What
    axum takes out of a request (the pieces of a path unescaped, the query, the body, the
    upgrade to a WebSocket), the answers of other nodes, the parsing of JSON and fresh
    identifiers are arguments. Requests to the units go through [Sup.request] of HubSup. *)

From S2P Require Import Prelude Keyexpr Keyspace Room HubToken HubSup.

Module Http.

(** ** Codes and statuses *)

Definition status_of (code : Z) : Z :=
  let within a b := (a <=? code) && (code <=? b) in
  if code =? 2005 then 400
  else if within 1000 1999 then 400
  else if within 2001 2004 || (code =? 2008) then 401
  else if code =? 2006 then 403
  else if within 2000 2999 then 401
  else if code =? 3001 then 404
  else if code =? 3009 then 409
  else if within 3000 3999 then 409
  else if within 4000 4999 then 429
  else if code =? 5001 then 503
  else if code =? 5002 then 502
  else 500.

Definition InvalidPayload : Z := 1002.
Definition MissingField : Z := 1003.
Definition TokenInvalid : Z := 2002.
Definition SessionNotFound : Z := 2008.
Definition RoomNotFound : Z := 3001.
Definition NotInRoom : Z := 3002.
Definition PreconditionFailed : Z := 3009.
Definition PeerNotFound : Z := 3010.
Definition QuotaExceeded : Z := 4003.
Definition SfuUnavailable : Z := 5001.

Definition token_code (c : Token.Code) : Z :=
  match c with
  | Token.TokenInvalid => TokenInvalid
  | Token.TokenExpired => 2003
  | Token.InvalidApiKey => 2004
  | Token.InvalidPayload _ => InvalidPayload
  | Token.ClaimNotAllowed _ => 2005
  | Token.NotAuthorized => 2006
  end.

(** ** Requests and responses *)

(** A header: absent, or there with a value that is text or is not. *)
Abbreviation Header := (option (option string)).
Definition to_str (h : Header) : option string := match h with Some v => v | None => None end.

Inductive Method := GET | HEAD | POST | OPTIONS | OtherMethod.
#[global] Instance Method_eq_dec : EqDecision Method.
Proof. solve_decision. Defined.

Record Headers := mkHeaders { authorization : Header; origin : Header; host : Header; x_session : Header }.

(** A request, as axum takes it apart: the query and the body, or the status it refuses them
    with; [loopback] says that the peer is on this host. *)
Record Request := mkRequest {
  method : Method; path : list string; query : result (gmap string string) Z; headers : Headers; body : result (list byte) Z; loopback : bool }.

(** The fields of a JSON object, as far as the handlers take them apart, and a body: an object
    or something else. *)
Inductive Json := JNull | JStr (s : string) | JNum (n : Z) | JOther.
Inductive Body := JObj (o : gmap string Json) | NotObj.

(** [failed] is the code of the failure in the body; [allow] the origin of the CORS headers. *)
Record Response := mkRes { status : Z; failed : option Z; allow : option string }.

Definition ok : Response := mkRes 200 None None.
Definition plain (st : Z) : Response := mkRes st None None.
Definition fail (code : Z) : Response := mkRes (status_of code) (Some code) None.
Definition fail_status (st code : Z) : Response := mkRes st (Some code) None.

(** What is handed out, or done to the hub or to a node. [Issue]: a token is given away;
    [Upgrade]: a connection of a client begins; [UnitCmd]: a command for the task of a unit;
    [BusDown]: the end of the hub on behalf of its in-process bus ([fatal] of the supervisor,
    which main.rs waits for beside [shutdown]). *)
Inductive Act {T : Type} :=
  | Upgrade
  | Issue (t : T)
  | CreateRoom (node room : string)
  | CutUser (user : string)
  | ReapUser (node room user : string)
  | DestroyRoom (node room if_version : string)
  | UnitCmd (id which : string)
  | BusDown (which : string)
  | Shutdown
  | SetLevel (level : string) (until : option Z).
Arguments Act : clear implicits.

(** The answer of another node to a call. *)
Abbreviation Answer := (option Z).

(** The hub: the pieces of its base path (slashes at the end taken off), its accounts, name,
    sessions, supervisor, the map from rooms to nodes and the policy. *)
Record Hub := mkHub {
  base : list string; accounts : Token.Accounts; node : string; sessions : gmap string string; sup : Sup.Sup;
  routing : gmap string string; allowed_origins : list string; room_unused_ttl_secs : Z; room_departure_ttl_secs : Z; max_rooms : Z;
  token_ttl_secs : Z; metadata_max_bytes : Z }.

Definition bearer (h : Headers) : option string := v ← to_str (authorization h); Keys.strip_prefix "Bearer " v.

Section Hub.
(** Web tokens, made and checked by another crate: what it takes the text of a header for. *)
Context {J TU TO : Type} {JU : Token.Jwt (Token.UserClaims (J := J)) TU} {JO : Token.Jwt Token.OpsClaims TO}.
Context (user_token : string -> TU) (ops_token : string -> TO) (peek : TO -> option Token.OpsClaims).
Abbreviation Act := (Act TU).
(** The parser of JSON, for any value and for a request of a token (with whether a field is
    missing), and the length of a value; the session of another hub, the place of a new room
    and whether it lives, and the answers of the nodes. *)
Context (parse : list byte -> option Body) (parse_req : list byte -> result (Token.TokenReq (J := J)) bool) (json_len : J -> Z).
Context (find_sess : string -> option string) (place : string -> option (string * bool)) (answer : Act -> Answer).
(** Of axum: a piece of a path unescaped, and the check of an upgrade; each with the status it
    refuses with. The answers of the endpoints that only read, and a fresh name. *)
Context (unescape : string -> result string Z) (upgrade : Request -> option Z).
Context (read : Request -> Response) (listed : Answer) (got : string -> option string -> Answer) (uuid : string).

(** Operators come from this host without a token, or with one. *)
Definition admin_auth (hub : Hub) (now : Z) (loopback : bool) (h : Headers) : option Z :=
  if loopback && bool_decide (authorization h = None) then None
  else
    let! tok := bearer h else Some TokenInvalid in
    match Token.verify_ops peek (accounts hub) (ops_token tok) now with inl c => Some (token_code c) | inr _ => None end.

Inductive Who := Bearer | Session (user : string).

Definition who (hub : Hub) (now : Z) (h : Headers) : result Who Z :=
  let by_token :=
    match bearer h with
    | None => Err TokenInvalid
    | Some tok => match Token.verify_user (J := J) (accounts hub) (user_token tok) now with inl c => Err (token_code c) | inr _ => Ok Bearer end
    end in
  match to_str (x_session h) with
  | Some sid =>
    match sessions hub !! sid with
    | Some u => Ok (Session u)
    | None =>
      match find_sess sid with
      | Some u => Ok (Session u)
      | None => if bool_decide (bearer h = None) then Err SessionNotFound else by_token
      end
    end
  | None => by_token
  end.

(** *** Cross-origin rules *)

Definition same (a b : string) : bool := String.eqb a b.

(** [origin.split("://").nth(1)]: the piece after the first separator, up to the next. *)
Fixpoint before_sep (s : string) : string :=
  match s with
  | EmptyString => ""
  | String c s' => if bool_decide (Keys.strip_prefix "://" s = None) then String c (before_sep s') else ""
  end.
Fixpoint after_sep (s : string) : option string :=
  match Keys.strip_prefix "://" s with
  | Some r => Some (before_sep r)
  | None => match s with EmptyString => None | String _ s => after_sep s end
  end.

Definition origin_ok (hub : Hub) (h : Headers) : bool :=
  let! o := to_str (origin h) else true in
  if existsb (fun x => same x "*" || same x o) (allowed_origins hub) then true
  else match after_sep o with Some x => same x (default "" (to_str (host h))) | None => false end.

Definition cors (hub : Hub) (h : Headers) (r : Response) : Response :=
  match allowed_origins hub with
  | [] => r
  | l =>
    let o := default "*" (to_str (origin h)) in
    if existsb (same "*") l then mkRes (status r) (failed r) (Some "*")
    else if existsb (same o) l then mkRes (status r) (failed r) (Some o)
    else r
  end.

(** ** Rooms *)

Definition MAX_CAPACITY : Z := 1000.
Definition PERMANENT_TTL : Z := 2 ^ 32 - 1.

Definition valid_room_id (r : string) : bool := negb (bool_decide (r = "")) && (Z.of_nat (String.length r) <=? 255) && Keys.valid_piece r.

(** [field::<u32>]. *)
Definition field_u32 (o : gmap string Json) (k : string) : result (option Z) Z :=
  match o !! k with
  | None | Some JNull => Ok None
  | Some (JNum n) => if (0 <=? n) && (n <? 2 ^ 32) then Ok (Some n) else Err InvalidPayload
  | Some _ => Err InvalidPayload
  end.

Definition permanent (v : Z) : Z := if v =? 0 then PERMANENT_TTL else v.

Definition set_ttl (k : string) (v : Z) (o : gmap string Json) : gmap string Json :=
  match o !! k with None | Some JNull => <[k := JNum (permanent v)]> o | _ => o end.

(** [room::create] up to the call: the node, and the body that is sent to it; [uuid] is the
    fresh name for a room without one. *)
Definition create (hub : Hub) (body : Body) : result (string * string * gmap string Json) Z :=
  match body with
  | JObj o =>
    let name := match o !! "name" with Some (JStr n) => if bool_decide (n = "") then Some MissingField else None | None | Some JNull => Some MissingField | _ => Some InvalidPayload end in
    match name with
    | Some c => Err c
    | None =>
      let room := match o !! "room_id" with Some (JStr r) => Some (if bool_decide (r = "") then uuid else r) | None | Some JNull => Some uuid | _ => None end in
      match room with
      | None => Err InvalidPayload
      | Some room =>
        match field_u32 o "capacity" with
        | Err c => Err c
        | Ok cap =>
          if match cap with Some c => MAX_CAPACITY <? c | None => false end then Err InvalidPayload
          else if negb (valid_room_id room) then Err InvalidPayload
          else
            let o := <["room_id" := JStr room]> o in
            let o := set_ttl "departure_ttl_secs" (room_departure_ttl_secs hub) (set_ttl "unused_ttl_secs" (room_unused_ttl_secs hub) o) in
            if (0 <? max_rooms hub) && (max_rooms hub <=? Z.of_nat (size (routing hub))) && bool_decide (routing hub !! room = None) then Err QuotaExceeded
            else
              match routing hub !! room with
              | Some n => Ok (n, room, o)
              | None =>
                match place room with
                | None => Err SfuUnavailable
                | Some (n, live) => if live then Ok (n, room, o) else Err SfuUnavailable
                end
              end
        end
      end
    end
  | _ => Err InvalidPayload
  end.

(** What comes of an act: the response of the caller on success, or the failure. *)
Definition perform (a : Act) (good : Response) (bad : Z -> Response) : Response * list Act :=
  (match answer a with None => good | Some c => bad c end, [a]).

Definition rooms (hub : Hub) (now : Z) (m : Method) (h : Headers) (body : list byte) : Response * list Act :=
  if bool_decide (m = OPTIONS) then (cors hub h (plain 204), [])
  else
    let (r, acts) :=
      match who hub now h with
      | Err c => (fail c, [])
      | Ok _ =>
        match m with
        | GET => (match listed with None => ok | Some c => fail c end, [])
        | POST =>
          match parse body with
          | None => (fail InvalidPayload, [])
          | Some v => match create hub v with Err c => (fail c, []) | Ok (n, room, _) => perform (CreateRoom n room) (plain 201) fail end
          end
        | _ => (plain 405, [])
        end
      end in
    (cors hub h r, acts).

(** [got] is the answer of the node of the room, for the user whose own entry is shown. *)
Definition room (hub : Hub) (now : Z) (m : Method) (h : Headers) (rm : string) : Response :=
  match m with
  | OPTIONS => cors hub h (plain 204)
  | GET =>
    let r :=
      match who hub now h with
      | Err c => fail c
      | Ok w =>
        let user := match w with Session u => Some u | Bearer => None end in
        if negb (valid_room_id rm) then fail InvalidPayload
        else if bool_decide (routing hub !! rm = None) then fail RoomNotFound
        else match got rm user with None => ok | Some c => fail c end
      end in
    cors hub h r
  | _ => cors hub h (plain 405)
  end.

(** ** Health, connections and tokens *)

Definition live : Response := ok.
Definition ready (hub : Hub) : Response := plain (match Sup.down_units (sup hub) with [] => 200 | _ => 503 end).

Definition ws (hub : Hub) (h : Headers) : Response * list Act :=
  if origin_ok hub h then (plain 101, [Upgrade]) else (plain 403, []).

Definition token (hub : Hub) (now : Z) (body : list byte) : Response * list Act :=
  match parse_req body with
  | Err missing => (fail (if missing : bool then MissingField else InvalidPayload), [])
  | Ok req =>
    match Token.issue json_len (accounts hub) req (token_ttl_secs hub) (metadata_max_bytes hub) now with
    | inl c => (fail (token_code c), [])
    | inr t => (ok, [Issue t])
    end
  end.

(** ** Operators *)

Definition is_sfu (r : Sup.Role) : bool := match r with Sup.RSfu => true | _ => false end.
Definition is_fatal (o : Sup.Out) : bool := match o with Sup.Fatal => true | _ => false end.

(** What came of [request]: an answer at once, of an in-process unit or of one whose loop is
    gone, or a command in the queue of the task, whose answer is waited for. *)
Definition asked (id which : string) (outs : list Sup.Out) : Response * list Act :=
  match omap (fun o => match o with Sup.Ack _ a => Some a | _ => None end) outs with
  | inl _ :: _ => (ok, if existsb is_fatal outs then [BusDown which] else [])
  | inr _ :: _ => (fail PreconditionFailed, [])
  | [] => perform (UnitCmd id which) ok (fun _ => fail PreconditionFailed)
  end.

Definition sup_ctl (hub : Hub) (id which : string) (if_epoch : option string) : Response * list Act :=
  let! (_, t) := Sup.unit_ix id (sup hub) else (fail PeerNotFound, []) in
  let epoch := Sup.epoch (Sup.rec t) in
  let go := asked id which (Sup.request 0 id which (sup hub)).2 in
  if same which "kill" && is_sfu (Sup.urole t) then
    let! want := if_epoch else (fail MissingField, []) in
    if same want (default "" epoch) then go else (fail PreconditionFailed, [])
  else go.

Definition shutdown (hub : Hub) (confirm : option string) : Response * list Act :=
  let! c := confirm else (fail MissingField, []) in
  if same c (node hub) then (ok, [Shutdown]) else (fail PreconditionFailed, []).

(** [cut] at this hub and at the others; [found] says whether a session was cut. *)
Definition cut (user : string) : Response * list Act := perform (CutUser user) ok (fun _ => fail_status 404 SessionNotFound).

Definition reap (hub : Hub) (rm user : string) : Response * list Act :=
  let not_found c := if (c =? NotInRoom) || (c =? RoomNotFound) then fail_status 404 c else fail c in
  match routing hub !! rm with
  | None => (not_found RoomNotFound, [])
  | Some n => perform (ReapUser n rm user) ok not_found
  end.

Definition destroy (hub : Hub) (rm : string) (if_version : option string) : Response * list Act :=
  let! iv := if_version else (fail MissingField, []) in
  let! n := routing hub !! rm else (fail RoomNotFound, []) in
  perform (DestroyRoom n rm iv) ok fail.

Definition is_level (s : string) : bool := existsb (same s) ["error"; "warn"; "info"; "debug"; "trace"].

Definition log_level (now_ms : Z) (body : Body) : Response * list Act :=
  match body with
  | JObj o =>
    match o !! "level" with
    | Some (JStr l) =>
      if is_level l then
        let ttl := match o !! "ttl_secs" with Some (JNum t) => if (0 <=? t) && (t <? 2 ^ 64) then Some t else None | _ => None end in
        (ok, [SetLevel l ((fun t => u64 (now_ms + u64 (t * 1000))) <$> ttl)])
      else (fail InvalidPayload, [])
    | _ => (fail InvalidPayload, [])
    end
  | _ => (fail InvalidPayload, [])
  end.

(** The endpoints under /admin; those that only read are one here, with the answer they got. *)
Inductive Admin :=
  | ARead (r : Response)
  | ACut (user : string)
  | AReap (rm user : string)
  | ADestroy (rm : string) (if_version : option string)
  | ASup (id which : string) (if_epoch : option string)
  | AShutdown (confirm : option string)
  | ALogLevel (body : list byte).

Definition admin (hub : Hub) (now now_ms : Z) (loopback : bool) (h : Headers) (e : Admin) : Response * list Act :=
  match admin_auth hub now loopback h with
  | Some c => (fail_status 401 c, [])
  | None =>
    match e with
    | ARead r => (r, [])
    | ACut u => cut u
    | AReap rm u => reap hub rm u
    | ADestroy rm iv => destroy hub rm iv
    | ASup id which ep => sup_ctl hub id which ep
    | AShutdown c => shutdown hub c
    | ALogLevel b => log_level now_ms (default NotObj (parse b))
    end
  end.

(** A handler with what its extractors give it. *)
Inductive Endpoint := Live | Ready | Ws | TokenOf (b : list byte) | Rooms (m : Method) (b : list byte) | RoomOf (m : Method) (rm : string) | AdminOf (e : Admin).

Definition handle (hub : Hub) (now now_ms : Z) (lb : bool) (h : Headers) (e : Endpoint) : Response * list Act :=
  match e with
  | Live => (live, [])
  | Ready => (ready hub, [])
  | Ws => ws hub h
  | TokenOf b => token hub now b
  | Rooms m b => rooms hub now m h b
  | RoomOf m rm => (room hub now m h rm, [])
  | AdminOf a => admin hub now now_ms lb h a
  end.

(** ** Routes *)

(** A piece of a route: text, or a parameter, which any piece but the empty one fits. *)
Inductive Seg := L (s : string) | Par.

(** The pieces the parameters stand for. *)
Fixpoint match_path (r : list Seg) (p : list string) : option (list string) :=
  match r, p with
  | [], [] => Some []
  | L s :: r, x :: p => if same s x then match_path r p else None
  | Par :: r, x :: p => if same x "" then None else cons x <$> match_path r p
  | _, _ => None
  end.

Inductive Verb := get | post | any.
Definition allows (v : Verb) (m : Method) : bool :=
  match v, m with get, (GET | HEAD) | post, POST | any, _ => true | _, _ => false end.

(** The extractors of a handler: [Path] of one or two parameters, [Query], [Bytes]. *)
Definition then_ {A B} (x : result A Z) (k : A -> result B Z) : result B Z := match x with Ok a => k a | Err c => Err c end.
Definition par (k : string -> Request -> result Endpoint Z) (ps : list string) (rq : Request) : result Endpoint Z :=
  match ps with [x] => then_ (unescape x) (fun x => k x rq) | _ => Err 500 end.
Definition par2 (k : string -> string -> result Endpoint Z) (ps : list string) (_ : Request) : result Endpoint Z :=
  match ps with [x; y] => then_ (unescape x) (fun x => then_ (unescape y) (k x)) | _ => Err 500 end.
Definition no_par (k : Request -> result Endpoint Z) (_ : list string) (rq : Request) : result Endpoint Z := k rq.

Abbreviation Route := (list Seg * Verb * (list string -> Request -> result Endpoint Z))%type.

Definition a_read (rq : Request) : result Endpoint Z := Ok (AdminOf (ARead (read rq))).

Definition ops_routes : list Route := [
  ([L "healthz"; L "live"], get, no_par (fun _ => Ok Live));
  ([L "healthz"; L "ready"], get, no_par (fun _ => Ok Ready));
  ([L "admin"; L "sfus"], get, no_par a_read);
  ([L "admin"; L "rooms"], get, no_par a_read);
  ([L "admin"; L "users"], get, no_par a_read);
  ([L "admin"; L "snapshot"], get, no_par a_read);
  ([L "admin"; L "drops"], get, no_par a_read);
  ([L "admin"; L "transit"], get, no_par a_read);
  ([L "admin"; L "bus"], get, no_par (fun rq => then_ (query rq) (fun _ => a_read rq)));
  ([L "admin"; L "rooms"; Par; L "snapshot"], get, par (fun _ => a_read));
  ([L "admin"; L "sfus"; Par; L "rooms"], get, par (fun _ => a_read));
  ([L "admin"; L "users"; Par; L "media"], get, par (fun _ => a_read));
  ([L "admin"; L "users"; Par; L "probe"], get, par (fun _ => a_read));
  ([L "admin"; L "users"; Par; L "cut"], post, par (fun u _ => Ok (AdminOf (ACut u))));
  ([L "admin"; L "rooms"; Par; L "reap"; Par], post, par2 (fun rm u => Ok (AdminOf (AReap rm u))));
  ([L "admin"; L "rooms"; Par; L "destroy"], post, par (fun rm rq => then_ (query rq) (fun q => Ok (AdminOf (ADestroy rm (q !! "if_version"))))));
  ([L "admin"; L "supervisor"; L "status"], get, no_par a_read);
  ([L "admin"; L "supervisor"; L "load"; Par], post, par (fun id _ => Ok (AdminOf (ASup id "load" None))));
  ([L "admin"; L "supervisor"; L "stop"; Par], post, par (fun id _ => Ok (AdminOf (ASup id "stop" None))));
  ([L "admin"; L "supervisor"; L "kill"; Par], post, par (fun id rq => then_ (query rq) (fun q => Ok (AdminOf (ASup id "kill" (q !! "if_epoch"))))));
  ([L "admin"; L "supervisor"; L "shutdown"], post, no_par (fun rq => then_ (query rq) (fun q => Ok (AdminOf (AShutdown (q !! "confirm"))))));
  ([L "admin"; L "log-level"], post, no_par (fun rq => then_ (body rq) (fun b => Ok (AdminOf (ALogLevel b))))) ].

Definition client_routes : list Route := [
  ([L "ws"], get, no_par (fun rq => match upgrade rq with Some c => Err c | None => Ok Ws end));
  ([L "auth"; L "token"], post, no_par (fun rq => then_ (body rq) (fun b => Ok (TokenOf b))));
  ([L "rooms"], any, no_par (fun rq => then_ (body rq) (fun b => Ok (Rooms (method rq) b))));
  ([L "rooms"; Par], any, par (fun rm rq => then_ (query rq) (fun _ => Ok (RoomOf (method rq) rm)))) ].

(** [nest]: a route below the base path. *)
Definition below (b : list string) (r : Route) : Route := let '(s, v, k) := r in (map L b ++ s, v, k).

(** With a base path, what is for operators is there and at the root, the rest only there. Two
    routes that fit the same path make axum panic at the start, so the first is the only one. *)
Definition router (hub : Hub) : list Route :=
  match base hub with
  | [] => ops_routes ++ client_routes
  | b => ops_routes ++ map (below b) (client_routes ++ ops_routes)
  end.

Fixpoint find_route (l : list Route) (rq : Request) : result Endpoint Z :=
  match l with
  | [] => Err 404
  | (s, v, k) :: l =>
    match match_path s (path rq) with
    | Some ps => if allows v (method rq) then k ps rq else Err 405
    | None => find_route l rq
    end
  end.
Definition route (hub : Hub) (rq : Request) : result Endpoint Z := find_route (router hub) rq.

Definition serve (hub : Hub) (now now_ms : Z) (rq : Request) : Response * list Act :=
  match route hub rq with
  | Err st => (plain st, [])
  | Ok e => handle hub now now_ms (loopback rq) (headers rq) e
  end.

(** ** Nothing is done for somebody who may not *)

(** An operator: from this host and without a token, or with one that is honoured. *)
Definition operator (hub : Hub) (now : Z) (loopback : bool) (h : Headers) : Prop :=
  (loopback = true /\ authorization h = None) \/
  exists tok k, authorization h = Some (Some ("Bearer " +:+ tok)) /\ Token.verify_ops peek (accounts hub) (ops_token tok) now = inr k.

(** A user: with a session, here or at another hub, or with a token that is honoured. *)
Definition known (hub : Hub) (now : Z) (h : Headers) : Prop :=
  (exists sid u, x_session h = Some (Some sid) /\ (sessions hub !! sid = Some u \/ find_sess sid = Some u)) \/
  exists tok i, authorization h = Some (Some ("Bearer " +:+ tok)) /\ Token.verify_user (J := J) (accounts hub) (user_token tok) now = inr i.

(** Where a request was sent to: an operator's, at the root or below the base path, or a
    client's. *)
Definition ops_at (hub : Hub) (rq : Request) (p : list string) : Prop := method rq = POST /\ (path rq = p \/ path rq = base hub ++ p).
Definition client_at (hub : Hub) (rq : Request) (p : list string) : Prop := path rq = base hub ++ p.
Definition asks (rq : Request) (k v : string) : Prop := exists q, query rq = Ok q /\ q !! k = Some v.

(** What must be so for an act. *)
Definition warranted (hub : Hub) (now : Z) (rq : Request) (a : Act) : Prop :=
  let op := operator hub now (loopback rq) (headers rq) in
  match a with
  | Upgrade => client_at hub rq ["ws"] /\ origin_ok hub (headers rq) = true
  | Issue t => client_at hub rq ["auth"; "token"] /\ method rq = POST /\ exists b req acc, body rq = Ok b /\ parse_req b = Ok req /\
      Token.issue json_len (accounts hub) req (token_ttl_secs hub) (metadata_max_bytes hub) now = inr t /\
      acc ∈ Token.keys (accounts hub) /\ Token.key acc = Token.api_key req /\ Token.secret acc = Token.api_secret req
  | CreateRoom n rm => client_at hub rq ["rooms"] /\ method rq = POST /\ known hub now (headers rq) /\ valid_room_id rm = true /\
      (routing hub !! rm = Some n \/
       routing hub !! rm = None /\ place rm = Some (n, true) /\ (max_rooms hub <= 0 \/ Z.of_nat (size (routing hub)) < max_rooms hub))
  | CutUser u => op /\ exists x, ops_at hub rq ["admin"; "users"; x; "cut"] /\ unescape x = Ok u
  | ReapUser n rm u => op /\ (exists x y, ops_at hub rq ["admin"; "rooms"; x; "reap"; y] /\ unescape x = Ok rm /\ unescape y = Ok u) /\ routing hub !! rm = Some n
  | DestroyRoom n rm iv => op /\ (exists x, ops_at hub rq ["admin"; "rooms"; x; "destroy"] /\ unescape x = Ok rm) /\ asks rq "if_version" iv /\ routing hub !! rm = Some n
  | UnitCmd id which => op /\ (exists x, ops_at hub rq ["admin"; "supervisor"; which; x] /\ unescape x = Ok id) /\
      exists i t, Sup.unit_ix id (sup hub) = Some (i, t) /\ Sup.urole t = Sup.RSfu /\
        (which = "load" \/ which = "stop" \/ which = "kill" /\ asks rq "if_epoch" (default "" (Sup.epoch (Sup.rec t))))
  | BusDown which => op /\ (which = "stop" \/ which = "kill") /\
      exists x id i t, ops_at hub rq ["admin"; "supervisor"; which; x] /\ unescape x = Ok id /\ Sup.unit_ix id (sup hub) = Some (i, t) /\ Sup.urole t = Sup.RBus
  | Shutdown => op /\ ops_at hub rq ["admin"; "supervisor"; "shutdown"] /\ asks rq "confirm" (node hub)
  | SetLevel l _ => op /\ ops_at hub rq ["admin"; "log-level"] /\ is_level l = true
  end.

Lemma strip_prefix_split p s r : Keys.strip_prefix p s = Some r -> s = p +:+ r.
Proof.
  revert s. induction p as [|a p IH]; intros s; cbn; [by intros [= ->]|]. destruct s as [|b s]; [done|].
  destruct (Ascii.eqb_spec a b) as [->|]; [|done]. intros H. by rewrite (IH s H).
Qed.

Lemma bearer_spec h tok : bearer h = Some tok -> authorization h = Some (Some ("Bearer " +:+ tok)).
Proof.
  unfold bearer. destruct (authorization h) as [[v|]|]; cbn [to_str mbind option_bind]; try done. intros H%strip_prefix_split. by rewrite H.
Qed.

Lemma admin_auth_operator hub now lb h : admin_auth hub now lb h = None -> operator hub now lb h.
Proof.
  unfold admin_auth. destruct (lb && bool_decide (authorization h = None)) eqn:E.
  - apply andb_true_iff in E as [-> E]. apply bool_decide_eq_true in E. intros _. by left.
  - destruct (bearer h) as [tok|] eqn:Eb; [|done]. destruct (Token.verify_ops _ _ _ _) as [c|k] eqn:Ev; [done|]. intros _. right. exists tok, k. split; [by apply bearer_spec|done].
Qed.

Lemma who_known hub now h w : who hub now h = Ok w -> known hub now h.
Proof.
  unfold who. set (bt := match bearer h with None => _ | Some _ => _ end).
  assert (B : forall w, bt = Ok w -> known hub now h).
  { subst bt. intros w'. destruct (bearer h) as [tok|] eqn:Eb; [|done]. destruct (Token.verify_user _ _ _) as [c|i] eqn:Ev; [done|]. intros _. right. exists tok, i. split; [by apply bearer_spec|done]. }
  destruct (to_str (x_session h)) as [sid|] eqn:Es; [|apply B]. assert (x_session h = Some (Some sid)) as Ex by (by destruct (x_session h) as [[]|]; cbn in Es; simplify_eq).
  destruct (sessions hub !! sid) as [u|] eqn:E1; [intros _; left; eauto|]. destruct (find_sess sid) as [u|] eqn:E2; [intros _; left; eauto|].
  destruct (bool_decide _); [done|apply B].
Qed.

Lemma create_spec hub v n rm o : create hub v = Ok (n, rm, o) -> valid_room_id rm = true /\
  (routing hub !! rm = Some n \/ routing hub !! rm = None /\ place rm = Some (n, true) /\ (max_rooms hub <= 0 \/ Z.of_nat (size (routing hub)) < max_rooms hub)).
Proof.
  unfold create. destruct v as [f|]; [|done]. destruct (match f !! "name" with Some _ => _ | None => _ end); [done|].
  destruct (match f !! "room_id" with Some _ => _ | None => _ end) as [r|]; [|done]. destruct (field_u32 f "capacity") as [cap|c]; [|done].
  destruct (match cap with Some _ => _ | None => _ end); [done|]. destruct (valid_room_id r) eqn:Ev; cbn [negb]; [|done].
  destruct ((0 <? max_rooms hub) && _ && _) eqn:Eq; [done|]. destruct (routing hub !! r) as [m|] eqn:Er; [intros [= <- <- _]; auto|].
  destruct (place r) as [[m live]|] eqn:Ep; [|done]. destruct live; [|done]. intros [= <- <- _]. split; [done|]. right. split; [done|]. split; [done|].
  rewrite bool_decide_eq_true_2, andb_true_r in Eq by done. apply andb_false_iff in Eq as [Eq|Eq]; [apply Z.ltb_ge in Eq|apply Z.leb_gt in Eq]; lia.
Qed.

(** *** What the table leads to *)

Fixpoint fill (r : list Seg) (ps : list string) : list string :=
  match r, ps with
  | L s :: r, _ => s :: fill r ps
  | Par :: r, x :: ps => x :: fill r ps
  | _, _ => []
  end.

Lemma match_path_fill r p ps : match_path r p = Some ps -> p = fill r ps.
Proof.
  revert p ps. induction r as [|[s|] r IH]; intros [|x p] ps; cbn; unfold same; try done.
  - destruct (String.eqb_spec s x) as [->|]; [|done]. by intros <-%IH.
  - destruct (String.eqb x ""); [done|]. destruct (match_path r p) as [qs|] eqn:E; [|done]. intros [= <-]. by rewrite <- (IH _ _ E).
Qed.

Lemma match_path_below b r p ps : match_path (map L b ++ r) p = Some ps -> exists p', p = b ++ p' /\ match_path r p' = Some ps.
Proof.
  revert p. induction b as [|x b IH]; intros p; cbn; unfold same; [eauto|]. destruct p as [|y p]; [done|].
  destruct (String.eqb_spec x y) as [->|]; [|done]. intros (p' & -> & H)%IH. eauto.
Qed.

(** The request is taken by the route at the rest [p] of its path, and leads to [e]. *)
Definition takes (rq : Request) (p : list string) (e : Endpoint) (r : Route) : Prop :=
  exists ps, match_path r.1.1 p = Some ps /\ allows r.1.2 (method rq) = true /\ r.2 ps rq = Ok e.

Lemma find_route_takes l rq e : find_route l rq = Ok e -> Exists (takes rq (path rq) e) l.
Proof.
  induction l as [|[[s v] k] l IH]; cbn; [done|]. destruct (match_path s (path rq)) as [ps|] eqn:E; [|by right; auto].
  destruct (allows v (method rq)) eqn:Ea; [|done]. intros H. left. by exists ps.
Qed.

Lemma takes_below rq e b l : Exists (takes rq (path rq) e) (map (below b) l) -> exists p, path rq = b ++ p /\ Exists (takes rq p e) l.
Proof.
  intros (r & Hin & ps & Hm & Ha & Hk)%Exists_exists. apply list_elem_of_fmap in Hin as ([[s v] k] & -> & Hin). cbn in *.
  apply match_path_below in Hm as (p & Hp & Hm). exists p. split; [done|]. apply Exists_exists. exists (s, v, k). split; [done|]. by exists ps.
Qed.

Lemma route_takes hub rq e : route hub rq = Ok e ->
  (exists p, (path rq = p \/ path rq = base hub ++ p) /\ Exists (takes rq p e) ops_routes) \/
  (exists p, path rq = base hub ++ p /\ Exists (takes rq p e) client_routes).
Proof.
  intros H%find_route_takes. unfold router in H. destruct (base hub) as [|x b] eqn:Eb; apply Exists_app in H as [H|H]; eauto.
  apply takes_below in H as (p & Hp & H). apply Exists_app in H as [H|H]; eauto.
Qed.

(** What an endpoint says of the request that led to it, [p] being its path without the base. *)
Definition ops_leads (rq : Request) (p : list string) (e : Endpoint) : Prop :=
  match e with
  | Live | Ready | AdminOf (ARead _) => True
  | AdminOf (ACut u) => method rq = POST /\ exists x, p = ["admin"; "users"; x; "cut"] /\ unescape x = Ok u
  | AdminOf (AReap rm u) => method rq = POST /\ exists x y, p = ["admin"; "rooms"; x; "reap"; y] /\ unescape x = Ok rm /\ unescape y = Ok u
  | AdminOf (ADestroy rm iv) => method rq = POST /\ exists x q, p = ["admin"; "rooms"; x; "destroy"] /\ unescape x = Ok rm /\ query rq = Ok q /\ iv = q !! "if_version"
  | AdminOf (ASup id which ep) => method rq = POST /\ exists x, p = ["admin"; "supervisor"; which; x] /\ unescape x = Ok id /\
      (which = "load" \/ which = "stop" \/ which = "kill" /\ exists q, query rq = Ok q /\ ep = q !! "if_epoch")
  | AdminOf (AShutdown c) => method rq = POST /\ p = ["admin"; "supervisor"; "shutdown"] /\ exists q, query rq = Ok q /\ c = q !! "confirm"
  | AdminOf (ALogLevel _) => method rq = POST /\ p = ["admin"; "log-level"]
  | _ => False
  end.

Definition client_leads (rq : Request) (p : list string) (e : Endpoint) : Prop :=
  match e with
  | Ws => p = ["ws"]
  | TokenOf b => method rq = POST /\ p = ["auth"; "token"] /\ body rq = Ok b
  | Rooms m _ => m = method rq /\ p = ["rooms"]
  | RoomOf _ _ => True
  | _ => False
  end.

Lemma then_ok {A B} (x : result A Z) (k : A -> result B Z) b : then_ x k = Ok b -> exists a, x = Ok a /\ k a = Ok b.
Proof. destruct x; cbn; [eauto|done]. Qed.

Lemma allows_post m : allows post m = true -> m = POST.
Proof. by destruct m. Qed.

Ltac take_apart :=
  repeat match goal with
  | H : then_ _ _ = Ok _ |- _ => apply then_ok in H as (? & ? & H)
  | H : par _ ?ps _ = Ok _ |- _ => unfold par in H; destruct ps as [|? [|]]; [done| |done]
  | H : par2 _ ?ps _ = Ok _ |- _ => unfold par2 in H; destruct ps as [|? [|? [|]]]; [done|done| |done]
  | H : no_par _ _ _ = Ok _ |- _ => unfold no_par in H
  | H : a_read _ = Ok _ |- _ => unfold a_read in H
  | H : Ok _ = Ok _ |- _ => injection H as <-
  | H : allows post _ = true |- _ => apply allows_post in H
  | H : match_path _ _ = Some _ |- _ => apply match_path_fill in H; cbn [fill] in H
  end.

Lemma ops_routes_lead rq p e : Exists (takes rq p e) ops_routes -> ops_leads rq p e.
Proof.
  intros H. unfold ops_routes in H. repeat (apply Exists_cons in H as [H|H]); [..|by apply Exists_nil in H];
    destruct H as (ps & Hm & Ha & Hk); cbn [fst snd] in *; take_apart; cbn; eauto 12.
Qed.

Lemma client_routes_lead rq p e : Exists (takes rq p e) client_routes -> client_leads rq p e.
Proof.
  intros H. unfold client_routes in H. repeat (apply Exists_cons in H as [H|H]); [..|by apply Exists_nil in H];
    destruct H as (ps & Hm & Ha & Hk); cbn [fst snd] in *; take_apart; cbn; auto.
  destruct (upgrade rq); [done|]. by injection Hk as <-.
Qed.

(** *** What the handlers do *)

Lemma asked_acts a id i which hub t : Sup.unit_ix id (sup hub) = Some (i, t) -> a ∈ (asked id which (Sup.request 0 id which (sup hub)).2).2 ->
  (a = UnitCmd id which /\ Sup.urole t = Sup.RSfu) \/ (a = BusDown which /\ Sup.urole t = Sup.RBus /\ which <> "load").
Proof.
  intros Hu. unfold Sup.request. rewrite Hu. destruct (Sup.urole t) eqn:Er.
  1, 2: destruct (String.eqb_spec which "load"); cbn; [|rewrite ?orb_false_r]; set_solver.
  destruct (Sup.pc t); cbn; set_solver.
Qed.

Lemma sup_ctl_acts a hub id which ep : a ∈ (sup_ctl hub id which ep).2 -> exists i t, Sup.unit_ix id (sup hub) = Some (i, t) /\
  (a = UnitCmd id which /\ Sup.urole t = Sup.RSfu /\ (which = "kill" -> ep = Some (default "" (Sup.epoch (Sup.rec t)))) \/
   a = BusDown which /\ Sup.urole t = Sup.RBus /\ which <> "load").
Proof.
  unfold sup_ctl. destruct (Sup.unit_ix id (sup hub)) as [[i t]|] eqn:Eu; [|set_solver]. intros H. exists i, t. split; [done|].
  destruct (same which "kill" && is_sfu (Sup.urole t)) eqn:Ek.
  - destruct ep as [want|]; [|set_solver]. destruct (same want _) eqn:Es; [|set_solver]. apply String.eqb_eq in Es as <-.
    apply (asked_acts _ _ _ _ _ _ Eu) in H as [[-> ?]|?]; auto.
  - apply (asked_acts _ _ _ _ _ _ Eu) in H as [[-> Hr]|?]; [left|by right]. split_and!; [done..|]. intros ->. by rewrite Hr in Ek.
Qed.

Lemma rooms_acts hub now m h b a : a ∈ (rooms hub now m h b).2 -> m = POST /\ known hub now h /\ exists n rm, a = CreateRoom n rm /\ valid_room_id rm = true /\
  (routing hub !! rm = Some n \/ routing hub !! rm = None /\ place rm = Some (n, true) /\ (max_rooms hub <= 0 \/ Z.of_nat (size (routing hub)) < max_rooms hub)).
Proof.
  unfold rooms. destruct (bool_decide _); [set_solver|]. destruct (who hub now h) as [w|c] eqn:Ew; [|cbn; set_solver].
  destruct m; cbn [fst snd]; try set_solver. destruct (parse b) as [v|]; [|cbn; set_solver]. destruct (create hub v) as [[[n r] o]|c] eqn:Ec; [|cbn; set_solver].
  unfold perform. cbn [snd]. intros ->%list_elem_of_singleton. apply create_spec in Ec. split; [done|]. split; [by eapply who_known|]. eauto.
Qed.

Lemma client_warranted hub now now_ms rq p e a :
  path rq = base hub ++ p -> client_leads rq p e -> a ∈ (handle hub now now_ms (loopback rq) (headers rq) e).2 -> warranted hub now rq a.
Proof.
  intros Hp. destruct e; cbn [client_leads handle snd]; try done; try set_solver.
  - intros ->. unfold ws. destruct (origin_ok _ _) eqn:Eo; [|cbn; set_solver]. by intros ->%list_elem_of_singleton.
  - intros (Hm & -> & Hb). unfold token. destruct (parse_req b) as [req|] eqn:Er; [|cbn; set_solver].
    destruct (Token.issue _ _ _ _ _ _) as [c|t] eqn:Ei; [cbn; set_solver|]. intros ->%list_elem_of_singleton.
    destruct (Token.issue_account _ _ _ _ _ _ _ Ei) as (acc & ?). split; [done|]. split; [done|]. by exists b, req, acc.
  - intros [-> ->] (Hm & Hk & n & rm & -> & Hv & Hr)%rooms_acts. by split_and!.
Qed.

Lemma ops_warranted hub now now_ms rq p e a : path rq = p \/ path rq = base hub ++ p -> ops_leads rq p e ->
  a ∈ (handle hub now now_ms (loopback rq) (headers rq) e).2 -> warranted hub now rq a.
Proof.
  intros Hp. destruct e as [| | | | | |ad]; cbn [ops_leads handle snd]; try done; try set_solver. unfold admin.
  destruct (admin_auth _ _ _ _) as [c|] eqn:Ea; [cbn; set_solver|]. apply admin_auth_operator in Ea. destruct ad as [r|u|rm u|rm iv|id which ep|c|b]; cbn [snd].
  - set_solver.
  - intros (Hm & x & -> & Hx) ->%list_elem_of_singleton. split; [done|]. by exists x.
  - intros (Hm & x & y & -> & Hx & Hy). unfold reap. destruct (routing hub !! rm) as [n|] eqn:Er; [|cbn; set_solver]. intros ->%list_elem_of_singleton.
    split_and!; [done| |done]. by exists x, y.
  - intros (Hm & x & q & -> & Hx & Hq & ->). unfold destroy. destruct (q !! "if_version") as [v|] eqn:Ev; [|cbn; set_solver].
    destruct (routing hub !! rm) as [n|] eqn:Er; [|cbn; set_solver]. intros ->%list_elem_of_singleton. split_and!; [done|by exists x|by exists q|done].
  - intros (Hm & x & -> & Hx & Hw) (i & t & Hu & [(-> & Hr & He)|(-> & Hr & Hl)])%sup_ctl_acts; (split; [done|]).
    + split; [by exists x|]. exists i, t. split_and!; [done..|]. destruct Hw as [|[|[-> (q & Hq & ->)]]]; [by auto..|]. right; right. split; [done|]. exists q. auto.
    + split; [destruct Hw as [|[|[]]]; [done|auto..]|]. by exists x, id, i, t.
  - intros (Hm & -> & q & Hq & ->). unfold shutdown. destruct (q !! "confirm") as [c|] eqn:Ec; [|cbn; set_solver]. destruct (same c (node hub)) eqn:Es; [|cbn; set_solver].
    apply String.eqb_eq in Es as ->. intros ->%list_elem_of_singleton. split_and!; [done..|]. by exists q.
  - intros (Hm & ->). unfold log_level. destruct (default NotObj (parse b)) as [o|]; [|cbn; set_solver]. destruct (o !! "level") as [[]|]; try (cbn; set_solver).
    destruct (is_level _) eqn:El; [|cbn; set_solver]. by intros ->%list_elem_of_singleton.
Qed.

(** C36: Whatever is handed out or done on a request over HTTP, at whatever path, the one who
    asks may have it. A connection is upgraded only for an origin that is absent (or no text),
    allowed or the hub's own; a token is given only against the key and the secret of an account; a room
    is made only for a user with a session or a token that is honoured, within the quota. All
    the rest is done only for an operator, on this host and without a token or with a token
    that is honoured, and only by a POST to the endpoint that is for it: to destroy a room it
    must name a version; to kill an SFU unit, the epoch the hub knew of the unit when it looked
    (the kill itself comes later, see the findings), while stop and load need nothing more; to
    end the hub by the shutdown endpoint, the node's own name. The hub also ends, without the
    node's name, when an operator stops or kills the unit of the in-process bus; a request for
    a log unit does nothing. *)
Theorem http_acts_warranted hub now now_ms rq a : a ∈ (serve hub now now_ms rq).2 -> warranted hub now rq a.
Proof.
  unfold serve. destruct (route hub rq) as [e|st] eqn:Er; [|cbn; set_solver].
  apply route_takes in Er as [(p & Hp & H)|(p & Hp & H)]; [apply ops_routes_lead in H|apply client_routes_lead in H].
  - by eapply ops_warranted.
  - by eapply client_warranted.
Qed.

End Hub.

(** ** Concrete cases *)

#[local] Instance user_jwt : Token.Jwt (Token.UserClaims (J := string)) (string * Token.UserClaims) := Token.open_jwt Token.exp.
#[local] Instance ops_jwt : Token.Jwt Token.OpsClaims (string * Token.OpsClaims) := Token.open_jwt Token.o_exp.

Definition no_user (s : string) : string * Token.UserClaims (J := string) := (s, Token.mkUser None None 0 false None None 0 0).
Definition an_operator (s : string) : string * Token.OpsClaims := (s, Token.mkOps "k" true 0 100).
Definition sfu_task : Sup.Task :=
  Sup.mkTask (Sup.mkCfg "sfu" Sup.Process 0 "sfu" true []) Sup.RSfu (Sup.mkRec Sup.Running 0 None (Some "e1") None []) (Sup.Up true) true false [].
Definition bus_task : Sup.Task := Sup.mkTask Sup.bus_unit Sup.RBus (Sup.mkRec Sup.Running 0 None None None []) Sup.New true true [].
Definition a_hub : Hub := mkHub ["ox"] Token.one_account "n1" ∅ (Sup.mkWorld [bus_task; sfu_task] false true None) ∅ [] 60 60 0 60 2048.
Definition ann (b : list byte) : result (Token.TokenReq (J := string)) bool := match b with [] => Err true | _ => Ok Token.ann_req end.
Definition no_header : Headers := mkHeaders None None None None.
Definition with_token (t : string) : Headers := mkHeaders (Some (Some t)) None None None.
Definition to (m : Method) (p : list string) (q : gmap string string) (h : Headers) (lb : bool) : Request := mkRequest m p (Ok q) h (Ok ["0"%byte]) lb.
Definition size_of (s : string) : Z := Z.of_nat (String.length s).

Abbreviation serve_here := (serve no_user an_operator (fun t => Some t.2) (fun _ => None) ann size_of (fun _ => None) (fun _ => None) (fun _ => None) Ok
  (fun _ => None) (fun _ => ok) None (fun _ _ => None) "id" a_hub 50 50000).

Definition kill_at (e : string) : gmap string string := {["if_epoch" := e]}.
Definition kill_sfu : Request := to POST ["ox"; "admin"; "supervisor"; "kill"; "sfu"] (kill_at "e1") (with_token "Bearer s") false.

Lemma http_acts_warranted_witness :
  (serve_here kill_sfu).2 = [UnitCmd "sfu" "kill"] /\
  serve_here (to POST ["admin"; "supervisor"; "kill"; "sfu"] (kill_at "e1") (with_token "Bearer x") false) = (mkRes 401 (Some 2002) None, []) /\
  serve_here (to POST ["admin"; "supervisor"; "kill"; "sfu"] (kill_at "e0") no_header true) = (mkRes 409 (Some 3009) None, []) /\
  (serve_here (to POST ["ox"; "auth"; "token"] ∅ no_header false)).2 = [Issue ("s", Token.mkUser (Some "u1") None 1 false None None 50 110)] /\
  serve_here (to POST ["auth"; "token"] ∅ no_header false) = (plain 404, []) /\
  serve_here (to GET ["ox"; "admin"; "supervisor"; "shutdown"] {["confirm" := "n1"]} no_header true) = (plain 405, []) /\
  warranted no_user an_operator (fun t => Some t.2) ann size_of (fun _ => None) (fun _ => None) Ok a_hub 50 kill_sfu (UnitCmd "sfu" "kill").
Proof.
  do 6 (split; [vm_compute; reflexivity|]).
  apply (http_acts_warranted no_user an_operator (fun t => Some t.2) (fun _ => None) ann size_of (fun _ => None) (fun _ => None) (fun _ => None) Ok
    (fun _ => None) (fun _ => ok) None (fun _ _ => None) "id" a_hub 50 50000).
  vm_compute. left.
Defined.

(** The hub ends on a request that names neither the node nor an epoch: stopping or killing the
    unit of the in-process bus is taken as the failure of the bus. The endpoint for it asks for
    the node's name. *)
Lemma bus_unit_ends_hub :
  serve_here (to POST ["admin"; "supervisor"; "stop"; "bus"] ∅ no_header true) = (ok, [BusDown "stop"]) /\
  serve_here (to POST ["admin"; "supervisor"; "shutdown"] ∅ no_header true) = (fail MissingField, []).
Proof. split; vm_compute; reflexivity. Qed.

End Http.
